(* ===== verification/_CoqProject ===== *)
-Q . S2P
Prelude.v
ListApi.v
DList.v
Machine.v
Thumb.v
MachineFacts.v
ThumbSafe.v
ThumbSpec.v
Frame.v
ThumbFlow.v
Bus.v
Control.v
SelfTest.v
MemBytes.v
Elf.v
Gdb.v
GdbSpec.v
SimMain.v
Fw.v
Init.v
Sched.v
Semaphore.v
SchedSpec.v
SchedRun.v
SchedProps.v
Irq.v
FwTests.v
Malloc.v
MallocSpec.v
MallocRun.v
Early.v
File.v
CString.v
CStringSpec.v
ReadlineSpec.v
Printf.v
PrintfSpec.v
Timer.v
TimerSpec.v
TimerProps.v
Delay.v
Vfs.v
VfsSpec.v
Crc.v
Eeprom.v
EepromSpec.v
Config.v
ConfigSpec.v
Console.v
ConsoleSpec.v
Sensor.v
Sht2x.v
CanNode.v
CanNodeSpec.v
CanNodeProps.v
I2c.v
I2cSpec.v
CanRom.v
Lock.v
CanRomSpec.v
Uart.v
UartSpec.v
ConfigCmd.v
ConfigCmdSpec.v
ConfigFields.v
Words.v
Switch.v
SwitchSpec.v
Boot.v
BootSpec.v
Log.v
Spawn.v
Gpio.v
Samd20.v
Samd20Spec.v
Startup.v
BusController.v
Boards.v
