(* ===== verification/Prelude.v ===== *)
(** * TheFirmware: verification library

    TheFirmware is a small operating system for ARM Cortex-M0 boards (LPC11xx, SAMD20),
    with drivers, a console, a configuration store and the software of a CAN node;
    [tools/simulator] is a simulator of a Cortex-M0+ with a debugger stub, on which the
    firmware's tests run.  This library models the C code of both and proves what makes
    it correct.  C paths below are relative to [src/].

    ** Conventions

    A pointer is its address, a [Z], and NULL is 0; a [w]-bit unsigned value is a [Z]
    with [in_u w], and every store to a C object wraps ([u8], [u16], [u32], [i8],
    [i32]).  The firmware's functions run in the state and error monad [M] of [Fw]: a
    failed [assert], an access to no object ([WildAccess]) and a loop that exceeds its
    fuel ([Diverges]) are faults.  The simulator's functions run in the monad of
    [Machine], whose outcomes also distinguish undefined behaviour and the end of the
    process.  A loop that is not structural gets fuel computed from the state (the number
    of entries of a list, of bytes of memory) or, where it depends on a device, a bound
    that is an argument; the theorems prove that this fuel is enough and that the
    functions return.  Theorems carry the identifiers C1 to C40 in the order of their
    importance.

    ** The files

    [Prelude] holds the words, the closure of step relations and the generic lemmas;
    [Fw] the firmware's monad.

    The kernel.  [ListApi] is the interface of [include/list.h] as a class of operations
    with laws; [DList] is [core/list.c] and its instance, with the traversal
    macros.  [Sched] ([core/thread.c], [core/scheduler.c]) and [Semaphore]
    ([core/semaphore.c]) are written against the interface only.  [SchedSpec] defines the
    abstract kernel, in which queues are sequences; [SchedRun] proves that every
    sequence of calls and reschedules, made when they may be, refines it, on any lists,
    and that an overrun stack is noticed ([kernel_refines]); [SchedProps] derives the
    order of scheduling, the stack marks and the limits of semaphores.  [Timer] is
    [core/timer.c] and the SysTick of [arch/arm-m/systick.c]; [TimerSpec] and
    [TimerProps] prove that managed timeouts implement a queue of times that count from
    the last setting of the device, how late a call on the running clock makes them, and
    that they fire in order; [Delay] composes timers and scheduler ([delay],
    [delay_handler]), with the runs in which a delay fails.  [Irq] is [platform/irq.c]
    with the dispatch of [arch/arm-m/arch.c], which misroutes SVCall; [Init] the
    initialisation hooks of [top/init.c].  [Startup] composes kernel, hooks and console
    into [firmware_main] of [top/main.c] and proves that the main thread and the
    console's come to run, whether [target_main] returns or not ([firmware_starts]).

    The processor port ([arch/arm-m/arch.c]).  [Words]: words in memory.  [Switch]: the
    exception handlers, instruction by instruction, on the registers and the kernel of
    [Sched]; [SwitchSpec] proves over runs of threads, calls, interrupts, creations and
    reschedules that every thread gets its registers back ([threads_resume]).  [Boot] and
    [BootSpec]: the reset handler and the vector table; the sections are copied and
    cleared before [firmware_main] is called ([reset_initialises]).  [Early]: the heap
    and the stack registers of [arch_early_init].

    Memory, strings, output.  [Malloc], [MallocSpec], [MallocRun]: the heap of
    [core/malloc.c] against an abstract allocator, for as long as the free list stays
    sane and has a block for every allocation, with the runs that lose or overlap
    blocks.  [CString] and [CStringSpec]: [core/string.c] over a map of bytes;
    [ReadlineSpec]: line editing.  [File]: [core/file.c].  [Printf] and [PrintfSpec]:
    [lib/printf/printf.c] against a reference rendering, and numbers read back by
    [strtol]; [Log]: the lines of [lib/log/log.c] and the report of a failed assertion.

    Services.  [Vfs] and [VfsSpec]: [lib/vfs/vfs.c], paths against the tree they
    walk.  [Crc]: [lib/crc/crc8_maxim.c], linear and sensitive to bursts.  [Eeprom] and
    [EepromSpec]: the 24xx64 driver, which discharges the class of [dev/eeprom.h] from
    the data sheet; [Config] and [ConfigSpec]: [lib/config/config.c] against that
    class.  [Console] and [ConsoleSpec]: a round of [lib/console/console.c], from keys to
    the command, through [Printf] and [CString], and what Ctrl-C leaves; [Spawn]:
    [console_spawn] on the kernel, whose new thread starts with the console in r0, and
    [printf].  [ConfigCmd]: the configuration command of [lib/config/config_cmd.c] with
    the descriptions of [lib/can_node/can_node.c]; [ConfigCmdSpec] proves its walk down
    the tree and its messages, [ConfigFields] that it sets exactly the field a path
    names and that what it saves is loaded again, with the paths that are read more
    loosely.  [I2c] and [I2cSpec]: the interrupt-driven I2C master of
    [platform/lpc11xx/i2c.c]; the documented status codes of the controller are the laws
    of a class, and a transfer refines what the device on the bus sees.  [Sensor]: the
    registry of [lib/sensor/sensor.c]; [Sht2x]: the SHT2x driver and the converter,
    whose readings [I2cSpec] carries over the bus. [Gpio]: the pins of
    [platform/lpc11xx/gpio.c] and the valve of [target/valve-controller/valve.c], over a
    class of register accesses; with the firmware's own converter the valve is never
    driven.  [Lock]: what a semaphore used as a lock keeps, shared by [CanRomSpec] and
    [UartSpec].  [Uart] and [UartSpec]: the serial line of [platform/lpc11xx/printk.c],
    its writers, readers and interrupt handler as steps of one machine; the writes of
    threads stay whole, also where interrupt handlers write between them, and characters
    arrive in order, where no update of IER is interrupted.  [Samd20] and [Samd20Spec]:
    clock, serial line, pin multiplexer and pins of [platform/samd20], over the trace of
    the register accesses.  [Boards]: the MCP9800 of [peripheral/mcp9800.c] and the
    command of [target/samd20_xplained/test_cmd.c].

    The CAN node.  [CanRom]: the CAN driver on the controller's ROM
    ([platform/lpc11xx/net/can/can_rom.c] with [lib/net/can/can.c]), its critical
    sections, the callbacks the ROM makes and the semaphores they signal as steps of one
    machine; [CanRomSpec] proves that senders that wait take turns, that one that does
    not wait breaks this, and that a received frame reaches the listeners it
    matches.  [CanNode]: [lib/can_node/can_node.c], the receive callbacks and the loop of
    its thread as steps between which interrupts and other threads come; what the
    driver's [can_send] does is given there.  [CanNodeSpec] proves, over the abstract
    kernel, that no request is slept on and that outputs follow their sources;
    [CanNodeProps] that one node's readings are understood by another.  [BusController]
    composes the node with [Config], [Sensor], [Sht2x] and [Gpio] into
    [target/buscontroller/init.c]: saved settings take effect with the next start, if
    the list entry of the voltage sensor, which the code never sets, happens to be clear
    ([settings_take_effect]).

    The simulator.  [Machine]: the machine, its bus and devices and run control
    ([core/mcu.c], [peripherals/*.c], [cortex-m0p/mcu.c]); [Thumb]: the flags and the
    tables of instructions; a shift of 1 or ~0 by a count outside 0 to 31 is
    undefined.  [MachineFacts] and [ThumbSafe]: every step keeps the machine well-formed,
    with the steps that are undefined; [ThumbSpec]: data processing against the
    architecture's functions; [ThumbFlow]: decoding, branches and the step around an
    instruction; [Frame]: what no step changes; [Bus] and [Control]: memory, registers,
    reset and run control.  [MemBytes] views the bus as a map of bytes, on which [Elf]
    ([core/elf.c]) and [Gdb], [GdbSpec] ([core/gdb.c]) are specified; [SimMain] composes
    them into [main] of [simulator.c], up to the event loop ([simulator_starts]).
    [SelfTest]: [core/test.c] and [platform/sim/test.c] against the test device of the
    simulator; each test runs in the phase of its type and the verdict is that of the
    tests ([selftest_verdict]).  [FwTests]: the firmware's tests of the lists and of the
    interrupt table, run on [DList] and [Irq].

    ** What the theorems show

    Refinements of an abstract specification: the kernel, the lists, the heap, timeouts,
    interrupts, the console's thread, paths, transfers on the I2C bus, the self test.
    Equivalence with a reference definition: instructions with the ARMv6-M functions,
    printf and readline with functions on lists. Invariants: the contexts of threads,
    well-formed machines, turns of CAN senders, writers and readers of the serial line,
    the CAN node, locked flash. Round trips: the configuration through the EEPROM and
    through a start of the board, memory through the debugger's packets, numbers through
    text, readings through CAN frames. Termination and liveness: traversals, timeouts,
    [delay], the start of the firmware. Errors and bounds: refused writes, damaged data,
    characters in error, paths the configuration command refuses, the range of SysTick,
    the baud rate, the pulses of the valve, the counter of semaphores. Where the code
    does not do what it means to, a lemma proves what it does instead.

    ** What is not modelled

    The clock and pin registers in the set-up of the LPC11xx drivers, what the processor
    does when it takes an exception beyond its documented frame, the loop of the idle
    thread, vendor code and headers, generated tables, libev, [getopt] and the host's
    files are not modelled: where the modelled code relies on them they are parameters
    with documented laws.  Log messages inside other functions are left out, and so are
    the texts of the CAN driver's errors.  Interrupts come between the steps of a model:
    the kernel's calls are atomic there, as their interrupt masking makes them, except
    for [semaphore_signal], whose interrupted run is proved to fail ([signal_race]).
    What a theorem assumes of a run is in its comment; several runs in which the code
    itself breaks such an assumption have a theorem or lemma of their own. Code that is
    not built or not called has no model: the commands of [apps], which include headers
    that no longer exist, the SHT2x command, which its make file refuses, and
    [core/bootstrap.c] but for its calls of the tests.  Nor have the tests of the file
    system, which look at addresses of nodes that [Vfs] does not keep, [main] of the
    valve controller, which only calls [valve_create], and the Python tools. *)
From Stdlib Require Export ZArith Lia Bool.
From stdpp Require Export prelude gmap.

#[global] Open Scope Z_scope.

(** ** C integers *)

(** The value an unsigned [w]-bit C object holds after [x] is stored to it. *)
Definition wrap (w x : Z) : Z := x mod 2 ^ w.

(** The value a signed (two's complement) [w]-bit object holds. *)
Definition sgn (w x : Z) : Z :=
  if wrap w x <? 2 ^ (w - 1) then wrap w x else wrap w x - 2 ^ w.

Declare Scope c_scope.
Delimit Scope c_scope with c.

Abbreviation u8 := (wrap 8).
Abbreviation u16 := (wrap 16).
Abbreviation u32 := (wrap 32).
Abbreviation i8 := (sgn 8).
Abbreviation i32 := (sgn 32).

(** [in_u w x]: [x] is a value of an unsigned [w]-bit type. *)
Definition in_u (w x : Z) : Prop := 0 <= x < 2 ^ w.

(** The null pointer. *)
Definition NULL : Z := 0.

(** A C truth value. *)
Definition truth (x : Z) : bool := negb (x =? 0).

(** [bits x lo n]: the [n]-bit field of [x] that starts at bit [lo], the C
    expression [(x >> lo) & ((1 << n) - 1)]. *)
Definition bits (x lo n : Z) : Z := Z.land (Z.shiftr x lo) (Z.ones n).

Lemma truth_pos x : 0 < x -> truth x = true.
Proof. unfold truth. intros H. by rewrite (proj2 (Z.eqb_neq x 0)) by lia. Qed.

(** Pointwise update of a total store. *)
Definition upd {A : Type} (f : Z -> A) (k : Z) (v : A) : Z -> A :=
  fun i => if i =? k then v else f i.

(** ** Lists *)

(** First and last element of a list with a default, the shape the ends of a
    linked segment take. *)
Definition hd_or (d : Z) (xs : list Z) : Z := match xs with [] => d | x :: _ => x end.
Definition last_or (d : Z) (xs : list Z) : Z := List.last xs d.
Arguments last_or : simpl never.

Section Closure.
Context {A : Type} (R : A -> A -> Prop).

(** Reflexive transitive closure of a step relation. *)
Inductive steps : A -> A -> Prop :=
| steps_refl a : steps a a
| steps_more a b c : R a b -> steps b c -> steps a c.

Lemma steps_trans a b c : steps a b -> steps b c -> steps a c.
Proof. induction 1; eauto using steps. Qed.

Lemma steps_invariant (P : A -> Prop) a b :
  (forall x y, P x -> R x y -> P y) -> P a -> steps a b -> P b.
Proof. intros HP Ha Hs. induction Hs; eauto. Qed.
End Closure.

(** ** Lemmas on C integers *)

Create HintDb words.
Create Rewrite HintDb wsimp.

Lemma pow2_pos w : 0 <= w -> 0 < 2 ^ w.
Proof. intros; apply Z.pow_pos_nonneg; lia. Qed.

Lemma wrap_range w x : 0 <= w -> in_u w (wrap w x).
Proof. intros. apply Z.mod_pos_bound. by apply pow2_pos. Qed.

Lemma wrap_id w x : in_u w x -> wrap w x = x.
Proof. intros. by apply Z.mod_small. Qed.

Lemma wrap_wrap w x : wrap w (wrap w x) = wrap w x.
Proof. apply Z.mod_mod_opp_r || apply Zmod_mod. Qed.

Lemma wrap_add_l w a b : wrap w (wrap w a + b) = wrap w (a + b).
Proof. apply Zplus_mod_idemp_l. Qed.

Lemma wrap_add_r w a b : wrap w (a + wrap w b) = wrap w (a + b).
Proof. apply Zplus_mod_idemp_r. Qed.

Lemma wrap_sub_l w a b : wrap w (wrap w a - b) = wrap w (a - b).
Proof. apply Zminus_mod_idemp_l. Qed.

Lemma wrap_sub_r w a b : wrap w (a - wrap w b) = wrap w (a - b).
Proof. apply Zminus_mod_idemp_r. Qed.

(** Congruence modulo [2 ^ w], a record so that setoid rewriting does not see
    through it to the equation. *)
Record cong (w a b : Z) : Prop := Cong { cong_wrap : wrap w a = wrap w b }.

#[export] Instance cong_equiv w : Equivalence (cong w).
Proof.
  split; [by intros x|by intros x y [H]; split|].
  intros x y z [H1] [H2]. split. by rewrite H1.
Qed.

Lemma wrap_cong w x : cong w (wrap w x) x.
Proof. split. apply wrap_wrap. Qed.

#[export] Instance add_cong w : Proper (cong w ==> cong w ==> cong w) Z.add.
Proof. intros a a' [Ha] b b' [Hb]. split. by rewrite <-wrap_add_l, <-wrap_add_r, Ha, Hb, wrap_add_l, wrap_add_r. Qed.

#[export] Instance sub_cong w : Proper (cong w ==> cong w ==> cong w) Z.sub.
Proof. intros a a' [Ha] b b' [Hb]. split. by rewrite <-wrap_sub_l, <-wrap_sub_r, Ha, Hb, wrap_sub_l, wrap_sub_r. Qed.

#[export] Instance mul_cong w : Proper (cong w ==> cong w ==> cong w) Z.mul.
Proof. intros a a' [Ha] b b' [Hb]. split. unfold wrap in *. by rewrite Zmult_mod, Ha, Hb, <-Zmult_mod. Qed.

(** Prove an equation of words by dropping the inner wrap-arounds. *)
Ltac wrap_eq :=
  apply cong_wrap; repeat rewrite wrap_cong; split; f_equal; lia.

Lemma wrap_testbit w x i : 0 <= w -> Z.testbit (wrap w x) i = (i <? w) && Z.testbit x i.
Proof.
  intros Hw. unfold wrap. destruct (Z.ltb_spec i w).
  - by rewrite Z.mod_pow2_bits_low.
  - destruct (Z.lt_ge_cases i 0); [by rewrite !Z.testbit_neg_r by lia; rewrite andb_false_r|].
    by rewrite Z.mod_pow2_bits_high by lia.
Qed.

Lemma in_u_testbit_high w x i : in_u w x -> 0 <= w <= i -> Z.testbit x i = false.
Proof.
  intros Hx Hi. rewrite <-(wrap_id w x Hx), wrap_testbit by lia.
  destruct (Z.ltb_spec i w); [lia|done].
Qed.

Lemma in_u_of_testbit w x :
  0 <= w -> 0 <= x -> (forall i, w <= i -> Z.testbit x i = false) -> in_u w x.
Proof.
  intros Hw Hx Hi. split; [done|].
  assert (x = wrap w x) as ->.
  { apply Z.bits_inj'. intros i Hi'. rewrite wrap_testbit by lia.
    destruct (Z.ltb_spec i w); [done|]. by rewrite Hi. }
  by apply wrap_range.
Qed.

Lemma sgn_range w x : 0 < w -> - 2 ^ (w - 1) <= sgn w x < 2 ^ (w - 1).
Proof.
  intros Hw. unfold sgn. pose proof (wrap_range w x ltac:(lia)) as H. unfold in_u in H.
  assert (2 ^ w = 2 * 2 ^ (w - 1)) by (rewrite <-Z.pow_succ_r by lia; f_equal; lia).
  destruct (Z.ltb_spec (wrap w x) (2 ^ (w - 1))); lia.
Qed.

Lemma sgn_id w x : 0 < w -> - 2 ^ (w - 1) <= x < 2 ^ (w - 1) -> sgn w x = x.
Proof.
  intros Hw Hx. unfold sgn.
  assert (2 ^ w = 2 * 2 ^ (w - 1)) by (rewrite <-Z.pow_succ_r by lia; f_equal; lia).
  destruct (Z.lt_ge_cases x 0).
  - assert (wrap w x = x + 2 ^ w) as ->.
    { unfold wrap. rewrite <-(Z.mod_add x 1) by lia. rewrite Z.mod_small; lia. }
    destruct (Z.ltb_spec (x + 2 ^ w) (2 ^ (w - 1))); lia.
  - rewrite wrap_id by (unfold in_u; lia).
    destruct (Z.ltb_spec x (2 ^ (w - 1))); lia.
Qed.

Lemma bits_spec x lo n : 0 <= lo -> 0 <= n -> bits x lo n = (x / 2 ^ lo) mod 2 ^ n.
Proof. intros. unfold bits. by rewrite Z.land_ones, Z.shiftr_div_pow2. Qed.

Lemma bits_range x lo n : 0 <= n -> in_u n (bits x lo n).
Proof. intros. unfold bits. rewrite Z.land_ones by done. by apply wrap_range. Qed.

Lemma land_1 a : Z.land a 1 = a mod 2.
Proof. apply (Z.land_ones a 1). lia. Qed.

Lemma upd_eq {A} (f : Z -> A) k v : upd f k v k = v.
Proof. unfold upd. by rewrite Z.eqb_refl. Qed.

Lemma upd_ne {A} (f : Z -> A) k v i : i <> k -> upd f k v i = f i.
Proof. intros. unfold upd. destruct (Z.eqb_spec i k); congruence. Qed.

#[export] Hint Rewrite @upd_eq wrap_wrap wrap_add_l wrap_add_r wrap_sub_l wrap_sub_r : wsimp.
#[export] Hint Resolve wrap_range bits_range pow2_pos : words.

(** Bitwise extensionality: prove an equation of words bit by bit. *)
Ltac bitwise :=
  apply Z.bits_inj'; intros ?i ?Hi;
  repeat first
    [ rewrite Z.lor_spec | rewrite Z.land_spec | rewrite Z.lxor_spec
    | rewrite Z.ldiff_spec | rewrite Z.lnot_spec by lia
    | rewrite Z.shiftr_spec by lia | rewrite Z.shiftl_spec by lia
    | rewrite wrap_testbit by lia ].

(** ** Lemmas on lists *)

Lemma hd_or_app d xs ys : hd_or d (xs ++ ys) = hd_or (hd_or d ys) xs.
Proof. by destruct xs. Qed.

Lemma last_or_app d xs ys : last_or d (xs ++ ys) = last_or (last_or d xs) ys.
Proof.
  unfold last_or. revert xs. induction ys as [|y ys IH] using rev_ind; intros xs.
  - by rewrite app_nil_r.
  - by rewrite app_assoc, !List.last_last.
Qed.

Lemma last_or_nil d : last_or d [] = d.
Proof. done. Qed.

Lemma last_or_cons d x xs : last_or d (x :: xs) = last_or x xs.
Proof. apply (last_or_app d [x]). Qed.

Lemma last_or_snoc d xs x : last_or d (xs ++ [x]) = x.
Proof. unfold last_or. apply List.last_last. Qed.

Lemma last_or_elem d xs : xs <> [] -> last_or d xs ∈ xs.
Proof.
  destruct xs as [|x xs] using rev_ind; [done|]. intros _.
  rewrite last_or_snoc. set_solver.
Qed.

Lemma NoDup_app_comm' (xs ys : list Z) : NoDup (xs ++ ys) -> NoDup (ys ++ xs).
Proof. rewrite !NoDup_app. set_solver. Qed.

(** Removing an element from a list without duplicates. *)
Lemma filter_out_notin (xs : list Z) e : e ∉ xs -> filter (fun x => x <> e) xs = xs.
Proof.
  intros He. induction xs as [|x xs IH]; [done|]. apply not_elem_of_cons in He as [??].
  rewrite filter_cons_True by congruence. by rewrite IH.
Qed.

Lemma filter_out_split (xs1 xs2 : list Z) e :
  NoDup (xs1 ++ e :: xs2) -> filter (fun x => x <> e) (xs1 ++ e :: xs2) = xs1 ++ xs2.
Proof.
  intros Hnd. apply NoDup_app in Hnd as (_&Hd&Hnd). apply NoDup_cons in Hnd as [He _].
  rewrite filter_app, filter_cons_False by tauto.
  rewrite !filter_out_notin; [done|done|]. intros He'. apply (Hd e He'). set_solver.
Qed.

(** A test of one bit. *)
Lemma truth_land_bit x k : 0 <= k -> truth (Z.land x (Z.shiftl 1 k)) = Z.testbit x k.
Proof.
  intros Hk. unfold truth. destruct (Z.testbit x k) eqn:E.
  - apply negb_true_iff, Z.eqb_neq. intros H.
    assert (Z.testbit (Z.land x (Z.shiftl 1 k)) k = false) as H2 by (rewrite H; apply Z.bits_0).
    rewrite Z.land_spec, E, Z.shiftl_1_l, Z.pow2_bits_true in H2 by lia. done.
  - apply negb_false_iff, Z.eqb_eq. apply Z.bits_inj'. intros i Hi.
    rewrite Z.land_spec, Z.bits_0, Z.shiftl_1_l, Z.pow2_bits_eqb by done.
    destruct (Z.eqb_spec k i) as [->|]; [by rewrite E|apply andb_false_r].
Qed.
