(* ===== verification/ListApi.v ===== *)
(** * ListApi: the interface of [include/list.h]

    What the firmware's scheduler, semaphores and timers may assume of the
    intrusive lists: the operations of [include/list.h] over an abstract store of
    entries [S] and list heads [L], the abstraction relation [list_rep] to the
    sequence of entries a list holds, and the laws of the operations.  [DList]
    provides the instance; the client components are proved against this class
    alone. *)
From S2P Require Import Prelude.

Class ListApi (S L : Type) := {
  l_init : L;
  l_is_empty : L -> bool;
  l_first : L -> Z;
  l_next : L -> S -> Z -> option Z;
  l_entry_init : S -> Z -> option S;
  l_insert_before : S -> Z -> Z -> option S;
  l_delete : L -> S -> Z -> option (L * S);
  l_append : L -> S -> Z -> option (L * S);
  l_lrotate : L -> S -> option L;
  l_rrotate : L -> S -> option L;

  (** [l_rep st l xs]: list [l] holds the entries [xs], in this order. *)
  l_rep : S -> L -> list Z -> Prop;
  (** [l_detached st e]: [e] is an initialised entry that is in no list. *)
  l_detached : S -> Z -> Prop;
  (** [l_entry st e]: the store has memory for an entry at [e]. *)
  l_entry : S -> Z -> Prop;
  (** [l_frame dom st st']: only the entries of [dom] differ. *)
  l_frame : list Z -> S -> S -> Prop;

  l_rep_NoDup st l xs : l_rep st l xs -> NoDup xs /\ (NULL ∉ xs);
  l_init_rep st : l_rep st l_init [];
  l_is_empty_spec st l xs : l_rep st l xs -> l_is_empty l = bool_decide (xs = []);
  l_first_spec st l xs : l_rep st l xs -> l_first l = hd_or NULL xs;
  l_next_spec st l xs1 x xs2 :
    l_rep st l (xs1 ++ x :: xs2) -> l_next l st x = Some (hd_or NULL xs2);
  l_entry_init_spec st e :
    l_entry st e ->
    exists st', l_entry_init st e = Some st' /\ l_detached st' e /\ l_frame [e] st st';
  l_delete_spec st l xs1 e xs2 :
    l_rep st l (xs1 ++ e :: xs2) ->
    exists l' st', l_delete l st e = Some (l', st') /\ l_rep st' l' (xs1 ++ xs2) /\
      l_detached st' e /\ l_frame (xs1 ++ e :: xs2) st st';
  l_delete_detached st l e : l_detached st e -> l_delete l st e = Some (l, st);
  l_append_spec st l xs e :
    l_rep st l xs -> l_detached st e -> e <> NULL -> e ∉ xs ->
    exists l' st', l_append l st e = Some (l', st') /\ l_rep st' l' (xs ++ [e]) /\
      l_frame (e :: xs) st st';
  l_lrotate_spec st l xs :
    l_rep st l xs ->
    exists l', l_lrotate l st = Some l' /\
      l_rep st l' (match xs with [] => [] | x :: xs' => xs' ++ [x] end);
  l_rrotate_spec st l xs x :
    l_rep st l (xs ++ [x]) -> exists l', l_rrotate l st = Some l' /\ l_rep st l' (x :: xs);
  l_insert_before_spec st l xs1 y xs2 e :
    l_rep st l (xs1 ++ y :: xs2) -> l_detached st e -> e <> NULL -> e ∉ xs1 ++ y :: xs2 ->
    exists st', l_insert_before st y e = Some st' /\
      l_rep st' l (match xs1 with [] => y :: xs2 ++ [e] | _ => xs1 ++ e :: y :: xs2 end) /\
      l_frame (e :: xs1 ++ y :: xs2) st st';
  l_detached_entry st e : l_detached st e -> l_entry st e;
  l_rep_entry st l xs e : l_rep st l xs -> e ∈ xs -> l_entry st e;
  l_frame_rep dom st st' l xs :
    l_frame dom st st' -> (forall a, a ∈ xs -> a ∉ dom) -> l_rep st l xs -> l_rep st' l xs;
  l_frame_detached dom st st' e :
    l_frame dom st st' -> e ∉ dom -> l_detached st e -> l_detached st' e;
  l_frame_entry dom st st' e :
    l_frame dom st st' -> e ∉ dom -> l_entry st e -> l_entry st' e;
  l_frame_refl dom st : l_frame dom st st;
  l_frame_trans dom st1 st2 st3 :
    l_frame dom st1 st2 -> l_frame dom st2 st3 -> l_frame dom st1 st3;
  l_frame_mono dom dom' st st' :
    l_frame dom st st' -> dom ⊆ dom' -> l_frame dom' st st';
}.
