(* ===== verification/DList.v ===== *)
(** * DList: the intrusive circular lists of [core/list.c]

    A [list_entry_t] lives at an address of a store; pointers are addresses and
    [NULL] is 0.  Every function of [core/list.c] is translated statement by
    statement, with a load or a store through a pointer that is not an entry
    of the store returning [None] (in C: a wild or null dereference).  The
    second half of the file relates the store to the sequence of entries a list
    holds and proves that each operation refines the operation on sequences. *)
From S2P Require Import Prelude.
From S2P Require Import ListApi.

Record list_entry := mk_entry { next : Z; prev : Z }.

Record list_t := mk_list { head : Z }.

(** The entries in memory, by address. *)
Abbreviation store := (gmap Z list_entry).

(** [e->next = v] and [e->prev = v]. *)
Definition set_next (st : store) (e v : Z) : option store :=
  n ← st !! e; Some (<[e := mk_entry v (prev n)]> st).

Definition set_prev (st : store) (e v : Z) : option store :=
  n ← st !! e; Some (<[e := mk_entry (next n) v]> st).

Definition list_is_empty (l : list_t) : bool := head l =? NULL.

Definition list_next (l : list_t) (st : store) (entry : Z) : option Z :=
  n ← st !! entry;
  Some (if next n =? head l then NULL else next n).

Definition list_insert_before (st : store) (entry new : Z) : option store :=
  n ← st !! entry;
  st1 ← set_prev st new (prev n);
  n1 ← st1 !! entry;
  st2 ← set_next st1 (prev n1) new;
  st3 ← set_prev st2 entry new;
  set_next st3 new entry.

Definition list_delete (l : list_t) (st : store) (entry : Z) : option (list_t * store) :=
  n ← st !! entry;
  if (next n =? NULL) || (prev n =? NULL) then Some (l, st)
  else
    st1 ← set_next st (prev n) (next n);
    n1 ← st1 !! entry;
    st2 ← set_prev st1 (next n1) (prev n1);
    l' ← (if head l =? entry then h ← list_next l st2 entry; Some (mk_list h)
          else Some l);
    st3 ← set_prev st2 entry NULL;
    st4 ← set_next st3 entry NULL;
    Some (l', st4).

Definition list_append (l : list_t) (st : store) (entry : Z) : option (list_t * store) :=
  '(l1, st1) ← list_delete l st entry;
  if negb (head l1 =? NULL) then
    st2 ← list_insert_before st1 (head l1) entry;
    Some (l1, st2)
  else
    st2 ← set_prev st1 entry entry;
    st3 ← set_next st2 entry entry;
    Some (mk_list entry, st3).

Definition list_lrotate (l : list_t) (st : store) : option list_t :=
  if negb (list_is_empty l) then n ← st !! head l; Some (mk_list (next n))
  else Some l.

Definition list_rrotate (l : list_t) (st : store) : option list_t :=
  if negb (list_is_empty l) then n ← st !! head l; Some (mk_list (prev n))
  else Some l.

Definition list_first (l : list_t) : Z := head l.

Definition list_last (l : list_t) (st : store) : option Z :=
  if list_is_empty l then Some NULL else n ← st !! head l; Some (prev n).

Definition list_init : list_t := mk_list NULL.

Definition list_entry_init (st : store) (entry : Z) : option store :=
  st1 ← set_next st entry NULL;
  set_prev st1 entry NULL.

(** [list_foreach(pos, list)]: the positions the loop body runs on, when the
    body leaves the list alone; [None] when [fuel] iterations are not enough. *)
Fixpoint list_foreach_from (fuel : nat) (l : list_t) (st : store) (pos : Z) : option (list Z) :=
  if pos =? NULL then Some []
  else match fuel with
       | O => None
       | S fuel =>
           p ← list_next l st pos;
           ps ← list_foreach_from fuel l st p;
           Some (pos :: ps)
       end.

Definition list_foreach (fuel : nat) (l : list_t) (st : store) : option (list Z) :=
  list_foreach_from fuel l st (head l).

(** ** What a store represents *)

(** A doubly linked run of entries [xs], entered from [p] and left to [n]. *)
Fixpoint seg (st : store) (p : Z) (xs : list Z) (n : Z) : Prop :=
  match xs with
  | [] => True
  | x :: xs' => st !! x = Some (mk_entry (hd_or n xs') p) /\ seg st x xs' n
  end.

(** The run closes on itself. *)
Definition ring (st : store) (xs : list Z) : Prop :=
  seg st (last_or 0 xs) xs (hd_or 0 xs).

(** List [l] holds exactly the entries [xs], in this order. *)
Definition list_rep (st : store) (l : list_t) (xs : list Z) : Prop :=
  head l = hd_or NULL xs /\ NoDup xs /\ (NULL ∉ xs) /\ ring st xs.

(** Entry [e] is in no list: one of its links is null. *)
Definition detached (st : store) (e : Z) : Prop :=
  exists n, st !! e = Some n /\ (next n = NULL \/ prev n = NULL).

(** [st'] differs from [st] on [dom] only. *)
Definition frame (dom : list Z) (st st' : store) : Prop :=
  forall a, a ∉ dom -> st' !! a = st !! a.

(** ** Segments *)

Lemma seg_app st p xs ys n :
  seg st p (xs ++ ys) n <-> seg st p xs (hd_or n ys) /\ seg st (last_or p xs) ys n.
Proof.
  revert p. induction xs as [|x xs IH]; intros p; simpl; [tauto|].
  rewrite IH, hd_or_app, last_or_cons. tauto.
Qed.

Lemma seg_frame st st' p xs n :
  (forall a, a ∈ xs -> st' !! a = st !! a) -> seg st p xs n -> seg st' p xs n.
Proof.
  revert p. induction xs as [|x xs IH]; intros p Hf; simpl; [done|].
  intros [Hx Hs]. split; [rewrite Hf; set_solver|]. apply IH; set_solver.
Qed.

Lemma seg_insert st p xs n a v : a ∉ xs -> seg st p xs n -> seg (<[a := v]> st) p xs n.
Proof. intros Ha. apply seg_frame. intros b Hb. rewrite lookup_insert_ne; set_solver. Qed.

Lemma ring_cons st x xs : ring st (x :: xs) <-> seg st (last_or x xs) (x :: xs) x.
Proof. unfold ring. by rewrite last_or_cons. Qed.

(** A ring may be entered anywhere. *)
Lemma ring_rotate st xs ys : ring st (xs ++ ys) -> ring st (ys ++ xs).
Proof.
  unfold ring. destruct xs as [|x xs]; [by rewrite app_nil_r|].
  destruct ys as [|y ys]; [by rewrite app_nil_r|].
  rewrite !seg_app, !last_or_app, !hd_or_app. cbn [hd_or]. rewrite ?last_or_cons. tauto.
Qed.

Lemma ring_frame st st' xs dom :
  frame dom st st' -> (forall a, a ∈ xs -> a ∉ dom) -> ring st xs -> ring st' xs.
Proof. intros Hf Hd. apply seg_frame. auto. Qed.

Lemma list_rep_frame st st' l xs dom :
  frame dom st st' -> (forall a, a ∈ xs -> a ∉ dom) -> list_rep st l xs -> list_rep st' l xs.
Proof. intros Hf Hd (?&?&?&?). repeat split; eauto using ring_frame. Qed.

Lemma detached_frame st st' e dom :
  frame dom st st' -> e ∉ dom -> detached st e -> detached st' e.
Proof. intros Hf He (n&Hn&Hd). exists n. by rewrite Hf. Qed.

Lemma frame_insert dom (st : store) a v : a ∈ dom -> frame dom st (<[a := v]> st).
Proof. intros Ha b Hb. apply lookup_insert_ne. set_solver. Qed.

Lemma frame_trans dom st1 st2 st3 : frame dom st1 st2 -> frame dom st2 st3 -> frame dom st1 st3.
Proof. intros H1 H2 a Ha. by rewrite H2, H1. Qed.

Lemma frame_refl dom st : frame dom st st.
Proof. done. Qed.

#[export] Hint Resolve frame_insert frame_trans frame_refl seg_insert : words.

(** Follow loads and stores through a chain of updates. *)
Ltac chase :=
  repeat first
    [ rewrite lookup_insert_eq
    | rewrite lookup_insert_ne by congruence
    | match goal with H : ?st !! ?a = Some _ |- context [?st !! ?a] => rewrite H end
    | progress simpl ].

(** Discharge a [frame] whose updates are all inside the domain. *)
Ltac solve_frame :=
  unfold frame; intros ?a ?Ha; rewrite ?lookup_insert_ne by set_solver; reflexivity.

(** Linking [e] in front of the entry [y] of a ring. *)
Lemma ring_insert st y ys e :
  ring st (y :: ys) -> NoDup (y :: ys) -> e ∉ y :: ys -> is_Some (st !! e) ->
  exists st', list_insert_before st y e = Some st' /\ ring st' (y :: ys ++ [e]) /\
              frame (e :: y :: ys) st st'.
Proof.
  intros Hr Hnd He [ne Hne]. apply ring_cons in Hr. destruct Hr as [Hy Hs].
  apply not_elem_of_cons in He as [Hey Heys].
  unfold list_insert_before, set_prev, set_next.
  destruct ys as [|z zs _] using rev_ind.
  - rewrite last_or_nil in *. simpl in Hy. chase. eexists. split; [reflexivity|]. split.
    + apply ring_cons. simpl. rewrite last_or_cons, last_or_nil. chase. done.
    + solve_frame.
  - rewrite last_or_snoc in *. apply seg_app in Hs as [Hs1 [Hz _]]. simpl in Hz.
    assert (z <> y /\ z <> e /\ (y ∉ zs) /\ (z ∉ zs) /\ e ∉ zs) as (?&?&?&?&?).
    { apply NoDup_cons in Hnd as [Hny Hnd]. apply NoDup_app in Hnd as (_&Hd&_). set_solver. }
    chase. eexists. split; [reflexivity|]. split; [|solve_frame].
    apply ring_cons. rewrite last_or_snoc. split.
    { chase. by destruct zs. }
    rewrite <-app_assoc. apply seg_app. split.
    { repeat apply seg_insert; [set_solver..|]. done. }
    simpl. chase. done.
Qed.

(** Unlinking [e] from a ring of at least two entries. *)
Lemma ring_unlink st e ys :
  ys <> [] -> ring st (e :: ys) -> NoDup (e :: ys) ->
  exists st1 st2,
    st !! e = Some (mk_entry (hd_or 0 ys) (last_or 0 ys)) /\
    set_next st (last_or 0 ys) (hd_or 0 ys) = Some st1 /\ st1 !! e = st !! e /\
    set_prev st1 (hd_or 0 ys) (last_or 0 ys) = Some st2 /\ st2 !! e = st !! e /\
    ring st2 ys /\ frame ys st st2.
Proof.
  intros Hys Hr Hnd. apply ring_cons in Hr. destruct Hr as [He Hs].
  destruct ys as [|y ys]; [done|]. clear Hys. rewrite last_or_cons in *. simpl in He.
  apply NoDup_cons in Hnd as [Hey Hnd]. apply not_elem_of_cons in Hey as [Hey Heys].
  unfold set_next, set_prev. destruct ys as [|z zs _] using rev_ind.
  - rewrite !last_or_nil in *. simpl in Hs. destruct Hs as [Hy _].
    exists (<[y := mk_entry y e]> st), (<[y := mk_entry y y]> (<[y := mk_entry y e]> st)).
    change (last_or 0 [y]) with y. chase. do 4 (split; [reflexivity|]).
    split; [reflexivity|]. split; [|solve_frame].
    apply ring_cons. rewrite last_or_nil. simpl. chase. done.
  - rewrite !last_or_snoc in *. simpl in Hs. destruct Hs as [Hy Hs].
    apply seg_app in Hs as [Hs1 [Hz _]]. simpl in Hz.
    assert (z <> y /\ z <> e /\ (y ∉ zs) /\ (z ∉ zs) /\ e ∉ zs) as (?&?&?&?&?).
    { apply NoDup_cons in Hnd as [Hny Hnd]. apply NoDup_app in Hnd as (_&Hd&_). set_solver. }
    exists (<[z := mk_entry y (last_or y zs)]> st),
      (<[y := mk_entry (hd_or e (zs ++ [z])) z]> (<[z := mk_entry y (last_or y zs)]> st)).
    rewrite ?last_or_cons, ?last_or_snoc. chase. do 4 (split; [reflexivity|]).
    split; [reflexivity|]. split; [|solve_frame].
    apply ring_cons. rewrite last_or_snoc. simpl. chase. split; [by destruct zs|].
    apply seg_app. split; [|simpl; chase; done].
    repeat apply seg_insert; [set_solver..|]. done.
Qed.

(** ** Refinement of the operations *)

Lemma list_rep_nil st l : list_rep st l [] <-> head l = NULL.
Proof. unfold list_rep, ring. simpl. split; [by intros []|]. intros ->. repeat split; [constructor|set_solver]. Qed.

Lemma list_rep_cons st l x xs :
  list_rep st l (x :: xs) <->
  head l = x /\ x <> NULL /\ NoDup (x :: xs) /\ (NULL ∉ xs) /\ ring st (x :: xs).
Proof. unfold list_rep. simpl. rewrite not_elem_of_cons. naive_solver. Qed.

Lemma list_is_empty_spec st l xs :
  list_rep st l xs -> list_is_empty l = bool_decide (xs = []).
Proof.
  destruct xs as [|x xs]; unfold list_is_empty.
  - intros ->%list_rep_nil. done.
  - intros (->&Hx&_)%list_rep_cons. destruct (Z.eqb_spec x NULL); done.
Qed.

Lemma list_first_spec st l xs : list_rep st l xs -> list_first l = hd_or NULL xs.
Proof. by intros []. Qed.

Lemma list_init_rep st : list_rep st list_init [].
Proof. by apply list_rep_nil. Qed.

Lemma list_entry_init_spec st e :
  is_Some (st !! e) ->
  exists st', list_entry_init st e = Some st' /\ detached st' e /\ frame [e] st st'.
Proof.
  intros [n Hn]. unfold list_entry_init, set_next, set_prev. chase.
  eexists. split; [reflexivity|]. split; [|solve_frame].
  eexists. rewrite lookup_insert_eq. split; [reflexivity|]. by left.
Qed.

(** Deleting an entry that is in no list changes nothing. *)
Lemma list_delete_detached l st e : detached st e -> list_delete l st e = Some (l, st).
Proof.
  intros (n&Hn&Hd). unfold list_delete. rewrite Hn. simpl.
  destruct (Z.eqb_spec (next n) NULL); [done|].
  destruct (Z.eqb_spec (prev n) NULL); [done|]. tauto.
Qed.

(** The common core of all deletions, with [e] rotated to the front. *)
Lemma list_delete_ring l st e ys :
  (ys = [] -> head l = e) -> NULL ∉ e :: ys -> NoDup (e :: ys) -> ring st (e :: ys) ->
  exists l' st', list_delete l st e = Some (l', st') /\
    head l' = (if head l =? e then hd_or NULL ys else head l) /\
    ring st' ys /\ detached st' e /\ frame (e :: ys) st st'.
Proof.
  intros Hl Hnull Hnd Hr. apply not_elem_of_cons in Hnull as [He0 Hys0].
  unfold list_delete. destruct (decide (ys = [])) as [->|Hys].
  - apply ring_cons in Hr as [He _]. rewrite last_or_nil in He. simpl in He.
    rewrite (Hl eq_refl). unfold set_next, set_prev, list_next. chase.
    destruct (Z.eqb_spec e NULL); [done|]. chase. rewrite Z.eqb_refl. chase.
    rewrite (Hl eq_refl), Z.eqb_refl. chase.
    eexists _, _. split; [reflexivity|]. do 2 (split; [done|]). split; [|solve_frame].
    eexists. rewrite lookup_insert_eq. split; [reflexivity|]. by left.
  - apply NoDup_cons in Hnd as Hnd'. destruct Hnd' as [Hey Hnd'].
    destruct (ring_unlink st e ys Hys Hr Hnd) as (st1&st2&He&E1&L1&E2&L2&Hr2&Hf).
    assert (hd_or 0 ys ∈ ys /\ last_or 0 ys ∈ ys) as [Hhd Hlast].
    { split; [destruct ys; [done|simpl; set_solver]|by apply last_or_elem]. }
    rewrite He. simpl.
    destruct (Z.eqb_spec (hd_or 0 ys) NULL) as [E|_]; [rewrite E in Hhd; done|].
    destruct (Z.eqb_spec (last_or 0 ys) NULL) as [E|_]; [rewrite E in Hlast; done|].
    simpl. rewrite E1. simpl. rewrite L1, He. simpl. rewrite E2. simpl.
    unfold list_next, set_prev, set_next. rewrite ?L2, ?He. simpl.
    assert (Hres : forall h, exists l' st', Some (mk_list h, <[e := mk_entry NULL NULL]>
              (<[e := mk_entry (hd_or 0 ys) NULL]> st2)) = Some (l', st') /\
              head l' = h /\ ring st' ys /\ detached st' e /\ frame (e :: ys) st st').
    { intros h. eexists _, _. split; [reflexivity|]. split; [done|]. split.
      { eapply seg_frame; [|exact Hr2]. intros a Ha. by rewrite !lookup_insert_ne by set_solver. }
      split; [eexists; rewrite lookup_insert_eq; split; [reflexivity|by left]|].
      intros a Ha. rewrite !lookup_insert_ne by set_solver. apply Hf. set_solver. }
    assert (st2 !! e = Some (mk_entry (hd_or 0 ys) (last_or 0 ys))) as L3 by congruence.
    destruct (Z.eqb_spec (head l) e) as [Hle|Hle]; simpl.
    + destruct (Z.eqb_spec (hd_or 0 ys) (head l)); [congruence|]. chase. apply Hres.
    + destruct l as [h]. chase. apply Hres.
Qed.

Lemma list_delete_spec st l xs1 e xs2 :
  list_rep st l (xs1 ++ e :: xs2) ->
  exists l' st', list_delete l st e = Some (l', st') /\ list_rep st' l' (xs1 ++ xs2) /\
    detached st' e /\ frame (xs1 ++ e :: xs2) st st'.
Proof.
  intros (Hh&Hnd&H0&Hr). apply ring_rotate in Hr. simpl in Hr.
  assert (NoDup (e :: xs2 ++ xs1)) as Hnd' by (apply (NoDup_app_comm' xs1 (e :: xs2)); done).
  apply NoDup_cons in Hnd' as Hnd2. destruct Hnd2 as [He Hnd2].
  destruct (list_delete_ring l st e (xs2 ++ xs1)) as (l'&st'&Hd&Hl'&Hr'&Hdet&Hf);
    [|set_solver|done|done|].
  { intros [-> ->]%app_nil. by rewrite Hh. }
  exists l', st'. split; [done|]. split; [|split; [done|]].
  - split; [|split; [by apply NoDup_app_comm'|split; [set_solver|by apply ring_rotate]]].
    rewrite Hl', Hh. destruct xs1 as [|x xs1]; simpl.
    + by rewrite Z.eqb_refl, app_nil_r.
    + destruct (Z.eqb_spec x e) as [->|]; [set_solver|done].
  - intros a Ha. apply Hf. set_solver.
Qed.

(** Inserting before the [y] of a list; in front of the head the new entry
    becomes the last one, the head pointer being unchanged. *)
Lemma list_insert_before_spec st l xs1 y xs2 e :
  list_rep st l (xs1 ++ y :: xs2) -> is_Some (st !! e) -> e <> NULL -> e ∉ xs1 ++ y :: xs2 ->
  exists st', list_insert_before st y e = Some st' /\
    list_rep st' l (match xs1 with [] => y :: xs2 ++ [e] | _ => xs1 ++ e :: y :: xs2 end) /\
    frame (e :: xs1 ++ y :: xs2) st st'.
Proof.
  intros (Hh&Hnd&H0&Hr) Hse He0 He. apply ring_rotate in Hr. simpl in Hr.
  assert (NoDup (y :: xs2 ++ xs1)) as Hnd' by (apply (NoDup_app_comm' xs1 (y :: xs2)); done).
  destruct (ring_insert st y (xs2 ++ xs1) e) as (st'&Hi&Hr'&Hf); [done..|set_solver|done|].
  exists st'. split; [done|]. split; [|intros a Ha; apply Hf; set_solver].
  assert (ring st' (y :: xs2 ++ xs1 ++ [e])) as Hr2 by (by rewrite app_assoc). clear Hr'.
  destruct xs1 as [|x xs1]; simpl in *.
  - split; [done|]. split; [|split; [set_solver|done]].
    apply NoDup_cons in Hnd as [??]. apply NoDup_cons. split; [set_solver|].
    apply NoDup_app. split; [done|]. split; [set_solver|]. apply NoDup_singleton.
  - apply NoDup_cons in Hnd as [Hx Hnd].
    split; [done|]. split; [|split; [set_solver|]].
    + apply NoDup_cons. split; [set_solver|].
      apply NoDup_app in Hnd as (?&?&?). apply NoDup_app.
      split; [done|]. split; [set_solver|]. apply NoDup_cons. split; [set_solver|done].
    + apply (ring_rotate st' (y :: xs2) (x :: xs1 ++ [e])) in Hr2. simpl in Hr2.
      rewrite <-app_assoc in Hr2. done.
Qed.

(** Appending an entry that is in no list. *)
Lemma list_append_spec st l xs e :
  list_rep st l xs -> detached st e -> e <> NULL -> e ∉ xs ->
  exists l' st', list_append l st e = Some (l', st') /\ list_rep st' l' (xs ++ [e]) /\
    frame (e :: xs) st st'.
Proof.
  intros Hrep Hdet He0 He. unfold list_append. rewrite list_delete_detached by done. simpl.
  destruct Hdet as (n&Hn&_). destruct xs as [|x xs].
  - apply list_rep_nil in Hrep as ->. simpl. unfold set_prev, set_next. chase.
    eexists _, _. split; [reflexivity|]. split; [|solve_frame].
    apply list_rep_cons. simpl. do 2 (split; [done|]).
    split; [apply NoDup_singleton|]. split; [set_solver|].
    apply ring_cons. rewrite last_or_nil. simpl. chase. done.
  - destruct (list_insert_before_spec st l [] x xs e Hrep) as (st'&Hi&Hrep'&Hf); [done..|].
    destruct Hrep as [Hh (?&?&?)]. simpl in Hh.
    destruct (Z.eqb_spec (head l) NULL) as [E|_]; [rewrite Hh in E; set_solver|].
    simpl. rewrite Hh, Hi. simpl. by eexists _, _.
Qed.

(** Appending an entry the list already holds moves it to the end. *)
Lemma list_append_member_spec st l xs1 e xs2 :
  list_rep st l (xs1 ++ e :: xs2) ->
  exists l' st', list_append l st e = Some (l', st') /\
    list_rep st' l' (xs1 ++ xs2 ++ [e]) /\ frame (xs1 ++ e :: xs2) st st'.
Proof.
  intros Hrep. pose proof Hrep as (_&Hnd&H0&_).
  assert (e ∉ xs1 ++ xs2).
  { apply NoDup_app_comm', NoDup_cons in Hnd as [? _]. set_solver. }
  destruct (list_delete_spec _ _ _ _ _ Hrep) as (l1&st1&Hd&Hrep1&Hdet&Hf1).
  destruct (list_append_spec st1 l1 (xs1 ++ xs2) e) as (l2&st2&Ha&Hrep2&Hf2); [done..|set_solver|done|].
  exists l2, st2. unfold list_append in *. rewrite (list_delete_detached _ _ _ Hdet) in Ha.
  rewrite Hd. split; [done|]. rewrite app_assoc. split; [done|].
  intros a Ha'. rewrite Hf2, Hf1; set_solver.
Qed.

Lemma list_lrotate_spec st l xs :
  list_rep st l xs ->
  exists l', list_lrotate l st = Some l' /\
    list_rep st l' (match xs with [] => [] | x :: xs' => xs' ++ [x] end).
Proof.
  intros Hrep. unfold list_lrotate. erewrite list_is_empty_spec by done.
  destruct xs as [|x xs]; [eauto|]. apply list_rep_cons in Hrep as (Hh&Hx&Hnd&H0&Hr).
  rewrite Hh. pose proof Hr as Hr'. apply ring_cons in Hr' as [Hl _]. simpl. rewrite Hl. simpl.
  eexists. split; [reflexivity|]. split; [by destruct xs|].
  split; [by apply (NoDup_app_comm' [x])|]. split; [set_solver|]. by apply (ring_rotate st [x]).
Qed.

Lemma list_rrotate_spec st l xs x :
  list_rep st l (xs ++ [x]) ->
  exists l', list_rrotate l st = Some l' /\ list_rep st l' (x :: xs).
Proof.
  intros Hrep. unfold list_rrotate. erewrite list_is_empty_spec by done.
  rewrite bool_decide_eq_false_2 by (by destruct xs). simpl.
  destruct Hrep as (Hh&Hnd&H0&Hr). rewrite Hh, hd_or_app. simpl.
  assert (exists n, st !! hd_or x xs = Some (mk_entry n x)) as [n Hn].
  { unfold ring in Hr. rewrite last_or_snoc in Hr. destruct xs; simpl in *; destruct Hr as [Hr _]; eauto. }
  rewrite Hn. simpl. eexists. split; [reflexivity|]. apply list_rep_cons.
  split; [done|]. split; [set_solver|]. split; [by apply (NoDup_app_comm' xs [x])|].
  split; [set_solver|by apply (ring_rotate st xs [x])].
Qed.

Lemma list_last_spec st l xs :
  list_rep st l xs -> list_last l st = Some (last_or NULL xs).
Proof.
  intros Hrep. unfold list_last. erewrite list_is_empty_spec by done.
  destruct xs as [|x xs]; [done|]. apply list_rep_cons in Hrep as (Hh&_&_&_&Hr).
  apply ring_cons in Hr as [Hl _]. rewrite Hh. simpl. rewrite Hl. simpl. by rewrite last_or_cons.
Qed.

Lemma list_next_spec st l xs1 x xs2 :
  list_rep st l (xs1 ++ x :: xs2) -> list_next l st x = Some (hd_or NULL xs2).
Proof.
  intros (Hh&Hnd&H0&Hr). unfold list_next, ring in *. apply seg_app in Hr as [_ [Hx _]].
  rewrite Hx. simpl. f_equal. rewrite Hh, !hd_or_app. simpl. destruct xs2 as [|y ys]; simpl.
  - by rewrite Z.eqb_refl.
  - destruct (Z.eqb_spec y (hd_or x xs1)) as [E|]; [|done].
    apply NoDup_app in Hnd as (_&Hd&Hnd). apply NoDup_cons in Hnd as [Hxy _].
    destruct xs1 as [|z zs]; simpl in E; [set_solver|].
    exfalso. apply (Hd y); rewrite ?E; set_solver.
Qed.

Lemma list_foreach_from_spec st l xs1 xs2 fuel :
  list_rep st l (xs1 ++ xs2) -> (length xs2 <= fuel)%nat ->
  list_foreach_from fuel l st (hd_or NULL xs2) = Some xs2.
Proof.
  revert xs1 fuel. induction xs2 as [|x xs IH]; intros xs1 fuel Hrep Hfuel.
  { by destruct fuel. }
  destruct fuel as [|fuel]; simpl in *; [lia|].
  destruct (Z.eqb_spec x NULL) as [->|Hx]; [destruct Hrep as (_&_&H0&_); set_solver|].
  rewrite (list_next_spec _ _ _ _ _ Hrep). simpl.
  rewrite (IH (xs1 ++ [x])); [done| |lia]. by rewrite <-app_assoc.
Qed.

Lemma frame_mono dom dom' st st' : frame dom st st' -> dom ⊆ dom' -> frame dom' st st'.
Proof. intros Hf Hd a Ha. apply Hf. set_solver. Qed.

Lemma seg_entry st p xs n e : seg st p xs n -> e ∈ xs -> is_Some (st !! e).
Proof.
  revert p. induction xs as [|x xs IH]; intros p; simpl; [set_solver|].
  intros [Hx Hs] [->|He]%elem_of_cons; [by eexists|by eapply IH].
Qed.

Lemma list_rep_entry st l xs e : list_rep st l xs -> e ∈ xs -> is_Some (st !! e).
Proof.
  intros (_&_&_&Hr) He. destruct xs as [|x xs]; [set_solver|].
  rewrite ring_cons in Hr. by eapply seg_entry.
Qed.

(** [core/list.c] implements [include/list.h]. *)
#[export] Instance dlist_api : ListApi store list_t.
Proof.
  refine {|
    l_init := list_init; l_is_empty := list_is_empty; l_first := list_first;
    l_next := list_next; l_entry_init := list_entry_init;
    l_insert_before := list_insert_before; l_delete := list_delete;
    l_append := list_append; l_lrotate := list_lrotate; l_rrotate := list_rrotate;
    l_rep := list_rep; l_detached := detached; l_entry st e := is_Some (st !! e);
    l_frame := frame |}.
  - by intros st l xs (_&?&?&_).
  - apply list_init_rep.
  - apply list_is_empty_spec.
  - apply list_first_spec.
  - apply list_next_spec.
  - apply list_entry_init_spec.
  - apply list_delete_spec.
  - intros st l e. apply list_delete_detached.
  - apply list_append_spec.
  - apply list_lrotate_spec.
  - apply list_rrotate_spec.
  - intros st l xs1 y xs2 e Hr (n&Hn&_). apply list_insert_before_spec; [done|by exists n].
  - intros st e (n&Hn&_). by exists n.
  - apply list_rep_entry.
  - intros dom st st' l xs Hf Hd. by eapply list_rep_frame.
  - intros dom st st' e Hf Hd. by eapply detached_frame.
  - intros dom st st' e Hf He. by rewrite (Hf e He).
  - apply frame_refl.
  - apply frame_trans.
  - apply frame_mono.
Defined.

(** ** The refinement theorem *)

(** The list operations a client issues, on entries of a fixed universe. *)
Inductive list_op :=
| OpAppend (e : Z)
| OpDelete (e : Z)
| OpLRotate
| OpRRotate.

(** What they do to the sequence a list holds. *)
Definition spec_op (xs : list Z) (o : list_op) : list Z :=
  match o with
  | OpAppend e => filter (fun x => x <> e) xs ++ [e]
  | OpDelete e => filter (fun x => x <> e) xs
  | OpLRotate => match xs with [] => [] | x :: xs' => xs' ++ [x] end
  | OpRRotate => match xs with [] => [] | _ => last_or 0 xs :: removelast xs end
  end.

(** What [core/list.c] does. *)
Definition run_op (s : list_t * store) (o : list_op) : option (list_t * store) :=
  let '(l, st) := s in
  match o with
  | OpAppend e => list_append l st e
  | OpDelete e => list_delete l st e
  | OpLRotate => l' ← list_lrotate l st; Some (l', st)
  | OpRRotate => l' ← list_rrotate l st; Some (l', st)
  end.

Fixpoint run_ops (s : list_t * store) (os : list list_op) : option (list_t * store) :=
  match os with
  | [] => Some s
  | o :: os' => s' ← run_op s o; run_ops s' os'
  end.

Definition op_entry (o : list_op) : list Z :=
  match o with OpAppend e | OpDelete e => [e] | _ => [] end.

(** Every entry of the universe [U] is in the list or in no list. *)
Definition list_world (U : list Z) (s : list_t * store) (xs : list Z) : Prop :=
  list_rep s.2 s.1 xs /\ xs ⊆ U /\ NULL ∉ U /\
  forall e, e ∈ U -> e ∉ xs -> detached s.2 e.

Lemma list_world_intro U l st xs :
  list_rep st l xs -> xs ⊆ U -> NULL ∉ U ->
  (forall e, e ∈ U -> e ∉ xs -> detached st e) -> list_world U (l, st) xs.
Proof. unfold list_world. auto. Qed.

Lemma run_op_refines U s xs o :
  list_world U s xs -> op_entry o ⊆ U ->
  exists s', run_op s o = Some s' /\ list_world U s' (spec_op xs o).
Proof.
  destruct s as [l st]. intros (Hrep&Hsub&H0&Hdet) Ho. simpl in *.
  pose proof Hrep as (_&Hnd&Hn0&_). destruct o as [e|e| |]; simpl in *.
  - destruct (decide (e ∈ xs)) as [(xs1&xs2&->)%list_elem_of_split|He].
    + rewrite filter_out_split by done.
      destruct (list_append_member_spec _ _ _ _ _ Hrep) as (l'&st'&Ha&Hr&Hf).
      exists (l', st'). split; [done|]. rewrite <-app_assoc.
      apply list_world_intro; [done|set_solver|done|]. intros b Hb Hn.
      eapply detached_frame; [exact Hf|set_solver|]. apply Hdet; set_solver.
    + rewrite filter_out_notin by done.
      destruct (list_append_spec st l xs e) as (l'&st'&Ha&Hr&Hf); [done|apply Hdet; set_solver|set_solver|done|].
      exists (l', st'). split; [done|]. apply list_world_intro; [done|set_solver|done|].
      intros b Hb Hn. eapply detached_frame; [exact Hf|set_solver|]. apply Hdet; set_solver.
  - destruct (decide (e ∈ xs)) as [(xs1&xs2&->)%list_elem_of_split|He].
    + rewrite filter_out_split by done.
      destruct (list_delete_spec _ _ _ _ _ Hrep) as (l'&st'&Ha&Hr&Hd&Hf).
      exists (l', st'). split; [done|]. apply list_world_intro; [done|set_solver|done|].
      intros b Hb Hn. destruct (decide (b = e)) as [->|]; [done|].
      eapply detached_frame; [exact Hf|set_solver|]. apply Hdet; set_solver.
    + rewrite filter_out_notin by done. exists (l, st).
      rewrite list_delete_detached by (apply Hdet; set_solver). done.
  - destruct (list_lrotate_spec _ _ _ Hrep) as (l'&->&Hr). exists (l', st).
    split; [done|]. apply list_world_intro; [done| |done|]; destruct xs; set_solver.
  - destruct xs as [|x xs _] using rev_ind.
    + exists (l, st). unfold list_rrotate. rewrite (list_is_empty_spec _ _ _ Hrep). done.
    + destruct (list_rrotate_spec _ _ _ _ Hrep) as (l'&->&Hr). exists (l', st).
      split; [done|]. rewrite last_or_snoc, removelast_last.
      replace (match xs ++ [x] with [] => [] | _ :: _ => x :: xs end) with (x :: xs) by (by destruct xs).
      apply list_world_intro; [done| |done|]; set_solver.
Qed.

(** C12: every sequence of appends, deletes and rotations issued on a list and
    on the entries of a universe [U] runs without a wild dereference, and the
    list afterwards holds exactly the sequence the abstract operations compute;
    entries outside the list stay detached. *)
Theorem list_ops_refine U s xs os :
  list_world U s xs -> Forall (fun o => op_entry o ⊆ U) os ->
  exists s', run_ops s os = Some s' /\ list_world U s' (foldl spec_op xs os).
Proof.
  revert s xs. induction os as [|o os IH]; intros s xs Hw Hos; [eauto|].
  apply Forall_cons in Hos as [Ho Hos].
  destruct (run_op_refines _ _ _ _ Hw Ho) as (s1&E&Hw1). simpl. rewrite E. simpl. eauto.
Qed.

(** A store of entries that are in no list. *)
Definition fresh_store (U : list Z) : store :=
  list_to_map ((fun e => (e, mk_entry NULL NULL)) <$> U).

Lemma fresh_world U : NULL ∉ U -> list_world U (list_init, fresh_store U) [].
Proof.
  intros H0. apply list_world_intro; [apply list_init_rep|set_solver|done|].
  intros e He _. exists (mk_entry NULL NULL). split; [|by left].
  unfold fresh_store. induction U as [|u U IH]; [set_solver|]. simpl.
  destruct (decide (u = e)) as [->|]; [by rewrite lookup_insert_eq|].
  rewrite lookup_insert_ne by done. apply IH; set_solver.
Qed.

Lemma list_ops_refine_witness :
  exists s', run_ops (list_init, fresh_store [8; 16; 24])
               [OpAppend 8; OpAppend 16; OpAppend 24; OpDelete 16; OpLRotate; OpAppend 24] = Some s' /\
             list_world [8; 16; 24] s' [8; 24].
Proof.
  apply (list_ops_refine [8; 16; 24] _ []
    [OpAppend 8; OpAppend 16; OpAppend 24; OpDelete 16; OpLRotate; OpAppend 24]).
  - apply fresh_world. set_solver.
  - repeat (apply Forall_cons; split; [simpl; set_solver|]). apply Forall_nil_2.
Defined.

(** [list_insert_before] puts the new entry in front of [y]; in front of the
    head the list's head is unchanged, so the new entry is the last one.  No
    entry outside the list and the new one is written. *)
Theorem list_insert_before_refines st l xs1 y xs2 e :
  list_rep st l (xs1 ++ y :: xs2) -> is_Some (st !! e) -> e <> NULL -> e ∉ xs1 ++ y :: xs2 ->
  exists st', list_insert_before st y e = Some st' /\
    list_rep st' l (if bool_decide (xs1 = []) then y :: xs2 ++ [e] else xs1 ++ e :: y :: xs2) /\
    frame (e :: xs1 ++ y :: xs2) st st'.
Proof.
  intros. destruct (list_insert_before_spec st l xs1 y xs2 e) as (st'&?&?&?); [done..|].
  exists st'. by destruct xs1.
Qed.

Lemma list_insert_before_refines_witness :
  exists st', list_insert_before (<[8 := mk_entry 8 8]> (fresh_store [16])) 8 16 = Some st' /\
    list_rep st' (mk_list 8) [8; 16] /\
    frame [16; 8] (<[8 := mk_entry 8 8]> (fresh_store [16])) st'.
Proof.
  apply (list_insert_before_refines (<[8 := mk_entry 8 8]> (fresh_store [16])) (mk_list 8) [] 8 [] 16).
  - repeat split; [apply NoDup_singleton|set_solver].
  - by eexists.
  - done.
  - set_solver.
Defined.

(** [list_foreach] over a list that the body leaves alone terminates and
    visits every entry of the list exactly once, in order. *)
Theorem list_foreach_visits st l xs fuel :
  list_rep st l xs -> (length xs <= fuel)%nat -> list_foreach fuel l st = Some xs.
Proof.
  intros Hrep Hf. unfold list_foreach. rewrite (proj1 Hrep).
  by apply (list_foreach_from_spec st l [] xs).
Qed.

Lemma list_foreach_visits_witness :
  list_foreach 2 (mk_list 8) (<[8 := mk_entry 16 16]> (<[16 := mk_entry 8 8]> ∅)) = Some [8; 16].
Proof.
  apply list_foreach_visits; [|simpl; lia]. repeat split; [|set_solver].
  apply NoDup_cons. split; [set_solver|apply NoDup_singleton].
Defined.
