(* ===== verification/Machine.v ===== *)
(** * Machine: the simulated microcontroller of [tools/simulator]

    The state of a [struct mcu_cortex_m0p] with the devices on its bus
    ([core/mcu.c], [peripherals/*.c]), the register file and run control
    ([cortex-m0p/mcu.c], [core/mcu.c]).  The simulator runs on a little-endian
    host, where a [uint32_t] array read as a [uint16_t] array gives the low half
    first.  A call that can end the process ([exit] in [unittest_done]) or run
    into undefined behaviour returns so in its result. *)
From S2P Require Import Prelude.

(** ** Data *)

(** [halt_reason_t]: [HALT_HARD_FAULT] follows [HALT_SLEEP = -1] in the enum. *)
Definition HALT_STOPPED : Z := 0.
Definition HALT_SLEEP : Z := -1.
Definition HALT_HARD_FAULT : Z := 0.
Definition HALT_UNKOWN_INSTRUCTION : Z := 1.
Definition HAL_TRAP : Z := 5.

(** [reg_t] *)
Definition REG_SP : Z := 13.
Definition REG_LR : Z := 14.
Definition REG_PC : Z := 15.
Definition REG_XPSR : Z := 16.
Definition REG_CONTROL : Z := 17.
Definition REG_MSP : Z := 18.
Definition REG_PSP : Z := 19.
Definition reg_count : Z := 20.
Definition REG_APSR : Z := 25.
Definition REG_IPSR : Z := 26.
Definition REG_EPSR : Z := 27.

Inductive processor_mode_t := processor_thread_mode | processor_handler_mode.
Inductive mcu_state_t := mcu_halted | mcu_running.
Inductive mem_class_t := mem_class_ram | mem_class_flash | mem_class_io | mem_class_other.

(** [struct unittest_dev] without its [mem_dev] part; strings are byte lists. *)
Record unittest_dev := mk_unittest {
  current_test : Z; total_tests : Z; tests_skipped : Z; tests_failed : Z;
  desc : option (list Z); status : Z; status_desc : option (list Z) }.

(** What a device stores, and with it its four access functions: the [fetch16],
    [fetch32], [write16] and [write32] pointers of [struct mem_dev] are set
    together by the device's [_create] function.  RAM and flash contents are
    16-bit halves, by half index. *)
Inductive dev_body :=
| Ram (halves : Z -> Z)
| Flash (halves : Z -> Z)
| Uart
| Unittest (u : unittest_dev).

Record mem_dev := mk_dev {
  dev_class : mem_class_t; dev_type : Z; offset : Z; dev_length : Z; body : dev_body }.

(** What the outside world sees of a run. *)
Inductive event :=
| EvPutchar (c : Z)                    (* putchar of the uart *)
| EvIdleStart | EvIdleStop             (* ev_idle_start / ev_idle_stop *)
| EvDidHalt (context reason : Z)       (* a mcu_did_halt callback *)
| EvProgress.                          (* unittest_update_progress *)

(** [struct mcu_callbacks]: whether [mcu_did_halt] is set, and its context. *)
Record mcu_callbacks := mk_callbacks { has_did_halt : bool; context : Z }.

Record mcu := mk_mcu {
  mem_devs : list mem_dev;
  regs : list Z;
  processor_mode : processor_mode_t;
  state : mcu_state_t;
  halt_reason : Z;
  callbacks : list mcu_callbacks;
  unlocked : bool;
  trace : list event }.

Definition set_mem_devs (m : mcu) v := mk_mcu v (regs m) (processor_mode m) (state m) (halt_reason m) (callbacks m) (unlocked m) (trace m).
Definition set_regs (m : mcu) v := mk_mcu (mem_devs m) v (processor_mode m) (state m) (halt_reason m) (callbacks m) (unlocked m) (trace m).
Definition set_mode (m : mcu) v := mk_mcu (mem_devs m) (regs m) v (state m) (halt_reason m) (callbacks m) (unlocked m) (trace m).
Definition set_state (m : mcu) v := mk_mcu (mem_devs m) (regs m) (processor_mode m) v (halt_reason m) (callbacks m) (unlocked m) (trace m).
Definition set_halt_reason (m : mcu) v := mk_mcu (mem_devs m) (regs m) (processor_mode m) (state m) v (callbacks m) (unlocked m) (trace m).
Definition set_callbacks (m : mcu) v := mk_mcu (mem_devs m) (regs m) (processor_mode m) (state m) (halt_reason m) v (unlocked m) (trace m).
Definition set_unlocked (m : mcu) v := mk_mcu (mem_devs m) (regs m) (processor_mode m) (state m) (halt_reason m) (callbacks m) v (trace m).
Definition emit (m : mcu) e := mk_mcu (mem_devs m) (regs m) (processor_mode m) (state m) (halt_reason m) (callbacks m) (unlocked m) (trace m ++ [e]).

(** ** The monad of the simulator's functions

    A call returns, ends the process with an exit code, or has undefined
    behaviour. *)
Inductive res (A : Type) :=
| Ret (a : A) (m : mcu)
| Exited (code : Z) (m : mcu)
| Undef.
Arguments Ret {A}. Arguments Exited {A}. Arguments Undef {A}.

Definition M (A : Type) : Type := mcu -> res A.

Definition ret {A} (a : A) : M A := fun m => Ret a m.

Definition bind {A B} (c : M A) (k : A -> M B) : M B :=
  fun m => match c m with
           | Ret a m' => k a m'
           | Exited n m' => Exited n m'
           | Undef => Undef
           end.

Definition get : M mcu := fun m => Ret m m.
Definition modify (f : mcu -> mcu) : M unit := fun m => Ret tt (f m).
Definition gets {A} (f : mcu -> A) : M A := fun m => Ret (f m) m.

Declare Scope sim_scope.
Delimit Scope sim_scope with sim.
Notation "'let!' x := c 'in' k" := (bind c (fun x => k))
  (at level 10, x pattern, c at level 100, k at level 200) : sim_scope.
Notation "'run!' c 'in' k" := (bind c (fun _ => k))
  (at level 10, c at level 100, k at level 200) : sim_scope.
#[global] Open Scope sim_scope.

(** ** Fetching from the bus *)

(** The word at index [i] of a little-endian array of halves. *)
Definition word_at (halves : Z -> Z) (i : Z) : Z :=
  Z.lor (halves (2 * i)) (Z.shiftl (halves (2 * i + 1)) 16).

Definition set_word (halves : Z -> Z) (i v : Z) : Z -> Z :=
  upd (upd halves (2 * i) (u16 v)) (2 * i + 1) (u16 (Z.shiftr v 16)).

(** Offsets of the unit test device's registers and its status words. *)
Definition CURRENT_TEST_OFFSET : Z := 0x0.
Definition TOTAL_TESTS_OFFSET : Z := 0x4.
Definition DESC : Z := 0x8.
Definition STATUS_OFFSET : Z := 0x12.
Definition STATUS_DESC_OFFSET : Z := 0x16.
Definition SIZE : Z := 0x20.
Definition STATUS_SKIPPED : Z := 0x24924924.
Definition STATUS_PASSED : Z := 0xBEEFBEEF.
Definition STATUS_FAILED : Z := 0xDEADBEEF.

Definition ram_dev_read16 (halves : Z -> Z) (addr : Z) : option Z :=
  Some (halves (Z.shiftr addr 1)).

Definition ram_dev_read32 (halves : Z -> Z) (addr : Z) : option Z :=
  Some (word_at halves (Z.shiftr addr 2)).

Definition flash_dev_read16 (halves : Z -> Z) (addr : Z) : option Z :=
  Some (halves (Z.shiftr addr 1)).

Definition flash_dev_read32 (halves : Z -> Z) (addr : Z) : option Z :=
  Some (word_at halves (Z.shiftr addr 2)).

Definition uart_dev_read16 (addr : Z) : option Z := None.

Definition uart_dev_read32 (addr : Z) : option Z := None.

Definition unittest_dev_read32 (u : unittest_dev) (addr : Z) : option Z :=
  if addr =? CURRENT_TEST_OFFSET then Some (u32 (current_test u))
  else if addr =? TOTAL_TESTS_OFFSET then Some (u32 (total_tests u))
  else None.

Definition dev_fetch32 (d : mem_dev) (addr : Z) : option Z :=
  match body d with
  | Ram h => ram_dev_read32 h addr
  | Flash h => flash_dev_read32 h addr
  | Uart => uart_dev_read32 addr
  | Unittest u => unittest_dev_read32 u addr
  end.

(** 16-bit access to a device that only has 32-bit registers. *)
Definition mcu_emu_fetch16 (d : mem_dev) (addr : Z) : option Z :=
  match dev_fetch32 d (Z.land addr (u32 (Z.lnot 2))) with
  | None => None
  | Some value =>
      if truth (Z.land addr 2) then Some (Z.land (Z.shiftr value 0) 0xFFFF)
      else Some (Z.land (Z.shiftr value 16) 0xFFFF)
  end.

Definition dev_fetch16 (d : mem_dev) (addr : Z) : option Z :=
  match body d with
  | Ram h => ram_dev_read16 h addr
  | Flash h => flash_dev_read16 h addr
  | Uart => uart_dev_read16 addr
  | Unittest _ => mcu_emu_fetch16 d addr
  end.

(** The device the bus dispatches an address to: the first of the list whose
    window holds it. *)
Definition dev_hit (d : mem_dev) (addr : Z) : bool :=
  (offset d <=? addr) && (addr <? u32 (offset d + dev_length d)).

Fixpoint find_dev (ds : list mem_dev) (addr : Z) : option (nat * mem_dev) :=
  match ds with
  | [] => None
  | d :: ds' =>
      if dev_hit d addr then Some (O, d)
      else match find_dev ds' addr with Some (i, d') => Some (S i, d') | None => None end
  end.

Definition mcu_fetch16 (m : mcu) (addr : Z) : option Z :=
  match find_dev (mem_devs m) addr with
  | Some (_, d) => dev_fetch16 d (addr - offset d)
  | None => None
  end.

Definition mcu_fetch32 (m : mcu) (addr : Z) : option Z :=
  match find_dev (mem_devs m) addr with
  | Some (_, d) => dev_fetch32 d (addr - offset d)
  | None => None
  end.

Definition mcu_util_fetch8 (m : mcu) (addr : Z) : option Z :=
  match mcu_fetch16 m (Z.land addr (u32 (Z.lnot 1))) with
  | None => None
  | Some value =>
      if truth (Z.land addr 1) then Some (Z.land (Z.shiftr value 8) 0xFF)
      else Some (Z.land (Z.shiftr value 0) 0xFF)
  end.

(** ** Registers *)

Definition reg_slot (m : mcu) (reg : Z) : Z := default 0 (regs m !! Z.to_nat reg).

Definition set_reg_slot (m : mcu) (reg v : Z) : mcu :=
  set_regs m (<[Z.to_nat reg := v]> (regs m)).

Definition mcu_read_reg (m : mcu) (reg : Z) : Z :=
  if reg =? REG_SP then
    if truth (Z.land (reg_slot m reg) 0x2) then reg_slot m REG_PSP else reg_slot m REG_MSP
  else if reg =? REG_APSR then Z.land (reg_slot m REG_XPSR) 0xF0000000
  else if reg =? REG_IPSR then Z.land (reg_slot m REG_XPSR) 0x1F
  else if reg =? REG_EPSR then Z.land (reg_slot m REG_XPSR) 0x1000000
  else reg_slot m reg.

Definition mcu_write_reg (m : mcu) (reg val : Z) : mcu :=
  let val := if reg =? REG_PC then Z.land val (u32 (Z.lnot 1)) else val in
  let reg := if reg =? REG_SP then
               if truth (Z.land (reg_slot m reg) 0x2) then REG_PSP else REG_MSP
             else reg in
  if reg =? REG_APSR then
    set_reg_slot m REG_XPSR (Z.lor (Z.land (reg_slot m REG_XPSR) (u32 (Z.lnot 0xF0000000)))
                                   (Z.land val 0xF0000000))
  else if reg =? REG_IPSR then
    set_reg_slot m REG_XPSR (Z.lor (Z.land (reg_slot m REG_XPSR) (u32 (Z.lnot 0x1F)))
                                   (Z.land val 0x1F))
  else if reg =? REG_EPSR then
    set_reg_slot m REG_XPSR (Z.lor (Z.land (reg_slot m REG_XPSR) (u32 (Z.lnot 0x1000000)))
                                   (Z.land val 0x1000000))
  else set_reg_slot m reg val.

(** ** Run control *)

Definition mcu_is_unlocked (m : mcu) : bool := unlocked m.
Definition mcu_unlock (m : mcu) : mcu := set_unlocked m true.
Definition mcu_lock (m : mcu) : mcu := set_unlocked m false.

Definition mcu_is_halted (m : mcu) : bool :=
  match state m with mcu_halted => true | mcu_running => false end.

Definition mcu_halt_reason (m : mcu) : Z := halt_reason m.

Definition mcu_halt (m : mcu) (reason : Z) : mcu :=
  if mcu_is_halted m then m
  else
    let m := set_state m mcu_halted in
    let m := set_halt_reason m reason in
    let m := emit m EvIdleStop in
    foldl (fun m cb => if has_did_halt cb then emit m (EvDidHalt (context cb) reason) else m)
          m (callbacks m).

Definition mcu_resume (m : mcu) : mcu :=
  if negb (mcu_is_halted m) then m
  else emit (set_state m mcu_running) EvIdleStart.

Definition mcu_add_callbacks (m : mcu) (cb : mcu_callbacks) : mcu :=
  set_callbacks m (cb :: callbacks m).

Definition mcu_add_mem_dev (m : mcu) (off : Z) (d : mem_dev) : mcu :=
  set_mem_devs m (mk_dev (dev_class d) (dev_type d) off (dev_length d) (body d) :: mem_devs m).

(** [mcu_reset]; the result is the C function's, with the machine it leaves. *)
Definition mcu_reset (m : mcu) : bool * mcu :=
  match mcu_fetch32 m 0x0 with
  | None => (false, m)
  | Some val =>
      let m := mcu_write_reg m REG_SP val in
      match mcu_fetch32 m 0x4 with
      | None => (false, m)
      | Some val =>
          if Z.land val 1 =? 0 then (false, m)
          else
            let m := mcu_write_reg m REG_PC (u32 (val + 2)) in
            let m := set_mode m processor_thread_mode in
            (true, mcu_write_reg m REG_EPSR (Z.shiftl 1 24))
      end
  end.

Definition mcu_do_irq (m : mcu) (fault : Z) : bool * mcu := (false, m).

Definition mcu_do_exception (m : mcu) (exception : Z) : bool * mcu :=
  if exception =? 1 then mcu_reset m else mcu_do_irq m (i8 (exception - 16)).

Definition mcu_do_fault (m : mcu) (fault : Z) : bool * mcu := mcu_do_exception m 3.

(** ** Writing to the bus *)

Definition set_body (m : mcu) (i : nat) (b : dev_body) : mcu :=
  set_mem_devs m
    (alter (fun d => mk_dev (dev_class d) (dev_type d) (offset d) (dev_length d) b) i (mem_devs m)).

Definition ram_dev_write16 (i : nat) (halves : Z -> Z) (addr temp : Z) : M bool :=
  run! modify (fun m => set_body m i (Ram (upd halves (Z.shiftr addr 1) temp))) in ret true.

Definition ram_dev_write32 (i : nat) (halves : Z -> Z) (addr temp : Z) : M bool :=
  run! modify (fun m => set_body m i (Ram (set_word halves (Z.shiftr addr 2) temp))) in ret true.

Definition flash_dev_write16 (i : nat) (halves : Z -> Z) (addr temp : Z) : M bool :=
  let! u := gets mcu_is_unlocked in
  if negb u then ret false
  else run! modify (fun m => set_body m i (Flash (upd halves (Z.shiftr addr 1) temp))) in ret true.

Definition flash_dev_write32 (i : nat) (halves : Z -> Z) (addr temp : Z) : M bool :=
  let! u := gets mcu_is_unlocked in
  if negb u then ret false
  else run! modify (fun m => set_body m i (Flash (set_word halves (Z.shiftr addr 2) temp))) in ret true.

Definition uart_dev_write16 (addr temp : Z) : M bool := ret true.

Definition uart_dev_write32 (addr temp : Z) : M bool :=
  run! (if addr =? 0x0 then modify (fun m => emit m (EvPutchar (Z.land temp 0xFF))) else ret tt) in
  ret true.

(** [unittest_fetch_str]: at most [length] bytes, up to the terminator. *)
Fixpoint fetch_str_from (fuel : nat) (m : mcu) (addr : Z) : option (list Z) :=
  match fuel with
  | O => Some []
  | S fuel =>
      match mcu_util_fetch8 m addr with
      | None => None
      | Some c =>
          if c =? 0 then Some []
          else match fetch_str_from fuel m (u32 (addr + 1)) with
               | None => None
               | Some str => Some (c :: str)
               end
      end
  end.

Definition unittest_fetch_str (m : mcu) (addr : Z) : option (list Z) :=
  if addr =? 0x0 then None else fetch_str_from 1024 m addr.

Definition unittest_done (u : unittest_dev) : M bool :=
  fun m => Exited (if tests_failed u >? 0 then -1 else 0) m.

Definition set_unittest (i : nat) (u : unittest_dev) : M unit :=
  modify (fun m => set_body m i (Unittest u)).

Definition unittest_update_progress : M unit := modify (fun m => emit m EvProgress).

Definition reset_ignored : M unit := modify (fun m => snd (mcu_reset m)).

(** The arm of [unittest_dev_write32] for a test status. *)
Definition unittest_write_status (i : nat) (u : unittest_dev) (temp : Z) : M bool :=
  let u := mk_unittest (current_test u) (total_tests u) (tests_skipped u) (tests_failed u)
             (desc u) temp (status_desc u) in
  run! set_unittest i u in
  run! unittest_update_progress in
  if (temp =? STATUS_SKIPPED) || (temp =? STATUS_PASSED) || (temp =? STATUS_FAILED) then
    let u := mk_unittest (i32 (current_test u + 1)) (total_tests u)
               (if temp =? STATUS_SKIPPED then i32 (tests_skipped u + 1) else tests_skipped u)
               (if negb (temp =? STATUS_SKIPPED) && (temp =? STATUS_FAILED)
                then i32 (tests_failed u + 1) else tests_failed u)
               (desc u) (status u) (status_desc u) in
    run! set_unittest i u in
    if current_test u <? total_tests u then
      run! set_unittest i (mk_unittest (current_test u) (total_tests u) (tests_skipped u)
                             (tests_failed u) None (status u) (status_desc u)) in
      run! reset_ignored in
      ret true
    else
      unittest_done u
  else ret true.

Definition unittest_dev_write32 (i : nat) (u : unittest_dev) (addr temp : Z) : M bool :=
  if addr =? CURRENT_TEST_OFFSET then ret false
  else if addr =? TOTAL_TESTS_OFFSET then
    run! set_unittest i (mk_unittest 0 (i32 temp) 0 0 (desc u) (status u) (status_desc u)) in
    run! unittest_update_progress in
    run! reset_ignored in
    ret true
  else if addr =? DESC then
    let! str := gets (fun m => unittest_fetch_str m temp) in
    run! set_unittest i (mk_unittest (current_test u) (total_tests u) (tests_skipped u)
                           (tests_failed u) str (status u) (status_desc u)) in
    ret true
  else if addr =? STATUS_OFFSET then unittest_write_status i u temp
  else if addr =? STATUS_DESC_OFFSET then
    let! str := gets (fun m => unittest_fetch_str m temp) in
    run! set_unittest i (mk_unittest (current_test u) (total_tests u) (tests_skipped u)
                           (tests_failed u) (desc u) (status u) str) in
    ret true
  else ret false.

Definition dev_write32 (i : nat) (d : mem_dev) (addr value : Z) : M bool :=
  match body d with
  | Ram h => ram_dev_write32 i h addr value
  | Flash h => flash_dev_write32 i h addr value
  | Uart => uart_dev_write32 addr value
  | Unittest u => unittest_dev_write32 i u addr value
  end.

Definition mcu_emu_write16 (i : nat) (d : mem_dev) (addr valueIn : Z) : M bool :=
  match dev_fetch32 d (Z.land addr (u32 (Z.lnot 2))) with
  | None => ret false
  | Some value =>
      let value := if truth (Z.land addr 2)
                   then Z.lor (Z.land value (u32 (Z.lnot 0xFFFF))) (Z.land (Z.shiftl valueIn 0) 0xFFFF)
                   else Z.lor (Z.land value 0xFFFF)
                              (Z.land (u32 (Z.shiftl valueIn 16)) (u32 (Z.lnot 0xFFFF))) in
      dev_write32 i d (Z.land addr (u32 (Z.lnot 2))) value
  end.

Definition dev_write16 (i : nat) (d : mem_dev) (addr value : Z) : M bool :=
  match body d with
  | Ram h => ram_dev_write16 i h addr value
  | Flash h => flash_dev_write16 i h addr value
  | Uart => uart_dev_write16 addr value
  | Unittest _ => mcu_emu_write16 i d addr value
  end.

Definition mcu_write16 (addr value : Z) : M bool :=
  let! ds := gets mem_devs in
  match find_dev ds addr with
  | Some (i, d) => dev_write16 i d (addr - offset d) value
  | None => ret false
  end.

Definition mcu_write32 (addr value : Z) : M bool :=
  let! ds := gets mem_devs in
  match find_dev ds addr with
  | Some (i, d) => dev_write32 i d (addr - offset d) value
  | None => ret false
  end.

Definition mcu_util_write8 (addr valueIn : Z) : M bool :=
  let! value := gets (fun m => mcu_fetch16 m (Z.land addr (u32 (Z.lnot 1)))) in
  match value with
  | None => ret false
  | Some value =>
      let value := if truth (Z.land addr 1)
                   then u16 (Z.lor (Z.land value 0x00FF) (Z.shiftl valueIn 8))
                   else u16 (Z.lor (Z.land value 0xFF00) (Z.shiftl valueIn 0)) in
      mcu_write16 (Z.land addr (u32 (Z.lnot 1))) value
  end.

(** ** The boards *)

Definition ram_mem_type : Z := 1.
Definition flash_mem_type : Z := 1.
Definition uart_mem_type : Z := 1.
Definition unittest_mem_type : Z := 0xFF.

(** [malloc]ed RAM: its first contents are whatever the host gives. *)
Definition ram_dev_create (junk : Z -> Z) (size : Z) : mem_dev :=
  mk_dev mem_class_ram ram_mem_type 0 size (Ram junk).

Definition flash_dev_create (size : Z) : mem_dev :=
  mk_dev mem_class_flash flash_mem_type 0 size (Flash (fun _ => 0xDEDE)).

Definition uart_dev_create : mem_dev :=
  mk_dev mem_class_io uart_mem_type 0 0x40 Uart.

Definition unittest_dev_create : mem_dev :=
  mk_dev mem_class_io unittest_mem_type 0 SIZE (Unittest (mk_unittest (-1) 0 0 0 None 0 None)).

(** The [calloc]ed machine. *)
Definition mcu_zero : mcu :=
  mk_mcu [] (replicate 20 0) processor_thread_mode mcu_halted 0 [] false [].

Definition mcu_cortex_m0p_create (junk : Z -> Z) (ramsize : Z) : mcu :=
  let m := mcu_zero in
  let m := mcu_add_mem_dev m 0x0 (flash_dev_create (32 * 1024)) in
  let m := mcu_add_mem_dev m 0x10000000 (ram_dev_create junk ramsize) in
  let m := mcu_add_mem_dev m 0xE0000000 uart_dev_create in
  mcu_add_mem_dev m 0xEE000000 unittest_dev_create.
