(* ===== verification/Thumb.v ===== *)
(** * Thumb: the instructions of [tools/simulator/cortex-m0p/mcu.c]

    The condition flag helpers and one record per entry of the tables
    [mcu_instr16_cortex_m0p] and [mcu_instr32_cortex_m0p], with the entry's mask,
    its pattern and its implementation, in the order of the source.  Trace
    printing is left out. *)
From S2P Require Import Prelude Machine.

Definition CPSR_N : Z := Z.shiftl 1 31.
Definition CPSR_Z : Z := Z.shiftl 1 30.
Definition CPSR_C : Z := Z.shiftl 1 29.
Definition CPSR_V : Z := Z.shiftl 1 28.

(** [uint32_t] operators *)
Definition add32 (a b : Z) : Z := u32 (a + b).
Definition sub32 (a b : Z) : Z := u32 (a - b).
Definition not32 (a : Z) : Z := u32 (Z.lnot a).
Definition shl32 (a n : Z) : Z := u32 (Z.shiftl a n).

(** [(instr >> k) & mask] *)
Definition fld (instr k mask : Z) : Z := Z.land (Z.shiftr instr k) mask.

(** Register numbers [mcu_read_reg] and [mcu_write_reg] accept: the slots of
    [regs] and the three views of XPSR.  Any other number indexes past the end of
    the array, which is undefined. *)
Definition reg_ok (r : Z) : bool :=
  ((0 <=? r) && (r <? reg_count)) || ((REG_APSR <=? r) && (r <=? REG_EPSR)).

Definition rd (r : Z) : M Z :=
  fun m => if reg_ok r then Ret (mcu_read_reg m r) m else Undef.
Definition wr (r v : Z) : M unit :=
  fun m => if reg_ok r then Ret tt (mcu_write_reg m r v) else Undef.
Definition halt (reason : Z) : M unit := modify (fun m => mcu_halt m reason).
Definition fetch16 (addr : Z) : M (option Z) := gets (fun m => mcu_fetch16 m addr).
Definition fetch32 (addr : Z) : M (option Z) := gets (fun m => mcu_fetch32 m addr).

(** ** Condition flags *)

Definition mcu_update_nflag (c : Z) : M unit :=
  let! cpsr := rd REG_APSR in
  wr REG_APSR (if truth (Z.land c (Z.shiftl 1 31)) then Z.lor cpsr CPSR_N
               else Z.land cpsr (not32 CPSR_N)).

Definition mcu_update_zflag (c : Z) : M unit :=
  let! cpsr := rd REG_APSR in
  wr REG_APSR (if c =? 0 then Z.lor cpsr CPSR_Z else Z.land cpsr (not32 CPSR_Z)).

Definition mcu_update_cflag_bit (val : Z) : M unit :=
  let! cpsr := rd REG_APSR in
  wr REG_APSR (if truth val then Z.lor cpsr CPSR_C else Z.land cpsr (not32 CPSR_C)).

Definition mcu_update_cflag (a b c : Z) : M unit :=
  let temp := add32 (add32 (Z.land a 0x7FFFFFFF) (Z.land b 0x7FFFFFFF)) c in
  let temp := add32 (add32 (Z.shiftr temp 31) (Z.shiftr a 31)) (Z.shiftr b 31) in
  mcu_update_cflag_bit (Z.land temp 2).

Definition mcu_update_vflag_bit (val : Z) : M unit :=
  let! cpsr := rd REG_APSR in
  wr REG_APSR (if truth val then Z.lor cpsr CPSR_V else Z.land cpsr (not32 CPSR_V)).

Definition mcu_update_vflag (a b c : Z) : M unit :=
  let temp1 := add32 (add32 (Z.land a 0x7FFFFFFF) (Z.land b 0x7FFFFFFF)) c in
  let temp1 := Z.shiftr temp1 31 in
  let temp2 := add32 (add32 (Z.land temp1 1) (Z.land (Z.shiftr a 31) 1)) (Z.land (Z.shiftr b 31) 1) in
  let temp2 := Z.shiftr temp2 1 in
  let temp1 := Z.land (Z.lxor temp1 temp2) 1 in
  mcu_update_vflag_bit temp1.

Definition mcu_fetch_error (addr : Z) : M unit := halt HALT_HARD_FAULT.
Definition mcu_write_error (addr : Z) : M unit := halt HALT_HARD_FAULT.

(** ** The 16-bit table *)

Record mcu_instr16 := Instr16 { mask16 : Z; instr16 : Z; impl16 : Z -> M bool }.

(** The registers 0..7 in turn, as the loops of LDMIA, STMIA, PUSH and POP run:
    [body] for each register whose bit is set in [instr], stopping at the first
    failure; the result is the address after the last transfer, or [None]. *)
Fixpoint for_regs (regs : list Z) (instr : Z) (body : Z -> Z -> M bool) (sp : Z) : M (option Z) :=
  match regs with
  | [] => ret (Some sp)
  | reg :: regs' =>
      if truth (Z.land instr (Z.shiftl 1 reg)) then
        let! ok := body reg sp in
        if ok then for_regs regs' instr body (add32 sp 4) else ret None
      else for_regs regs' instr body sp
  end.

Definition low_regs : list Z := [0; 1; 2; 3; 4; 5; 6; 7].

(** Load a register from the bus; [err] is what a failed fetch does. *)
Definition load_reg (err : Z -> M unit) (reg sp : Z) : M bool :=
  let! val := fetch32 sp in
  match val with
  | None => run! err sp in ret false
  | Some val => run! wr reg val in ret true
  end.

Definition store_reg (err : Z -> M unit) (reg sp : Z) : M bool :=
  let! val := rd reg in
  let! ok := mcu_write32 sp val in
  if ok then ret true else run! err sp in ret false.

Definition no_err (addr : Z) : M unit := ret tt.

(** The number of registers a PUSH stores, an [uint8_t]. *)
Definition count_regs (instr : Z) : Z :=
  foldl (fun num reg => if truth (Z.land instr (Z.shiftl 1 reg)) then u8 (num + 1) else num) 0 low_regs.

(** [1 << n] and [(~0) << n], converted to [uint32_t]: a count that is not below the
    width of an [int] is undefined behaviour.  What the shifts into and of the sign
    bit give is what the host's compilers define. *)
Definition shift_count (n : Z) : bool := (0 <=? n) && (n <? 32).
Definition one_shl (n : Z) : M Z := if shift_count n then ret (Z.shiftl 1 n) else fun _ => Undef.
Definition ones_shl (n : Z) : Z := u32 (Z.shiftl (-1) n).
Definition ones_shl_by (n : Z) : M Z := if shift_count n then ret (ones_shl n) else fun _ => Undef.

Definition instr_ADD1 : mcu_instr16 := Instr16 0xFE00 0x1C00 (fun instr =>
  let dest := fld instr 0 0x7 in
  let src := fld instr 3 0x7 in
  let b := fld instr 6 0x7 in
  let! a := rd src in
  let c := add32 a b in
  run! wr dest c in
  run! mcu_update_nflag c in
  run! mcu_update_zflag c in
  run! mcu_update_cflag a b 0 in
  run! mcu_update_vflag a b 0 in
  ret true).

Definition instr_ADD2 : mcu_instr16 := Instr16 0xF800 0x3000 (fun instr =>
  let reg := fld instr 8 0x7 in
  let b := fld instr 0 0xFF in
  let! a := rd reg in
  let c := add32 a b in
  run! wr reg c in
  run! mcu_update_nflag c in
  run! mcu_update_zflag c in
  run! mcu_update_cflag a b 0 in
  run! mcu_update_vflag a b 0 in
  ret true).

Definition instr_ADD3 : mcu_instr16 := Instr16 0xFE00 0x1800 (fun instr =>
  let dest := fld instr 0 0x7 in
  let src := fld instr 3 0x7 in
  let src2 := fld instr 6 0x7 in
  let! a := rd src in
  let! b := rd src2 in
  let c := add32 a b in
  run! wr dest c in
  run! mcu_update_nflag c in
  run! mcu_update_zflag c in
  run! mcu_update_cflag a b 0 in
  run! mcu_update_vflag a b 0 in
  ret true).

Definition instr_ADD4 : mcu_instr16 := Instr16 0xFF00 0x4400 (fun instr =>
  let reg := Z.lor (fld instr 0 0x7) (fld instr 4 0x8) in
  let src2 := fld instr 3 0xF in
  let! a := rd reg in
  let! b := rd src2 in
  let c := add32 a b in
  if reg =? REG_PC then
    if Z.land c 1 =? 0 then ret false
    else
      let c := Z.land c (not32 1) in
      let c := add32 c 2 in
      run! wr reg c in ret true
  else
    run! wr reg c in ret true).

Definition instr_ADD5 : mcu_instr16 := Instr16 0xF800 0xA000 (fun instr =>
  let dest := fld instr 8 0x7 in
  let imm := Z.shiftl (fld instr 0 0xFF) 2 in
  let! a := rd REG_PC in
  let c := add32 (Z.land a (not32 3)) imm in
  run! wr dest c in
  ret true).

Definition instr_ADD6 : mcu_instr16 := Instr16 0xF800 0xA800 (fun instr =>
  let dest := fld instr 8 0x7 in
  let imm := Z.shiftl (fld instr 0 0xFF) 2 in
  let! a := rd REG_SP in
  let c := add32 a imm in
  run! wr dest c in
  ret true).

Definition instr_ADD7 : mcu_instr16 := Instr16 0xFF80 0xB000 (fun instr =>
  let imm := Z.shiftl (fld instr 0 0x7F) 2 in
  let! a := rd REG_SP in
  let c := add32 a imm in
  run! wr REG_SP c in
  ret true).

Definition instr_AND : mcu_instr16 := Instr16 0xFFC0 0x4000 (fun instr =>
  let reg := fld instr 0 0x7 in
  let src2 := fld instr 3 0x7 in
  let! a := rd reg in
  let! b := rd src2 in
  let c := Z.land a b in
  run! wr reg c in
  run! mcu_update_nflag c in
  run! mcu_update_zflag c in
  ret true).

Definition instr_ASR1 : mcu_instr16 := Instr16 0xF800 0x1000 (fun instr =>
  let dest := fld instr 0 0x7 in
  let src := fld instr 3 0x7 in
  let shift := fld instr 6 0x1F in
  let! a := rd src in
  let! a := (if shift =? 0 then
               if truth (Z.land a (Z.shiftl 1 31)) then
                 run! mcu_update_cflag_bit 1 in ret (not32 0)
               else
                 run! mcu_update_cflag_bit 0 in ret 0
             else
               let! bit := one_shl (shift - 1) in
               run! mcu_update_cflag_bit (Z.land a bit) in
               let b := Z.land a (Z.shiftl 1 31) in
               let a := Z.shiftr a shift in
               if truth b then let! ones := ones_shl_by (32 - shift) in ret (Z.lor a ones) else ret a) in
  run! wr dest a in
  run! mcu_update_nflag a in
  run! mcu_update_zflag a in
  ret true).

Definition instr_ASR2 : mcu_instr16 := Instr16 0xF800 0x1000 (fun instr =>
  let reg := fld instr 0 0x7 in
  let shift_reg := fld instr 3 0x7 in
  let! a := rd reg in
  let! shift := rd shift_reg in
  let shift := Z.land shift 0xFF in
  let! a := (if shift =? 0 then ret a
             else if shift <? 32 then
               let! bit := one_shl (shift - 1) in
               run! mcu_update_cflag_bit (Z.land a bit) in
               let b := Z.land a (Z.shiftl 1 31) in
               let a := Z.shiftr a shift in
               if truth b then let! ones := ones_shl_by (32 - shift) in ret (Z.lor a ones) else ret a
             else if truth (Z.land a (Z.shiftl 1 31)) then
               run! mcu_update_cflag_bit 1 in ret (not32 0)
             else
               run! mcu_update_cflag_bit 0 in ret 0) in
  run! wr reg a in
  run! mcu_update_nflag a in
  run! mcu_update_zflag a in
  ret true).

(** The condition of [B(1)] for each operation code below 0xE. *)
Definition branch_taken (op cpsr : Z) : bool :=
  let n := truth (Z.land cpsr CPSR_N) in
  let z := truth (Z.land cpsr CPSR_Z) in
  let c := truth (Z.land cpsr CPSR_C) in
  let v := truth (Z.land cpsr CPSR_V) in
  match op with
  | 0x0 => z
  | 0x1 => negb z
  | 0x2 => c
  | 0x3 => negb c
  | 0x4 => n
  | 0x5 => negb n
  | 0x6 => v
  | 0x7 => negb v
  | 0x8 => c && negb z
  | 0x9 => z || negb c
  | 0xA => (n && v) || (negb n && negb v)
  | 0xB => (negb n && v) || (negb v && n)
  | 0xC => if z then false else (n && v) || (negb n && negb v)
  | 0xD => (n && v) || (negb n && negb v) || z
  | _ => false
  end.

Definition instr_B1 : mcu_instr16 := Instr16 0xF000 0xD000 (fun instr =>
  let op := fld instr 8 0xF in
  let new_pc := fld instr 0 0xFF in
  let new_pc := if truth (Z.land new_pc 0x80) then Z.lor new_pc (ones_shl 8) else new_pc in
  let! pc := rd REG_PC in
  let new_pc := add32 (add32 (shl32 new_pc 1) pc) 2 in
  let! cpsr := rd REG_APSR in
  if op <? 0xE then
    if branch_taken op cpsr then run! wr REG_PC new_pc in ret true else ret true
  else ret false).

Definition instr_B2 : mcu_instr16 := Instr16 0xF800 0xE000 (fun instr =>
  let new_pc := fld instr 0 0x7FF in
  let new_pc := if truth (Z.land new_pc (Z.shiftl 1 10)) then Z.lor new_pc (ones_shl 11) else new_pc in
  let! pc := rd REG_PC in
  let new_pc := add32 (add32 (shl32 new_pc 1) pc) 2 in
  run! wr REG_PC new_pc in
  ret true).

Definition instr_BIC : mcu_instr16 := Instr16 0xFFC0 0x4380 (fun instr =>
  let reg := fld instr 0 0x7 in
  let src2 := fld instr 3 0x7 in
  let! a := rd reg in
  let! b := rd src2 in
  let c := Z.land a (not32 b) in
  run! wr reg c in
  run! mcu_update_nflag c in
  run! mcu_update_zflag c in
  ret true).

Definition instr_BKPT : mcu_instr16 := Instr16 0xFF00 0xBE00 (fun instr =>
  run! halt HAL_TRAP in
  ret true).

Definition instr_BL_H10 : mcu_instr16 := Instr16 0xF800 0xF000 (fun instr =>
  let a := Z.land instr (Z.shiftl 1 11 - 1) in
  let a := if truth (Z.land a (Z.shiftl 1 10)) then Z.lor a (not32 (Z.shiftl 1 11 - 1)) else a in
  let! pc := rd REG_PC in
  let a := add32 (shl32 a 12) pc in
  run! wr REG_LR a in
  ret true).

Definition instr_BL_H11 : mcu_instr16 := Instr16 0xF800 0xF800 (fun instr =>
  let a := Z.shiftl (Z.land instr (Z.shiftl 1 11 - 1)) 1 in
  let! lr := rd REG_LR in
  let a := add32 (add32 a lr) 2 in
  let! pc := rd REG_PC in
  run! wr REG_LR (Z.lor (sub32 pc 2) 1) in
  run! wr REG_PC a in
  ret true).

Definition instr_BL_H01 : mcu_instr16 := Instr16 0xF800 0xE800 (fun instr => ret false).

Definition instr_BLX2 : mcu_instr16 := Instr16 0xFF87 0x4780 (fun instr =>
  let src := fld instr 3 0xF in
  let! r := rd src in
  let new_pc := add32 r 2 in
  if truth (Z.land new_pc 1) then
    let! pc := rd REG_PC in
    run! wr REG_LR (Z.lor (sub32 pc 2) 1) in
    let new_pc := Z.land new_pc (not32 1) in
    run! wr REG_PC new_pc in
    ret true
  else ret false).

Definition instr_BX : mcu_instr16 := Instr16 0xFF87 0x4700 (fun instr =>
  let src := fld instr 3 0xF in
  let! r := rd src in
  let new_pc := add32 r 2 in
  if truth (Z.land new_pc 1) then
    let new_pc := Z.land new_pc (not32 1) in
    run! wr REG_PC new_pc in
    ret true
  else ret false).

Definition instr_CMN : mcu_instr16 := Instr16 0xFFC0 0x42C0 (fun instr =>
  let src1 := fld instr 0 0xF in
  let src2 := fld instr 3 0xF in
  let! a := rd src1 in
  let! b := rd src2 in
  let c := add32 a b in
  run! mcu_update_nflag c in
  run! mcu_update_zflag c in
  run! mcu_update_cflag a b 0 in
  run! mcu_update_vflag a b 0 in
  ret true).

Definition instr_CMP1 : mcu_instr16 := Instr16 0xF800 0x2800 (fun instr =>
  let src := fld instr 8 0x7 in
  let imm := fld instr 0 0xFF in
  let! a := rd src in
  let c := sub32 a imm in
  run! mcu_update_nflag c in
  run! mcu_update_zflag c in
  run! mcu_update_cflag a (not32 imm) 1 in
  run! mcu_update_vflag a (not32 imm) 1 in
  ret true).

Definition instr_CMP2 : mcu_instr16 := Instr16 0xFFC0 0x4280 (fun instr =>
  let src1 := fld instr 0 0x7 in
  let src2 := fld instr 3 0x7 in
  let! a := rd src1 in
  let! b := rd src2 in
  let c := sub32 a b in
  run! mcu_update_nflag c in
  run! mcu_update_zflag c in
  run! mcu_update_cflag a (not32 b) 1 in
  run! mcu_update_vflag a (not32 b) 1 in
  ret true).

Definition instr_CMP3 : mcu_instr16 := Instr16 0xFF00 0x4500 (fun instr =>
  if fld instr 6 3 =? 0x0 then ret false
  else
    let src1 := Z.lor (fld instr 0 0x7) (fld instr 4 0x8) in
    let src2 := fld instr 3 0xF in
    if src1 =? 0xF then ret false
    else
      let! a := rd src1 in
      let! b := rd src2 in
      let c := sub32 a b in
      run! mcu_update_nflag c in
      run! mcu_update_zflag c in
      run! mcu_update_cflag a (not32 b) 1 in
      run! mcu_update_vflag a (not32 b) 1 in
      ret true).

Definition instr_CPY : mcu_instr16 := Instr16 0xFFC0 0x4600 (fun instr =>
  let src := fld instr 3 0x7 in
  let dest := fld instr 0 0x7 in
  let! val := rd src in
  run! wr dest val in
  ret true).

Definition instr_EOR : mcu_instr16 := Instr16 0xFFC0 0x4040 (fun instr =>
  let reg := fld instr 0 0x7 in
  let src2 := fld instr 3 0x7 in
  let! a := rd reg in
  let! b := rd src2 in
  let c := Z.lxor a b in
  run! wr reg c in
  run! mcu_update_nflag c in
  run! mcu_update_zflag c in
  ret true).

Definition instr_LDMIA : mcu_instr16 := Instr16 0xF800 0xC800 (fun instr =>
  let reg := fld instr 8 0x7 in
  let! sp := rd reg in
  let! sp := for_regs low_regs instr (load_reg mcu_fetch_error) sp in
  match sp with
  | None => ret false
  | Some sp => run! wr reg sp in ret true
  end).

Definition instr_LDR1 : mcu_instr16 := Instr16 0xF800 0x6800 (fun instr =>
  let src := fld instr 3 0x7 in
  let dest := fld instr 0 0x7 in
  let imm := Z.shiftl (fld instr 6 0x1F) 2 in
  let! base := rd src in
  let addr := add32 base imm in
  load_reg mcu_fetch_error dest addr).

Definition instr_LDR2 : mcu_instr16 := Instr16 0xFE00 0x5800 (fun instr =>
  let src1 := fld instr 3 0x7 in
  let src2 := fld instr 6 0x7 in
  let dest := fld instr 0 0x7 in
  let! r1 := rd src1 in
  let! r2 := rd src2 in
  let addr := add32 r1 r2 in
  load_reg mcu_fetch_error dest addr).

Definition instr_LDR3 : mcu_instr16 := Instr16 0xF800 0x4800 (fun instr =>
  let imm := Z.shiftl (fld instr 0 0xFF) 2 in
  let dest := fld instr 8 0x7 in
  let! pc := rd REG_PC in
  let addr := add32 (Z.land pc (not32 3)) imm in
  load_reg mcu_fetch_error dest addr).

Definition instr_LDR4 : mcu_instr16 := Instr16 0xF800 0x9800 (fun instr =>
  let imm := Z.shiftl (fld instr 0 0xFF) 2 in
  let dest := fld instr 8 0x7 in
  let! sp := rd REG_SP in
  let addr := add32 sp imm in
  load_reg mcu_fetch_error dest addr).

(** The common tail of LDRB(1) and LDRB(2). *)
Definition load_byte (dest addr : Z) : M bool :=
  let! val := fetch16 (Z.land addr (not32 1)) in
  match val with
  | None => run! mcu_fetch_error (Z.land addr (not32 1)) in ret false
  | Some val =>
      let val := if truth (Z.land addr 1) then Z.shiftr val 8 else val in
      run! wr dest (Z.land val 0xFF) in
      ret true
  end.

Definition instr_LDRB1 : mcu_instr16 := Instr16 0xF800 0x7800 (fun instr =>
  let imm := fld instr 6 0x1F in
  let dest := fld instr 0 0x7 in
  let src := fld instr 3 0x7 in
  let! base := rd src in
  let addr := add32 base imm in
  load_byte dest addr).

Definition instr_LDRB2 : mcu_instr16 := Instr16 0xFE00 0x5C00 (fun instr =>
  let dest := fld instr 0 0x7 in
  let src1 := fld instr 3 0x7 in
  let src2 := fld instr 6 0x7 in
  let! r1 := rd src1 in
  let! r2 := rd src2 in
  let addr := add32 r1 r2 in
  load_byte dest addr).

(** The common tail of LDRH(1) and LDRH(2). *)
Definition load_half (dest addr : Z) : M bool :=
  let! val := fetch16 addr in
  match val with
  | None => run! mcu_fetch_error addr in ret false
  | Some val => run! wr dest val in ret true
  end.

Definition instr_LDRH1 : mcu_instr16 := Instr16 0xF800 0x8800 (fun instr =>
  let imm := Z.shiftl (fld instr 6 0x1F) 1 in
  let dest := fld instr 0 0x7 in
  let src := fld instr 3 0x7 in
  let! base := rd src in
  let addr := add32 base imm in
  load_half dest addr).

Definition instr_LDRH2 : mcu_instr16 := Instr16 0xFE00 0x5A00 (fun instr =>
  let dest := fld instr 0 0x7 in
  let src1 := fld instr 3 0x7 in
  let src2 := fld instr 6 0x7 in
  let! r1 := rd src1 in
  let! r2 := rd src2 in
  let addr := add32 r1 r2 in
  load_half dest addr).

(** [val] is an [uint16_t], so the sign extension stops at bit 15. *)
Definition instr_LDRSB : mcu_instr16 := Instr16 0xFE00 0x5600 (fun instr =>
  let dest := fld instr 0 0x7 in
  let src1 := fld instr 3 0x7 in
  let src2 := fld instr 6 0x7 in
  let! r1 := rd src1 in
  let! r2 := rd src2 in
  let addr := add32 r1 r2 in
  let! val := fetch16 (Z.land addr (not32 1)) in
  match val with
  | None => run! mcu_fetch_error addr in ret false
  | Some val =>
      let val := if truth (Z.land addr 1) then Z.shiftr val 8 else val in
      let val := Z.land val 0xFF in
      let val := if truth (Z.land val 0x80) then u16 (Z.lor val (ones_shl 8)) else val in
      run! wr dest val in
      ret true
  end).

Definition instr_LDRSH : mcu_instr16 := Instr16 0xFE00 0x5E00 (fun instr =>
  let dest := fld instr 0 0x7 in
  let src1 := fld instr 3 0x7 in
  let src2 := fld instr 6 0x7 in
  let! r1 := rd src1 in
  let! r2 := rd src2 in
  let addr := add32 r1 r2 in
  let! val := fetch16 addr in
  match val with
  | None => run! mcu_fetch_error addr in ret false
  | Some val =>
      let val := Z.land val 0xFFFF in
      let val := if truth (Z.land val 0x8000) then u16 (Z.lor val (ones_shl 16)) else val in
      run! wr dest val in
      ret true
  end).

Definition instr_LSL1 : mcu_instr16 := Instr16 0xF800 0x0000 (fun instr =>
  let dest := fld instr 0 0x7 in
  let src := fld instr 3 0x7 in
  let imm := fld instr 6 0x1F in
  let! a := rd src in
  let! a := (if negb (imm =? 0) then
               let! bit := one_shl (32 - imm) in
               run! mcu_update_cflag_bit (Z.land a bit) in
               ret (shl32 a imm)
             else ret a) in
  run! wr dest a in
  run! mcu_update_nflag a in
  run! mcu_update_zflag a in
  ret true).

Definition instr_LSL2 : mcu_instr16 := Instr16 0xFFC0 0x4080 (fun instr =>
  let reg := fld instr 0 0x7 in
  let src := fld instr 3 0x7 in
  let! a := rd reg in
  let! shift := rd src in
  let shift := Z.land shift 0xFF in
  let! a := (if shift <? 32 then
               let! bit := one_shl (32 - shift) in
               run! mcu_update_cflag_bit (Z.land a bit) in
               ret (shl32 a shift)
             else if shift =? 32 then
               run! mcu_update_cflag_bit (Z.land a 1) in ret 0
             else if negb (shift =? 0) then
               run! mcu_update_cflag_bit 0 in ret 0
             else ret a) in
  run! wr reg a in
  run! mcu_update_nflag a in
  run! mcu_update_zflag a in
  ret true).

Definition instr_LSR1 : mcu_instr16 := Instr16 0xF800 0x0800 (fun instr =>
  let dest := fld instr 0 0x7 in
  let src := fld instr 3 0x7 in
  let imm := fld instr 6 0x1F in
  let! a := rd src in
  let! a := (if imm =? 0 then
               run! mcu_update_cflag_bit (Z.land a 0x80000000) in ret 0
             else
               let! bit := one_shl (imm - 1) in
               run! mcu_update_cflag_bit (Z.land a bit) in
               ret (Z.shiftr a imm)) in
  run! wr dest a in
  run! mcu_update_nflag a in
  run! mcu_update_zflag a in
  ret true).

Definition instr_LSR2 : mcu_instr16 := Instr16 0xFFC0 0x40C0 (fun instr =>
  let reg := fld instr 0 0x7 in
  let src := fld instr 3 0x7 in
  let! a := rd reg in
  let! shift := rd src in
  let shift := Z.land shift 0xFF in
  let! a := (if shift <? 32 then
               let! bit := one_shl (sub32 shift 1) in
               run! mcu_update_cflag_bit (Z.land a bit) in
               ret (Z.shiftr a shift)
             else if shift =? 32 then
               run! mcu_update_cflag_bit (Z.land a 0x80000000) in ret 0
             else if negb (shift =? 0) then
               run! mcu_update_cflag_bit 0 in ret 0
             else ret a) in
  run! wr reg a in
  run! mcu_update_nflag a in
  run! mcu_update_zflag a in
  ret true).

Definition instr_MOV1 : mcu_instr16 := Instr16 0xF800 0x2000 (fun instr =>
  let dest := fld instr 8 0x7 in
  let imm := fld instr 0 0xFF in
  run! wr dest imm in
  run! mcu_update_nflag imm in
  run! mcu_update_zflag imm in
  ret true).

Definition instr_MOV2 : mcu_instr16 := Instr16 0xFFC0 0x1C00 (fun instr =>
  let dest := fld instr 0 0x7 in
  let src := fld instr 3 0x7 in
  let! a := rd src in
  run! wr dest a in
  run! mcu_update_nflag a in
  run! mcu_update_zflag a in
  run! mcu_update_cflag_bit 0 in
  run! mcu_update_vflag_bit 0 in
  ret true).

Definition instr_MOV3 : mcu_instr16 := Instr16 0xFF00 0x4600 (fun instr =>
  let dest := Z.lor (fld instr 0 0x7) (fld instr 4 0x8) in
  let src := fld instr 3 0xF in
  let! a := rd src in
  let a := if dest =? REG_PC then add32 (Z.land a (not32 1)) 2 else a in
  run! wr dest a in
  ret true).

Definition instr_MUL : mcu_instr16 := Instr16 0xFFC0 0x4340 (fun instr =>
  let reg := fld instr 0 0x7 in
  let src2 := fld instr 3 0x7 in
  let! a := rd reg in
  let! b := rd src2 in
  let c := u32 (a * b) in
  run! wr reg c in
  run! mcu_update_nflag c in
  run! mcu_update_zflag c in
  ret true).

Definition instr_MVN : mcu_instr16 := Instr16 0xFFC0 0x43C0 (fun instr =>
  let dest := fld instr 0 0x7 in
  let src := fld instr 3 0x7 in
  let! a := rd src in
  let c := not32 a in
  run! wr dest c in
  run! mcu_update_nflag c in
  run! mcu_update_zflag c in
  ret true).

Definition instr_NEG : mcu_instr16 := Instr16 0xFFC0 0x4240 (fun instr =>
  let dest := fld instr 0 0x7 in
  let src := fld instr 3 0x7 in
  let! a := rd src in
  let c := sub32 0 a in
  run! wr dest c in
  run! mcu_update_nflag c in
  run! mcu_update_zflag c in
  run! mcu_update_cflag 0 (not32 a) 1 in
  run! mcu_update_vflag 0 (not32 a) 1 in
  ret true).

Definition instr_ORR : mcu_instr16 := Instr16 0xFFC0 0x4300 (fun instr =>
  let reg := fld instr 0 0x7 in
  let src2 := fld instr 3 0x7 in
  let! a := rd reg in
  let! b := rd src2 in
  let c := Z.lor a b in
  run! wr reg c in
  run! mcu_update_nflag c in
  run! mcu_update_zflag c in
  ret true).

Definition instr_POP : mcu_instr16 := Instr16 0xFE00 0xBC00 (fun instr =>
  let! sp := rd REG_SP in
  let! sp := for_regs low_regs instr (load_reg no_err) sp in
  match sp with
  | None => ret false
  | Some sp =>
      if truth (Z.land instr 0x100) then
        let! val := fetch32 sp in
        match val with
        | None => ret false
        | Some val =>
            if Z.land val 1 =? 0 then ret false
            else
              let val := add32 val 2 in
              run! wr REG_PC val in
              let sp := add32 sp 4 in
              run! wr REG_SP sp in
              ret true
        end
      else run! wr REG_SP sp in ret true
  end).

Definition instr_PUSH : mcu_instr16 := Instr16 0xFE00 0xB400 (fun instr =>
  let! sp := rd REG_SP in
  let num := count_regs instr in
  let num := if truth (Z.land instr 0x100) then u8 (num + 1) else num in
  let sp := sub32 sp (Z.shiftl num 2) in
  run! wr REG_SP sp in
  let! sp := for_regs low_regs instr (store_reg mcu_write_error) sp in
  match sp with
  | None => ret false
  | Some sp =>
      if truth (Z.land instr 0x100) then
        let! val := rd REG_LR in
        let! ok := mcu_write32 sp val in
        if ok then ret true else ret false
      else ret true
  end).

(** The byte reversal both REV and REV16 compute. *)
Definition rev_bytes (a : Z) : Z :=
  let c := shl32 (Z.land (Z.shiftr a 0) 0xFF) 24 in
  let c := Z.lor c (Z.shiftl (Z.land (Z.shiftr a 8) 0xFF) 16) in
  let c := Z.lor c (Z.shiftl (Z.land (Z.shiftr a 16) 0xFF) 8) in
  Z.lor c (Z.shiftl (Z.land (Z.shiftr a 24) 0xFF) 0).

Definition instr_REV : mcu_instr16 := Instr16 0xFFC0 0xBA00 (fun instr =>
  let dest := fld instr 0 0x7 in
  let src := fld instr 3 0x7 in
  let! a := rd src in
  run! wr dest (rev_bytes a) in
  ret true).

Definition instr_REV16 : mcu_instr16 := Instr16 0xFFC0 0xBA40 (fun instr =>
  let dest := fld instr 0 0x7 in
  let src := fld instr 3 0x7 in
  let! a := rd src in
  run! wr dest (rev_bytes a) in
  ret true).

Definition instr_REVSH : mcu_instr16 := Instr16 0xFFC0 0xBAC0 (fun instr =>
  let dest := fld instr 0 0x7 in
  let src := fld instr 3 0x7 in
  let! a := rd src in
  let c := Z.shiftl (Z.land (Z.shiftr a 0) 0xFF) 8 in
  let c := Z.lor c (Z.shiftl (Z.land (Z.shiftr a 8) 0xFF) 0) in
  let c := if truth (Z.land c 0x8000) then Z.lor c 0xFFFF0000 else Z.land c 0x0000FFFF in
  run! wr dest c in
  ret true).

Definition instr_ROR : mcu_instr16 := Instr16 0xFFC0 0xBAC0 (fun instr =>
  let reg := fld instr 0 0x7 in
  let src2 := fld instr 3 0x7 in
  let! a := rd reg in
  let! b := rd src2 in
  let! a := (if negb (b =? 0) then
               let b := Z.land b 0x1F in
               if b =? 0 then
                 run! mcu_update_cflag_bit (Z.land a 0x80000000) in ret a
               else
                 let! bit := one_shl (b - 1) in
                 run! mcu_update_cflag_bit (Z.land a bit) in
                 let temp := shl32 a (32 - b) in
                 ret (Z.lor (Z.shiftr a b) temp)
             else ret a) in
  run! wr reg a in
  run! mcu_update_nflag a in
  run! mcu_update_zflag a in
  ret true).

Definition instr_SBC : mcu_instr16 := Instr16 0xFFC0 0x4180 (fun instr =>
  let reg := fld instr 0 0x7 in
  let src2 := fld instr 3 0x7 in
  let! a := rd reg in
  let! b := rd src2 in
  let c := sub32 a b in
  let! apsr := rd REG_APSR in
  let c := if negb (truth (Z.land apsr CPSR_C)) then sub32 c 1 else c in
  run! wr reg c in
  run! mcu_update_nflag c in
  run! mcu_update_zflag c in
  let! apsr := rd REG_APSR in
  if truth (Z.land apsr CPSR_C) then
    run! mcu_update_cflag a (not32 b) 1 in
    run! mcu_update_vflag a (not32 b) 1 in
    ret true
  else
    run! mcu_update_cflag a (not32 b) 0 in
    run! mcu_update_vflag a (not32 b) 0 in
    ret true).

Definition instr_STMIA : mcu_instr16 := Instr16 0xF800 0xC000 (fun instr =>
  let reg := fld instr 8 0x7 in
  let! sp := rd reg in
  let! sp := for_regs low_regs instr (store_reg mcu_write_error) sp in
  match sp with
  | None => ret false
  | Some sp => run! wr reg sp in ret true
  end).

(** [mcu_write32] with the error arm the stores share. *)
Definition store_word (addr val err : Z) : M bool :=
  let! ok := mcu_write32 addr val in
  if ok then ret true else run! mcu_write_error err in ret false.

Definition store_half (addr val err : Z) : M bool :=
  let! ok := mcu_write16 addr (u16 val) in
  if ok then ret true else run! mcu_write_error err in ret false.

Definition instr_STR1 : mcu_instr16 := Instr16 0xF800 0x6000 (fun instr =>
  let dest := fld instr 0 0x7 in
  let src := fld instr 3 0x7 in
  let imm := Z.shiftl (fld instr 6 0x1F) 2 in
  let! base := rd src in
  let addr := add32 base imm in
  let! val := rd dest in
  store_word addr val addr).

Definition instr_STR2 : mcu_instr16 := Instr16 0xFE00 0x5000 (fun instr =>
  let dest := fld instr 0 0x7 in
  let src1 := fld instr 3 0x7 in
  let src2 := fld instr 6 0x7 in
  let! r1 := rd src1 in
  let! r2 := rd src2 in
  let addr := add32 r1 r2 in
  let! val := rd dest in
  store_word addr val val).

Definition instr_STR3 : mcu_instr16 := Instr16 0xF800 0x9000 (fun instr =>
  let dest := fld instr 8 0x7 in
  let imm := Z.shiftl (fld instr 0 0xFF) 2 in
  let! base := rd REG_SP in
  let addr := add32 base imm in
  let! val := rd dest in
  store_word addr val addr).

(** The common tail of STRB(1) and STRB(2); [val] is an [uint16_t]. *)
Definition store_byte (dest addr : Z) : M bool :=
  let! val := fetch16 (Z.land addr (not32 1)) in
  match val with
  | None => run! mcu_fetch_error (Z.land addr (not32 1)) in ret false
  | Some val =>
      let! r := rd dest in
      let val := if truth (Z.land addr 1)
                 then u16 (Z.lor (Z.land val 0x00FF) (shl32 r 8))
                 else u16 (Z.lor (Z.land val 0xFF00) (Z.land r 0xFF)) in
      store_word (Z.land addr (not32 1)) val val
  end.

Definition instr_STRB1 : mcu_instr16 := Instr16 0xF800 0x7000 (fun instr =>
  let dest := fld instr 0 0x7 in
  let src := fld instr 3 0x7 in
  let imm := fld instr 6 0x1F in
  let! base := rd src in
  let addr := add32 base imm in
  store_byte dest addr).

Definition instr_STRB2 : mcu_instr16 := Instr16 0xFE00 0x5400 (fun instr =>
  let dest := fld instr 0 0x7 in
  let src1 := fld instr 3 0x7 in
  let src2 := fld instr 6 0x7 in
  let! r1 := rd src1 in
  let! r2 := rd src2 in
  let addr := add32 r1 r2 in
  store_byte dest addr).

Definition instr_STRH1 : mcu_instr16 := Instr16 0xF800 0x8000 (fun instr =>
  let dest := fld instr 0 0x7 in
  let src := fld instr 3 0x7 in
  let imm := Z.shiftl (fld instr 6 0x1F) 1 in
  let! base := rd src in
  let addr := add32 base imm in
  let! val := rd dest in
  store_half addr val val).

Definition instr_STRH2 : mcu_instr16 := Instr16 0xFE00 0x5200 (fun instr =>
  let dest := fld instr 0 0x7 in
  let src1 := fld instr 3 0x7 in
  let src2 := fld instr 6 0x7 in
  let! r1 := rd src1 in
  let! r2 := rd src2 in
  let addr := add32 r1 r2 in
  let! val := rd dest in
  store_half addr val val).

Definition instr_SUB1 : mcu_instr16 := Instr16 0xFE00 0x1E00 (fun instr =>
  let dest := fld instr 0 0x7 in
  let src := fld instr 3 0x7 in
  let imm := fld instr 6 0x7 in
  let! a := rd src in
  let c := sub32 a imm in
  run! wr dest c in
  run! mcu_update_nflag c in
  run! mcu_update_zflag c in
  run! mcu_update_vflag a (not32 imm) 1 in
  run! mcu_update_cflag a (not32 imm) 1 in
  ret true).

Definition instr_SUB2 : mcu_instr16 := Instr16 0xF800 0x3800 (fun instr =>
  let reg := fld instr 8 0x7 in
  let imm := fld instr 0 0xFF in
  let! a := rd reg in
  let c := sub32 a imm in
  run! wr reg c in
  run! mcu_update_nflag c in
  run! mcu_update_zflag c in
  run! mcu_update_vflag a (not32 imm) 1 in
  run! mcu_update_cflag a (not32 imm) 1 in
  ret true).

Definition instr_SUB3 : mcu_instr16 := Instr16 0xFE00 0x1A00 (fun instr =>
  let dest := fld instr 0 0x7 in
  let src1 := fld instr 3 0x7 in
  let src2 := fld instr 6 0x7 in
  let! a := rd src1 in
  let! b := rd src2 in
  let c := sub32 a b in
  run! wr dest c in
  run! mcu_update_nflag c in
  run! mcu_update_zflag c in
  run! mcu_update_vflag a (not32 b) 1 in
  run! mcu_update_cflag a (not32 b) 1 in
  ret true).

Definition instr_SUB4 : mcu_instr16 := Instr16 0xFF80 0xB080 (fun instr =>
  let imm := Z.shiftl (fld instr 0 0x7F) 2 in
  let! sp := rd REG_SP in
  run! wr REG_SP (sub32 sp imm) in
  ret true).

Definition instr_SWI : mcu_instr16 := Instr16 0xFF00 0xDF00 (fun instr => ret false).

(** [instr > 3], a comparison, selects the source of the five that follow. *)
Definition gt3 (instr : Z) : Z := if instr >? 3 then 1 else 0.

Definition instr_SXTB : mcu_instr16 := Instr16 0xFFC0 0xB240 (fun instr =>
  let dest := fld instr 0 0x7 in
  let src := Z.land (gt3 instr) 0x7 in
  let! a := rd src in
  let a := Z.land a 0xFF in
  let a := if truth (Z.land a 0x80) then Z.lor a (ones_shl 8) else a in
  run! wr dest a in
  ret true).

Definition instr_SXTH : mcu_instr16 := Instr16 0xFFC0 0xB200 (fun instr =>
  let dest := fld instr 0 0x7 in
  let src := Z.land (gt3 instr) 0x7 in
  let! a := rd src in
  let a := Z.land a 0xFFFF in
  let a := if truth (Z.land a 0x8000) then Z.lor a (ones_shl 16) else a in
  run! wr dest a in
  ret true).

Definition instr_TST : mcu_instr16 := Instr16 0xFFC0 0x4200 (fun instr =>
  let src1 := fld instr 0 0x7 in
  let src2 := Z.land (gt3 instr) 0x7 in
  let! a := rd src1 in
  let! b := rd src2 in
  let c := Z.land a b in
  run! mcu_update_zflag c in
  run! mcu_update_nflag c in
  ret true).

Definition instr_UXTB : mcu_instr16 := Instr16 0xFFC0 0xB2C0 (fun instr =>
  let dest := fld instr 0 0x7 in
  let src := Z.land (gt3 instr) 0x7 in
  let! a := rd src in
  run! wr dest (Z.land a 0xFF) in
  ret true).

Definition instr_UXTH : mcu_instr16 := Instr16 0xFFC0 0xB280 (fun instr =>
  let dest := fld instr 0 0x7 in
  let src := Z.land (gt3 instr) 0x7 in
  let! a := rd src in
  run! wr dest (Z.land a 0xFFFF) in
  ret true).

Definition instr_WFE : mcu_instr16 := Instr16 0xFFFF 0xBF20 (fun instr => ret true).

Definition instr_WFI : mcu_instr16 := Instr16 0xFFFF 0xBF30 (fun instr =>
  run! halt HALT_SLEEP in
  ret true).

(** The table; the search stops at the entry without an implementation, which is
    the end of this list. *)
Definition mcu_instr16_cortex_m0p : list mcu_instr16 :=
  [ instr_ADD1; instr_ADD2; instr_ADD3; instr_ADD4; instr_ADD5; instr_ADD6; instr_ADD7;
    instr_AND; instr_ASR1; instr_ASR2; instr_B1; instr_B2; instr_BIC; instr_BKPT;
    instr_BL_H10; instr_BL_H11; instr_BL_H01; instr_BLX2; instr_BX; instr_CMN;
    instr_CMP1; instr_CMP2; instr_CMP3; instr_CPY; instr_EOR; instr_LDMIA;
    instr_LDR1; instr_LDR2; instr_LDR3; instr_LDR4; instr_LDRB1; instr_LDRB2;
    instr_LDRH1; instr_LDRH2; instr_LDRSB; instr_LDRSH; instr_LSL1; instr_LSL2;
    instr_LSR1; instr_LSR2; instr_MOV1; instr_MOV2; instr_MOV3; instr_MUL; instr_MVN;
    instr_NEG; instr_ORR; instr_POP; instr_PUSH; instr_REV; instr_REV16; instr_REVSH;
    instr_ROR; instr_SBC; instr_STMIA; instr_STR1; instr_STR2; instr_STR3; instr_STRB1;
    instr_STRB2; instr_STRH1; instr_STRH2; instr_SUB1; instr_SUB2; instr_SUB3;
    instr_SUB4; instr_SWI; instr_SXTB; instr_SXTH; instr_TST; instr_UXTB; instr_UXTH;
    instr_WFE; instr_WFI ].

(** ** The 32-bit table *)

Record mcu_instr32 := Instr32 { mask32 : Z; instr32 : Z; impl32 : Z -> M bool }.

(** Case 0x0 has no [break] and goes on with case 0x8. *)
Definition instr_MSR : mcu_instr32 := Instr32 0xFFE00000 0xF3800000 (fun instr =>
  let src := fld instr 16 0x7 in
  let sysm := fld instr 0 0x7F in
  let! val := rd src in
  match sysm with
  | 0x0 =>
      run! wr REG_APSR val in
      let! val := rd src in
      run! wr REG_MSP val in ret true
  | 0x8 => run! wr REG_MSP val in ret true
  | 0x9 => run! wr REG_PSP val in ret true
  | 0x14 => run! wr REG_CONTROL val in ret true
  | _ => run! halt HALT_UNKOWN_INSTRUCTION in ret false
  end).

(** Cases 0x0 to 0x7 have no [break] and go on with case 0x8. *)
Definition instr_MRS : mcu_instr32 := Instr32 0xFFE00000 0xF3E00000 (fun instr =>
  let dest := fld instr 8 0xF in
  let sysm := fld instr 0 0x7F in
  let read_msp := let! v := rd REG_MSP in run! wr dest v in ret true in
  if sysm <=? 0x7 then
    let! ipsr := rd REG_IPSR in
    let val := if truth (Z.land sysm 1) then Z.lor 0 ipsr else 0 in
    let! apsr := rd REG_APSR in
    let val := if truth (Z.land sysm 4) then Z.lor val apsr else val in
    run! mcu_write32 dest val in
    read_msp
  else match sysm with
  | 0x8 => read_msp
  | 0x9 => let! v := rd REG_PSP in run! wr dest v in ret true
  | 0x14 => let! v := rd REG_CONTROL in run! wr dest v in ret true
  | _ => run! halt HALT_UNKOWN_INSTRUCTION in ret false
  end).

Definition instr_BL : mcu_instr32 := Instr32 0xF8000000 0xF0000000 (fun instr =>
  let sign := fld instr 26 0x1 in
  let j1 := fld instr 13 0x1 in
  let j2 := fld instr 11 0x1 in
  let i1 := if Z.lxor j1 sign =? 0 then 1 else 0 in
  let i2 := if Z.lxor j2 sign =? 0 then 1 else 0 in
  let imm := Z.lor (Z.lor (Z.lor (Z.shiftl i1 23) (Z.shiftl i2 22))
                          (Z.shiftl (fld instr 16 0x3FF) 12))
                   (Z.shiftl (Z.land instr 0x7FF) 1) in
  let imm := if truth sign then Z.lor imm 0xFF000000 else imm in
  let! pc := rd REG_PC in
  let addr := add32 imm pc in
  run! wr REG_LR (Z.lor (sub32 pc 2) 1) in
  run! wr REG_PC addr in
  ret true).

(** Unlike the 16-bit table, this one has no entry that ends the search. *)
Definition mcu_instr32_cortex_m0p : list mcu_instr32 := [ instr_MSR; instr_MRS; instr_BL ].

(** ** Execution *)

Fixpoint find_instr16 (t : list mcu_instr16) (instr : Z) : option mcu_instr16 :=
  match t with
  | [] => None
  | def :: t' => if Z.land instr (mask16 def) =? instr16 def then Some def else find_instr16 t' instr
  end.

Fixpoint find_instr32 (t : list mcu_instr32) (instr : Z) : option mcu_instr32 :=
  match t with
  | [] => None
  | def :: t' => if Z.land instr (mask32 def) =? instr32 def then Some def else find_instr32 t' instr
  end.

(** The first half is that of a 32-bit instruction. *)
Definition is_thirtytwo (instr : Z) : bool :=
  (Z.land instr 0xF800 =? 0xF800) || (Z.land instr 0xF800 =? 0xE800)
  || (Z.land instr 0xF800 =? 0xF000).

(** Run an implementation; when it reports a failure the program counter is put
    back. *)
Definition run_impl (impl : M bool) (old_pc : Z) : M bool :=
  let! ok := impl in
  if negb ok then run! wr REG_PC old_pc in ret false else ret true.

Definition mcu_instr_step : M bool :=
  let! pc := rd REG_PC in
  let old_pc := pc in
  let! lo := fetch16 (sub32 pc 2) in
  match lo with
  | None => run! halt HALT_HARD_FAULT in ret false
  | Some instr =>
      if is_thirtytwo instr then
        let pc := add32 pc 2 in
        let! hi := fetch16 (sub32 pc 2) in
        match hi with
        | None => run! halt HALT_HARD_FAULT in ret false
        | Some second =>
            let instr := Z.lor (Z.shiftl instr 16) second in
            run! wr REG_PC (add32 pc 2) in
            match find_instr32 mcu_instr32_cortex_m0p instr with
            | Some def => run_impl (impl32 def instr) old_pc
            | None => fun _ => Undef
            end
        end
      else
        run! wr REG_PC (add32 pc 2) in
        match find_instr16 mcu_instr16_cortex_m0p instr with
        | Some def => run_impl (impl16 def instr) old_pc
        | None =>
            run! wr REG_PC old_pc in
            run! halt HALT_UNKOWN_INSTRUCTION in
            ret false
        end
  end.

(** [mcu_step] and [mcu_runloop] of [core/mcu.c]. *)
Definition mcu_step : M bool := mcu_instr_step.

Definition mcu_runloop : M bool :=
  let! h := gets mcu_is_halted in
  if negb h then mcu_instr_step else ret true.
