(* ===== verification/MachineFacts.v ===== *)
(** * MachineFacts: well-formed machines and how the operations keep them *)
From S2P Require Import Prelude Machine.

(** ** Ranges *)

Create HintDb inu.

Lemma in_u_mono w w' x : 0 <= w <= w' -> in_u w x -> in_u w' x.
Proof.
  intros Hw [H0 H1]. split; [done|]. eapply Z.lt_le_trans; [exact H1|].
  apply Z.pow_le_mono_r; lia.
Qed.

Lemma in_u_land_l w a b : 0 <= w -> in_u w a -> in_u w (Z.land a b).
Proof.
  intros Hw Ha. apply in_u_of_testbit; [done| |].
  - apply Z.land_nonneg. left. apply Ha.
  - intros i Hi. rewrite Z.land_spec, (in_u_testbit_high w a) by (done || lia). done.
Qed.

Lemma in_u_land_r w a b : 0 <= w -> in_u w b -> in_u w (Z.land a b).
Proof. intros. rewrite Z.land_comm. by apply in_u_land_l. Qed.

Lemma in_u_lor w a b : 0 <= w -> in_u w a -> in_u w b -> in_u w (Z.lor a b).
Proof.
  intros Hw Ha Hb. apply in_u_of_testbit; [done| |].
  - apply Z.lor_nonneg. split; [apply Ha|apply Hb].
  - intros i Hi. by rewrite Z.lor_spec, (in_u_testbit_high w a), (in_u_testbit_high w b) by (done || lia).
Qed.

Lemma in_u_lxor w a b : 0 <= w -> in_u w a -> in_u w b -> in_u w (Z.lxor a b).
Proof.
  intros Hw Ha Hb. apply in_u_of_testbit; [done| |].
  - apply Z.lxor_nonneg. split; intros; [apply Hb|apply Ha].
  - intros i Hi. by rewrite Z.lxor_spec, (in_u_testbit_high w a), (in_u_testbit_high w b) by (done || lia).
Qed.

Lemma in_u_shiftr w a n : 0 <= w -> 0 <= n -> in_u w a -> in_u w (Z.shiftr a n).
Proof.
  intros Hw Hn Ha. apply in_u_of_testbit; [done| |].
  - apply Z.shiftr_nonneg. apply Ha.
  - intros i Hi. rewrite Z.shiftr_spec, (in_u_testbit_high w a) by (done || lia). done.
Qed.

Lemma in_u_shiftl w w' a n : 0 <= n -> 0 <= w -> w + n <= w' -> in_u w a -> in_u w' (Z.shiftl a n).
Proof.
  intros Hn Hw Hw' Ha. apply (in_u_mono (w + n)); [lia|].
  apply in_u_of_testbit; [lia| |].
  - apply Z.shiftl_nonneg. apply Ha.
  - intros i Hi. rewrite Z.shiftl_spec, (in_u_testbit_high w a) by (done || lia). done.
Qed.

Lemma in_u_wrap w x : 0 <= w -> in_u w (wrap w x).
Proof. apply wrap_range. Qed.

Lemma in_u_0 w : 0 <= w -> in_u w 0.
Proof. intros. split; [lia|by apply pow2_pos]. Qed.

Lemma in_u_const w x : (0 <=? x) && (x <? 2 ^ w) = true -> in_u w x.
Proof. intros [?%Z.leb_le ?%Z.ltb_lt]%andb_true_iff. done. Qed.

(** Close [in_u] goals on closed widths by the shape of the term. *)
Ltac inu :=
  repeat match goal with
  | H : in_u ?w ?x |- in_u ?w ?x => exact H
  | |- in_u _ (if ?b then _ else _) => destruct b
  | |- in_u _ (wrap _ _) => first [apply in_u_wrap; lia | eapply (in_u_mono _ _); [|apply in_u_wrap]; lia]
  | |- in_u _ (Z.lor _ _) => apply in_u_lor; [lia| |]
  | |- in_u _ (Z.lxor _ _) => apply in_u_lxor; [lia| |]
  | |- in_u _ (Z.land _ _) =>
      first [ apply in_u_land_l; [lia|solve [inu]] | apply in_u_land_r; [lia|solve [inu]] ]
  | |- in_u _ (Z.shiftr _ _) => apply in_u_shiftr; [lia|lia|]
  | H : in_u ?w ?x |- in_u ?w' ?x => apply (in_u_mono w w'); [lia|exact H]
  | |- in_u _ _ => apply in_u_const; reflexivity
  end.

(** ** Register slots *)

Lemma reg_slot_set_eq m r v :
  0 <= r < Z.of_nat (length (regs m)) -> reg_slot (set_reg_slot m r v) r = v.
Proof. intros H. unfold reg_slot, set_reg_slot. simpl. rewrite list_lookup_insert_eq by lia. done. Qed.

Lemma reg_slot_set_ne m r r' v :
  0 <= r -> 0 <= r' -> r <> r' -> reg_slot (set_reg_slot m r v) r' = reg_slot m r'.
Proof. intros. unfold reg_slot, set_reg_slot. simpl. rewrite list_lookup_insert_ne by lia. done. Qed.

Lemma set_reg_slot_twice m r v v' :
  set_reg_slot (set_reg_slot m r v) r v' = set_reg_slot m r v'.
Proof. unfold set_reg_slot. simpl. by rewrite list_insert_insert_eq. Qed.

Lemma set_reg_slot_comm m r r' v v' :
  0 <= r -> 0 <= r' -> r <> r' ->
  set_reg_slot (set_reg_slot m r v) r' v' = set_reg_slot (set_reg_slot m r' v') r v.
Proof. intros. unfold set_reg_slot. simpl. rewrite list_insert_insert_ne by lia. done. Qed.

(** ** Well-formed machines *)

Definition wf_body (b : dev_body) : Prop :=
  match b with
  | Ram h | Flash h => forall i, in_u 16 (h i)
  | _ => True
  end.

Definition wf_dev (d : mem_dev) : Prop :=
  in_u 32 (offset d) /\ 0 <= dev_length d /\ wf_body (body d).

(** Twenty registers of 32 bits; the slot of SP itself is never written; the
    halves of the memories are 16 bits wide. *)
Definition wf_mcu (m : mcu) : Prop :=
  length (regs m) = 20%nat /\ Forall (in_u 32) (regs m) /\ reg_slot m REG_SP = 0 /\
  Forall wf_dev (mem_devs m).

Lemma wf_slot m r : wf_mcu m -> in_u 32 (reg_slot m r).
Proof.
  intros (_&Hr&_). unfold reg_slot. destruct (regs m !! Z.to_nat r) as [v|] eqn:E; simpl.
  - eapply Forall_lookup_1; eauto.
  - by apply in_u_0.
Qed.

Lemma wf_set_slot m r v :
  wf_mcu m -> in_u 32 v -> 0 <= r -> r <> REG_SP -> wf_mcu (set_reg_slot m r v).
Proof.
  intros (Hl&Hr&Hsp&Hd) Hv H0 Hne. repeat split; simpl; [by rewrite length_insert| | |done].
  - by apply Forall_insert.
  - rewrite reg_slot_set_ne; done.
Qed.

Lemma wf_devs m m' : wf_mcu m -> regs m' = regs m -> Forall wf_dev (mem_devs m') -> wf_mcu m'.
Proof. intros (Hl&Hr&Hsp&Hd) E Hd'. unfold wf_mcu, reg_slot in *. rewrite E. done. Qed.

(** Reading a register, with the bank of SP resolved. *)
Lemma read_sp m : wf_mcu m -> mcu_read_reg m REG_SP = reg_slot m REG_MSP.
Proof. intros (_&_&Hsp&_). unfold mcu_read_reg. simpl. by rewrite Hsp. Qed.

Lemma read_slot m r : 0 <= r < reg_count -> r <> REG_SP -> mcu_read_reg m r = reg_slot m r.
Proof.
  intros Hr Hne. unfold mcu_read_reg, REG_SP, REG_APSR, REG_IPSR, REG_EPSR, reg_count in *.
  repeat match goal with |- context [?a =? ?b] => destruct (Z.eqb_spec a b); [lia|] end. done.
Qed.

Lemma wf_read m r : wf_mcu m -> in_u 32 (mcu_read_reg m r).
Proof. intros Hwf. pose proof (fun r => wf_slot m r Hwf) as Hs. unfold mcu_read_reg. inu. all: apply Hs. Qed.

Lemma write_slot m r v :
  0 <= r < REG_SP \/ REG_LR = r \/ REG_PC < r < reg_count -> mcu_write_reg m r v = set_reg_slot m r v.
Proof.
  intros Hr. unfold mcu_write_reg, REG_SP, REG_LR, REG_PC, REG_APSR, REG_IPSR, REG_EPSR, reg_count in *.
  repeat match goal with |- context [r =? ?b] => destruct (Z.eqb_spec r b); [lia|] end. done.
Qed.

Lemma write_pc m v : mcu_write_reg m REG_PC v = set_reg_slot m REG_PC (Z.land v 0xFFFFFFFE).
Proof. done. Qed.

Lemma write_sp m v : wf_mcu m -> mcu_write_reg m REG_SP v = set_reg_slot m REG_MSP v.
Proof. intros (_&_&Hsp&_). unfold mcu_write_reg. simpl. by rewrite Hsp. Qed.

Lemma wf_write m r v : wf_mcu m -> 0 <= r -> in_u 32 v -> wf_mcu (mcu_write_reg m r v).
Proof.
  intros Hwf Hr Hv. pose proof Hwf as (_&_&Hsp&_). pose proof (wf_slot m REG_XPSR Hwf) as Hx.
  destruct (Z.eq_dec r REG_SP) as [->|Hne]; [rewrite write_sp by done; by apply wf_set_slot|].
  unfold mcu_write_reg. rewrite (proj2 (Z.eqb_neq r REG_SP) Hne).
  repeat case_match; simpl; (apply wf_set_slot; [done|inu|done|done]).
Qed.

(** ** Results of the monad *)

(** [c] never runs into undefined behaviour from a well-formed machine, keeps it
    well-formed, and returns a value with [Q]. *)
Definition safe {A} (c : M A) (Q : A -> Prop) : Prop :=
  forall m, wf_mcu m ->
  match c m with Ret a m' => wf_mcu m' /\ Q a | Exited _ m' => wf_mcu m' | Undef => False end.

Definition any {A} (a : A) : Prop := True.

Lemma safe_ret {A} (a : A) (Q : A -> Prop) : Q a -> safe (ret a) Q.
Proof. by intros H m Hm. Qed.

Lemma safe_bind {A B} (c : M A) (k : A -> M B) Q R :
  safe c Q -> (forall a, Q a -> safe (k a) R) -> safe (bind c k) R.
Proof.
  intros Hc Hk m Hm. unfold bind. specialize (Hc m Hm).
  destruct (c m) as [a m'|n m'|]; [|done|done]. destruct Hc as [Hm' Ha]. by apply Hk.
Qed.

Lemma safe_weaken {A} (c : M A) (Q R : A -> Prop) :
  (forall a, Q a -> R a) -> safe c Q -> safe c R.
Proof. intros HQ Hc m Hm. specialize (Hc m Hm). destruct (c m); naive_solver. Qed.

Lemma safe_gets {A} (f : mcu -> A) (Q : A -> Prop) :
  (forall m, wf_mcu m -> Q (f m)) -> safe (gets f) Q.
Proof. intros Hf m Hm. split; [done|by apply Hf]. Qed.

Lemma safe_modify (f : mcu -> mcu) :
  (forall m, wf_mcu m -> wf_mcu (f m)) -> safe (modify f) any.
Proof. intros Hf m Hm. split; [by apply Hf|done]. Qed.

Lemma safe_if {A} (b : bool) (c1 c2 : M A) Q : safe c1 Q -> safe c2 Q -> safe (if b then c1 else c2) Q.
Proof. by destruct b. Qed.

(** ** The bus *)

Lemma find_dev_lookup ds addr i d :
  find_dev ds addr = Some (i, d) -> ds !! i = Some d /\ dev_hit d addr = true.
Proof.
  revert i. induction ds as [|d' ds IH]; intros i; simpl; [done|].
  destruct (dev_hit d' addr) eqn:E; [by intros [= <- <-]|].
  destruct (find_dev ds addr) as [[j d2]|]; [|done]. intros [= <- <-]. by apply IH.
Qed.

Lemma find_dev_wf ds addr i d :
  Forall wf_dev ds -> find_dev ds addr = Some (i, d) -> wf_dev d /\ ds !! i = Some d.
Proof. intros H [Hl _]%find_dev_lookup. split; [by eapply Forall_lookup_1|done]. Qed.

Lemma word_at_range h i : (forall j, in_u 16 (h j)) -> in_u 32 (word_at h i).
Proof.
  intros Hh. unfold word_at. apply in_u_lor; [lia| |].
  - apply (in_u_mono 16); [lia|apply Hh].
  - apply (in_u_shiftl 16); [lia..|apply Hh].
Qed.

Lemma dev_fetch32_range d addr v : wf_dev d -> dev_fetch32 d addr = Some v -> in_u 32 v.
Proof.
  intros (_&_&Hb) E. unfold dev_fetch32, ram_dev_read32, flash_dev_read32, uart_dev_read32 in E. destruct (body d); simpl in *; simplify_eq.
  - by apply word_at_range.
  - by apply word_at_range.
  - unfold unittest_dev_read32 in E. repeat case_match; simplify_eq; apply in_u_wrap; lia.
Qed.

Lemma dev_fetch16_range d addr v : wf_dev d -> dev_fetch16 d addr = Some v -> in_u 16 v.
Proof.
  intros Hd E. pose proof Hd as (_&_&Hb). unfold dev_fetch16, ram_dev_read16, flash_dev_read16, uart_dev_read16 in E.
  destruct (body d); simpl in *; simplify_eq; try apply Hb.
  unfold mcu_emu_fetch16 in E. repeat case_match; simplify_eq; inu.
Qed.

Lemma fetch32_range m addr v : wf_mcu m -> mcu_fetch32 m addr = Some v -> in_u 32 v.
Proof.
  intros (_&_&_&Hd) E. unfold mcu_fetch32 in E. case_match; [|done]. destruct p as [i d].
  eapply dev_fetch32_range; [|done]. by eapply find_dev_wf.
Qed.

Lemma fetch16_range m addr v : wf_mcu m -> mcu_fetch16 m addr = Some v -> in_u 16 v.
Proof.
  intros (_&_&_&Hd) E. unfold mcu_fetch16 in E. case_match; [|done]. destruct p as [i d].
  eapply dev_fetch16_range; [|done]. by eapply find_dev_wf.
Qed.

Lemma wf_set_body m i b : wf_mcu m -> wf_body b -> wf_mcu (set_body m i b).
Proof.
  intros Hm Hb. eapply wf_devs; [done|done|]. destruct Hm as (_&_&_&Hd). simpl.
  apply Forall_alter; [done|]. intros d _ (?&?&_). done.
Qed.

Lemma wf_reset m : wf_mcu m -> wf_mcu (snd (mcu_reset m)).
Proof.
  intros Hm. unfold mcu_reset. destruct (mcu_fetch32 m 0) as [v|] eqn:E1; [|done].
  assert (wf_mcu (mcu_write_reg m REG_SP v)) as Hm1.
  { apply wf_write; [done|done|]. by eapply fetch32_range. }
  destruct (mcu_fetch32 (mcu_write_reg m REG_SP v) 4) as [w|] eqn:E2; [|done].
  case_match; [done|]. simpl. apply wf_write; [|done|by apply in_u_const].
  eapply wf_devs; [|done|]; [|apply Hm1]. apply wf_write; [done|done|apply in_u_wrap; lia].
Qed.

Lemma wf_emit m e : wf_mcu m -> wf_mcu (emit m e).
Proof. intros Hm. eapply wf_devs; [done|done|apply Hm]. Qed.

Lemma wf_did_halt cbs reason m :
  wf_mcu m ->
  wf_mcu (foldl (fun m cb => if has_did_halt cb then emit m (EvDidHalt (context cb) reason) else m) m cbs).
Proof.
  revert m. induction cbs as [|cb cbs IH]; intros m Hm; simpl; [done|].
  apply IH. destruct (has_did_halt cb); [by apply wf_emit|done].
Qed.

Lemma wf_halt m reason : wf_mcu m -> wf_mcu (mcu_halt m reason).
Proof.
  intros Hm. unfold mcu_halt. destruct (mcu_is_halted m); [done|].
  apply wf_did_halt, wf_emit. apply (wf_devs m); [done|done|apply Hm].
Qed.

Lemma upd_range (h : Z -> Z) w k v :
  (forall i, in_u w (h i)) -> in_u w v -> forall i, in_u w (upd h k v i).
Proof. intros Hh Hv i. unfold upd. by case_match. Qed.

Lemma set_word_range h i v : (forall j, in_u 16 (h j)) -> forall j, in_u 16 (set_word h i v j).
Proof. intros Hh. unfold set_word. apply upd_range; [apply upd_range; [done|]|]; apply in_u_wrap; lia. Qed.

Create HintDb safe.
#[export] Hint Resolve safe_ret safe_if wf_set_body wf_emit wf_halt wf_reset : safe.

Lemma safe_set_body i b : wf_body b -> safe (modify (fun m => set_body m i b)) any.
Proof. intros Hb. apply safe_modify. auto with safe. Qed.

Ltac safe_step :=
  first
    [ apply safe_if | apply safe_ret; exact I
    | eapply safe_bind; [solve [apply safe_gets with (Q := any); done]|intros ? _]
    | eapply safe_bind; [solve [apply safe_set_body; exact I]|intros ? _]
    | eapply safe_bind; [solve [apply safe_modify; auto with safe]|intros ? _] ].

Lemma safe_unittest_status i u temp : safe (unittest_write_status i u temp) any.
Proof.
  unfold unittest_write_status, set_unittest, unittest_update_progress, reset_ignored.
  repeat safe_step. by intros m Hm.
Qed.

Lemma safe_unittest i u addr temp : safe (unittest_dev_write32 i u addr temp) any.
Proof.
  unfold unittest_dev_write32. repeat first [apply safe_unittest_status | apply safe_if];
    unfold set_unittest, unittest_update_progress, reset_ignored; repeat safe_step.
Qed.

Lemma safe_dev_write32 i d addr v : wf_dev d -> safe (dev_write32 i d addr v) any.
Proof.
  intros (_&_&Hb). unfold dev_write32. destruct (body d); simpl in *; [| | |apply safe_unittest].
  - eapply safe_bind; [apply safe_set_body; intros j; by apply set_word_range|]. intros; by apply safe_ret.
  - eapply safe_bind; [by apply safe_gets with (Q := any)|]. intros u _. apply safe_if; [by apply safe_ret|].
    eapply safe_bind; [apply safe_set_body; intros j; by apply set_word_range|]. intros; by apply safe_ret.
  - eapply safe_bind with (Q := any); [|intros; by apply safe_ret].
    apply safe_if; [apply safe_modify; auto with safe|by apply safe_ret].
Qed.

Lemma safe_dev_write16 i d addr v : wf_dev d -> in_u 16 v -> safe (dev_write16 i d addr v) any.
Proof.
  intros Hd Hv. pose proof Hd as (_&_&Hb). unfold dev_write16.
  destruct (body d) eqn:E; simpl in *.
  - eapply safe_bind; [apply safe_set_body; intros j; by apply upd_range|]. intros; by apply safe_ret.
  - eapply safe_bind; [by apply safe_gets with (Q := any)|]. intros u _. apply safe_if; [by apply safe_ret|].
    eapply safe_bind; [apply safe_set_body; intros j; by apply upd_range|]. intros; by apply safe_ret.
  - by apply safe_ret.
  - unfold mcu_emu_write16. case_match; [|by apply safe_ret]. by apply safe_dev_write32.
Qed.

Lemma safe_mcu_write32 addr v : safe (mcu_write32 addr v) any.
Proof.
  unfold mcu_write32. eapply safe_bind with (Q := Forall wf_dev).
  - apply safe_gets. by intros m (_&_&_&?).
  - intros ds Hds. case_match; [|by apply safe_ret]. destruct p as [i d].
    apply safe_dev_write32. by eapply find_dev_wf.
Qed.

Lemma safe_mcu_write16 addr v : in_u 16 v -> safe (mcu_write16 addr v) any.
Proof.
  intros Hv. unfold mcu_write16. eapply safe_bind with (Q := Forall wf_dev).
  - apply safe_gets. by intros m (_&_&_&?).
  - intros ds Hds. case_match; [|by apply safe_ret]. destruct p as [i d].
    apply safe_dev_write16; [|done]. by eapply find_dev_wf.
Qed.
