(* ===== verification/ThumbSafe.v ===== *)
(** * ThumbSafe: no instruction leaves the simulator's arrays

    Every implementation of the 16-bit and the 32-bit table keeps a machine
    well-formed and never indexes the register file out of bounds, so that the
    only undefined behaviour a step can run into is the search of the 32-bit
    table past its last entry, and the shift by a register whose amount is 0. *)
From S2P Require Import Prelude Machine MachineFacts Thumb.

(** ** Register numbers and ranges *)

Lemma reg_ok_range r : 0 <= r < reg_count -> reg_ok r = true.
Proof.
  intros [??]. unfold reg_ok. by rewrite (proj2 (Z.leb_le 0 r)), (proj2 (Z.ltb_lt r reg_count)) by lia.
Qed.

Lemma reg_ok_nonneg r : reg_ok r = true -> 0 <= r.
Proof.
  unfold reg_ok, REG_APSR. intros [[H _]%andb_true_iff|[H _]%andb_true_iff]%orb_true_iff.
  - by apply Z.leb_le.
  - apply Z.leb_le in H. lia.
Qed.

Lemma reg_ok_in_u r : in_u 4 r -> reg_ok r = true.
Proof. intros H. apply reg_ok_range. unfold in_u, reg_count in *. lia. Qed.

Lemma in_u_fld w i k mask : 0 <= w -> in_u w mask -> in_u w (fld i k mask).
Proof. intros. unfold fld. by apply in_u_land_r. Qed.

Lemma in_u_shl32 a n : in_u 32 (shl32 a n).
Proof. by apply in_u_wrap. Qed.

Lemma in_u_add32 a b : in_u 32 (add32 a b).
Proof. by apply in_u_wrap. Qed.

Lemma in_u_sub32 a b : in_u 32 (sub32 a b).
Proof. by apply in_u_wrap. Qed.

Lemma in_u_not32 a : in_u 32 (not32 a).
Proof. by apply in_u_wrap. Qed.

Lemma in_u_ones_shl n : in_u 32 (ones_shl n).
Proof. by apply in_u_wrap. Qed.

Lemma in_u_gt3 i : in_u 4 (gt3 i).
Proof. unfold gt3. case_match; by apply in_u_const. Qed.

Lemma rev_bytes_range a : in_u 32 (rev_bytes a).
Proof.
  unfold rev_bytes. repeat apply in_u_lor; try lia; [apply in_u_shl32|..].
  all: apply (in_u_shiftl 8); [lia..|]; apply in_u_land_r; [lia|by apply in_u_const].
Qed.

(** Close [in_u] goals of instruction bodies. *)
Ltac instr_inu :=
  repeat first
    [ assumption
    | match goal with
      | |- in_u _ (if ?b then _ else _) => destruct b
      | |- in_u 32 (add32 _ _) => apply in_u_add32
      | |- in_u 32 (sub32 _ _) => apply in_u_sub32
      | |- in_u 32 (not32 _) => apply in_u_not32
      | |- in_u 32 (shl32 _ _) => apply in_u_shl32
      | |- in_u 32 (ones_shl _) => apply in_u_ones_shl
      | |- in_u 32 (rev_bytes _) => apply rev_bytes_range
      | |- in_u _ (gt3 _) => apply in_u_gt3
      | |- in_u ?w (wrap ?w _) => apply in_u_wrap; lia
      | |- in_u 32 (wrap 16 _) => apply (in_u_mono 16); [lia|apply in_u_wrap; lia]
      | |- in_u _ (fld _ _ _) => apply in_u_fld; [lia|by apply in_u_const]
      | |- in_u _ (Z.lor _ _) => apply in_u_lor; [lia| |]
      | |- in_u _ (Z.lxor _ _) => apply in_u_lxor; [lia| |]
      | |- in_u _ (Z.land _ ?k) => apply in_u_land_r; [lia|by apply in_u_const]
      | |- in_u _ (Z.land _ _) => apply in_u_land_l; [lia|]
      | |- in_u 32 (Z.shiftl (fld _ _ ?k) _) =>
          apply (in_u_shiftl 8); [lia..|apply in_u_fld; [lia|by apply in_u_const]]
      | |- in_u 32 (Z.shiftl (Z.land _ ?k) _) =>
          apply (in_u_shiftl 8); [lia..|apply in_u_land_r; [lia|by apply in_u_const]]
      | |- in_u _ (Z.shiftr _ (fld _ _ _)) =>
          apply in_u_shiftr; [lia|apply (in_u_fld 8); [lia|by apply in_u_const]|]
      | |- in_u _ (Z.shiftr _ (Z.land _ ?k)) =>
          apply in_u_shiftr; [lia|apply (in_u_land_r 8); [lia|by apply in_u_const]|]
      | |- in_u _ (Z.shiftr _ _) => apply in_u_shiftr; [lia|lia|]
      | H : in_u 16 ?x |- in_u 32 ?x => apply (in_u_mono 16); [lia|exact H]
      | |- in_u _ _ => apply in_u_const; reflexivity
      end ].

Ltac reg_side := first [reflexivity | apply reg_ok_in_u; solve [instr_inu]].

(** ** Running the monad *)

(** Unfold the guarded register access of the monad. *)
Lemma bind_rd {A} r (k : Z -> M A) m : reg_ok r = true -> bind (rd r) k m = k (mcu_read_reg m r) m.
Proof. intros Hr. unfold bind, rd. by rewrite Hr. Qed.

Lemma bind_wr {A} r v (k : unit -> M A) m :
  reg_ok r = true -> bind (wr r v) k m = k tt (mcu_write_reg m r v).
Proof. intros Hr. unfold bind, wr. by rewrite Hr. Qed.

Lemma bind_ret {A B} (a : A) (k : A -> M B) m : bind (ret a) k m = k a m.
Proof. done. Qed.

Lemma bind_bind {A B C} (c : M A) (k : A -> M B) (l : B -> M C) m :
  bind (bind c k) l m = bind c (fun a => bind (k a) l) m.
Proof. unfold bind. by destruct (c m). Qed.

Lemma bind_run {A B} (c : M A) (k : A -> M B) m a m' : c m = Ret a m' -> bind c k m = k a m'.
Proof. unfold bind. by intros ->. Qed.

(** ** The primitives *)

Lemma safe_rd r : reg_ok r = true -> safe (rd r) (in_u 32).
Proof. intros Hr m Hm. unfold rd. rewrite Hr. split; [done|by apply wf_read]. Qed.

Lemma safe_wr r v : reg_ok r = true -> in_u 32 v -> safe (wr r v) any.
Proof.
  intros Hr Hv m Hm. unfold wr. rewrite Hr. split; [|done].
  apply wf_write; [done|by apply reg_ok_nonneg|done].
Qed.

Lemma safe_halt reason : safe (halt reason) any.
Proof. apply safe_modify. auto with safe. Qed.

Lemma safe_fetch16 addr :
  safe (fetch16 addr) (fun o => match o with Some v => in_u 16 v | None => True end).
Proof. apply safe_gets. intros m Hm. destruct (mcu_fetch16 m addr) eqn:E; [|done]. by eapply fetch16_range. Qed.

Lemma safe_fetch32 addr :
  safe (fetch32 addr) (fun o => match o with Some v => in_u 32 v | None => True end).
Proof. apply safe_gets. intros m Hm. destruct (mcu_fetch32 m addr) eqn:E; [|done]. by eapply fetch32_range. Qed.

Lemma safe_flag (f : Z -> Z) :
  (forall x, in_u 32 x -> in_u 32 (f x)) ->
  safe (let! cpsr := rd REG_APSR in wr REG_APSR (f cpsr)) any.
Proof.
  intros Hf. eapply safe_bind; [by apply safe_rd|]. intros x Hx. apply safe_wr; [done|by apply Hf].
Qed.

Lemma safe_nflag c : safe (mcu_update_nflag c) any.
Proof. apply safe_flag. intros x Hx. instr_inu. Qed.
Lemma safe_zflag c : safe (mcu_update_zflag c) any.
Proof. apply safe_flag. intros x Hx. instr_inu. Qed.
Lemma safe_cflag_bit c : safe (mcu_update_cflag_bit c) any.
Proof. apply safe_flag. intros x Hx. instr_inu. Qed.
Lemma safe_vflag_bit c : safe (mcu_update_vflag_bit c) any.
Proof. apply safe_flag. intros x Hx. instr_inu. Qed.
Lemma safe_cflag a b c : safe (mcu_update_cflag a b c) any.
Proof. apply safe_cflag_bit. Qed.
Lemma safe_vflag a b c : safe (mcu_update_vflag a b c) any.
Proof. apply safe_vflag_bit. Qed.

Lemma safe_load_reg err reg sp :
  (forall a, safe (err a) any) -> reg_ok reg = true -> safe (load_reg err reg sp) any.
Proof.
  intros He Hr. eapply safe_bind; [apply safe_fetch32|]. intros [v|] Hv.
  - eapply safe_bind; [by apply safe_wr|]. intros; by apply safe_ret.
  - eapply safe_bind; [apply He|]. intros; by apply safe_ret.
Qed.

Lemma safe_store_reg err reg sp :
  (forall a, safe (err a) any) -> reg_ok reg = true -> safe (store_reg err reg sp) any.
Proof.
  intros He Hr. eapply safe_bind; [by apply safe_rd|]. intros v Hv.
  eapply safe_bind; [apply safe_mcu_write32|]. intros [] _; [by apply safe_ret|].
  eapply safe_bind; [apply He|]. intros; by apply safe_ret.
Qed.

Lemma safe_for_regs rs instr body sp :
  in_u 32 sp -> (forall reg a, reg ∈ rs -> safe (body reg a) any) ->
  safe (for_regs rs instr body sp) (fun o => match o with Some v => in_u 32 v | None => True end).
Proof.
  revert sp. induction rs as [|r rs IH]; intros sp Hsp Hb; simpl; [by apply safe_ret|].
  apply safe_if; [|apply IH; [done|set_solver]].
  eapply safe_bind; [apply Hb; set_solver|]. intros [] _; [|by apply safe_ret].
  apply IH; [apply in_u_add32|set_solver].
Qed.

Lemma low_regs_ok r : r ∈ low_regs -> reg_ok r = true.
Proof. intros H. apply reg_ok_in_u. unfold low_regs, in_u in *. set_unfold. lia. Qed.

Lemma safe_store_word addr v err : safe (store_word addr v err) any.
Proof.
  eapply safe_bind; [apply safe_mcu_write32|]. intros [] _; [by apply safe_ret|].
  eapply safe_bind; [apply safe_halt|]. intros; by apply safe_ret.
Qed.

Lemma safe_store_half addr v err : safe (store_half addr v err) any.
Proof.
  eapply safe_bind; [apply safe_mcu_write16, in_u_wrap; lia|]. intros [] _; [by apply safe_ret|].
  eapply safe_bind; [apply safe_halt|]. intros; by apply safe_ret.
Qed.

Lemma safe_load_byte dest addr : reg_ok dest = true -> safe (load_byte dest addr) any.
Proof.
  intros Hd. eapply safe_bind; [apply safe_fetch16|]. intros [v|] Hv.
  - eapply safe_bind; [apply safe_wr; [done|instr_inu]|]. intros; by apply safe_ret.
  - eapply safe_bind; [apply safe_halt|]. intros; by apply safe_ret.
Qed.

Lemma safe_load_half dest addr : reg_ok dest = true -> safe (load_half dest addr) any.
Proof.
  intros Hd. eapply safe_bind; [apply safe_fetch16|]. intros [v|] Hv.
  - eapply safe_bind; [apply safe_wr; [done|instr_inu]|]. intros; by apply safe_ret.
  - eapply safe_bind; [apply safe_halt|]. intros; by apply safe_ret.
Qed.

Lemma safe_store_byte dest addr : reg_ok dest = true -> safe (store_byte dest addr) any.
Proof.
  intros Hd. eapply safe_bind; [apply safe_fetch16|]. intros [v|] Hv.
  - eapply safe_bind; [by apply safe_rd|]. intros r Hr. apply safe_store_word.
  - eapply safe_bind; [apply safe_halt|]. intros; by apply safe_ret.
Qed.

(** ** The instructions *)

(** A shift whose count is in range. *)
Lemma safe_if_eq {A} (b : bool) (c d : M A) Q : (b = true -> safe c Q) -> (b = false -> safe d Q) -> safe (if b then c else d) Q.
Proof. destruct b; auto. Qed.

Lemma safe_one_shl n : 0 <= n < 32 -> safe (one_shl n) any.
Proof. intros Hn. unfold one_shl, shift_count. replace ((0 <=? n) && (n <? 32)) with true by lia. by apply safe_ret. Qed.

Lemma safe_ones_shl_by n : 0 <= n < 32 -> safe (ones_shl_by n) (in_u 32).
Proof. intros Hn. unfold ones_shl_by, shift_count. replace ((0 <=? n) && (n <? 32)) with true by lia. apply safe_ret, in_u_ones_shl. Qed.

Lemma fld5_range i : 0 <= fld i 6 0x1F < 32.
Proof. apply (in_u_fld 5); [lia|by apply in_u_const]. Qed.

Lemma land_FF_nonneg a : 0 <= Z.land a 0xFF.
Proof. apply (in_u_land_r 8); [lia|by apply in_u_const]. Qed.

Lemma land_1F_range a : 0 <= Z.land a 0x1F < 32.
Proof. apply (in_u_land_r 5); [lia|by apply in_u_const]. Qed.

Ltac count_side :=
  repeat match goal with
    | |- context [fld ?i 6 0x1F] => lazymatch goal with H : 0 <= fld i 6 0x1F < 32 |- _ => fail | _ => pose proof (fld5_range i) end
    | |- context [Z.land ?a 0xFF] => lazymatch goal with H : 0 <= Z.land a 0xFF |- _ => fail | _ => pose proof (land_FF_nonneg a) end
    | |- context [Z.land ?a 0x1F] => lazymatch goal with H : 0 <= Z.land a 0x1F < 32 |- _ => fail | _ => pose proof (land_1F_range a) end
    end; lia.

(** One step through an implementation. *)
Ltac instr_step :=
  lazymatch goal with
  | |- safe (bind (rd _) _) _ => eapply safe_bind; [apply safe_rd; reg_side|intros ? ?]
  | |- safe (bind (wr _ _) _) _ => eapply safe_bind; [apply safe_wr; [reg_side|instr_inu]|intros ? _]
  | |- safe (bind (mcu_update_nflag _) _) _ => eapply safe_bind; [apply safe_nflag|intros ? _]
  | |- safe (bind (mcu_update_zflag _) _) _ => eapply safe_bind; [apply safe_zflag|intros ? _]
  | |- safe (bind (mcu_update_cflag _ _ _) _) _ => eapply safe_bind; [apply safe_cflag|intros ? _]
  | |- safe (bind (mcu_update_vflag _ _ _) _) _ => eapply safe_bind; [apply safe_vflag|intros ? _]
  | |- safe (bind (mcu_update_cflag_bit _) _) _ => eapply safe_bind; [apply safe_cflag_bit|intros ? _]
  | |- safe (bind (mcu_update_vflag_bit _) _) _ => eapply safe_bind; [apply safe_vflag_bit|intros ? _]
  | |- safe (bind (mcu_fetch_error _) _) _ => eapply safe_bind; [apply safe_halt|intros ? _]
  | |- safe (bind (halt _) _) _ => eapply safe_bind; [apply safe_halt|intros ? _]
  | |- safe (bind (fetch16 _) _) _ => eapply safe_bind; [apply safe_fetch16|intros [?|] ?]
  | |- safe (bind (fetch32 _) _) _ => eapply safe_bind; [apply safe_fetch32|intros [?|] ?]
  | |- safe (bind (mcu_write32 _ _) _) _ => eapply safe_bind; [apply safe_mcu_write32|intros [] _]
  | |- safe (bind (for_regs _ _ (load_reg _) _) _) _ =>
      eapply safe_bind;
        [apply safe_for_regs; [instr_inu|intros; apply safe_load_reg; [intros; first [apply safe_halt|by apply safe_ret]|by apply low_regs_ok]]|intros [?|] ?]
  | |- safe (bind (for_regs _ _ (store_reg _) _) _) _ =>
      eapply safe_bind;
        [apply safe_for_regs; [instr_inu|intros; apply safe_store_reg; [intros; apply safe_halt|by apply low_regs_ok]]|intros [?|] ?]
  | |- safe (bind (if _ then _ else _) _) _ =>
      eapply safe_bind with (Q := in_u 32); [|intros ? ?]
  | |- safe (bind (one_shl _) _) _ => eapply safe_bind; [apply safe_one_shl; count_side|intros ? _]
  | |- safe (bind (ones_shl_by _) _) _ => eapply safe_bind; [apply safe_ones_shl_by; count_side|intros ? ?]
  | |- safe (if _ then _ else _) _ => apply safe_if_eq; intros ?
  | |- safe (ret _) any => by apply safe_ret
  | |- safe (ret _) (in_u 32) => apply safe_ret; solve [instr_inu]
  | |- safe (load_reg _ _ _) _ => apply safe_load_reg; [intros; apply safe_halt|reg_side]
  | |- safe (load_byte _ _) _ => apply safe_load_byte; reg_side
  | |- safe (load_half _ _) _ => apply safe_load_half; reg_side
  | |- safe (store_byte _ _) _ => apply safe_store_byte; reg_side
  | |- safe (store_word _ _ _) _ => apply safe_store_word
  | |- safe (store_half _ _ _) _ => apply safe_store_half
  end.

(** Expose the body of a table entry. *)
Ltac open_instr :=
  lazymatch goal with
  | |- safe (impl16 (?f _) _) _ => unfold f; cbv beta zeta iota delta [impl16]
  | |- safe (impl16 ?f _) _ => unfold f; cbv beta zeta iota delta [impl16]
  end.

(** The amount of a shift by a register. *)
Definition shift_amount (m : mcu) (instr : Z) : Z := Z.land (mcu_read_reg m (fld instr 3 0x7)) 0xFF.

Lemma safe_instrs16 :
  Forall (fun def => def = instr_LSL2 \/ def = instr_LSR2 \/ forall instr, safe (impl16 def instr) any) mcu_instr16_cortex_m0p.
Proof.
  unfold mcu_instr16_cortex_m0p.
  repeat apply Forall_cons_2; try apply Forall_nil_2;
    first [by left|by right; left|right; right; intros instr; open_instr].
  all: repeat instr_step.
Qed.

Lemma safe_MSR instr : safe (impl32 instr_MSR instr) any.
Proof.
  unfold instr_MSR. cbv beta zeta iota delta [impl32]. instr_step.
  repeat match goal with |- safe (match ?x with _ => _ end) _ => destruct x end; repeat instr_step.
Qed.

Lemma safe_MRS instr : safe (impl32 instr_MRS instr) any.
Proof.
  unfold instr_MRS. cbv beta zeta iota delta [impl32].
  assert (safe (let! v := rd REG_MSP in run! wr (fld instr 8 0xF) v in ret true) any) as Hmsp
    by (repeat instr_step).
  apply safe_if; [repeat instr_step; exact Hmsp|].
  repeat match goal with |- safe (match ?x with _ => _ end) _ => destruct x end;
    first [exact Hmsp | repeat instr_step].
Qed.

Lemma safe_BL instr : safe (impl32 instr_BL instr) any.
Proof. unfold instr_BL. cbv beta zeta iota delta [impl32]. repeat instr_step. Qed.

Lemma safe_instrs32 : Forall (fun def => forall instr, safe (impl32 def instr) any) mcu_instr32_cortex_m0p.
Proof.
  repeat apply Forall_cons_2; try apply Forall_nil_2; [apply safe_MSR|apply safe_MRS|apply safe_BL].
Qed.

Lemma find_instr16_in t instr def :
  find_instr16 t instr = Some def -> def ∈ t /\ Z.land instr (mask16 def) = instr16 def.
Proof.
  induction t as [|d t IH]; simpl; [done|].
  destruct (Z.eqb_spec (Z.land instr (mask16 d)) (instr16 d)); [intros [= ->]; set_solver|].
  intros H. destruct (IH H). set_solver.
Qed.

Lemma find_instr32_in t instr def :
  find_instr32 t instr = Some def -> def ∈ t /\ Z.land instr (mask32 def) = instr32 def.
Proof.
  induction t as [|d t IH]; simpl; [done|].
  destruct (Z.eqb_spec (Z.land instr (mask32 d)) (instr32 d)); [intros [= ->]; set_solver|].
  intros H. destruct (IH H). set_solver.
Qed.

Lemma safe_run_impl impl old_pc : safe impl any -> in_u 32 old_pc -> safe (run_impl impl old_pc) any.
Proof. intros Hi Hp. eapply safe_bind; [exact Hi|]. intros [] _; simpl; repeat instr_step. Qed.

(** The 32-bit word the step of [m] decodes, when its first half announces one. *)
Definition decoded32 (m : mcu) : option Z :=
  let pc := mcu_read_reg m REG_PC in
  lo ← mcu_fetch16 m (sub32 pc 2);
  if is_thirtytwo lo then
    hi ← mcu_fetch16 m (sub32 (add32 pc 2) 2);
    Some (Z.lor (Z.shiftl lo 16) hi)
  else None.

(** What a call of a simulator function leaves behind. *)
Definition outcome_ok {A} (undef : Prop) (r : res A) : Prop :=
  match r with Ret _ m' => wf_mcu m' | Exited _ m' => wf_mcu m' | Undef => undef end.

Lemma safe_outcome {A} (c : M A) Q m P : safe c Q -> wf_mcu m -> outcome_ok P (c m).
Proof. intros Hc Hm. specialize (Hc m Hm). destruct (c m); simpl; tauto. Qed.

(** The step, unfolded around its fetches. *)
Definition exec16 (pc instr : Z) : M bool :=
  run! wr REG_PC (add32 pc 2) in
  match find_instr16 mcu_instr16_cortex_m0p instr with
  | Some def => run_impl (impl16 def instr) pc
  | None => run! wr REG_PC pc in run! halt HALT_UNKOWN_INSTRUCTION in ret false
  end.

Definition exec32 (pc instr : Z) : M bool :=
  run! wr REG_PC (add32 (add32 pc 2) 2) in
  match find_instr32 mcu_instr32_cortex_m0p instr with
  | Some def => run_impl (impl32 def instr) pc
  | None => fun _ => Undef
  end.

Definition fetch_failed : M bool := run! halt HALT_HARD_FAULT in ret false.

Lemma instr_step_unfold m :
  mcu_instr_step m =
  let pc := mcu_read_reg m REG_PC in
  match mcu_fetch16 m (sub32 pc 2) with
  | None => fetch_failed m
  | Some lo =>
      if is_thirtytwo lo then
        match mcu_fetch16 m (sub32 (add32 pc 2) 2) with
        | None => fetch_failed m
        | Some hi => exec32 pc (Z.lor (Z.shiftl lo 16) hi) m
        end
      else exec16 pc lo m
  end.
Proof.
  unfold mcu_instr_step, bind, rd, fetch16, gets. change (reg_ok REG_PC) with true. cbv beta iota zeta.
  destruct (mcu_fetch16 m _) as [lo|]; [|reflexivity].
  destruct (is_thirtytwo lo); [|reflexivity].
  destruct (mcu_fetch16 m (sub32 (add32 _ 2) 2)); reflexivity.
Qed.

(** The shifts by a register: without an amount they compute [1 << 32] or [1 << -1]. *)
Lemma reg_shift_run def instr m : def = instr_LSL2 \/ def = instr_LSR2 -> wf_mcu m ->
  if shift_amount m instr =? 0 then impl16 def instr m = Undef else outcome_ok False (impl16 def instr m).
Proof.
  intros Hdef Hm. assert (reg_ok (fld instr 0 0x7) = true /\ reg_ok (fld instr 3 0x7) = true) as [Hr Hs] by (split; reg_side).
  pose proof (wf_read m (fld instr 0 0x7) Hm) as Ha. fold (shift_amount m instr).
  assert (0 <= shift_amount m instr < 256) as Hsh by (apply (in_u_land_r 8); [lia|by apply in_u_const]).
  destruct Hdef as [-> | ->]; unfold instr_LSL2, instr_LSR2; cbv beta zeta iota delta [impl16];
    rewrite !bind_rd by done; fold (shift_amount m instr); destruct (Z.eqb_spec (shift_amount m instr) 0) as [->|Hne]; try done.
  - eapply (safe_outcome _ any); [|exact Hm]. repeat instr_step.
  - assert (sub32 (shift_amount m instr) 1 = shift_amount m instr - 1) as -> by (apply wrap_id; unfold in_u; lia).
    eapply (safe_outcome _ any); [|exact Hm]. repeat instr_step.
Qed.

(** The 16-bit instruction the step of [m] decodes, and the shifts by a register. *)
Definition decoded16 (m : mcu) : option Z :=
  lo ← mcu_fetch16 m (sub32 (mcu_read_reg m REG_PC) 2); if is_thirtytwo lo then None else Some lo.
Definition is_reg_shift (i : Z) : bool := (Z.land i 0xFFC0 =? 0x4080) || (Z.land i 0xFFC0 =? 0x40C0).

Lemma outcome_run_impl P impl old_pc m : outcome_ok P (impl m) -> in_u 32 old_pc -> outcome_ok P (run_impl impl old_pc m).
Proof.
  intros Hi Hp. unfold run_impl, bind at 1. destruct (impl m) as [ok m'|n m'|]; [|done|done]. simpl in Hi.
  apply (safe_outcome _ any); [|done]. destruct ok; simpl; repeat instr_step.
Qed.

Lemma outcome_weaken {A} (P Q : Prop) (r : res A) : (P -> Q) -> outcome_ok P r -> outcome_ok Q r.
Proof. destruct r; simpl; auto. Qed.

Lemma shift_amount_pc m v instr : shift_amount (mcu_write_reg m REG_PC v) instr = shift_amount m instr.
Proof.
  unfold shift_amount. assert (0 <= fld instr 3 0x7 < 8) as Hr by (apply (in_u_fld 3); [lia|by apply in_u_const]).
  change (mcu_write_reg m REG_PC v) with (set_reg_slot m REG_PC (Z.land v (u32 (Z.lnot 1)))).
  rewrite !read_slot by (unfold reg_count, REG_SP; lia). f_equal. apply reg_slot_set_ne; unfold REG_PC; lia.
Qed.

Lemma outcome_exec16 pc instr m : in_u 32 pc -> wf_mcu m ->
  outcome_ok (is_reg_shift instr = true /\ shift_amount m instr = 0) (exec16 pc instr m).
Proof.
  intros Hp Hm. unfold exec16. rewrite bind_wr by done.
  assert (wf_mcu (mcu_write_reg m REG_PC (add32 pc 2))) as Hm' by (apply wf_write; [done|done|apply in_u_add32]).
  destruct (find_instr16 mcu_instr16_cortex_m0p instr) as [def|] eqn:F; [|apply (safe_outcome _ any); [repeat instr_step|done] ].
  apply outcome_run_impl; [|done]. apply find_instr16_in in F as [F Hi].
  pose proof safe_instrs16 as H. rewrite Forall_forall in H. specialize (H def F).
  assert (forall d, d = instr_LSL2 \/ d = instr_LSR2 -> def = d -> outcome_ok (is_reg_shift instr = true /\ shift_amount m instr = 0)
            (impl16 def instr (mcu_write_reg m REG_PC (add32 pc 2)))) as Hshift.
  { intros d Hd ->. pose proof (reg_shift_run d instr _ Hd Hm') as Hrun. rewrite shift_amount_pc in Hrun.
    destruct (Z.eqb_spec (shift_amount m instr) 0) as [Hz|Hz].
    - rewrite Hrun. split; [|done]. unfold is_reg_shift. by destruct Hd as [-> | ->]; cbn in Hi; rewrite Hi.
    - apply (outcome_weaken False); [done|exact Hrun]. }
  destruct H as [H|[H|H] ]; [by apply (Hshift _ (or_introl eq_refl))|by apply (Hshift _ (or_intror eq_refl))|].
  by apply (safe_outcome _ any).
Qed.

Lemma safe_fetch_failed : safe fetch_failed any.
Proof. unfold fetch_failed. repeat instr_step. Qed.

Lemma safe_exec32 pc instr def :
  in_u 32 pc -> find_instr32 mcu_instr32_cortex_m0p instr = Some def -> safe (exec32 pc instr) any.
Proof.
  intros Hp F. unfold exec32. rewrite F. instr_step. apply safe_run_impl; [|done].
  apply find_instr32_in in F as [F _]. pose proof safe_instrs32 as H. rewrite Forall_forall in H. by apply H.
Qed.

(** What the step runs into undefined behaviour on: a 32-bit instruction that matches
    no entry, and LSL or LSR by a register whose low byte is 0. *)
Definition undefined_step (m : mcu) : Prop :=
  (exists w, decoded32 m = Some w /\ find_instr32 mcu_instr32_cortex_m0p w = None) \/
  (exists i, decoded16 m = Some i /\ is_reg_shift i = true /\ shift_amount m i = 0).


(** The machine [mcu_cortex_m0p_create] makes is well-formed. *)
Lemma wf_board_create junk ramsize :
  (forall i, in_u 16 (junk i)) -> 0 <= ramsize -> wf_mcu (mcu_cortex_m0p_create junk ramsize).
Proof.
  intros Hj Hs. split; [done|]. split; [by apply Forall_replicate, in_u_0|]. split; [done|].
  unfold mcu_cortex_m0p_create. simpl.
  repeat apply Forall_cons_2; try apply Forall_nil_2; repeat split; simpl; try done; try apply Hj.
Qed.

(** The board with every register and all RAM zero, and the board after a reset
    into a program in flash: two words of vectors, then code. *)
Definition board : mcu := mcu_cortex_m0p_create (fun _ => 0) 8192.

Definition flash_image (prog : list Z) (i : Z) : Z := default 0xDEDE (prog !! Z.to_nat i).

Definition boot (code : list Z) : mcu :=
  mcu_resume (snd (mcu_reset
    (set_body board 3 (Flash (flash_image ([0x1000; 0x1000; 0x9; 0x0] ++ code)))))).

Lemma wf_board : wf_mcu board.
Proof. apply wf_board_create; [intros; by apply in_u_0|lia]. Qed.

Lemma wf_resume m : wf_mcu m -> wf_mcu (mcu_resume m).
Proof. intros Hm. unfold mcu_resume. case_match; [done|]. apply wf_emit. apply (wf_devs m); [done|done|apply Hm]. Qed.

Lemma wf_boot code : Forall (in_u 16) code -> wf_mcu (boot code).
Proof.
  intros Hc. apply wf_resume, wf_reset, wf_set_body; [apply wf_board|]. intros i. unfold flash_image.
  assert (Forall (in_u 16) ([0x1000; 0x1000; 0x9; 0x0] ++ code)) as H
    by (apply Forall_app; split; [|done]; repeat apply Forall_cons_2; try apply Forall_nil_2; by apply in_u_const).
  destruct (_ !! _) eqn:E; simpl; [by eapply Forall_lookup_1|by apply in_u_const].
Qed.

