(* ===== verification/ThumbSpec.v ===== *)
(** * ThumbSpec: data-processing instructions against the architecture

    A reference semantics of the condition flags and shifts ([AddWithCarry],
    [LSL_C], [LSR_C], [ASR_C] of the ARMv6-M manual) and proofs that the
    implementations of the instruction table compute it. *)
From S2P Require Import Prelude Machine MachineFacts Thumb ThumbSafe.

(** ** The reference *)

(** The condition flags, at bits 31..28 of XPSR. *)
Definition put_bit (x k : Z) (b : bool) : Z := if b then Z.setbit x k else Z.clearbit x k.
Definition flag (m : mcu) (k : Z) : bool := Z.testbit (reg_slot m REG_XPSR) k.
Definition put_flag (k : Z) (b : bool) (m : mcu) : mcu :=
  set_reg_slot m REG_XPSR (put_bit (reg_slot m REG_XPSR) k b).

Definition N_bit : Z := 31.
Definition Z_bit : Z := 30.
Definition C_bit : Z := 29.
Definition V_bit : Z := 28.

(** Result, carry and overflow of [x + y + carry_in]. *)
Definition awc_result (x y : Z) (cin : bool) : Z := u32 (x + y + Z.b2z cin).
Definition awc_carry (x y : Z) (cin : bool) : bool :=
  negb (awc_result x y cin =? x + y + Z.b2z cin).
Definition awc_overflow (x y : Z) (cin : bool) : bool :=
  negb (i32 (awc_result x y cin) =? i32 x + i32 y + Z.b2z cin).

(** N and Z from a result, C and V when the instruction sets them. *)
Definition set_nz (r : Z) (m : mcu) : mcu :=
  put_flag Z_bit (r =? 0) (put_flag N_bit (Z.testbit r 31) m).

Definition set_dest (dest : option Z) (r : Z) (m : mcu) : mcu :=
  match dest with Some d => set_reg_slot m d r | None => m end.

(** An instruction that adds [x], [y] and a carry into [dest]. *)
Definition adds (dest : option Z) (x y : Z) (cin : bool) (m : mcu) : mcu :=
  put_flag V_bit (awc_overflow x y cin)
    (put_flag C_bit (awc_carry x y cin)
       (set_nz (awc_result x y cin) (set_dest dest (awc_result x y cin) m))).

(** A logical instruction: C and V keep their values. *)
Definition logic (dest r : Z) (m : mcu) : mcu := set_nz r (set_reg_slot m dest r).

(** Shifts by [0 < n]: result and carry out. *)
Definition LSL_C (x n : Z) : Z * bool := (u32 (Z.shiftl x n), Z.testbit x (32 - n)).
Definition LSR_C (x n : Z) : Z * bool := (Z.shiftr x n, Z.testbit x (n - 1)).
Definition ASR_C (x n : Z) : Z * bool := (u32 (Z.shiftr (i32 x) n), Z.testbit (i32 x) (n - 1)).

Definition shifted (dest : Z) (rc : Z * bool) (m : mcu) : mcu :=
  put_flag C_bit rc.2 (logic dest rc.1 m).

(** ** Bits *)

Lemma b2z_bit b i : 0 <= i -> Z.testbit (Z.b2z b) i = (i =? 0) && b.
Proof.
  intros Hi. destruct (Z.eqb_spec i 0) as [->|Hne]; [by destruct b|].
  destruct b; simpl; [|apply Z.bits_0]. by rewrite Z.bits_above_log2 by (simpl; lia).
Qed.

Lemma mask_testbit n k i : 0 <= n -> 0 <= k -> 0 <= i ->
  Z.testbit (Z.shiftl (Z.ones n) k) i = (k <=? i) && (i <? k + n).
Proof.
  intros Hn Hk Hi. rewrite Z.shiftl_spec by done.
  destruct (Z.leb_spec k i), (Z.ltb_spec i (k + n)); simpl.
  - apply Z.ones_spec_low. lia.
  - apply Z.ones_spec_high. lia.
  - apply Z.testbit_neg_r. lia.
  - apply Z.testbit_neg_r. lia.
Qed.

Lemma put_bit_testbit x k b i : 0 <= k -> 0 <= i ->
  Z.testbit (put_bit x k b) i = if i =? k then b else Z.testbit x i.
Proof.
  intros Hk Hi. unfold put_bit. destruct b; destruct (Z.eqb_spec i k) as [->|Hne].
  - by apply Z.setbit_eq.
  - by rewrite Z.setbit_neq by done.
  - apply Z.clearbit_eq.
  - by rewrite Z.clearbit_neq by done.
Qed.

Lemma put_bit_range x k b : 0 <= k < 32 -> in_u 32 x -> in_u 32 (put_bit x k b).
Proof.
  intros Hk Hx. unfold put_bit, Z.setbit, Z.clearbit. destruct b.
  - apply in_u_lor; [lia|done|]. apply (in_u_shiftl 1); [lia..|by apply in_u_const].
  - apply in_u_of_testbit; [lia| |].
    + apply Z.ldiff_nonneg. left. apply Hx.
    + intros i Hi. rewrite Z.ldiff_spec, (in_u_testbit_high 32) by (done || lia). done.
Qed.

Lemma put_bit_comm x k k' b b' : 0 <= k -> 0 <= k' -> k <> k' ->
  put_bit (put_bit x k b) k' b' = put_bit (put_bit x k' b') k b.
Proof.
  intros. apply Z.bits_inj'. intros i Hi. rewrite !put_bit_testbit by done.
  destruct (Z.eqb_spec i k), (Z.eqb_spec i k'); congruence.
Qed.

(** ** Flags of a machine *)

Lemma wf_put_flag k b m : 0 <= k < 32 -> wf_mcu m -> wf_mcu (put_flag k b m).
Proof.
  intros Hk Hm. apply wf_set_slot; [done| |done|done]. apply put_bit_range; [done|by apply wf_slot].
Qed.

Lemma len_regs m : wf_mcu m -> Z.of_nat (length (regs m)) = 20.
Proof. intros [-> _]. done. Qed.

Lemma put_flag_comm k k' b b' m : wf_mcu m -> 0 <= k -> 0 <= k' -> k <> k' ->
  put_flag k b (put_flag k' b' m) = put_flag k' b' (put_flag k b m).
Proof.
  intros Hm ???. unfold put_flag. rewrite !reg_slot_set_eq by (rewrite len_regs; done).
  rewrite !set_reg_slot_twice. by rewrite put_bit_comm.
Qed.

Lemma put_flag_set k b m r v : 0 <= r -> r <> REG_XPSR ->
  put_flag k b (set_reg_slot m r v) = set_reg_slot (put_flag k b m) r v.
Proof.
  intros ??. unfold put_flag. rewrite reg_slot_set_ne by done. rewrite set_reg_slot_comm; done.
Qed.

Lemma flag_put m k k' b : wf_mcu m -> 0 <= k -> 0 <= k' ->
  flag (put_flag k b m) k' = if k' =? k then b else flag m k'.
Proof.
  intros Hm ??. unfold flag, put_flag. rewrite reg_slot_set_eq by (rewrite len_regs; done).
  by apply put_bit_testbit.
Qed.

Lemma slot_put k b m r : 0 <= r -> r <> REG_XPSR -> reg_slot (put_flag k b m) r = reg_slot m r.
Proof. intros. unfold put_flag. by rewrite reg_slot_set_ne. Qed.

(** The read-modify-write of APSR every flag helper does. *)
Lemma apsr_put m k (b : bool) :
  wf_mcu m -> 28 <= k < 32 ->
  mcu_write_reg m REG_APSR
    (if b then Z.lor (mcu_read_reg m REG_APSR) (Z.shiftl 1 k)
     else Z.land (mcu_read_reg m REG_APSR) (not32 (Z.shiftl 1 k))) = put_flag k b m.
Proof.
  intros Hm Hk. unfold mcu_write_reg, mcu_read_reg, put_flag.
  change (REG_APSR =? REG_PC) with false. change (REG_APSR =? REG_SP) with false.
  change (REG_APSR =? REG_APSR) with true. cbv beta iota zeta. f_equal.
  pose proof (wf_slot m REG_XPSR Hm) as Hx. set (x := reg_slot m REG_XPSR) in *.
  change 0xF0000000 with (Z.shiftl (Z.ones 4) 28).
  apply Z.bits_inj'. intros i Hi. rewrite put_bit_testbit by lia.
  assert (Hp : forall j, 0 <= j -> Z.testbit (Z.shiftl 1 k) j = (k =? j))
    by (intros; rewrite Z.shiftl_1_l; apply Z.pow2_bits_eqb; lia).
  destruct (Z.ltb_spec i 32) as [Hlt|Hge].
  - destruct b; unfold not32;
      repeat first [ rewrite Z.lor_spec | rewrite Z.land_spec | rewrite wrap_testbit by lia
                   | rewrite Z.lnot_spec by lia | rewrite mask_testbit by lia | rewrite Hp by lia ].
    all: rewrite (proj2 (Z.ltb_lt i 32) Hlt).
    all: destruct (Z.leb_spec 28 i), (Z.ltb_spec i (28 + 4)), (Z.eqb_spec i k), (Z.eqb_spec k i),
      (Z.testbit x i); try lia; done.
  - assert (Z.testbit x i = false) as Ex by (apply (in_u_testbit_high 32); [done|lia]).
    destruct (Z.eqb_spec i k); [lia|]. rewrite Ex.
    rewrite Z.lor_spec, !Z.land_spec, mask_testbit by lia. rewrite Ex. simpl.
    destruct (Z.ltb_spec i (28 + 4)); [lia|]. by rewrite !andb_false_r.
Qed.

(** ** The flag helpers *)

Lemma nflag_run c m : wf_mcu m -> mcu_update_nflag c m = Ret tt (put_flag N_bit (Z.testbit c 31) m).
Proof.
  intros Hm. unfold mcu_update_nflag. rewrite bind_rd by done. unfold wr.
  change (reg_ok REG_APSR) with true. cbv iota. rewrite truth_land_bit by done.
  f_equal. by apply (apsr_put m 31).
Qed.

Lemma zflag_run c m : wf_mcu m -> mcu_update_zflag c m = Ret tt (put_flag Z_bit (c =? 0) m).
Proof.
  intros Hm. unfold mcu_update_zflag. rewrite bind_rd by done. unfold wr.
  change (reg_ok REG_APSR) with true. cbv iota. f_equal. by apply (apsr_put m 30).
Qed.

Lemma cflag_bit_run c m : wf_mcu m -> mcu_update_cflag_bit c m = Ret tt (put_flag C_bit (truth c) m).
Proof.
  intros Hm. unfold mcu_update_cflag_bit. rewrite bind_rd by done. unfold wr.
  change (reg_ok REG_APSR) with true. cbv iota. f_equal. by apply (apsr_put m 29).
Qed.

Lemma vflag_bit_run c m : wf_mcu m -> mcu_update_vflag_bit c m = Ret tt (put_flag V_bit (truth c) m).
Proof.
  intros Hm. unfold mcu_update_vflag_bit. rewrite bind_rd by done. unfold wr.
  change (reg_ok REG_APSR) with true. cbv iota. f_equal. by apply (apsr_put m 28).
Qed.

(** A word as its sign bit and the 31 bits below. *)
Lemma split31 x : in_u 32 x ->
  Z.land x 0x7FFFFFFF = x mod 2 ^ 31 /\ Z.shiftr x 31 = x / 2 ^ 31 /\ 0 <= x / 2 ^ 31 <= 1 /\
  x = 2 ^ 31 * (x / 2 ^ 31) + x mod 2 ^ 31 /\ 0 <= x mod 2 ^ 31 < 2 ^ 31.
Proof.
  intros [H0 H1]. change 0x7FFFFFFF with (Z.ones 31). rewrite Z.land_ones by lia.
  rewrite Z.shiftr_div_pow2 by lia. split; [done|]. split; [done|].
  pose proof (Z.div_mod x (2 ^ 31) ltac:(done)) as Hd.
  pose proof (Z.mod_pos_bound x (2 ^ 31) ltac:(done)) as Hb.
  assert (0 <= x / 2 ^ 31 <= 1) by (split; [apply Z.div_pos; lia|apply Z.lt_succ_r, Z.div_lt_upper_bound; lia]).
  lia.
Qed.

Lemma bit1_small x : 0 <= x < 4 -> truth (Z.land x 2) = (2 <=? x).
Proof. intros H. assert (x = 0 \/ x = 1 \/ x = 2 \/ x = 3) as H4 by lia. destruct H4 as [-> | [-> | [-> | ->] ] ]; done. Qed.

(** The carry test of [mcu_update_cflag] computes the carry out of the sum. *)
Lemma cflag_spec a b cin : in_u 32 a -> in_u 32 b ->
  truth (Z.land (add32 (add32 (Z.shiftr (add32 (add32 (Z.land a 0x7FFFFFFF) (Z.land b 0x7FFFFFFF))
                                               (Z.b2z cin)) 31) (Z.shiftr a 31)) (Z.shiftr b 31)) 2)
  = awc_carry a b cin.
Proof.
  intros Ha Hb. destruct (split31 a Ha) as (-> & -> & Ha1 & Ea & Hma).
  destruct (split31 b Hb) as (-> & -> & Hb1 & Eb & Hmb).
  unfold in_u in *. unfold awc_carry, awc_result.
  set (ha := a / 2 ^ 31) in *. set (la := a mod 2 ^ 31) in *.
  set (hb := b / 2 ^ 31) in *. set (lb := b mod 2 ^ 31) in *.
  assert (0 <= Z.b2z cin <= 1) as Hc by (destruct cin; simpl; lia). set (c := Z.b2z cin) in *.
  unfold add32. rewrite (wrap_id 32 (la + lb)) by (unfold in_u; lia).
  rewrite (wrap_id 32 (la + lb + c)) by (unfold in_u; lia).
  rewrite Z.shiftr_div_pow2 by lia. set (k := (la + lb + c) / 2 ^ 31).
  assert (0 <= k <= 1 /\ la + lb + c = 2 ^ 31 * k + (la + lb + c) mod 2 ^ 31 /\
          0 <= (la + lb + c) mod 2 ^ 31 < 2 ^ 31) as (Hk & Ek & Hm).
  { pose proof (Z.div_mod (la + lb + c) (2 ^ 31) ltac:(done)).
    pose proof (Z.mod_pos_bound (la + lb + c) (2 ^ 31) ltac:(done)).
    split; [|done]. split; [apply Z.div_pos; lia|apply Z.lt_succ_r, Z.div_lt_upper_bound; lia]. }
  rewrite (wrap_id 32 (k + ha)) by (unfold in_u; lia).
  rewrite (wrap_id 32 (k + ha + hb)) by (unfold in_u; lia).
  rewrite bit1_small by lia.
  destruct (Z.leb_spec 2 (k + ha + hb)) as [H2|H2].
  - symmetry. apply negb_true_iff, Z.eqb_neq. intros H.
    pose proof (wrap_range 32 (a + b + c) ltac:(lia)) as Hr. unfold in_u in Hr. lia.
  - symmetry. apply negb_false_iff, Z.eqb_eq. apply wrap_id. unfold in_u. lia.
Qed.

Lemma sgn_split x : in_u 32 x -> i32 x = x mod 2 ^ 31 - 2 ^ 31 * (x / 2 ^ 31).
Proof.
  intros Hx. destruct (split31 x Hx) as (_ & _ & Hd & Ex & Hm). unfold sgn.
  rewrite wrap_id by done. change (32 - 1) with 31. destruct (Z.ltb_spec x (2 ^ 31)); lia.
Qed.

Lemma u32_split s h : 0 <= s < 2 ^ 31 -> 0 <= h <= 3 -> u32 (2 ^ 31 * h + s) = 2 ^ 31 * (h mod 2) + s.
Proof.
  intros Hs Hh. assert (h = 0 \/ h = 1 \/ h = 2 \/ h = 3) as H4 by lia. unfold wrap.
  destruct H4 as [-> | [-> | [-> | ->] ] ].
  1,2: rewrite Z.mod_small; [done|lia].
  - change (2 mod 2) with 0. symmetry; apply (Z.mod_unique _ _ 1); lia.
  - change (3 mod 2) with 1. symmetry; apply (Z.mod_unique _ _ 1); lia.
Qed.

(** The overflow test of [mcu_update_vflag]: carry into against carry out of bit 31. *)
Lemma vflag_spec a b cin : in_u 32 a -> in_u 32 b ->
  truth (let temp1 := add32 (add32 (Z.land a 0x7FFFFFFF) (Z.land b 0x7FFFFFFF)) (Z.b2z cin) in
         let temp1 := Z.shiftr temp1 31 in
         let temp2 := add32 (add32 (Z.land temp1 1) (Z.land (Z.shiftr a 31) 1)) (Z.land (Z.shiftr b 31) 1) in
         let temp2 := Z.shiftr temp2 1 in
         Z.land (Z.lxor temp1 temp2) 1)
  = awc_overflow a b cin.
Proof.
  intros Ha Hb. pose proof (sgn_split a Ha) as Sa. pose proof (sgn_split b Hb) as Sb.
  destruct (split31 a Ha) as (-> & -> & Ha1 & Ea & Hma). destruct (split31 b Hb) as (-> & -> & Hb1 & Eb & Hmb).
  unfold awc_overflow, awc_result. rewrite Sa, Sb.
  set (ha := a / 2 ^ 31) in *. set (la := a mod 2 ^ 31) in *.
  set (hb := b / 2 ^ 31) in *. set (lb := b mod 2 ^ 31) in *.
  assert (0 <= Z.b2z cin <= 1) as Hc by (destruct cin; simpl; lia). set (c := Z.b2z cin) in *.
  unfold add32. rewrite (wrap_id 32 (la + lb)) by (unfold in_u; lia).
  rewrite (wrap_id 32 (la + lb + c)) by (unfold in_u; lia).
  cbv zeta. rewrite Z.shiftr_div_pow2 by lia. set (k := (la + lb + c) / 2 ^ 31).
  set (s := (la + lb + c) mod 2 ^ 31).
  assert (la + lb + c = 2 ^ 31 * k + s) as Ek by (apply Z.div_mod; done).
  assert (0 <= s < 2 ^ 31) as Hs by (apply Z.mod_pos_bound; lia).
  assert (0 <= k <= 1) as Hk by (split; [apply Z.div_pos; lia|apply Z.lt_succ_r, Z.div_lt_upper_bound; lia]).
  replace (a + b + c) with (2 ^ 31 * (ha + hb + k) + s) by lia.
  rewrite u32_split by lia. rewrite (sgn_split (2 ^ 31 * _ + s)).
  2:{ pose proof (Z.mod_pos_bound (ha + hb + k) 2 ltac:(lia)). unfold in_u. lia. }
  rewrite (Z.mul_comm (2 ^ 31) (_ mod 2)), Z.div_add_l, (Z.div_small s), Z.add_0_r by lia.
  rewrite (Z.add_comm (_ mod 2 * 2 ^ 31) s), Z.mod_add, (Z.mod_small s) by lia.
  replace (la - 2 ^ 31 * ha + (lb - 2 ^ 31 * hb) + c) with (2 ^ 31 * (k - ha - hb) + s) by lia.
  clearbody k s ha hb. clear -Ha1 Hb1 Hk Hs.
  assert (ha = 0 \/ ha = 1) as [-> | ->] by lia; assert (hb = 0 \/ hb = 1) as [-> | ->] by lia;
    assert (k = 0 \/ k = 1) as [-> | ->] by lia;
    match goal with |- context [?a =? ?b] => destruct (Z.eqb_spec a b) as [E|E] end;
    first [reflexivity | exfalso; change (0 mod 2) with 0 in E; vm_compute (_ mod 2) in E; lia].
Qed.

Lemma cflag_run a b cin m : wf_mcu m -> in_u 32 a -> in_u 32 b ->
  mcu_update_cflag a b (Z.b2z cin) m = Ret tt (put_flag C_bit (awc_carry a b cin) m).
Proof. intros Hm Ha Hb. unfold mcu_update_cflag. by rewrite cflag_bit_run, cflag_spec. Qed.

Lemma vflag_run a b cin m : wf_mcu m -> in_u 32 a -> in_u 32 b ->
  mcu_update_vflag a b (Z.b2z cin) m = Ret tt (put_flag V_bit (awc_overflow a b cin) m).
Proof. intros Hm Ha Hb. unfold mcu_update_vflag. rewrite vflag_bit_run by done. by rewrite <-vflag_spec. Qed.

(** ** Running an implementation *)

Definition low (r : Z) : Prop := 0 <= r < 8.

Lemma fld7_low i k : low (fld i k 7).
Proof. apply (in_u_fld 3); [lia|by apply in_u_const]. Qed.

Lemma low_ok r : low r -> reg_ok r = true.
Proof. unfold low. intros. apply reg_ok_range. unfold reg_count. lia. Qed.

Lemma low_ne_xpsr r : low r -> r <> REG_XPSR.
Proof. unfold low, REG_XPSR. lia. Qed.

Lemma write_low m r v : low r -> mcu_write_reg m r v = set_reg_slot m r v.
Proof. unfold low. intros. apply write_slot. unfold REG_SP. lia. Qed.

Lemma wf_set_low m r v : low r -> in_u 32 v -> wf_mcu m -> wf_mcu (set_reg_slot m r v).
Proof. unfold low. intros. apply wf_set_slot; [done|done|lia|unfold REG_SP; lia]. Qed.

(** A low register is written, and a flag put, in either order. *)
Lemma put_flag_low k b m r v : low r -> put_flag k b (set_reg_slot m r v) = set_reg_slot (put_flag k b m) r v.
Proof. intros H. apply put_flag_set; [apply H|by apply low_ne_xpsr]. Qed.

Lemma read_low_put k b m r : low r -> mcu_read_reg (put_flag k b m) r = mcu_read_reg m r.
Proof.
  unfold low. intros H. rewrite !read_slot by (unfold reg_count, REG_SP; lia).
  apply slot_put; [lia|unfold REG_XPSR; lia].
Qed.

Lemma in_u_awc x y c : in_u 32 (awc_result x y c).
Proof. by apply in_u_wrap. Qed.

(** [exec]: run the primitives of an implementation one after the other. *)
Ltac wf_tac :=
  repeat first
    [ assumption
    | apply wf_put_flag; [unfold N_bit, Z_bit, C_bit, V_bit; lia|]
    | apply wf_set_low; [apply fld7_low|first [apply in_u_awc | apply in_u_wrap; lia | solve [instr_inu; apply wf_read; assumption]]|]
    | apply wf_read ].

Ltac words_tac := first [solve [instr_inu] | solve [wf_tac; instr_inu] | solve [instr_inu; apply wf_read; wf_tac]].

Ltac exec_step :=
  lazymatch goal with
  | |- bind (rd _) _ _ = _ => rewrite bind_rd by first [reflexivity | apply low_ok, fld7_low]
  | |- bind (wr _ _) _ _ = _ =>
      rewrite bind_wr by first [reflexivity | apply low_ok, fld7_low];
      rewrite ?(write_low _ (fld _ _ 7)) by apply fld7_low
  | |- bind (mcu_update_nflag _) _ _ = _ => erewrite bind_run by (apply nflag_run; wf_tac)
  | |- bind (mcu_update_zflag _) _ _ = _ => erewrite bind_run by (apply zflag_run; wf_tac)
  | |- bind (mcu_update_cflag ?a ?b 0) _ ?m = _ =>
      rewrite (bind_run _ _ _ _ _ (cflag_run a b false m ltac:(wf_tac) ltac:(words_tac) ltac:(words_tac)))
  | |- bind (mcu_update_cflag ?a ?b 1) _ ?m = _ =>
      rewrite (bind_run _ _ _ _ _ (cflag_run a b true m ltac:(wf_tac) ltac:(words_tac) ltac:(words_tac)))
  | |- bind (mcu_update_vflag ?a ?b 0) _ ?m = _ =>
      rewrite (bind_run _ _ _ _ _ (vflag_run a b false m ltac:(wf_tac) ltac:(words_tac) ltac:(words_tac)))
  | |- bind (mcu_update_vflag ?a ?b 1) _ ?m = _ =>
      rewrite (bind_run _ _ _ _ _ (vflag_run a b true m ltac:(wf_tac) ltac:(words_tac) ltac:(words_tac)))
  | |- bind (mcu_update_cflag_bit _) _ _ = _ => erewrite bind_run by (apply cflag_bit_run; wf_tac)
  | |- bind (ret _) _ _ = _ => rewrite bind_ret
  | |- bind (bind _ _) _ _ = _ => rewrite bind_bind
  end.

Ltac exec := repeat exec_step; unfold ret; f_equal.

Lemma sub_awc a b : in_u 32 b -> sub32 a b = awc_result a (not32 b) true.
Proof.
  intros Hb. unfold sub32, awc_result, not32. cbn [Z.b2z].
  replace (a + u32 (Z.lnot b) + 1) with (a + 1 + u32 (Z.lnot b)) by lia.
  rewrite wrap_add_r. f_equal. unfold Z.lnot. lia.
Qed.

Lemma add_awc a b : add32 a b = awc_result a b false.
Proof. unfold add32, awc_result. simpl. by rewrite Z.add_0_r. Qed.

(** *** Additions and subtractions *)

(** The entries, with their destination and the three inputs of the addition. *)
Definition R (m : mcu) (n : Z) : Z := mcu_read_reg m n.

Definition arith_table : list (mcu_instr16 * (mcu -> Z -> mcu)) :=
  [ (instr_ADD1, fun m i => adds (Some (fld i 0 7)) (R m (fld i 3 7)) (fld i 6 7) false m);
    (instr_ADD2, fun m i => adds (Some (fld i 8 7)) (R m (fld i 8 7)) (fld i 0 0xFF) false m);
    (instr_ADD3, fun m i => adds (Some (fld i 0 7)) (R m (fld i 3 7)) (R m (fld i 6 7)) false m);
    (instr_SUB1, fun m i => adds (Some (fld i 0 7)) (R m (fld i 3 7)) (not32 (fld i 6 7)) true m);
    (instr_SUB2, fun m i => adds (Some (fld i 8 7)) (R m (fld i 8 7)) (not32 (fld i 0 0xFF)) true m);
    (instr_SUB3, fun m i => adds (Some (fld i 0 7)) (R m (fld i 3 7)) (not32 (R m (fld i 6 7))) true m);
    (instr_CMP1, fun m i => adds None (R m (fld i 8 7)) (not32 (fld i 0 0xFF)) true m);
    (instr_CMP2, fun m i => adds None (R m (fld i 0 7)) (not32 (R m (fld i 3 7))) true m);
    (instr_NEG, fun m i => adds (Some (fld i 0 7)) 0 (not32 (R m (fld i 3 7))) true m);
    (instr_SBC, fun m i => adds (Some (fld i 0 7)) (R m (fld i 0 7)) (not32 (R m (fld i 3 7)))
                             (flag m C_bit) m) ].

Lemma apsr_flag m k : 28 <= k < 32 ->
  truth (Z.land (mcu_read_reg m REG_APSR) (Z.shiftl 1 k)) = flag m k.
Proof.
  intros Hk. rewrite truth_land_bit by lia. unfold mcu_read_reg, flag.
  change (Z.testbit (Z.land (reg_slot m REG_XPSR) 0xF0000000) k = Z.testbit (reg_slot m REG_XPSR) k).
  change 0xF0000000 with (Z.shiftl (Z.ones 4) 28). rewrite Z.land_spec, mask_testbit by lia.
  destruct (Z.leb_spec 28 k), (Z.ltb_spec k (28 + 4)); try lia. apply andb_true_r.
Qed.

Lemma flag_set_low m r v k : low r -> flag (set_reg_slot m r v) k = flag m k.
Proof. intros H. unfold flag. rewrite reg_slot_set_ne; [done|apply H|done|by apply low_ne_xpsr]. Qed.

Ltac side_tac := first [done | unfold C_bit, N_bit, Z_bit, V_bit; lia | by apply fld7_low | solve [wf_tac]].

(** Close the goals [exec] leaves: the reference written out, V and C in either order. *)
Ltac exec_done :=
  unfold adds, logic, shifted, set_nz, set_dest, R;
  rewrite ?add_awc; repeat rewrite sub_awc by words_tac;
  first [ reflexivity
        | rewrite (put_flag_comm C_bit V_bit) by side_tac; reflexivity
        | rewrite (put_flag_comm V_bit C_bit) by side_tac; reflexivity ].

Lemma SBC_run m i : wf_mcu m ->
  impl16 instr_SBC i m = Ret true (adds (Some (fld i 0 7)) (R m (fld i 0 7)) (not32 (R m (fld i 3 7)))
                                     (flag m C_bit) m).
Proof.
  intros Hm. unfold instr_SBC. cbv beta zeta iota delta [impl16].
  do 3 exec_step. change CPSR_C with (Z.shiftl 1 C_bit). rewrite apsr_flag by (unfold C_bit; lia).
  set (a := mcu_read_reg m (fld i 0 7)). set (b := mcu_read_reg m (fld i 3 7)).
  assert (in_u 32 a /\ in_u 32 b) as [Ha Hb] by (split; by apply wf_read).
  assert ((if negb (flag m C_bit) then sub32 (sub32 a b) 1 else sub32 a b)
          = awc_result a (not32 b) (flag m C_bit)) as ->.
  { destruct (flag m C_bit); cbn [negb]; [by apply sub_awc|].
    rewrite (sub_awc a) by done. unfold awc_result, sub32. rewrite wrap_sub_l. f_equal. cbn [Z.b2z]. lia. }
  set (r := awc_result a (not32 b) (flag m C_bit)).
  assert (in_u 32 r) by (apply in_u_wrap; lia).
  do 4 exec_step. rewrite apsr_flag, !flag_put, flag_set_low by side_tac.
  change (C_bit =? Z_bit) with false. change (C_bit =? N_bit) with false. cbv iota.
  unfold r. destruct (flag m C_bit); exec; exec_done.
Qed.

(** C14: ADD(1-3), SUB(1-3), CMP(1-2), NEG and SBC compute [AddWithCarry] of the
    architecture: the destination register receives the 32-bit sum, N and Z are
    those of the sum, C is the carry out of bit 31 and V the signed overflow, and
    nothing else of the machine changes. *)
Theorem arith_refines m : wf_mcu m ->
  Forall (fun e => forall i, impl16 e.1 i m = Ret true (e.2 m i)) arith_table.
Proof.
  intros Hm. unfold arith_table.
  repeat apply Forall_cons_2; try apply Forall_nil_2; intros i; cbn [fst snd]; [..|by apply SBC_run].
  all: match goal with |- impl16 ?f _ _ = _ => unfold f end; cbv beta zeta iota delta [impl16].
  all: exec; exec_done.
Qed.

Lemma arith_refines_witness :
  wf_mcu board /\ Forall (fun e => forall i, impl16 e.1 i board = Ret true (e.2 board i)) arith_table.
Proof. split; [apply wf_board|apply arith_refines, wf_board]. Defined.

(** *** Logical instructions *)

Definition logic_table : list (mcu_instr16 * (mcu -> Z -> mcu)) :=
  [ (instr_AND, fun m i => logic (fld i 0 7) (Z.land (R m (fld i 0 7)) (R m (fld i 3 7))) m);
    (instr_BIC, fun m i => logic (fld i 0 7) (Z.land (R m (fld i 0 7)) (not32 (R m (fld i 3 7)))) m);
    (instr_EOR, fun m i => logic (fld i 0 7) (Z.lxor (R m (fld i 0 7)) (R m (fld i 3 7))) m);
    (instr_ORR, fun m i => logic (fld i 0 7) (Z.lor (R m (fld i 0 7)) (R m (fld i 3 7))) m);
    (instr_MVN, fun m i => logic (fld i 0 7) (not32 (R m (fld i 3 7))) m);
    (instr_MUL, fun m i => logic (fld i 0 7) (u32 (R m (fld i 0 7) * R m (fld i 3 7))) m);
    (instr_MOV1, fun m i => logic (fld i 8 7) (fld i 0 0xFF) m) ].

(** C28: AND, BIC, EOR, ORR, MVN, MUL and MOV(1) store their bitwise, or modulo
    2^32, result and set N and Z from it; C, V and everything else stay. *)
Theorem logic_refines m : wf_mcu m ->
  Forall (fun e => forall i, impl16 e.1 i m = Ret true (e.2 m i)) logic_table.
Proof.
  intros Hm. unfold logic_table.
  repeat apply Forall_cons_2; try apply Forall_nil_2; intros i; cbn [fst snd].
  all: match goal with |- impl16 ?f _ _ = _ => unfold f end; cbv beta zeta iota delta [impl16].
  all: exec; exec_done.
Qed.

Lemma logic_refines_witness :
  wf_mcu board /\ Forall (fun e => forall i, impl16 e.1 i board = Ret true (e.2 board i)) logic_table.
Proof. split; [apply wf_board|apply logic_refines, wf_board]. Defined.

(** *** Shifts *)

(** The amount of an immediate right shift: 0 encodes 32. *)
Definition imm_shift (n : Z) : Z := if n =? 0 then 32 else n.

Definition shift_table : list (mcu_instr16 * (mcu -> Z -> mcu)) :=
  [ (instr_LSL1, fun m i => let x := R m (fld i 3 7) in
                            if fld i 6 0x1F =? 0 then logic (fld i 0 7) x m
                            else shifted (fld i 0 7) (LSL_C x (fld i 6 0x1F)) m);
    (instr_LSR1, fun m i => shifted (fld i 0 7) (LSR_C (R m (fld i 3 7)) (imm_shift (fld i 6 0x1F))) m);
    (instr_ASR1, fun m i => shifted (fld i 0 7) (ASR_C (R m (fld i 3 7)) (imm_shift (fld i 6 0x1F))) m) ].

(** A count in range is a bit. *)
Lemma bind_one_shl {A} n (k : Z -> M A) m : 0 <= n < 32 -> bind (one_shl n) k m = k (Z.shiftl 1 n) m.
Proof. intros Hn. unfold one_shl, shift_count. by replace ((0 <=? n) && (n <? 32)) with true by lia. Qed.

Lemma bind_ones_shl {A} n (k : Z -> M A) m : 0 <= n < 32 -> bind (ones_shl_by n) k m = k (ones_shl n) m.
Proof. intros Hn. unfold ones_shl_by, shift_count. by replace ((0 <=? n) && (n <? 32)) with true by lia. Qed.

(** The shifts update C before the register and N, Z. *)
Lemma shift_order d r b m : low d -> in_u 32 r -> wf_mcu m ->
  set_nz r (set_reg_slot (put_flag C_bit b m) d r) = put_flag C_bit b (logic d r m).
Proof.
  intros Hd Hr Hm. unfold logic, set_nz. rewrite <-put_flag_low by done.
  assert (wf_mcu (set_reg_slot m d r)) by (by apply wf_set_low).
  rewrite (put_flag_comm N_bit C_bit) by side_tac. by rewrite (put_flag_comm Z_bit C_bit) by side_tac.
Qed.

Lemma high_shiftr x n : in_u 32 x -> 32 <= n -> Z.shiftr x n = 0.
Proof.
  intros [H0 H1] Hn. rewrite Z.shiftr_div_pow2 by lia. apply Z.div_small. split; [done|].
  eapply Z.lt_le_trans; [exact H1|]. apply Z.pow_le_mono_r; lia.
Qed.

Lemma top_bit n x : 0 < n -> in_u n x -> Z.testbit x (n - 1) = (2 ^ (n - 1) <=? x).
Proof.
  intros Hn [H0 H1]. rewrite Z.testbit_eqb by lia.
  assert (0 < 2 ^ (n - 1)) by (apply pow2_pos; lia).
  assert (2 ^ n = 2 * 2 ^ (n - 1)) by (rewrite <-Z.pow_succ_r by lia; f_equal; lia).
  pose proof (Z.div_mod x (2 ^ (n - 1)) ltac:(lia)) as Ex.
  pose proof (Z.mod_pos_bound x (2 ^ (n - 1)) ltac:(lia)) as Hm.
  destruct (Z.leb_spec (2 ^ (n - 1)) x) as [Hle|Hlt].
  - replace (x / 2 ^ (n - 1)) with 1 by (apply (Z.div_unique x _ 1 (x - 2 ^ (n - 1))); lia). done.
  - rewrite Z.div_small by lia. done.
Qed.

Lemma sgn_testbit_gen n x i : 0 < n -> in_u n x -> 0 <= i ->
  Z.testbit (sgn n x) i = if i <? n then Z.testbit x i else Z.testbit x (n - 1).
Proof.
  intros Hn Hx Hi. unfold sgn. rewrite wrap_id, top_bit by done.
  assert (0 < 2 ^ n) by (apply pow2_pos; lia).
  destruct (Z.ltb_spec x (2 ^ (n - 1))), (Z.leb_spec (2 ^ (n - 1)) x), (Z.ltb_spec i n); try lia; try done.
  - apply (in_u_testbit_high n); [done|lia].
  - rewrite <-(Z.mod_pow2_bits_low (x - 2 ^ n) n), <-(Z.mod_pow2_bits_low x n) by lia.
    f_equal. rewrite <-(Z.mod_add (x - 2 ^ n) 1) by lia. f_equal. lia.
  - replace (x - 2 ^ n) with (Z.lnot (2 ^ n - 1 - x)) by (unfold Z.lnot; lia).
    rewrite Z.lnot_spec, (in_u_testbit_high n); [done| |lia|lia]. unfold in_u in *. lia.
Qed.

Lemma sgn_testbit x i : in_u 32 x -> 0 <= i ->
  Z.testbit (i32 x) i = if i <? 32 then Z.testbit x i else Z.testbit x 31.
Proof. intros. by rewrite sgn_testbit_gen. Qed.

Lemma ones_shl_testbit n i : 0 <= n -> 0 <= i ->
  Z.testbit (ones_shl n) i = (i <? 32) && (n <=? i).
Proof.
  intros Hn Hi. unfold ones_shl. rewrite wrap_testbit, Z.shiftl_spec by lia. f_equal.
  destruct (Z.leb_spec n i); [by rewrite Z.bits_m1 by lia|by apply Z.testbit_neg_r; lia].
Qed.

(** The sign extension the implementations spell with [(~0) << n]. *)
Lemma sign_extend n x : 0 < n < 32 -> in_u n x ->
  (if Z.testbit x (n - 1) then Z.lor x (ones_shl n) else x) = u32 (sgn n x).
Proof.
  intros Hn Hx. apply Z.bits_inj'. intros i Hi.
  rewrite wrap_testbit, sgn_testbit_gen by (done || lia).
  pose proof (ones_shl_testbit n i ltac:(lia) Hi) as Ho.
  assert (n <= i -> Z.testbit x i = false) as Hh by (intros; apply (in_u_testbit_high n); [done|lia]).
  destruct (Z.testbit x (n - 1)) eqn:E; rewrite ?Z.lor_spec, ?Ho;
    destruct (Z.ltb_spec i 32), (Z.ltb_spec i n), (Z.leb_spec n i); try lia;
    rewrite ?Hh by lia; simpl; rewrite ?orb_false_r; done.
Qed.

Lemma asr_impl x n : in_u 32 x -> 1 <= n < 32 ->
  (if truth (Z.land x (Z.shiftl 1 31)) then Z.lor (Z.shiftr x n) (ones_shl (32 - n)) else Z.shiftr x n)
  = (ASR_C x n).1.
Proof.
  intros Hx Hn. rewrite truth_land_bit by lia. unfold ASR_C. cbn [fst].
  apply Z.bits_inj'. intros i Hi. rewrite wrap_testbit, Z.shiftr_spec, sgn_testbit by (done || lia).
  pose proof (ones_shl_testbit (32 - n) i ltac:(lia) Hi) as Ho.
  assert (Z.ltb (i + n) 32 = negb (32 - n <=? i)) as ->
    by (destruct (Z.ltb_spec (i + n) 32), (Z.leb_spec (32 - n) i); lia || done).
  assert (32 <= i -> Z.testbit x (i + n) = false) as Hh by (intros; apply (in_u_testbit_high 32); [done|lia]).
  destruct (Z.testbit x 31) eqn:E; rewrite ?Z.lor_spec, ?Ho, Z.shiftr_spec by lia;
    destruct (Z.ltb_spec i 32), (Z.leb_spec (32 - n) i); simpl; rewrite ?orb_true_r, ?orb_false_r; try done.
  all: try (apply Hh; lia). all: try lia.
  destruct (Z.eq_dec (i + n) 31) as [->|]; [done|]. apply (in_u_testbit_high 32); [done|lia].
Qed.

Lemma asr_32 x : in_u 32 x ->
  ASR_C x 32 = (if Z.testbit x 31 then not32 0 else 0, Z.testbit x 31).
Proof.
  intros Hx. unfold ASR_C. change (32 - 1) with 31.
  rewrite (sgn_testbit x 31) by (done || lia). f_equal.
  apply Z.bits_inj'. intros i Hi. rewrite wrap_testbit, Z.shiftr_spec, sgn_testbit by (done || lia).
  destruct (Z.ltb_spec (i + 32) 32); [lia|]. destruct (Z.testbit x 31); simpl.
  - unfold not32. rewrite wrap_testbit, Z.lnot_spec, Z.bits_0 by lia. simpl. destruct (i <? 32); done.
  - by rewrite Z.bits_0, andb_false_r.
Qed.

Lemma lsr_32 x : in_u 32 x -> LSR_C x 32 = (0, Z.testbit x 31).
Proof. intros Hx. unfold LSR_C. by rewrite high_shiftr. Qed.

Lemma shift_ranges x n : in_u 32 x -> 0 <= n ->
  in_u 32 (LSL_C x n).1 /\ in_u 32 (LSR_C x n).1 /\ in_u 32 (ASR_C x n).1.
Proof. intros. split; [|split]; cbn [fst]; [by apply in_u_wrap|by apply in_u_shiftr|by apply in_u_wrap]. Qed.

Lemma fld_range i k n : 0 <= n -> in_u n (fld i k (Z.ones n)).
Proof. intros. unfold fld. rewrite Z.land_ones by done. by apply wrap_range. Qed.

(** A shift computes its pair of result and carry, then stores both. *)
Lemma shift_tail c r d rc m :
  low d -> wf_mcu m -> in_u 32 r -> (r, truth c) = rc ->
  (run! mcu_update_cflag_bit c in
   run! wr d r in run! mcu_update_nflag r in run! mcu_update_zflag r in ret true) m
  = Ret true (shifted d rc m).
Proof.
  intros Hd Hm Hr <-. erewrite bind_run by by apply cflag_bit_run.
  assert (wf_mcu (put_flag C_bit (truth c) m)) as H1 by wf_tac.
  rewrite bind_wr by by apply low_ok. rewrite write_low by done.
  assert (wf_mcu (set_reg_slot (put_flag C_bit (truth c) m) d r)) as H2 by by apply wf_set_low.
  erewrite bind_run by by apply nflag_run.
  erewrite bind_run by (apply zflag_run; wf_tac).
  unfold ret. f_equal. by apply shift_order.
Qed.

(** The sign of ASR, which needs a shift of its own. *)
Lemma asr_tail {A} c (b : bool) n a (k : Z -> M A) m : 1 <= n < 32 ->
  (run! mcu_update_cflag_bit c in
   bind (if b then let! ones := ones_shl_by (32 - n) in ret (Z.lor a ones) else ret a) k) m =
  (run! mcu_update_cflag_bit c in k (if b then Z.lor a (ones_shl (32 - n)) else a)) m.
Proof.
  intros Hn. unfold bind at 1 4. destruct (mcu_update_cflag_bit c m) as [ [] m'|j m'|]; [|done|done].
  destruct b; [by rewrite bind_bind, bind_ones_shl by lia|done].
Qed.

(** The two cases of an immediate shift, with the operand and the amount named. *)
Ltac shift_case Hx i :=
  cbv beta zeta iota delta [impl16]; rewrite bind_rd by (apply low_ok, fld7_low);
  specialize (Hx i); set (x := mcu_read_reg _ (fld i 3 7)) in *;
  pose proof (fld_range i 6 5 ltac:(lia)) as Hn; change (Z.ones 5) with 0x1F in Hn;
  set (n := fld i 6 0x1F) in *; unfold in_u in Hn; destruct (Z.eqb_spec n 0) as [E|E]; cbn [negb].

(** C25: LSL(1), LSR(1) and ASR(1) store the architecture's shift by an immediate
    (an amount of 0 is no shift for LSL and 32 for the right shifts; ASR repeats
    the sign) with its carry out in C and N, Z from the result; no amount leads them
    to an undefined shift of the host. *)
Theorem shift_refines m : wf_mcu m ->
  Forall (fun e => forall i, impl16 e.1 i m = Ret true (e.2 m i)) shift_table.
Proof.
  intros Hm. pose proof (fun i => wf_read m (fld i 3 7) Hm) as Hx.
  repeat apply Forall_cons_2; try apply Forall_nil_2; intros i; cbn [fst snd]; unfold R, imm_shift.
  - unfold instr_LSL1. shift_case Hx i; [exec; exec_done|].
    rewrite bind_bind, bind_one_shl, bind_bind by lia. apply shift_tail; [apply fld7_low|done|by apply in_u_wrap|].
    by rewrite truth_land_bit by lia.
  - unfold instr_LSR1. shift_case Hx i; rewrite bind_bind; [|rewrite bind_one_shl, bind_bind by lia];
      (apply shift_tail; [apply fld7_low|done| |]).
    + done.
    + rewrite lsr_32 by done. f_equal. by apply (truth_land_bit x 31).
    + apply shift_ranges; [done|lia].
    + by rewrite truth_land_bit by lia.
  - unfold instr_ASR1. shift_case Hx i.
    + rewrite asr_32 by done. rewrite truth_land_bit by lia.
      destruct (Z.testbit x 31); rewrite bind_bind;
        (apply shift_tail; [apply fld7_low|done|by apply in_u_const|done]).
    + rewrite bind_bind, bind_one_shl, bind_bind by lia. rewrite asr_tail by lia. rewrite asr_impl by (done || lia).
      apply shift_tail; [apply fld7_low|done|apply shift_ranges; [done|lia]|].
      unfold ASR_C. cbn [fst]. rewrite truth_land_bit, sgn_testbit by (done || lia).
      by rewrite (proj2 (Z.ltb_lt (n - 1) 32)) by lia.
Qed.

Lemma shift_refines_witness :
  wf_mcu board /\
  Forall (fun e => forall i, impl16 e.1 i board = Ret true (e.2 board i)) shift_table.
Proof. split; [apply wf_board|apply shift_refines, wf_board]. Defined.

(** Shifts by a register: the amount is the low byte of the register. *)
Definition amount (m : mcu) (i : Z) : Z := Z.land (R m (fld i 3 7)) 0xFF.

Definition reg_shift_table : list (mcu_instr16 * (mcu -> Z -> mcu)) :=
  [ (instr_LSL2, fun m i => shifted (fld i 0 7) (LSL_C (R m (fld i 0 7)) (amount m i)) m);
    (instr_LSR2, fun m i => shifted (fld i 0 7) (LSR_C (R m (fld i 0 7)) (amount m i)) m) ].

Lemma amount_range m i : in_u 8 (amount m i).
Proof. apply in_u_land_r; [lia|by apply in_u_const]. Qed.

Lemma LSL_C_high x n : 32 <= n -> (LSL_C x n).1 = 0.
Proof.
  intros Hn. unfold LSL_C. cbn [fst]. apply Z.bits_inj'. intros i Hi.
  rewrite wrap_testbit, Z.shiftl_spec, Z.bits_0 by lia. destruct (Z.ltb_spec i 32); [|done].
  simpl. apply Z.testbit_neg_r. lia.
Qed.

Lemma LSR_C_high x n : in_u 32 x -> 32 < n -> LSR_C x n = (0, false).
Proof.
  intros Hx Hn. unfold LSR_C. rewrite high_shiftr by (done || lia). f_equal.
  apply (in_u_testbit_high 32); [done|lia].
Qed.

(** LSL(2) and LSR(2) shift by the low byte of a register as the architecture
    does, for every amount from 1 to 255 (32 and more included): result, N, Z and
    the carry out. *)
Theorem reg_shift_refines m i :
  wf_mcu m -> amount m i <> 0 ->
  Forall (fun e => impl16 e.1 i m = Ret true (e.2 m i)) reg_shift_table.
Proof.
  intros Hm Ha. pose proof (wf_read m (fld i 0 7) Hm) as Hx. pose proof (amount_range m i) as Hn.
  repeat apply Forall_cons_2; try apply Forall_nil_2; cbn [fst snd];
    [unfold instr_LSL2|unfold instr_LSR2]; cbv beta zeta iota delta [impl16];
    rewrite !bind_rd by (apply low_ok, fld7_low); fold (R m (fld i 3 7)) (amount m i);
    unfold R in *; set (x := mcu_read_reg m (fld i 0 7)) in *; set (n := amount m i) in *;
    unfold in_u in Hn; destruct (Z.ltb_spec n 32); rewrite ?bind_bind.
  - rewrite bind_one_shl, bind_bind by lia. apply shift_tail; [apply fld7_low|done|by apply in_u_wrap|]. by rewrite truth_land_bit by lia.
  - pose proof (LSL_C_high x n ltac:(lia)) as E0.
    destruct (Z.eqb_spec n 32) as [E|E]; [|destruct (Z.eqb_spec n 0); [lia|cbn [negb]]]; rewrite bind_bind;
      (apply shift_tail; [apply fld7_low|done|by apply in_u_const|]); rewrite (surjective_pairing (LSL_C x n)), E0;
      f_equal; cbn [snd LSL_C].
    + rewrite E. apply (truth_land_bit x 0). lia.
    + symmetry. apply Z.testbit_neg_r. lia.
  - assert (sub32 n 1 = n - 1) as -> by (apply wrap_id; unfold in_u; lia). rewrite bind_one_shl, bind_bind by lia.
    apply shift_tail; [apply fld7_low|done|apply in_u_shiftr; [lia|lia|done]|]. by rewrite truth_land_bit by lia.
  - destruct (Z.eqb_spec n 32) as [E|E]; [|destruct (Z.eqb_spec n 0); [lia|cbn [negb]]]; rewrite bind_bind;
      (apply shift_tail; [apply fld7_low|done|by apply in_u_const|]).
    + rewrite E, lsr_32 by done. f_equal. by apply (truth_land_bit x 31).
    + by rewrite LSR_C_high by (done || lia).
Qed.

Lemma reg_shift_refines_witness :
  let m := set_reg_slot board 1 33 in
  amount m 8 = 33 /\ Forall (fun e => impl16 e.1 8 m = Ret true (e.2 m 8)) reg_shift_table.
Proof.
  split; [reflexivity|]. apply reg_shift_refines; [|vm_compute; discriminate].
  apply wf_set_low; [by split|by apply in_u_const|apply wf_board].
Defined.
