(* ===== verification/Frame.v ===== *)
(** * Frame: what no step of the simulator changes

    [StepRel] collects the elementary effects a simulator function can have on a
    machine.  A relation that contains them contains every step of the processor
    ([keeps_step]); the instances are the facts about whole runs: flash is not
    written while it is locked, devices stay where they are, the program counter
    stays even and the trace only grows. *)
From S2P Require Import Prelude Machine MachineFacts Thumb ThumbSafe.

(** A write replaces a device's contents by contents of the same kind, and flash
    only when it is unlocked. *)
Definition body_step (unlocked : bool) (b b' : dev_body) : Prop :=
  match b, b' with
  | Ram _, Ram _ => True
  | Flash _, Flash _ => unlocked = true
  | Unittest _, Unittest _ => True
  | _, _ => False
  end.

Class StepRel (Rel : mcu -> mcu -> Prop) : Prop := {
  sr_refl m : Rel m m;
  sr_trans m1 m2 m3 : Rel m1 m2 -> Rel m2 m3 -> Rel m1 m3;
  sr_reg m r v : reg_ok r = true -> Rel m (mcu_write_reg m r v);
  sr_emit m e : Rel m (emit m e);
  sr_mode m p : Rel m (set_mode m p);
  sr_state m s : Rel m (set_state m s);
  sr_halt_reason m r : Rel m (set_halt_reason m r);
  sr_body m i d b :
    mem_devs m !! i = Some d -> body_step (unlocked m) (body d) b -> Rel m (set_body m i b) }.

Section Keeps.
Context (Rel : mcu -> mcu -> Prop) `{HR : StepRel Rel}.

(** From a machine with [P], [c] only has effects in [Rel], and returns to one
    with [Q]. *)
Definition keeps_on {A} (P : mcu -> Prop) (c : M A) (Q : mcu -> Prop) : Prop :=
  forall m, P m ->
  match c m with Ret _ m' => Rel m m' /\ Q m' | Exited _ m' => Rel m m' | Undef => True end.

Definition anym (m : mcu) : Prop := True.

Definition keeps {A} (c : M A) : Prop := keeps_on anym c anym.

Lemma keeps_on_bind {A B} P Q S (c : M A) (k : A -> M B) :
  keeps_on P c Q -> (forall a, keeps_on Q (k a) S) -> keeps_on P (bind c k) S.
Proof.
  intros Hc Hk m Hm. unfold bind. specialize (Hc m Hm). destruct (c m) as [a m1|n m1|]; [|done|done].
  destruct Hc as [H1 HQ]. specialize (Hk a m1 HQ). destruct (k a m1) as [b m2|n m2|];
    [|by eapply sr_trans|done].
  destruct Hk. split; [by eapply sr_trans|done].
Qed.

Lemma keeps_bind {A B} (c : M A) (k : A -> M B) : keeps c -> (forall a, keeps (k a)) -> keeps (bind c k).
Proof. apply keeps_on_bind. Qed.

Lemma keeps_on_ret {A} P (a : A) : keeps_on P (ret a) P.
Proof. intros m Hm. split; [apply sr_refl|done]. Qed.

Lemma keeps_ret {A} (a : A) : keeps (ret a).
Proof. apply keeps_on_ret. Qed.

Lemma keeps_gets {A} (f : mcu -> A) : keeps (gets f).
Proof. intros m Hm. split; [apply sr_refl|done]. Qed.

Lemma keeps_on_modify P Q (f : mcu -> mcu) :
  (forall m, P m -> Rel m (f m) /\ Q (f m)) -> keeps_on P (modify f) Q.
Proof. intros Hf m Hm. by apply Hf. Qed.

Lemma keeps_on_if {A} P Q (b : bool) (c1 c2 : M A) :
  keeps_on P c1 Q -> keeps_on P c2 Q -> keeps_on P (if b then c1 else c2) Q.
Proof. by destruct b. Qed.

Lemma keeps_weaken {A} P (c : M A) Q : (forall m, P m) -> keeps_on P c Q -> keeps c.
Proof. intros HP Hc m _. specialize (Hc m (HP m)). destruct (c m); [|done|done]. split; [apply Hc|done]. Qed.

Lemma keeps_rd r : keeps (rd r).
Proof. intros m _. unfold rd. destruct (reg_ok r); [|done]. split; [apply sr_refl|done]. Qed.

Lemma keeps_wr r v : keeps (wr r v).
Proof. intros m _. unfold wr. destruct (reg_ok r) eqn:E; [|done]. split; [by apply sr_reg|done]. Qed.

Lemma rel_halt m reason : Rel m (mcu_halt m reason).
Proof.
  unfold mcu_halt. destruct (mcu_is_halted m); [apply sr_refl|].
  set (m1 := emit _ EvIdleStop).
  assert (Rel m m1) as H1.
  { unfold m1. eapply sr_trans; [apply sr_state|]. eapply sr_trans; [apply sr_halt_reason|apply sr_emit]. }
  clearbody m1. generalize (callbacks m1). intros cbs. revert m1 H1.
  induction cbs as [|cb cbs IH]; intros m1 H1; simpl; [done|].
  apply IH. destruct (has_did_halt cb); [|done]. eapply sr_trans; [done|apply sr_emit].
Qed.

Lemma keeps_halt reason : keeps (halt reason).
Proof. apply keeps_on_modify. intros m _. split; [apply rel_halt|done]. Qed.

Lemma rel_reset m : Rel m (snd (mcu_reset m)).
Proof.
  unfold mcu_reset. destruct (mcu_fetch32 m 0) as [v|]; [|apply sr_refl].
  assert (Rel m (mcu_write_reg m REG_SP v)) by by apply sr_reg.
  destruct (mcu_fetch32 _ 4) as [w|]; [|done]. case_match; [done|]. simpl.
  eapply sr_trans; [|by apply sr_reg]. eapply sr_trans; [|apply sr_mode].
  eapply sr_trans; [done|by apply sr_reg].
Qed.

(** *** Writes to the bus *)

(** Device [i] is a test device: what its own writes keep true. *)
Definition is_unittest (i : nat) (m : mcu) : Prop :=
  exists d u, mem_devs m !! i = Some d /\ body d = Unittest u.

Lemma is_unittest_devs i m m' : mem_devs m' = mem_devs m -> is_unittest i m -> is_unittest i m'.
Proof. unfold is_unittest. by intros ->. Qed.

Lemma write_reg_devs m r v : mem_devs (mcu_write_reg m r v) = mem_devs m.
Proof. unfold mcu_write_reg. repeat case_match; done. Qed.

Lemma reset_devs m : mem_devs (snd (mcu_reset m)) = mem_devs m.
Proof.
  unfold mcu_reset. repeat (case_match; simpl; rewrite ?write_reg_devs; try done).
Qed.

Lemma keeps_set_unittest i u : keeps_on (is_unittest i) (set_unittest i u) (is_unittest i).
Proof.
  apply keeps_on_modify. intros m (d & u' & Hd & Hb). split.
  - eapply sr_body; [exact Hd|]. by rewrite Hb.
  - exists (mk_dev (dev_class d) (dev_type d) (offset d) (dev_length d) (Unittest u)), u. split; [|done].
    simpl. by rewrite list_lookup_alter_eq, Hd.
Qed.

Lemma keeps_progress i : keeps_on (is_unittest i) unittest_update_progress (is_unittest i).
Proof. apply keeps_on_modify. intros m Hm. split; [apply sr_emit|exact Hm]. Qed.

Lemma keeps_reset i : keeps_on (is_unittest i) reset_ignored (is_unittest i).
Proof.
  apply keeps_on_modify. intros m Hm. split; [apply rel_reset|].
  eapply is_unittest_devs; [apply reset_devs|done].
Qed.

Lemma keeps_done i u : keeps_on (is_unittest i) (unittest_done u) (is_unittest i).
Proof. intros m Hm. apply sr_refl. Qed.

Lemma keeps_on_gets {A} P (f : mcu -> A) : keeps_on P (gets f) P.
Proof. intros m Hm. split; [apply sr_refl|done]. Qed.

Create HintDb keeps.
Hint Resolve keeps_set_unittest keeps_progress keeps_reset keeps_done keeps_on_ret keeps_on_gets : keeps.

Ltac keeps_unittest :=
  repeat first [ apply keeps_on_if | solve [auto with keeps]
               | eapply keeps_on_bind; [solve [auto with keeps]|intros ?] ].

Lemma keeps_unittest_write i u addr v :
  keeps_on (is_unittest i) (unittest_dev_write32 i u addr v) (is_unittest i).
Proof. unfold unittest_dev_write32, unittest_write_status. keeps_unittest. Qed.

(** A write to the device found at [i] with contents [b]. *)
Definition has_body (i : nat) (b : dev_body) (m : mcu) : Prop :=
  exists d, mem_devs m !! i = Some d /\ body d = b.

Lemma keeps_ram i h h' : keeps_on (has_body i (Ram h))
  (run! modify (fun m => set_body m i (Ram h')) in ret true) anym.
Proof.
  intros m (d & Hd & Hb). simpl. split; [|done]. eapply sr_body; [exact Hd|]. by rewrite Hb.
Qed.

Lemma keeps_flash i h h' : keeps_on (has_body i (Flash h))
  (let! u := gets mcu_is_unlocked in
   if negb u then ret false else run! modify (fun m => set_body m i (Flash h')) in ret true) anym.
Proof.
  intros m (d & Hd & Hb). unfold bind, gets, mcu_is_unlocked. destruct (unlocked m) eqn:E; simpl.
  - split; [|done]. eapply sr_body; [exact Hd|]. by rewrite Hb, E.
  - split; [apply sr_refl|done].
Qed.

Lemma keeps_dev_write32 i d addr v : keeps_on (has_body i (body d)) (dev_write32 i d addr v) anym.
Proof.
  unfold dev_write32. destruct (body d) as [h|h| |u]; [apply keeps_ram|apply keeps_flash| |].
  - intros m _. unfold uart_dev_write32. destruct (addr =? 0); simpl; (split; [|done]);
      [apply sr_emit|apply sr_refl].
  - intros m (d' & Hd & Hb). pose proof (keeps_unittest_write i u addr v m) as H.
    destruct (unittest_dev_write32 i u addr v m); [|apply H; by exists d', u|done].
    split; [|done]. apply H. by exists d', u.
Qed.

Lemma keeps_dev_write16 i d addr v : keeps_on (has_body i (body d)) (dev_write16 i d addr v) anym.
Proof.
  unfold dev_write16. destruct (body d) as [h|h| |u] eqn:E; [apply keeps_ram|apply keeps_flash| |].
  - intros m _. split; [apply sr_refl|done].
  - unfold mcu_emu_write16. case_match.
    + rewrite <-E. apply keeps_dev_write32.
    + intros m _. split; [apply sr_refl|done].
Qed.

Lemma keeps_write32 addr v : keeps (mcu_write32 addr v).
Proof.
  intros m _. unfold mcu_write32. unfold bind at 1. simpl.
  destruct (find_dev (mem_devs m) addr) as [[i d]|] eqn:E; [|split; [apply sr_refl|done]].
  apply keeps_dev_write32. exists d. by apply find_dev_lookup in E as [? _].
Qed.

Lemma keeps_write16 addr v : keeps (mcu_write16 addr v).
Proof.
  intros m _. unfold mcu_write16. unfold bind at 1. simpl.
  destruct (find_dev (mem_devs m) addr) as [[i d]|] eqn:E; [|split; [apply sr_refl|done]].
  apply keeps_dev_write16. exists d. by apply find_dev_lookup in E as [? _].
Qed.

(** *** Instructions *)

Lemma keeps_flag (f : Z -> Z) : keeps (let! cpsr := rd REG_APSR in wr REG_APSR (f cpsr)).
Proof. apply keeps_bind; [apply keeps_rd|]. intros. apply keeps_wr. Qed.

Lemma keeps_load_reg err reg sp : (forall a, keeps (err a)) -> keeps (load_reg err reg sp).
Proof.
  intros He. apply keeps_bind; [apply keeps_gets|]. intros [v|];
    (apply keeps_bind; [apply keeps_wr || apply He|intros; apply keeps_ret]).
Qed.

Lemma keeps_store_reg err reg sp : (forall a, keeps (err a)) -> keeps (store_reg err reg sp).
Proof.
  intros He. apply keeps_bind; [apply keeps_rd|]. intros v.
  apply keeps_bind; [apply keeps_write32|]. intros []; [apply keeps_ret|].
  apply keeps_bind; [apply He|intros; apply keeps_ret].
Qed.

Lemma keeps_for_regs rs instr body sp :
  (forall reg a, keeps (body reg a)) -> keeps (for_regs rs instr body sp).
Proof.
  intros Hb. revert sp. induction rs as [|r rs IH]; intros sp; simpl; [apply keeps_ret|].
  apply keeps_on_if; [|apply IH]. apply keeps_bind; [apply Hb|]. intros []; [apply IH|apply keeps_ret].
Qed.

Lemma keeps_one_shl n : keeps (one_shl n).
Proof. unfold one_shl. destruct (shift_count n); [apply keeps_ret|by intros m _]. Qed.
Lemma keeps_ones_shl n : keeps (ones_shl_by n).
Proof. unfold ones_shl_by. destruct (shift_count n); [apply keeps_ret|by intros m _]. Qed.

(** One step through an implementation. *)
Ltac keep_step :=
  lazymatch goal with
  | |- keeps (bind _ _) => apply keeps_bind; [|intros ?]
  | |- keeps (ret _) => apply keeps_ret
  | |- keeps (one_shl _) => apply keeps_one_shl
  | |- keeps (ones_shl_by _) => apply keeps_ones_shl
  | |- keeps (rd _) => apply keeps_rd
  | |- keeps (wr _ _) => apply keeps_wr
  | |- keeps (halt _) => apply keeps_halt
  | |- keeps (gets _) => apply keeps_gets
  | |- keeps (fetch16 _) => apply keeps_gets
  | |- keeps (fetch32 _) => apply keeps_gets
  | |- keeps (mcu_fetch_error _) => apply keeps_halt
  | |- keeps (mcu_write_error _) => apply keeps_halt
  | |- keeps (no_err _) => apply keeps_ret
  | |- keeps (mcu_write32 _ _) => apply keeps_write32
  | |- keeps (mcu_write16 _ _) => apply keeps_write16
  | |- keeps (mcu_update_nflag _) => apply keeps_flag
  | |- keeps (mcu_update_zflag _) => apply keeps_flag
  | |- keeps (mcu_update_cflag_bit _) => apply keeps_flag
  | |- keeps (mcu_update_vflag_bit _) => apply keeps_flag
  | |- keeps (mcu_update_cflag _ _ _) => apply keeps_flag
  | |- keeps (mcu_update_vflag _ _ _) => apply keeps_flag
  | |- keeps (load_reg _ _ _) => apply keeps_load_reg; intros ?
  | |- keeps (for_regs _ _ (load_reg _) _) => apply keeps_for_regs; intros ? ?; apply keeps_load_reg; intros ?
  | |- keeps (for_regs _ _ (store_reg _) _) => apply keeps_for_regs; intros ? ?; apply keeps_store_reg; intros ?
  | |- keeps (load_byte _ _) => unfold load_byte
  | |- keeps (load_half _ _) => unfold load_half
  | |- keeps (store_byte _ _) => unfold store_byte
  | |- keeps (store_word _ _ _) => unfold store_word
  | |- keeps (store_half _ _ _) => unfold store_half
  | |- keeps (if ?b then _ else _) => destruct b
  | |- keeps (match ?o with Some _ => _ | None => _ end) => destruct o
  end.

Lemma keeps_instrs16 :
  Forall (fun def => forall instr, keeps (impl16 def instr)) mcu_instr16_cortex_m0p.
Proof.
  unfold mcu_instr16_cortex_m0p.
  repeat apply Forall_cons_2; try apply Forall_nil_2; intros instr;
    lazymatch goal with
    | |- keeps (impl16 (?f _) _) => unfold f; cbv beta zeta iota delta [impl16]
    | |- keeps (impl16 ?f _) => unfold f; cbv beta zeta iota delta [impl16]
    end.
  all: repeat keep_step.
Qed.

Lemma keeps_instrs32 : Forall (fun def => forall instr, keeps (impl32 def instr)) mcu_instr32_cortex_m0p.
Proof.
  repeat apply Forall_cons_2; try apply Forall_nil_2; intros instr;
    lazymatch goal with |- keeps (impl32 ?f _) => unfold f; cbv beta zeta iota delta [impl32] end.
  all: repeat first [keep_step | match goal with |- keeps (match ?x with _ => _ end) => destruct x end].
Qed.

Lemma keeps_run_impl c pc : keeps c -> keeps (run_impl c pc).
Proof. intros Hc. unfold run_impl. apply keeps_bind; [done|]. intros []; simpl; repeat keep_step. Qed.

Lemma keeps_step : keeps (mcu_instr_step).
Proof.
  assert (keeps fetch_failed) as Hf by (unfold fetch_failed; repeat keep_step).
  assert (forall pc i, keeps (exec16 pc i)) as H16.
  { intros pc i. unfold exec16. keep_step; [keep_step|].
    destruct (find_instr16 _ i) as [def|] eqn:F; [|repeat keep_step]. apply keeps_run_impl.
    apply find_instr16_in in F as [F _]. pose proof (keeps_instrs16) as H.
    rewrite Forall_forall in H. by apply H. }
  assert (forall pc i, keeps (exec32 pc i)) as H32.
  { intros pc i. unfold exec32. keep_step; [keep_step|].
    destruct (find_instr32 _ i) as [def|] eqn:F; [|by intros m _]. apply keeps_run_impl.
    apply find_instr32_in in F as [F _]. pose proof keeps_instrs32 as H.
    rewrite Forall_forall in H. by apply H. }
  intros m Hm. rewrite instr_step_unfold. cbv zeta.
  destruct (mcu_fetch16 m _) as [lo|]; [|by apply Hf]. destruct (is_thirtytwo lo); [|by apply H16].
  destruct (mcu_fetch16 m _) as [hi|]; [by apply H32|by apply Hf].
Qed.
End Keeps.

(** A machine that steps, or ends, where [m] started. *)
Inductive sim_step (m m' : mcu) : Prop :=
| sim_ret ok : mcu_runloop m = Ret ok m' -> sim_step m m'
| sim_exit n : mcu_runloop m = Exited n m' -> sim_step m m'.

Lemma rel_sim_step Rel `{StepRel Rel} m m' : sim_step m m' -> Rel m m'.
Proof.
  assert (keeps Rel (mcu_runloop)) as Hk.
  { unfold mcu_runloop. apply (keeps_bind Rel); [apply (keeps_gets Rel)|intros h]. destruct (negb h).
    - apply (keeps_step Rel).
    - apply (keeps_ret Rel). }
  specialize (Hk m I). intros [ok E|n E]; rewrite E in Hk; [apply Hk|done].
Qed.

Lemma rel_sim_steps Rel `{StepRel Rel} m m' : steps sim_step m m' -> Rel m m'.
Proof.
  induction 1 as [|m1 m2 m3 H12 _ IH]; [apply sr_refl|].
  eapply sr_trans; [by eapply rel_sim_step|done].
Qed.

(** ** The instances *)

(** Prove the laws that do not touch a field the relation looks at. *)
Ltac frame_laws := try (intros; unfold mcu_write_reg; repeat case_match; done).

(** *** Flash *)

Definition flash_kept (m m' : mcu) : Prop :=
  unlocked m = false ->
  unlocked m' = false /\
  forall i d h, mem_devs m !! i = Some d -> body d = Flash h -> mem_devs m' !! i = Some d.

#[export] Instance flash_kept_rel : StepRel flash_kept.
Proof.
  split; unfold flash_kept; try done.
  - intros m1 m2 m3 H12 H23 Hu. destruct (H12 Hu) as [Hu2 Hd]. destruct (H23 Hu2) as [Hu3 Hd3].
    split; [done|]. intros i d h Hi Hb. eapply Hd3; [by eapply Hd|done].
  - intros m r v _ Hu. rewrite write_reg_devs. split; [|done].
    unfold mcu_write_reg. repeat case_match; done.
  - intros m i d b Hi Hb Hu. split; [done|]. intros j d' h Hj Hh. simpl.
    destruct (Nat.eq_dec i j) as [<-|Hne]; [|by rewrite list_lookup_alter_ne].
    simplify_eq. rewrite Hh, Hu in Hb. by destruct b.
Qed.

(** *** The bus *)

Definition body_kind (b : dev_body) : Z :=
  match b with Ram _ => 0 | Flash _ => 1 | Uart => 2 | Unittest _ => 3 end.

Definition dev_shape (d : mem_dev) : mem_class_t * Z * Z * Z * Z :=
  (dev_class d, dev_type d, offset d, dev_length d, body_kind (body d)).

Definition layout_kept (m m' : mcu) : Prop :=
  dev_shape <$> mem_devs m' = dev_shape <$> mem_devs m /\
  length (regs m') = length (regs m) /\ callbacks m' = callbacks m /\ unlocked m' = unlocked m.

#[export] Instance layout_kept_rel : StepRel layout_kept.
Proof.
  split; unfold layout_kept; try done.
  - intros m1 m2 m3 (-> & -> & -> & ->) (-> & -> & -> & ->). done.
  - intros m r v _. unfold mcu_write_reg. repeat case_match; simpl; rewrite ?length_insert; done.
  - intros m i d b Hi Hb. split; [|done]. simpl. apply list_eq. intros j.
    rewrite !list_lookup_fmap. destruct (Nat.eq_dec i j) as [<-|Hne].
    + assert (body_kind b = body_kind (body d)) as E by (destruct (body d), b; simpl in *; done).
      rewrite list_lookup_alter_eq, Hi. unfold dev_shape. simpl. by rewrite E.
    + by rewrite list_lookup_alter_ne.
Qed.

(** The bus dispatches by shape alone. *)
Lemma find_dev_shape ds ds' addr :
  dev_shape <$> ds' = dev_shape <$> ds ->
  fst <$> find_dev ds' addr = fst <$> find_dev ds addr.
Proof.
  revert ds'. induction ds as [|d ds IH]; intros [|d' ds'] H; simpl in *; try done.
  injection H as Hc Ht Ho Hl Hk Hs.
  assert (dev_hit d' addr = dev_hit d addr) as -> by (unfold dev_hit; congruence).
  destruct (dev_hit d addr); [done|]. specialize (IH ds' Hs).
  destruct (find_dev ds' addr) as [[j d1]|], (find_dev ds addr) as [[k d2]|]; simpl in *; congruence.
Qed.

Lemma find_dev_same ds ds' addr i d :
  dev_shape <$> ds' = dev_shape <$> ds -> find_dev ds addr = Some (i, d) -> ds' !! i = Some d ->
  find_dev ds' addr = Some (i, d).
Proof.
  intros Hs Hf Hd. pose proof (find_dev_shape ds ds' addr Hs) as H. rewrite Hf in H. simpl in H.
  destruct (find_dev ds' addr) as [[j d']|] eqn:E; [|done]. simpl in H. simplify_eq.
  apply find_dev_lookup in E as [E _]. congruence.
Qed.

(** *** The trace and the program counter *)

Definition trace_grows (m m' : mcu) : Prop := trace m `prefix_of` trace m'.

#[export] Instance trace_grows_rel : StepRel trace_grows.
Proof.
  split; unfold trace_grows; try done.
  - intros m1 m2 m3. apply transitivity.
  - intros m r v _. unfold mcu_write_reg. repeat case_match; done.
  - intros m e. by apply prefix_app_r.
Qed.

Definition pc_even (m : mcu) : Prop := Z.even (reg_slot m REG_PC) = true.

Lemma even_land_not1 v : Z.even (Z.land v (u32 (Z.lnot 1))) = true.
Proof.
  rewrite <-Z.negb_odd, <-Z.bit0_odd, Z.land_spec. change (Z.testbit (u32 (Z.lnot 1)) 0) with false.
  by rewrite andb_false_r.
Qed.

Lemma slot_write_ne m r v r' :
  reg_ok r = true -> 0 <= r' < 16 -> r <> r' -> r <> REG_SP ->
  reg_slot (mcu_write_reg m r v) r' = reg_slot m r'.
Proof.
  intros Hr Hr' Hne Hsp. apply reg_ok_nonneg in Hr. unfold mcu_write_reg.
  rewrite (proj2 (Z.eqb_neq r REG_SP) Hsp).
  unfold REG_SP in *. repeat case_match; apply reg_slot_set_ne; unfold REG_XPSR; lia.
Qed.

Lemma write_sp_bank m v :
  mcu_write_reg m REG_SP v =
  set_reg_slot m (if truth (Z.land (reg_slot m REG_SP) 0x2) then REG_PSP else REG_MSP) v.
Proof.
  unfold mcu_write_reg. change (REG_SP =? REG_PC) with false. change (REG_SP =? REG_SP) with true.
  cbv iota zeta. destruct (truth _); reflexivity.
Qed.

#[export] Instance pc_even_rel : StepRel (fun m m' => pc_even m -> pc_even m').
Proof.
  split; unfold pc_even; try done; [tauto|]. intros m r v Hr He.
  destruct (Z.eq_dec r REG_PC) as [->|Hne].
  - unfold mcu_write_reg, reg_slot, set_reg_slot. simpl.
    destruct (decide (15 < length (regs m))%nat).
    + rewrite list_lookup_insert_eq by done. apply even_land_not1.
    + rewrite lookup_ge_None_2; [done|]. rewrite length_insert. change (Z.to_nat REG_PC) with 15%nat. lia.
  - destruct (Z.eq_dec r REG_SP) as [->|Hsp]; [|by rewrite slot_write_ne].
    rewrite write_sp_bank. by rewrite reg_slot_set_ne by (repeat case_match; done).
Qed.

(** ** What holds of every run *)

(** C22: while the machine is locked no run of the processor, whatever it executes
    and whatever the devices do, changes a word of flash: reads from an address
    that flash answers give the same value before and after. *)
Theorem locked_flash_kept m m' addr i d h :
  steps sim_step m m' ->
  unlocked m = false ->
  find_dev (mem_devs m) addr = Some (i, d) -> body d = Flash h ->
  unlocked m' = false /\
  mcu_fetch16 m' addr = mcu_fetch16 m addr /\ mcu_fetch32 m' addr = mcu_fetch32 m addr.
Proof.
  intros Hs Hu Hf Hb. pose proof (rel_sim_steps flash_kept m m' Hs Hu) as [Hu' Hk].
  pose proof (rel_sim_steps layout_kept m m' Hs) as (Hl & _).
  pose proof (find_dev_lookup _ _ _ _ Hf) as [Hi _].
  pose proof (find_dev_same _ _ _ _ _ Hl Hf (Hk _ _ _ Hi Hb)) as Hf'.
  unfold mcu_fetch16, mcu_fetch32. by rewrite Hf, Hf'.
Qed.

(** One turn of the run loop from a machine that does not fault there. *)
Definition next (m : mcu) : mcu :=
  match mcu_runloop m with Ret _ m' => m' | Exited _ m' => m' | Undef => m end.

Lemma next_step m : mcu_runloop m <> Undef -> sim_step m (next m).
Proof.
  unfold next. destruct (mcu_runloop m) as [ok m'|n m'|] eqn:E; intros H; [|by eapply sim_exit|done].
  by eapply sim_ret.
Qed.

(** MOVS r0, #16; STR r5, [r0]: a store to flash. *)
Definition store_to_flash : mcu := boot [0x2010; 0x6005].

Lemma store_to_flash_steps :
  steps sim_step store_to_flash (next (next store_to_flash)).
Proof.
  eapply steps_more; [apply next_step; vm_compute; discriminate|].
  eapply steps_more; [apply next_step; vm_compute; discriminate|apply steps_refl].
Qed.

Lemma locked_flash_kept_witness :
  let m := store_to_flash in
  let m' := next (next m) in
  halt_reason m' = HALT_HARD_FAULT /\ mcu_is_halted m' = true /\
  mcu_fetch32 m' 0x10 = mcu_fetch32 m 0x10.
Proof.
  cbv zeta. split; [vm_compute; reflexivity|]. split; [vm_compute; reflexivity|].
  eapply (locked_flash_kept store_to_flash); [apply store_to_flash_steps|lazy; reflexivity..].
Defined.

(** no run of the processor moves, resizes or retypes a device, unlocks the
    flash, adds a halt callback or takes back an observable event, and the program
    counter register, even after a reset, stays even. *)
Theorem run_frame m m' :
  steps sim_step m m' ->
  dev_shape <$> mem_devs m' = dev_shape <$> mem_devs m /\
  callbacks m' = callbacks m /\ unlocked m' = unlocked m /\
  trace m `prefix_of` trace m' /\ (pc_even m -> pc_even m').
Proof.
  intros Hs. pose proof (rel_sim_steps layout_kept m m' Hs) as (? & _ & ? & ?).
  pose proof (rel_sim_steps trace_grows m m' Hs).
  pose proof (rel_sim_steps (fun m m' => pc_even m -> pc_even m') m m' Hs). done.
Qed.

Lemma run_frame_witness :
  let m' := next (next store_to_flash) in
  trace m' = [EvIdleStart; EvIdleStop] /\ unlocked m' = unlocked store_to_flash.
Proof.
  cbv zeta. split; [vm_compute; reflexivity|].
  destruct (run_frame _ _ store_to_flash_steps) as (_ & _ & H & _). exact H.
Defined.

(** *** A failed step *)

Lemma halt_regs m reason : regs (mcu_halt m reason) = regs m.
Proof.
  unfold mcu_halt. destruct (mcu_is_halted m); [done|].
  set (m1 := emit _ EvIdleStop). change (regs m) with (regs m1). clearbody m1.
  generalize (callbacks m1). intros cbs. revert m1.
  induction cbs as [|cb cbs IH]; intros m1; simpl; [done|]. rewrite IH. by case_match.
Qed.

Lemma read_halt m reason r : mcu_read_reg (mcu_halt m reason) r = mcu_read_reg m r.
Proof. unfold mcu_read_reg, reg_slot. by rewrite halt_regs. Qed.

Lemma pc_mask v : in_u 32 v -> Z.even v = true -> Z.land v (u32 (Z.lnot 1)) = v.
Proof.
  intros Hv He. apply Z.bits_inj'. intros i Hi. rewrite Z.land_spec, wrap_testbit, Z.lnot_spec by lia.
  destruct (Z.ltb_spec i 32) as [Hlt|Hge].
  - change 1 with (2 ^ 0). rewrite Z.pow2_bits_eqb by lia. destruct (Z.eqb_spec 0 i) as [<-|].
    + rewrite Z.bit0_odd, <-Z.negb_even, He. done.
    + apply andb_true_r.
  - rewrite (in_u_testbit_high 32) by (done || lia). done.
Qed.

Lemma read_pc m : mcu_read_reg m REG_PC = reg_slot m REG_PC.
Proof. done. Qed.

Lemma write_pc_back m pc :
  length (regs m) = 20%nat -> in_u 32 pc -> Z.even pc = true ->
  mcu_read_reg (mcu_write_reg m REG_PC pc) REG_PC = pc.
Proof.
  intros Hl Hp He. rewrite write_pc, read_pc, reg_slot_set_eq by (rewrite Hl; done). by apply pc_mask.
Qed.

Lemma run_impl_false impl pc m m' :
  keeps layout_kept impl -> length (regs m) = 20%nat -> in_u 32 pc -> Z.even pc = true ->
  run_impl impl pc m = Ret false m' -> mcu_read_reg m' REG_PC = pc.
Proof.
  intros Hk Hl Hp He. unfold run_impl, bind. specialize (Hk m I).
  destruct (impl m) as [[] m1|n m1|]; simpl; [done| |done|done].
  destruct Hk as [(_ & Hl1 & _) _]. intros [= <-]. apply write_pc_back; [by rewrite Hl1|done|done].
Qed.

(** a step that fails, because of a fetch outside the memories, an unknown
    instruction or an implementation that reports an error, leaves the program
    counter at the instruction it failed on. *)
Theorem failed_step_keeps_pc m m' :
  wf_mcu m -> pc_even m -> mcu_instr_step m = Ret false m' ->
  mcu_read_reg m' REG_PC = mcu_read_reg m REG_PC.
Proof.
  intros Hm He. rewrite instr_step_unfold. cbv zeta. pose proof (wf_read m REG_PC Hm) as Hp.
  set (pc := mcu_read_reg m REG_PC) in *. change (Z.even pc = true) in He.
  assert (fetch_failed m = Ret false m' -> mcu_read_reg m' REG_PC = pc) as Hf.
  { intros [= <-]. apply read_halt. }
  assert (forall v, length (regs (mcu_write_reg m REG_PC v)) = 20%nat) as Hl
    by (intros v; rewrite write_pc; simpl; rewrite length_insert; apply Hm).
  destruct (mcu_fetch16 m _) as [lo|]; [|done]. destruct (is_thirtytwo lo).
  - destruct (mcu_fetch16 m _) as [hi|]; [|done]. unfold exec32. rewrite bind_wr by done.
    destruct (find_instr32 _ _) as [def|] eqn:F; [|done]. apply run_impl_false; [|apply Hl|done|done].
    apply find_instr32_in in F as [F _]. pose proof (keeps_instrs32 layout_kept) as H.
    rewrite Forall_forall in H. by apply H.
  - unfold exec16. rewrite bind_wr by done.
    destruct (find_instr16 _ _) as [def|] eqn:F.
    + apply run_impl_false; [|apply Hl|done|done].
      apply find_instr16_in in F as [F _]. pose proof (keeps_instrs16 layout_kept) as H.
      rewrite Forall_forall in H. by apply H.
    + intros [= <-]. rewrite read_halt. by apply write_pc_back.
Qed.

Lemma failed_step_keeps_pc_witness :
  let m := boot [0x4140] in
  exists m', mcu_instr_step m = Ret false m' /\ mcu_read_reg m' REG_PC = mcu_read_reg m REG_PC.
Proof.
  cbv zeta. exists (next (boot [0x4140])).
  assert (mcu_instr_step (boot [0x4140]) = Ret false (next (boot [0x4140])))
    as H by (vm_compute; reflexivity).
  split; [exact H|]. apply (failed_step_keeps_pc); [|reflexivity|exact H].
  apply wf_boot. repeat apply Forall_cons_2; try apply Forall_nil_2; by apply in_u_const.
Defined.
