(* ===== verification/ThumbFlow.v ===== *)
(** * ThumbFlow: decoding, branches and the step around an instruction

    Which entry of the 16-bit table a halfword selects, decided on masks and
    patterns instead of on the 65536 halfwords; the branches against the
    architecture's condition table; whole steps from the halfword in memory. *)
From S2P Require Import Prelude Machine MachineFacts Thumb ThumbSafe ThumbSpec Frame.

(** ** Decoding *)

(** No halfword of the class "[mask] gives [pat]" matches the entry: they differ
    in a bit both masks look at. *)
Definition disjoint (mask pat : Z) (d : mcu_instr16) : bool :=
  truth (Z.land (Z.land (mask16 d) mask) (Z.lxor (instr16 d) pat)).

(** Every halfword of the class matches the entry. *)
Definition covers (mask pat : Z) (d : mcu_instr16) : bool :=
  (Z.land mask (mask16 d) =? mask16 d) && (Z.land pat (mask16 d) =? instr16 d).

(** The entry that all halfwords of a class select. *)
Fixpoint decode_class (t : list mcu_instr16) (mask pat : Z) : option nat :=
  match t with
  | [] => None
  | d :: t' => if disjoint mask pat d then S <$> decode_class t' mask pat
               else if covers mask pat d then Some O else None
  end.

Lemma disjoint_spec mask pat d i :
  disjoint mask pat d = true -> Z.land i mask = pat -> Z.land i (mask16 d) <> instr16 d.
Proof.
  unfold disjoint, truth. intros H <- E. apply negb_true_iff, Z.eqb_neq in H. apply H.
  rewrite <-E. apply Z.bits_inj'. intros j Hj. rewrite !Z.land_spec, Z.lxor_spec, !Z.land_spec, Z.bits_0.
  destruct (Z.testbit i j), (Z.testbit mask j), (Z.testbit (mask16 d) j); done.
Qed.

Lemma covers_spec mask pat d i :
  covers mask pat d = true -> Z.land i mask = pat -> Z.land i (mask16 d) = instr16 d.
Proof.
  unfold covers. intros [Hm%Z.eqb_eq Hp%Z.eqb_eq]%andb_true_iff <-.
  by rewrite <-Hp, <-Z.land_assoc, Hm.
Qed.

Lemma decode_class_spec t mask pat i k :
  decode_class t mask pat = Some k -> Z.land i mask = pat ->
  is_Some (t !! k) /\ find_instr16 t i = t !! k.
Proof.
  revert k. induction t as [|d t IH]; intros k H Hi; simpl in *; [done|].
  destruct (disjoint mask pat d) eqn:Ed.
  - pose proof (disjoint_spec _ _ _ _ Ed Hi) as Hne. rewrite (proj2 (Z.eqb_neq _ _) Hne).
    destruct (decode_class t mask pat) as [k'|]; simplify_eq/=. by apply IH.
  - destruct (covers mask pat d) eqn:Ec; simplify_eq/=.
    rewrite (proj2 (Z.eqb_eq _ _) (covers_spec _ _ _ _ Ec eq_refl)). eauto.
Qed.

Lemma decode_none_spec t mask pat i :
  forallb (disjoint mask pat) t = true -> Z.land i mask = pat -> find_instr16 t i = None.
Proof.
  induction t as [|d t IH]; simpl; [done|]. intros [Ed H]%andb_true_iff Hi.
  rewrite (proj2 (Z.eqb_neq _ _) (disjoint_spec _ _ _ _ Ed Hi)). by apply IH.
Qed.

(** The position the search stops at. *)
Fixpoint find_index (t : list mcu_instr16) (instr : Z) : option nat :=
  match t with
  | [] => None
  | d :: t' => if Z.land instr (mask16 d) =? instr16 d then Some O else S <$> find_index t' instr
  end.

Lemma find_index_lookup t i : find_instr16 t i = (find_index t i ≫= fun k => t !! k).
Proof.
  induction t as [|d t IH]; simpl; [done|]. case_match; [done|]. rewrite IH. by destruct (find_index t i).
Qed.

Lemma find_index_match t i k :
  find_index t i = Some k -> exists d, t !! k = Some d /\ Z.land i (mask16 d) = instr16 d.
Proof.
  revert k. induction t as [|d t IH]; intros k; simpl; [done|].
  destruct (Z.eqb_spec (Z.land i (mask16 d)) (instr16 d)); [intros [= <-]; eauto|].
  destruct (find_index t i) as [k'|] eqn:E; intros H; simplify_eq/=. by apply IH.
Qed.

Lemma find_index_class t mask pat i k :
  decode_class t mask pat = Some k -> Z.land i mask = pat -> find_index t i = Some k.
Proof.
  revert k. induction t as [|d t IH]; intros k H Hi; simpl in *; [done|].
  destruct (disjoint mask pat d) eqn:Ed.
  - rewrite (proj2 (Z.eqb_neq _ _) (disjoint_spec _ _ _ _ Ed Hi)).
    destruct (decode_class t mask pat) as [k'|]; simplify_eq/=. by rewrite (IH k').
  - destruct (covers mask pat d) eqn:Ec; simplify_eq/=.
    by rewrite (proj2 (Z.eqb_eq _ _) (covers_spec _ _ _ _ Ec eq_refl)).
Qed.

(** Entries hidden by an earlier one: ASR(2) by ASR(1), MOV(2) by ADD(1), ROR by
    REVSH and SWI by B(1). *)
Definition dead_entries : list nat := [9; 41; 52; 66]%nat.

(** All entries but those, and MOV(3) of which CPY takes the low registers. *)
Definition live_entries : list nat :=
  filter (fun k => k ∉ (42 :: dead_entries)%nat) (seq 0 74).

(** decoding is unambiguous where it should be: a halfword that matches the
    pattern of a live entry selects this entry, whatever its operand bits. *)
Theorem decode_live k d i :
  k ∈ live_entries -> mcu_instr16_cortex_m0p !! k = Some d ->
  Z.land i (mask16 d) = instr16 d ->
  find_instr16 mcu_instr16_cortex_m0p i = Some d.
Proof.
  intros Hk Hd Hi.
  assert (forallb (fun k => match mcu_instr16_cortex_m0p !! k with
            | Some d => bool_decide (decode_class mcu_instr16_cortex_m0p (mask16 d) (instr16 d) = Some k)
            | None => false end) live_entries = true) as H by (vm_compute; reflexivity).
  rewrite forallb_forall in H. specialize (H k). rewrite <-list_elem_of_In, Hd, bool_decide_eq_true in H.
  rewrite <-Hd. by eapply decode_class_spec; [apply H|].
Qed.

Lemma decode_live_witness :
  find_instr16 mcu_instr16_cortex_m0p 0x4149 = None /\
  find_instr16 mcu_instr16_cortex_m0p 0x4191 = Some instr_SBC.
Proof.
  split; [reflexivity|]. apply (decode_live 53); [by vm_compute; repeat constructor|reflexivity..].
Defined.

(** the dead entries stay dead: no halfword selects ASR(2), MOV(2), ROR or
    SWI, and the shift by register and ADC encodings ASR(2), ROR and ADC have in
    the architecture select nothing. *)
Theorem decode_dead i :
  (forall k, find_index mcu_instr16_cortex_m0p i = Some k -> k ∉ dead_entries) /\
  (Z.land i 0xFFC0 ∈ [0x4100; 0x4140; 0x41C0] -> find_instr16 mcu_instr16_cortex_m0p i = None).
Proof.
  split.
  - intros k Hk Hd. pose proof (find_index_match _ _ _ Hk) as (d & Hd' & Hi).
    assert (forallb (fun k => match mcu_instr16_cortex_m0p !! k with
              | Some d => match decode_class mcu_instr16_cortex_m0p (mask16 d) (instr16 d) with
                          | Some j => negb (Nat.eqb j k) | None => false end
              | None => false end) dead_entries = true) as H by (vm_compute; reflexivity).
    rewrite forallb_forall in H. specialize (H k). rewrite <-list_elem_of_In, Hd' in H. specialize (H Hd).
    destruct (decode_class _ _ _) as [j|] eqn:E; [|done].
    rewrite (find_index_class _ _ _ _ _ E Hi) in Hk. injection Hk as ->. by rewrite Nat.eqb_refl in H.
  - intros H. rewrite !elem_of_cons in H.
    destruct H as [H|[H|[H|H] ] ]; [..|by apply not_elem_of_nil in H];
      (eapply decode_none_spec; [|exact H]; vm_compute; reflexivity).
Qed.

Lemma decode_dead_witness : find_instr16 mcu_instr16_cortex_m0p 0x4148 = None.
Proof. apply decode_dead. vm_compute. right. left. Defined.

(** ** The step around a 16-bit instruction *)

Lemma pc_write_even m v : in_u 32 v -> Z.even v = true ->
  mcu_write_reg m REG_PC v = set_reg_slot m REG_PC v.
Proof. intros Hv He. rewrite write_pc. f_equal. by apply pc_mask. Qed.

Lemma even_add32 a b : Z.even a = true -> Z.even b = true -> Z.even (add32 a b) = true.
Proof.
  intros Ha Hb. unfold add32, wrap.
  rewrite Z.mod_eq by done. rewrite Z.even_sub, Z.even_add, Ha, Hb, Z.even_mul. done.
Qed.

(** What a step does when the halfword at the program counter selects [def]. *)
Lemma step16 m i def :
  wf_mcu m -> pc_even m ->
  mcu_fetch16 m (sub32 (mcu_read_reg m REG_PC) 2) = Some i -> is_thirtytwo i = false ->
  find_instr16 mcu_instr16_cortex_m0p i = Some def ->
  mcu_instr_step m =
  run_impl (impl16 def i) (mcu_read_reg m REG_PC)
    (set_reg_slot m REG_PC (add32 (mcu_read_reg m REG_PC) 2)).
Proof.
  intros Hm He Hf Ht Hd. rewrite instr_step_unfold. cbv zeta. rewrite Hf, Ht. unfold exec16.
  rewrite bind_wr, Hd by done.
  rewrite pc_write_even; [done|apply in_u_add32|by apply even_add32].
Qed.

Lemma set_slot_same m r : wf_mcu m -> 0 <= r < 20 -> set_reg_slot m r (reg_slot m r) = m.
Proof.
  intros Hm Hr. unfold set_reg_slot, reg_slot. destruct m; simpl in *. unfold set_regs. simpl. f_equal.
  apply list_insert_id. destruct Hm as (Hl & _). simpl in Hl.
  destruct (lookup_lt_is_Some_2 regs (Z.to_nat r)) as [v Hv]; [lia|]. by rewrite Hv.
Qed.

(** an instruction no entry matches (ADC and the register forms of ASR and
    ROR among them) stops the machine for the reason
    [HALT_UNKOWN_INSTRUCTION]; registers, flags and memories are as before. *)
Theorem unknown_instruction_halts m i :
  wf_mcu m -> pc_even m ->
  mcu_fetch16 m (sub32 (mcu_read_reg m REG_PC) 2) = Some i -> is_thirtytwo i = false ->
  find_instr16 mcu_instr16_cortex_m0p i = None ->
  mcu_instr_step m = Ret false (mcu_halt m HALT_UNKOWN_INSTRUCTION).
Proof.
  intros Hm He Hf Ht Hd. rewrite instr_step_unfold. cbv zeta. rewrite Hf, Ht. unfold exec16.
  rewrite bind_wr, Hd, bind_wr by done. unfold bind, halt, modify, ret. do 2 f_equal.
  pose proof (wf_read m REG_PC Hm) as Hp.
  rewrite (pc_write_even _ (mcu_read_reg m REG_PC)) by done.
  rewrite pc_write_even; [|apply in_u_add32|by apply even_add32]. rewrite set_reg_slot_twice. by apply set_slot_same.
Qed.

Lemma unknown_instruction_halts_witness :
  mcu_instr_step (boot [0x4148]) = Ret false (mcu_halt (boot [0x4148]) HALT_UNKOWN_INSTRUCTION).
Proof.
  apply (unknown_instruction_halts _ 0x4148); [|reflexivity..].
  apply wf_boot. apply Forall_cons_2; [by apply in_u_const|apply Forall_nil_2].
Defined.

(** A shift by a register without an amount is undefined behaviour on every machine. *)
Lemma reg_shift_undefined m i :
  wf_mcu m -> decoded16 m = Some i -> is_reg_shift i = true -> shift_amount m i = 0 -> mcu_instr_step m = Undef.
Proof.
  intros Hm Hd Hs Ha.
  assert (exists def, (def = instr_LSL2 \/ def = instr_LSR2) /\ find_instr16 mcu_instr16_cortex_m0p i = Some def) as (def & Hdef & Hf).
  { unfold is_reg_shift in Hs. apply orb_true_iff in Hs as [E%Z.eqb_eq|E%Z.eqb_eq].
    - exists instr_LSL2. split; [by left|]. apply (decode_live 37); [by vm_compute; repeat constructor|reflexivity|exact E].
    - exists instr_LSR2. split; [by right|]. apply (decode_live 39); [by vm_compute; repeat constructor|reflexivity|exact E]. }
  unfold decoded16 in Hd. destruct (mcu_fetch16 m (sub32 (mcu_read_reg m REG_PC) 2)) as [lo|] eqn:El; [|done].
  cbn [mbind option_bind] in Hd. destruct (is_thirtytwo lo) eqn:E32; [done|]. injection Hd as ->.
  rewrite instr_step_unfold. cbv zeta. rewrite El, E32. unfold exec16. rewrite bind_wr by done. rewrite Hf.
  pose proof (reg_shift_run def i (mcu_write_reg m REG_PC (add32 (mcu_read_reg m REG_PC) 2)) Hdef) as Hrun.
  rewrite shift_amount_pc, Ha in Hrun. unfold run_impl, bind at 1. rewrite Hrun; [done|].
  apply wf_write; [done|done|apply in_u_add32].
Qed.

(** ** Branches *)

(** [ConditionPassed] of the architecture. *)
Definition condition_passed (cond : Z) (n z c v : bool) : bool :=
  let result :=
    match Z.shiftr cond 1 with
    | 0 => z
    | 1 => c
    | 2 => n
    | 3 => v
    | 4 => c && negb z
    | 5 => eqb n v
    | 6 => eqb n v && negb z
    | _ => true
    end in
  if Z.odd cond then negb result else result.

Definition passed (m : mcu) (cond : Z) : bool :=
  condition_passed cond (flag m N_bit) (flag m Z_bit) (flag m C_bit) (flag m V_bit).

(** The branch target as the value of the program counter register, which is the
    address of the next instruction plus 2. *)
Definition branch_to (m : mcu) (off : Z) : Z := u32 (mcu_read_reg m REG_PC + 4 + off).

Lemma branch_taken_flags m op :
  0 <= op < 13 -> branch_taken op (mcu_read_reg m REG_APSR) = passed m op.
Proof.
  intros Hop. unfold branch_taken, passed.
  change CPSR_N with (Z.shiftl 1 N_bit). change CPSR_Z with (Z.shiftl 1 Z_bit).
  change CPSR_C with (Z.shiftl 1 C_bit). change CPSR_V with (Z.shiftl 1 V_bit).
  rewrite !apsr_flag by (unfold N_bit, Z_bit, C_bit, V_bit; lia).
  assert (op = 0 \/ op = 1 \/ op = 2 \/ op = 3 \/ op = 4 \/ op = 5 \/ op = 6 \/ op = 7 \/ op = 8 \/
          op = 9 \/ op = 10 \/ op = 11 \/ op = 12) as H by lia.
  destruct_or! H; subst op;
    destruct (flag m N_bit), (flag m Z_bit), (flag m C_bit), (flag m V_bit); reflexivity.
Qed.

(** the condition of BLE is tested as "Z set or N equal to V" instead of "Z
    set or N different from V": it agrees with the architecture exactly when Z is
    set, so BLE after a comparison is taken on greater and not on less. *)
Theorem ble_wrong_unless_equal m :
  (branch_taken 0xD (mcu_read_reg m REG_APSR) = passed m 0xD) <-> flag m Z_bit = true.
Proof.
  unfold branch_taken, passed.
  change CPSR_N with (Z.shiftl 1 N_bit). change CPSR_Z with (Z.shiftl 1 Z_bit).
  change CPSR_C with (Z.shiftl 1 C_bit). change CPSR_V with (Z.shiftl 1 V_bit).
  rewrite !apsr_flag by (unfold N_bit, Z_bit, C_bit, V_bit; lia).
  destruct (flag m N_bit), (flag m Z_bit), (flag m C_bit), (flag m V_bit); by vm_compute.
Qed.

Lemma fld_split i k n : 0 <= n -> 0 <= k -> fld i k (Z.ones n) = (i / 2 ^ k) mod 2 ^ n.
Proof. intros. unfold fld. by rewrite Z.land_ones, Z.shiftr_div_pow2. Qed.

Lemma branch_target pc n x : 0 < n < 32 -> in_u n x ->
  add32 (add32 (shl32 (if Z.testbit x (n - 1) then Z.lor x (ones_shl n) else x) 1) (add32 pc 2)) 2
  = u32 (pc + 4 + 2 * sgn n x).
Proof.
  intros Hn Hx. rewrite sign_extend by done. unfold add32, shl32. rewrite Z.shiftl_mul_pow2 by lia.
  wrap_eq.
Qed.

(** The classes of halfwords that are no first half of a 32-bit instruction. *)
Lemma thirtytwo_class i pat :
  Z.land i 0xF000 = pat -> pat <> 0xF000 -> pat <> 0xE000 -> is_thirtytwo i = false.
Proof.
  intros Hi H1 H2. unfold is_thirtytwo.
  assert (Z.land (Z.land i 0xF800) 0xF000 = pat) as E by (rewrite <-Z.land_assoc; exact Hi).
  rewrite !orb_false_iff. split; [split|]; apply Z.eqb_neq; intros E2; rewrite E2 in E; by subst pat.
Qed.

Lemma run_impl_true impl pc m m' : impl m = Ret true m' -> run_impl impl pc m = Ret true m'.
Proof. intros H. unfold run_impl. by erewrite bind_run by exact H. Qed.

Lemma passed_set_pc m v op : passed (set_reg_slot m REG_PC v) op = passed m op.
Proof. unfold passed, flag. by rewrite reg_slot_set_ne. Qed.

Lemma B1_run i m :
  0 <= fld i 8 0xF < 13 ->
  impl16 instr_B1 i m =
  Ret true
    (if passed m (fld i 8 0xF) then
       mcu_write_reg m REG_PC
         (add32 (add32 (shl32 (if truth (Z.land (fld i 0 0xFF) 0x80)
                               then Z.lor (fld i 0 0xFF) (ones_shl 8) else fld i 0 0xFF) 1)
                       (mcu_read_reg m REG_PC)) 2)
     else m).
Proof.
  intros Hop. unfold instr_B1. cbv beta zeta iota delta [impl16]. rewrite !bind_rd by done.
  rewrite (proj2 (Z.ltb_lt _ 0xE)), branch_taken_flags by lia.
  destruct (passed m _); [|done]. by rewrite bind_wr.
Qed.

(** C21: B(1), for every condition but LE, branches when the architecture's
    condition holds, to the next address plus the sign-extended offset, and else
    falls through; a whole step from the halfword in memory, all else unchanged. *)
Theorem branch_refines m i :
  wf_mcu m -> pc_even m ->
  mcu_fetch16 m (sub32 (mcu_read_reg m REG_PC) 2) = Some i ->
  Z.land i 0xF000 = 0xD000 -> fld i 8 0xF < 13 ->
  mcu_instr_step m =
  Ret true (set_reg_slot m REG_PC
              (if passed m (fld i 8 0xF) then branch_to m (2 * i8 (fld i 0 0xFF))
               else u32 (mcu_read_reg m REG_PC + 2))).
Proof.
  intros Hm He Hf Hi Hop. pose proof (wf_read m REG_PC Hm) as Hp.
  destruct (decode_class_spec mcu_instr16_cortex_m0p 0xF000 0xD000 i 10 eq_refl Hi) as [_ Hd].
  erewrite step16; [|done..|by apply (thirtytwo_class _ 0xD000)|exact Hd].
  set (pc := mcu_read_reg m REG_PC) in *. set (m1 := set_reg_slot m REG_PC (add32 pc 2)).
  assert (0 <= fld i 8 0xF) as Hop0 by (apply Z.land_nonneg; by right).
  pose proof (fld_range i 0 8 ltac:(lia)) as Hx. change (Z.ones 8) with 0xFF in Hx.
  rewrite (run_impl_true _ _ _ _ (B1_run i m1 (conj Hop0 Hop))). unfold m1.
  assert (mcu_read_reg m1 REG_PC = add32 pc 2) as Hpc
    by (unfold m1; rewrite read_pc, reg_slot_set_eq; [done|by rewrite len_regs]).
  fold m1. rewrite Hpc. change 0x80 with (Z.shiftl 1 (8 - 1)). rewrite truth_land_bit by lia.
  rewrite branch_target by done.
  assert (passed m1 (fld i 8 0xF) = passed m (fld i 8 0xF)) as -> by apply passed_set_pc.
  destruct (passed m (fld i 8 0xF)); [|done].
  rewrite pc_write_even; [unfold m1; by rewrite set_reg_slot_twice|by apply in_u_wrap|].
  unfold pc. rewrite <-(Z.add_assoc _ 4). apply (even_add32 _ (4 + 2 * _)); [exact He|].
  by rewrite Z.even_add, Z.even_mul.
Qed.

(** BNE +4, then BEQ +4, as the first instruction after a reset. *)
Lemma branch_refines_witness :
  mcu_instr_step (boot [0xD102]) = Ret true (set_reg_slot (boot [0xD102]) REG_PC 0x12) /\
  mcu_instr_step (boot [0xD002]) = Ret true (set_reg_slot (boot [0xD002]) REG_PC 0xC).
Proof.
  split; (etrans;
    [ eapply (branch_refines _ _); [|reflexivity..];
      apply wf_boot, Forall_cons_2; [by apply in_u_const|apply Forall_nil_2]
    | vm_compute; reflexivity ]).
Defined.
