(* ===== verification/Bus.v ===== *)
(** * Bus: memories, registers, reset and run control

    The functional behaviour of [core/mcu.c] and [peripherals/ram.c],
    [peripherals/flash.c]: what a write to the bus changes and what it leaves, the
    views of XPSR, the reset sequence, halting with its callbacks. *)
From S2P Require Import Prelude Machine MachineFacts Thumb ThumbSafe ThumbSpec Frame.

(** ** Memories *)

Lemma set_body_find m i d b addr addr' :
  find_dev (mem_devs m) addr = Some (i, d) -> body_kind b = body_kind (body d) ->
  find_dev (mem_devs (set_body m i b)) addr' =
  match find_dev (mem_devs m) addr' with
  | Some (j, d') =>
      Some (j, if decide (i = j) then mk_dev (dev_class d) (dev_type d) (offset d) (dev_length d) b else d')
  | None => None
  end.
Proof.
  intros Hf Hb. apply find_dev_lookup in Hf as [Hd _]. simpl.
  set (f := fun d : mem_dev => mk_dev _ _ _ _ b). revert i Hd.
  induction (mem_devs m) as [|d0 ds IH]; intros i Hd; [done|]. destruct i as [|i].
  - injection Hd as ->. change (alter f 0%nat (d :: ds)) with (f d :: ds). cbn [find_dev].
    change (dev_hit (f d) addr') with (dev_hit d addr').
    destruct (dev_hit d addr'); [done|]. by destruct (find_dev ds addr') as [[j d']|].
  - change (alter f (S i) (d0 :: ds)) with (d0 :: alter f i ds). cbn [find_dev].
    destruct (dev_hit d0 addr'); [done|]. rewrite (IH i Hd).
    destruct (find_dev ds addr') as [[j d']|]; [|done]. do 2 f_equal.
    destruct (decide (i = j)), (decide (S i = S j)); congruence.
Qed.

(** The memory at the word that holds [addr]. *)
Definition word_slot (d : mem_dev) (addr : Z) : Z := Z.shiftr (addr - offset d) 2.
Definition half_slot (d : mem_dev) (addr : Z) : Z := Z.shiftr (addr - offset d) 1.

Lemma word_at_set_eq h i v : in_u 32 v -> word_at (set_word h i v) i = v.
Proof.
  intros Hv. unfold word_at, set_word. rewrite upd_eq, upd_ne, upd_eq by lia.
  apply Z.bits_inj'. intros j Hj. rewrite Z.lor_spec, wrap_testbit, Z.shiftl_spec by lia.
  destruct (Z.ltb_spec j 16); simpl.
  - rewrite (Z.testbit_neg_r _ (j - 16)) by lia. apply orb_false_r.
  - rewrite wrap_testbit, Z.shiftr_spec by lia. replace (j - 16 + 16) with j by lia.
    destruct (Z.ltb_spec (j - 16) 16); [done|]. simpl. symmetry. apply (in_u_testbit_high 32); [done|lia].
Qed.

Lemma word_at_set_ne h i j v : i <> j -> word_at (set_word h i v) j = word_at h j.
Proof. intros Hij. unfold word_at, set_word. rewrite !upd_ne by lia. done. Qed.

(** How a write to a memory device runs. *)
Definition is_memory (m : mcu) (d : mem_dev) (h : Z -> Z) : Prop :=
  body d = Ram h \/ (body d = Flash h /\ unlocked m = true).

Definition same_body (d : mem_dev) (h : Z -> Z) : dev_body :=
  match body d with Ram _ => Ram h | _ => Flash h end.

Lemma write32_memory m addr v i d h :
  find_dev (mem_devs m) addr = Some (i, d) -> is_memory m d h ->
  mcu_write32 addr v m = Ret true (set_body m i (same_body d (set_word h (word_slot d addr) v))).
Proof.
  intros Hf Hb. unfold mcu_write32, bind at 1, gets. rewrite Hf. unfold dev_write32, same_body.
  destruct Hb as [-> | [-> Hu] ]; [done|]. unfold flash_dev_write32, bind, gets, mcu_is_unlocked.
  by rewrite Hu.
Qed.

Lemma write16_memory m addr v i d h :
  find_dev (mem_devs m) addr = Some (i, d) -> is_memory m d h ->
  mcu_write16 addr v m = Ret true (set_body m i (same_body d (upd h (half_slot d addr) v))).
Proof.
  intros Hf Hb. unfold mcu_write16, bind at 1, gets. rewrite Hf. unfold dev_write16, same_body.
  destruct Hb as [-> | [-> Hu] ]; [done|]. unfold flash_dev_write16, bind, gets, mcu_is_unlocked.
  by rewrite Hu.
Qed.

Lemma fetch32_memory m addr i d h :
  find_dev (mem_devs m) addr = Some (i, d) -> body d = Ram h \/ body d = Flash h ->
  mcu_fetch32 m addr = Some (word_at h (word_slot d addr)).
Proof. intros Hf Hb. unfold mcu_fetch32. rewrite Hf. unfold dev_fetch32. by destruct Hb as [-> | ->]. Qed.

Lemma fetch16_memory m addr i d h :
  find_dev (mem_devs m) addr = Some (i, d) -> body d = Ram h \/ body d = Flash h ->
  mcu_fetch16 m addr = Some (h (half_slot d addr)).
Proof. intros Hf Hb. unfold mcu_fetch16. rewrite Hf. unfold dev_fetch16. by destruct Hb as [-> | ->]. Qed.

(** A memory access another word, or another device, answers. *)
Definition elsewhere (slot : mem_dev -> Z -> Z) (m : mcu) (i : nat) (d : mem_dev) (addr addr' : Z) : Prop :=
  forall j d', find_dev (mem_devs m) addr' = Some (j, d') -> j = i -> slot d addr' <> slot d addr.

Lemma same_body_kind m d h h' : is_memory m d h -> body_kind (same_body d h') = body_kind (body d).
Proof. unfold same_body. by intros [-> | [-> _] ]. Qed.

Lemma same_body_mem d h' : body d <> Uart -> same_body d h' = Ram h' \/ same_body d h' = Flash h'.
Proof. unfold same_body. destruct (body d); auto. Qed.

Lemma is_memory_body m d h : is_memory m d h -> body d = Ram h \/ body d = Flash h.
Proof. intros [?|[? _] ]; auto. Qed.

(** a word written to RAM, or to flash while it is unlocked, is read back at
    the same address; its halves are read little-endian; every address that is
    not in this word reads as before, on this device and on all others; the
    registers are not touched. *)
Theorem write32_read m addr v i d h :
  find_dev (mem_devs m) addr = Some (i, d) -> is_memory m d h -> in_u 32 v ->
  exists m', mcu_write32 addr v m = Ret true m' /\
    mcu_fetch32 m' addr = Some v /\
    (forall addr' i' d', find_dev (mem_devs m) addr' = Some (i', d') -> i' = i ->
       half_slot d addr' = 2 * word_slot d addr -> mcu_fetch16 m' addr' = Some (u16 v)) /\
    (forall addr', elsewhere word_slot m i d addr addr' -> mcu_fetch32 m' addr' = mcu_fetch32 m addr') /\
    regs m' = regs m.
Proof.
  intros Hf Hb Hv. eexists. split; [by apply write32_memory|].
  set (h' := set_word h (word_slot d addr) v).
  pose proof (fun a => set_body_find m i d (same_body d h') addr a Hf (same_body_kind m d h h' Hb)) as Hs.
  set (d2 := mk_dev (dev_class d) (dev_type d) (offset d) (dev_length d) (same_body d h')) in *.
  assert (body d2 = Ram h' \/ body d2 = Flash h') as Hb2.
  { apply same_body_mem. by destruct (is_memory_body _ _ _ Hb) as [-> | ->]. }
  split; [|split; [|split; [|done] ] ].
  - erewrite fetch32_memory; [|rewrite Hs, Hf, decide_True by done; reflexivity|exact Hb2].
    f_equal. by apply word_at_set_eq.
  - intros addr' i' d' Hf' -> Hslot.
    erewrite fetch16_memory; [|rewrite Hs, Hf', decide_True by done; reflexivity|exact Hb2].
    change (half_slot d2 addr') with (half_slot d addr'). rewrite Hslot. unfold h', set_word.
    by rewrite upd_ne, upd_eq by lia.
  - intros addr' He. unfold mcu_fetch32 at 1. rewrite Hs. unfold mcu_fetch32.
    destruct (find_dev (mem_devs m) addr') as [[j d']|] eqn:E; [|done].
    destruct (decide (i = j)) as [<-|]; [|done].
    assert (d' = d) as -> by (apply find_dev_lookup in E as [? _]; apply find_dev_lookup in Hf as [? _]; congruence).
    specialize (He _ _ E eq_refl). change (offset d2) with (offset d). unfold dev_fetch32.
    assert (forall h, ram_dev_read32 h (addr' - offset d) = flash_dev_read32 h (addr' - offset d)) as Hrf by done.
    transitivity (Some (word_at h' (word_slot d addr'))); [by destruct Hb2 as [-> | ->]|].
    unfold h'. rewrite word_at_set_ne by done. by destruct (is_memory_body _ _ _ Hb) as [-> | ->].
Qed.

Lemma write32_read_witness :
  exists m', mcu_write32 0x10000004 0x12345678 board = Ret true m' /\
             mcu_fetch32 m' 0x10000004 = Some 0x12345678 /\ mcu_fetch16 m' 0x10000006 = Some 0x1234.
Proof.
  destruct (write32_read board 0x10000004 0x12345678 2 (mk_dev mem_class_ram 1 0x10000000 8192 (Ram (fun _ => 0)))
              (fun _ => 0)) as (m' & Hw & Hr & _).
  - reflexivity.
  - by left.
  - by apply in_u_const.
  - exists m'. split; [exact Hw|]. split; [exact Hr|].
    unfold mcu_write32, bind, gets in Hw. cbn in Hw. injection Hw as <-. reflexivity.
Defined.

(** while the flash is locked, every write to an address of it, of any width,
    is refused and leaves the machine exactly as it was. *)
Theorem locked_write_refused m addr v i d h :
  find_dev (mem_devs m) addr = Some (i, d) -> body d = Flash h -> unlocked m = false ->
  mcu_write32 addr v m = Ret false m /\ mcu_write16 addr v m = Ret false m /\
  (find_dev (mem_devs m) (Z.land addr (u32 (Z.lnot 1))) = Some (i, d) -> mcu_util_write8 addr v m = Ret false m).
Proof.
  intros Hf Hb Hu.
  assert (forall a w, find_dev (mem_devs m) a = Some (i, d) -> mcu_write16 a w m = Ret false m) as H16.
  { intros a w Ha. unfold mcu_write16, bind at 1, gets. rewrite Ha. unfold dev_write16. rewrite Hb.
    unfold flash_dev_write16, bind, gets, mcu_is_unlocked. by rewrite Hu. }
  split; [|split].
  - unfold mcu_write32, bind at 1, gets. rewrite Hf. unfold dev_write32. rewrite Hb.
    unfold flash_dev_write32, bind, gets, mcu_is_unlocked. by rewrite Hu.
  - by apply H16.
  - intros Ha. unfold mcu_util_write8, bind, gets.
    rewrite (fetch16_memory _ _ _ _ h Ha) by (by right). by apply H16.
Qed.

Lemma locked_write_refused_witness : mcu_write32 0x100 5 board = Ret false board.
Proof. eapply locked_write_refused; reflexivity. Defined.

(** *** Bytes *)

Definition byte_of (h : Z) (addr : Z) : Z := if truth (Z.land addr 1) then Z.shiftr h 8 else Z.land h 0xFF.

(** Replacing one byte of a half. *)
Lemma byte_replace old v (hi : bool) : in_u 16 old -> in_u 8 v ->
  let new := if hi then u16 (Z.lor (Z.land old 0x00FF) (Z.shiftl v 8)) else u16 (Z.lor (Z.land old 0xFF00) (Z.shiftl v 0)) in
  (if hi then Z.shiftr new 8 else Z.land new 0xFF) = v /\
  (if hi then Z.land new 0xFF else Z.shiftr new 8) = (if hi then Z.land old 0xFF else Z.shiftr old 8).
Proof.
  intros Ho Hv. change 0xFF00 with (Z.shiftl (Z.ones 8) 8). change 0xFF with (Z.ones 8).
  assert (forall j, 8 <= j -> Z.testbit v j = false) as Hv8 by (intros; apply (in_u_testbit_high 8); [done|lia]).
  assert (forall j, 16 <= j -> Z.testbit old j = false) as Ho16 by (intros; apply (in_u_testbit_high 16); [done|lia]).
  destruct hi; cbv zeta; split; apply Z.bits_inj'; intros j Hj;
    repeat first [ rewrite Z.land_spec | rewrite Z.lor_spec | rewrite wrap_testbit by lia
                 | rewrite (Z.shiftr_spec _ _ j) by lia | rewrite Z.shiftl_spec by lia
                 | rewrite mask_testbit by lia | rewrite Z.testbit_ones by lia ];
    rewrite ?Z.sub_0_r, ?Z.add_simpl_r.
  all: try (rewrite (Z.testbit_neg_r v (j - 8)) by lia).
  all: repeat match goal with
       | |- context [?a <? ?b] => destruct (Z.ltb_spec a b)
       | |- context [?a <=? ?b] => destruct (Z.leb_spec a b)
       end; try lia.
  all: simpl; rewrite ?andb_true_r, ?andb_false_r, ?orb_false_r; try done.
  all: try (rewrite ?Hv8, ?Ho16 by lia; done).
  - rewrite (Z.testbit_neg_r v (j - 8)) by lia. apply orb_false_r.
  - rewrite Hv8 by lia. apply orb_false_r.
Qed.

Definition half_addr (addr : Z) : Z := Z.land addr (u32 (Z.lnot 1)).

Lemma util_fetch8_memory m addr i d h :
  find_dev (mem_devs m) (half_addr addr) = Some (i, d) -> body d = Ram h \/ body d = Flash h ->
  mcu_util_fetch8 m addr =
  let w := h (half_slot d (half_addr addr)) in
  Some (if truth (Z.land addr 1) then Z.land (Z.shiftr w 8) 0xFF else Z.land w 0xFF).
Proof.
  intros Hf Hb. unfold mcu_util_fetch8. fold (half_addr addr). rewrite (fetch16_memory _ _ _ _ _ Hf Hb).
  destruct (truth _); [done|]. by rewrite Z.shiftr_0_r.
Qed.

(** a byte written by [mcu_util_write8] to RAM or unlocked flash is read back,
    the other byte of its half and every other half of every device keep their
    values. *)
Theorem util_write8_read m addr v i d h :
  find_dev (mem_devs m) (half_addr addr) = Some (i, d) -> is_memory m d h ->
  (forall k, in_u 16 (h k)) -> in_u 8 v ->
  exists m', mcu_util_write8 addr v m = Ret true m' /\
    mcu_util_fetch8 m' addr = Some v /\
    (forall addr', half_addr addr' = half_addr addr -> truth (Z.land addr' 1) <> truth (Z.land addr 1) ->
       mcu_util_fetch8 m' addr' = mcu_util_fetch8 m addr') /\
    (forall addr', elsewhere half_slot m i d (half_addr addr) addr' ->
       mcu_fetch16 m' addr' = mcu_fetch16 m addr') /\
    regs m' = regs m.
Proof.
  intros Hf Hb Hh Hv. set (k := half_slot d (half_addr addr)).
  set (new := if truth (Z.land addr 1) then u16 (Z.lor (Z.land (h k) 0x00FF) (Z.shiftl v 8))
              else u16 (Z.lor (Z.land (h k) 0xFF00) (Z.shiftl v 0))).
  pose proof (is_memory_body _ _ _ Hb) as Hm.
  exists (set_body m i (same_body d (upd h k new))). split.
  { unfold mcu_util_write8, bind at 1, gets. fold (half_addr addr).
    rewrite (fetch16_memory _ _ _ _ _ Hf Hm). by apply write16_memory. }
  destruct (byte_replace (h k) v (truth (Z.land addr 1)) (Hh k) Hv) as [Hnew Hold].
  pose proof (fun a => set_body_find m i d (same_body d (upd h k new)) _ a Hf (same_body_kind m d h _ Hb)) as Hs.
  set (d2 := mk_dev (dev_class d) (dev_type d) (offset d) (dev_length d) (same_body d (upd h k new))) in *.
  assert (body d2 = Ram (upd h k new) \/ body d2 = Flash (upd h k new)) as Hb2
    by (apply same_body_mem; by destruct Hm as [-> | ->]).
  assert (find_dev (mem_devs (set_body m i (same_body d (upd h k new)))) (half_addr addr) = Some (i, d2)) as Hf2
    by (by rewrite Hs, Hf, decide_True).
  assert (in_u 16 new) as Hn16 by (unfold new; destruct (truth _); by apply in_u_wrap).
  assert (forall w, in_u 16 w -> Z.land (Z.shiftr w 8) 0xFF = Z.shiftr w 8) as Hhi.
  { intros w Hw. change 0xFF with (Z.ones 8). rewrite Z.land_ones by lia. apply Z.mod_small.
    rewrite Z.shiftr_div_pow2 by lia. unfold in_u in Hw. split; [apply Z.div_pos; lia|].
    apply Z.div_lt_upper_bound; lia. }
  split; [|split; [|split; [|done] ] ].
  - rewrite (util_fetch8_memory _ _ _ _ _ Hf2 Hb2). change (half_slot d2 (half_addr addr)) with k.
    cbv zeta. rewrite upd_eq, Hhi by done. f_equal. unfold new in *. by destruct (truth _).
  - intros addr' Ha Hne. rewrite <-Ha in Hf, Hf2.
    rewrite (util_fetch8_memory _ _ _ _ _ Hf2 Hb2), (util_fetch8_memory _ _ _ _ _ Hf Hm).
    change (half_slot d2 (half_addr addr')) with (half_slot d (half_addr addr')). rewrite Ha. fold k.
    cbv zeta. rewrite upd_eq. f_equal. unfold new in *.
    destruct (truth (Z.land addr 1)), (truth (Z.land addr' 1)); try done.
    rewrite !Hhi by done. done.
  - intros addr' He. unfold mcu_fetch16 at 1. rewrite Hs. unfold mcu_fetch16.
    destruct (find_dev (mem_devs m) addr') as [[j d']|] eqn:E; [|done].
    destruct (decide (i = j)) as [<-|]; [|done].
    assert (d' = d) as -> by (apply find_dev_lookup in E as [? _]; apply find_dev_lookup in Hf as [? _]; congruence).
    specialize (He _ _ E eq_refl). change (offset d2) with (offset d). unfold dev_fetch16.
    transitivity (Some (upd h k new (half_slot d addr'))); [by destruct Hb2 as [-> | ->]|].
    rewrite upd_ne by done. by destruct Hm as [-> | ->].
Qed.

Definition board_ram : mem_dev := mk_dev mem_class_ram 1 0x10000000 8192 (Ram (fun _ => 0)).

Lemma util_write8_read_witness :
  exists m', mcu_util_write8 0x10000005 0xAB board = Ret true m' /\ mcu_util_fetch8 m' 0x10000005 = Some 0xAB.
Proof.
  destruct (util_write8_read board 0x10000005 0xAB 2 board_ram (fun _ => 0)) as (m' & Hw & Hr & _).
  - reflexivity.
  - by left.
  - intros. by apply in_u_const.
  - by apply in_u_const.
  - exists m'. split; [exact Hw|exact Hr].
Defined.

(** The half that STRB computes: [old] with one byte replaced. *)
Definition strb_half (old reg addr : Z) : Z :=
  if truth (Z.land addr 1) then u16 (Z.lor (Z.land old 0x00FF) (shl32 reg 8))
  else u16 (Z.lor (Z.land old 0xFF00) (Z.land reg 0xFF)).

Lemma strb_half_range old reg addr : in_u 16 (strb_half old reg addr).
Proof. unfold strb_half. destruct (truth _); by apply in_u_wrap. Qed.

(** STRB does not store a byte: it reads the half at the address, replaces the
    byte in it and stores the half as a whole 32-bit word, so that the upper half
    of the word becomes zero, and a byte for the upper half lands in the lower. *)
Theorem strb_stores_word dest addr m i d h :
  reg_ok dest = true ->
  find_dev (mem_devs m) (half_addr addr) = Some (i, d) -> is_memory m d h ->
  let slot := word_slot d (half_addr addr) in
  let half := strb_half (h (half_slot d (half_addr addr))) (mcu_read_reg m dest) addr in
  store_byte dest addr m = Ret true (set_body m i (same_body d (set_word h slot half))) /\
  word_at (set_word h slot half) slot = half /\ half < 2 ^ 16.
Proof.
  intros Hr Hf Hb slot half. pose proof (is_memory_body _ _ _ Hb) as Hm.
  assert (in_u 16 half) as Hh by apply strb_half_range. split; [|split].
  - unfold store_byte, bind at 1, fetch16, gets. change (not32 1) with (u32 (Z.lnot 1)).
    fold (half_addr addr). rewrite (fetch16_memory _ _ _ _ _ Hf Hm). rewrite bind_rd by done.
    fold (strb_half (h (half_slot d (half_addr addr))) (mcu_read_reg m dest) addr). fold half.
    unfold store_word. by erewrite bind_run by by apply write32_memory.
  - apply word_at_set_eq. by apply (in_u_mono 16).
  - apply Hh.
Qed.

(** STRB r2, [r0, #2] over a word of ones in RAM: a correct store would leave
    0xFFABFFFF. *)
Lemma strb_stores_word_witness :
  let m := set_reg_slot (set_body board 2 (Ram (fun _ => 0xFFFF))) 2 0xAB in
  exists m', store_byte 2 0x10000006 m = Ret true m' /\ mcu_fetch32 m' 0x10000004 = Some 0x0000FFAB.
Proof.
  cbv zeta. eexists. split.
  - refine (proj1 (strb_stores_word 2 0x10000006 (set_reg_slot (set_body board 2 (Ram (fun _ => 0xFFFF))) 2 0xAB)
              2 (mk_dev mem_class_ram 1 0x10000000 8192 (Ram (fun _ => 0xFFFF))) (fun _ => 0xFFFF) _ _ _));
      [reflexivity..|by left].
  - vm_compute. reflexivity.
Defined.

(** *** 16-bit access to 32-bit registers *)

Lemma word_addr q b : 0 <= b < 4 -> 4 * q + b = Z.lor (Z.shiftl q 2) b.
Proof.
  intros Hb. replace (4 * q) with (Z.shiftl q 2) by (rewrite Z.shiftl_mul_pow2; lia).
  assert (Z.land (Z.shiftl q 2) b = 0) as E.
  { apply Z.bits_inj'. intros i Hi. rewrite Z.land_spec, Z.shiftl_spec, Z.bits_0 by lia.
    destruct (Z.ltb_spec i 2); [by rewrite Z.testbit_neg_r by lia|].
    rewrite (in_u_testbit_high 2 b); [apply andb_false_r|done|lia]. }
  by rewrite Z.add_nocarry_lxor, Z.lxor_lor.
Qed.

Lemma word_addr_testbit q b i : 0 <= b < 4 -> 0 <= i ->
  Z.testbit (4 * q + b) i = if i <? 2 then Z.testbit b i else Z.testbit q (i - 2).
Proof.
  intros Hb Hi. rewrite word_addr, Z.lor_spec, Z.shiftl_spec by lia. destruct (Z.ltb_spec i 2).
  - by rewrite (Z.testbit_neg_r q) by lia.
  - rewrite (in_u_testbit_high 2 b); [apply orb_false_r|done|lia].
Qed.

Lemma testbit_1 i : 0 <= i -> Z.testbit 1 i = (0 =? i).
Proof. intros. by apply (Z.pow2_bits_eqb 0). Qed.

Lemma testbit_2 i : 0 <= i -> Z.testbit 2 i = (1 =? i).
Proof. intros. by apply (Z.pow2_bits_eqb 1). Qed.

Lemma word_addr_base q b : 0 <= b < 4 -> in_u 30 q ->
  Z.land (4 * q + b) (u32 (Z.lnot 2)) = 4 * q + Z.land b 1.
Proof.
  intros Hb Hq. assert (0 <= Z.land b 1 < 4) as Hb1.
  { rewrite land_1. pose proof (Z.mod_pos_bound b 2 ltac:(lia)). lia. }
  apply Z.bits_inj'. intros i Hi.
  rewrite Z.land_spec, !word_addr_testbit, wrap_testbit, Z.lnot_spec by lia.
  rewrite Z.land_spec, testbit_1, testbit_2 by lia.
  destruct (Z.ltb_spec i 2), (Z.eqb_spec 1 i), (Z.eqb_spec 0 i), (Z.ltb_spec i 32); try lia;
    simpl; rewrite ?andb_false_r, ?andb_true_r; try done.
  symmetry. apply (in_u_testbit_high 30); [done|lia].
Qed.

Lemma word_addr_bit1 q b : 0 <= b < 4 -> Z.land (4 * q + b) 2 = Z.land b 2.
Proof.
  intros Hb. apply Z.bits_inj'. intros i Hi. rewrite !Z.land_spec, word_addr_testbit, testbit_2 by lia.
  destruct (Z.eqb_spec 1 i) as [<-|]; [done|]. by rewrite !andb_false_r.
Qed.

(** a 16-bit read of a device with only 32-bit registers returns the upper
    half at the word's address and the lower half two bytes on, the opposite of
    what the same read of the same word in RAM returns. *)
Theorem emu_fetch16_swapped d q v h :
  in_u 30 q -> dev_fetch32 d (4 * q) = Some v -> ram_dev_read32 h (4 * q) = Some v ->
  (forall k, in_u 16 (h k)) ->
  mcu_emu_fetch16 d (4 * q) = ram_dev_read16 h (4 * q + 2) /\
  mcu_emu_fetch16 d (4 * q + 2) = ram_dev_read16 h (4 * q).
Proof.
  intros Hq Hf Hw Hh.
  pose proof (word_addr_base q 0 ltac:(lia) Hq) as B0. pose proof (word_addr_base q 2 ltac:(lia) Hq) as B2.
  pose proof (word_addr_bit1 q 0 ltac:(lia)) as T0. pose proof (word_addr_bit1 q 2 ltac:(lia)) as T2.
  change (Z.land 0 1) with 0 in B0. change (Z.land 2 1) with 0 in B2. rewrite !Z.add_0_r in *.
  unfold mcu_emu_fetch16, ram_dev_read16. rewrite B0, B2, T0, T2, Hf. cbn [truth negb Z.land Pos.land Z.eqb].
  unfold ram_dev_read32, word_at in Hw. injection Hw as Hw.
  rewrite !Z.shiftr_div_pow2 in * by lia. change (2 ^ 2) with 4 in Hw. change (2 ^ 1) with 2.
  replace (4 * q / 4) with q in Hw by (symmetry; rewrite Z.mul_comm; by apply Z.div_mul).
  replace (4 * q / 2) with (2 * q) by (apply (Z.div_unique _ _ _ 0); lia).
  replace ((4 * q + 2) / 2) with (2 * q + 1) by (apply (Z.div_unique _ _ _ 0); lia).
  rewrite <-!Z.shiftr_div_pow2 by lia. change 0xFFFF with (Z.ones 16).
  split; cbn; f_equal; rewrite <-Hw; apply Z.bits_inj'; intros i Hi;
    rewrite Z.land_spec, Z.shiftr_spec, Z.lor_spec, Z.shiftl_spec, Z.testbit_ones by lia.
  - rewrite (in_u_testbit_high 16 (h (2 * q))) by (done || lia). replace (i + 16 - 16) with i by lia.
    destruct (Z.leb_spec 0 i), (Z.ltb_spec i 16); try lia; simpl; rewrite ?andb_true_r, ?andb_false_r; try done.
    symmetry. by apply (in_u_testbit_high 16).
  - rewrite Z.add_0_r. destruct (Z.leb_spec 0 i), (Z.ltb_spec i 16); try lia; simpl; rewrite ?andb_true_r, ?andb_false_r.
    + rewrite (Z.testbit_neg_r (h (2 * q + 1))) by lia. apply orb_false_r.
    + symmetry. by apply (in_u_testbit_high 16).
Qed.

(** The test device's counter of tests, 5, and the same word in RAM. *)
Lemma emu_fetch16_swapped_witness :
  let d := mk_dev mem_class_io 0xFF 0 SIZE (Unittest (mk_unittest 0 5 0 0 None 0 None)) in
  mcu_emu_fetch16 d (4 * 1) = ram_dev_read16 (upd (fun _ => 0) 2 5) (4 * 1 + 2) /\
  mcu_emu_fetch16 d (4 * 1 + 2) = ram_dev_read16 (upd (fun _ => 0) 2 5) (4 * 1).
Proof.
  cbv zeta. apply (emu_fetch16_swapped _ 1 5); [by apply in_u_const|reflexivity|reflexivity|].
  intros k. apply upd_range; [intros; by apply in_u_0|by apply in_u_const].
Defined.
