(* ===== verification/Control.v ===== *)
(** * Control: register file, reset, halting and the unit test device

    The register file with its views of XPSR, [mcu_reset], [mcu_halt] and
    [mcu_runloop] of [core/mcu.c] and [cortex-m0p/mcu.c], and the protocol of
    [peripherals/unittest.c] as the sequence of status words a firmware reports. *)
From S2P Require Import Prelude Machine MachineFacts Thumb ThumbSafe ThumbSpec Frame.

(** ** The register file *)

(** The registers an instruction or the debugger names. *)
Definition named (r : Z) : bool := ((0 <=? r) && (r <? 16)) || ((REG_APSR <=? r) && (r <=? REG_EPSR)).

(** Where a named register of a well-formed machine lives, and which of the bits
    written to it it keeps. *)
Definition slot_of (r : Z) : Z :=
  if r =? REG_SP then REG_MSP else if r <? 16 then r else REG_XPSR.

Definition kept_bits (r : Z) : Z :=
  if r =? REG_PC then 0xFFFFFFFE
  else if r =? REG_APSR then 0xF0000000
  else if r =? REG_IPSR then 0x1F
  else if r =? REG_EPSR then 0x1000000
  else 0xFFFFFFFF.

Lemma land_ones32 v : in_u 32 v -> Z.land v 0xFFFFFFFF = v.
Proof. intros Hv. change 0xFFFFFFFF with (Z.ones 32). rewrite Z.land_ones by lia. by apply Z.mod_small. Qed.

Lemma named_cases r : named r = true ->
  (0 <= r < 16 /\ r <> REG_SP /\ r <> REG_PC) \/ r = REG_SP \/ r = REG_PC \/
  r = REG_APSR \/ r = REG_IPSR \/ r = REG_EPSR.
Proof.
  unfold named, REG_SP, REG_PC, REG_APSR, REG_IPSR, REG_EPSR.
  rewrite orb_true_iff, !andb_true_iff, !Z.leb_le, Z.ltb_lt. lia.
Qed.

Lemma read_named m r : wf_mcu m -> named r = true ->
  mcu_read_reg m r = if r <? 16 then reg_slot m (slot_of r) else Z.land (reg_slot m REG_XPSR) (kept_bits r).
Proof.
  intros Hm Hr. destruct (named_cases r Hr) as [(H0 & H1 & H2)|[->|[->|[->|[->| ->] ] ] ] ].
  - rewrite read_slot by (unfold reg_count; lia). unfold slot_of.
    rewrite (proj2 (Z.eqb_neq r REG_SP)), (proj2 (Z.ltb_lt r 16)) by lia. done.
  - by apply read_sp.
  - done.
  - done.
  - done.
  - done.
Qed.

Lemma write_named m r v : wf_mcu m -> named r = true -> in_u 32 v ->
  mcu_write_reg m r v =
  set_reg_slot m (slot_of r)
    (if r <? 16 then Z.land v (kept_bits r)
     else Z.lor (Z.land (reg_slot m REG_XPSR) (u32 (Z.lnot (kept_bits r)))) (Z.land v (kept_bits r))).
Proof.
  intros Hm Hr Hv. destruct (named_cases r Hr) as [(H0 & H1 & H2)|[->|[->|[->|[->| ->] ] ] ] ]; try done.
  - rewrite write_slot by (unfold REG_SP, REG_LR, REG_PC, reg_count in *; lia). unfold slot_of, kept_bits.
    unfold REG_PC, REG_APSR, REG_IPSR, REG_EPSR in *.
    repeat match goal with |- context [r =? ?k] => rewrite (proj2 (Z.eqb_neq r k)) by lia end.
    rewrite (proj2 (Z.ltb_lt r 16)) by lia. by rewrite land_ones32.
  - rewrite write_sp by done. change (kept_bits REG_SP) with 0xFFFFFFFF. by rewrite land_ones32.
Qed.

(** Two masks of XPSR. *)
Lemma view_other x v k k' : Z.land k k' = 0 -> in_u 32 k' ->
  Z.land (Z.lor (Z.land x (u32 (Z.lnot k))) (Z.land v k)) k' = Z.land x k'.
Proof.
  intros Hk Hk'. apply Z.bits_inj'. intros i Hi.
  assert (Z.testbit (Z.land k k') i = false) as Hd by (rewrite Hk; apply Z.bits_0).
  rewrite Z.land_spec in Hd.
  rewrite !Z.land_spec, Z.lor_spec, !Z.land_spec, wrap_testbit, Z.lnot_spec by lia.
  destruct (Z.ltb_spec i 32); [|rewrite (in_u_testbit_high 32 k') by (done || lia); by rewrite !andb_false_r].
  destruct (Z.testbit k i), (Z.testbit k' i), (Z.testbit x i), (Z.testbit v i); done.
Qed.

Lemma view_same x v k : in_u 32 k ->
  Z.land (Z.lor (Z.land x (u32 (Z.lnot k))) (Z.land v k)) k = Z.land v k.
Proof.
  intros Hk. apply Z.bits_inj'. intros i Hi.
  rewrite !Z.land_spec, Z.lor_spec, !Z.land_spec, wrap_testbit, Z.lnot_spec by lia.
  destruct (Z.ltb_spec i 32); [|rewrite (in_u_testbit_high 32 k) by (done || lia); by rewrite !andb_false_r].
  destruct (Z.testbit k i), (Z.testbit x i), (Z.testbit v i); done.
Qed.

(** Reading after one write. *)
Lemma write_read m r r' v :
  wf_mcu m -> named r = true -> named r' = true -> in_u 32 v ->
  mcu_read_reg (mcu_write_reg m r v) r' =
  if r' =? r then Z.land v (kept_bits r) else mcu_read_reg m r'.
Proof.
  intros Hm Hr Hr' Hv. pose proof (wf_write m r v Hm) as Hw.
  assert (0 <= r) as H0 by (destruct (named_cases r Hr); unfold REG_SP, REG_PC, REG_APSR, REG_IPSR, REG_EPSR in *; lia).
  specialize (Hw H0 Hv). rewrite (read_named _ r' Hw Hr'), (read_named m r' Hm Hr').
  rewrite (write_named m r v Hm Hr Hv).
  assert (0 <= slot_of r < 20 /\ 0 <= slot_of r' < 20) as [Hs Hs'].
  { unfold slot_of, REG_SP, REG_MSP, REG_XPSR.
    destruct (named_cases r Hr), (named_cases r' Hr'); repeat case_match;
      unfold REG_SP, REG_PC, REG_APSR, REG_IPSR, REG_EPSR in *; lia. }
  assert (forall w, reg_slot (set_reg_slot m (slot_of r) w) (slot_of r) = w) as He
    by (intros; apply reg_slot_set_eq; rewrite len_regs; done).
  assert (forall w s, 0 <= s -> s <> slot_of r -> reg_slot (set_reg_slot m (slot_of r) w) s = reg_slot m s) as Hn
    by (intros; apply reg_slot_set_ne; lia).
  destruct (Z.ltb_spec r 16) as [Hlt|Hge]; destruct (Z.ltb_spec r' 16) as [Hlt'|Hge'].
  - destruct (Z.eqb_spec r' r) as [->|Hne]; [apply He|apply Hn; [lia|]].
    unfold slot_of, REG_SP, REG_MSP. rewrite (proj2 (Z.ltb_lt r 16)), (proj2 (Z.ltb_lt r' 16)) by lia.
    destruct (Z.eqb_spec r 13), (Z.eqb_spec r' 13); lia.
  - destruct (Z.eqb_spec r' r) as [->|Hne]; [lia|]. rewrite Hn; [done|done|].
    unfold slot_of, REG_SP, REG_MSP, REG_XPSR. rewrite (proj2 (Z.ltb_lt r 16)) by lia. case_match; lia.
  - destruct (Z.eqb_spec r' r) as [->|Hne]; [lia|]. apply Hn; [lia|].
    unfold slot_of, REG_SP, REG_MSP, REG_XPSR. rewrite (proj2 (Z.ltb_lt r' 16)), (proj2 (Z.ltb_ge r 16)) by lia.
    destruct (Z.eqb_spec r 13), (Z.eqb_spec r' 13); lia.
  - assert (slot_of r = REG_XPSR) as E.
    { unfold slot_of, REG_SP. rewrite (proj2 (Z.ltb_ge r 16)) by lia. destruct (Z.eqb_spec r 13); [lia|done]. }
    rewrite E in He |- *. rewrite He.
    destruct (named_cases r Hr) as [(?&?)|[->|[->|Hc] ] ]; [lia|unfold REG_SP in *; lia|unfold REG_PC in *; lia|].
    destruct (named_cases r' Hr') as [(?&?)|[->|[->|Hc'] ] ]; [lia|unfold REG_SP in *; lia|unfold REG_PC in *; lia|].
    destruct_or! Hc; destruct_or! Hc'; subst r r';
      (apply view_same; by apply in_u_const) || (apply view_other; [done|by apply in_u_const]).
Qed.

Definition write_all (ws : list (Z * Z)) (m : mcu) : mcu :=
  foldl (fun m w => mcu_write_reg m w.1 w.2) m ws.

(** The value last written to [r]. *)
Definition note_write (r : Z) (acc : option Z) (w : Z * Z) : option Z :=
  if w.1 =? r then Some w.2 else acc.
Definition last_write (ws : list (Z * Z)) (r : Z) : option Z := foldl (note_write r) None ws.

Lemma last_write_acc (ws : list (Z * Z)) r acc :
  foldl (note_write r) acc ws =
  match last_write ws r with Some v => Some v | None => acc end.
Proof.
  unfold last_write. revert acc. induction ws as [|w ws IH]; intros acc; simpl; [done|].
  rewrite IH, (IH (note_write r None w)). unfold note_write at 2 4.
  by destruct (foldl _ _ _), (w.1 =? r).
Qed.

(** the registers behave as separate cells: after any sequence of writes a
    named register reads as the value last written to it, less the bits it does
    not keep (bit 0 of the program counter, the bits outside a view of XPSR), or
    as before when none was; the views of XPSR do not disturb each other. *)
Theorem register_file (ws : list (Z * Z)) m r :
  wf_mcu m -> Forall (fun w => named w.1 = true /\ in_u 32 w.2) ws -> named r = true ->
  mcu_read_reg (write_all ws m) r =
  match last_write ws r with Some v => Z.land v (kept_bits r) | None => mcu_read_reg m r end.
Proof.
  intros Hm Hws Hr. revert m Hm. induction Hws as [|[r0 v0] ws [Hr0 Hv0] _ IH]; intros m Hm; [done|].
  cbn [fst snd] in *. unfold write_all, last_write in *. cbn [foldl fst snd].
  assert (0 <= r0) as H0 by (destruct (named_cases r0 Hr0);
    unfold REG_SP, REG_PC, REG_APSR, REG_IPSR, REG_EPSR in *; lia).
  rewrite IH by by apply wf_write.
  rewrite (last_write_acc ws r (note_write r None (r0, v0))). fold (last_write ws r). unfold note_write. cbn [fst snd]. destruct (last_write ws r) as [v|]; [done|].
  rewrite write_read by done. destruct (Z.eqb_spec r r0) as [->|Hne].
  - by rewrite Z.eqb_refl.
  - by rewrite (proj2 (Z.eqb_neq r0 r)) by done.
Qed.

Lemma register_file_witness :
  mcu_read_reg (write_all [(REG_APSR, 0xFFFFFFFF); (3, 5); (REG_PC, 7); (3, 6)] board) 3 = 6 /\
  mcu_read_reg (write_all [(REG_APSR, 0xFFFFFFFF); (3, 5); (REG_PC, 7); (3, 6)] board) REG_EPSR = 0.
Proof.
  split; (etrans; [apply register_file;
    [apply wf_board|repeat apply Forall_cons_2; try apply Forall_nil_2;
       (split; [reflexivity|by apply in_u_const])|reflexivity]|reflexivity]).
Defined.

(** ** Reset *)

Lemma fetch32_write_reg m r v a : mcu_fetch32 (mcu_write_reg m r v) a = mcu_fetch32 m a.
Proof. unfold mcu_fetch32. by rewrite write_reg_devs. Qed.

Lemma clear_bit0 w : in_u 32 w -> Z.odd w = true -> Z.land w 0xFFFFFFFE = w - 1.
Proof.
  intros Hw Ho. assert (forall i, 0 <= i -> Z.testbit 1 i = (0 =? i)) as H1
    by (intros; by apply (Z.pow2_bits_eqb 0)).
  rewrite Z.sub_nocarry_ldiff.
  - change 0xFFFFFFFE with (u32 (Z.lnot 1)). apply Z.bits_inj'. intros i Hi.
    rewrite Z.land_spec, Z.ldiff_spec, wrap_testbit, Z.lnot_spec by lia.
    destruct (Z.ltb_spec i 32); [done|]. by rewrite (in_u_testbit_high 32 w) by (done || lia).
  - apply Z.bits_inj'. intros i Hi. rewrite Z.ldiff_spec, H1, Z.bits_0 by done.
    destruct (Z.eqb_spec 0 i) as [<-|]; [|done]. by rewrite Z.bit0_odd, Ho.
Qed.

(** The first fetch after a reset with the entry point [pc]. *)
Lemma entry_fetch pc : in_u 32 pc -> Z.odd pc = true ->
  sub32 (Z.land (u32 (pc + 2)) 0xFFFFFFFE) 2 = pc - 1.
Proof.
  intros Hp Ho. rewrite clear_bit0.
  - unfold sub32. rewrite <-(wrap_id 32 (pc - 1)); [wrap_eq|].
    apply Z.odd_spec in Ho as [k ->]. unfold in_u in *. lia.
  - by apply in_u_wrap.
  - unfold wrap. rewrite Z.mod_eq, Z.odd_sub, Z.odd_add, Z.odd_mul, Ho by done. done.
Qed.

(** a reset reads the stack pointer and the entry point from the first two
    words of memory.  When both can be read and the entry point is odd (Thumb),
    the processor is in thread mode with the T bit set, SP holds the first word,
    the next fetch is from the entry point, and r0 to r12, LR and memory are as
    before; else the reset reports a failure. *)
Theorem reset_spec m sp pc :
  wf_mcu m -> mcu_fetch32 m 0 = Some sp -> mcu_fetch32 m 4 = Some pc ->
  fst (mcu_reset m) = Z.odd pc /\
  (Z.odd pc = true ->
   let m' := snd (mcu_reset m) in
   mcu_read_reg m' REG_SP = sp /\ sub32 (mcu_read_reg m' REG_PC) 2 = pc - 1 /\
   mcu_read_reg m' REG_EPSR = 0x1000000 /\ processor_mode m' = processor_thread_mode /\
   (forall r, 0 <= r < 13 \/ r = REG_LR -> mcu_read_reg m' r = mcu_read_reg m r) /\
   mem_devs m' = mem_devs m).
Proof.
  intros Hm Hsp Hpc. pose proof (fetch32_range _ _ _ Hm Hsp) as Rsp. pose proof (fetch32_range _ _ _ Hm Hpc) as Rpc.
  unfold mcu_reset. rewrite Hsp, fetch32_write_reg, Hpc, land_1.
  rewrite Zmod_odd. destruct (Z.odd pc) eqn:Eo; [|done]. change (1 =? 0) with false. split; [done|]. intros _. cbv zeta. cbn [snd].
  set (m1 := mcu_write_reg m REG_SP sp). set (m2 := mcu_write_reg m1 REG_PC (u32 (pc + 2))).
  set (m3 := set_mode m2 processor_thread_mode).
  assert (wf_mcu m1) as H1 by (by apply wf_write).
  assert (wf_mcu m2) as H2 by (by apply wf_write; [| |apply in_u_wrap]).
  assert (wf_mcu m3) as H3 by (by apply (wf_devs m2); [| |apply H2]).
  assert (forall r, named r = true -> mcu_read_reg (mcu_write_reg m3 REG_EPSR (Z.shiftl 1 24)) r =
            if r =? REG_EPSR then 0x1000000
            else if r =? REG_PC then Z.land (u32 (pc + 2)) 0xFFFFFFFE
            else if r =? REG_SP then sp else mcu_read_reg m r) as Hread.
  { intros r Hr. rewrite write_read by (done || by apply in_u_const).
    destruct (r =? REG_EPSR); [done|]. change (mcu_read_reg m3 r) with (mcu_read_reg m2 r).
    unfold m2. rewrite write_read by (done || by apply in_u_wrap).
    destruct (r =? REG_PC); [done|]. unfold m1. rewrite write_read by done.
    destruct (r =? REG_SP); [by apply land_ones32|done]. }
  split; [by apply Hread|]. split; [|split; [by apply Hread|split; [done|split] ] ].
  - rewrite Hread by done. change (REG_PC =? REG_EPSR) with false. change (REG_PC =? REG_PC) with true.
    cbv iota. by apply entry_fetch.
  - intros r Hr. rewrite Hread; unfold named, REG_EPSR, REG_PC, REG_SP, REG_LR in *.
    + repeat match goal with |- context [r =? ?k] => destruct (Z.eqb_spec r k); [lia|] end. done.
    + destruct Hr as [Hr| ->]; [|done]. by rewrite (proj2 (Z.leb_le 0 r)), (proj2 (Z.ltb_lt r 16)) by lia.
  - rewrite write_reg_devs. change (mem_devs m3) with (mem_devs m2). unfold m2, m1. by rewrite !write_reg_devs.
Qed.

(** A board whose flash starts with the vectors 0x10001000 and 0x9. *)
Lemma reset_spec_witness :
  let m' := snd (mcu_reset (boot [])) in
  mcu_read_reg m' REG_SP = 0x10001000 /\ sub32 (mcu_read_reg m' REG_PC) 2 = 8.
Proof.
  cbv zeta. destruct (reset_spec (boot []) 0x10001000 9) as [_ H]; [apply wf_boot; constructor|reflexivity..|].
  specialize (H eq_refl). cbv zeta in H. destruct H as (H1 & H2 & _). split; [exact H1|exact H2].
Defined.

(** ** Halting *)

(** The callbacks with a [mcu_did_halt], in the order they are called. *)
Definition halt_events (m : mcu) (reason : Z) : list event :=
  EvIdleStop ::
  ((fun cb => EvDidHalt (context cb) reason) <$> filter (fun cb => has_did_halt cb = true) (callbacks m)).

Lemma foldl_halt cbs reason m :
  foldl (fun m cb => if has_did_halt cb then emit m (EvDidHalt (context cb) reason) else m) m cbs =
  mk_mcu (mem_devs m) (regs m) (processor_mode m) (state m) (halt_reason m) (callbacks m) (unlocked m)
    (trace m ++ ((fun cb => EvDidHalt (context cb) reason) <$> filter (fun cb => has_did_halt cb = true) cbs)).
Proof.
  revert m. induction cbs as [|cb cbs IH]; intros m; simpl.
  - rewrite app_nil_r. by destruct m.
  - rewrite IH, filter_cons. destruct (has_did_halt cb) eqn:E; [rewrite decide_True by done|rewrite decide_False by done].
    + simpl. by rewrite <-app_assoc.
    + done.
Qed.

(** halting a running machine stops it for the given reason and calls each
    registered [mcu_did_halt] once with this reason, last registered first;
    nothing else changes.  Halting again does nothing, and the run loop of a
    halted machine does not execute an instruction. *)
Theorem halt_once m reason reason' :
  mcu_is_halted m = false ->
  let m' := mcu_halt m reason in
  m' = mk_mcu (mem_devs m) (regs m) (processor_mode m) mcu_halted reason (callbacks m) (unlocked m)
         (trace m ++ halt_events m reason) /\
  mcu_halt m' reason' = m' /\ mcu_runloop m' = Ret true m'.
Proof.
  intros Hr m'.
  assert (m' = mk_mcu (mem_devs m) (regs m) (processor_mode m) mcu_halted reason (callbacks m) (unlocked m)
         (trace m ++ halt_events m reason)) as E.
  { unfold m', mcu_halt. rewrite Hr, foldl_halt. simpl. by rewrite <-app_assoc. }
  rewrite E. split; [done|]. split; reflexivity.
Qed.

Lemma halt_once_witness :
  let m := mcu_add_callbacks (mcu_add_callbacks (boot []) (mk_callbacks true 1)) (mk_callbacks true 2) in
  trace (mcu_halt m HAL_TRAP) = [EvIdleStart; EvIdleStop; EvDidHalt 2 5; EvDidHalt 1 5] /\
  mcu_halt (mcu_halt m HAL_TRAP) HALT_SLEEP = mcu_halt m HAL_TRAP.
Proof.
  cbv zeta. split; [vm_compute; reflexivity|].
  refine (proj1 (proj2 (halt_once _ HAL_TRAP HALT_SLEEP _))). reflexivity.
Defined.

(** ** The unit test protocol *)

Definition is_final (st : Z) : bool := (st =? STATUS_SKIPPED) || (st =? STATUS_PASSED) || (st =? STATUS_FAILED).
Definition count (x : Z) (sts : list Z) : Z := Z.of_nat (length (filter (fun st => st = x) sts)).

Lemma count_cons x st sts : count x (st :: sts) = (if st =? x then 1 else 0) + count x sts.
Proof.
  unfold count. rewrite filter_cons. destruct (Z.eqb_spec st x); [rewrite decide_True by done|by rewrite decide_False].
  simpl. lia.
Qed.

(** The firmware writes a status to device [i]. *)
Definition report (i : nat) (st : Z) : M bool :=
  let! ds := gets mem_devs in
  match ds !! i with Some d => dev_write32 i d STATUS_OFFSET st | None => ret false end.

Fixpoint report_all (i : nat) (sts : list Z) : M unit :=
  match sts with
  | [] => ret tt
  | st :: sts' => run! report i st in report_all i sts'
  end.

Lemma i32_id x : 0 <= x < 2 ^ 31 -> i32 x = x.
Proof. intros. apply sgn_id; simpl; lia. Qed.

(** The state of the test device after a final status, before the next test. *)
Definition after_status (u : unittest_dev) (st : Z) : unittest_dev :=
  mk_unittest (current_test u + 1) (total_tests u)
    (if st =? STATUS_SKIPPED then tests_skipped u + 1 else tests_skipped u)
    (if st =? STATUS_FAILED then tests_failed u + 1 else tests_failed u) (desc u) st (status_desc u).

Lemma final_cases st : is_final st = true -> st = STATUS_SKIPPED \/ st = STATUS_PASSED \/ st = STATUS_FAILED.
Proof. unfold is_final. rewrite !orb_true_iff, !Z.eqb_eq. tauto. Qed.

Lemma write_status_run i u st m :
  is_final st = true -> 0 <= current_test u < 2 ^ 31 - 1 ->
  0 <= tests_skipped u < 2 ^ 31 - 1 -> 0 <= tests_failed u < 2 ^ 31 - 1 ->
  exists m1 u2, mem_devs m1 = mem_devs (set_body (set_body m i (Unittest u2)) i (Unittest (after_status u st))) /\
  unittest_dev_write32 i u STATUS_OFFSET st m =
    (if current_test u + 1 <? total_tests u then
       run! set_unittest i (mk_unittest (current_test u + 1) (total_tests u) (tests_skipped (after_status u st))
              (tests_failed (after_status u st)) None st (status_desc u)) in
       run! reset_ignored in ret true
     else unittest_done (after_status u st)) m1.
Proof.
  intros Hst Hc Hs Hf. unfold unittest_dev_write32.
  change (STATUS_OFFSET =? CURRENT_TEST_OFFSET) with false. change (STATUS_OFFSET =? TOTAL_TESTS_OFFSET) with false.
  change (STATUS_OFFSET =? DESC) with false. change (STATUS_OFFSET =? STATUS_OFFSET) with true. cbv iota.
  unfold unittest_write_status. cbv zeta. cbn [current_test total_tests tests_skipped tests_failed desc status status_desc].
  rewrite (i32_id (current_test u + 1)), (i32_id (tests_skipped u + 1)), (i32_id (tests_failed u + 1)) by lia.
  fold (is_final st). rewrite Hst.
  destruct (final_cases st Hst) as [->|[->| ->] ]; eexists _, _; (split; [|reflexivity]); reflexivity.
Qed.

Definition test_device (i : nat) (m : mcu) (u : unittest_dev) : Prop :=
  exists d, mem_devs m !! i = Some d /\ body d = Unittest u.

Lemma test_device_set i m u u' : test_device i m u -> test_device i (set_body m i (Unittest u')) u'.
Proof.
  intros (d & Hd & _). exists (mk_dev (dev_class d) (dev_type d) (offset d) (dev_length d) (Unittest u')).
  split; [|reflexivity]. simpl. by rewrite list_lookup_alter_eq, Hd.
Qed.

Lemma test_device_devs i m m' u : mem_devs m' = mem_devs m -> test_device i m u -> test_device i m' u.
Proof. unfold test_device. by intros ->. Qed.

(** One status: the next test starts, or the process ends with the verdict. *)
Lemma report_run i st m u :
  test_device i m u -> is_final st = true ->
  0 <= current_test u < total_tests u -> total_tests u < 2 ^ 31 ->
  0 <= tests_skipped u <= current_test u -> 0 <= tests_failed u <= current_test u ->
  exists u' m', test_device i m' u' /\
    current_test u' = current_test u + 1 /\ total_tests u' = total_tests u /\
    tests_skipped u' = tests_skipped (after_status u st) /\ tests_failed u' = tests_failed (after_status u st) /\
    report i st m = if current_test u + 1 <? total_tests u then Ret true m'
                    else Exited (if tests_failed (after_status u st) >? 0 then -1 else 0) m'.
Proof.
  intros Hu Hst Hc Ht Hs Hf. pose proof Hu as (d & Hd & Hb).
  destruct (write_status_run i u st m Hst ltac:(lia) ltac:(lia) ltac:(lia)) as (m1 & u2 & Hm1 & Hw).
  assert (test_device i m1 (after_status u st)) as H1.
  { eapply test_device_devs; [exact Hm1|]. eapply test_device_set, test_device_set, Hu. }
  unfold report, bind at 1, gets. rewrite Hd. unfold dev_write32. rewrite Hb, Hw.
  destruct (current_test u + 1 <? total_tests u).
  - eexists _, _. split; [|split; [|split; [|split; [|split; [|reflexivity] ] ] ] ].
    { eapply test_device_devs; [apply reset_devs|]. eapply test_device_set, H1. }
    all: reflexivity.
  - eexists _, _. split; [exact H1|]. split; [|split; [|split; [|split; [|reflexivity] ] ] ]; reflexivity.
Qed.

Lemma report_all_run sts i m u :
  test_device i m u -> forallb is_final sts = true -> sts <> [] ->
  0 <= current_test u -> current_test u + Z.of_nat (length sts) = total_tests u -> total_tests u < 2 ^ 31 ->
  0 <= tests_skipped u <= current_test u -> 0 <= tests_failed u <= current_test u ->
  exists u' m', test_device i m' u' /\
    current_test u' = total_tests u /\ tests_skipped u' = tests_skipped u + count STATUS_SKIPPED sts /\
    tests_failed u' = tests_failed u + count STATUS_FAILED sts /\
    report_all i sts m = Exited (if tests_failed u' >? 0 then -1 else 0) m'.
Proof.
  revert m u. induction sts as [|st sts IH]; intros m u Hu Hfin Hne H0 Hlen Hmax Hs Hf; [done|].
  cbn [forallb length] in *. apply andb_true_iff in Hfin as [Hst Hfin].
  destruct (report_run i st m u Hu Hst ltac:(lia) Hmax Hs Hf) as (u1 & m1 & H1 & E1 & E2 & E3 & E4 & Hr).
  rewrite !count_cons. unfold after_status in *. cbn [tests_skipped tests_failed] in *.
  cbn [report_all]. set (s1 := if st =? STATUS_SKIPPED then 1 else 0). set (f1 := if st =? STATUS_FAILED then 1 else 0).
  assert (tests_skipped u1 = tests_skipped u + s1 /\ 0 <= s1 <= 1) as [E3' Hs1] by (unfold s1; destruct (st =? STATUS_SKIPPED); lia).
  assert (tests_failed u1 = tests_failed u + f1 /\ 0 <= f1 <= 1) as [E4' Hf1] by (unfold f1; destruct (st =? STATUS_FAILED); lia).
  clearbody s1 f1. destruct (Z.ltb_spec (current_test u + 1) (total_tests u)) as [Hlt|Hge].
  - rewrite (bind_run _ _ _ _ _ Hr).
    assert (0 <= tests_skipped u1 <= current_test u1) by lia.
    assert (0 <= tests_failed u1 <= current_test u1) by lia.
    destruct (IH m1 u1) as (u' & m' & H' & F1 & F2 & F3 & Hr'); try done; try lia.
    { intros ->. simpl in *. lia. }
    exists u', m'. split; [exact H'|]. split; [lia|].
    split; [lia|]. split; [lia|exact Hr'].
  - assert (sts = []) as -> by (destruct sts; [done|simpl in *; lia]).
    exists u1, m1. split; [exact H1|]. split; [lia|]. change (count _ []) with 0.
    split; [lia|]. split; [lia|].
    unfold bind. by rewrite Hr, E4.
Qed.

(** the test device turns the status words of a firmware into a verdict: after
    a number of tests is announced, that many final statuses run to the end of the
    process, with exit code 0 exactly when none of them is FAILED, and the device
    has counted all tests, the skipped ones and the failed ones. *)
Theorem unittest_verdict n sts i m u :
  test_device i m u -> 0 < n < 2 ^ 31 -> Z.of_nat (length sts) = n -> forallb is_final sts = true ->
  exists u' m' m1, dev_write32 i (mk_dev mem_class_io unittest_mem_type 0 SIZE (Unittest u)) TOTAL_TESTS_OFFSET n m = Ret true m1 /\
    report_all i sts m1 = Exited (if bool_decide (STATUS_FAILED ∈ sts) then -1 else 0) m' /\
    test_device i m' u' /\
    current_test u' = n /\ tests_skipped u' = count STATUS_SKIPPED sts /\ tests_failed u' = count STATUS_FAILED sts.
Proof.
  intros Hu Hn Hlen Hfin.
  set (u0 := mk_unittest 0 n 0 0 (desc u) (status u) (status_desc u)).
  set (m1 := snd (mcu_reset (emit (set_body m i (Unittest u0)) EvProgress))).
  assert (test_device i m1 u0) as H1.
  { eapply test_device_devs; [apply reset_devs|]. eapply test_device_set, Hu. }
  destruct (report_all_run sts i m1 u0 H1 Hfin) as (u' & m' & H' & E1 & E2 & E3 & Hr); simpl; try lia.
  { intros ->. simpl in *. lia. }
  exists u', m', m1. split.
  { unfold dev_write32. cbn [body]. unfold unittest_dev_write32.
    change (TOTAL_TESTS_OFFSET =? CURRENT_TEST_OFFSET) with false. change (TOTAL_TESTS_OFFSET =? TOTAL_TESTS_OFFSET) with true.
    cbv iota. rewrite (i32_id n) by lia. reflexivity. }
  split; [|done]. rewrite Hr, E3. simpl. f_equal.
  destruct (Z.gtb_spec (0 + count STATUS_FAILED sts) 0) as [Hgt|Hle].
  - rewrite bool_decide_true; [done|]. unfold count in Hgt.
    destruct (filter (fun st => st = STATUS_FAILED) sts) as [|x l] eqn:E; [simpl in *; lia|].
    assert (x ∈ filter (fun st => st = STATUS_FAILED) sts) as [-> ?]%list_elem_of_filter by (rewrite E; left). done.
  - rewrite bool_decide_false; [done|]. intros Hin. unfold count in Hle.
    assert (STATUS_FAILED ∈ filter (fun st => st = STATUS_FAILED) sts) as Hx by (by apply list_elem_of_filter).
    destruct (filter _ sts); [by apply not_elem_of_nil in Hx|simpl in *; lia].
Qed.

Lemma unittest_verdict_witness :
  exists m' m1, mcu_write32 (0xEE000000 + TOTAL_TESTS_OFFSET) 3 board = Ret true m1 /\
    report_all 0 [STATUS_PASSED; STATUS_FAILED; STATUS_SKIPPED] m1 = Exited (-1) m'.
Proof.
  destruct (unittest_verdict 3 [STATUS_PASSED; STATUS_FAILED; STATUS_SKIPPED] 0 board
              (mk_unittest (-1) 0 0 0 None 0 None)) as (u' & m' & m1 & Hw & Hr & _).
  - eexists. split; reflexivity.
  - lia.
  - reflexivity.
  - reflexivity.
  - exists m', m1. split; [exact Hw|exact Hr].
Defined.
