(* ===== verification/SelfTest.v ===== *)
(** * SelfTest: the firmware's tests on the simulated board

    [core/test.c] and [platform/sim/test.c], [bootstrap] with what it initialises before
    each of its calls of [test_do] given ([init]), and the test device of the simulator they talk to: the firmware runs one
    test per start, and the device restarts it or ends the simulator. *)
From S2P Require Import Prelude Machine MachineFacts Thumb ThumbSafe Frame Control.

Definition unittest_base : Z := 0xEE000000.
Definition STATUS_RUNNING : Z := 0xDB6DB6DB.

Inductive test_type := TEST_AFTER_ARCH_EARLY_INIT | TEST_AFTER_ARCH_LATE_INIT | TEST_IN_MAIN_TASK.
#[export] Instance test_type_eq_dec : EqDecision test_type.
Proof. solve_decision. Defined.

(** A function that does not return has been stopped by the device: the processor is
    elsewhere, or the [unreachable()] behind the store is reached. *)
Inductive control := Returns | Stopped.

(** [desc] is the address of the string. *)
Record test := mk_test { test_desc : Z; type : test_type; func : M control }.

(** A store the bus refuses is a fault of the processor. *)
Definition UNITTEST_store (off v : Z) : M unit :=
  let! ok := mcu_write32 (unittest_base + off) v in if (ok : bool) then ret tt else fun _ => Undef.
Definition UNITTEST_load (off : Z) : M Z :=
  let! v := gets (fun m => mcu_fetch32 m (unittest_base + off)) in
  match v with Some v => ret v | None => fun _ => Undef end.

Definition arch_test_set_test_count (count : Z) : M control := run! UNITTEST_store TOTAL_TESTS_OFFSET count in ret Stopped.
Definition arch_test_get_test_current : M Z := let! v := UNITTEST_load CURRENT_TEST_OFFSET in ret (i32 v).
Definition arch_test_set_desc (desc : Z) : M unit :=
  run! UNITTEST_store DESC desc in UNITTEST_store STATUS_OFFSET STATUS_RUNNING.
Definition arch_test_skip (reason : Z) : M control :=
  run! UNITTEST_store STATUS_DESC_OFFSET reason in run! UNITTEST_store STATUS_OFFSET STATUS_SKIPPED in ret Stopped.
Definition arch_test_pass (reason : Z) : M control :=
  run! UNITTEST_store STATUS_DESC_OFFSET reason in run! UNITTEST_store STATUS_OFFSET STATUS_PASSED in ret Stopped.
Definition arch_test_fail (reason : Z) : M control :=
  run! UNITTEST_store STATUS_DESC_OFFSET reason in run! UNITTEST_store STATUS_OFFSET STATUS_FAILED in ret Stopped.
Definition test_fail (reason : Z) : M control := arch_test_fail reason.

(** What follows a call that may not return. *)
Definition then_ (c k : M control) : M control := let! r := c in match r with Returns => k | Stopped => ret Stopped end.

Section Firmware.
Context (tests : list test) (init : test_type -> M unit).

Definition test_do (ty : test_type) : M control :=
  let count := u32 (Z.of_nat (length tests)) in
  let! test_number := arch_test_get_test_current in
  then_ (if test_number <? 0 then arch_test_set_test_count count else ret Returns)
    (match tests !! Z.to_nat test_number with
     | None => fun _ => Undef
     | Some t => if decide (type t = ty) then run! arch_test_set_desc (test_desc t) in then_ (func t) (arch_test_pass 0) else ret Returns
     end).

(** [bootstrap] with its tests: [init ty] is what it initialises before those of [ty]. *)
Definition bootstrap_tests : M control :=
  run! init TEST_AFTER_ARCH_EARLY_INIT in
  then_ (test_do TEST_AFTER_ARCH_EARLY_INIT)
    (run! init TEST_AFTER_ARCH_LATE_INIT in
     then_ (test_do TEST_AFTER_ARCH_LATE_INIT)
       (run! init TEST_IN_MAIN_TASK in test_do TEST_IN_MAIN_TASK)).

(** The processor is about to execute the reset handler. *)
Definition at_reset (m : mcu) : bool :=
  match mcu_fetch32 m 4, processor_mode m with
  | Some pc, processor_thread_mode => sub32 (mcu_read_reg m REG_PC) 2 =? pc - 1
  | _, _ => false
  end.

(** [n] starts of the firmware. *)
Fixpoint boots (n : nat) : M control :=
  match n with
  | O => ret Stopped
  | S n => let! r := bootstrap_tests in
           match r with
           | Returns => ret Returns
           | Stopped => let! ok := gets at_reset in if (ok : bool) then boots n else fun _ => Undef
           end
  end.
End Firmware.

(** ** The board *)

Definition unit_dev (u : unittest_dev) : mem_dev := mk_dev mem_class_io unittest_mem_type unittest_base SIZE (Unittest u).

(** A well-formed machine with the test device and the vectors of a firmware. *)
Record on_board (u : unittest_dev) (m : mcu) : Prop := {
  ob_wf : wf_mcu m;
  ob_devs : exists rest, mem_devs m = unit_dev u :: rest;
  ob_sp : is_Some (mcu_fetch32 m 0);
  ob_pc : exists pc, mcu_fetch32 m 4 = Some pc /\ Z.odd pc = true }.

Lemma fetch_other u rest m m' a : mem_devs m = unit_dev u :: rest -> (exists u', mem_devs m' = unit_dev u' :: rest) -> a < unittest_base ->
  mcu_fetch32 m' a = mcu_fetch32 m a.
Proof.
  intros E (u' & E') Ha. unfold mcu_fetch32. rewrite E, E'. cbn [find_dev].
  assert (forall x, dev_hit (unit_dev x) a = false) as Hh.
  { intros x. unfold dev_hit. cbn [offset unit_dev]. by rewrite (proj2 (Z.leb_gt _ _)) by done. }
  rewrite !Hh. by destruct (find_dev rest a) as [ []|].
Qed.

Lemma on_board_devs u u' m m' : on_board u m -> wf_mcu m' -> (forall rest, mem_devs m = unit_dev u :: rest -> mem_devs m' = unit_dev u' :: rest) ->
  on_board u' m'.
Proof.
  intros [B1 (rest & B2) B3 B4] Hw Hd. specialize (Hd rest B2). split; [done|by exists rest|..];
    rewrite (fetch_other u rest m m') by (done || by eexists); done.
Qed.

Lemma on_board_set u u' m : on_board u m -> on_board u' (set_body m 0 (Unittest u')).
Proof. intros H. eapply on_board_devs; [exact H|apply wf_set_body; [apply H|done]|]. intros rest E. simpl. by rewrite E. Qed.

Lemma on_board_emit u m e : on_board u m -> on_board u (emit m e).
Proof. intros H. eapply on_board_devs; [exact H|apply wf_emit, H|done]. Qed.

Lemma on_board_reset u m : on_board u m -> on_board u (snd (mcu_reset m)) /\ at_reset (snd (mcu_reset m)) = true.
Proof.
  intros H. assert (on_board u (snd (mcu_reset m))) as H'.
  { eapply on_board_devs; [exact H|apply wf_reset, H|]. intros rest E. by rewrite reset_devs. }
  split; [exact H'|]. destruct H as [B1 _ [sp Hsp] (pc & Hpc & Hodd)]. destruct (reset_spec m sp pc B1 Hsp Hpc) as [_ R].
  specialize (R Hodd). cbv zeta in R. destruct R as (_ & R2 & _ & R4 & _ & R6). unfold at_reset.
  unfold mcu_fetch32 at 1. rewrite R6. fold (mcu_fetch32 m 4). rewrite Hpc, R4, R2. apply Z.eqb_refl.
Qed.

(** *** Accesses to the device *)

Lemma find_unit u rest off : 0 <= off < SIZE -> find_dev (unit_dev u :: rest) (unittest_base + off) = Some (O, unit_dev u).
Proof.
  intros H. cbn [find_dev]. unfold dev_hit. cbn [offset dev_length unit_dev]. change (u32 (unittest_base + SIZE)) with (unittest_base + SIZE).
  by rewrite (proj2 (Z.leb_le _ _)), (proj2 (Z.ltb_lt _ _)) by lia.
Qed.

Lemma store_unit u m off v : on_board u m -> 0 <= off < SIZE -> mcu_write32 (unittest_base + off) v m = unittest_dev_write32 0 u off v m.
Proof.
  intros [_ (rest & E) _ _] H. unfold mcu_write32, bind, gets. rewrite E, find_unit by done. cbn [offset unit_dev].
  by replace (unittest_base + off - unittest_base) with off by lia.
Qed.

Lemma load_current u m : on_board u m -> - 2 ^ 31 <= current_test u < 2 ^ 31 -> arch_test_get_test_current m = Ret (current_test u) m.
Proof.
  intros [_ (rest & E) _ _] H. unfold arch_test_get_test_current, UNITTEST_load, bind, gets, mcu_fetch32.
  rewrite E, find_unit by done. cbn [offset unit_dev]. unfold ret. f_equal. change (sgn 32 (wrap 32 (current_test u)) = current_test u).
  unfold sgn. rewrite wrap_wrap. by apply (sgn_id 32).
Qed.

(** The counters of the device. *)
Definition counters (u : unittest_dev) : Z * Z * Z * Z := (current_test u, total_tests u, tests_skipped u, tests_failed u).

(** Nothing but the test device, and the trace, has changed. *)
Definition but_device (m m' : mcu) : Prop :=
  regs m' = regs m /\ processor_mode m' = processor_mode m /\ state m' = state m /\ unlocked m' = unlocked m /\
  exists u u' rest, mem_devs m = unit_dev u :: rest /\ mem_devs m' = unit_dev u' :: rest.

Lemma but_device_trans m1 m2 m3 : but_device m1 m2 -> but_device m2 m3 -> but_device m1 m3.
Proof.
  intros (A1 & A2 & A3 & A4 & u & u' & r & A5 & A6) (B1 & B2 & B3 & B4 & v & v' & r' & B5 & B6).
  repeat split; try congruence. exists u, v', r. split; [done|]. rewrite B6. congruence.
Qed.

Lemma store_string off v u m : off = DESC \/ off = STATUS_DESC_OFFSET -> on_board u m ->
  exists u' m', UNITTEST_store off v m = Ret tt m' /\ on_board u' m' /\ counters u' = counters u /\ but_device m m'.
Proof.
  intros Ho H. pose proof H as [_ (rest & Ed) _ _]. unfold UNITTEST_store, bind. rewrite (store_unit u) by (done || by destruct Ho as [->| ->]).
  destruct Ho as [->| ->]; cbn -[set_body unittest_fetch_str]; eexists _, _; 
    (split; [reflexivity|split; [by eapply on_board_set|split; [done|] ] ]); repeat split;
    (eexists u, _, rest; split; [done|]; simpl; by rewrite Ed).
Qed.

Lemma store_running u m : on_board u m ->
  exists u' m', UNITTEST_store STATUS_OFFSET STATUS_RUNNING m = Ret tt m' /\ on_board u' m' /\ counters u' = counters u /\ but_device m m'.
Proof.
  intros H. pose proof H as [_ (rest & Ed) _ _]. unfold UNITTEST_store, bind. rewrite (store_unit u) by done. cbn -[set_body emit].
  eexists _, _. split; [reflexivity|]. split; [by eapply on_board_emit, on_board_set|]. split; [done|]. repeat split.
  eexists u, _, rest. split; [done|]. simpl. by rewrite Ed.
Qed.

Lemma store_final st u m : on_board u m -> is_final st = true -> 0 <= current_test u < 2 ^ 31 - 1 ->
  0 <= tests_skipped u < 2 ^ 31 - 1 -> 0 <= tests_failed u < 2 ^ 31 - 1 ->
  exists u' m', on_board u' m' /\ counters u' = counters (after_status u st) /\
    UNITTEST_store STATUS_OFFSET st m =
    (if current_test u + 1 <? total_tests u then Ret tt m' else Exited (if tests_failed u' >? 0 then -1 else 0) m') /\
    (current_test u + 1 < total_tests u -> at_reset m' = true).
Proof.
  intros H Hst Hc Hs Hf. unfold UNITTEST_store, bind at 1. rewrite (store_unit u) by done.
  unfold unittest_dev_write32. change (STATUS_OFFSET =? STATUS_OFFSET) with true. cbv iota.
  change (STATUS_OFFSET =? CURRENT_TEST_OFFSET) with false. change (STATUS_OFFSET =? TOTAL_TESTS_OFFSET) with false.
  change (STATUS_OFFSET =? DESC) with false. cbv iota.
  unfold unittest_write_status. cbv zeta. cbn [current_test total_tests tests_skipped tests_failed desc status status_desc].
  rewrite (i32_id (current_test u + 1)), (i32_id (tests_skipped u + 1)), (i32_id (tests_failed u + 1)) by lia.
  fold (is_final st). rewrite Hst. unfold set_unittest, unittest_update_progress, reset_ignored, modify, bind, ret, unittest_done.
  set (u1 := mk_unittest (current_test u) _ _ _ _ _ _).
  assert (on_board u1 (emit (set_body m 0 (Unittest u1)) EvProgress)) as H1 by (by eapply on_board_emit, on_board_set).
  set (m1 := emit _ _) in *.
  replace (if negb (st =? STATUS_SKIPPED) && (st =? STATUS_FAILED) then tests_failed u + 1 else tests_failed u) with (tests_failed (after_status u st))
    by (destruct (final_cases st Hst) as [->|[->| ->] ]; done).
  change (if st =? STATUS_SKIPPED then tests_skipped u + 1 else tests_skipped u) with (tests_skipped (after_status u st)).
  destruct (Z.ltb_spec (current_test u + 1) (total_tests u)).
  - set (u2 := mk_unittest _ _ _ _ (desc u) _ _). set (u3 := mk_unittest _ _ _ _ None _ _).
    destruct (on_board_reset u3 (set_body (set_body m1 0 (Unittest u2)) 0 (Unittest u3))) as [Hr Ha].
    { by eapply on_board_set, on_board_set. }
    eexists u3, _. split; [exact Hr|]. split; [done|]. split; [done|]. by intros _.
  - eexists _, _. split; [eapply on_board_set; exact H1|]. split; [done|]. split; [done|]. lia.
Qed.

Lemma store_count n u m : on_board u m -> 0 <= n < 2 ^ 31 ->
  exists u' m', on_board u' m' /\ counters u' = (0, n, 0, 0) /\ UNITTEST_store TOTAL_TESTS_OFFSET n m = Ret tt m' /\ at_reset m' = true.
Proof.
  intros H Hn. unfold UNITTEST_store, bind at 1. rewrite (store_unit u) by done. unfold unittest_dev_write32.
  change (TOTAL_TESTS_OFFSET =? CURRENT_TEST_OFFSET) with false. change (TOTAL_TESTS_OFFSET =? TOTAL_TESTS_OFFSET) with true. cbv iota.
  rewrite (i32_id n) by lia. unfold set_unittest, unittest_update_progress, reset_ignored, modify, bind, ret.
  set (u1 := mk_unittest _ _ _ _ _ _ _).
  destruct (on_board_reset u1 (emit (set_body m 0 (Unittest u1)) EvProgress)) as [Hr Ha]; [by eapply on_board_emit, on_board_set|].
  eexists u1, _. split; [exact Hr|]. done.
Qed.

(** ** One test *)

Inductive verdict := Passes | Fails (reason : Z) | Skips (reason : Z).
Definition status_of (v : verdict) : Z := match v with Passes => STATUS_PASSED | Fails _ => STATUS_FAILED | Skips _ => STATUS_SKIPPED end.
Definition reason_of (v : verdict) : Z := match v with Passes => 0 | Fails r | Skips r => r end.

Section Phases.
(** What is initialised when the tests of a type run, which the test device has no part
    in: [in_phase ty m]. *)
Context (init : test_type -> M unit) (in_phase : test_type -> mcu -> Prop).

Definition before (ty : test_type) (m : mcu) : Prop :=
  match ty with
  | TEST_AFTER_ARCH_EARLY_INIT => True
  | TEST_AFTER_ARCH_LATE_INIT => in_phase TEST_AFTER_ARCH_EARLY_INIT m
  | TEST_IN_MAIN_TASK => in_phase TEST_AFTER_ARCH_LATE_INIT m
  end.

(** [init] brings one phase after the other about, and leaves the device alone. *)
Record brings_up : Prop := {
  up_init ty u m : on_board u m -> before ty m -> exists m', init ty m = Ret tt m' /\ on_board u m' /\ in_phase ty m';
  up_device ty m m' : in_phase ty m -> but_device m m' -> in_phase ty m' }.

(** The function of a test comes to its verdict on every board in the phase of its type,
    and leaves the device and the vectors alone.  In another phase it may do anything. *)
Definition comes_to (t : test) (v : verdict) : Prop := forall u m, on_board u m -> in_phase (type t) m ->
  exists m', on_board u m' /\
    func t m = match v with Passes => Ret Returns m' | Fails r => test_fail r m' | Skips r => arch_test_skip r m' end.

Context (Hup : brings_up).

Lemma test_runs t v u m : comes_to t v -> on_board u m -> in_phase (type t) m -> 0 <= current_test u < 2 ^ 31 - 1 ->
  0 <= tests_skipped u < 2 ^ 31 - 1 -> 0 <= tests_failed u < 2 ^ 31 - 1 ->
  exists u' m', on_board u' m' /\ counters u' = counters (after_status u (status_of v)) /\
    (let! _ := arch_test_set_desc (test_desc t) in then_ (func t) (arch_test_pass 0)) m =
    (if current_test u + 1 <? total_tests u then Ret Stopped m' else Exited (if tests_failed u' >? 0 then -1 else 0) m') /\
    (current_test u + 1 < total_tests u -> at_reset m' = true).
Proof.
  intros Hv H Hp Hc Hs Hf.
  destruct (store_string DESC (test_desc t) u m ltac:(by left) H) as (u1 & m1 & E1 & H1 & C1 & D1).
  destruct (store_running u1 m1 H1) as (u2 & m2 & E2 & H2 & C2 & D2).
  destruct (Hv u2 m2 H2) as (m3 & H3 & E3); [by eapply (up_device Hup), but_device_trans|].
  destruct (store_string STATUS_DESC_OFFSET (reason_of v) u2 m3 ltac:(by right) H3) as (u4 & m4 & E4 & H4 & C4 & _).
  assert (counters u4 = counters u) as C by congruence. unfold counters in C. injection C as Ec Et Es Ef.
  destruct (store_final (status_of v) u4 m4 H4) as (u5 & m5 & H5 & C5 & E5 & Ha); try lia; [by destruct v|].
  exists u5, m5. split; [exact H5|]. split; [rewrite C5; unfold counters, after_status; simpl; by rewrite Ec, Et, Es, Ef|].
  rewrite Ec, Et in E5, Ha. split; [|exact Ha]. unfold arch_test_set_desc, bind at 1. rewrite (bind_run _ _ _ _ _ E1), E2. unfold then_.
  assert (forall c, c m3 = (let! _ := UNITTEST_store STATUS_DESC_OFFSET (reason_of v) in let! _ := UNITTEST_store STATUS_OFFSET (status_of v) in ret Stopped) m3 ->
    c m3 = if current_test u + 1 <? total_tests u then Ret Stopped m5 else Exited (if tests_failed u5 >? 0 then -1 else 0) m5) as Hend.
  { intros c ->. rewrite (bind_run _ _ _ _ _ E4). unfold bind. rewrite E5. by destruct (_ <? _). }
  destruct v; unfold bind; rewrite E3.
  - by apply Hend.
  - rewrite (Hend (test_fail reason)) by done. by destruct (_ <? _).
  - rewrite (Hend (arch_test_skip reason)) by done. by destruct (_ <? _).
Qed.

Section Run.
Context (tests : list test).

Lemma test_do_runs ty t u m : on_board u m -> 0 <= current_test u < 2 ^ 31 -> tests !! Z.to_nat (current_test u) = Some t ->
  test_do tests ty m = if decide (type t = ty) then (let! _ := arch_test_set_desc (test_desc t) in then_ (func t) (arch_test_pass 0)) m else Ret Returns m.
Proof.
  intros H Hc Ht. unfold test_do, bind at 1. rewrite (load_current u m H) by lia.
  rewrite (proj2 (Z.ltb_ge (current_test u) 0)) by lia. unfold then_ at 1, bind at 1. cbn [ret]. rewrite Ht. by destruct (decide _).
Qed.

Definition no_return {A} (r : res A) (P : A -> Prop) : Prop := match r with Ret a _ => P a | _ => True end.

Lemma then_stops c k m : no_return (c m) (fun r => r = Stopped) -> then_ c k m = c m.
Proof. unfold then_, bind. by destruct (c m) as [ [] m'| |]. Qed.

(** A start of the firmware runs the current test, in the phase of its type. *)
Lemma boot_runs t u m : on_board u m -> 0 <= current_test u < 2 ^ 31 -> tests !! Z.to_nat (current_test u) = Some t ->
  let r := fun m => (let! _ := arch_test_set_desc (test_desc t) in then_ (func t) (arch_test_pass 0)) m in
  exists m1, on_board u m1 /\ in_phase (type t) m1 /\ (no_return (r m1) (fun r => r = Stopped) -> bootstrap_tests tests init m = r m1).
Proof.
  intros H Hc Ht r.
  destruct (up_init Hup TEST_AFTER_ARCH_EARLY_INIT u m H I) as (m1 & E1 & H1 & P1).
  destruct (up_init Hup TEST_AFTER_ARCH_LATE_INIT u m1 H1 P1) as (m2 & E2 & H2 & P2).
  destruct (up_init Hup TEST_IN_MAIN_TASK u m2 H2 P2) as (m3 & E3 & H3 & P3).
  assert (forall ty m, on_board u m -> type t = ty -> test_do tests ty m = r m) as Hd.
  { intros ty m' H' <-. rewrite (test_do_runs _ t u m') by done. by rewrite decide_True. }
  assert (forall ty k m, on_board u m -> type t <> ty -> then_ (test_do tests ty) k m = k m) as Hskip.
  { intros ty k m' H' Hne. unfold then_, bind. by rewrite (test_do_runs _ t u m') , decide_False by done. }
  unfold bootstrap_tests. rewrite (bind_run _ _ _ _ _ E1). destruct (type t) eqn:Ety.
  - exists m1. split; [done|]. split; [done|]. intros Hr. rewrite then_stops; rewrite Hd; done.
  - exists m2. split; [done|]. split; [done|]. intros Hr. rewrite Hskip, (bind_run _ _ _ _ _ E2) by done. rewrite then_stops; rewrite Hd; done.
  - exists m3. split; [done|]. split; [done|]. intros Hr. rewrite Hskip, (bind_run _ _ _ _ _ E2), Hskip, (bind_run _ _ _ _ _ E3) by done. by apply Hd.
Qed.

Lemma boot_announces u m : on_board u m -> current_test u = -1 -> Z.of_nat (length tests) < 2 ^ 31 ->
  exists u' m', on_board u' m' /\ counters u' = (0, Z.of_nat (length tests), 0, 0) /\ bootstrap_tests tests init m = Ret Stopped m' /\ at_reset m' = true.
Proof.
  intros H0 Hc Hlen. destruct (up_init Hup TEST_AFTER_ARCH_EARLY_INIT u m H0 I) as (m1 & E1 & H & P1).
  destruct (store_count (Z.of_nat (length tests)) u m1 H ltac:(lia)) as (u' & m' & H' & C & E & Ha).
  exists u', m'. split; [done|]. split; [done|]. split; [|done]. unfold bootstrap_tests. rewrite (bind_run _ _ _ _ _ E1).
  assert (test_do tests TEST_AFTER_ARCH_EARLY_INIT m1 = Ret Stopped m') as Et.
  { unfold test_do, bind at 1. rewrite (load_current u m1 H) by (rewrite Hc; lia). rewrite Hc. change (-1 <? 0) with true. cbv iota.
    unfold then_, arch_test_set_test_count, bind. rewrite wrap_id by (unfold in_u; lia). by rewrite E. }
  by rewrite then_stops; rewrite Et.
Qed.

(** The tests from the [i]-th on. *)
Lemma boots_rest ts vs : Forall2 comes_to ts vs -> ts <> [] -> forall u m,
  on_board u m -> 0 <= current_test u -> drop (Z.to_nat (current_test u)) tests = ts ->
  total_tests u = Z.of_nat (length tests) -> total_tests u < 2 ^ 31 ->
  0 <= tests_skipped u <= current_test u -> 0 <= tests_failed u <= current_test u ->
  exists u' m', on_board u' m' /\
    counters u' = (total_tests u, total_tests u, tests_skipped u + count STATUS_SKIPPED (status_of <$> vs), tests_failed u + count STATUS_FAILED (status_of <$> vs)) /\
    boots tests init (length ts) m = Exited (if tests_failed u' >? 0 then -1 else 0) m'.
Proof.
  induction 1 as [|t v ts vs Hv Hrest IH]; [done|]. intros _ u m H Hc Hd Ht Hmax Hs Hf.
  assert (tests !! Z.to_nat (current_test u) = Some t) as Hlook.
  { rewrite <-(Nat.add_0_r (Z.to_nat (current_test u))), <-lookup_drop, Hd. done. }
  pose proof (lookup_lt_Some _ _ _ Hlook) as Hlt.
  destruct (boot_runs t u m H) as (m0 & H0 & P0 & Eb0); [lia|done|].
  destruct (test_runs t v u m0 Hv H0 P0) as (u1 & m1 & H1 & C1 & E1 & Ha); try lia.
  assert (bootstrap_tests tests init m = if current_test u + 1 <? total_tests u then Ret Stopped m1 else Exited (if tests_failed u1 >? 0 then -1 else 0) m1) as Eb.
  { rewrite <-E1. apply Eb0. rewrite E1. by destruct (_ <? _). }
  cbn [length boots fmap list_fmap]. unfold bind at 1. rewrite Eb. rewrite !count_cons.
  assert (length ts = length tests - Z.to_nat (current_test u) - 1)%nat as Hlen.
  { pose proof (f_equal length Hd) as Hl. rewrite length_drop in Hl. simpl in Hl. lia. }
  unfold counters, after_status in C1. cbn [current_test total_tests tests_skipped tests_failed] in C1. injection C1 as F1 F2 F3 F4.
  destruct (Z.ltb_spec (current_test u + 1) (total_tests u)) as [Hmore|Hend].
  - unfold bind, gets. rewrite (Ha Hmore).
    destruct (IH) with (u := u1) (m := m1) as (u' & m' & H' & C' & E'); try done; try lia.
    + intros ->. simpl in Hlen. lia.
    + rewrite F1, Z2Nat.inj_add by lia. by rewrite <-drop_drop, Hd.
    + rewrite F1, F3. destruct (status_of v =? STATUS_SKIPPED); lia.
    + rewrite F1, F4. destruct (status_of v =? STATUS_FAILED); lia.
    + exists u', m'. split; [done|]. split; [|done]. rewrite C', F2, F3, F4.
      destruct (status_of v =? STATUS_SKIPPED), (status_of v =? STATUS_FAILED); repeat apply (f_equal2 pair); lia.
  - assert (ts = []) as -> by (destruct ts; [done|simpl in Hlen; lia]).
    apply Forall2_nil_inv_l in Hrest as ->. exists u1, m1. split; [done|]. split; [|done]. unfold counters. cbn [fmap list_fmap]. rewrite F1, F2, F3, F4.
    change (count STATUS_SKIPPED []) with 0; change (count STATUS_FAILED []) with 0.
    assert (current_test u + 1 = total_tests u) as -> by (simpl in Hlen; lia).
    destruct (status_of v =? STATUS_SKIPPED), (status_of v =? STATUS_FAILED); repeat apply (f_equal2 pair); lia.
Qed.

Definition is_failure (v : verdict) : bool := match v with Fails _ => true | _ => false end.
Lemma count_failed vs : (count STATUS_FAILED (status_of <$> vs) >? 0) = existsb is_failure vs.
Proof.
  induction vs as [|v vs IH]; [done|]. cbn [fmap list_fmap existsb]. rewrite count_cons.
  assert (0 <= count STATUS_FAILED (status_of <$> vs)) as H0 by (unfold count; lia).
  destruct v; cbn [status_of is_failure orb]; [|change (STATUS_FAILED =? STATUS_FAILED) with true; cbv iota; rewrite Z.gtb_ltb; apply Z.ltb_lt; lia|];
    by rewrite <-IH.
Qed.

(** C38: The verdict of the self test.  A firmware with at least one test, started on a
    board whose test device is fresh, restarts once for every test and runs it in the
    phase of its type: a test need only come to its verdict - it returns, fails or
    skips - where exactly what bootstrap initialises before the tests of its type is
    initialised (in_phase), and may do anything elsewhere.  No call that should not
    return does, and then the simulator ends: with exit code 0 exactly when no test
    fails, with all tests counted, and the skipped and the failed ones.  What the tests
    and the initialisation do is given; they leave the test device and the vectors
    alone (comes_to, brings_up). *)
Theorem selftest_verdict vs u m : Forall2 comes_to tests vs -> tests <> [] -> Z.of_nat (length tests) < 2 ^ 31 ->
  on_board u m -> current_test u = -1 ->
  exists u' m', boots tests init (S (length tests)) m = Exited (if existsb is_failure vs then -1 else 0) m' /\
    on_board u' m' /\
    counters u' = (Z.of_nat (length tests), Z.of_nat (length tests), count STATUS_SKIPPED (status_of <$> vs), count STATUS_FAILED (status_of <$> vs)).
Proof.
  intros Hvs Hne Hlen H Hc. destruct (boot_announces u m H Hc Hlen) as (u1 & m1 & H1 & C1 & E1 & Ha).
  unfold counters in C1. injection C1 as F1 F2 F3 F4.
  destruct (boots_rest tests vs Hvs Hne u1 m1 H1) as (u' & m' & H' & C' & E'); try lia; [by rewrite F1|].
  exists u', m'. rewrite F2, F3, F4, !Z.add_0_l in C'. split; [|done]. cbn [boots]. unfold bind at 1. rewrite E1. unfold bind, gets. rewrite Ha, E'.
  unfold counters in C'. injection C' as _ _ _ ->. by rewrite count_failed.
Qed.

(** Without tests the second start reads behind the table. *)
Lemma no_tests_read u m : tests = [] -> on_board u m -> current_test u = -1 -> boots tests init 2 m = Undef.
Proof.
  intros Hnil H Hc. destruct (boot_announces u m H Hc ltac:(by rewrite Hnil)) as (u1 & m1 & H1 & C1 & E1 & Ha).
  unfold counters in C1. injection C1 as F1 _ _ _. cbn [boots]. unfold bind at 1. rewrite E1. unfold bind at 1, gets. rewrite Ha.
  destruct (up_init Hup TEST_AFTER_ARCH_EARLY_INIT u1 m1 H1 I) as (m2 & E2 & H2 & _).
  unfold bind at 1, bootstrap_tests. rewrite (bind_run _ _ _ _ _ E2). unfold then_ at 1, test_do, bind at 1 2.
  rewrite (load_current u1 m2 H2) by (rewrite F1; lia). rewrite F1, Hnil. done.
Qed.
End Run.
End Phases.

(** Three tests of the three phases, each of which looks into r0 for its phase. *)
Definition ex_phase (ty : test_type) : Z :=
  match ty with TEST_AFTER_ARCH_EARLY_INIT => 1 | TEST_AFTER_ARCH_LATE_INIT => 2 | TEST_IN_MAIN_TASK => 3 end.
Definition ex_init (ty : test_type) : M unit := modify (fun m => set_reg_slot m 0 (ex_phase ty)).
Definition in_ex_phase (ty : test_type) (m : mcu) : Prop := reg_slot m 0 = ex_phase ty.
Definition ex_test (ty : test_type) (c : M control) : test :=
  mk_test 0 ty (let! v := gets (fun m => reg_slot m 0) in if v =? ex_phase ty then c else fun _ => Undef).
Definition ex_tests : list test :=
  [ex_test TEST_AFTER_ARCH_LATE_INIT (ret Returns); ex_test TEST_IN_MAIN_TASK (test_fail 0);
   ex_test TEST_AFTER_ARCH_EARLY_INIT (arch_test_skip 0)].
Definition ex_unit : unittest_dev := mk_unittest (-1) 0 0 0 None 0 None.

Lemma ex_on_board : on_board ex_unit (ThumbSafe.boot []).
Proof.
  split; [apply wf_boot; constructor|by eexists|by eexists|].
  exists 9. split; [vm_compute; reflexivity|reflexivity].
Qed.

Lemma ex_brings_up : brings_up ex_init in_ex_phase.
Proof.
  split.
  - intros ty u m H _. eexists. split; [reflexivity|]. assert (wf_mcu (set_reg_slot m 0 (ex_phase ty))) as Hw.
    { apply wf_set_slot; [apply H|destruct ty; by apply in_u_const|done|done]. }
    split; [eapply on_board_devs; [exact H|exact Hw|done]|]. unfold in_ex_phase, reg_slot, set_reg_slot. simpl.
    rewrite list_lookup_insert_eq; [done|]. destruct H as [ (Hl & _) _ _ _]. rewrite Hl. unfold reg_count. lia.
  - intros ty m m' E (Er & _). unfold in_ex_phase, reg_slot in *. by rewrite Er.
Qed.

Lemma selftest_verdict_witness :
  exists u' m', boots ex_tests ex_init 4 (ThumbSafe.boot []) = Exited (-1) m' /\ on_board u' m' /\ counters u' = (3, 3, 1, 1).
Proof.
  destruct (selftest_verdict ex_init in_ex_phase ex_brings_up ex_tests [Passes; Fails 0; Skips 0] ex_unit (ThumbSafe.boot [])) as (u' & m' & E & Hb & Hc).
  - repeat constructor; intros u m H Hp; exists m; (split; [exact H|]); cbn [func ex_test]; unfold bind, gets, in_ex_phase in *; simpl in Hp; by rewrite Hp.
  - done.
  - vm_compute. reflexivity.
  - apply ex_on_board.
  - reflexivity.
  - exists u', m'. split; [exact E|]. split; [exact Hb|]. exact Hc.
Defined.
