(* ===== verification/MemBytes.v ===== *)
(** * MemBytes: the bus of the simulator as a map of bytes

    The view the ELF loader and the debugger have of the machine: the byte helpers
    of [core/mcu.c] on addresses that RAM, or flash while it is unlocked, answers. *)
From S2P Require Import Prelude Machine MachineFacts Frame Bus.

(** The byte at [a] is in memory that can be written. *)
Definition byte_ok (m : mcu) (a : Z) : Prop :=
  exists i d h, find_dev (mem_devs m) (half_addr a) = Some (i, d) /\ is_memory m d h /\ forall k, in_u 16 (h k).

(** Two machines that differ only in the contents of their memories. *)
Definition same_control (m m' : mcu) : Prop :=
  regs m' = regs m /\ processor_mode m' = processor_mode m /\ state m' = state m /\ halt_reason m' = halt_reason m /\
  callbacks m' = callbacks m /\ unlocked m' = unlocked m /\ trace m' = trace m.

#[export] Instance same_control_preorder : PreOrder same_control.
Proof.
  split; [by intros m; repeat split|]. intros m1 m2 m3 (?&?&?&?&?&?&?) (?&?&?&?&?&?&?). repeat split; congruence.
Qed.

(** The same devices at the same places, and a well-formed machine stays one. *)
Definition same_bus (m m' : mcu) : Prop :=
  dev_shape <$> mem_devs m' = dev_shape <$> mem_devs m /\ (wf_mcu m -> wf_mcu m').

#[export] Instance same_bus_preorder : PreOrder same_bus.
Proof. split; [by intros m|]. intros m1 m2 m3 [? ?] [? ?]. split; [congruence|auto]. Qed.

Lemma same_bus_write m i d h : mem_devs m !! i = Some d -> (exists g, is_memory m d g) -> (forall k, in_u 16 (h k)) ->
  same_bus m (set_body m i (same_body d h)).
Proof.
  intros Hd [g Hg] Hh. split.
  - apply (sr_body (Rel := layout_kept) m i d (same_body d h) Hd).
    destruct Hg as [E|[E Hu] ]; unfold same_body; rewrite E; simpl; done.
  - intros Hw. apply wf_set_body; [done|]. unfold same_body. by destruct (body d).
Qed.

Lemma util_write8_run m a v i d h :
  find_dev (mem_devs m) (half_addr a) = Some (i, d) -> is_memory m d h ->
  exists new, in_u 16 new /\
    mcu_util_write8 a v m = Ret true (set_body m i (same_body d (upd h (half_slot d (half_addr a)) new))).
Proof.
  intros Hf Hb. unfold mcu_util_write8, bind at 1, gets. fold (half_addr a).
  rewrite (fetch16_memory _ _ _ _ _ Hf (is_memory_body _ _ _ Hb)).
  eexists. split; [|by apply write16_memory]. destruct (truth _); by apply in_u_wrap.
Qed.

Lemma byte_ok_step m i d h h' a : mem_devs m !! i = Some d -> is_memory m d h -> (forall k, in_u 16 (h' k)) ->
  (exists b, find_dev (mem_devs m) b = Some (i, d)) ->
  byte_ok m a -> byte_ok (set_body m i (same_body d h')) a.
Proof.
  intros Hd Hb Hh [b Hfb] (j & d' & g & Hf & Hb' & Hg).
  pose proof (set_body_find m i d (same_body d h') b (half_addr a) Hfb (same_body_kind m d h h' Hb)) as Hs.
  rewrite Hf in Hs. destruct (decide (i = j)) as [<-|Hij].
  - exists i, (mk_dev (dev_class d) (dev_type d) (offset d) (dev_length d) (same_body d h')), h'.
    split; [done|]. split; [|done]. destruct Hb as [E|[E Hu] ]; unfold is_memory, same_body; simpl; rewrite E; [by left|by right].
  - exists j, d', g. done.
Qed.

(** Two addresses of the same half have the same lowest bit or are the two bytes of it. *)
Lemma half_addr_even a : in_u 32 a -> half_addr a = a - a mod 2.
Proof.
  intros Ha. unfold half_addr. pose proof (Z.mod_pos_bound a 2 ltac:(lia)) as Hm.
  change (u32 (Z.lnot 1)) with (Z.shiftl (Z.ones 31) 1).
  transitivity (Z.shiftl (Z.shiftr a 1) 1).
  - apply Z.bits_inj'. intros i Hi. rewrite Z.land_spec, !Z.shiftl_spec by lia.
    destruct (Z.eq_dec i 0) as [->|]; [rewrite !(Z.testbit_neg_r _ (0 - 1)) by lia; apply andb_false_r|].
    rewrite Z.shiftr_spec, Z.testbit_ones by lia. replace (i - 1 + 1) with i by lia.
    destruct (Z.ltb_spec (i - 1) 31).
    + destruct (Z.leb_spec 0 (i - 1)); [|lia]. apply andb_true_r.
    + rewrite (in_u_testbit_high 32 a) by (done || lia). done.
  - rewrite Z.shiftl_mul_pow2, Z.shiftr_div_pow2 by lia. change (2 ^ 1) with 2.
    pose proof (Z.div_mod a 2). lia.
Qed.

Lemma bit0_mod2 a : truth (Z.land a 1) = bool_decide (a mod 2 = 1).
Proof.
  rewrite land_1. unfold truth. pose proof (Z.mod_pos_bound a 2 ltac:(lia)).
  destruct (Z.eqb_spec (a mod 2) 0) as [E|E]; symmetry; [apply bool_decide_false|apply bool_decide_true]; lia.
Qed.

(** A byte written is read back, and no other byte changes. *)
Lemma util_write8_view m a v : byte_ok m a -> in_u 32 a -> in_u 8 v ->
  exists m', mcu_util_write8 a v m = Ret true m' /\ same_control m m' /\
    (forall a', in_u 32 a' -> mcu_util_fetch8 m' a' = if a' =? a then Some v else mcu_util_fetch8 m a') /\
    (forall a', byte_ok m a' -> byte_ok m' a') /\ same_bus m m'.
Proof.
  intros (i & d & h & Hf & Hb & Hh) Ha Hv.
  destruct (util_write8_run m a v i d h Hf Hb) as (new & Hnew & Hrun).
  destruct (util_write8_read m a v i d h Hf Hb Hh Hv) as (m' & Hrun' & Hget & Hsame & Helse & Hregs).
  assert (m' = set_body m i (same_body d (upd h (half_slot d (half_addr a)) new))) as -> by congruence.
  eexists. split; [done|]. split; [by repeat split|]. split; [|split; [|apply same_bus_write; [by apply find_dev_lookup in Hf as [? _]|by exists h|intros k; by apply upd_range] ] ].
  - intros a' Ha'. destruct (Z.eqb_spec a' a) as [->|Hne]; [done|].
    pose proof (half_addr_even a Ha) as He. pose proof (half_addr_even a' Ha') as He'.
    pose proof (Z.mod_pos_bound a 2 ltac:(lia)). pose proof (Z.mod_pos_bound a' 2 ltac:(lia)).
    destruct (decide (half_addr a' = half_addr a)) as [Hh'|Hh'].
    + apply Hsame; [done|]. rewrite !bit0_mod2. do 2 case_bool_decide; try done; lia.
    + unfold mcu_util_fetch8. fold (half_addr a'). rewrite Helse; [done|].
      intros j d' Hf' ->. assert (d' = d) as ->.
      { apply find_dev_lookup in Hf as [E1 _]. apply find_dev_lookup in Hf' as [E2 _]. congruence. }
      unfold half_slot. rewrite !Z.shiftr_div_pow2 by lia. change (2 ^ 1) with 2.
      pose proof (Z.div_mod a 2). pose proof (Z.div_mod a' 2).
      pose proof (Z.div_mod (half_addr a - offset d) 2). pose proof (Z.mod_pos_bound (half_addr a - offset d) 2).
      pose proof (Z.div_mod (half_addr a' - offset d) 2). pose proof (Z.mod_pos_bound (half_addr a' - offset d) 2). lia.
  - intros a' Hok. pose proof Hf as [Hd _]%find_dev_lookup. eapply byte_ok_step; try done; [|by eexists].
    intros k. by apply upd_range.
Qed.

(** ** Images *)

(** Memory after the bytes of an image went to it. *)
Definition put_image (img : list (Z * Z)) (f : Z -> option Z) : Z -> option Z :=
  foldl (fun f p => upd f p.1 (Some p.2)) f img.

Lemma put_image_app i1 i2 f : put_image (i1 ++ i2) f = put_image i2 (put_image i1 f).
Proof. apply foldl_app. Qed.

(** What loading an image does to a machine. *)
Definition loaded (img : list (Z * Z)) (m m' : mcu) : Prop :=
  same_control m m' /\ (forall a, in_u 32 a -> mcu_util_fetch8 m' a = put_image img (mcu_util_fetch8 m) a) /\
  (forall a, byte_ok m a -> byte_ok m' a) /\ same_bus m m'.

Lemma put_image_ext img f g a : (forall a, in_u 32 a -> f a = g a) -> in_u 32 a -> put_image img f a = put_image img g a.
Proof.
  revert f g. induction img as [|p img IH]; intros f g Hfg Ha; [by apply Hfg|]. apply (IH (upd f p.1 (Some p.2)) (upd g p.1 (Some p.2))); [|done].
  intros b Hb. unfold upd. destruct (b =? p.1); [done|by apply Hfg].
Qed.

Lemma loaded_nil m : loaded [] m m.
Proof. split; [reflexivity|]. split; [done|]. split; [done|reflexivity]. Qed.

Lemma loaded_app i1 i2 m1 m2 m3 : loaded i1 m1 m2 -> loaded i2 m2 m3 -> loaded (i1 ++ i2) m1 m3.
Proof.
  intros (H1 & H2 & H3 & H7) (H4 & H5 & H6 & H8). split; [by etransitivity|]. split; [|split; [by auto|by etransitivity] ].
  intros a Ha. rewrite H5, put_image_app by done. by apply put_image_ext.
Qed.

Lemma load_byte_run m a b : byte_ok m a -> in_u 32 a -> in_u 8 b ->
  exists m', mcu_util_write8 a b m = Ret true m' /\ loaded [(a, b)] m m'.
Proof.
  intros Hok Ha Hb. destruct (util_write8_view m a b Hok Ha Hb) as (m' & E & Hc & Hv & Hk & Hbus).
  exists m'. split; [done|]. split; [done|]. split; [|by split]. intros x Hx. rewrite Hv by done. reflexivity.
Qed.

Lemma loaded_ext i1 i2 m m' : (forall f x, in_u 32 x -> put_image i1 f x = put_image i2 f x) -> loaded i1 m m' -> loaded i2 m m'.
Proof. intros He (H1 & H2 & H3). split; [done|]. split; [|done]. intros x Hx. rewrite H2 by done. by apply He. Qed.

(** A half written as a whole: both its bytes are set, and no other. *)
Lemma write16_view m a new : byte_ok m a -> in_u 32 a -> in_u 16 new ->
  exists m', mcu_write16 (half_addr a) new m = Ret true m' /\
    loaded [(half_addr a, Z.land new 0xFF); (half_addr a + 1, Z.shiftr new 8)] m m'.
Proof.
  intros (i & d & h & Hf & Hb & Hh) Ha Hn. set (k := half_slot d (half_addr a)).
  exists (set_body m i (same_body d (upd h k new))). split; [by apply write16_memory|].
  pose proof (is_memory_body _ _ _ Hb) as Hm. pose proof Hf as [Hd _]%find_dev_lookup.
  pose proof (fun x => set_body_find m i d (same_body d (upd h k new)) _ x Hf (same_body_kind m d h _ Hb)) as Hs.
  set (d2 := mk_dev (dev_class d) (dev_type d) (offset d) (dev_length d) (same_body d (upd h k new))) in *.
  assert (body d2 = Ram (upd h k new) \/ body d2 = Flash (upd h k new)) as Hb2
    by (apply same_body_mem; by destruct Hm as [-> | ->]).
  split; [by repeat split|]. split; [|split; [|apply same_bus_write; [done|by exists h|intros x; by apply upd_range] ] ].
  2: { intros x Hok. eapply byte_ok_step; try done; [|by eexists]. intros y. by apply upd_range. }
  intros x Hx. unfold put_image. cbn [foldl fst snd].
  pose proof (half_addr_even a Ha) as He. pose proof (half_addr_even x Hx) as Hex.
  pose proof (Z.mod_pos_bound a 2 ltac:(lia)). pose proof (Z.mod_pos_bound x 2 ltac:(lia)).
  pose proof (Z.div_mod a 2 ltac:(lia)). pose proof (Z.div_mod x 2 ltac:(lia)).
  destruct (decide (half_addr x = half_addr a)) as [Eh|Eh].
  - assert (find_dev (mem_devs (set_body m i (same_body d (upd h k new)))) (half_addr x) = Some (i, d2)) as Hf2
      by (by rewrite Eh, Hs, Hf, decide_True).
    rewrite (util_fetch8_memory _ _ _ _ _ Hf2 Hb2). change (half_slot d2 (half_addr x)) with (half_slot d (half_addr x)).
    rewrite Eh. fold k. rewrite upd_eq, bit0_mod2. case_bool_decide as Eo.
    + replace x with (half_addr a + 1) by lia. rewrite upd_eq. f_equal. change 0xFF with (Z.ones 8). rewrite Z.land_ones by lia.
      apply Z.mod_small. rewrite Z.shiftr_div_pow2 by lia. unfold in_u in Hn. split; [apply Z.div_pos; lia|apply Z.div_lt_upper_bound; lia].
    + replace x with (half_addr a) by lia. rewrite upd_ne by (clear; lia). rewrite upd_eq. done.
  - rewrite !upd_ne by lia. unfold mcu_util_fetch8. fold (half_addr x).
    assert (mcu_fetch16 (set_body m i (same_body d (upd h k new))) (half_addr x) = mcu_fetch16 m (half_addr x)) as ->; [|done].
    unfold mcu_fetch16. rewrite Hs. destruct (find_dev (mem_devs m) (half_addr x)) as [ [j d']|] eqn:E; [|done].
    destruct (decide (i = j)) as [<-|]; [|done].
    assert (d' = d) as -> by (apply find_dev_lookup in E as [? _]; congruence).
    unfold dev_fetch16. change (offset d2) with (offset d).
    transitivity (Some (upd h k new (half_slot d (half_addr x)))); [by destruct Hb2 as [-> | ->]|].
    rewrite upd_ne; [by destruct Hm as [-> | ->]|]. unfold k, half_slot. rewrite !Z.shiftr_div_pow2 by lia. change (2 ^ 1) with 2.
    pose proof (Z.div_mod (half_addr a - offset d) 2). pose proof (Z.mod_pos_bound (half_addr a - offset d) 2).
    pose proof (Z.div_mod (half_addr x - offset d) 2). pose proof (Z.mod_pos_bound (half_addr x - offset d) 2). lia.
Qed.

Definition addressed (pa j : Z) (bs : list Z) : list (Z * Z) := imap (fun k b => (u32 (pa + (j + Z.of_nat k)), b)) bs.

Lemma addressed_cons a j b data : addressed a j (b :: data) = (u32 (a + j), b) :: addressed a (j + 1) data.
Proof.
  unfold addressed. rewrite imap_cons. f_equal; [do 2 f_equal; lia|].
  apply imap_ext. intros k y _. simpl. do 2 f_equal. lia.
Qed.

(** Bytes at ascending addresses that do not wrap around. *)
Lemma put_addressed pa bs : forall j f x, 0 <= pa + j -> pa + j + Z.of_nat (length bs) <= 2 ^ 32 ->
  put_image (addressed pa j bs) f x =
  if decide (pa + j <= x < pa + j + Z.of_nat (length bs)) then bs !! Z.to_nat (x - (pa + j)) else f x.
Proof.
  induction bs as [|b bs IH]; intros j f x Hj Hlen.
  { simpl. by rewrite decide_False by lia. }
  rewrite addressed_cons.
  change (put_image ((u32 (pa + j), b) :: addressed pa (j + 1) bs) f x)
    with (put_image (addressed pa (j + 1) bs) (upd f (u32 (pa + j)) (Some b)) x).
  simpl in Hlen. rewrite IH by lia. simpl. rewrite wrap_id by (unfold in_u; lia).
  destruct (decide (x = pa + j)) as [->|Hne].
  - rewrite decide_False by lia. rewrite decide_True by lia. rewrite upd_eq. by rewrite Z.sub_diag.
  - rewrite upd_ne by done. destruct (decide (pa + (j + 1) <= x < pa + (j + 1) + Z.of_nat (length bs))).
    + rewrite decide_True by lia. replace (Z.to_nat (x - (pa + j))) with (S (Z.to_nat (x - (pa + (j + 1))))) by lia. done.
    + by rewrite decide_False by lia.
Qed.
