(* ===== verification/Elf.v ===== *)
(** * Elf: loading a firmware image into the simulator

    [tools/simulator/core/elf.c].  The file descriptor's [lseek] and [read] are
    given ([host]); what POSIX says of a regular file is the class [HostFile].  The
    two packed structures are read as the bytes of the file on the little-endian
    host; [uninit] is what a variable holds that [read] does not fill. *)
From S2P Require Import Prelude Machine MachineFacts ThumbSafe ThumbSpec Frame Bus MemBytes.

(** ** The two headers *)

Definition ELF_MAGIC0 : Z := 0x7F.
Definition ELF_MAGIC1 : Z := 69.
Definition ELF_MAGIC2 : Z := 76.
Definition ELF_MAGIC3 : Z := 70.
Definition ELF_PROG_TYPE_LOAD : Z := 1.

Record elf_header := mk_elf_header { ident : list Z; phoff : Z; phentsize : Z; phnum : Z }.
Record elf_prog_header := mk_ph { ph_type : Z; ph_offset : Z; paddr : Z; filesz : Z }.

(** The little-endian number in the [n] bytes from [o] on. *)
Definition le_at (bs : list Z) (o n : nat) : Z := foldr (fun b acc => b + 256 * acc) 0 (take n (drop o bs)).

Definition sizeof_elf_header : Z := 52.
Definition sizeof_elf_prog_header : Z := 32.
Definition elf_header_of (bs : list Z) : elf_header :=
  mk_elf_header (take 16 bs) (le_at bs 28 4) (le_at bs 42 2) (le_at bs 44 2).
Definition elf_prog_header_of (bs : list Z) : elf_prog_header :=
  mk_ph (le_at bs 0 4) (le_at bs 4 4) (le_at bs 12 4) (le_at bs 16 4).

(** The file operations on the state [W] of the host: a result and, for a read,
    the bytes stored. *)
Record host_file (W : Type) := mk_host {
  lseek : Z -> W -> Z * W;
  fd_read : Z -> W -> Z * list Z * W }.
Arguments mk_host {W}. Arguments lseek {W}. Arguments fd_read {W}.

Section Elf.
Context {W : Type} (host : host_file W) (uninit : Z).

(** A structure of [size] bytes that a read filled from its start. *)
Definition filled (size : Z) (bs : list Z) : list Z := bs ++ replicate (Z.to_nat size - length bs) uninit.

Definition is_elf (h : elf_header) : bool :=
  bool_decide (take 4 (ident h) = [ELF_MAGIC0; ELF_MAGIC1; ELF_MAGIC2; ELF_MAGIC3]).

Definition locked (w : W) : M (bool * W) := run! modify mcu_lock in ret (false, w).

(** The loop over [j]: [count] bytes of the segment are left. *)
Fixpoint load_bytes (count : nat) (paddr j : Z) (w : W) : M (bool * W) :=
  match count with
  | O => ret (true, w)
  | S count =>
      let '(n, bs, w) := fd_read host 1 w in
      if n <? 0 then locked w
      else
        let byte := hd uninit bs in
        let! ok := mcu_util_write8 (u32 (paddr + j)) byte in
        if negb ok then locked w else load_bytes count paddr (u32 (j + 1)) w
  end.

(** The loop over [i]: [count] program headers are left. *)
Fixpoint load_segments (count : nat) (h : elf_header) (i : Z) (w : W) : M (bool * W) :=
  match count with
  | O => run! modify mcu_lock in ret (true, w)
  | S count =>
      let (off, w) := lseek host (u32 (phoff h + i * phentsize h)) w in
      if off <? 0 then locked w
      else
        let '(n, bs, w) := fd_read host sizeof_elf_prog_header w in
        if n <? 0 then locked w
        else
          let ph := elf_prog_header_of (filled sizeof_elf_prog_header bs) in
          if ph_type ph =? ELF_PROG_TYPE_LOAD then
            let (off, w) := lseek host (ph_offset ph) w in
            if off <? 0 then locked w
            else
              let! r := load_bytes (Z.to_nat (filesz ph)) (paddr ph) 0 w in
              let (ok, w) := (r : bool * W) in
              if ok then load_segments count h (u16 (i + 1)) w else ret (false, w)
          else load_segments count h (u16 (i + 1)) w
  end.

Definition elf_load_fd (w : W) : M (bool * W) :=
  let (off, w) := lseek host 0 w in
  if off <? 0 then ret (false, w)
  else
    let '(n, bs, w) := fd_read host sizeof_elf_header w in
    if n <? 0 then ret (false, w)
    else
      let h := elf_header_of (filled sizeof_elf_header bs) in
      if negb (is_elf h) then ret (false, w)
      else
        run! modify mcu_unlock in
        load_segments (Z.to_nat (phnum h)) h 0 w.
End Elf.

(** ** What a loader has to do *)

(** A regular file with contents [bytes]. *)
Class HostFile {W : Type} (host : host_file W) (bytes : list Z) (pos : W -> Z) : Prop := {
  host_lseek off w : 0 <= off -> exists w', lseek host off w = (off, w') /\ pos w' = off;
  host_read n w : 0 <= pos w -> 0 <= n ->
    let bs := take (Z.to_nat n) (drop (Z.to_nat (pos w)) bytes) in
    exists w', fd_read host n w = (Z.of_nat (length bs), bs, w') /\ pos w' = pos w + Z.of_nat (length bs) }.

(** The program headers of a file. *)
Definition file_ph (bytes : list Z) (i : nat) : elf_prog_header :=
  let h := elf_header_of (take 52 bytes) in
  elf_prog_header_of (take 32 (drop (Z.to_nat (phoff h + Z.of_nat i * phentsize h)) bytes)).

Definition file_phs (bytes : list Z) : list elf_prog_header :=
  file_ph bytes <$> seq 0 (Z.to_nat (phnum (elf_header_of (take 52 bytes)))).

(** The bytes a segment puts at addresses, and those of the file, in order. *)
Definition segment_image (bytes : list Z) (ph : elf_prog_header) : list (Z * Z) :=
  imap (fun j b => (u32 (paddr ph + Z.of_nat j), b)) (take (Z.to_nat (filesz ph)) (drop (Z.to_nat (ph_offset ph)) bytes)).

Definition image (bytes : list Z) : list (Z * Z) :=
  filter (fun ph => ph_type ph = ELF_PROG_TYPE_LOAD) (file_phs bytes) ≫= segment_image bytes.

(** The headers and segments lie within the file. *)
Definition well_formed (bytes : list Z) : Prop :=
  let h := elf_header_of (take 52 bytes) in
  is_elf h = true /\ 52 <= Z.of_nat (length bytes) /\ Forall (in_u 8) bytes /\
  forall i, (i < Z.to_nat (phnum h))%nat ->
    phoff h + Z.of_nat i * phentsize h + 32 <= Z.of_nat (length bytes) < 2 ^ 32 /\
    ph_offset (file_ph bytes i) + filesz (file_ph bytes i) <= Z.of_nat (length bytes).

Section Spec.
Context {W : Type} (host : host_file W) (uninit : Z) (bytes : list Z) (pos : W -> Z).
Context `{HF : HostFile W host bytes pos}.

Lemma load_bytes_run n : forall pa j w m,
  0 <= pos w -> pos w + Z.of_nat n <= Z.of_nat (length bytes) -> 0 <= j -> j + Z.of_nat n < 2 ^ 32 -> Forall (in_u 8) bytes ->
  (forall a b, (a, b) ∈ addressed pa j (take n (drop (Z.to_nat (pos w)) bytes)) -> byte_ok m a) ->
  exists w' m', load_bytes host uninit n pa j w m = Ret (true, w') m' /\
    loaded (addressed pa j (take n (drop (Z.to_nat (pos w)) bytes))) m m'.
Proof.
  induction n as [|n IH]; intros pa j w m Hp Hlen Hj Hjn H8 Hok.
  { exists w, m. split; [done|]. rewrite take_0. apply loaded_nil. }
  destruct (host_read (HostFile := HF) 1 w Hp ltac:(lia)) as (w1 & E1 & Hp1).
  destruct (drop (Z.to_nat (pos w)) bytes) as [|b bs] eqn:Hd.
  { apply (f_equal length) in Hd. rewrite length_drop in Hd. simpl in Hd. lia. }
  simpl in E1, Hp1. assert (drop (Z.to_nat (pos w1)) bytes = bs) as Hd1.
  { replace (Z.to_nat (pos w1)) with (Z.to_nat (pos w) + 1)%nat by lia. rewrite <-drop_drop, Hd. done. }
  assert (in_u 8 b) as Hb.
  { rewrite Forall_forall in H8. apply H8. apply (subseteq_drop (Z.to_nat (pos w))). rewrite Hd. set_solver. }
  cbn [load_bytes]. rewrite E1. cbn [hd]. rewrite (proj2 (Z.ltb_ge _ 0)) by lia.
  assert (addressed pa j (take (S n) (b :: bs)) = (u32 (pa + j), b) :: addressed pa (j + 1) (take n bs)) as Hcons.
  { unfold addressed. rewrite firstn_cons, imap_cons. f_equal; [do 2 f_equal; lia|].
    apply imap_ext. intros k x _. simpl. do 2 f_equal. lia. }
  rewrite Hcons in *.
  destruct (load_byte_run m (u32 (pa + j)) b) as (m1 & Em & Hl1); [by eapply Hok; left|by apply wrap_range|done|].
  unfold bind at 1. rewrite Em. cbn [negb]. rewrite (wrap_id 32 (j + 1)) by (unfold in_u; lia).
  destruct (IH pa (j + 1) w1 m1) as (w2 & m2 & E2 & Hl2); [lia..|done| |].
  { rewrite Hd1. intros a x Hin. apply Hl1. by eapply Hok; right. }
  exists w2, m2. split; [done|]. rewrite Hd1 in Hl2. by apply (loaded_app [_] _ m m1 m2).
Qed.

Lemma le_at_range bs o n : Forall (in_u 8) bs -> 0 <= le_at bs o n < 256 ^ Z.of_nat n.
Proof.
  intros H. unfold le_at. assert (Forall (in_u 8) (drop o bs)) as Hd by (by apply Forall_drop).
  revert Hd. generalize (drop o bs) as l. clear. induction n as [|n IH]; intros l Hl; [by rewrite take_0|].
  destruct Hl as [|b l Hb Hl]; [rewrite take_nil; simpl; split; [done|]; by apply Z.pow_pos_nonneg; lia|].
  specialize (IH l Hl). rewrite firstn_cons, Nat2Z.inj_succ, Z.pow_succ_r by lia. simpl. unfold in_u in Hb. lia.
Qed.

Lemma filled_full size bs : Z.to_nat size = length bs -> filled uninit size bs = bs.
Proof. intros E. unfold filled. rewrite E, Nat.sub_diag. apply app_nil_r. Qed.

Lemma segment_addressed ph : segment_image bytes ph =
  addressed (paddr ph) 0 (take (Z.to_nat (filesz ph)) (drop (Z.to_nat (ph_offset ph)) bytes)).
Proof. apply imap_ext. intros k x _. simpl. done. Qed.

Lemma load_segments_run n : forall i w m, well_formed bytes ->
  (i + n)%nat = Z.to_nat (phnum (elf_header_of (take 52 bytes))) ->
  (forall ph a b, ph ∈ file_ph bytes <$> seq i n -> ph_type ph = ELF_PROG_TYPE_LOAD -> (a, b) ∈ segment_image bytes ph -> byte_ok m a) ->
  exists w' m', load_segments host uninit n (elf_header_of (take 52 bytes)) (Z.of_nat i) w m = Ret (true, w') (mcu_lock m') /\
    loaded (filter (fun ph => ph_type ph = ELF_PROG_TYPE_LOAD) (file_ph bytes <$> seq i n) ≫= segment_image bytes) m m'.
Proof.
  induction n as [|n IH]; intros i w m Hwf Hin Hok.
  { exists w, m. split; [done|apply loaded_nil]. }
  pose proof Hwf as (_ & Hlen & H8 & Hphs). destruct (Hphs i ltac:(lia)) as [Hph Hseg].
  set (h := elf_header_of (take 52 bytes)) in *. cbv zeta in *.
  assert (0 <= phoff h /\ 0 <= phentsize h /\ 0 <= phnum h < 65536) as (Hpo & Hpe & Hpn).
  { assert (Forall (in_u 8) (take 52 bytes)) as Ht by (by apply Forall_take).
    pose proof (le_at_range _ 28 4 Ht). pose proof (le_at_range _ 42 2 Ht). pose proof (le_at_range _ 44 2 Ht).
    change (256 ^ Z.of_nat 2) with 65536 in *. simpl in *. lia. }
  cbn [load_segments]. rewrite wrap_id by (unfold in_u; lia).
  destruct (host_lseek (HostFile := HF) (phoff h + Z.of_nat i * phentsize h) w ltac:(lia)) as (w1 & E1 & Hp1).
  rewrite E1, (proj2 (Z.ltb_ge _ 0)) by lia.
  destruct (host_read (HostFile := HF) sizeof_elf_prog_header w1 ltac:(lia) ltac:(done)) as (w2 & E2 & Hp2).
  rewrite Hp1 in E2. rewrite E2, (proj2 (Z.ltb_ge _ 0)) by lia.
  rewrite filled_full by (rewrite length_take, length_drop; unfold sizeof_elf_prog_header; lia).
  change (elf_prog_header_of (take (Z.to_nat sizeof_elf_prog_header) (drop (Z.to_nat (phoff h + Z.of_nat i * phentsize h)) bytes)))
    with (file_ph bytes i).
  set (ph := file_ph bytes i) in *. cbn [seq fmap list_fmap]. cbv zeta. fold ph.
  assert (u16 (Z.of_nat i + 1) = Z.of_nat (S i)) as ->.
  { rewrite wrap_id by (unfold in_u; lia). lia. }
  assert (forall w m1, loaded [] m m1 \/ loaded (segment_image bytes ph) m m1 ->
    exists w' m', load_segments host uninit n h (Z.of_nat (S i)) w m1 = Ret (true, w') (mcu_lock m') /\
      loaded (filter (fun ph => ph_type ph = ELF_PROG_TYPE_LOAD) (file_ph bytes <$> seq (S i) n) ≫= segment_image bytes) m1 m') as Hrest.
  { intros w' m1 Hl. apply IH; [done|lia|]. intros ph' a b Hp' Ht Hab. assert (byte_ok m a) by (eapply Hok; try done; by right).
    destruct Hl as [Hl|Hl]; by apply Hl. }
  destruct (Z.eqb_spec (ph_type ph) ELF_PROG_TYPE_LOAD) as [Ht|Ht].
  - assert (0 <= ph_offset ph /\ 0 <= filesz ph < 2 ^ 32) as [Hpho Hfs].
    { unfold ph, file_ph. cbv zeta. fold h. set (l := take 32 _). assert (Forall (in_u 8) l) as Hl8 by (by apply Forall_take, Forall_drop).
      pose proof (le_at_range l 4 4 Hl8). pose proof (le_at_range l 16 4 Hl8). change (256 ^ Z.of_nat 4) with (2 ^ 32) in *. simpl in *. lia. }
    destruct (host_lseek (HostFile := HF) (ph_offset ph) w2 ltac:(lia)) as (w3 & E3 & Hp3). rewrite E3, (proj2 (Z.ltb_ge _ 0)) by lia.
    destruct (load_bytes_run (Z.to_nat (filesz ph)) (paddr ph) 0 w3 m) as (w4 & m4 & E4 & Hl4); [lia..|done| |].
    { rewrite Hp3, <-segment_addressed. intros a b Hab. eapply Hok; [by left|done..]. }
    unfold bind at 1. rewrite E4. rewrite Hp3, <-segment_addressed in Hl4.
    destruct (Hrest w4 m4) as (w5 & m5 & E5 & Hl5); [by right|]. exists w5, m5. split; [done|].
    rewrite filter_cons_True by done. by apply (loaded_app _ _ m m4 m5).
  - rewrite filter_cons_False by done. apply Hrest. left. apply loaded_nil.
Qed.

Lemma elf_start w m : 52 <= Z.of_nat (length bytes) -> exists w', elf_load_fd host uninit w m =
  (if negb (is_elf (elf_header_of (take 52 bytes))) then ret (false, w')
   else run! modify mcu_unlock in
        load_segments host uninit (Z.to_nat (phnum (elf_header_of (take 52 bytes)))) (elf_header_of (take 52 bytes)) 0 w') m.
Proof.
  intros Hlen. unfold elf_load_fd. destruct (host_lseek (HostFile := HF) 0 w ltac:(lia)) as (w1 & E1 & Hp1). rewrite E1. cbn [Z.ltb Z.compare].
  destruct (host_read (HostFile := HF) sizeof_elf_header w1 ltac:(lia) ltac:(done)) as (w2 & E2 & Hp2).
  rewrite Hp1 in E2. rewrite E2, (proj2 (Z.ltb_ge _ 0)) by lia.
  rewrite filled_full by (rewrite length_take, length_drop; unfold sizeof_elf_header; lia). by exists w2.
Qed.

Lemma elf_load_run w m : well_formed bytes -> (forall a b, (a, b) ∈ image bytes -> byte_ok (mcu_unlock m) a) ->
  exists w' m', elf_load_fd host uninit w m = Ret (true, w') (mcu_lock m') /\ loaded (image bytes) (mcu_unlock m) m'.
Proof.
  intros Hwf Hok. pose proof Hwf as (Hm & Hlen & _). destruct (elf_start w m Hlen) as [w' ->]. rewrite Hm. cbn [negb].
  destruct (load_segments_run (Z.to_nat (phnum (elf_header_of (take 52 bytes)))) 0 w' (mcu_unlock m) Hwf eq_refl) as (w2 & m2 & E2 & Hl).
  { intros ph a b Hph Ht Hab. apply (Hok a b). unfold image. rewrite list_elem_of_bind. exists ph. split; [done|].
    by apply list_elem_of_filter. }
  exists w2, m2. unfold bind at 1, modify. by split.
Qed.

Lemma elf_refused w m : 52 <= Z.of_nat (length bytes) -> is_elf (elf_header_of (take 52 bytes)) = false ->
  exists w', elf_load_fd host uninit w m = Ret (false, w') m.
Proof. intros Hlen Hm. destruct (elf_start w m Hlen) as [w' ->]. rewrite Hm. by exists w'. Qed.

(** Loading a well-formed file succeeds whenever all its bytes go to RAM or
    flash: the machine holds at every address the byte the last segment puts there,
    or what it held before, its registers are as before and the flash is locked
    again; a file without the magic number is refused and changes nothing. *)
Theorem elf_load_image w m :
  (well_formed bytes -> (forall a b, (a, b) ∈ image bytes -> byte_ok (mcu_unlock m) a) ->
    exists w' m', elf_load_fd host uninit w m = Ret (true, w') m' /\
      (forall a, in_u 32 a -> mcu_util_fetch8 m' a = put_image (image bytes) (mcu_util_fetch8 m) a) /\
      regs m' = regs m /\ unlocked m' = false) /\
  (52 <= Z.of_nat (length bytes) -> is_elf (elf_header_of (take 52 bytes)) = false ->
    exists w', elf_load_fd host uninit w m = Ret (false, w') m).
Proof.
  split; [|apply elf_refused]. intros Hwf Hok. destruct (elf_load_run w m Hwf Hok) as (w' & m' & E & Hc & Hv & _).
  exists w', (mcu_lock m'). split; [exact E|]. split; [intros a Ha; apply (Hv a Ha)|]. split; [apply Hc|done].
Qed.
End Spec.

(** ** Two segments, the second over the first *)

Definition list_file (bytes : list Z) : host_file Z := mk_host
  (fun off pos => (off, off))
  (fun n pos => let bs := take (Z.to_nat n) (drop (Z.to_nat pos) bytes) in
                (Z.of_nat (length bs), bs, pos + Z.of_nat (length bs))).

#[export] Instance list_file_posix bytes : HostFile (list_file bytes) bytes (fun pos => pos).
Proof. split; intros; eexists; (split; [reflexivity|done]). Qed.

Definition ex_ph (ty off pa size : Z) : list Z :=
  [ty; 0; 0; 0; off; 0; 0; 0] ++ replicate 4 0 ++ [pa; 0; 0; 0x10; size; 0; 0; 0] ++ replicate 12 0.

Definition ex_elf : list Z :=
  [0x7F; 69; 76; 70] ++ replicate 24 0 ++ [52; 0; 0; 0] ++ replicate 10 0 ++ [32; 0; 3; 0] ++ replicate 6 0 ++
  ex_ph 1 148 4 3 ++ ex_ph 0 0 0 0 ++ ex_ph 1 150 6 2 ++ [0xAA; 0xBB; 0xCC; 0xDD].

Lemma elf_load_image_witness :
  exists w' m', elf_load_fd (list_file ex_elf) 0 7 board = Ret (true, w') m' /\
    (mcu_util_fetch8 m' 0x10000004, mcu_util_fetch8 m' 0x10000005, mcu_util_fetch8 m' 0x10000006, mcu_util_fetch8 m' 0x10000007)
    = (Some 0xAA, Some 0xBB, Some 0xCC, Some 0xDD) /\ unlocked m' = false.
Proof.
  destruct (elf_load_image (list_file ex_elf) 0 ex_elf (fun pos => pos) 7 board) as [H _].
  destruct H as (w' & m' & E & Hv & _ & Hu).
  - split; [reflexivity|]. split; [vm_compute; discriminate|]. split.
    + by apply (bool_decide_unpack (Forall (fun b => 0 <= b < 256) ex_elf)).
    + change (Z.to_nat (phnum (elf_header_of (take 52 ex_elf)))) with 3%nat.
      intros [|[|[|i] ] ] Hi; [vm_compute; intuition discriminate..|lia].
  - intros a b Hab. exists 2%nat, board_ram, (fun _ => 0).
    change (image ex_elf) with [(0x10000004, 0xAA); (0x10000005, 0xBB); (0x10000006, 0xCC); (0x10000006, 0xCC); (0x10000007, 0xDD)] in Hab.
    split; [|split; [by left|intros; by apply in_u_const] ].
    repeat first [apply elem_of_cons in Hab as [ [= -> ->] |Hab] ; [reflexivity|] | by apply not_elem_of_nil in Hab].
  - exists w', m'. split; [exact E|]. split; [|exact Hu]. rewrite !Hv by by apply in_u_const. reflexivity.
Defined.
