(* ===== verification/Gdb.v ===== *)
(** * Gdb: the debugger stub of the simulator

    [tools/simulator/core/gdb.c]: framing, escapes and checksums of the packets of
    the remote protocol and the commands on the machine.  Characters are the
    bytes 0 to 255; the [char] of the host is signed, and a byte becomes one where
    its value counts ([gdb_mcu_write_byte]).  The socket is the list of the bytes sent, with a given
    decision whether it takes the next ones ([accepts]); a chunk that [read]
    returned is an argument of [gdb_read_callback]. *)
From S2P Require Import Prelude Machine Thumb.

(** ** [strtol] of the host's C library, in base 16 *)

Definition is_space (c : Z) : bool := (c =? 32) || (9 <=? c) && (c <=? 13).

Definition hex_digit (c : Z) : option Z :=
  if (48 <=? c) && (c <=? 57) then Some (c - 48)
  else if (97 <=? c) && (c <=? 102) then Some (c - 87)
  else if (65 <=? c) && (c <=? 70) then Some (c - 55) else None.

Fixpoint skip_space (l : list Z) : list Z :=
  match l with c :: l' => if is_space c then skip_space l' else l | [] => [] end.

Fixpoint hex_digits (acc : Z) (l : list Z) : Z * list Z :=
  match l with
  | c :: l' => match hex_digit c with Some d => hex_digits (acc * 16 + d) l' | None => (acc, l) end
  | [] => (acc, [])
  end.

Definition hex_prefix (l : list Z) : list Z :=
  match l with
  | 48 :: x :: d :: l' => if ((x =? 120) || (x =? 88)) && bool_decide (is_Some (hex_digit d)) then d :: l' else l
  | _ => l
  end.

(** The value and what is left; a [long] has 64 bits. *)
Definition strtol16 (l : list Z) : Z * list Z :=
  let l1 := skip_space l in
  let (neg, l2) := match l1 with 45 :: l' => (true, l') | 43 :: l' => (false, l') | _ => (false, l1) end in
  let l3 := hex_prefix l2 in
  match l3 with
  | c :: _ =>
      match hex_digit c with
      | Some _ =>
          let (v, rest) := hex_digits 0 l3 in
          (if (neg : bool) then Z.max (- v) (- 2 ^ 63) else Z.min v (2 ^ 63 - 1), rest)
      | None => (0, l)
      end
  | [] => (0, l)
  end.

(** ** The state *)

Record gdb := mk_gdb {
  gdb_fd : Z;
  rev_buffer : list Z;      (* all its 4096 bytes *)
  rev_buffer_filled : nat;
  packet_checksum : Z;
  sent : list Z }.

Record dbg := mk_dbg { stub : gdb; target : mcu }.

Inductive gres (A : Type) := GRet (a : A) (s : dbg) | GExited (code : Z) (s : dbg) | GUndef.
Arguments GRet {A}. Arguments GExited {A}. Arguments GUndef {A}.
Definition G (A : Type) : Type := dbg -> gres A.

Definition gret {A} (a : A) : G A := fun s => GRet a s.
Definition gbind {A B} (c : G A) (k : A -> G B) : G B := fun s =>
  match c s with GRet a s' => k a s' | GExited n s' => GExited n s' | GUndef => GUndef end.
Definition gundef {A} : G A := fun _ => GUndef.
Definition ggets {A} (f : dbg -> A) : G A := fun s => GRet (f s) s.
Definition on_stub (f : gdb -> gdb) : G unit := fun s => GRet tt (mk_dbg (f (stub s)) (target s)).

Declare Scope gdb_scope.
Notation "'let?' x := c 'in' k" := (gbind c (fun x => k))
  (at level 10, x pattern, c at level 100, k at level 200) : gdb_scope.
Notation "'run?' c 'in' k" := (gbind c (fun _ => k))
  (at level 10, c at level 100, k at level 200) : gdb_scope.
#[global] Open Scope gdb_scope.

Definition set_fd (v : Z) (g : gdb) := mk_gdb v (rev_buffer g) (rev_buffer_filled g) (packet_checksum g) (sent g).
Definition set_buffer (v : list Z) (g : gdb) := mk_gdb (gdb_fd g) v (rev_buffer_filled g) (packet_checksum g) (sent g).
Definition set_filled (v : nat) (g : gdb) := mk_gdb (gdb_fd g) (rev_buffer g) v (packet_checksum g) (sent g).
Definition set_checksum (v : Z) (g : gdb) := mk_gdb (gdb_fd g) (rev_buffer g) (rev_buffer_filled g) v (sent g).
Definition set_sent (v : list Z) (g : gdb) := mk_gdb (gdb_fd g) (rev_buffer g) (rev_buffer_filled g) (packet_checksum g) v.

Section Gdb.
Context (accepts : list Z -> list Z -> bool) (gdb_context : Z).

Definition gdb_client_close : G unit := on_stub (fun g => set_filled 0 (set_fd (-1) g)).
Definition gdb_client_error : G unit := gdb_client_close.

(** [write], with the error handling all its callers have. *)
Definition gdb_write (bs : list Z) : G bool :=
  let? g := ggets stub in
  if (0 <=? gdb_fd g) && accepts (sent g) bs then
    run? on_stub (fun g => set_sent (sent g ++ bs) g) in gret true
  else run? gdb_client_error in gret false.

Definition gdb_send_ack : G bool := gdb_write [43; 10].
Definition gdb_send_nack : G bool := gdb_write [45; 10].

Definition gdb_send_packet_begin : G bool :=
  run? on_stub (set_checksum 0) in gdb_write [36].

Definition add_checksum (c : Z) : G unit := on_stub (fun g => set_checksum (u8 (packet_checksum g + c)) g).

Definition gdb_send_packet_char (c : Z) : G bool :=
  let put c := run? add_checksum c in gdb_write [c] in
  if (c =? 36) || (c =? 35) || (c =? 125) then
    run? add_checksum 125 in
    let? ok := gdb_write [125] in
    if negb ok then gret false else put (Z.lxor c 0x20)
  else put c.

Fixpoint gdb_send_packet_str (str : list Z) : G bool :=
  match str with
  | [] => gret true
  | c :: str => let? ok := gdb_send_packet_char c in if negb ok then gret false else gdb_send_packet_str str
  end.

Definition TO_HEX (i : Z) : Z := if i <=? 9 then 48 + i else 97 - 10 + i.

Definition hex_pair (c : Z) : list Z := [TO_HEX (Z.land (Z.shiftr c 4) 0xF); TO_HEX (Z.land (Z.shiftr c 0) 0xF)].

(** The loop over [i], with [count] bytes left. *)
Fixpoint send_hex_loop (count : nat) (number i : Z) : G bool :=
  match count with
  | O => gret true
  | S count =>
      let c := Z.land (Z.shiftr number (i * 8)) 0xFF in
      let? ok := gdb_send_packet_str (hex_pair c) in
      if negb ok then gret false else send_hex_loop count number (i + 1)
  end.
Definition gdb_send_packet_hex (number : Z) (length : nat) : G bool := send_hex_loop length (u32 number) 0.

Definition gdb_send_packet_end : G bool :=
  let? ok := gdb_write [35] in
  if negb ok then gret false
  else let? g := ggets stub in gdb_send_packet_hex (packet_checksum g) 1.

(** ** The machine *)

Definition gdb_mcu_did_halt (reason : Z) : G unit :=
  let? g := ggets stub in
  if (0 <=? reason) && (0 <=? gdb_fd g) then
    run? gdb_send_packet_begin in
    run? gdb_send_packet_str [83] in
    run? gdb_send_packet_hex reason 1 in
    run? gdb_send_packet_end in gret tt
  else gret tt.

Fixpoint did_halt_events (es : list event) : G unit :=
  match es with
  | [] => gret tt
  | EvDidHalt c reason :: es =>
      if c =? gdb_context then run? gdb_mcu_did_halt reason in did_halt_events es else did_halt_events es
  | _ :: es => did_halt_events es
  end.

(** A call into the machine, with the callbacks it makes. *)
Definition on_mcu {A} (c : M A) : G A := fun s =>
  match c (target s) with
  | Ret a m => (run? did_halt_events (drop (length (trace (target s))) (trace m)) in gret a) (mk_dbg (stub s) m)
  | Exited n m => GExited n (mk_dbg (stub s) m)
  | Undef => GUndef
  end.

(** The left shift of a negative [char] is the multiplication the host's compilers
    make of it. *)
Definition gdb_mcu_write_byte (addr c : Z) : M bool :=
  let! val := gets (fun m => mcu_fetch16 m (Z.land addr (u32 (Z.lnot 1)))) in
  match val with
  | None => ret false
  | Some val =>
      let c := i8 c in
      let val := if truth (Z.land addr 1) then u16 (Z.lor (Z.land val 0x00FF) (Z.shiftl c 8))
                 else u16 (Z.lor (Z.land val 0xFF00) c) in
      let! ok := mcu_write16 (Z.land addr (u32 (Z.lnot 1))) val in
      if negb ok then ret false else ret true
  end.

Definition gdb_mcu_fetch_byte (m : mcu) (addr : Z) : option Z :=
  match mcu_fetch16 m (Z.land addr (u32 (Z.lnot 1))) with
  | None => None
  | Some val => Some (if truth (Z.land addr 1) then Z.shiftr (Z.land val 0xFF00) 8 else Z.land val 0x00FF)
  end.

(** ** Packets *)

(** [memmove] within the buffer. *)
Definition move (l : list Z) (dst src n : nat) : list Z := take dst l ++ take n (drop src l) ++ drop (dst + n) l.

(** [strlen] from the start of a list, and the first '#' of it. *)
Fixpoint c_strlen (l : list Z) : nat := match l with [] => O | c :: l => if c =? 0 then O else S (c_strlen l) end.
Fixpoint find_hash (l : list Z) : nat := match l with [] => O | c :: l => if c =? 35 then O else S (find_hash l) end.

Definition sum8 (l : list Z) : Z := foldl (fun acc c => u8 (acc + c)) 0 l.

(** The decoding of escapes: [p] is the packet, [len] its length when it starts,
    [i] the position. *)
Fixpoint decode_loop (fuel : nat) (p : list Z) (len i : nat) : list Z :=
  match fuel with
  | O => p
  | S fuel =>
      match p !! i with
      | None => p
      | Some c =>
          if c =? 0 then p
          else
            let p := if c =? 125 then
                       let p := move p i (i + 1) (len - i - 1) in
                       <[i := Z.lxor (nth i p 0) 0x20]> p
                     else p in
            decode_loop fuel p len (S i)
      end
  end.

Definition decode (p : list Z) : list Z := decode_loop (S (length p)) p (c_strlen p) 0.

Definition starts_with (str p : list Z) : bool := bool_decide (take (length str) p = str).

(** One packet with the reply [body]. *)
Definition reply (body : G unit) : G unit :=
  run? gdb_send_packet_begin in
  run? body in
  run? gdb_send_packet_end in gret tt.

Definition send_str (str : list Z) : G unit := run? gdb_send_packet_str str in gret tt.
Definition send_hex (number : Z) (length : nat) : G unit := run? gdb_send_packet_hex number length in gret tt.

Fixpoint send_regs (count : nat) (reg : Z) : G unit :=
  match count with
  | O => gret tt
  | S count =>
      let? v := ggets (fun s => mcu_read_reg (target s) reg) in
      run? send_hex v 4 in send_regs count (reg + 1)
  end.

(** The loop of 'm': [count] bytes are left. *)
Fixpoint send_memory (count : nat) (addr : Z) : G unit :=
  match count with
  | O => gret tt
  | S count =>
      let? c := ggets (fun s => gdb_mcu_fetch_byte (target s) addr) in
      match c with
      | None => gret tt
      | Some c => run? send_hex c 1 in send_memory count (u32 (addr + 1))
      end
  end.

(** The loop of 'X'; a packet that ends before its data is read past its memory. *)
Fixpoint store_memory (count : nat) (packet : list Z) (addr : Z) : G bool :=
  match count with
  | O => gret true
  | S count =>
      match packet with
      | [] => gundef
      | c :: packet =>
          let? ok := on_mcu (gdb_mcu_write_byte addr c) in
          if negb ok then gret false else store_memory count packet (u32 (addr + 1))
      end
  end.

Definition OK : list Z := [79; 75].
Definition EFF : list Z := [69; 70; 70].
Definition S05 : list Z := [83; 48; 53].
Definition Supported : list Z := [83; 117; 112; 112; 111; 114; 116; 101; 100].
Definition Offsets : list Z := [79; 102; 102; 115; 101; 116; 115].
Definition PacketSize : list Z := [80; 97; 99; 107; 101; 116; 83; 105; 122; 101; 61; 49; 49; 57].
Definition TextDataBss : list Z :=
  [84; 101; 120; 116; 61; 48; 59; 68; 97; 116; 97; 61; 48; 59; 66; 115; 115; 61; 48].

Definition cmd_query (packet : list Z) : G unit :=
  reply (if starts_with Supported packet then send_str PacketSize
         else if starts_with [67] packet then send_str []
         else if starts_with Offsets packet then send_str TextDataBss
         else gret tt).

Definition cmd_read_reg (packet : list Z) : G unit :=
  let reg := u32 (fst (strtol16 packet)) in
  reply (if reg <? reg_count then
           let? v := ggets (fun s => mcu_read_reg (target s) reg) in send_hex v 4
         else gret tt).

(** A register beyond the array is no access of the language. *)
Definition writable (reg : Z) : bool := (reg <? reg_count) || (reg =? REG_APSR) || (reg =? REG_IPSR) || (reg =? REG_EPSR).

Definition cmd_write_reg (packet : list Z) : G unit :=
  let (reg, packet) := strtol16 packet in
  let reg := u32 reg in
  let val := u32 (fst (strtol16 (drop 1 packet))) in
  run? (if (reg =? REG_PC) && (val =? 0) then on_mcu (modify (fun m => snd (mcu_reset m)))
        else if writable reg then on_mcu (modify (fun m => mcu_write_reg m reg val))
        else gundef) in
  reply (send_str OK).

Definition cmd_read_memory (packet : list Z) : G unit :=
  let (addr, packet) := strtol16 packet in
  let length := u32 (fst (strtol16 (drop 1 packet))) in
  reply (send_memory (Z.to_nat length) (u32 addr)).

Definition cmd_write_memory (packet : list Z) : G unit :=
  let (addr, packet) := strtol16 packet in
  let (length, packet) := strtol16 (drop 1 packet) in
  run? on_mcu (modify mcu_unlock) in
  let? sucess := store_memory (Z.to_nat (u32 length)) (drop 1 packet) (u32 addr) in
  run? on_mcu (modify mcu_lock) in
  reply (send_str (if (sucess : bool) then OK else EFF)).

(** The switch over the first character. *)
Definition run_command (cmd : Z) (packet : list Z) : G unit :=
  if cmd =? 113 then cmd_query packet
  else if cmd =? 63 then
    reply (run? send_str [83] in
           let? r := ggets (fun s => mcu_halt_reason (target s)) in send_hex r 1)
  else if cmd =? 72 then reply (send_str OK)
  else if cmd =? 103 then reply (send_regs 17 0)
  else if cmd =? 112 then cmd_read_reg packet
  else if cmd =? 80 then cmd_write_reg packet
  else if cmd =? 109 then cmd_read_memory packet
  else if cmd =? 118 then reply (gret tt)
  else if cmd =? 115 then
    run? on_mcu (mcu_step) in reply (send_str S05)
  else if cmd =? 99 then on_mcu (modify mcu_resume)
  else if cmd =? 88 then cmd_write_memory packet
  else reply (gret tt).

(** [len] characters of the receive buffer from its start, the first a '$'. *)
Definition gdb_handle_packet (len : nat) : G bool :=
  let? g := ggets stub in
  let packet := drop 1 (rev_buffer g) in
  let len := (len - 1)%nat in
  let e := find_hash packet in
  if decide (len <= e)%nat then run? gdb_send_nack in gret false
  else
    let checksum := sum8 (take e packet) in
    let recv_checksum := u8 (fst (strtol16 [nth (e + 1) packet 0; nth (e + 2) packet 0])) in
    let packet := <[e := 0]> packet in
    run? on_stub (fun g => set_buffer (take 1 (rev_buffer g) ++ packet) g) in
    if negb (recv_checksum =? checksum) then run? gdb_send_nack in gret false
    else
      run? gdb_send_ack in
      let packet := decode packet in
      run? on_stub (fun g => set_buffer (take 1 (rev_buffer g) ++ packet) g) in
      run? run_command (nth 0 packet 0) (drop 1 packet) in
      gret true.

(** ** The callbacks of the event loop *)

Definition has_break (l : list Z) : bool := existsb (fun c => c =? 3) l.
Fixpoint find_dollar (l : list Z) : nat := match l with [] => O | c :: l => if c =? 36 then O else S (find_dollar l) end.

Definition do_break (b : bool) : G unit :=
  if b then on_mcu (modify (fun m => mcu_halt m HAL_TRAP)) else gret tt.

Inductive read_result := ReadBytes (bs : list Z) | ReadAgain | ReadError.

(** [r] is what [read] returns, at most the room in the buffer. *)
Definition gdb_read_callback (r : read_result) : G unit :=
  match r with
  | ReadAgain => gret tt
  | ReadError => gdb_client_error
  | ReadBytes bs =>
      run? (match bs with [] => gdb_client_close | _ => gret tt end) in
      let? g := ggets stub in
      let n := rev_buffer_filled g in
      let filled := (n + length bs)%nat in
      let buf := <[filled := 0]> (take n (rev_buffer g) ++ bs ++ drop (n + length bs) (rev_buffer g)) in
      (* the start of a packet, moved to the start of the buffer *)
      let start := find_dollar (take filled buf) in
      let brk := has_break (take start (take filled buf)) in
      let (filled, buf) := (if decide (start < filled)%nat then ((filled - start)%nat, move buf 0 start (filled - start))
                            else (filled, buf)) in
      run? on_stub (fun g => set_filled filled (set_buffer buf g)) in
      if nth 0 buf 0 =? 36 then
        let e := find_hash (take filled buf) in
        if negb (nth e buf 0 =? 35) then gret tt
        else
          let e := (e + 3)%nat in
          if decide (filled < e)%nat then gret tt
          else
            run? gdb_handle_packet e in
            let? g := ggets stub in
            (* the unsigned subtraction wraps when the client was closed *)
            if decide (rev_buffer_filled g < e)%nat then gundef
            else
              let filled := (rev_buffer_filled g - e)%nat in
              let buf := move (rev_buffer g) 0 e filled in
              run? on_stub (fun g => set_filled filled (set_buffer buf g)) in
              do_break (brk || has_break (take (find_dollar (take filled buf)) (take filled buf)))
      else do_break brk
  end.

(** [gdb_accept_callback]: [fd] is what [accept] returns. *)
Definition gdb_accept_callback (fd : Z) : G unit :=
  if fd <? 0 then gret tt
  else
    let? g := ggets stub in
    if 0 <=? gdb_fd g then gret tt else on_stub (set_fd fd).

(** [gdb_create] with [calloc]ed memory, when all its calls succeed. *)
Definition gdb_create (buffer : list Z) : G unit := fun s =>
  GRet tt (mk_dbg (mk_gdb (-1) buffer 0 0 []) (mcu_add_callbacks (target s) (mk_callbacks true gdb_context))).
End Gdb.
