(* ===== verification/GdbSpec.v ===== *)
(** * GdbSpec: what the debugger stub implements

    The frames of the remote protocol as a function of their payload, and the
    commands on memory against the map of bytes of [MemBytes]. *)
From S2P Require Import Prelude Machine MachineFacts ThumbSafe Frame Bus MemBytes Gdb.

(** ** The protocol *)

Definition special (c : Z) : bool := (c =? 36) || (c =? 35) || (c =? 125).
Definition esc (c : Z) : list Z := if special c then [125; Z.lxor c 0x20] else [c].
Definition escape (s : list Z) : list Z := s ≫= esc.

(** A packet with payload [s] on the wire. *)
Definition frame (s : list Z) : list Z := 36 :: escape s ++ 35 :: hex_pair (sum8 (escape s)).

Definition hex_value (ds : list Z) : Z := foldl (fun acc d => acc * 16 + d) 0 ds.
Definition hex_text (ds : list Z) : list Z := TO_HEX <$> ds.
Definition digits_ok (ds : list Z) : Prop := ds <> [] /\ Forall (fun d => 0 <= d < 16) ds.

(** ** Sending *)

Section Sending.
Context (accepts : list Z -> list Z -> bool) (Hacc : forall l bs, accepts l bs = true) (m : mcu).

(** A client is connected, to the machine [m]. *)
Definition connected (s : dbg) : Prop := 0 <= gdb_fd (stub s) /\ target s = m.

(** The state after characters went out as part of a packet. *)
Definition emitted (bs : list Z) (s : dbg) : dbg :=
  mk_dbg (set_sent (sent (stub s) ++ bs)
           (set_checksum (foldl (fun acc c => u8 (acc + c)) (packet_checksum (stub s)) bs) (stub s))) (target s).

Lemma emitted_app xs ys s : emitted ys (emitted xs s) = emitted (xs ++ ys) s.
Proof. unfold emitted. simpl. by rewrite foldl_app, app_assoc. Qed.

Lemma emitted_connected bs s : connected s -> connected (emitted bs s).
Proof. done. Qed.

Lemma emitted_nil s : emitted [] s = s.
Proof. destruct s as [ [] ]. unfold emitted. simpl. by rewrite app_nil_r. Qed.

Lemma gbind_run {A B} (c : G A) (k : A -> G B) s a s' : c s = GRet a s' -> gbind c k s = k a s'.
Proof. unfold gbind. by intros ->. Qed.

Lemma gwrite_run bs s : connected s ->
  gdb_write accepts bs s = GRet true (mk_dbg (set_sent (sent (stub s) ++ bs) (stub s)) (target s)).
Proof.
  intros Hc. unfold gdb_write, gbind, ggets. rewrite Hacc, (proj2 (Z.leb_le 0 _) (proj1 Hc)). done.
Qed.

(** A sending function that puts [bs] into the packet. *)
Definition sends {A} (c : G A) (a : A) (bs : list Z) : Prop := forall s, connected s -> c s = GRet a (emitted bs s).

Lemma sends_bind {A B} (c : G A) (k : A -> G B) a b xs ys : sends c a xs -> sends (k a) b ys -> sends (gbind c k) b (xs ++ ys).
Proof. intros Hc Hk s Hs. rewrite (gbind_run _ _ _ _ _ (Hc s Hs)), <-emitted_app. by apply Hk. Qed.

Lemma sends_ret {A} (a : A) : sends (gret a) a [].
Proof. intros s _. by rewrite emitted_nil. Qed.

Lemma put_sends c : sends (run? add_checksum c in gdb_write accepts [c]) true [c].
Proof. intros s Hs. by apply gwrite_run. Qed.

Lemma char_sends c : sends (gdb_send_packet_char accepts c) true (esc c).
Proof.
  unfold gdb_send_packet_char, esc, special. destruct ((c =? 36) || (c =? 35) || (c =? 125)); [|apply put_sends].
  intros s Hs. change [125; Z.lxor c 32] with ([125] ++ [Z.lxor c 32]).
  pose proof (sends_bind _ (fun ok : bool => if negb ok then gret false else
    run? add_checksum (Z.lxor c 0x20) in gdb_write accepts [Z.lxor c 0x20]) _ _ _ _ (put_sends 125) (put_sends (Z.lxor c 0x20)) s Hs) as H.
  exact H.
Qed.

Lemma str_sends str : sends (gdb_send_packet_str accepts str) true (escape str).
Proof.
  induction str as [|c str IH]; [apply sends_ret|]. cbn [gdb_send_packet_str].
  change (escape (c :: str)) with (esc c ++ escape str). by eapply sends_bind; [apply char_sends|].
Qed.

(** The digits need no escape. *)
Lemma escape_plain s : Forall (fun c => special c = false) s -> escape s = s.
Proof.
  induction 1 as [|c s Hc Hs IH]; [done|]. change (escape (c :: s)) with (esc c ++ escape s).
  unfold esc. by rewrite Hc, IH.
Qed.

Lemma to_hex_plain i : 0 <= i < 16 -> special (TO_HEX i) = false /\ (48 <= TO_HEX i <= 57 \/ 97 <= TO_HEX i <= 102).
Proof.
  intros Hi. unfold TO_HEX, special. destruct (Z.leb_spec i 9); rewrite !orb_false_iff, !Z.eqb_neq; lia.
Qed.

Lemma hex_pair_plain c : Forall (fun c => special c = false) (hex_pair c).
Proof.
  assert (forall x, 0 <= Z.land x 0xF < 16) as H by (intros x; change 0xF with (Z.ones 4); rewrite Z.land_ones by lia; by apply Z.mod_pos_bound).
  repeat constructor; by apply to_hex_plain.
Qed.

Lemma hex_pair_sends c : sends (gdb_send_packet_str accepts (hex_pair c)) true (hex_pair c).
Proof. pose proof (str_sends (hex_pair c)) as H. by rewrite (escape_plain _ (hex_pair_plain c)) in H. Qed.

(** The digits of [count] bytes of a number, lowest first. *)
Fixpoint hex_bytes (count : nat) (number i : Z) : list Z :=
  match count with
  | O => []
  | S count => hex_pair (Z.land (Z.shiftr number (i * 8)) 0xFF) ++ hex_bytes count number (i + 1)
  end.

Lemma hex_sends n number : sends (gdb_send_packet_hex accepts number n) true (hex_bytes n (u32 number) 0).
Proof.
  unfold gdb_send_packet_hex. generalize (u32 number) as v, 0 as i. clear number.
  induction n as [|n IH]; intros v i; [apply sends_ret|]. cbn [send_hex_loop hex_bytes].
  eapply sends_bind; [apply hex_pair_sends|apply IH].
Qed.

Lemma hex_one_sends c : in_u 8 c -> sends (gdb_send_packet_hex accepts c 1) true (hex_pair c).
Proof.
  intros Hc. pose proof (hex_sends 1 c) as H. cbn [hex_bytes] in H. rewrite app_nil_r in H.
  rewrite wrap_id in H by (unfold in_u in *; lia). change (0 * 8) with 0 in H. rewrite Z.shiftr_0_r in H.
  change 0xFF with (Z.ones 8) in H. by rewrite Z.land_ones, Z.mod_small in H by (done || lia).
Qed.

Lemma send_str_sends str : sends (send_str accepts str) tt (escape str).
Proof. rewrite <-(app_nil_r (escape str)). eapply sends_bind; [apply str_sends|apply sends_ret]. Qed.

Lemma send_hex_sends n number : sends (send_hex accepts number n) tt (hex_bytes n (u32 number) 0).
Proof. rewrite <-(app_nil_r (hex_bytes _ _ _)). eapply sends_bind; [apply hex_sends|apply sends_ret]. Qed.

Lemma send_hex_one_sends c : in_u 8 c -> sends (send_hex accepts c 1) tt (hex_pair c).
Proof. intros Hc. rewrite <-(app_nil_r (hex_pair c)). eapply sends_bind; [by apply hex_one_sends|apply sends_ret]. Qed.

(** [s'] is [s] after the stub sent [bs], up to the checksum it computes. *)
Definition answered (bs : list Z) (s s' : dbg) : Prop :=
  target s' = target s /\ gdb_fd (stub s') = gdb_fd (stub s) /\ rev_buffer (stub s') = rev_buffer (stub s) /\
  rev_buffer_filled (stub s') = rev_buffer_filled (stub s) /\ sent (stub s') = sent (stub s) ++ bs.

Lemma sum8_range l : in_u 8 (sum8 l).
Proof.
  unfold sum8. assert (in_u 8 0) as H by (by apply in_u_const). revert H. generalize 0. induction l as [|c l IH]; intros acc Ha; [done|].
  apply IH. by apply wrap_range.
Qed.

(** A reply is a packet. *)
Lemma reply_run body bs s : connected s -> sends body tt bs ->
  exists s', reply accepts body s = GRet tt s' /\ answered (36 :: bs ++ 35 :: hex_pair (sum8 bs)) s s'.
Proof.
  intros Hs Hb. unfold reply, gdb_send_packet_begin.
  set (s1 := mk_dbg (set_checksum 0 (stub s)) (target s)).
  set (s2 := mk_dbg (set_sent (sent (stub s1) ++ [36]) (stub s1)) (target s1)).
  assert (gbind (on_stub (set_checksum 0)) (fun _ => gdb_write accepts [36]) s = GRet true s2) as E2.
  { rewrite (gbind_run _ _ s tt s1) by done. by apply gwrite_run. }
  rewrite (gbind_run _ _ _ _ _ E2), (gbind_run _ _ _ _ _ (Hb s2 Hs)).
  unfold gdb_send_packet_end. set (s3 := emitted bs s2).
  set (s4 := mk_dbg (set_sent (sent (stub s3) ++ [35]) (stub s3)) (target s3)).
  assert (gdb_write accepts [35] s3 = GRet true s4) as E4 by (by apply gwrite_run).
  assert ((let? ok := gdb_write accepts [35] in if negb ok then gret false
           else let? g := ggets stub in gdb_send_packet_hex accepts (packet_checksum g) 1) s3
          = GRet true (emitted (hex_pair (sum8 bs)) s4)) as E5.
  { rewrite (gbind_run _ _ _ _ _ E4). cbn [negb]. unfold ggets. rewrite (gbind_run _ _ _ (stub s4) s4) by done.
    change (packet_checksum (stub s4)) with (sum8 bs). apply hex_one_sends; [apply sum8_range|done]. }
  rewrite (gbind_run _ _ _ _ _ E5). eexists. split; [reflexivity|].
  repeat split. simpl. by rewrite <-!app_assoc.
Qed.
End Sending.

(** ** Reading a packet *)

Lemma hex_digit_to_hex d : 0 <= d < 16 -> hex_digit (TO_HEX d) = Some d.
Proof.
  intros Hd. unfold hex_digit, TO_HEX. destruct (Z.leb_spec d 9).
  - rewrite (proj2 (Z.leb_le 48 (48 + d))), (proj2 (Z.leb_le (48 + d) 57)) by lia. simpl. f_equal. lia.
  - rewrite (proj2 (Z.leb_gt (97 - 10 + d) 57)) by lia. rewrite andb_false_r.
    rewrite (proj2 (Z.leb_le 97 (97 - 10 + d))), (proj2 (Z.leb_le (97 - 10 + d) 102)) by lia. simpl. f_equal. lia.
Qed.

Lemma hex_digits_text ds rest acc : Forall (fun d => 0 <= d < 16) ds ->
  match rest with c :: _ => hex_digit c = None | [] => True end ->
  hex_digits acc (hex_text ds ++ rest) = (foldl (fun acc d => acc * 16 + d) acc ds, rest).
Proof.
  intros Hds Hr. revert acc. induction Hds as [|d ds Hd Hds IH]; intros acc; simpl.
  - destruct rest as [|c rest]; [done|]. simpl. by rewrite Hr.
  - rewrite hex_digit_to_hex by done. apply IH.
Qed.

(** A number ends at a character that is neither a digit nor the x of a prefix. *)
Definition ends (rest : list Z) : Prop :=
  match rest with c :: _ => hex_digit c = None /\ c <> 120 /\ c <> 88 | [] => True end.

Lemma strtol16_text ds rest : digits_ok ds -> ends rest -> hex_value ds < 2 ^ 63 ->
  strtol16 (hex_text ds ++ rest) = (hex_value ds, rest).
Proof.
  intros [Hne Hds] He Hv.
  assert (hex_digits 0 (hex_text ds ++ rest) = (hex_value ds, rest)) as Hd.
  { apply hex_digits_text; [done|]. destruct rest; [done|]. apply He. }
  destruct Hds as [|d ds Hd0 Hds]; [done|]. clear Hne.
  pose proof (to_hex_plain d Hd0) as [_ Hr]. change (hex_text (d :: ds)) with (TO_HEX d :: hex_text ds) in *.
  unfold strtol16. simpl app in *. cbn [skip_space].
  assert (is_space (TO_HEX d) = false) as ->.
  { unfold is_space. rewrite orb_false_iff, andb_false_iff, Z.eqb_neq, Z.leb_gt, Z.leb_gt. lia. }
  assert (hex_prefix (TO_HEX d :: hex_text ds ++ rest) = TO_HEX d :: hex_text ds ++ rest) as Hp.
  { unfold hex_prefix. destruct (TO_HEX d =? 48) eqn:E48; [|by repeat case_match].
    apply Z.eqb_eq in E48. rewrite E48. destruct (hex_text ds ++ rest) as [|x [|y l] ] eqn:El; [done..|].
    assert (x <> 120 /\ x <> 88) as [Hx1 Hx2].
    { destruct Hds as [|d1 ds Hd1 Hds].
      - simpl in El. subst rest. apply He.
      - assert (x = TO_HEX d1) as -> by (by injection El). pose proof (to_hex_plain d1 Hd1). lia. }
    by rewrite (proj2 (Z.eqb_neq _ _) Hx1), (proj2 (Z.eqb_neq _ _) Hx2). }
  assert (match TO_HEX d :: hex_text ds ++ rest with 45 :: l' => (true, l') | 43 :: l' => (false, l')
          | _ => (false, TO_HEX d :: hex_text ds ++ rest) end = (false, TO_HEX d :: hex_text ds ++ rest)) as ->.
  { assert (TO_HEX d <> 45 /\ TO_HEX d <> 43) as [? ?] by lia. by repeat case_match. }
  rewrite Hp, hex_digit_to_hex, Hd by done. f_equal. lia.
Qed.

Lemma strtol16_pair c : in_u 8 c -> fst (strtol16 (hex_pair c)) = c.
Proof.
  intros Hc. assert (hex_pair c = hex_text [Z.shiftr c 4; Z.land c 0xF] ++ []) as ->.
  { unfold hex_pair. rewrite Z.shiftr_0_r. simpl. do 2 f_equal. change 0xF with (Z.ones 4). rewrite Z.land_ones by lia.
    rewrite Z.shiftr_div_pow2 by lia. change (2 ^ 4) with 16. apply Z.mod_small. unfold in_u in Hc.
    split; [apply Z.div_pos; lia|apply Z.div_lt_upper_bound; lia]. }
  assert (0 <= Z.shiftr c 4 < 16 /\ 0 <= Z.land c 0xF < 16 /\ hex_value [Z.shiftr c 4; Z.land c 0xF] = c) as (H1 & H2 & H3).
  { change 0xF with (Z.ones 4). rewrite Z.land_ones, Z.shiftr_div_pow2 by lia. change (2 ^ 4) with 16. unfold hex_value, in_u in *. simpl.
    pose proof (Z.div_mod c 16). pose proof (Z.mod_pos_bound c 16). lia. }
  rewrite strtol16_text; [done| |done|unfold in_u in Hc; lia]. split; [done|].
  apply Forall_cons_2; [done|]. apply Forall_cons_2; [done|apply Forall_nil_2].
Qed.

(** *** Decoding *)

Lemma find_hash_app s rest : Forall (fun c => c <> 35) s -> find_hash (s ++ 35 :: rest) = length s.
Proof. induction 1 as [|c s Hc Hs IH]; simpl; [done|]. by rewrite (proj2 (Z.eqb_neq c 35) Hc), IH. Qed.

Lemma escape_no_hash s : Forall (fun c => c <> 35) (escape s).
Proof.
  induction s as [|c s IH]; [apply Forall_nil_2|]. change (escape (c :: s)) with (esc c ++ escape s). apply Forall_app. split; [|done].
  unfold esc, special. destruct (Z.eqb_spec c 36) as [->|]; [by repeat constructor|].
  destruct (Z.eqb_spec c 35) as [->|]; [by repeat constructor|]. destruct (Z.eqb_spec c 125) as [->|]; by repeat constructor.
Qed.

Lemma c_strlen_app s rest : Forall (fun c => c <> 0) s -> c_strlen (s ++ 0 :: rest) = length s.
Proof. induction 1 as [|c s Hc Hs IH]; simpl; [done|]. by rewrite (proj2 (Z.eqb_neq c 0) Hc), IH. Qed.

(** Without an escape character before the terminator nothing is decoded. *)
Lemma decode_loop_plain s2 : forall fuel s1 rest len, Forall (fun c => c <> 125) s2 -> Forall (fun c => c <> 0) s2 ->
  match rest with c :: _ => c = 0 | [] => True end ->
  decode_loop fuel (s1 ++ s2 ++ rest) len (length s1) = s1 ++ s2 ++ rest.
Proof.
  induction s2 as [|c s2 IH]; intros [|fuel] s1 rest len He H0 Hr; try done; cbn [decode_loop].
  - rewrite lookup_app_r, Nat.sub_diag by done. destruct rest as [|c rest]; [done|]. simpl. by subst c.
  - cbn [app]. rewrite list_lookup_middle by done. apply Forall_cons in He as [Hc He]. apply Forall_cons in H0 as [Hc0 H0].
    rewrite (proj2 (Z.eqb_neq c 0) Hc0), (proj2 (Z.eqb_neq c 125) Hc).
    specialize (IH fuel (s1 ++ [c]) rest len He H0 Hr). rewrite length_app, Nat.add_1_r, <-app_assoc in IH. exact IH.
Qed.

Lemma split_zero p : exists s rest, p = s ++ rest /\ Forall (fun c => c <> 0) s /\ match rest with c :: _ => c = 0 | [] => True end.
Proof.
  induction p as [|c p IH]; [by exists [], []|]. destruct (decide (c = 0)) as [->|Hc]; [by exists [], (0 :: p)|].
  destruct IH as (s & rest & -> & Hs & Hr). exists (c :: s), rest. split; [done|]. split; [by constructor|done].
Qed.

Lemma decode_plain p rest : Forall (fun c => c <> 125) p -> decode (p ++ 0 :: rest) = p ++ 0 :: rest.
Proof.
  intros Hp. destruct (split_zero p) as (s & r & -> & Hs & Hr). apply Forall_app in Hp as [Hp _]. unfold decode.
  rewrite <-app_assoc. apply (decode_loop_plain s _ []); [done..|]. destruct r as [|c r]; [done|]. exact Hr.
Qed.

Lemma move_back pre Q z post : forall c, Q ++ [z] <> [] ->
  move (pre ++ [c] ++ (Q ++ [z]) ++ post) (length pre) (length pre + 1) (length Q + 1) = pre ++ (Q ++ [z]) ++ [z] ++ post.
Proof.
  intros c _. unfold move. rewrite take_app_length. f_equal.
  assert (drop (length pre + 1) (pre ++ [c] ++ (Q ++ [z]) ++ post) = (Q ++ [z]) ++ post) as ->.
  { rewrite app_assoc, drop_app_length'; [done|]. rewrite length_app. simpl. lia. }
  rewrite take_app_length' by (rewrite length_app; simpl; lia). f_equal.
  rewrite <-app_assoc, !app_assoc, <-(app_assoc _ [z] post), drop_app_length'; [done|].
  rewrite !length_app. simpl. lia.
Qed.

Lemma esc_special c : special c = true -> exists d, esc c = [125; d] /\ d <> 0 /\ d <> 125 /\ Z.lxor d 0x20 = c.
Proof.
  intros Hc. unfold esc. rewrite Hc. exists (Z.lxor c 0x20). unfold special in Hc. rewrite !orb_true_iff, !Z.eqb_eq in Hc.
  destruct Hc as [ [-> | ->]| ->]; repeat split; try done; discriminate.
Qed.

Lemma esc_plain c : special c = false -> esc c = [c] /\ c <> 125.
Proof.
  intros Hc. unfold esc. rewrite Hc. split; [done|]. unfold special in Hc. rewrite !orb_false_iff, !Z.eqb_neq in Hc. tauto.
Qed.

Definition raw (c : Z) : Prop := c <> 0 /\ c <> 125.

Lemma last_escape s : forall d, raw d -> Forall (fun c => c <> 0) s -> raw (last_or d (escape s)).
Proof.
  induction s as [|c s IH]; intros d Hd Hs; [done|]. apply Forall_cons in Hs as [Hc Hs].
  change (escape (c :: s)) with (esc c ++ escape s). destruct (special c) eqn:E.
  - destruct (esc_special c E) as (d' & -> & H0 & H1 & _). simpl. rewrite !last_or_cons. by apply IH.
  - destruct (esc_plain c E) as [-> H1]. simpl. rewrite last_or_cons. by apply IH.
Qed.

Lemma decode_loop_escaped s : forall fuel pre k y post len,
  Forall (fun c => c <> 0) s -> raw y -> len = (length pre + length (escape s) + k)%nat -> (length (escape s) + k < fuel)%nat ->
  exists k' y', decode_loop fuel (pre ++ escape s ++ replicate k y ++ 0 :: post) len (length pre) = pre ++ s ++ replicate k' y' ++ 0 :: post.
Proof.
  induction s as [|c s IH]; intros fuel pre k y post len Hs Hy Hlen Hfuel.
  { exists k, y. simpl. apply (decode_loop_plain (replicate k y)); [apply Forall_replicate, Hy..|done]. }
  apply Forall_cons in Hs as [Hc Hs]. destruct fuel as [|fuel]; [lia|].
  change (escape (c :: s)) with (esc c ++ escape s) in *. cbn [decode_loop]. destruct (special c) eqn:E.
  - destruct (esc_special c E) as (d & Hd & H0 & H1 & Hx). rewrite Hd in *. simpl app.
    rewrite list_lookup_middle by done. change (125 =? 0) with false. change (125 =? 125) with true. cbv iota.
    set (R := escape s ++ replicate k y). destruct (exists_last (l := d :: R)) as (Q & z & HQ); [done|].
    assert (length Q = length R) as HlQ by (apply (f_equal length) in HQ; rewrite length_app in HQ; simpl in HQ; lia).
    assert (R ++ [z] = escape s ++ replicate (S k) (last_or (last_or d (escape s)) (replicate k y))) as HR.
    { assert (z = last_or d R) as -> by (rewrite <-(last_or_cons 0), HQ; by rewrite last_or_snoc).
      unfold R. rewrite <-app_assoc, last_or_app. f_equal. destruct k as [|k]; [done|].
      assert (forall e, last_or e (replicate (S k) y) = y) as ->.
      { intros e. rewrite replicate_S_end. apply last_or_snoc. }
      by rewrite <-replicate_S_end. }
    replace (len - length pre - 1)%nat with (length Q + 1)%nat.
    2:{ unfold R in HlQ. rewrite length_app, length_replicate in HlQ. simpl in Hlen. lia. }
    assert (pre ++ 125 :: d :: escape s ++ replicate k y ++ 0 :: post = pre ++ [125] ++ (Q ++ [z]) ++ 0 :: post) as ->.
    { rewrite <-HQ. unfold R. simpl. by rewrite <-app_assoc. }
    rewrite move_back by (by destruct Q). rewrite <-HQ.
    assert (nth (length pre) (pre ++ (d :: R) ++ [z] ++ 0 :: post) 0 = d) as -> by (rewrite app_nth2, Nat.sub_diag by lia; done).
    assert (<[length pre := Z.lxor d 32]> (pre ++ (d :: R) ++ [z] ++ 0 :: post) = (pre ++ [c]) ++ (R ++ [z]) ++ 0 :: post) as ->.
    { rewrite Hx, insert_app_r_alt, Nat.sub_diag by done. simpl. by rewrite <-!app_assoc. }
    rewrite HR, <-(app_assoc (escape s)). destruct (IH fuel (pre ++ [c]) (S k) (last_or (last_or d (escape s)) (replicate k y)) post len) as (k' & y' & Hrun).
    + done.
    + pose proof (last_escape s d ltac:(done) Hs). destruct k as [|k]; [done|]. rewrite replicate_S_end, last_or_snoc. done.
    + simpl in Hlen. rewrite length_app. simpl. lia.
    + simpl in Hfuel. lia.
    + exists k', y'. rewrite length_app, Nat.add_1_r in Hrun. rewrite Hrun, <-app_assoc. done.
  - destruct (esc_plain c E) as [Hec H1]. rewrite Hec in *. simpl app.
    rewrite list_lookup_middle by done. rewrite (proj2 (Z.eqb_neq c 0) Hc), (proj2 (Z.eqb_neq c 125) H1).
    destruct (IH fuel (pre ++ [c]) k y post len Hs Hy) as (k' & y' & Hrun).
    + simpl in Hlen. rewrite length_app. simpl. lia.
    + simpl in Hfuel. lia.
    + exists k', y'. rewrite length_app, Nat.add_1_r, <-!app_assoc in Hrun. exact Hrun.
Qed.

(** What the stub decodes: a payload without zero bytes, or without characters
    that need an escape. *)
Definition decodable (s : list Z) : Prop := Forall (fun c => c <> 0) s \/ Forall (fun c => special c = false) s.

Lemma decode_spec s rest : decodable s -> exists junk, decode (escape s ++ 0 :: rest) = s ++ junk /\
  (Forall (fun c => special c = false) s -> junk = 0 :: rest).
Proof.
  intros Hs. destruct (decide (Forall (fun c => special c = false) s)) as [Hp|Hp].
  - exists (0 :: rest). rewrite escape_plain by done. split; [|done]. apply decode_plain.
    eapply Forall_impl; [exact Hp|]. intros c Hc. by apply (esc_plain c).
  - destruct Hs as [Hs|]; [|done]. unfold decode.
    assert (Forall (fun c => c <> 0) (escape s)) as He.
    { clear Hp. induction Hs as [|c s Hc Hs IH]; [apply Forall_nil_2|]. change (escape (c :: s)) with (esc c ++ escape s).
      apply Forall_app. split; [|done]. destruct (special c) eqn:E.
      - destruct (esc_special c E) as (d & -> & ? & _). apply Forall_cons_2; [done|]. apply Forall_cons_2; [done|apply Forall_nil_2].
      - destruct (esc_plain c E) as [-> _]. apply Forall_cons_2; [done|apply Forall_nil_2]. }
    rewrite c_strlen_app by done.
    destruct (decode_loop_escaped s (S (length (escape s ++ 0 :: rest))) [] 0 1 rest (length (escape s))) as (k' & y' & Hrun); [done|done|simpl; lia| |].
    { rewrite length_app. simpl. lia. }
    eexists. split; [exact Hrun|done].
Qed.

(** ** Commands on memory *)

(** A [char] of the host is signed: a byte from 0x80 on is negative, and stored at an
    even address it sets the byte behind it to 0xFF. *)
Definition spill (a c : Z) : list (Z * Z) := if negb (truth (Z.land a 1)) && (128 <=? c) then [(a + 1, 0xFF)] else [].

Lemma i8_u8 c : in_u 8 c -> i8 c = if 128 <=? c then c - 256 else c.
Proof. intros Hc. unfold sgn. rewrite wrap_id by done. change (2 ^ (8 - 1)) with 128. change (2 ^ 8) with 256. destruct (Z.ltb_spec c 128), (Z.leb_spec 128 c); lia. Qed.

Lemma u16_shift_char v c : in_u 8 c -> u16 (Z.lor v (Z.shiftl (i8 c) 8)) = u16 (Z.lor v (Z.shiftl c 8)).
Proof.
  intros Hc. rewrite i8_u8 by done. destruct (128 <=? c); [|done]. apply Z.bits_inj'. intros j Hj.
  rewrite !wrap_testbit by lia. destruct (Z.ltb_spec j 16); [|by rewrite ?andb_false_r].
  rewrite !Z.lor_spec. do 2 f_equal.
  rewrite !Z.shiftl_spec by lia. destruct (Z.ltb_spec j 8); [by rewrite !Z.testbit_neg_r by lia|].
  rewrite <-(Z.mod_pow2_bits_low (c - 256) 8), <-(Z.mod_pow2_bits_low c 8) by lia.
  replace (c - 256) with (c + (-1) * 2 ^ 8) by lia. by rewrite Z_mod_plus_full.
Qed.

Lemma u16_negative v c : in_u 16 v -> in_u 8 c -> 128 <= c ->
  u16 (Z.lor (Z.land v 0xFF00) (i8 c)) = 0xFF00 + c.
Proof.
  intros Hv Hc Hneg. rewrite i8_u8 by done. destruct (Z.leb_spec 128 c); [|lia].
  assert (Z.lor (Z.land v 0xFF00) (c - 256) = c - 256) as ->; [|unfold wrap; replace (c - 256) with (0xFF00 + c + (-1) * 2 ^ 16) by lia; rewrite Z_mod_plus_full; apply Z.mod_small; unfold in_u in *; lia].
  apply Z.bits_inj'. intros j Hj. rewrite Z.lor_spec, Z.land_spec.
  destruct (Z.ltb_spec j 8).
  - replace (Z.testbit 0xFF00 j) with false; [by rewrite andb_false_r|].
    change 0xFF00 with (Z.shiftl 0xFF 8). rewrite Z.shiftl_spec, Z.testbit_neg_r by lia. done.
  - assert (Z.testbit (c - 256) j = true) as ->; [|apply orb_true_r].
    replace (c - 256) with (Z.lnot (255 - c)) by (unfold Z.lnot; lia). rewrite Z.lnot_spec by lia.
    rewrite Z.bits_above_log2; [done|unfold in_u in Hc; lia|].
    destruct (Z.eq_dec (255 - c) 0) as [->|]; [change (Z.log2 0) with 0; lia|].
    apply Z.log2_lt_pow2; [unfold in_u in Hc; lia|]. apply Z.lt_le_trans with (2 ^ 8); [unfold in_u in *; lia|apply Z.pow_le_mono_r; lia].
Qed.

Lemma load_char_run m a c : byte_ok m a -> in_u 32 a -> in_u 8 c ->
  exists m', gdb_mcu_write_byte a c m = Ret true m' /\ loaded ((a, c) :: spill a c) m m'.
Proof.
  intros Hok Ha Hc. pose proof Hok as (i & d & h & Hf & Hb & Hh). unfold spill.
  pose proof (fetch16_memory _ _ _ _ _ Hf (is_memory_body _ _ _ Hb)) as Hfetch.
  destruct (negb (truth (Z.land a 1)) && (128 <=? c)) eqn:Es.
  - apply andb_true_iff in Es as [Eo Eneg%Z.leb_le]. apply negb_true_iff in Eo.
    destruct (write16_view m a (0xFF00 + c) Hok Ha) as (m' & E & Hl); [unfold in_u in *; lia|].
    exists m'. split.
    + unfold gdb_mcu_write_byte, bind at 1, gets. fold (half_addr a). rewrite Hfetch, Eo.
      rewrite u16_negative by done. unfold bind. by rewrite E.
    + rewrite bit0_mod2 in Eo. apply bool_decide_eq_false in Eo. pose proof (half_addr_even a Ha) as He.
      pose proof (Z.mod_pos_bound a 2 ltac:(lia)). replace (half_addr a) with a in Hl by lia.
      assert (Z.land (0xFF00 + c) 0xFF = c) as E1.
      { change 0xFF with (Z.ones 8). rewrite Z.land_ones by lia. change 0xFF00 with (255 * 2 ^ 8). rewrite Z.add_comm, Z_mod_plus_full. by apply Z.mod_small. }
      assert (Z.shiftr (0xFF00 + c) 8 = 0xFF) as E2.
      { rewrite Z.shiftr_div_pow2 by lia. change 0xFF00 with (255 * 2 ^ 8). rewrite Z.add_comm, Z_div_plus_full by lia. by rewrite Z.div_small. }
      by rewrite E1, E2 in Hl.
  - destruct (load_byte_run m a c Hok Ha Hc) as (m' & E & Hl). exists m'. split; [|done]. rewrite <-E.
    unfold gdb_mcu_write_byte, mcu_util_write8, bind, gets. destruct (mcu_fetch16 m _) as [v|]; [|done].
    rewrite Z.shiftl_0_r, u16_shift_char by done.
    assert ((if truth (Z.land a 1) then u16 (Z.lor (Z.land v 255) (Z.shiftl c 8)) else u16 (Z.lor (Z.land v 65280) (i8 c))) =
            (if truth (Z.land a 1) then u16 (Z.lor (Z.land v 255) (Z.shiftl c 8)) else u16 (Z.lor (Z.land v 65280) c))) as ->.
    { destruct (truth (Z.land a 1)); [done|]. rewrite i8_u8 by done. cbn [negb andb] in Es. by rewrite Es. }
    by destruct (mcu_write16 _ _ m) as [ [] m'' |n m''|].
Qed.

(** What storing [data] from [a] on leaves: only behind the last byte does a 0xFF stay. *)
Definition stored_bytes (a : Z) (data : list Z) : list Z :=
  data ++ match last data with
          | Some c => if Z.even (a + Z.of_nat (length data) - 1) && (128 <=? c) then [0xFF] else []
          | None => []
          end.

Lemma stored_cons a b data : data <> [] -> stored_bytes a (b :: data) = b :: stored_bytes (a + 1) data.
Proof.
  intros Hd. unfold stored_bytes. destruct data as [|c data]; [done|].
  change (last (b :: c :: data)) with (last (c :: data)).
  replace (a + Z.of_nat (length (b :: c :: data)) - 1) with (a + 1 + Z.of_nat (length (c :: data)) - 1) by (cbn [length]; lia). done.
Qed.

Lemma stored_bytes_end a data : a + Z.of_nat (length data) <= 2 ^ 32 -> a + Z.of_nat (length (stored_bytes a data)) <= 2 ^ 32.
Proof.
  intros H. unfold stored_bytes. rewrite length_app. destruct (last data); [|simpl; lia].
  destruct (Z.even _) eqn:Ev; [|simpl; lia]. apply Z.even_spec in Ev as [k Ek]. destruct (128 <=? _); simpl; lia.
Qed.

Lemma even_bit0 a : truth (Z.land a 1) = negb (Z.even a).
Proof. rewrite bit0_mod2, Zmod_odd, <-Z.negb_even. by destruct (Z.even a). Qed.

Lemma fetch_byte_util m a : gdb_mcu_fetch_byte m a = mcu_util_fetch8 m a.
Proof.
  unfold gdb_mcu_fetch_byte, mcu_util_fetch8. destruct (mcu_fetch16 m _) as [v|]; [|done]. rewrite Z.shiftr_0_r.
  destruct (truth _); [|done]. by rewrite Z.shiftr_land.
Qed.

Section Commands.
Context (accepts : list Z -> list Z -> bool) (Hacc : forall l bs, accepts l bs = true) (ctx : Z).

Lemma on_mcu_quiet {A} (c : M A) s a m' : c (target s) = Ret a m' -> trace m' = trace (target s) ->
  on_mcu accepts ctx c s = GRet a (mk_dbg (stub s) m').
Proof. intros E Ht. unfold on_mcu. by rewrite E, Ht, drop_all. Qed.

Lemma store_memory_run data : forall a tail s, Forall (in_u 8) data -> 0 <= a -> a + Z.of_nat (length data) <= 2 ^ 32 ->
  (forall x b, (x, b) ∈ addressed a 0 data -> byte_ok (target s) x) ->
  exists m', store_memory accepts ctx (length data) (data ++ tail) (u32 a) s = GRet true (mk_dbg (stub s) m') /\
    loaded (addressed a 0 (stored_bytes a data)) (target s) m'.
Proof.
  induction data as [|b data IH]; intros a tail s H8 Ha Hend Hok; simpl.
  { exists (target s). split; [by destruct s|apply loaded_nil]. }
  apply Forall_cons in H8 as [Hb H8]. cbn [length] in Hend.
  assert (forall j l, addressed a (j + 1) l = addressed (a + 1) j l) as Hsh.
  { intros j l. unfold addressed. apply imap_ext. intros. simpl. do 2 f_equal. lia. }
  rewrite addressed_cons, Z.add_0_r, (Hsh 0) in Hok. rewrite wrap_id in * by (unfold in_u; lia).
  destruct (load_char_run (target s) a b) as (m1 & E1 & Hl1); [eapply Hok; by left|unfold in_u; lia|done|].
  rewrite (gbind_run _ _ _ _ _ (on_mcu_quiet _ s _ _ E1 ltac:(apply Hl1))). cbn [negb].
  destruct (decide (data = [])) as [->|Hne].
  { exists m1. split; [done|]. eapply loaded_ext; [|exact Hl1]. intros f x Hx.
    unfold stored_bytes, spill. cbn [last length app]. rewrite even_bit0, negb_involutive.
    replace (a + Z.of_nat 1 - 1) with a by lia.
    assert (u32 (a + (0 + Z.of_nat 0)) = a) as E0 by (rewrite wrap_id; [lia|unfold in_u; lia]).
    destruct (Z.even a) eqn:Ev; cbn [andb]. apply Z.even_spec in Ev as [k ->].
    2: unfold addressed; simpl imap; by rewrite E0.
    destruct (128 <=? b); unfold addressed; simpl imap; rewrite E0; [|done].
    change (0 + Z.of_nat 1) with 1. rewrite (wrap_id 32 (2 * k + 1)) by (unfold in_u; lia). done. }
  destruct (IH (a + 1) tail (mk_dbg (stub s) m1) H8) as (m2 & E2 & Hl2); [lia|lia| |].
  { intros x y Hin. apply Hl1. eapply Hok. by right. }
  exists m2. split; [exact E2|]. eapply loaded_ext; [|exact (loaded_app _ _ _ _ _ Hl1 Hl2)].
  intros f x Hx. rewrite stored_cons, addressed_cons, Z.add_0_r, (Hsh 0), wrap_id by (done || unfold in_u; lia).
  cbn [app]. unfold spill. destruct (negb _ && _); [|done].
  destruct data as [|c data]; [done|]. 
  assert (exists l, stored_bytes (a + 1) (c :: data) = c :: l) as [l ->] by (by eexists).
  rewrite addressed_cons, Z.add_0_r, wrap_id by (cbn [length] in *; unfold in_u; lia).
  cbn [app]. unfold put_image. cbn [foldl fst snd]. apply put_image_ext; [|done].
  intros y _. unfold upd. by destruct (y =? a + 1).
Qed.
Lemma send_memory_sends m data : forall a j, Forall (in_u 8) data ->
  (forall k b, data !! k = Some b -> mcu_util_fetch8 m (u32 (a + (j + Z.of_nat k))) = Some b) ->
  sends m (send_memory accepts (length data) (u32 (a + j))) tt (data ≫= hex_pair).
Proof.
  induction data as [|b data IH]; intros a j H8 Hf; [apply sends_ret|]. apply Forall_cons in H8 as [Hb H8].
  cbn [length send_memory]. intros s Hs. unfold ggets. rewrite (gbind_run _ _ s (Some b) s).
  2:{ rewrite fetch_byte_util, (proj2 Hs). specialize (Hf 0%nat b eq_refl). rewrite Z.add_0_r in Hf. by rewrite Hf. }
  cbv iota. change ((b :: data) ≫= hex_pair) with (hex_pair b ++ (data ≫= hex_pair)).
  eapply (sends_bind m); [by apply send_hex_one_sends| |done].
  assert (u32 (u32 (a + j) + 1) = u32 (a + (j + 1))) as -> by (rewrite wrap_add_l; f_equal; lia).
  apply IH; [done|]. intros k c Hk. specialize (Hf (S k) c Hk). rewrite <-Hf. do 2 f_equal. lia.
Qed.

(** A packet in the receive buffer is acknowledged, decoded and run. *)
Lemma handle_run s p post : connected (target s) s -> decodable p -> rev_buffer (stub s) = frame p ++ post ->
  exists s1 junk, connected (target s) s1 /\ sent (stub s1) = sent (stub s) ++ [43; 10] /\
    (Forall (fun c => special c = false) p -> hd 0 junk = 0) /\
    gdb_handle_packet accepts ctx (length (frame p)) s =
      (run? run_command accepts ctx (nth 0 (p ++ junk) 0) (drop 1 (p ++ junk)) in gret true) s1.
Proof.
  intros Hc Hd Hbuf. unfold gdb_handle_packet, ggets. rewrite (gbind_run _ _ s (stub s) s) by done. rewrite Hbuf.
  set (post' := hex_pair (sum8 (escape p)) ++ post).
  assert (drop 1 (frame p ++ post) = escape p ++ 35 :: post') as ->.
  { unfold frame, post'. simpl. by rewrite drop_0, <-app_assoc. }
  assert ((length (frame p) - 1)%nat = (length (escape p) + 3)%nat) as ->.
  { unfold frame. simpl. rewrite length_app. simpl. lia. }
  rewrite find_hash_app by apply escape_no_hash. rewrite decide_False by lia. rewrite take_app_length.
  assert (forall k, nth (length (escape p) + k) (escape p ++ 35 :: post') 0 = nth k (35 :: post') 0) as Hnth.
  { intros k. rewrite app_nth2 by lia. f_equal. lia. }
  rewrite !Hnth. change [nth 1 (35 :: post') 0; nth 2 (35 :: post') 0] with (hex_pair (sum8 (escape p))).
  pose proof (sum8_range (escape p)) as Hr. rewrite strtol16_pair, wrap_id, Z.eqb_refl by done. cbn [negb].
  rewrite insert_app_r_alt, Nat.sub_diag by done. cbn [list_insert insert].
  set (s1 := mk_dbg (set_buffer (take 1 (rev_buffer (stub s)) ++ escape p ++ 0 :: post') (stub s)) (target s)).
  rewrite (gbind_run _ _ s tt s1) by done.
  set (s2 := mk_dbg (set_sent (sent (stub s1) ++ [43; 10]) (stub s1)) (target s1)).
  rewrite (gbind_run _ _ s1 true s2) by (by apply (gwrite_run accepts Hacc (target s))).
  destruct (decode_spec p post' Hd) as (junk & Hj & Hplain). rewrite Hj.
  set (s3 := mk_dbg (set_buffer (take 1 (rev_buffer (stub s2)) ++ p ++ junk) (stub s2)) (target s2)).
  rewrite (gbind_run _ _ s2 tt s3) by done.
  exists s3, junk. split; [done|]. split; [done|]. split; [|done]. intros Hp. by rewrite (Hplain Hp).
Qed.

(** The packets of the debugger: store [data] at an address, read bytes from it. *)
Definition store_packet (da dl data : list Z) : list Z := 88 :: hex_text da ++ 44 :: hex_text dl ++ 58 :: data.
Definition read_packet (da dl : list Z) : list Z := 109 :: hex_text da ++ 44 :: hex_text dl.

Lemma hex_value_nonneg ds : Forall (fun d => 0 <= d < 16) ds -> 0 <= hex_value ds.
Proof.
  intros H. cut (forall acc, 0 <= acc -> 0 <= foldl (fun acc d => acc * 16 + d) acc ds); [intros Hc; by apply Hc|].
  induction H as [|d ds Hd Hds IH]; intros acc Ha; [done|]. apply IH. lia.
Qed.

Lemma ends_comma l : ends (44 :: l).
Proof. by repeat split. Qed.

Lemma ends_colon l : ends (58 :: l).
Proof. by repeat split. Qed.

Lemma store_packet_run s da dl data post :
  connected (target s) s -> rev_buffer (stub s) = frame (store_packet da dl data) ++ post ->
  digits_ok da -> digits_ok dl -> in_u 32 (hex_value da) -> hex_value dl = Z.of_nat (length data) -> hex_value dl < 2 ^ 32 ->
  hex_value da + hex_value dl <= 2 ^ 32 -> Forall (in_u 8) data -> decodable (store_packet da dl data) ->
  (forall x b, (x, b) ∈ addressed (hex_value da) 0 data -> byte_ok (mcu_unlock (target s)) x) ->
  exists s', gdb_handle_packet accepts ctx (length (frame (store_packet da dl data))) s = GRet true s' /\
    sent (stub s') = sent (stub s) ++ [43; 10] ++ frame OK /\
    unlocked (target s') = false /\ regs (target s') = regs (target s) /\
    forall a, in_u 32 a -> mcu_util_fetch8 (target s') a = put_image (addressed (hex_value da) 0 (stored_bytes (hex_value da) data)) (mcu_util_fetch8 (target s)) a.
Proof.
  intros Hc Hbuf Hda Hdl Ha Hlen Hl32 Hend H8 Hdec Hok.
  destruct (handle_run s _ post Hc Hdec Hbuf) as (s1 & junk & Hc1 & Hsent1 & _ & ->).
  unfold store_packet. cbn [app nth drop]. unfold run_command. cbn [Z.eqb Pos.eqb].
  rewrite drop_0. unfold cmd_write_memory. rewrite <-app_assoc. cbn [app].
  rewrite (strtol16_text da) by first [done|apply ends_comma|unfold in_u in Ha; lia]. cbn [drop]. rewrite drop_0, <-app_assoc. cbn [app].
  rewrite (strtol16_text dl) by first [done|apply ends_colon|lia]. cbn [drop]. rewrite drop_0.
  pose proof (hex_value_nonneg dl (proj2 Hdl)). rewrite (wrap_id 32 (hex_value dl)) by (unfold in_u; lia).
  rewrite Hlen, Nat2Z.id.
  set (s2 := mk_dbg (stub s1) (mcu_unlock (target s1))).
  destruct Hc1 as [Hfd1 Ht1].
  destruct (store_memory_run data (hex_value da) junk s2 H8) as (m3 & E3 & Hl3); [apply Ha|lia|by rewrite <-Ht1 in Hok|].
  set (s3 := mk_dbg (stub s1) m3) in *. set (s4 := mk_dbg (stub s1) (mcu_lock m3)).
  assert (escape OK = OK) as HOK by done.
  destruct (reply_run accepts Hacc (target s4) (send_str accepts OK) OK s4) as (s5 & E5 & Ht5 & Hf5 & _ & _ & Hs5); [done|by apply send_str_sends|].
  assert ((run? on_mcu accepts ctx (modify mcu_unlock) in
           let? sucess := store_memory accepts ctx (length data) (data ++ junk) (u32 (hex_value da)) in
           run? on_mcu accepts ctx (modify mcu_lock) in
           reply accepts (send_str accepts (if sucess then OK else EFF))) s1 = GRet tt s5) as Hrun.
  { rewrite (gbind_run _ _ s1 tt s2) by (by apply (on_mcu_quiet _ s1 tt (mcu_unlock (target s1)))). rewrite (gbind_run _ _ s2 true s3) by done.
    rewrite (gbind_run _ _ s3 tt s4) by (by apply (on_mcu_quiet _ s3 tt (mcu_lock m3))). done. }
  rewrite (gbind_run _ _ s1 tt s5) by exact Hrun. exists s5. split; [done|]. destruct Hl3 as (Hcon & Hview & _).
  rewrite Hs5, Ht5. split; [|split; [done|split] ].
  - change (sent (stub s4)) with (sent (stub s1)). by rewrite Hsent1, <-app_assoc.
  - destruct Hcon as [Hregs _]. rewrite <-Ht1. exact Hregs.
  - intros a Hau. rewrite <-Ht1. apply (Hview a Hau).
Qed.

Lemma read_packet_run s da dl data post :
  connected (target s) s -> rev_buffer (stub s) = frame (read_packet da dl) ++ post ->
  digits_ok da -> digits_ok dl -> in_u 32 (hex_value da) -> hex_value dl = Z.of_nat (length data) -> hex_value dl < 2 ^ 32 ->
  Forall (in_u 8) data ->
  (forall k b, data !! k = Some b -> mcu_util_fetch8 (target s) (u32 (hex_value da + Z.of_nat k)) = Some b) ->
  exists s', gdb_handle_packet accepts ctx (length (frame (read_packet da dl))) s = GRet true s' /\
    sent (stub s') = sent (stub s) ++ [43; 10] ++ frame (data ≫= hex_pair) /\ target s' = target s.
Proof.
  intros Hc Hbuf Hda Hdl Ha Hlen Hl32 H8 Hf.
  assert (forall ds, Forall (fun d => 0 <= d < 16) ds -> Forall (fun c => special c = false) (hex_text ds)) as Htext.
  { intros ds H. apply Forall_fmap. eapply Forall_impl; [exact H|]. intros d Hd. by apply to_hex_plain. }
  assert (Forall (fun c => special c = false) (read_packet da dl)) as Hplain.
  { unfold read_packet. apply Forall_cons_2; [done|]. apply Forall_app. split; [by apply Htext, Hda|].
    apply Forall_cons_2; [done|]. by apply Htext, Hdl. }
  destruct (handle_run s _ post Hc (or_intror Hplain) Hbuf) as (s1 & junk & [Hfd1 Ht1] & Hsent1 & Hj & ->).
  specialize (Hj Hplain).
  unfold read_packet. cbn [app nth drop]. unfold run_command. cbn [Z.eqb Pos.eqb].
  rewrite drop_0. unfold cmd_read_memory. rewrite <-app_assoc. cbn [app].
  rewrite (strtol16_text da) by first [done|apply ends_comma|unfold in_u in Ha; lia]. cbn [drop]. rewrite drop_0.
  rewrite (strtol16_text dl) by first [done|lia|by destruct junk as [|c junk]; [|simpl in Hj; subst c] ]. cbn [fst].
  pose proof (hex_value_nonneg dl (proj2 Hdl)). rewrite (wrap_id 32 (hex_value dl)) by (unfold in_u; lia).
  rewrite Hlen, Nat2Z.id.
  pose proof (send_memory_sends (target s1) data (hex_value da) 0 H8) as Hsends. rewrite Z.add_0_r in Hsends.
  destruct (reply_run accepts Hacc (target s1) (send_memory accepts (length data) (u32 (hex_value da))) (data ≫= hex_pair) s1)
    as (s5 & E5 & Ht5 & _ & _ & _ & Hs5).
  { done. }
  { apply Hsends. intros k b Hk. rewrite Ht1. rewrite Z.add_0_l. by apply Hf. }
  rewrite (gbind_run _ _ _ _ _ E5). exists s5. split; [done|]. split; [|congruence].
  rewrite Hs5, Hsent1. unfold frame.
  assert (escape (data ≫= hex_pair) = data ≫= hex_pair) as ->; [|by rewrite <-app_assoc].
  apply escape_plain. clear. induction data as [|b data IH]; [apply Forall_nil_2|].
  change ((b :: data) ≫= hex_pair) with (hex_pair b ++ (data ≫= hex_pair)). apply Forall_app. split; [apply hex_pair_plain|done].
Qed.
End Commands.

(** C23: When the connection takes what it is sent, the debugger's packet that
    stores bytes in RAM or flash, in any digits and with any bytes the protocol can
    carry to the stub (decodable: none is zero, or none is escaped), is acknowledged
    and answered OK.  It stores these bytes, leaves the registers, and locks the
    flash again.  Every other byte keeps its value but one: the stub's char is
    signed, and when the last byte is from 0x80 on and goes to an even address, the
    byte behind it becomes 0xFF (stored_bytes).  The packet that reads the bytes
    then is answered with their digits, correctly framed and summed. *)
Theorem gdb_memory_roundtrip accepts ctx s da dl data post :
  (forall l bs, accepts l bs = true) ->
  connected (target s) s -> rev_buffer (stub s) = frame (store_packet da dl data) ++ post ->
  digits_ok da -> digits_ok dl -> hex_value dl = Z.of_nat (length data) ->
  hex_value da + hex_value dl <= 2 ^ 32 -> hex_value da < 2 ^ 32 -> hex_value dl < 2 ^ 32 ->
  Forall (in_u 8) data -> decodable (store_packet da dl data) ->
  (forall x b, (x, b) ∈ addressed (hex_value da) 0 data -> byte_ok (mcu_unlock (target s)) x) ->
  exists s', gdb_handle_packet accepts ctx (length (frame (store_packet da dl data))) s = GRet true s' /\
    sent (stub s') = sent (stub s) ++ [43; 10] ++ frame OK /\
    unlocked (target s') = false /\ regs (target s') = regs (target s) /\
    (forall a, in_u 32 a -> mcu_util_fetch8 (target s') a = put_image (addressed (hex_value da) 0 (stored_bytes (hex_value da) data)) (mcu_util_fetch8 (target s)) a) /\
    forall s2 post2, connected (target s') s2 -> rev_buffer (stub s2) = frame (read_packet da dl) ++ post2 ->
      exists s3, gdb_handle_packet accepts ctx (length (frame (read_packet da dl))) s2 = GRet true s3 /\
        sent (stub s3) = sent (stub s2) ++ [43; 10] ++ frame (data ≫= hex_pair) /\ target s3 = target s2.
Proof.
  intros Hacc Hc Hbuf Hda Hdl Hlen Hend Ha Hl H8 Hdec Hok.
  pose proof (hex_value_nonneg da (proj2 Hda)) as Ha0. pose proof (hex_value_nonneg dl (proj2 Hdl)) as Hl0.
  destruct (store_packet_run accepts Hacc ctx s da dl data post Hc Hbuf Hda Hdl ltac:(split; lia) Hlen Hl Hend H8 Hdec Hok)
    as (s' & E & Hs & Hu & Hr & Hv).
  exists s'. do 5 (split; [done|]). intros s2 post2 [Hfd2 Ht2] Hbuf2.
  apply (read_packet_run accepts Hacc ctx s2 da dl data post2); try done.
  intros k b Hk. pose proof (lookup_lt_Some _ _ _ Hk). rewrite wrap_id by (unfold in_u; lia).
  rewrite Ht2, Hv by (unfold in_u; lia). rewrite put_addressed by (pose proof (stored_bytes_end (hex_value da) data); lia).
  rewrite decide_True by (unfold stored_bytes; rewrite length_app; lia). unfold stored_bytes. rewrite lookup_app_l by lia.
  rewrite <-Hk. f_equal. lia.
Qed.

(** ** A session on the board *)

Definition ex_stub (buf : list Z) (m : mcu) : dbg := mk_dbg (mk_gdb 5 buf (length buf) 0 []) m.

(** Three bytes, two of which travel escaped, to 0x10000010; the third goes to an
    even address and is negative as a [char]. *)
Definition ex_da : list Z := [1; 0; 0; 0; 0; 0; 1; 0].
Definition ex_data : list Z := [0x7D; 0x23; 0xA3].

Lemma gdb_memory_roundtrip_witness :
  exists s', gdb_handle_packet (fun _ _ => true) 1 (length (frame (store_packet ex_da [3] ex_data)))
      (ex_stub (frame (store_packet ex_da [3] ex_data)) board) = GRet true s' /\
    sent (stub s') = [43; 10; 36; 79; 75; 35; 57; 97] /\
    mcu_util_fetch8 (target s') 0x10000013 = Some 0xFF /\
    exists s3, gdb_handle_packet (fun _ _ => true) 1 (length (frame (read_packet ex_da [3])))
        (ex_stub (frame (read_packet ex_da [3])) (target s')) = GRet true s3 /\
      sent (stub s3) = [43; 10] ++ frame [55; 100; 50; 51; 97; 51].
Proof.
  assert (digits_ok ex_da) as Hda.
  { split; [done|]. by apply (bool_decide_unpack (Forall (fun d => 0 <= d < 16) ex_da)). }
  assert (digits_ok [3]) as Hdl.
  { split; [done|]. by apply (bool_decide_unpack (Forall (fun d => 0 <= d < 16) [3])). }
  destruct (gdb_memory_roundtrip (fun _ _ => true) 1 (ex_stub (frame (store_packet ex_da [3] ex_data)) board)
              ex_da [3] ex_data []) as (s' & E & Hs & _ & _ & Hv & Hread);
    [done|by split|by rewrite app_nil_r|exact Hda|exact Hdl|reflexivity|vm_compute; discriminate|reflexivity|reflexivity| | | |].
  - by apply (bool_decide_unpack (Forall (fun b => 0 <= b < 2 ^ 8) ex_data)).
  - left. by apply (bool_decide_unpack (Forall (fun c => c <> 0) (store_packet ex_da [3] ex_data))).
  - intros a b Hab. exists 2%nat, board_ram, (fun _ => 0).
    change (addressed (hex_value ex_da) 0 ex_data) with [(0x10000010, 0x7D); (0x10000011, 0x23); (0x10000012, 0xA3)] in Hab.
    split; [|split; [by left|intros; by apply in_u_const] ].
    repeat first [apply elem_of_cons in Hab as [ [= -> ->] |Hab] ; [reflexivity|] | by apply not_elem_of_nil in Hab].
  - exists s'. split; [exact E|]. split; [rewrite Hs; reflexivity|].
    split; [rewrite Hv by (by apply in_u_const); reflexivity|].
    destruct (Hread (ex_stub (frame (read_packet ex_da [3])) (target s')) []) as (s3 & E3 & Hs3 & _); [by split|by rewrite app_nil_r|].
    exists s3. split; [exact E3|]. rewrite Hs3. reflexivity.
Defined.

(** Data with a zero byte and an escaped one is not recovered: the stub takes the
    zero for the end, and moves nothing behind it. *)
Lemma gdb_zero_byte :
  decode (escape [0; 35] ++ [0]) = [0; 125; 3; 0] /\ decode (escape [35; 0; 35] ++ [0]) = [35; 3; 0; 125; 3; 0].
Proof. done. Qed.

(** A packet whose checksum does not match is refused and runs nothing. *)
Lemma gdb_bad_checksum accepts ctx s p h1 h2 post :
  (forall l bs, accepts l bs = true) -> connected (target s) s ->
  rev_buffer (stub s) = 36 :: escape p ++ 35 :: h1 :: h2 :: post -> u8 (fst (strtol16 [h1; h2])) <> sum8 (escape p) ->
  exists s', gdb_handle_packet accepts ctx (length (escape p) + 4) s = GRet false s' /\
    target s' = target s /\ sent (stub s') = sent (stub s) ++ [45; 10].
Proof.
  intros Hacc Hc Hbuf Hsum. unfold gdb_handle_packet, ggets. rewrite (gbind_run _ _ s (stub s) s) by done. rewrite Hbuf.
  change (drop 1 (36 :: escape p ++ 35 :: h1 :: h2 :: post)) with (drop 0 (escape p ++ 35 :: h1 :: h2 :: post)). rewrite drop_0.
  rewrite find_hash_app by apply escape_no_hash. rewrite decide_False by lia. rewrite take_app_length.
  assert (forall k, nth (length (escape p) + k) (escape p ++ 35 :: h1 :: h2 :: post) 0 = nth k (35 :: h1 :: h2 :: post) 0) as Hnth.
  { intros k. rewrite app_nth2 by lia. f_equal. lia. }
  rewrite !Hnth. cbn [nth]. rewrite (proj2 (Z.eqb_neq _ _) Hsum). cbn [negb].
  unfold gbind at 1, on_stub.
  match goal with |- context [mk_dbg ?g (target s)] => set (s1 := mk_dbg g (target s)) end.
  unfold gdb_send_nack. assert (connected (target s) s1) as Hc1 by (split; [apply Hc|done]).
  rewrite (gbind_run _ _ s1 true _ (gwrite_run accepts Hacc (target s) [45; 10] s1 Hc1)).
  eexists. split; [reflexivity|done].
Qed.
