(* ===== verification/SimMain.v ===== *)
(** * SimMain: the simulator from its command line to the event loop

    [main] of [tools/simulator/simulator.c], with [elf_load] of [core/elf.c]: the
    machine of [Machine], the stub of [Gdb] and the loader of [Elf].  The options
    [getopt] delivers, the host's files and its answers to the calls that allocate are
    given; [ev_run] is where the model ends. *)
From S2P Require Import Prelude Machine MachineFacts Thumb ThumbSafe Frame Bus Control MemBytes Elf Gdb.

Section Main.
Context {F W : Type} (open : F -> option W) (host : host_file W) (uninit : Z) (atol : list Z -> Z) (gdb_context : Z).

(** What [getopt] returns for ["gp:f:"]. *)
Inductive option_char := opt_g | opt_p (optarg : list Z) | opt_f (optarg : F) | opt_unknown.

Record options := mk_options { wait_for_gdb : bool; gdb_port : Z; firmware_file : option F }.
Definition no_options : options := mk_options false 1234 None.

(** [case '?'] prints the usage. *)
Definition parse_option (o : options) (ch : option_char) : options :=
  match ch with
  | opt_g => mk_options true (gdb_port o) (firmware_file o)
  | opt_p optarg => mk_options (wait_for_gdb o) (i32 (atol optarg)) (firmware_file o)
  | opt_f optarg => mk_options (wait_for_gdb o) (gdb_port o) (Some optarg)
  | opt_unknown => o
  end.

(** The file is closed again. *)
Definition elf_load (file : F) : M bool :=
  match open file with
  | None => ret false
  | Some w => let! r := elf_load_fd host uninit w in ret (fst r)
  end.
Definition mcu_flash_file (file : F) : M bool := elf_load file.

(** The messages of [main], and what else ends the process: a test device written to by
    the loader. *)
Inductive message := could_not_create_mcu | could_not_create_gdb | flash_faild | mcu_reset_failed | by_test_device.
(** [Event_loop]: [ev_run] is called with this state of the stub and the machine. *)
Inductive outcome := Exits (code : Z) (why : message) | Event_loop (port : Z) (s : dbg) | Undefined.

(** What the host delivers: the contents of the memory of the RAM and of the receive
    buffer; whether [calloc] for the machine and the calls of [gdb_create] succeed. *)
Record host_answers := mk_answers { ram_junk : Z -> Z; buffer_junk : list Z; mcu_created : bool; gdb_created : bool }.

Definition main (h : host_answers) (argv : list option_char) : outcome :=
  let o := foldl parse_option no_options argv in
  if negb (mcu_created h) then Exits (-1) could_not_create_mcu
  else
    let mcu := mcu_cortex_m0p_create (ram_junk h) (8 * 1024) in
    match gdb_create gdb_context (buffer_junk h) (mk_dbg (mk_gdb 0 [] 0 0 []) mcu) with
    | GRet _ s =>
        if negb (gdb_created h) then Exits (-1) could_not_create_gdb
        else
          match (match firmware_file o with Some f => mcu_flash_file f | None => ret true end) (target s) with
          | Ret false _ => Exits (-1) flash_faild
          | Ret true m =>
              let (ok, m) := mcu_reset m in
              if negb ok then Exits (-1) mcu_reset_failed
              else
                let m := if negb (wait_for_gdb o) then mcu_resume m else m in
                Event_loop (gdb_port o) (mk_dbg (stub s) m)
          | Exited code _ => Exits code by_test_device
          | Undef => Undefined
          end
    | GExited code _ => Exits code by_test_device
    | GUndef => Undefined
    end.
End Main.

(** ** The first words of memory *)

(** The word at [a] of a memory of bytes, little-endian. *)
Definition word_of (f : Z -> option Z) (a : Z) : option Z :=
  b0 ← f a; b1 ← f (a + 1); b2 ← f (a + 2); b3 ← f (a + 3);
  Some (b0 + 2 ^ 8 * b1 + 2 ^ 16 * b2 + 2 ^ 24 * b3).

(** The devices of the board, in the order of the search. *)
Definition board_shapes (ramsize : Z) : list (mem_class_t * Z * Z * Z * Z) :=
  dev_shape <$> mem_devs (mcu_cortex_m0p_create (fun _ => 0) ramsize).

Lemma split_half h : in_u 16 h -> Z.land (Z.shiftr h 0) 0xFF = h mod 2 ^ 8 /\ Z.land (Z.shiftr h 8) 0xFF = h / 2 ^ 8.
Proof.
  intros Hh. rewrite Z.shiftr_0_r, Z.shiftr_div_pow2 by lia. change 0xFF with (Z.ones 8). rewrite !Z.land_ones by lia. split; [done|].
  apply Z.mod_small. unfold in_u in Hh. split; [apply Z.div_pos; lia|apply Z.div_lt_upper_bound; lia].
Qed.

Lemma word_halves l h : in_u 16 l -> in_u 16 h -> Z.lor l (Z.shiftl h 16) = l + 2 ^ 16 * h.
Proof.
  intros H0 H1. rewrite Z.shiftl_mul_pow2 by lia. pose proof (Z.add_lor_land l (h * 2 ^ 16)) as E.
  replace (Z.land l (h * 2 ^ 16)) with 0 in E; [lia|]. symmetry. apply Z.bits_inj'. intros i Hi.
  rewrite Z.land_spec, Z.bits_0, Z.mul_pow2_bits by lia. destruct (Z.ltb_spec i 16).
  - rewrite (Z.testbit_neg_r _ (i - 16)) by lia. apply andb_false_r.
  - by rewrite (in_u_testbit_high 16 l) by (done || lia).
Qed.

(** The two bytes of a half. *)
Lemma fetch8_half m a i d h : find_dev (mem_devs m) a = Some (i, d) -> body d = Ram h \/ body d = Flash h -> (forall k, in_u 16 (h k)) ->
  in_u 32 (a + 1) -> in_u 32 a -> a mod 2 = 0 ->
  mcu_util_fetch8 m a = Some (h (half_slot d a) mod 2 ^ 8) /\ mcu_util_fetch8 m (a + 1) = Some (h (half_slot d a) / 2 ^ 8).
Proof.
  intros Hf Hb Hh Ha1 Ha Hm. assert (half_addr a = a /\ half_addr (a + 1) = a) as [E0 E1].
  { rewrite !half_addr_even by done. pose proof (Z.div_mod a 2). pose proof (Z.div_mod (a + 1) 2). pose proof (Z.mod_pos_bound (a + 1) 2). lia. }
  destruct (split_half _ (Hh (half_slot d a))) as [S0 S1].
  rewrite (util_fetch8_memory m a i d h), (util_fetch8_memory m (a + 1) i d h) by (rewrite ?E0, ?E1; done). cbv zeta. rewrite !E0, !E1, !bit0_mod2.
  rewrite bool_decide_false, bool_decide_true by (pose proof (Z.div_mod a 2); pose proof (Z.div_mod (a + 1) 2); pose proof (Z.mod_pos_bound (a + 1) 2); lia).
  rewrite Z.shiftr_0_r in S0. by rewrite S0, S1.
Qed.

Lemma word_of_fetch m a i d h : find_dev (mem_devs m) a = Some (i, d) -> find_dev (mem_devs m) (a + 2) = Some (i, d) ->
  body d = Ram h \/ body d = Flash h -> (forall k, in_u 16 (h k)) -> 0 <= a -> a + 3 < 2 ^ 32 -> (a - offset d) mod 4 = 0 -> a mod 2 = 0 ->
  mcu_fetch32 m a = word_of (mcu_util_fetch8 m) a.
Proof.
  intros H0 H2 Hb Hh Ha Hlt Hm Hm2. rewrite (fetch32_memory _ _ _ _ _ H0 Hb). unfold word_of.
  destruct (fetch8_half m a i d h H0 Hb Hh) as [-> ->]; [unfold in_u; lia..|done|].
  replace (a + 3) with (a + 2 + 1) by lia.
  destruct (fetch8_half m (a + 2) i d h H2 Hb Hh) as [-> ->]; [unfold in_u; lia..| |].
  { rewrite <-Zplus_mod_idemp_l, Hm2. done. }
  cbn [mbind option_bind]. unfold word_at. rewrite word_halves by done. unfold word_slot, half_slot. rewrite !Z.shiftr_div_pow2 by lia.
  apply Z.mod_divide in Hm as [q Hq]; [|lia].
  rewrite <-(Z.div_unique (a + 2 - offset d) (2 ^ 1) (2 * q + 1) 0), <-(Z.div_unique (a - offset d) (2 ^ 1) (2 * q) 0), <-(Z.div_unique (a - offset d) (2 ^ 2) q 0) by lia.
  set (l := h _). set (u := h (_ + 1)). pose proof (Z.div_mod l (2 ^ 8)). pose proof (Z.div_mod u (2 ^ 8)). f_equal. lia.
Qed.

Definition in_memory (a : Z) : Prop := 0 <= a < 32 * 1024 \/ 0x10000000 <= a < 0x10000000 + 8 * 1024.

Lemma find_flash junk a : 0 <= a < 32 * 1024 ->
  find_dev (mem_devs (mcu_cortex_m0p_create junk (8 * 1024))) a = Some (3%nat, flash_dev_create (32 * 1024)).
Proof.
  intros Ha. cbn [find_dev mem_devs mcu_cortex_m0p_create mcu_add_mem_dev set_mem_devs mcu_zero]. unfold dev_hit.
  cbn [offset dev_length unittest_dev_create uart_dev_create ram_dev_create flash_dev_create].
  rewrite !(proj2 (Z.leb_gt _ a)), (proj2 (Z.leb_le 0 a)) by lia. cbn [andb].
  change (u32 (0 + 32 * 1024)) with (32 * 1024). by rewrite (proj2 (Z.ltb_lt a _)) by lia.
Qed.

Lemma find_ram junk a : 0x10000000 <= a < 0x10000000 + 8 * 1024 ->
  find_dev (mem_devs (mcu_cortex_m0p_create junk (8 * 1024))) a =
  Some (2%nat, mk_dev mem_class_ram ram_mem_type 0x10000000 (8 * 1024) (Ram junk)).
Proof.
  intros Ha. cbn [find_dev mem_devs mcu_cortex_m0p_create mcu_add_mem_dev set_mem_devs mcu_zero]. unfold dev_hit.
  cbn [offset dev_length unittest_dev_create uart_dev_create ram_dev_create flash_dev_create dev_class dev_type body].
  rewrite !(proj2 (Z.leb_gt _ a)), (proj2 (Z.leb_le _ a)) by lia. cbn [andb].
  change (u32 (0x10000000 + 8 * 1024)) with (0x10000000 + 8 * 1024). by rewrite (proj2 (Z.ltb_lt a _)) by lia.
Qed.

Lemma board_byte_ok junk cbs a : (forall k, in_u 16 (junk k)) -> in_memory a ->
  byte_ok (mcu_unlock (mcu_add_callbacks (mcu_cortex_m0p_create junk (8 * 1024)) cbs)) a.
Proof.
  intros Hj Ha. unfold byte_ok. assert (in_u 32 a) as Hu by (unfold in_u; destruct Ha; lia). pose proof (Z.mod_pos_bound a 2 ltac:(lia)).
  change (mem_devs (mcu_unlock _)) with (mem_devs (mcu_cortex_m0p_create junk (8 * 1024))).
  rewrite half_addr_even by done. pose proof (Z.div_mod a 2 ltac:(lia)) as Hd. destruct Ha as [Ha|Ha].
  - exists 3%nat, (flash_dev_create (32 * 1024)), (fun _ => 0xDEDE). rewrite find_flash by lia. split; [done|]. split; [by right|]. intros k. by unfold in_u.
  - exists 2%nat, (mk_dev mem_class_ram ram_mem_type 0x10000000 (8 * 1024) (Ram junk)), junk.
    rewrite find_ram by lia. split; [done|]. split; [by left|done].
Qed.

(** The vectors are words of the flash. *)
Lemma vectors_fetch m a : wf_mcu m -> dev_shape <$> mem_devs m = board_shapes (8 * 1024) -> a = 0 \/ a = 4 ->
  mcu_fetch32 m a = word_of (mcu_util_fetch8 m) a.
Proof.
  intros (_ & _ & _ & Hw) Hs Ha. unfold board_shapes in Hs.
  destruct (find_dev (mem_devs m) a) as [ [i d]|] eqn:E0.
  2:{ pose proof (find_dev_shape _ _ a Hs) as H. rewrite E0, find_flash in H by lia. done. }
  destruct (find_dev (mem_devs m) (a + 2)) as [ [j d']|] eqn:E2.
  2:{ pose proof (find_dev_shape _ _ (a + 2) Hs) as H. rewrite E2, find_flash in H by lia. done. }
  pose proof (find_dev_shape _ _ a Hs) as H0. rewrite E0, find_flash in H0 by lia. injection H0 as Ei.
  pose proof (find_dev_shape _ _ (a + 2) Hs) as H2. rewrite E2, find_flash in H2 by lia. injection H2 as Ej.
  pose proof E0 as [L0 _]%find_dev_lookup. pose proof E2 as [L2 _]%find_dev_lookup. cbn in Ei, Ej. subst i j. assert (d' = d) as -> by congruence.
  assert (dev_shape d = dev_shape (flash_dev_create (32 * 1024))) as Hd.
  { pose proof (f_equal (fun l => l !! 3%nat) Hs) as H. cbn beta in H. rewrite list_lookup_fmap, L0 in H. apply (inj Some). exact H. }
  injection Hd as _ _ Ho _ Hk. destruct (body d) as [h|h| |u] eqn:Eb; try done.
  rewrite Forall_lookup in Hw. destruct (Hw _ _ L0) as (_ & _ & Hh). rewrite Eb in Hh.
  eapply word_of_fetch; [exact E0|exact E2|by right|exact Hh|lia|lia| |]; rewrite ?Ho; by destruct Ha as [->| ->].
Qed.

Lemma word_of_ext f g a : (forall x, a <= x < a + 4 -> f x = g x) -> word_of f a = word_of g a.
Proof. intros H. unfold word_of. by rewrite !H by lia. Qed.

Lemma loaded_resets junk cbs img m : (forall k, in_u 16 (junk k)) ->
  let start := mcu_add_callbacks (mcu_cortex_m0p_create junk (8 * 1024)) cbs in
  loaded img (mcu_unlock start) m ->
  wf_mcu (mcu_lock m) /\ callbacks (mcu_lock m) = [cbs] /\ regs (mcu_lock m) = regs start /\ state (mcu_lock m) = mcu_halted /\ trace (mcu_lock m) = [] /\
  forall a, a = 0 \/ a = 4 -> mcu_fetch32 (mcu_lock m) a = word_of (put_image img (mcu_util_fetch8 start)) a.
Proof.
  intros Hj start ((Er & _ & Es & _ & Ec & _ & Et) & Hv & _ & Hs & Hw).
  assert (wf_mcu (mcu_lock m)) as Hwf.
  { assert (wf_mcu (mcu_cortex_m0p_create junk (8 * 1024))) as H0 by (by apply wf_board_create).
    assert (wf_mcu m) as H1 by (apply Hw, (wf_devs _ _ H0); [done|apply H0]). apply (wf_devs _ _ H1); [done|apply H1]. }
  split; [exact Hwf|]. split; [exact Ec|]. split; [exact Er|]. split; [exact Es|]. split; [exact Et|].
  intros a Ha. rewrite vectors_fetch; [|exact Hwf|exact Hs|exact Ha]. apply word_of_ext. intros x Hx.
  apply (Hv x). unfold in_u. lia.
Qed.

Lemma write_reg_state m r v : state (mcu_write_reg m r v) = state m.
Proof. unfold mcu_write_reg. by repeat case_match. Qed.

Lemma reset_state m : state (snd (mcu_reset m)) = state m.
Proof. unfold mcu_reset. repeat case_match; cbn [snd]; rewrite ?write_reg_state; cbn [state set_mode]; by rewrite ?write_reg_state. Qed.

Section Spec.
Context {F W : Type} (open : F -> option W) (host : host_file W) (uninit : Z) (atol : list Z -> Z) (gdb_context : Z).
Abbreviation main := (main open host uninit atol gdb_context).

(** The contents of the memory before anything is loaded. *)
Definition blank (h : host_answers) : Z -> option Z := mcu_util_fetch8 (mcu_cortex_m0p_create (ram_junk h) (8 * 1024)).

(** C40: The simulator starts the firmware.  Given that the host had the memory for the
    machine and the debugger: with a well-formed ELF file, all of whose loaded bytes lie
    in the flash or the RAM, and an odd reset vector, [main] comes to its event loop with
    this image in memory, everything else as it was created, the stack pointer and the
    program counter from the first two words, in thread mode, the other registers 0, the
    flash locked; the machine runs unless -g was given, and the debugger is told when it
    halts.  With an even vector, or a file that cannot be opened or is no ELF file (one
    as long as an ELF header, of 52 bytes, without its marks), [main] reports this and
    returns -1. *)
Theorem simulator_starts h argv (f : F) w bytes pos sp pc :
  mcu_created h = true -> gdb_created h = true -> (forall k, in_u 16 (ram_junk h k)) ->
  let o := foldl (parse_option atol) no_options argv in
  firmware_file o = Some f -> HostFile host bytes pos ->
  (open f = None -> main h argv = Exits (-1) flash_faild) /\
  (open f = Some w -> 52 <= Z.of_nat (length bytes) -> is_elf (elf_header_of (take 52 bytes)) = false -> main h argv = Exits (-1) flash_faild) /\
  (open f = Some w -> well_formed bytes -> (forall a b, (a, b) ∈ image bytes -> in_memory a) ->
   word_of (put_image (image bytes) (blank h)) 0 = Some sp -> word_of (put_image (image bytes) (blank h)) 4 = Some pc ->
   if Z.odd pc then
     exists s, main h argv = Event_loop (gdb_port o) s /\ gdb_fd (stub s) = -1 /\
       (forall a, in_u 32 a -> mcu_util_fetch8 (target s) a = put_image (image bytes) (blank h) a) /\
       mcu_read_reg (target s) REG_SP = sp /\ sub32 (mcu_read_reg (target s) REG_PC) 2 = pc - 1 /\
       processor_mode (target s) = processor_thread_mode /\
       (forall r, 0 <= r < 13 \/ r = REG_LR -> mcu_read_reg (target s) r = 0) /\
       unlocked (target s) = false /\ mcu_is_halted (target s) = wait_for_gdb o /\ callbacks (target s) = [mk_callbacks true gdb_context]
   else main h argv = Exits (-1) mcu_reset_failed).
Proof.
  intros Hm Hg Hj o Hf HF. unfold SimMain.main. fold o. rewrite Hm, Hg, Hf. cbn [negb gdb_create]. unfold mcu_flash_file, elf_load. cbn [target].
  split; [|split].
  - by intros ->.
  - intros -> Hlen He. cbv iota beta. unfold bind.
    destruct (elf_refused host uninit bytes pos w (mcu_add_callbacks (mcu_cortex_m0p_create (ram_junk h) (8 * 1024)) (mk_callbacks true gdb_context)) Hlen He) as [w' ->]. done.
  - intros -> Hwf Hin Hsp Hpc. cbv iota beta. set (start := mcu_add_callbacks _ _).
    destruct (elf_load_run host uninit bytes pos w start Hwf) as (w' & m & E & Hl).
    { intros a b Hab. apply board_byte_ok; [exact Hj|by eapply Hin]. }
    unfold bind. rewrite E. cbn [fst ret].
    pose proof (loaded_resets (ram_junk h) _ _ m Hj Hl) as (Hw & Hc & Hr & Hst & Ht & Hv). 
    destruct (reset_spec (mcu_lock m) sp pc Hw) as [R1 R2]; [rewrite Hv by auto; exact Hsp|rewrite Hv by auto; exact Hpc|].
    destruct (mcu_reset (mcu_lock m)) as [ok m'] eqn:Erst. cbn [fst snd] in R1, R2. subst ok.
    destruct (Z.odd pc); [|done]. specialize (R2 eq_refl). cbv zeta in R2. destruct R2 as (R2 & R3 & R4 & R5 & R6 & R7).
    pose proof (reset_state (mcu_lock m)) as Es. destruct (rel_reset layout_kept (mcu_lock m)) as (_ & _ & Ecb & Eu). rewrite Erst in Es, Ecb, Eu. cbn [snd] in Es, Ecb, Eu.
    assert (forall a, in_u 32 a -> mcu_util_fetch8 m' a = put_image (image bytes) (blank h) a) as Hv'.
    { intros a Ha. destruct Hl as (_ & Hl & _). etransitivity; [|exact (Hl a Ha)]. unfold mcu_util_fetch8, mcu_fetch16. by rewrite R7. }
    assert (forall r, 0 <= r < 13 \/ r = REG_LR -> mcu_read_reg m' r = 0) as Hr'.
    { intros r Hrr. rewrite R6 by done. unfold mcu_read_reg, reg_slot. rewrite Hr. unfold REG_SP, REG_APSR, REG_IPSR, REG_EPSR, REG_LR in *.
      repeat match goal with |- context [r =? ?k] => destruct (Z.eqb_spec r k); [lia|] end. cbn [regs start mcu_add_callbacks mcu_cortex_m0p_create mcu_add_mem_dev set_mem_devs mcu_zero].
      change (default 0 (replicate 20 0 !! Z.to_nat r) = 0). destruct (replicate 20 0 !! Z.to_nat r) eqn:El; [|done]. by apply lookup_replicate in El as [-> _]. }
    rewrite Hst in Es. rewrite Hc in Ecb. unfold mcu_resume, mcu_is_halted at 1. rewrite Es. cbn [negb].
    eexists. split; [reflexivity|]. split; [done|].
    destruct (wait_for_gdb o); cbn [negb target]; (split; [exact Hv'|]); (split; [exact R2|]); (split; [exact R3|]); (split; [exact R5|]);
      (split; [exact Hr'|]); (split; [exact Eu|]); (split; [|exact Ecb]); [|done]. unfold mcu_is_halted. by rewrite Es.
Qed.
End Spec.

(** Without -f the flash is as it was created, where both words are 0xDEDEDEDE: the
    simulator ends before a debugger can load anything. *)
Theorem needs_firmware {F W : Type} (open : F -> option W) host uninit atol gdb_context h argv :
  mcu_created h = true -> gdb_created h = true -> (forall k, in_u 16 (ram_junk h k)) ->
  firmware_file (foldl (parse_option atol) no_options argv) = None ->
  main open host uninit atol gdb_context h argv = Exits (-1) mcu_reset_failed.
Proof.
  intros Hm Hg Hj Hf. unfold main. rewrite Hm, Hg, Hf. unfold gdb_create. cbn [negb target].
  assert (forall a, 0 <= a < 32 * 1024 -> mcu_fetch32 (mcu_add_callbacks (mcu_cortex_m0p_create (ram_junk h) (8 * 1024)) (mk_callbacks true gdb_context)) a = Some 0xDEDEDEDE) as Hv.
  { intros a Ha. exact (fetch32_memory (mcu_add_callbacks _ _) a _ _ (fun _ => 0xDEDE) (find_flash (ram_junk h) a Ha) (or_intror eq_refl)). }
  set (m := mcu_add_callbacks _ _) in *. clearbody m. cbn [ret]. unfold mcu_reset. rewrite (Hv 0) by lia. cbv zeta.
  assert (mcu_fetch32 (mcu_write_reg m REG_SP 0xDEDEDEDE) 4 = Some 0xDEDEDEDE) as ->; [|done].
  rewrite fetch32_write_reg. apply Hv. lia.
Qed.

(** A firmware of two words: a stack at 0x10001000 and an entry at 8. *)
Definition ex_firmware : list Z :=
  [127; 69; 76; 70] ++ replicate 24 0 ++ [52; 0; 0; 0] ++ replicate 10 0 ++ [32; 0; 1; 0] ++ replicate 6 0 ++
  [1; 0; 0; 0; 84; 0; 0; 0; 0; 0; 0; 0; 0; 0; 0; 0; 8; 0; 0; 0] ++ replicate 12 0 ++ [0; 0x10; 0; 0x10; 9; 0; 0; 0].
Definition ex_answers : host_answers := mk_answers (fun _ => 0) [] true true.

Lemma simulator_starts_witness :
  exists s, main (fun _ : unit => Some 0) (list_file ex_firmware) 0 (fun _ => 0) 5 ex_answers [opt_g; opt_f tt] = Event_loop 1234 s /\
    mcu_read_reg (target s) REG_SP = 0x10001000 /\ sub32 (mcu_read_reg (target s) REG_PC) 2 = 8 /\ mcu_is_halted (target s) = true.
Proof.
  destruct (simulator_starts (fun _ : unit => Some 0) (list_file ex_firmware) 0 (fun _ => 0) 5 ex_answers [opt_g; opt_f tt] tt 0 ex_firmware (fun pos => pos)
    0x10001000 9 eq_refl eq_refl) as (_ & _ & H); [intros k; by apply in_u_const|reflexivity|apply _|].
  destruct H as (s & E & _ & _ & Hsp & Hpc & _ & _ & _ & Hh & _); [reflexivity| | |vm_compute; reflexivity|vm_compute; reflexivity|].
  - split; [reflexivity|]. split; [vm_compute; discriminate|]. split; [by apply (bool_decide_unpack (Forall (fun b => 0 <= b < 256) ex_firmware))|].
    change (Z.to_nat (phnum (elf_header_of (take 52 ex_firmware)))) with 1%nat. intros [|i] Hi; [vm_compute; intuition discriminate|lia].
  - intros a b Hab. left. change (image ex_firmware) with [(0, 0); (1, 16); (2, 0); (3, 16); (4, 9); (5, 0); (6, 0); (7, 0)] in Hab.
    repeat first [apply elem_of_cons in Hab as [ [= -> ->] |Hab] ; [done|] | by apply not_elem_of_nil in Hab].
  - exists s. split; [exact E|]. split; [exact Hsp|]. split; [exact Hpc|exact Hh].
Defined.
