(* ===== verification/Fw.v ===== *)
(** * Fw: the monad of the firmware's functions

    State passing over an arbitrary state, with the two ways a firmware function
    can fail to return: an [assert] that does not hold, whose handler stops at a
    breakpoint and loops ([core/runtime.c]), and an access through a pointer to
    no object.  [Diverges] is the end of the fuel of a loop. *)
From S2P Require Import Prelude.

Inductive fault := AssertFail | WildAccess | Diverges.

Inductive out (St A : Type) :=
| Ok (a : A) (s : St)
| Fault (f : fault).
Arguments Ok {St A}. Arguments Fault {St A}.

Definition M (St A : Type) : Type := St -> out St A.

Section Monad.
Context {St : Type}.

Definition ret {A} (a : A) : M St A := fun s => Ok a s.
Definition bind {A B} (c : M St A) (k : A -> M St B) : M St B :=
  fun s => match c s with Ok a s' => k a s' | Fault f => Fault f end.
Definition gets {A} (f : St -> A) : M St A := fun s => Ok (f s) s.
Definition modify (f : St -> St) : M St unit := fun s => Ok tt (f s).
Definition fail {A} (f : fault) : M St A := fun _ => Fault f.

(** [assert(b, ...)] *)
Definition assert_ (b : bool) : M St unit := if b then ret tt else fail AssertFail.

(** The object a pointer points to. *)
Definition deref {A} (f : St -> option A) : M St A :=
  fun s => match f s with Some a => Ok a s | None => Fault WildAccess end.

Lemma bind_ok {A B} (c : M St A) (k : A -> M St B) s a s' : c s = Ok a s' -> bind c k s = k a s'.
Proof. unfold bind. by intros ->. Qed.

Lemma deref_ok {A} (f : St -> option A) s a : f s = Some a -> deref f s = Ok a s.
Proof. unfold deref. by intros ->. Qed.
End Monad.

Declare Scope fw_scope.
Notation "'let!' x := c 'in' k" := (bind c (fun x => k))
  (at level 10, x pattern, c at level 100, k at level 200) : fw_scope.
Notation "'run!' c 'in' k" := (bind c (fun _ => k))
  (at level 10, c at level 100, k at level 200) : fw_scope.
#[global] Open Scope fw_scope.
