(* ===== verification/Init.v ===== *)
(** * Init: the initialisation hooks

    [fw_init_run] of [top/init.c].  The hooks, which the linker collects between
    [fw_init_begin] and [fw_init_end], are a list; a pointer to one is its index.
    What a hook does is given ([hook]), as a computation on the rest of the
    firmware's state. *)
From Stdlib Require Import Sorted.
From S2P Require Import Prelude Fw.

Definition kFWInitLevelEarliest : Z := 1.
Definition kFWInitLevelThreading : Z := 0x1000.
Definition kFWInitLevelLast : Z := 2 ^ 32 - 1.

Section Init.
Context {E : Type}.

Record fw_init_hook := mk_hook { hook_level : Z; hook : Z -> M E unit }.

Record init_state := mk_init { last_level : Z; rest : E }.

Definition on_rest (c : M E unit) : M init_state unit := fun s =>
  match c (rest s) with Ok _ e => Ok tt (mk_init (last_level s) e) | Fault f => Fault f end.

(** The inner loop: [i] is [ptr], [found] the index and level of the hook found. *)
Fixpoint find_hook (level last_level last_called : Z) (last : option nat) (hooks : list fw_init_hook) (i : nat)
    (found : option (nat * Z)) (seen_last : bool) : option (nat * Z) :=
  match hooks with
  | [] => found
  | ptr :: hooks =>
      let seen_last := if decide (last = Some i) then true else seen_last in
      let continue found := find_hook level last_level last_called last hooks (S i) found seen_last in
      let l := hook_level ptr in
      if decide (level < l) then continue found
      else if decide (l < last_called) then continue found
      else if (match found with Some (_, fl) => fl <=? l | None => false end) then continue found
      else if decide (last_level < l /\ last_called < l) then continue (Some (i, l))
      else if decide (l = last_called /\ Some i <> last /\ seen_last = true) then Some (i, l)
      else continue found
  end.

Fixpoint init_loop (fuel : nat) (hooks : list fw_init_hook) (level last_called : Z) (last : option nat) : M init_state unit :=
  match fuel with
  | O => fail Diverges
  | S fuel =>
      let! low := gets last_level in
      match find_hook level low last_called last hooks 0 None false with
      | None => ret tt
      | Some (i, _) =>
          let! f := deref (fun _ => hooks !! i) in
          run! on_rest (hook f (hook_level f)) in
          init_loop fuel hooks level (hook_level f) (Some i)
      end
  end.

Definition fw_init_run (hooks : list fw_init_hook) (level : Z) : M init_state unit :=
  let! last_called := gets last_level in
  run! init_loop (S (length hooks)) hooks level last_called None in
  modify (fun s => mk_init level (rest s)).

(** ** The order of the hooks *)

(** [after hooks l i j]: the hook at [j] comes after level [l] and index [i], in
    the order by level and then by position. *)
Definition after (hooks : list fw_init_hook) (l : Z) (i : option nat) (j : nat) : Prop :=
  exists h, hooks !! j = Some h /\
    (l < hook_level h \/ l = hook_level h /\ match i with Some i => (i < j)%nat | None => False end).

Definition level_at (hooks : list fw_init_hook) (j : nat) : Z :=
  match hooks !! j with Some h => hook_level h | None => 0 end.

(** [runs hooks l i hi js]: the hooks [js] are those after [l] and [i] and up to
    level [hi], each once, in order. *)
Inductive runs (hooks : list fw_init_hook) (hi : Z) : Z -> option nat -> list nat -> Prop :=
| runs_none l i : (forall j, after hooks l i j -> hi < level_at hooks j) -> runs hooks hi l i []
| runs_next l i j js : after hooks l i j -> level_at hooks j <= hi ->
    (forall j', after hooks l i j' -> level_at hooks j' <= hi -> j' = j \/ after hooks (level_at hooks j) (Some j) j') ->
    runs hooks hi (level_at hooks j) (Some j) js -> runs hooks hi l i (j :: js).

(** The hooks [js], in this order. *)
Fixpoint run_hooks (hooks : list fw_init_hook) (js : list nat) : M E unit :=
  match js with
  | [] => ret tt
  | j :: js =>
      let! f := deref (fun _ => hooks !! j) in
      run! hook f (hook_level f) in run_hooks hooks js
  end.

(** *** The search *)

(** [found] is the first hook after [l] and [i] and up to [hi], of those before
    position [n]. *)
Definition first_after (hooks : list fw_init_hook) (hi l : Z) (i : option nat) (n : nat) (found : option (nat * Z)) : Prop :=
  match found with
  | None => forall j, (j < n)%nat -> after hooks l i j -> hi < level_at hooks j
  | Some (f, fl) => (f < n)%nat /\ after hooks l i f /\ fl = level_at hooks f /\ fl <= hi /\
      forall j, (j < n)%nat -> after hooks l i j -> level_at hooks j <= hi -> j = f \/ after hooks fl (Some f) j
  end.

Lemma after_level hooks l i j h : hooks !! j = Some h ->
  after hooks l i j <-> l < hook_level h \/ l = hook_level h /\ match i with Some i => (i < j)%nat | None => False end.
Proof. intros Eh. split; [intros (h' & E' & H); congruence|intros; by exists h]. Qed.

Lemma level_at_eq hooks j h : hooks !! j = Some h -> level_at hooks j = hook_level h.
Proof. unfold level_at. by intros ->. Qed.

Definition seen_before (last : option nat) (n : nat) : bool :=
  match last with Some k => bool_decide (k < n)%nat | None => false end.

(** The hook at [n] changes nothing. *)
Lemma first_after_skip hooks hi l i n h found : hooks !! n = Some h ->
  (after hooks l i n -> hi < hook_level h \/ match found with Some (_, fl) => fl <= hook_level h | None => False end) ->
  first_after hooks hi l i n found -> first_after hooks hi l i (S n) found.
Proof.
  intros Hh Hn Hf. assert (forall j, (j < S n)%nat -> j <> n -> (j < n)%nat) as Hlt by lia.
  rewrite <-(level_at_eq _ _ _ Hh) in Hn. destruct found as [[f fl]|]; simpl in *.
  - destruct Hf as (Hfn & Ha & Hfl & Hhi & Hall). repeat split; try done; [lia|].
    intros j Hj Haj Hlj. destruct (decide (j = n)) as [->|]; [|by apply Hall; [lia|..] ].
    destruct (Hn Haj); [lia|]. right. apply (after_level _ _ _ _ h Hh). rewrite <-(level_at_eq _ _ _ Hh). lia.
  - intros j Hj Haj. destruct (decide (j = n)) as [->|]; [|by apply Hf; [lia|] ]. by destruct (Hn Haj).
Qed.

(** The hook at [n] is the first one so far. *)
Lemma first_after_take hooks hi l i n h found : hooks !! n = Some h ->
  after hooks l i n -> hook_level h <= hi ->
  match found with Some (_, fl) => hook_level h < fl | None => True end ->
  first_after hooks hi l i n found -> first_after hooks hi l i (S n) (Some (n, hook_level h)).
Proof.
  intros Hh Ha Hhi Hlt Hf. simpl. rewrite (level_at_eq _ _ _ Hh). repeat split; try done; [lia|].
  intros j Hj Haj Hlj. destruct (decide (j = n)) as [->|]; [by left|]. right.
  destruct found as [[f fl]|]; simpl in Hf.
  - destruct Hf as (Hfn & Haf & Hfl & Hfh & Hall). destruct (Hall j ltac:(lia) Haj Hlj) as [->|(h' & E' & H')].
    + destruct Haf as (h' & E' & _). exists h'. split; [done|]. left. rewrite (level_at_eq _ _ _ E') in Hfl. lia.
    + exists h'. split; [done|]. left. lia.
  - assert (hi < level_at hooks j); [apply Hf; [lia|done] |lia].
Qed.

Lemma find_hook_first hi low l i pre hooks found :
  low <= l ->
  (forall f fl, found = Some (f, fl) -> l < fl) ->
  first_after (pre ++ hooks) hi l i (length pre) found ->
  first_after (pre ++ hooks) hi l i (length (pre ++ hooks))
    (find_hook hi low l i hooks (length pre) found (seen_before i (length pre))).
Proof.
  intros Hl. revert pre found. induction hooks as [|h hooks IH]; intros pre found Hgt Hf.
  { by rewrite app_nil_r in *. }
  assert ((pre ++ h :: hooks) !! length pre = Some h) as Hh by (by apply list_lookup_middle).
  assert (forall found', (forall f fl, found' = Some (f, fl) -> l < fl) ->
    first_after (pre ++ h :: hooks) hi l i (S (length pre)) found' ->
    first_after (pre ++ h :: hooks) hi l i (length (pre ++ h :: hooks))
     (find_hook hi low l i hooks (S (length pre)) found' (seen_before i (S (length pre))))) as Hgo.
  { intros found' Hgt' H. specialize (IH (pre ++ [h]) found' Hgt').
    rewrite length_app, Nat.add_1_r, <-app_assoc in IH. by apply IH. }
  simpl.
  assert ((if decide (i = Some (length pre)) then true else seen_before i (length pre)) = seen_before i (S (length pre))) as ->.
  { unfold seen_before. destruct i as [k|]; simpl; [|done].
    case_decide as Ek; [simplify_eq; by rewrite bool_decide_true by lia|].
    apply bool_decide_ext. assert (k <> length pre) by congruence. lia. }
  assert (after (pre ++ h :: hooks) l i (length pre) <->
    l < hook_level h \/ l = hook_level h /\ match i with Some i => (i < length pre)%nat | None => False end) as Hafter
    by (by apply after_level).
  case_decide as H1; [apply Hgo; [done|]; eapply first_after_skip; [done| |done]; intros; lia|].
  case_decide as H2; [apply Hgo; [done|]; eapply first_after_skip; [done| |done]; intros [|[? _] ]%Hafter; lia|].
  destruct (match found with Some (_, fl) => fl <=? hook_level h | None => false end) eqn:H3.
  { apply Hgo; [done|]. eapply first_after_skip; [done| |done]. intros _. right. destruct found as [ [f fl]|]; [lia|done]. }
  assert (match found with Some (_, fl) => hook_level h < fl | None => True end) as H3' by (destruct found as [ [f fl]|]; [lia|done]).
  case_decide as H4.
  { apply Hgo; [intros f fl [= <- <-]; lia|]. eapply first_after_take; try done; [|lia]. apply Hafter. lia. }
  case_decide as H5.
  - destruct H5 as (Hle & Hne & Hs). unfold seen_before in Hs. destruct i as [k|]; [|done]. apply bool_decide_eq_true in Hs.
    assert (k < length pre)%nat by (assert (k <> length pre) by congruence; lia).
    assert (first_after (pre ++ h :: hooks) hi l (Some k) (S (length pre)) (Some (length pre, hook_level h))) as (_ & Ha & Hfl & Hhi & Hall).
    { eapply first_after_take; try done; [apply Hafter; lia|lia]. }
    repeat split; try done.
    { rewrite length_app. simpl. lia. }
    intros j Hj Haj Hlj. destruct (decide (j < S (length pre))%nat) as [|Hge]; [by apply Hall|].
    right. destruct Haj as (h' & E' & H'). exists h'. split; [done|]. lia.
  - apply Hgo; [done|]. eapply first_after_skip; [done| |done]. intros Ha%Hafter.
    assert (hook_level h = l) by lia. destruct i as [k|]; [|lia]. destruct H5. split; [done|]. split; [intros [= <-]; lia|].
    simpl. apply bool_decide_eq_true. lia.
Qed.

Lemma find_hook_spec hi low l i hooks : low <= l ->
  first_after hooks hi l i (length hooks) (find_hook hi low l i hooks 0 None false).
Proof.
  intros Hl. pose proof (find_hook_first hi low l i [] hooks None Hl) as H. simpl in H.
  assert (seen_before i 0 = false) as E0 by (destruct i; [by apply bool_decide_false; lia|done]).
  rewrite E0 in H. apply H; [done|]. lia.
Qed.

Lemma after_lt hooks l i j : after hooks l i j -> (j < length hooks)%nat.
Proof. intros (h & Eh & _). by apply lookup_lt_Some in Eh. Qed.

(** *** The loop *)

#[local] Instance behind_dec (i : option nat) (j : nat) :
  Decision (match i with Some i => (i < j)%nat | None => False end).
Proof. destruct i; apply _. Defined.

(** The hooks that are still to come after [l] and [i]. *)
Definition todo (hooks : list fw_init_hook) (l : Z) (i : option nat) : list nat :=
  filter (fun j => l < level_at hooks j \/ l = level_at hooks j /\ match i with Some i => (i < j)%nat | None => False end)
    (seq 0 (length hooks)).

Lemma elem_of_todo hooks l i j : j ∈ todo hooks l i <-> after hooks l i j.
Proof.
  unfold todo. rewrite list_elem_of_filter, elem_of_seq. split.
  - intros (H & Hj). destruct (lookup_lt_is_Some_2 hooks j) as [h Hh]; [lia|]. rewrite (level_at_eq _ _ _ Hh) in H. by exists h.
  - intros Ha. pose proof (after_lt _ _ _ _ Ha). destruct Ha as (h & Hh & Hcmp). rewrite (level_at_eq _ _ _ Hh). split; [done|lia].
Qed.

Lemma filter_shorter (P Q : nat -> Prop) `{!forall x, Decision (P x), !forall x, Decision (Q x)} (xs : list nat) j :
  (forall x, P x -> Q x) -> j ∈ xs -> Q j -> ~ P j -> (length (filter P xs) < length (filter Q xs))%nat.
Proof.
  intros HPQ Hj HQ HP.
  assert (forall ys, (length (filter P ys) <= length (filter Q ys))%nat) as Hle.
  { induction ys as [|y ys IH]; [done|]. rewrite !filter_cons. repeat case_decide; simpl; try lia. naive_solver. }
  apply list_elem_of_split in Hj as (xs1 & xs2 & ->). rewrite !filter_app, !length_app.
  rewrite (filter_cons_False P), (filter_cons_True Q) by done. simpl. pose proof (Hle xs1). pose proof (Hle xs2). lia.
Qed.

Lemma todo_shorter hooks l i j : after hooks l i j ->
  (length (todo hooks (level_at hooks j) (Some j)) < length (todo hooks l i))%nat.
Proof.
  intros Ha. pose proof (after_lt _ _ _ _ Ha). destruct Ha as (h & Hh & H'). rewrite (level_at_eq _ _ _ Hh).
  unfold todo. apply filter_shorter with j.
  - intros x [?|[<- ?] ]; [lia|]. destruct H' as [?|[? ?] ]; [lia|]. right. split; [done|]. destruct i; [lia|done].
  - apply elem_of_seq. lia.
  - by rewrite (level_at_eq _ _ _ Hh).
  - rewrite (level_at_eq _ _ _ Hh). lia.
Qed.

(** The loop runs the hooks that are after [l] and [i], in order. *)
Lemma init_loop_runs hooks hi low fuel l i :
  low <= l -> (length (todo hooks l i) < fuel)%nat ->
  exists js, runs hooks hi l i js /\
    forall s, last_level s = low -> init_loop fuel hooks hi l i s = on_rest (run_hooks hooks js) s.
Proof.
  revert l i. induction fuel as [|fuel IH]; intros l i Hl Hf; [lia|].
  pose proof (find_hook_spec hi low l i hooks Hl) as Hfind.
  destruct (find_hook hi low l i hooks 0 None false) as [ [j fl]|] eqn:Hj; simpl in Hfind.
  - destruct Hfind as (Hlt & Ha & -> & Hhi & Hall).
    destruct (IH (level_at hooks j) (Some j)) as (js & Hr & Hrun).
    { destruct Ha as (h & Hh & H'). rewrite (level_at_eq _ _ _ Hh). lia. }
    { pose proof (todo_shorter _ _ _ _ Ha). lia. }
    exists (j :: js). split.
    { apply runs_next; try done. intros j' Ha' Hl'. apply Hall; [|done..]. by apply after_lt in Ha'. }
    intros s Hs. cbn [init_loop run_hooks]. unfold bind, gets. rewrite Hs, Hj.
    destruct Ha as (h & Hh & H'). unfold on_rest, deref. rewrite Hh.
    destruct (hook h (hook_level h) (rest s)) as [[] e'|f]; [|done].
    rewrite <-(level_at_eq _ _ _ Hh), Hrun by done. done.
  - exists []. split.
    { apply runs_none. intros j Ha. apply Hfind; [|done]. by apply after_lt in Ha. }
    intros s Hs. cbn [init_loop run_hooks]. unfold bind, gets. rewrite Hs, Hj. unfold on_rest. simpl. by destruct s.
Qed.

Lemma todo_length hooks l i : (length (todo hooks l i) <= length hooks)%nat.
Proof. unfold todo. etransitivity; [apply length_filter|]. by rewrite length_seq. Qed.

Lemma fw_init_run_spec hooks low hi : exists js, runs hooks hi low None js /\
  forall s, last_level s = low ->
    fw_init_run hooks hi s = (run! on_rest (run_hooks hooks js) in modify (fun s => mk_init hi (rest s))) s.
Proof.
  destruct (init_loop_runs hooks hi low (S (length hooks)) low None) as (js & Hr & Hrun); [lia| |].
  { pose proof (todo_length hooks low None). lia. }
  exists js. split; [done|]. intros s Hs. unfold fw_init_run. unfold bind at 1, gets. rewrite Hs.
  unfold bind. by rewrite Hrun.
Qed.

(** *** What [runs] says *)

Definition ordered (hooks : list fw_init_hook) (j j' : nat) : Prop :=
  level_at hooks j < level_at hooks j' \/ level_at hooks j = level_at hooks j' /\ (j < j')%nat.

Lemma runs_elem hooks hi l i js : runs hooks hi l i js -> forall j, j ∈ js <-> after hooks l i j /\ level_at hooks j <= hi.
Proof.
  induction 1 as [l i H|l i j js Ha Hl Hall Hr IH]; intros j'.
  - rewrite elem_of_nil. split; [done|]. intros [Ha Hl]. apply H in Ha. lia.
  - rewrite elem_of_cons, IH. split.
    + intros [->|[Ha' Hl'] ]; [done|]. split; [|done].
      destruct Ha as (h & Hh & H'), Ha' as (h' & Hh' & H''). rewrite (level_at_eq _ _ _ Hh) in H''.
      exists h'. split; [done|]. destruct H' as [?|[? ?] ]; [lia|]. destruct H'' as [?|[? ?] ]; [lia|].
      right. split; [lia|]. destruct i; [lia|done].
    + intros [Ha' Hl']. destruct (Hall j' Ha' Hl'); [by left|by right].
Qed.

Lemma runs_sorted hooks hi l i js : runs hooks hi l i js -> StronglySorted (ordered hooks) js.
Proof.
  induction 1 as [l i H|l i j js Ha Hl Hall Hr IH]; [constructor|]. constructor; [done|].
  apply Forall_forall. intros j' Hj'. apply (runs_elem _ _ _ _ _ Hr) in Hj' as ((h & Hh & H) & _).
  unfold ordered. rewrite (level_at_eq _ _ _ Hh). naive_solver.
Qed.

(** *** The levels of the boot *)

(** [fw_init_run] at each of the levels. *)
Fixpoint run_levels (hooks : list fw_init_hook) (levels : list Z) : M init_state unit :=
  match levels with
  | [] => ret tt
  | l :: levels => run! fw_init_run hooks l in run_levels hooks levels
  end.

(** The levels of the calls in [firmware_main]. *)
Definition boot_levels : list Z := [kFWInitLevelEarliest; kFWInitLevelThreading; kFWInitLevelLast].

Lemma run_hooks_app hooks xs ys e :
  run_hooks hooks (xs ++ ys) e = (run! run_hooks hooks xs in run_hooks hooks ys) e.
Proof.
  revert e. induction xs as [|x xs IH]; intros e; [done|]. simpl. unfold bind, deref.
  destruct (hooks !! x) as [h|]; [|done]. destruct (hook h (hook_level h) e) as [ [] e'|f]; [|done]. apply IH.
Qed.

Lemma after_none hooks l j : after hooks l None j <-> (j < length hooks)%nat /\ l < level_at hooks j.
Proof.
  split.
  - intros Ha. pose proof (after_lt _ _ _ _ Ha). destruct Ha as (h & Hh & [Hlv| [_ []] ]). by rewrite (level_at_eq _ _ _ Hh).
  - intros [Hj Hl]. destruct (lookup_lt_is_Some_2 hooks j Hj) as [h Hh]. exists h. rewrite (level_at_eq _ _ _ Hh) in Hl. by split; [|left].
Qed.

Lemma StronglySorted_app_2 {A} (R : A -> A -> Prop) xs ys :
  StronglySorted R xs -> StronglySorted R ys -> (forall x y, x ∈ xs -> y ∈ ys -> R x y) -> StronglySorted R (xs ++ ys).
Proof.
  intros Hx Hy. induction Hx as [|x xs Hx IH Hall]; intros H; [done|]. simpl. constructor.
  - apply IH. intros; apply H; [set_solver|done].
  - apply Forall_app. split; [done|]. apply Forall_forall. intros y Hyy. apply H; [set_solver|done].
Qed.

(** However the levels of its calls ascend, [fw_init_run] runs every hook above
    the level it starts from and up to the last level exactly once, by ascending
    level and in the order of the linker within a level; a hook that does not
    return ends the boot. *)
Theorem init_hooks_once hooks low levels : Sorted Z.lt (low :: levels) ->
  exists js,
    (forall j, j ∈ js <-> (j < length hooks)%nat /\ low < level_at hooks j <= last_or low levels) /\
    NoDup js /\ StronglySorted (ordered hooks) js /\
    forall e, run_levels hooks levels (mk_init low e) =
      match run_hooks hooks js e with Ok _ e' => Ok tt (mk_init (last_or low levels) e') | Fault f => Fault f end.
Proof.
  intros Hs.
  cut (exists js, (forall j, j ∈ js <-> (j < length hooks)%nat /\ low < level_at hooks j <= last_or low levels) /\
    StronglySorted (ordered hooks) js /\
    forall e, run_levels hooks levels (mk_init low e) =
      match run_hooks hooks js e with Ok _ e' => Ok tt (mk_init (last_or low levels) e') | Fault f => Fault f end).
  { intros (js & Hel & Hss & Hrun). exists js. repeat split; try done; try apply Hel; try done.
    clear -Hss. induction Hss as [|j js Hss IH Hall]; constructor; [|done]. intros Hj.
    rewrite Forall_forall in Hall. specialize (Hall j Hj). unfold ordered in Hall. lia. }
  revert low Hs. induction levels as [|m levels IH]; intros low Hs.
  - exists []. split; [|split; [constructor|done] ]. intros j. rewrite elem_of_nil, last_or_nil. lia.
  - apply Sorted_inv in Hs as [Hs Hlm]. apply HdRel_inv in Hlm. destruct (IH m Hs) as (ys & Hy & Hsy & Hry).
    destruct (fw_init_run_spec hooks low m) as (xs & Hx & Hrx). exists (xs ++ ys).
    assert (m <= last_or m levels) as Hm.
    { clear -Hs. revert m Hs. induction levels as [|m' levels IH]; intros m Hs; [rewrite last_or_nil; lia|].
      apply Sorted_inv in Hs as [Hs H]. apply HdRel_inv in H. specialize (IH m' Hs). rewrite last_or_cons. lia. }
    rewrite last_or_cons.
    assert (forall j, j ∈ xs <-> (j < length hooks)%nat /\ low < level_at hooks j <= m) as Hxe.
    { intros j. rewrite (runs_elem _ _ _ _ _ Hx), after_none. tauto. }
    split; [|split].
    + intros j. rewrite elem_of_app, Hxe, Hy. lia.
    + apply StronglySorted_app_2; [by eapply runs_sorted|done|]. intros x y [_ Hxl]%Hxe [_ Hyl]%Hy. left. lia.
    + intros e. cbn [run_levels]. unfold bind at 1. rewrite Hrx by done. rewrite run_hooks_app. unfold bind, on_rest, modify.
      simpl. destruct (run_hooks hooks xs e) as [ [] e'|f]; [|done]. apply Hry.
Qed.
End Init.

(** Five hooks that log their position. *)
Definition ex_hooks : list (fw_init_hook (E := list Z)) :=
  imap (fun i l => mk_hook l (fun _ => modify (fun log => log ++ [Z.of_nat i]))) [0x1000; 1; 0x2000; 1; 0x1000].

Lemma init_hooks_once_witness :
  run_levels ex_hooks boot_levels (mk_init 0 []) = Ok tt (mk_init kFWInitLevelLast [1; 3; 0; 4; 2]) /\
  exists js,
    (forall j, j ∈ js <-> (j < length ex_hooks)%nat /\ 0 < level_at ex_hooks j <= last_or 0 boot_levels) /\
    NoDup js /\ StronglySorted (ordered ex_hooks) js /\
    forall e, run_levels ex_hooks boot_levels (mk_init 0 e) =
      match run_hooks ex_hooks js e with Ok _ e' => Ok tt (mk_init (last_or 0 boot_levels) e') | Fault f => Fault f end.
Proof.
  split; [reflexivity|]. apply (init_hooks_once ex_hooks 0 boot_levels).
  repeat constructor; vm_compute; reflexivity.
Defined.
