(* ===== verification/Sched.v ===== *)
(** * Sched: threads and the scheduler

    [core/thread.c], [core/scheduler.c] and the inline functions of their headers,
    over the list interface of [ListApi].  A thread is known by its address; its
    [thread_list_entry] is at that address and its [scheduler_data.queue_entry] at
    offset [queue_off].  [yield] requests the PendSV exception ([arch_yield] of
    [arch/arm-m/arch.c]); [scheduler_lock] and [scheduler_unlock] mask interrupts. *)
From S2P Require Import Prelude ListApi Fw.

(** [thread_state_t] *)
Inductive thread_state :=
| THREAD_STATE_UNKOWN | THREAD_STATE_RUNNING | THREAD_STATE_STOPPED | THREAD_STATE_BLOCKED.

#[export] Instance thread_state_eq_dec : EqDecision thread_state.
Proof. solve_decision. Defined.

(** [struct thread], less its list entries. *)
Record thread := mk_thread {
  tid : Z; tstate : thread_state; stack : Z; stack_protector : Z; stack_size : Z; name : Z }.

(** [struct semaphore]; [value] is an [int8_t]. *)
Record semaphore (L : Type) := mk_sem { value : Z; queue : L }.
Arguments mk_sem {L}. Arguments value {L}. Arguments queue {L}.

Definition kStackProtector : Z := 0xBADBEEF.

Section Sched.
Context {S L : Type} `{LA : ListApi S L} (queue_off : Z).

(** The kernel's memory: the list entries, the threads, the semaphores and the
    waitee records on the threads' stacks (the [thread] field of each), the words
    of the stacks, and the globals of [thread.c] and [scheduler.c] with the state
    of the interrupt mask and the pending PendSV. *)
Record sys := mk_sys {
  entries : S;
  threads : gmap Z thread;
  sems : gmap Z (semaphore L);
  waitees : gmap Z Z;
  words : gmap Z Z;
  thread_list : L;
  next_tid : Z;
  running_queue : L;
  current_thread : Z;
  idle_thread : Z;
  in_isr_count : Z;
  irqs_off : bool;
  pendsv : bool }.

Definition set_entries (s : sys) v := mk_sys v (threads s) (sems s) (waitees s) (words s) (thread_list s) (next_tid s) (running_queue s) (current_thread s) (idle_thread s) (in_isr_count s) (irqs_off s) (pendsv s).
Definition set_threads (s : sys) v := mk_sys (entries s) v (sems s) (waitees s) (words s) (thread_list s) (next_tid s) (running_queue s) (current_thread s) (idle_thread s) (in_isr_count s) (irqs_off s) (pendsv s).
Definition set_sems (s : sys) v := mk_sys (entries s) (threads s) v (waitees s) (words s) (thread_list s) (next_tid s) (running_queue s) (current_thread s) (idle_thread s) (in_isr_count s) (irqs_off s) (pendsv s).
Definition set_waitees (s : sys) v := mk_sys (entries s) (threads s) (sems s) v (words s) (thread_list s) (next_tid s) (running_queue s) (current_thread s) (idle_thread s) (in_isr_count s) (irqs_off s) (pendsv s).
Definition set_words (s : sys) v := mk_sys (entries s) (threads s) (sems s) (waitees s) v (thread_list s) (next_tid s) (running_queue s) (current_thread s) (idle_thread s) (in_isr_count s) (irqs_off s) (pendsv s).
Definition set_thread_list (s : sys) v := mk_sys (entries s) (threads s) (sems s) (waitees s) (words s) v (next_tid s) (running_queue s) (current_thread s) (idle_thread s) (in_isr_count s) (irqs_off s) (pendsv s).
Definition set_next_tid (s : sys) v := mk_sys (entries s) (threads s) (sems s) (waitees s) (words s) (thread_list s) v (running_queue s) (current_thread s) (idle_thread s) (in_isr_count s) (irqs_off s) (pendsv s).
Definition set_running_queue (s : sys) v := mk_sys (entries s) (threads s) (sems s) (waitees s) (words s) (thread_list s) (next_tid s) v (current_thread s) (idle_thread s) (in_isr_count s) (irqs_off s) (pendsv s).
Definition set_current (s : sys) v := mk_sys (entries s) (threads s) (sems s) (waitees s) (words s) (thread_list s) (next_tid s) (running_queue s) v (idle_thread s) (in_isr_count s) (irqs_off s) (pendsv s).
Definition set_idle (s : sys) v := mk_sys (entries s) (threads s) (sems s) (waitees s) (words s) (thread_list s) (next_tid s) (running_queue s) (current_thread s) v (in_isr_count s) (irqs_off s) (pendsv s).
Definition set_isr (s : sys) v := mk_sys (entries s) (threads s) (sems s) (waitees s) (words s) (thread_list s) (next_tid s) (running_queue s) (current_thread s) (idle_thread s) v (irqs_off s) (pendsv s).
Definition set_irqs_off (s : sys) v := mk_sys (entries s) (threads s) (sems s) (waitees s) (words s) (thread_list s) (next_tid s) (running_queue s) (current_thread s) (idle_thread s) (in_isr_count s) v (pendsv s).
Definition set_pendsv (s : sys) v := mk_sys (entries s) (threads s) (sems s) (waitees s) (words s) (thread_list s) (next_tid s) (running_queue s) (current_thread s) (idle_thread s) (in_isr_count s) (irqs_off s) v.

(** ** Access to the memory *)

Definition get_thread (t : Z) : M sys thread := deref (fun s => threads s !! t).
Definition put_thread (t : Z) (th : thread) : M sys unit :=
  modify (fun s => set_threads s (<[t := th]> (threads s))).

(** A list operation on a list head that is part of the state. *)
Definition on_list (proj : sys -> L) (put : sys -> L -> sys) (op : L -> S -> option (L * S)) : M sys unit :=
  let! r := deref (fun s => op (proj s) (entries s)) in
  modify (fun s => set_entries (put s r.1) r.2).

Definition on_entries (op : S -> option S) : M sys unit :=
  let! r := deref (fun s => op (entries s)) in modify (fun s => set_entries s r).

Definition write_word (a v : Z) : M sys unit :=
  if a =? NULL then fail WildAccess else modify (fun s => set_words s (<[a := u32 v]> (words s))).

(** [&thread->scheduler_data.queue_entry] and the [container_of] back. *)
Definition queue_entry (t : Z) : Z := t + queue_off.
Definition container_of (ptr off : Z) : Z := if truth ptr then ptr - off else NULL.

(** ** [scheduler.h] *)

Definition scheduler_lock : M sys unit := modify (fun s => set_irqs_off s true).
Definition scheduler_unlock : M sys unit := modify (fun s => set_irqs_off s false).
Definition yield : M sys unit := modify (fun s => set_pendsv s true).
Definition scheduler_enter_isr : M sys unit := modify (fun s => set_isr s (u8 (in_isr_count s + 1))).
Definition scheduler_leave_isr : M sys unit := modify (fun s => set_isr s (u8 (in_isr_count s - 1))).
Definition scheduler_in_isr : M sys bool := gets (fun s => in_isr_count s >? 0).

(** ** [thread.h] *)

Definition thread_set_stack (t sp : Z) : M sys unit :=
  let! th := get_thread t in
  run! assert_ (stack_protector th <? sp) in
  put_thread t (mk_thread (tid th) (tstate th) sp (stack_protector th) (stack_size th) (name th)).

Definition thread_get_stack (t : Z) : M sys Z := let! th := get_thread t in ret (stack th).

(** [thread.c]; [STACK_CHECK_PROTECTOR] is defined in [firmware_config.h]. *)
Definition thread_assert_stack_protection (t : Z) : M sys unit :=
  let! th := get_thread t in
  if truth (stack_protector th) then
    run! assert_ (stack_protector th <? stack th) in
    let! w := deref (fun s => words s !! stack_protector th) in
    assert_ (w =? kStackProtector)
  else ret tt.

(** ** [scheduler.c] *)

Definition scheduler_current_thread : M sys Z := gets current_thread.

Definition schedule (sp : Z) : M sys Z :=
  run! assert_ (truth sp) in
  run! scheduler_enter_isr in
  let! cur := gets current_thread in
  run! thread_set_stack cur sp in
  run! thread_assert_stack_protection cur in
  run! scheduler_lock in
  let! empty := gets (fun s => l_is_empty (running_queue s)) in
  run! (if (empty : bool) then
          modify (fun s => set_current s (idle_thread s))
        else
          let! q := deref (fun s => l_lrotate (running_queue s) (entries s)) in
          run! modify (fun s => set_running_queue s q) in
          modify (fun s => set_current s (container_of (l_first (running_queue s)) queue_off))) in
  run! scheduler_unlock in
  let! cur := gets current_thread in
  let! sp := thread_get_stack cur in
  run! scheduler_leave_isr in
  ret sp.

Definition scheduler_thread_data_init (t : Z) : M sys unit :=
  on_entries (fun st => l_entry_init st (queue_entry t)).

Definition is_running (st : thread_state) : bool := bool_decide (st = THREAD_STATE_RUNNING).

Definition scheduler_thread_changed_state (t : Z) (old_state new_state : thread_state) : M sys unit :=
  run! scheduler_lock in
  run! (if is_running old_state && negb (is_running new_state) then
          run! on_list running_queue set_running_queue (fun l st => l_delete l st (queue_entry t)) in
          let! cur := gets current_thread in
          if t =? cur then yield else ret tt
        else if negb (is_running old_state) && is_running new_state then
          on_list running_queue set_running_queue (fun l st => l_append l st (queue_entry t))
        else ret tt) in
  let! cur := gets current_thread in
  let! idle := gets idle_thread in
  run! (if cur =? idle then yield else ret tt) in
  scheduler_unlock.

Definition scheduler_set_idle_thread (t : Z) : M sys unit := modify (fun s => set_idle s t).

(** ** [thread.c] *)

Definition thread_early_init : M sys unit :=
  run! modify (fun s => set_thread_list s l_init) in
  modify (fun s => set_next_tid s 1).

(** The loop of [thread_stack_utilisation_reset]: the words from [p] up to [top]. *)
Fixpoint paint_stack (fuel : nat) (p top : Z) : M sys unit :=
  match fuel with
  | O => ret tt
  | Datatypes.S fuel =>
      if p <? top then run! write_word p kStackProtector in paint_stack fuel (p + 4) top else ret tt
  end.

(** A round for each byte is more than one for each word. *)
Definition thread_stack_utilisation_reset (t : Z) : M sys unit :=
  let! cur := scheduler_current_thread in
  if t =? cur then ret tt
  else
    let! th := get_thread t in
    paint_stack (Z.to_nat (stack th - stack_protector th)) (stack_protector th + 4) (stack th).

Fixpoint count_painted (fuel : nat) (p top size : Z) : M sys Z :=
  match fuel with
  | O => ret size
  | Datatypes.S fuel =>
      if p <? top then
        let! w := deref (fun s => words s !! p) in
        if w =? kStackProtector then count_painted fuel (p + 4) top (u32 (size - 4)) else ret size
      else ret size
  end.

Definition thread_stack_utilisation (t : Z) : M sys Z :=
  let! th := get_thread t in
  count_painted (Z.to_nat (stack th - stack_protector th)) (stack_protector th) (stack th) (stack_size th).

(** [memory] is what [malloc_raw] returns for the stack, when it is called. *)
Definition thread_struct_init (memory t nm stack_size stk : Z) : M sys unit :=
  let! tid := gets next_tid in
  run! modify (fun s => set_next_tid s (u8 (next_tid s + 1))) in
  run! (if (stk =? NULL) && (stack_size >? 0) then
          run! put_thread t (mk_thread tid THREAD_STATE_STOPPED (memory + stack_size) memory stack_size nm) in
          run! write_word memory kStackProtector in
          thread_stack_utilisation_reset t
        else
          put_thread t (mk_thread tid THREAD_STATE_STOPPED
                          (if stack_size >? 0 then stk + (stack_size - 4) else stk) NULL 0 nm)) in
  run! on_entries (fun st => l_entry_init st t) in
  run! on_list thread_list set_thread_list (fun l st => l_append l st t) in
  scheduler_thread_data_init t.

(** [t] is what [malloc_raw] returns for the thread. *)
Definition thread_create (t memory nm stack_size stk : Z) : M sys Z :=
  if t =? NULL then ret NULL
  else run! thread_struct_init memory t nm stack_size stk in ret t.

(** [*thread->stack] *)
Definition push_word (t v : Z) : M sys unit :=
  let! th := get_thread t in write_word (stack th) v.

(** [thread->stack -= n], in words *)
Definition stack_down (t n : Z) : M sys unit :=
  let! th := get_thread t in
  put_thread t (mk_thread (tid th) (tstate th) (stack th - 4 * n) (stack_protector th) (stack_size th) (name th)).

Definition thread_set_function_v (t func argc arg : Z) : M sys unit :=
  run! push_word t 0x01000000 in
  run! stack_down t 1 in
  run! push_word t func in
  run! stack_down t 1 in
  run! push_word t 0xFFFFFFFE in
  run! stack_down t 5 in
  if argc >? 0 then
    run! push_word t arg in
    stack_down t 8
  else stack_down t 8.

Definition thread_set_function (t func argc arg : Z) : M sys unit := thread_set_function_v t func argc arg.

Definition thread_set_state (t : Z) (new : thread_state) : M sys unit :=
  let! th := get_thread t in
  run! put_thread t (mk_thread (tid th) new (stack th) (stack_protector th) (stack_size th) (name th)) in
  scheduler_thread_changed_state t (tstate th) new.

Definition thread_block : M sys unit :=
  let! cur := scheduler_current_thread in thread_set_state cur THREAD_STATE_BLOCKED.

Definition thread_stop (t : Z) : M sys unit := thread_set_state t THREAD_STATE_STOPPED.

Definition thread_wakeup (t : Z) : M sys unit := thread_set_state t THREAD_STATE_RUNNING.

(** [scheduler_init]; [main] is what [malloc_raw] returns for the main thread. *)
Definition scheduler_init (main nm : Z) : M sys unit :=
  run! modify (fun s => set_running_queue s l_init) in
  let! t := thread_create main NULL nm 0 NULL in
  run! modify (fun s => set_current s t) in
  run! thread_wakeup t in
  yield.
End Sched.
