(* ===== verification/Semaphore.v ===== *)
(** * Semaphore: [core/semaphore.c]

    Counting semaphores on the scheduler of [Sched].  A [struct semaphore_waitee]
    lives on the stack of the thread that waits, at address [w]: its entry is an
    entry of the store, its thread is in [waitees]. *)
From S2P Require Import Prelude ListApi Fw Sched.

Section Semaphore.
Context {S L : Type} `{LA : ListApi S L} (queue_off : Z).
Abbreviation sys := (Sched.sys (S := S) (L := L)).

Definition get_sem (q : Z) : M sys (semaphore L) := deref (fun s => sems s !! q).
Definition put_sem (q : Z) (sm : semaphore L) : M sys unit :=
  modify (fun s => set_sems s (<[q := sm]> (sems s))).

(** A list operation on the semaphore's queue. *)
Definition on_queue (q : Z) (op : L -> S -> option (L * S)) : M sys unit :=
  let! sm := get_sem q in
  let! r := deref (fun s => op (queue sm) (entries s)) in
  run! modify (fun s => set_entries s r.2) in
  put_sem q (mk_sem (value sm) r.1).

Definition semaphore_init (q initial_value : Z) : M sys unit := put_sem q (mk_sem initial_value l_init).

(** [q] is what [malloc_raw] returns. *)
Definition semaphore_create (q initial_value : Z) : M sys Z :=
  if q =? NULL then ret NULL else run! semaphore_init q initial_value in ret q.

Definition semaphore_cleanup (q : Z) : M sys unit :=
  let! sm := get_sem q in assert_ (l_is_empty (queue sm)).

Definition semaphore_destory (q : Z) : M sys unit :=
  run! semaphore_cleanup q in modify (fun s => set_sems s (delete q (sems s))).

(** The three parts of [semaphore_signal], between which an interrupt can come. *)
Definition signal_count (q : Z) : M sys unit :=
  let! sm := get_sem q in put_sem q (mk_sem (i8 (value sm + 1)) (queue sm)).

Definition signal_first (q : Z) : M sys Z :=
  let! sm := get_sem q in ret (container_of (l_first (queue sm)) 0).

Definition signal_wake (q waitee : Z) : M sys unit :=
  if truth waitee then
    run! on_queue q (fun l st => l_delete l st (l_first l)) in
    let! t := deref (fun s => waitees s !! waitee) in
    thread_wakeup queue_off t
  else ret tt.

Definition semaphore_signal (q : Z) : M sys unit :=
  run! signal_count q in
  let! waitee := signal_first q in
  signal_wake q waitee.

(** [w] is the address of the local variable [waitee]. *)
Definition semaphore_wait (q w : Z) : M sys unit :=
  let! cur := scheduler_current_thread in
  run! modify (fun s => set_waitees s (<[w := cur]> (waitees s))) in
  run! on_entries (fun st => l_entry_init st w) in
  run! scheduler_lock in
  let! sm := get_sem q in
  run! put_sem q (mk_sem (i8 (value sm - 1)) (queue sm)) in
  if i8 (value sm - 1) >=? 0 then scheduler_unlock
  else
    run! on_queue q (fun l st => l_append l st w) in
    thread_block queue_off.
End Semaphore.
