(* ===== verification/SchedSpec.v ===== *)
(** * SchedSpec: what the scheduler and the semaphores implement

    An abstract kernel, in which the running queue and the queues of the
    semaphores are sequences, and the proof that the operations of [Sched] and
    [Semaphore], on any implementation of [ListApi], refine its transitions. *)
From S2P Require Import Prelude ListApi Fw Sched Semaphore.

(** ** The abstract kernel *)

Record kernel := mk_kernel {
  k_all : list Z;                       (* threads, in the order of creation *)
  k_state : gmap Z thread_state;
  k_rq : list Z;                        (* runnable threads, the current one first *)
  k_sems : gmap Z (Z * list (Z * Z));   (* value, waitees with their threads *)
  k_cur : Z;
  k_idle : Z;
  k_pend : bool }.                      (* a reschedule is requested *)

Definition remove (t : Z) (ts : list Z) : list Z := filter (fun x => x <> t) ts.
Definition rotate (ts : list Z) : list Z := match ts with [] => [] | t :: ts' => ts' ++ [t] end.
Definition running (k : kernel) (t : Z) : bool := bool_decide (k_state k !! t = Some THREAD_STATE_RUNNING).

(** A thread changes its state. *)
Definition a_set_state (t : Z) (new : thread_state) (k : kernel) : kernel :=
  mk_kernel (k_all k) (<[t := new]> (k_state k))
    (if running k t && negb (is_running new) then remove t (k_rq k)
     else if negb (running k t) && is_running new then k_rq k ++ [t] else k_rq k)
    (k_sems k) (k_cur k) (k_idle k)
    (k_pend k || (running k t && negb (is_running new) && (t =? k_cur k)) || (k_cur k =? k_idle k)).

(** A reschedule takes the next thread of the queue in turn, or the idle thread. *)
Definition a_schedule (k : kernel) : kernel :=
  mk_kernel (k_all k) (k_state k) (rotate (k_rq k)) (k_sems k)
    (hd_or (k_idle k) (rotate (k_rq k))) (k_idle k) (k_pend k).

Definition a_put_sem (q v : Z) (ws : list (Z * Z)) (k : kernel) : kernel :=
  mk_kernel (k_all k) (k_state k) (k_rq k) (<[q := (v, ws)]> (k_sems k)) (k_cur k) (k_idle k) (k_pend k).

(** Waiting takes a unit, or queues the current thread behind those that wait. *)
Definition a_wait (q w v : Z) (ws : list (Z * Z)) (k : kernel) : kernel :=
  if v >? 0 then a_put_sem q (v - 1) ws k
  else a_set_state (k_cur k) THREAD_STATE_BLOCKED (a_put_sem q (v - 1) (ws ++ [(w, k_cur k)]) k).

(** A signal wakes the thread that waits longest, or leaves a unit. *)
Definition a_signal (q v : Z) (ws : list (Z * Z)) (k : kernel) : kernel :=
  match ws with
  | [] => a_put_sem q (v + 1) [] k
  | (_, t) :: ws' => a_set_state t THREAD_STATE_RUNNING (a_put_sem q (v + 1) ws' k)
  end.

Section Spec.
Context {S L : Type} `{LA : ListApi S L} (queue_off : Z).
Abbreviation sys := (Sched.sys (S := S) (L := L)).
Abbreviation qe := (queue_entry queue_off).

(** The entries of different threads and of waitees are different memory. *)
Record separate (k : kernel) : Prop := {
  sep_all : NoDup (k_all k);
  sep_thread t t' : t ∈ k_all k -> t' ∈ k_all k -> t <> qe t';
  sep_null t : t ∈ k_all k -> t <> NULL /\ qe t <> NULL;
  sep_waitee q v ws w t : k_sems k !! q = Some (v, ws) -> (w, t) ∈ ws ->
    w <> NULL /\ forall t', t' ∈ k_all k -> w <> t' /\ w <> qe t';
  sep_sems q v ws q' v' ws' w t t' : k_sems k !! q = Some (v, ws) -> k_sems k !! q' = Some (v', ws') ->
    (w, t) ∈ ws -> (w, t') ∈ ws' -> q = q' }.

(** The consistency of an abstract kernel: of its threads alone, and with the
    queues of the semaphores. *)
Record wf_threads (k : kernel) : Prop := {
  wk_sep : separate k;
  wk_dom t : t ∈ k_all k <-> is_Some (k_state k !! t);
  wk_nodup : NoDup (k_rq k);
  wk_rq t : t ∈ k_rq k <-> k_state k !! t = Some THREAD_STATE_RUNNING }.

Record wf_kernel (k : kernel) : Prop := {
  wk_threads : wf_threads k;
  wk_waiting q v ws w t : k_sems k !! q = Some (v, ws) -> (w, t) ∈ ws ->
    t ∈ k_all k /\ k_state k !! t <> Some THREAD_STATE_RUNNING;
  wk_once q v ws q' v' ws' w w' t : k_sems k !! q = Some (v, ws) -> k_sems k !! q' = Some (v', ws') ->
    (w, t) ∈ ws -> (w', t) ∈ ws' -> w = w';
  wk_distinct q v ws : k_sems k !! q = Some (v, ws) -> NoDup (fst <$> ws);
  wk_count q v ws : k_sems k !! q = Some (v, ws) -> Z.of_nat (length ws) = Z.max 0 (- v) }.

(** The memory [s] represents the kernel [k]. *)
Record rep (s : sys) (k : kernel) : Prop := {
  rep_state t : tstate <$> threads s !! t = k_state k !! t;
  rep_all : l_rep (entries s) (thread_list s) (k_all k);
  rep_rq : l_rep (entries s) (running_queue s) (qe <$> k_rq k);
  rep_off t : t ∈ k_all k -> t ∉ k_rq k -> l_detached (entries s) (qe t);
  rep_sems q : match sems s !! q, k_sems k !! q with
               | Some sm, Some (v, ws) =>
                   value sm = v /\ l_rep (entries s) (queue sm) (fst <$> ws) /\
                   (forall w t, (w, t) ∈ ws -> waitees s !! w = Some t)
               | None, None => True
               | _, _ => False
               end;
  rep_cur : current_thread s = k_cur k;
  rep_idle : idle_thread s = k_idle k;
  rep_pend : pendsv s = k_pend k }.

(** *** Separation *)

Lemma qe_inj t t' : qe t = qe t' -> t = t'.
Proof. unfold queue_entry. lia. Qed.

Lemma elem_of_qe e (ts : list Z) : e ∈ qe <$> ts <-> exists t, e = qe t /\ t ∈ ts.
Proof. apply list_elem_of_fmap. Qed.

Lemma rq_all k t : wf_threads k -> t ∈ k_rq k -> t ∈ k_all k.
Proof. intros Hw Ht. apply wk_dom; [done|]. apply wk_rq in Ht; [|done]. by eexists. Qed.

Lemma qe_notin t (ts : list Z) : t ∉ ts -> qe t ∉ qe <$> ts.
Proof. intros Ht (t' & E & Ht')%elem_of_qe. apply qe_inj in E. by subst. Qed.

(** [dom] is made of queue entries of threads: what the scheduler writes. *)
Definition queue_dom (k : kernel) (dom : list Z) : Prop := forall e, e ∈ dom -> exists t, e = qe t /\ t ∈ k_all k.

Lemma thread_list_frame k st st' l dom : separate k -> queue_dom k dom -> l_frame dom st st' ->
  l_rep st l (k_all k) -> l_rep st' l (k_all k).
Proof.
  intros Hs Hd Hf. apply l_frame_rep with dom; [done|]. intros a Ha Hin.
  destruct (Hd a Hin) as (t & -> & Ht). by apply (sep_thread k Hs _ _ Ha Ht).
Qed.

Lemma sem_frame k st st' l dom q v ws : separate k -> queue_dom k dom -> l_frame dom st st' ->
  k_sems k !! q = Some (v, ws) -> l_rep st l (fst <$> ws) -> l_rep st' l (fst <$> ws).
Proof.
  intros Hs Hd Hf Hq. apply l_frame_rep with dom; [done|]. intros a Ha Hin.
  apply list_elem_of_fmap in Ha as ([w t] & -> & Hw). destruct (Hd _ Hin) as (t' & E & Ht').
  destruct (sep_waitee k Hs q v ws w t Hq Hw) as [_ H]. by destruct (H t' Ht').
Qed.

(** ** A thread changes its state *)

Lemma remove_split xs1 t xs2 : NoDup (xs1 ++ t :: xs2) -> remove t (xs1 ++ t :: xs2) = xs1 ++ xs2.
Proof. apply filter_out_split. Qed.

Lemma running_spec k t : wf_threads k -> running k t = bool_decide (t ∈ k_rq k).
Proof.
  intros Hw. unfold running. apply bool_decide_ext. by rewrite wk_rq.
Qed.
(** Rebuilding [rep] after a change of the running queue. *)
Lemma rep_requeue s k st' q' rq' thr' map' dom irq pend :
  rep s k -> separate k -> queue_dom k dom -> l_frame dom (entries s) st' ->
  l_rep st' q' (qe <$> rq') -> (forall t, t ∈ k_all k -> t ∉ rq' -> l_detached st' (qe t)) ->
  (forall t, tstate <$> thr' !! t = map' !! t) ->
  rep (mk_sys st' thr' (sems s) (waitees s) (words s) (thread_list s) (next_tid s) q' (k_cur k)
         (k_idle k) (in_isr_count s) irq pend)
      (mk_kernel (k_all k) map' rq' (k_sems k) (k_cur k) (k_idle k) pend).
Proof.
  intros Hr Hs Hd Hf Hq Hoff Ht. destruct Hr. split; simpl; try done.
  - by eapply thread_list_frame.
  - intros q. specialize (rep_sems0 q). destruct (sems s !! q) as [sm|], (k_sems k !! q) as [[v ws]|] eqn:E; try done.
    destruct rep_sems0 as (? & ? & ?). split; [done|]. split; [by eapply sem_frame|done].
Qed.

Lemma running_rep s k t th : rep s k -> threads s !! t = Some th -> running k t = is_running (tstate th).
Proof.
  intros Hr Ht. pose proof (rep_state s k Hr t) as E. rewrite Ht in E. simpl in E.
  unfold running, is_running. rewrite <-E. apply bool_decide_ext. split; [by intros [= ->]|by intros ->].
Qed.

Lemma state_update (thr : gmap Z thread) (m : gmap Z thread_state) t th new :
  (forall t', tstate <$> thr !! t' = m !! t') -> tstate th = new ->
  forall t', tstate <$> <[t := th]> thr !! t' = <[t := new]> m !! t'.
Proof.
  intros H E t'. destruct (decide (t = t')) as [<-|Hne].
  - by rewrite !lookup_insert_eq, <-E.
  - by rewrite !lookup_insert_ne.
Qed.

(** The body of [scheduler_thread_changed_state] on the running queue. *)
Lemma queue_delete_rep s k t : rep s k -> wf_threads k -> t ∈ k_rq k ->
  exists q' st' dom, l_delete (running_queue s) (entries s) (qe t) = Some (q', st') /\
    queue_dom k dom /\ l_frame dom (entries s) st' /\ l_rep st' q' (qe <$> remove t (k_rq k)) /\
    (forall t', t' ∈ k_all k -> t' ∉ remove t (k_rq k) -> l_detached st' (qe t')).
Proof.
  intros Hr Hw Ht. pose proof (wk_nodup k Hw) as Hnd.
  pose proof (rep_rq s k Hr) as Hq. pose proof (rep_off s k Hr) as Hoff.
  assert (forall t', t' ∈ k_rq k -> t' ∈ k_all k) as Hall by (intros; by apply rq_all).
  apply list_elem_of_split in Ht as (xs1 & xs2 & E). rewrite E in *.
  rewrite fmap_app in Hq. simpl in Hq.
  destruct (l_delete_spec _ _ _ _ _ Hq) as (q' & st' & Hdel & Hq' & Hdet & Hfr).
  assert (l_frame (qe <$> (xs1 ++ t :: xs2)) (entries s) st') as Hfr' by (rewrite fmap_app; exact Hfr).
  clear Hfr. rename Hfr' into Hfr. exists q', st', (qe <$> (xs1 ++ t :: xs2)). split; [done|].
  assert (queue_dom k (qe <$> (xs1 ++ t :: xs2))) as Hdom.
  { intros e He. apply elem_of_qe in He as (t' & -> & Ht'). eauto. }
  split; [done|]. split; [done|]. rewrite remove_split by done. split; [by rewrite fmap_app|].
  intros t' Ht' Hn. destruct (decide (t' = t)) as [->|Hne]; [done|].
  assert (t' ∉ xs1 ++ t :: xs2) as Hn' by set_solver.
  eapply l_frame_detached; [exact Hfr|by apply qe_notin|by apply Hoff].
Qed.

Lemma queue_append_rep s k t : rep s k -> wf_threads k -> t ∈ k_all k -> t ∉ k_rq k ->
  exists q' st' dom, l_append (running_queue s) (entries s) (qe t) = Some (q', st') /\
    queue_dom k dom /\ l_frame dom (entries s) st' /\ l_rep st' q' (qe <$> (k_rq k ++ [t])) /\
    (forall t', t' ∈ k_all k -> t' ∉ k_rq k ++ [t] -> l_detached st' (qe t')).
Proof.
  intros Hr Hw Ht Hn.
  destruct (l_append_spec (entries s) (running_queue s) (qe <$> k_rq k) (qe t)) as (q' & st' & Ha & Hq' & Hfr).
  - apply Hr.
  - by apply (rep_off s k Hr).
  - by apply (sep_null k (wk_sep k Hw)).
  - by apply qe_notin.
  - exists q', st', (qe t :: (qe <$> k_rq k)). split; [done|]. split.
    { intros e [->|He]%elem_of_cons; [eauto|]. apply elem_of_qe in He as (t' & -> & Ht'). eauto using rq_all. }
    split; [done|]. split; [by rewrite fmap_app|].
    intros t' Ht' Hn'. eapply l_frame_detached; [exact Hfr| |by apply (rep_off s k Hr); set_solver].
    change (qe t :: (qe <$> k_rq k)) with (qe <$> t :: k_rq k). apply qe_notin. set_solver.
Qed.

(** A state change moves the thread between the running queue and the rest as
    the abstract kernel does, requests a reschedule when the current thread stops
    running or the idle thread is current, and leaves interrupts enabled. *)
Lemma set_state_refines s k t new :
  rep s k -> wf_threads k -> t ∈ k_all k ->
  exists s', thread_set_state queue_off t new s = Ok tt s' /\ rep s' (a_set_state t new k) /\ irqs_off s' = false /\
    waitees s' = waitees s /\ words s' = words s /\ in_isr_count s' = in_isr_count s.
Proof.
  intros Hr Hw Ht. pose proof (proj1 (wk_dom k Hw t) Ht) as [old Hold].
  pose proof (rep_state s k Hr t) as Est. rewrite Hold in Est.
  destruct (threads s !! t) as [th|] eqn:Eth; [|done]. simpl in Est. injection Est as Est.
  pose proof (running_rep s k t th Hr Eth) as Erun.
  pose proof (rep_cur s k Hr) as Ecur. pose proof (rep_idle s k Hr) as Eidle. pose proof (rep_pend s k Hr) as Epend.
  set (th' := mk_thread (tid th) new (stack th) (stack_protector th) (stack_size th) (name th)).
  pose proof (state_update (threads s) (k_state k) t th' new (rep_state s k Hr) eq_refl) as Hmap.
  unfold thread_set_state. erewrite bind_ok by by apply deref_ok. unfold put_thread.
  unfold scheduler_thread_changed_state, a_set_state. rewrite Erun.
  destruct (is_running (tstate th) && negb (is_running new)) eqn:E1.
  - assert (t ∈ k_rq k) as Hin.
    { apply andb_true_iff in E1 as [E1 _]. rewrite E1, running_spec in Erun by done. by apply bool_decide_eq_true in Erun. }
    destruct (queue_delete_rep s k t Hr Hw Hin) as (q' & st' & dom & Hdel & Hdom & Hfr & Hq & Hoff).
    pose proof (rep_requeue s k st' q' _ (<[t := th']> (threads s)) _ dom false
      (k_pend k || (true && (t =? k_cur k)) || (k_cur k =? k_idle k))
      Hr (wk_sep k Hw) Hdom Hfr Hq Hoff Hmap) as Hrep.
    rewrite <-Ecur, <-Eidle, <-Epend in Hrep |- *.
    eexists. split; [|split; [exact Hrep|done] ].
    unfold bind at 1 2 3, modify, scheduler_lock. simpl. unfold on_list, bind, deref, modify, gets, yield, scheduler_unlock. simpl.
    rewrite Hdel. simpl.
    destruct (t =? current_thread s); simpl; destruct (current_thread s =? idle_thread s); simpl;
      rewrite ?orb_true_r, ?orb_false_r; reflexivity.
  - destruct (negb (is_running (tstate th)) && is_running new) eqn:E2.
    + assert (t ∉ k_rq k) as Hin.
      { apply andb_true_iff in E2 as [E2 _]. apply negb_true_iff in E2. rewrite E2, running_spec in Erun by done.
        by apply bool_decide_eq_false in Erun. }
      destruct (queue_append_rep s k t Hr Hw Ht Hin) as (q' & st' & dom & Hdel & Hdom & Hfr & Hq & Hoff).
      pose proof (rep_requeue s k st' q' _ (<[t := th']> (threads s)) _ dom false
        (k_pend k || (false && (t =? k_cur k)) || (k_cur k =? k_idle k))
        Hr (wk_sep k Hw) Hdom Hfr Hq Hoff Hmap) as Hrep.
    rewrite <-Ecur, <-Eidle, <-Epend in Hrep |- *.
      eexists. split; [|split; [exact Hrep|done] ].
      unfold bind at 1 2 3, modify, scheduler_lock. simpl.
      unfold on_list, bind, deref, modify, gets, yield, scheduler_unlock. simpl.
      rewrite Hdel. simpl.
      destruct (current_thread s =? idle_thread s); simpl; rewrite ?orb_true_r, ?orb_false_r; reflexivity.
    + pose proof (rep_requeue s k (entries s) (running_queue s) _ (<[t := th']> (threads s)) _ [] false
        (k_pend k || (false && (t =? k_cur k)) || (k_cur k =? k_idle k))
        Hr (wk_sep k Hw) ltac:(intros e He; by apply not_elem_of_nil in He) ltac:(apply l_frame_refl)
        (rep_rq s k Hr) (rep_off s k Hr) Hmap) as Hrep.
    rewrite <-Ecur, <-Eidle, <-Epend in Hrep |- *.
      eexists. split; [|split; [exact Hrep|done] ].
      unfold bind at 1 2 3, modify, scheduler_lock. simpl.
      unfold ret, bind, modify, gets, yield, scheduler_unlock. simpl.
      destruct (current_thread s =? idle_thread s); simpl; rewrite ?orb_true_r, ?orb_false_r; reflexivity.
Qed.

(** ** Reschedules *)

(** The word below the thread's stack is what the kernel put there. *)
Definition stack_intact (s : sys) (th : thread) : Prop :=
  stack_protector th = NULL \/ words s !! stack_protector th = Some kStackProtector.

Lemma assert_protection_run (s : sys) t th :
  threads s !! t = Some th -> stack_protector th < stack th -> stack_intact s th ->
  thread_assert_stack_protection t s = Ok tt s.
Proof.
  intros Ht Hlt Hi. unfold thread_assert_stack_protection, get_thread.
  rewrite (bind_ok _ _ _ _ _ (deref_ok (fun s : sys => threads s !! t) s _ Ht)).
  destruct Hi as [->|Hi]; [done|]. destruct (truth _); [|done].
  rewrite (proj2 (Z.ltb_lt _ _) Hlt). unfold assert_. rewrite (bind_ok _ _ s tt s) by done.
  rewrite (bind_ok _ _ _ _ _ (deref_ok (fun s : sys => words s !! stack_protector th) s _ Hi)). by rewrite Z.eqb_refl.
Qed.

(** The saved stack of the thread that stops, then the thread that goes on. *)
Lemma schedule_refines s k sp th next :
  rep s k -> wf_threads k -> sp <> 0 ->
  threads s !! k_cur k = Some th -> stack_protector th < sp -> stack_intact s th ->
  k_cur (a_schedule k) = next -> is_Some (k_state k !! next) ->
  exists s', schedule queue_off sp s = Ok (default 0 (stack <$> threads s' !! next)) s' /\
    rep s' (a_schedule k) /\ irqs_off s' = false /\
    threads s' = <[k_cur k := mk_thread (tid th) (tstate th) sp (stack_protector th) (stack_size th) (name th)]> (threads s) /\
    in_isr_count s' = u8 (u8 (in_isr_count s + 1) - 1) /\ words s' = words s.
Proof.
  intros Hr Hw Hsp Hth Hlt Hint Hnext [st Hst].
  set (th' := mk_thread (tid th) (tstate th) sp (stack_protector th) (stack_size th) (name th)).
  set (thr' := <[k_cur k := th']> (threads s)).
  assert (forall t, tstate <$> thr' !! t = k_state k !! t) as Hmap.
  { intros t. unfold thr'. rewrite <-(rep_state s k Hr t). destruct (decide (t = k_cur k)) as [->|].
    - by rewrite lookup_insert_eq, Hth.
    - by rewrite lookup_insert_ne. }
  assert (exists thn, thr' !! next = Some thn) as [thn Hthn].
  { pose proof (Hmap next) as E. rewrite Hst in E. destruct (thr' !! next); [eauto|done]. }
  destruct (l_lrotate_spec _ _ _ (rep_rq s k Hr)) as (q' & Hrot & Hq').
  assert (l_rep (entries s) q' (qe <$> rotate (k_rq k))) as Hq.
  { destruct (k_rq k) as [|x xs]; [done|]. simpl in *. by rewrite fmap_app. }
  pose proof (rep_cur s k Hr) as Ecur. pose proof (rep_idle s k Hr) as Eidle. pose proof (rep_pend s k Hr) as Epend.
  assert (rep (mk_sys (entries s) thr' (sems s) (waitees s) (words s) (thread_list s) (next_tid s)
                 (if l_is_empty (running_queue s) then running_queue s else q') next (idle_thread s)
                 (u8 (u8 (in_isr_count s + 1) - 1)) false (pendsv s)) (a_schedule k)) as Hrep.
  { pose proof (l_is_empty_spec _ _ _ (rep_rq s k Hr)) as He. destruct Hr. split; simpl; try done.
    - rewrite He. destruct (k_rq k) as [|x xs]; [done|]. rewrite bool_decide_false by done. done.
    - intros t Ht Hn. apply rep_off0; [done|]. intros Hin. apply Hn. destruct (k_rq k); [done|]. set_solver. }
  eexists. split; [|split; [exact Hrep|done] ].
  unfold schedule, assert_, truth. rewrite (proj2 (Z.eqb_neq sp 0) Hsp). cbn [negb].
  set (s1 := set_threads (set_isr s (u8 (in_isr_count s + 1))) thr').
  rewrite (bind_ok _ _ s tt s) by done. rewrite (bind_ok _ _ s tt (set_isr s (u8 (in_isr_count s + 1)))) by done.
  rewrite (bind_ok _ _ _ (k_cur k) (set_isr s (u8 (in_isr_count s + 1)))) by (unfold gets; simpl; by rewrite Ecur).
  rewrite (bind_ok _ _ _ tt s1).
  2:{ unfold thread_set_stack, get_thread, bind, deref, put_thread, modify. simpl. rewrite Hth.
      unfold assert_. by rewrite (proj2 (Z.ltb_lt _ _) Hlt). }
  rewrite (bind_ok _ _ _ tt s1).
  2:{ apply (assert_protection_run s1 _ th'); [simpl; unfold thr'; by rewrite lookup_insert_eq|done|exact Hint]. }
  unfold bind, ret, gets, modify, deref, scheduler_lock. simpl.
  pose proof (l_is_empty_spec _ _ _ (rep_rq s k Hr)) as He. 
  destruct (l_is_empty (running_queue s)) eqn:Ee.
  - symmetry in He. apply bool_decide_eq_true in He. apply fmap_nil_inv in He.
    unfold a_schedule in Hnext. simpl in Hnext. rewrite He in Hnext. simpl in Hnext.
    unfold thread_get_stack, get_thread, scheduler_unlock, scheduler_leave_isr, bind, ret, gets, modify, deref. simpl.
    assert (idle_thread s = next) as En by congruence. clear Hnext. subst next. by rewrite Hthn.
  - simpl. rewrite Hrot. simpl.
    pose proof (l_first_spec _ _ _ Hq) as Hf. rewrite Hf.
    symmetry in He. apply bool_decide_eq_false in He.
    assert (container_of (hd_or NULL (qe <$> rotate (k_rq k))) queue_off = next) as Hc.
    { rewrite <-Hnext. unfold a_schedule. simpl. destruct (rotate (k_rq k)) as [|x xs] eqn:Er.
      - destruct (k_rq k) as [|y ys]; [done|]. simpl in Er. by destruct ys.
      - simpl. assert (x ∈ k_rq k) as Hx.
        { destruct (k_rq k) as [|y ys]; [done|]. simpl in Er. assert (x ∈ ys ++ [y]) by (rewrite Er; left). set_solver. }
        unfold container_of, truth. destruct (Z.eqb_spec (qe x) 0) as [E0|]; simpl.
        + by destruct (sep_null k (wk_sep k Hw) x (rq_all k x Hw Hx)).
        + unfold queue_entry. lia. }
    unfold thread_get_stack, get_thread, scheduler_unlock, scheduler_leave_isr, bind, ret, gets, modify, deref. simpl.
    rewrite Hc. by rewrite Hthn.
Qed.

(** ** Semaphores *)

(** [dom] touches only the queue of semaphore [q] and memory of no other list. *)
Definition sem_dom (k : kernel) (q : Z) (dom : list Z) : Prop :=
  forall e, e ∈ dom ->
    (forall t, t ∈ k_all k -> e <> t /\ e <> qe t) /\
    (forall q' v' ws' t', k_sems k !! q' = Some (v', ws') -> (e, t') ∈ ws' -> q' = q).

Lemma sem_dom_queue k q v ws dom : separate k -> k_sems k !! q = Some (v, ws) ->
  (forall e, e ∈ dom -> e ∈ fst <$> ws) -> sem_dom k q dom.
Proof.
  intros Hs Hq Hd e He. apply Hd, list_elem_of_fmap in He as ([w t] & -> & Hw). cbn [fst].
  destruct (sep_waitee k Hs q v ws w t Hq Hw) as [_ H]. split; [done|].
  intros q' v' ws' t' Hq' Hw'. symmetry. by eapply (sep_sems k Hs q v ws q' v' ws').
Qed.

(** A waitee record that is in no list yet. *)
Definition fresh_waitee (k : kernel) (w : Z) : Prop :=
  w <> NULL /\ (forall t, t ∈ k_all k -> w <> t /\ w <> qe t) /\
  (forall q v ws t, k_sems k !! q = Some (v, ws) -> (w, t) ∉ ws).

Lemma rep_sem_update s k q v ws st' wt' l' v' ws' dom irq :
  rep s k -> wf_threads k -> k_sems k !! q = Some (v, ws) ->
  sem_dom k q dom -> l_frame dom (entries s) st' ->
  l_rep st' l' (fst <$> ws') -> (forall w t, (w, t) ∈ ws' -> wt' !! w = Some t) ->
  (forall w, w ∉ dom -> wt' !! w = waitees s !! w) ->
  rep (mk_sys st' (threads s) (<[q := mk_sem v' l']> (sems s)) wt' (words s) (thread_list s) (next_tid s)
         (running_queue s) (current_thread s) (idle_thread s) (in_isr_count s) irq (pendsv s))
      (a_put_sem q v' ws' k).
Proof.
  intros Hr Hs Hq Hd Hf Hl Hw Hwt. destruct Hr. split; simpl; try done.
  - eapply l_frame_rep; [exact Hf| |done]. intros a Ha Hin. destruct (Hd a Hin) as [H _].
    destruct (H a Ha). done.
  - eapply l_frame_rep; [exact Hf| |done]. intros a Ha Hin. apply elem_of_qe in Ha as (t & -> & Ht).
    destruct (Hd _ Hin) as [H _]. destruct (H t); [by apply rq_all|done].
  - intros t Ht Hn. eapply l_frame_detached; [exact Hf| |by apply rep_off0]. intros Hin.
    destruct (Hd _ Hin) as [H _]. by destruct (H t Ht).
  - intros q'. destruct (decide (q = q')) as [<-|Hne]; [by rewrite !lookup_insert_eq|].
    rewrite !lookup_insert_ne by done. specialize (rep_sems0 q').
    destruct (sems s !! q') as [sm|], (k_sems k !! q') as [[v1 ws1]|] eqn:E; try done.
    destruct rep_sems0 as (? & Hl1 & Hw1).
    assert (forall w t, (w, t) ∈ ws1 -> w ∉ dom) as Hout.
    { intros w t Hin Hw2. destruct (Hd w Hw2) as [_ Hone]. by apply Hne, symmetry, (Hone q' v1 ws1 t). }
    split; [done|]. split.
    + eapply l_frame_rep; [exact Hf| |done]. intros a Ha. apply list_elem_of_fmap in Ha as ([w t] & -> & Hin).
      by eapply Hout.
    + intros w t Hin. rewrite Hwt by (by eapply Hout). by apply Hw1.
Qed.

Lemma separate_put k q v ws v' ws' : separate k -> k_sems k !! q = Some (v, ws) ->
  (forall w t, (w, t) ∈ ws' -> (w, t) ∈ ws \/ fresh_waitee k w) -> separate (a_put_sem q v' ws' k).
Proof.
  intros Hs Hq Hin. destruct Hs. split; simpl; try done.
  - intros q1 v1 ws1 w t. destruct (decide (q = q1)) as [<-|Hne].
    + rewrite lookup_insert_eq. intros [= <- <-] Hw. destruct (Hin w t Hw) as [Hold|(?&?&?)]; [|done].
      by eapply sep_waitee0.
    + rewrite lookup_insert_ne by done. apply sep_waitee0.
  - intros q1 v1 ws1 q2 v2 ws2 w t t'. destruct (decide (q = q1)) as [<-|Hne1], (decide (q = q2)) as [<-|Hne2]; [done|..].
    + rewrite lookup_insert_eq, lookup_insert_ne by done. intros [= <- <-] H2 Hw1 Hw2.
      destruct (Hin w t Hw1) as [Hold|(?&?&Hf)]; [by eapply sep_sems0|]. by destruct (Hf q2 v2 ws2 t' H2).
    + rewrite lookup_insert_ne, lookup_insert_eq by done. intros H1 [= <- <-] Hw1 Hw2.
      destruct (Hin w t' Hw2) as [Hold|(?&?&Hf)]; [by eapply sep_sems0|]. by destruct (Hf q1 v1 ws1 t H1).
    + rewrite !lookup_insert_ne by done. apply sep_sems0.
Qed.

Lemma wf_threads_put k q v ws v' ws' : wf_threads k -> k_sems k !! q = Some (v, ws) ->
  (forall w t, (w, t) ∈ ws' -> (w, t) ∈ ws \/ fresh_waitee k w) -> wf_threads (a_put_sem q v' ws' k).
Proof.
  intros Hw Hq Hin. pose proof (separate_put k q v ws v' ws' (wk_sep k Hw) Hq Hin) as Hs.
  destruct Hw. by split.
Qed.

Lemma i8_small x : -128 <= x < 128 -> i8 x = x.
Proof. intros. by apply sgn_id. Qed.

(** A wait refines [a_wait]. *)
Lemma wait_refines s k q v ws w :
  rep s k -> wf_threads k -> k_sems k !! q = Some (v, ws) -> -128 < v < 128 ->
  fresh_waitee k w -> l_entry (entries s) w -> k_cur k ∈ k_all k ->
  exists s', semaphore_wait queue_off q w s = Ok tt s' /\ rep s' (a_wait q w v ws k) /\ irqs_off s' = false.
Proof.
  intros Hr Hw Hq Hv Hfresh Hent Hcur. pose proof Hfresh as (Hw0 & Hwt & Hwq).
  pose proof (rep_sems s k Hr q) as Hsem. rewrite Hq in Hsem.
  destruct (sems s !! q) as [sm|] eqn:Esm; [|done]. destruct Hsem as (Ev & Hl & Hwait).
  destruct (l_entry_init_spec _ _ Hent) as (st1 & Hinit & Hdet & Hfr1).
  pose proof (rep_cur s k Hr) as Ecur.
  set (wt1 := <[w := current_thread s]> (waitees s)).
  assert (i8 (value sm - 1) = v - 1) as Ei by (rewrite Ev; apply i8_small; lia).
  assert (forall q' v' ws' t', k_sems k !! q' = Some (v', ws') -> (w, t') ∈ ws' -> q' = q) as Hnone
    by (intros q' v' ws' t' H1 H2; by destruct (Hwq q' v' ws' t' H1)).
  assert (sem_dom k q [w]) as Hd1 by (intros e ->%list_elem_of_singleton; done).
  assert (forall x, x ∈ fst <$> ws -> x <> w) as Hnw.
  { intros x Hx E. apply list_elem_of_fmap in Hx as ([x' t] & -> & Hin). simpl in E. subst. by eapply Hwq. }
  unfold semaphore_wait, a_wait, scheduler_current_thread, on_entries, get_sem, put_sem, scheduler_lock.
  unfold bind at 1 2 3 4 5 6 7, gets, modify, deref. simpl. rewrite Hinit. simpl. rewrite Esm. simpl. rewrite Ei.
  destruct (Z.gtb_spec v 0) as [Hpos|Hneg].
  - rewrite (proj2 (Z.geb_le (v - 1) 0)) by lia.
    pose proof (rep_sem_update s k q v ws st1 wt1 (queue sm) (v - 1) ws [w] false Hr Hw Hq Hd1 Hfr1) as H.
    eexists. split; [reflexivity|]. split; [|done]. apply H.
    + eapply l_frame_rep; [exact Hfr1| |done]. intros a Ha ->%list_elem_of_singleton. by destruct (Hnw w Ha).
    + intros w' t' Hin. unfold wt1. rewrite lookup_insert_ne; [by apply Hwait|].
      intros <-. by eapply Hwq.
    + intros w' Hn. unfold wt1. rewrite lookup_insert_ne; [done|]. set_solver.
  - assert (v - 1 >=? 0 = false) as -> by (rewrite Z.geb_leb; apply Z.leb_gt; lia).
    assert (l_rep st1 (queue sm) (fst <$> ws)) as Hl1.
    { eapply l_frame_rep; [exact Hfr1| |done]. intros a Ha ->%list_elem_of_singleton. by destruct (Hnw w Ha). }
    destruct (l_append_spec st1 (queue sm) (fst <$> ws) w Hl1 Hdet Hw0) as (l2 & st2 & Happ & Hl2 & Hfr2).
    { intros Hin. by apply (Hnw w). }
    set (k2 := a_put_sem q (v - 1) (ws ++ [(w, k_cur k)]) k).
    assert (sem_dom k q (w :: (fst <$> ws))) as Hd2.
    { intros e [->|He]%elem_of_cons; [done|]. by eapply (sem_dom_queue k q v ws (fst <$> ws) (wk_sep k Hw)). }
    pose proof (rep_sem_update s k q v ws st2 wt1 l2 (v - 1) (ws ++ [(w, k_cur k)]) (w :: (fst <$> ws)) true
      Hr Hw Hq Hd2) as H.
    assert (wf_threads k2) as Hw2.
    { eapply wf_threads_put; [done|exact Hq|]. intros w' t' [Hin|Hin]%elem_of_app; [by left|].
      apply list_elem_of_singleton in Hin as [= -> ->]. by right. }
    unfold on_queue, get_sem, put_sem, bind, gets, modify, deref. simpl. rewrite lookup_insert_eq. simpl.
    rewrite Happ. simpl. rewrite insert_insert_eq.
    match goal with |- context [thread_block _ ?x] => set (s2 := x) end.
    assert (rep s2 k2) as Hr2.
    { apply H.
      - eapply l_frame_trans; [eapply l_frame_mono; [exact Hfr1|set_solver]|exact Hfr2].
      - rewrite fmap_app. exact Hl2.
      - intros w' t' [Hin|Hin]%elem_of_app; unfold wt1.
        + rewrite lookup_insert_ne; [by apply Hwait|]. intros <-. by eapply Hwq.
        + apply list_elem_of_singleton in Hin as [= -> ->]. by rewrite lookup_insert_eq, Ecur.
      - intros w' Hn. unfold wt1. rewrite lookup_insert_ne; [done|]. set_solver. }
    destruct (set_state_refines s2 k2 (k_cur k) THREAD_STATE_BLOCKED Hr2 Hw2 Hcur) as (s' & Hrun & Hrep & Hirq & _).
    exists s'. split; [|done]. unfold thread_block, scheduler_current_thread, bind, gets.
    change (current_thread s2) with (current_thread s). by rewrite Ecur.
Qed.

(** A signal refines [a_signal]. *)
Lemma signal_refines s k q v ws :
  rep s k -> wf_threads k -> k_sems k !! q = Some (v, ws) -> -128 <= v < 127 -> irqs_off s = false ->
  (forall w t, (w, t) ∈ ws -> t ∈ k_all k) ->
  exists s', semaphore_signal queue_off q s = Ok tt s' /\ rep s' (a_signal q v ws k) /\ irqs_off s' = false.
Proof.
  intros Hr Hw Hq Hv Hirq Hall. pose proof (rep_sems s k Hr q) as Hsem. rewrite Hq in Hsem.
  destruct (sems s !! q) as [sm|] eqn:Esm; [|done]. destruct Hsem as (Ev & Hl & Hwait).
  assert (i8 (value sm + 1) = v + 1) as Ei by (rewrite Ev; apply i8_small; lia).
  unfold semaphore_signal, signal_count, signal_first, get_sem, put_sem.
  unfold bind at 1 2 3 4, gets, modify, deref. simpl. rewrite Esm. simpl. rewrite lookup_insert_eq, Ei. simpl.
  rewrite (l_first_spec _ _ _ Hl).
  destruct ws as [|[w t] ws'].
  - simpl. eexists. split; [reflexivity|]. split; [|done].
    apply (rep_sem_update s k q v [] (entries s) (waitees s) (queue sm) (v + 1) [] [] (irqs_off s)); try done.
    + by intros e He%not_elem_of_nil.
    + apply l_frame_refl.
  - destruct (sep_waitee k (wk_sep k Hw) q v _ w t Hq ltac:(left)) as [Hw0 _].
    cbn [a_signal fmap list_fmap fst hd_or] in *. unfold container_of, truth at 1.
    rewrite (proj2 (Z.eqb_neq w 0) Hw0). cbn [negb]. rewrite Z.sub_0_r. unfold signal_wake, truth.
    rewrite (proj2 (Z.eqb_neq w 0) Hw0). cbn [negb].
    destruct (l_delete_spec _ _ [] w (fst <$> ws') Hl) as (l2 & st2 & Hdel & Hl2 & _ & Hfr2).
    assert (sem_dom k q ([] ++ w :: (fst <$> ws'))) as Hd by (by eapply (sem_dom_queue k q v _ _ (wk_sep k Hw) Hq)).
    unfold on_queue, get_sem, put_sem. unfold bind at 1 2 3 4 5, deref, modify. simpl. rewrite lookup_insert_eq. simpl.
    rewrite (l_first_spec _ _ _ Hl). cbn [hd_or]. rewrite Hdel. simpl. rewrite insert_insert_eq.
    rewrite (Hwait w t) by left.
    match goal with |- context [thread_wakeup _ _ ?x] => set (s2 := x) end.
    assert (rep s2 (a_put_sem q (v + 1) ws' k)) as Hr2.
    { apply (rep_sem_update s k q v ((w, t) :: ws') st2 (waitees s) l2 (v + 1) ws' _ (irqs_off s) Hr Hw Hq Hd Hfr2 Hl2); [|done].
      intros w' t' Hin. apply Hwait. by right. }
    assert (wf_threads (a_put_sem q (v + 1) ws' k)) as Hw2.
    { eapply wf_threads_put; [done|exact Hq|]. intros w' t' Hin. left. by right. }
    destruct (set_state_refines s2 _ t THREAD_STATE_RUNNING Hr2 Hw2) as (s' & Hrun & Hrep & Hi & _);
      [by apply (Hall w t); left|]. by exists s'.
Qed.

(** ** Consistency is kept *)

(** No semaphore has [t] in its queue. *)
Definition not_waiting (k : kernel) (t : Z) : Prop :=
  forall q v ws w, k_sems k !! q = Some (v, ws) -> (w, t) ∉ ws.

Lemma elem_of_remove t x ts : x ∈ remove t ts <-> x <> t /\ x ∈ ts.
Proof. unfold remove. by rewrite list_elem_of_filter. Qed.

Lemma wf_threads_set k t new : wf_threads k -> t ∈ k_all k -> wf_threads (a_set_state t new k).
Proof.
  intros Hw Ht. pose proof (running_spec k t Hw) as Hrun. destruct Hw as [Hs Hd Hn Hq].
  split; simpl.
  - by destruct Hs.
  - intros t'. destruct (decide (t = t')) as [<-|Hne].
    + rewrite lookup_insert_eq. split; [by eexists|done].
    + by rewrite lookup_insert_ne.
  - rewrite Hrun. destruct (bool_decide_reflect (t ∈ k_rq k)), (is_running new); simpl; try done.
    + by apply NoDup_filter.
    + apply NoDup_app. split; [done|]. split; [|apply NoDup_singleton]. set_solver.
  - intros t'. rewrite Hrun. unfold is_running.
    assert (t' ∈ (if bool_decide (t ∈ k_rq k) && negb (bool_decide (new = THREAD_STATE_RUNNING)) then remove t (k_rq k)
                  else if negb (bool_decide (t ∈ k_rq k)) && bool_decide (new = THREAD_STATE_RUNNING)
                       then k_rq k ++ [t] else k_rq k) <->
            if decide (t' = t) then new = THREAD_STATE_RUNNING else t' ∈ k_rq k) as ->.
    { destruct (bool_decide_reflect (t ∈ k_rq k)), (bool_decide_reflect (new = THREAD_STATE_RUNNING)),
        (decide (t' = t)) as [->|]; simpl; rewrite ?elem_of_remove; set_solver. }
    destruct (decide (t' = t)) as [->|Hne].
    + rewrite lookup_insert_eq. split; [by intros ->|by intros [= ->]].
    + rewrite lookup_insert_ne by done. apply Hq.
Qed.

Lemma wf_set_state k t new : wf_kernel k -> t ∈ k_all k ->
  (new = THREAD_STATE_RUNNING -> not_waiting k t) -> wf_kernel (a_set_state t new k).
Proof.
  intros Hw Ht Hnew. pose proof (wf_threads_set k t new (wk_threads k Hw) Ht) as Hth.
  destruct Hw as [_ Hwait Honce Hdist Hcount]. split; simpl; try done.
  intros q v ws w t' Hq Hin. destruct (Hwait q v ws w t' Hq Hin) as [Ha Hs]. split; [done|].
  destruct (decide (t = t')) as [<-|Hne]; [|by rewrite lookup_insert_ne].
  rewrite lookup_insert_eq. intros [= ->]. by eapply Hnew.
Qed.

Lemma rotate_elem t ts : t ∈ rotate ts <-> t ∈ ts.
Proof. destruct ts; simpl; set_solver. Qed.

Lemma wf_schedule k : wf_kernel k -> wf_kernel (a_schedule k).
Proof.
  intros [[Hs Hd Hn Hq] Hwait Honce Hdist Hcount]. split; simpl; try done. split; simpl; try done.
  - by destruct Hs.
  - destruct (k_rq k) as [|x xs]; simpl; [done|]. apply NoDup_cons in Hn as [? ?].
    apply NoDup_app. split; [done|]. split; [set_solver|apply NoDup_singleton].
  - intros t. by rewrite rotate_elem.
Qed.

Lemma wf_wait k q v ws w : wf_kernel k -> k_sems k !! q = Some (v, ws) -> fresh_waitee k w -> k_cur k ∈ k_rq k ->
  wf_kernel (a_wait q w v ws k).
Proof.
  intros Hw Hq Hf Hcur. pose proof Hw as [Hth Hwait Honce Hdist Hcount]. unfold a_wait.
  assert (not_waiting k (k_cur k)) as Hnw.
  { intros q' v' ws' w' Hq' Hin. destruct (Hwait q' v' ws' w' _ Hq' Hin) as [_ Hs].
    by apply Hs, (wk_rq k Hth). }
  pose proof (Hcount q v ws Hq) as Hc. destruct (Z.gtb_spec v 0) as [Hpos|Hneg].
  - assert (ws = []) as -> by (destruct ws; [done|simpl in *; lia]).
    split; simpl.
    + eapply wf_threads_put; [done|done|]. by intros w' t' ?%not_elem_of_nil.
    + intros q' v' ws' w' t'. destruct (decide (q = q')) as [<-|]; [rewrite lookup_insert_eq|rewrite lookup_insert_ne by done; apply Hwait].
      intros [= <- <-]. by intros ?%not_elem_of_nil.
    + intros q1 v1 ws1 q2 v2 ws2 w1 w2 t' H1 H2 I1 I2.
      apply lookup_insert_Some in H1 as [[_ [= <- <-]]|[_ H1]]; [by apply not_elem_of_nil in I1|].
      apply lookup_insert_Some in H2 as [[_ [= <- <-]]|[_ H2]]; [by apply not_elem_of_nil in I2|].
      exact (Honce _ _ _ _ _ _ _ _ _ H1 H2 I1 I2).
    + intros q' v' ws' [[_ [= <- <-]]|[_ H1]]%lookup_insert_Some; [apply NoDup_nil_2|by eapply Hdist].
    + intros q' v' ws' [[_ [= <- <-]]|[_ H1]]%lookup_insert_Some; [simpl; lia|by eapply Hcount].
  - assert (wf_threads (a_put_sem q (v - 1) (ws ++ [(w, k_cur k)]) k)) as Hth2.
    { eapply wf_threads_put; [done|exact Hq|]. intros w' t' [Hin|Hin]%elem_of_app; [by left|].
      apply list_elem_of_singleton in Hin as [= -> ->]. by right. }
    pose proof (rq_all k _ Hth Hcur) as Hall.
    pose proof (wf_threads_set _ (k_cur k) THREAD_STATE_BLOCKED Hth2 Hall) as Hth3.
    split; [done|simpl..].
    + intros q' v' ws' w' t' Hq' Hin. destruct (decide (t' = k_cur k)) as [->|Hne].
      { split; [done|]. by rewrite lookup_insert_eq. }
      rewrite lookup_insert_ne by done.
      apply lookup_insert_Some in Hq' as [[-> [= <- <-]]|[_ Hq']]; [|by eapply Hwait].
      apply elem_of_app in Hin as [Hin|Hin]; [by eapply Hwait|].
      apply list_elem_of_singleton in Hin as [= -> ->]. done.
    + assert (forall q' v' ws' w' t', <[q:=(v - 1, ws ++ [(w, k_cur k)])]> (k_sems k) !! q' = Some (v', ws') ->
                (w', t') ∈ ws' -> (w' = w /\ t' = k_cur k) \/
                (t' <> k_cur k /\ exists v0 ws0, k_sems k !! q' = Some (v0, ws0) /\ (w', t') ∈ ws0)) as Hcase.
      { intros q' v' ws' w' t' Hq' Hin. apply lookup_insert_Some in Hq' as [[-> [= <- <-]]|[_ Hq']].
        - apply elem_of_app in Hin as [Hin|Hin].
          + right. split; [intros ->; by eapply Hnw|eauto].
          + apply list_elem_of_singleton in Hin as [= -> ->]. by left.
        - right. split; [intros ->; by eapply Hnw|eauto]. }
      intros q1 v1 ws1 q2 v2 ws2 w1 w2 t' H1 H2 I1 I2.
      destruct (Hcase _ _ _ _ _ H1 I1) as [[-> ->]|[Hn1 (v3 & ws3 & H3 & I3)]],
        (Hcase _ _ _ _ _ H2 I2) as [[-> E2]|[Hn2 (v4 & ws4 & H4 & I4)]]; try done.
      exact (Honce _ _ _ _ _ _ _ _ _ H3 H4 I3 I4).
    + intros q' v' ws' [[_ [= <- <-]]|[_ H1]]%lookup_insert_Some; [|by eapply Hdist].
      rewrite fmap_app. apply NoDup_app. split; [by eapply Hdist|]. split; [|apply NoDup_singleton].
      intros x Hx ->%list_elem_of_singleton. apply list_elem_of_fmap in Hx as ([w' t'] & E & Hin). simpl in E. subst.
      by eapply (proj2 (proj2 Hf)).
    + intros q' v' ws' [[_ [= <- <-]]|[_ H1]]%lookup_insert_Some; [|by eapply Hcount].
      rewrite length_app. simpl. lia.
Qed.

Lemma wf_signal k q v ws : wf_kernel k -> k_sems k !! q = Some (v, ws) -> wf_kernel (a_signal q v ws k).
Proof.
  intros Hw Hq. pose proof Hw as [Hth Hwait Honce Hdist Hcount]. pose proof (Hcount q v ws Hq) as Hc.
  assert (forall ws', (forall w t, (w, t) ∈ ws' -> (w, t) ∈ ws) -> NoDup (fst <$> ws') ->
            Z.of_nat (length ws') = Z.max 0 (- (v + 1)) -> wf_kernel (a_put_sem q (v + 1) ws' k)) as Hput.
  { intros ws' Hsub Hnd Hlen.
    assert (forall q' v' ws2 w t, <[q:=(v + 1, ws')]> (k_sems k) !! q' = Some (v', ws2) -> (w, t) ∈ ws2 ->
              exists v0 ws0, k_sems k !! q' = Some (v0, ws0) /\ (w, t) ∈ ws0) as Hold.
    { intros q' v' ws2 w t [[<- [= <- <-]]|[_ H1]]%lookup_insert_Some Hin; eauto. }
    split; simpl.
    - eapply wf_threads_put; [done|exact Hq|]. eauto.
    - intros q' v' ws2 w t H1 Hin. destruct (Hold _ _ _ _ _ H1 Hin) as (v0 & ws0 & H0 & Hin0). by eapply Hwait.
    - intros q1 v1 ws1 q2 v2 ws2 w1 w2 t H1 H2 I1 I2.
      destruct (Hold _ _ _ _ _ H1 I1) as (v3 & ws3 & H3 & I3). destruct (Hold _ _ _ _ _ H2 I2) as (v4 & ws4 & H4 & I4).
      exact (Honce _ _ _ _ _ _ _ _ _ H3 H4 I3 I4).
    - intros q' v' ws2 [[<- [= <- <-]]|[_ H1]]%lookup_insert_Some; [done|by eapply Hdist].
    - intros q' v' ws2 [[<- [= <- <-]]|[_ H1]]%lookup_insert_Some; [done|by eapply Hcount]. }
  destruct ws as [|[w t] ws']; simpl in *.
  - apply Hput; [done|apply NoDup_nil_2|simpl; lia].
  - pose proof (Hdist q v _ Hq) as Hnd. simpl in Hnd. apply NoDup_cons in Hnd as [Hn Hnd].
    apply wf_set_state.
    + apply Hput; [intros; by right|done|simpl in *; lia].
    + simpl. by eapply (Hwait q v _ w t Hq); left.
    + intros _ q' v' ws2 w2 H2 I2. simpl in H2. apply lookup_insert_Some in H2 as [[<- [= <- <-]]|[Hne H2]].
      * pose proof (Honce _ _ _ _ _ _ w w2 t Hq Hq ltac:(left) ltac:(by right)) as ->.
        apply Hn, list_elem_of_fmap. by exists (w2, t).
      * pose proof (Honce _ _ _ _ _ _ w w2 t Hq H2 ltac:(left) I2) as ->.
        apply Hne. by eapply (sep_sems k (wk_sep k Hth) _ _ _ _ _ _ w2 t t Hq H2 ltac:(left)).
Qed.

(** ** New threads *)

(** Memory for a thread at [t] that overlaps nothing the kernel uses. *)
Definition fresh_thread (k : kernel) (t : Z) : Prop :=
  t ∉ k_all k /\ t <> NULL /\ qe t <> NULL /\ t <> qe t /\
  (forall t', t' ∈ k_all k -> t <> qe t' /\ t' <> qe t) /\
  (forall q v ws w t', k_sems k !! q = Some (v, ws) -> (w, t') ∈ ws -> w <> t /\ w <> qe t).

Definition a_create (t : Z) (k : kernel) : kernel :=
  mk_kernel (k_all k ++ [t]) (<[t := THREAD_STATE_STOPPED]> (k_state k)) (k_rq k) (k_sems k)
    (k_cur k) (k_idle k) (k_pend k).

(** What the loop of [thread_stack_utilisation_reset] leaves in memory. *)
Fixpoint paint (fuel : nat) (p top : Z) (w : gmap Z Z) : gmap Z Z :=
  match fuel with
  | O => w
  | Datatypes.S fuel => if p <? top then paint fuel (p + 4) top (<[p := kStackProtector]> w) else w
  end.

Lemma paint_run fuel p top (s : sys) : 0 < p ->
  paint_stack fuel p top s = Ok tt (set_words s (paint fuel p top (words s))).
Proof.
  revert p s. induction fuel as [|fuel IH]; intros p s Hp; simpl; [by destruct s|].
  destruct (p <? top); [|by destruct s]. unfold write_word. rewrite (proj2 (Z.eqb_neq p NULL)) by (unfold NULL; lia).
  rewrite (bind_ok _ _ s tt (set_words s (<[p := u32 kStackProtector]> (words s)))) by done.
  rewrite IH by lia. simpl. done.
Qed.

Lemma paint_lookup fuel p top w a : (Z.to_nat (top - p) <= fuel)%nat ->
  paint fuel p top w !! a =
  if (p <=? a) && (a <? top) && ((a - p) mod 4 =? 0) then Some kStackProtector else w !! a.
Proof.
  revert p w. induction fuel as [|fuel IH]; intros p w Hf; simpl.
  - destruct (p <=? a) eqn:E1, (a <? top) eqn:E2; try done. lia.
  - destruct (Z.ltb_spec p top) as [Hlt|Hge].
    + rewrite IH by lia. replace (a - (p + 4)) with (a - p + (-1) * 4) by lia. rewrite Z_mod_plus_full.
      destruct (decide (a = p)) as [->|Hne].
      * replace (p + 4 <=? p) with false by lia. simpl. rewrite lookup_insert_eq, Z.sub_diag.
        by rewrite Z.leb_refl, (proj2 (Z.ltb_lt _ _) Hlt).
      * rewrite lookup_insert_ne by done. destruct ((a - p) mod 4 =? 0) eqn:Em; [|by rewrite !andb_false_r].
        rewrite !andb_true_r. apply Z.eqb_eq, Z.mod_divide in Em as [q Hq]; [|lia].
        replace (p + 4 <=? a) with (p <=? a) by lia. done.
    + destruct (p <=? a) eqn:E1, (a <? top) eqn:E2; try done. lia.
Qed.

(** The stack [thread_struct_init] allocates, and the words it leaves. *)
Definition allocates (size stk : Z) : bool := (stk =? NULL) && (size >? 0).
Definition initial_words (current t memory size : Z) (w : gmap Z Z) : gmap Z Z :=
  let w := <[memory := kStackProtector]> w in
  if t =? current then w else paint (Z.to_nat (memory + size - memory)) (memory + 4) (memory + size) w.

Definition created (tid memory nm size stk : Z) : thread :=
  if allocates size stk then mk_thread tid THREAD_STATE_STOPPED (memory + size) memory size nm
  else mk_thread tid THREAD_STATE_STOPPED (if size >? 0 then stk + (size - 4) else stk) NULL 0 nm.

Lemma stack_init_run (s : sys) n t memory nm size stk :
  (allocates size stk = true -> 0 < memory) ->
  (if (stk =? NULL) && (size >? 0) then
     run! put_thread t (mk_thread (n) THREAD_STATE_STOPPED (memory + size) memory size nm) in
     run! write_word memory kStackProtector in
     thread_stack_utilisation_reset t
   else put_thread t (mk_thread (n) THREAD_STATE_STOPPED (if size >? 0 then stk + (size - 4) else stk) NULL 0 nm)) s
  = Ok tt (set_words (set_threads s (<[t := created (n) memory nm size stk]> (threads s)))
             (if allocates size stk then initial_words (current_thread s) t memory size (words s) else words s)).
Proof.
  unfold created. fold (allocates size stk). destruct (allocates size stk); intros Hm; [|by destruct s].
  specialize (Hm eq_refl). set (th := mk_thread _ _ _ _ _ _).
  rewrite (bind_ok _ _ s tt (set_threads s (<[t := th]> (threads s)))) by done.
  unfold write_word. rewrite (proj2 (Z.eqb_neq memory NULL)) by (unfold NULL; lia).
  set (s1 := set_words (set_threads s (<[t := th]> (threads s))) (<[memory := kStackProtector]> (words s))).
  rewrite (bind_ok _ _ _ tt s1) by done.
  unfold thread_stack_utilisation_reset, initial_words. rewrite (bind_ok _ _ s1 (current_thread s) s1) by done.
  destruct (t =? current_thread s); [done|]. unfold get_thread.
  rewrite (bind_ok _ _ s1 th s1) by (unfold deref; simpl; by rewrite lookup_insert_eq).
  rewrite paint_run by (simpl; lia). done.
Qed.

Lemma create_refines s k memory t nm size stk :
  (allocates size stk = true -> 0 < memory) ->
  rep s k -> wf_threads k -> fresh_thread k t -> l_entry (entries s) t -> l_entry (entries s) (qe t) ->
  exists s', thread_struct_init queue_off memory t nm size stk s = Ok tt s' /\ rep s' (a_create t k) /\
    irqs_off s' = irqs_off s /\ next_tid s' = u8 (next_tid s + 1) /\
    threads s' !! t = Some (created (next_tid s) memory nm size stk) /\
    words s' = (if allocates size stk then initial_words (current_thread s) t memory size (words s) else words s).
Proof.
  intros Hmem Hr Hw (Hnew & Ht0 & Hq0 & Htq & Hsep & Hsem) He1 He2.
  destruct (l_entry_init_spec _ _ He1) as (st1 & Hi1 & Hd1 & Hf1).
  assert (forall a, a ∈ k_all k -> a ∉ [t]) as Hnt by set_solver.
  assert (l_rep st1 (thread_list s) (k_all k)) as Hall1 by (eapply l_frame_rep; [exact Hf1|exact Hnt|apply Hr]).
  destruct (l_append_spec st1 _ _ t Hall1 Hd1 Ht0 Hnew) as (l2 & st2 & Hap & Hall2 & Hf2).
  assert (l_entry st2 (qe t)) as He3.
  { eapply l_frame_entry; [exact Hf2| |eapply l_frame_entry; [exact Hf1| |exact He2]].
    - intros [E|Hin]%elem_of_cons; [by apply Htq|]. by destruct (Hsep _ Hin).
    - intros E%list_elem_of_singleton. by apply Htq. }
  destruct (l_entry_init_spec _ _ He3) as (st3 & Hi3 & Hd3 & Hf3).
  assert (l_frame (qe t :: t :: k_all k) (entries s) st3) as Hf.
  { eapply l_frame_trans; [eapply l_frame_mono; [exact Hf1|set_solver]|].
    eapply l_frame_trans; [eapply l_frame_mono; [exact Hf2|set_solver]|].
    eapply l_frame_mono; [exact Hf3|set_solver]. }
  assert (forall t', t' ∈ k_all k -> qe t' ∉ qe t :: t :: k_all k) as Hqe.
  { intros t' Ht' [E|[E|Hin]%elem_of_cons]%elem_of_cons.
    - apply qe_inj in E. by subst.
    - by destruct (Hsep t' Ht').
    - by apply (sep_thread k (wk_sep k Hw) _ t' Hin). }
  set (th := created (next_tid s) memory nm size stk).
  set (wd := if allocates size stk then initial_words (current_thread s) t memory size (words s) else words s).
  assert (tstate th = THREAD_STATE_STOPPED /\ tid th = next_tid s) as [Hst Htid] by (unfold th, created; by destruct (allocates _ _)).
  assert (rep (mk_sys st3 (<[t := th]> (threads s)) (sems s) (waitees s) wd l2 (u8 (next_tid s + 1)) (running_queue s)
                 (current_thread s) (idle_thread s) (in_isr_count s) (irqs_off s) (pendsv s)) (a_create t k)) as Hrep.
  { pose proof (state_update _ _ t th _ (rep_state s k Hr) Hst) as Hmap. destruct Hr. split; simpl; try done.
    - eapply l_frame_rep; [exact Hf3| |exact Hall2]. intros a Ha ->%list_elem_of_singleton.
      apply elem_of_app in Ha as [Ha|Ha%list_elem_of_singleton]; [by destruct (Hsep _ Ha)|by apply Htq].
    - eapply l_frame_rep; [exact Hf| |done]. intros a Ha. apply elem_of_qe in Ha as (t' & -> & Ht').
      by apply Hqe, rq_all.
    - intros t' [Ht'|Ht'%list_elem_of_singleton]%elem_of_app Hn; [|by subst].
      eapply l_frame_detached; [exact Hf|by apply Hqe|by apply rep_off0].
    - intros q. specialize (rep_sems0 q).
      destruct (sems s !! q) as [sm|], (k_sems k !! q) as [[v ws]|] eqn:E; try done.
      destruct rep_sems0 as (? & Hl & ?). split; [done|]. split; [|done].
      eapply l_frame_rep; [exact Hf| |exact Hl]. intros a Ha Hin.
      apply list_elem_of_fmap in Ha as ([w t'] & -> & Hw'). cbn [fst] in Hin.
      destruct (Hsem q v ws w t' E Hw') as [Hw1 Hw2]. destruct (sep_waitee k (wk_sep k Hw) q v ws w t' E Hw') as [_ Hw3].
      apply elem_of_cons in Hin as [Hin|Hin]; [done|]. apply elem_of_cons in Hin as [Hin|Hin]; [done|].
      by destruct (Hw3 w Hin). }
  eexists. split; [|split; [exact Hrep|split; [done|split; [done|split; [|done] ] ] ] ].
  - unfold thread_struct_init. rewrite (bind_ok _ _ s (next_tid s) s) by done.
    rewrite (bind_ok _ _ s tt (set_next_tid s (u8 (next_tid s + 1)))) by done.
    rewrite (bind_ok _ _ _ _ _ (stack_init_run (set_next_tid s _) (next_tid s) t memory nm size stk Hmem)).
    unfold scheduler_thread_data_init, on_list, on_entries, bind, gets, modify, deref. simpl.
    rewrite Hi1; simpl; rewrite Hap; simpl; rewrite Hi3. reflexivity.
  - simpl. by rewrite lookup_insert_eq.
Qed.

Lemma wf_create k t : wf_kernel k -> fresh_thread k t -> wf_kernel (a_create t k).
Proof.
  intros Hw (Hnew & Ht0 & Hq0 & Htq & Hsep & Hsem). destruct Hw as [[[Sa St Sn Sw Ss] Hd Hn Hq] Hwait Honce Hdist Hcount].
  assert (forall t', t' ∈ k_all k ++ [t] -> t' ∈ k_all k \/ t' = t) as Hin by set_solver.
  assert (k_state k !! t = None) as Hnone.
  { destruct (k_state k !! t) eqn:E; [|done]. by destruct Hnew; apply Hd. }
  split; simpl; try done.
  - split; simpl; try done; [split; simpl|..].
    + apply NoDup_app. split; [done|]. split; [set_solver|apply NoDup_singleton].
    + intros t1 t2 [H1| ->]%Hin [H2| ->]%Hin; [by apply St|by destruct (Hsep t1 H1)|by destruct (Hsep t2 H2)|done].
    + intros t1 [H1| ->]%Hin; [by apply Sn|done].
    + intros q v ws w t' H1 H2. destruct (Sw q v ws w t' H1 H2) as [? H3]. split; [done|].
      intros t1 [H4| ->]%Hin; [by apply H3|by eapply Hsem].
    + done.
    + intros t'. destruct (decide (t = t')) as [<-|Hne].
      * rewrite lookup_insert_eq. split; [by eexists|set_solver].
      * rewrite lookup_insert_ne by done. rewrite <-Hd. set_solver.
    + intros t'. rewrite Hq. destruct (decide (t = t')) as [<-|Hne].
      * by rewrite lookup_insert_eq, Hnone.
      * by rewrite lookup_insert_ne.
  - intros q v ws w t' H1 H2. destruct (Hwait q v ws w t' H1 H2) as [Ha Hs]. split; [set_solver|].
    rewrite lookup_insert_ne; [done|]. by intros ->.
Qed.
End Spec.
