(* ===== verification/SchedRun.v ===== *)
(** * SchedRun: runs of the kernel

    The calls of the scheduler, thread and semaphore interfaces and the PendSV
    exception as events, the theorem that every sequence of them runs as the
    abstract kernel does, and what follows for scheduling order and semaphores.
    An event is atomic: [semaphore_signal] masks no interrupts, and what happens
    when it is interrupted is the subject of [signal_race]. *)
From S2P Require Import Prelude ListApi DList Fw Sched Semaphore SchedSpec.

Inductive kevent :=
| KInit (main nm : Z)                        (* scheduler_init *)
| KCreate (t memory nm size stk : Z)         (* thread_create *)
| KSetIdle (t : Z)                           (* scheduler_set_idle_thread *)
| KWakeup (t : Z)                            (* thread_wakeup *)
| KStop (t : Z)                              (* thread_stop *)
| KBlock                                     (* thread_block *)
| KYield                                     (* yield *)
| KPendSV (sp : Z)                           (* the exception, on stack sp *)
| KSemInit (q v : Z)                         (* semaphore_init *)
| KWait (q w : Z)                            (* semaphore_wait, its waitee at w *)
| KSignal (q : Z).                           (* semaphore_signal *)

Section Run.
Context {S L : Type} `{LA : ListApi S L} (queue_off : Z).
Abbreviation sys := (Sched.sys (S := S) (L := L)).
Abbreviation qe := (queue_entry queue_off).

(** The PendSV handler: the processor clears the request and enters [schedule]. *)
Definition pendsv_handler (sp : Z) : M sys Z :=
  run! modify (fun s => set_pendsv s false) in schedule queue_off sp.

Definition run_event (e : kevent) : M sys unit :=
  match e with
  | KInit main nm => scheduler_init queue_off main nm
  | KCreate t memory nm size stk => run! thread_create queue_off t memory nm size stk in ret tt
  | KSetIdle t => scheduler_set_idle_thread t
  | KWakeup t => thread_wakeup queue_off t
  | KStop t => thread_stop queue_off t
  | KBlock => thread_block queue_off
  | KYield => yield
  | KPendSV sp => run! pendsv_handler sp in ret tt
  | KSemInit q v => semaphore_init q v
  | KWait q w => semaphore_wait queue_off q w
  | KSignal q => semaphore_signal queue_off q
  end.

Definition a_pend (b : bool) (k : kernel) : kernel :=
  mk_kernel (k_all k) (k_state k) (k_rq k) (k_sems k) (k_cur k) (k_idle k) b.
Definition a_current (t : Z) (k : kernel) : kernel :=
  mk_kernel (k_all k) (k_state k) (k_rq k) (k_sems k) t (k_idle k) (k_pend k).
Definition a_idle (t : Z) (k : kernel) : kernel :=
  mk_kernel (k_all k) (k_state k) (k_rq k) (k_sems k) (k_cur k) t (k_pend k).

(** The value and the queue of a semaphore. *)
Definition sem_of (k : kernel) (q : Z) : Z * list (Z * Z) := default (0, []) (k_sems k !! q).

Definition spec_event (k : kernel) (e : kevent) : kernel :=
  match e with
  | KInit main nm => a_pend true (a_set_state main THREAD_STATE_RUNNING (a_current main (a_create main k)))
  | KCreate t _ _ _ _ => a_create t k
  | KSetIdle t => a_idle t k
  | KWakeup t => a_set_state t THREAD_STATE_RUNNING k
  | KStop t => a_set_state t THREAD_STATE_STOPPED k
  | KBlock => a_set_state (k_cur k) THREAD_STATE_BLOCKED k
  | KYield => a_pend true k
  | KPendSV sp => a_schedule (a_pend false k)
  | KSemInit q v => a_put_sem q v [] k
  | KWait q w => a_wait q w (sem_of k q).1 (sem_of k q).2 k
  | KSignal q => a_signal q (sem_of k q).1 (sem_of k q).2 k
  end.

(** When an event may happen.  Memory given to the kernel is fresh; a thread that
    waits on a semaphore is woken by signals only; a running thread waits, not the
    idle thread; counters stay within their eight bits; the stack a PendSV saves
    lies above the protector of the thread, which is intact. *)
Definition ok_event (e : kevent) (s : sys) (k : kernel) : Prop :=
  match e with
  | KInit t _ => k_rq k = [] /\ fresh_thread queue_off k t /\ l_entry (entries s) t /\ l_entry (entries s) (qe t)
  | KCreate t memory _ size stk => (allocates size stk = true -> 0 < memory) /\
                  fresh_thread queue_off k t /\ l_entry (entries s) t /\ l_entry (entries s) (qe t)
  | KSetIdle t => True
  | KWakeup t => t ∈ k_all k /\ not_waiting k t
  | KStop t => t ∈ k_all k
  | KBlock => k_cur k ∈ k_all k
  | KYield => True
  | KPendSV sp => sp <> 0 /\ (exists th, threads s !! k_cur k = Some th /\ stack_protector th < sp /\ stack_intact s th) /\
                  hd_or (k_idle k) (rotate (k_rq k)) ∈ k_all k
  | KSemInit q v => k_sems k !! q = None /\ 0 <= v < 128
  | KWait q w => (exists v ws, k_sems k !! q = Some (v, ws) /\ -128 < v < 128) /\
                 fresh_waitee queue_off k w /\ l_entry (entries s) w /\ k_cur k ∈ k_rq k
  | KSignal q => exists v ws, k_sems k !! q = Some (v, ws) /\ -128 <= v < 127
  end.

Lemma fresh_not_waiting k t : wf_kernel queue_off k -> fresh_thread queue_off k t -> not_waiting (a_create t k) t.
Proof.
  intros Hw (Hnew & _) q v ws w Hq Hin. simpl in Hq. apply Hnew. by eapply (wk_waiting _ k Hw q v ws w t).
Qed.

Lemma rep_pend_set s k b : rep queue_off s k -> rep queue_off (set_pendsv s b) (a_pend b k).
Proof. intros []. by split. Qed.

Lemma wf_same k k' : k_all k' = k_all k -> k_state k' = k_state k -> k_rq k' = k_rq k -> k_sems k' = k_sems k ->
  wf_kernel queue_off k -> wf_kernel queue_off k'.
Proof.
  intros E1 E2 E3 E4 [[[] ] ]. split; [split; [split|..]|..]; rewrite ?E1, ?E2, ?E3, ?E4; done.
Qed.

Lemma init_refines s k main nm :
  rep queue_off s k -> wf_kernel queue_off k -> irqs_off s = false -> ok_event (KInit main nm) s k ->
  exists s', scheduler_init queue_off main nm s = Ok tt s' /\ rep queue_off s' (spec_event k (KInit main nm)) /\
    irqs_off s' = false.
Proof.
  intros Hr Hw Hirq (Hrq & Hf & He1 & He2).
  set (s0 := set_running_queue s l_init).
  assert (rep queue_off s0 k) as Hr0.
  { destruct Hr. split; simpl; try done. rewrite Hrq. apply l_init_rep. }
  destruct (create_refines queue_off s0 k NULL main nm 0 NULL ltac:(done) Hr0 (wk_threads _ k Hw) Hf He1 He2)
    as (s1 & Hrun1 & Hr1 & Hi1 & _).
  set (s2 := set_current s1 main).
  assert (rep queue_off s2 (a_current main (a_create main k))) as Hr2 by (destruct Hr1; by split).
  assert (wf_kernel queue_off (a_current main (a_create main k))) as Hw2 by (eapply wf_same; [..|by apply (wf_create _ k main)]; done).
  destruct (set_state_refines queue_off s2 _ main THREAD_STATE_RUNNING Hr2 (wk_threads _ _ Hw2))
    as (s3 & Hrun3 & Hr3 & Hi3 & _); [simpl; set_solver|].
  exists (set_pendsv s3 true). split; [|split; [by apply rep_pend_set|done] ].
  unfold scheduler_init. rewrite (bind_ok _ _ s tt s0) by done.
  rewrite (bind_ok _ _ s0 main s1).
  2:{ unfold thread_create. destruct Hf as (_ & H0 & _). rewrite (proj2 (Z.eqb_neq main NULL) H0).
      rewrite (bind_ok _ _ s0 tt s1) by done. done. }
  rewrite (bind_ok _ _ s1 tt s2) by done. rewrite (bind_ok _ _ s2 tt s3) by done. done.
Qed.

Lemma wf_sem_init k q v : wf_kernel queue_off k -> k_sems k !! q = None -> 0 <= v ->
  wf_kernel queue_off (a_put_sem q v [] k).
Proof.
  intros [[[Sa St Sn Sw Ss] Hd Hn Hq] Hwait Honce Hdist Hcount] Hnone Hv.
  assert (forall q' v' ws w t, <[q:=(v, [])]> (k_sems k) !! q' = Some (v', ws) -> (w, t) ∈ ws ->
            k_sems k !! q' = Some (v', ws)) as Hold.
  { intros q' v' ws w t [[<- [= <- <-]]|[_ H1]]%lookup_insert_Some Hin; [by apply not_elem_of_nil in Hin|done]. }
  split; simpl; [split; simpl; try done; split; simpl; try done|..].
  - intros q1 v1 ws1 w t H1 I1. by eapply Sw, I1; eapply Hold.
  - intros q1 v1 ws1 q2 v2 ws2 w t t' H1 H2 I1 I2.
    exact (Ss _ _ _ _ _ _ _ _ _ (Hold _ _ _ _ _ H1 I1) (Hold _ _ _ _ _ H2 I2) I1 I2).
  - intros q1 v1 ws1 w t H1 I1. by eapply Hwait, I1; eapply Hold.
  - intros q1 v1 ws1 q2 v2 ws2 w w' t H1 H2 I1 I2.
    exact (Honce _ _ _ _ _ _ _ _ _ (Hold _ _ _ _ _ H1 I1) (Hold _ _ _ _ _ H2 I2) I1 I2).
  - intros q1 v1 ws1 [[<- [= <- <-]]|[_ H1]]%lookup_insert_Some; [apply NoDup_nil_2|by eapply Hdist].
  - intros q1 v1 ws1 [[<- [= <- <-]]|[_ H1]]%lookup_insert_Some; [simpl; lia|by eapply Hcount].
Qed.

Lemma event_refines s k e :
  rep queue_off s k -> wf_kernel queue_off k -> irqs_off s = false -> ok_event e s k ->
  exists s', run_event e s = Ok tt s' /\ rep queue_off s' (spec_event k e) /\
    wf_kernel queue_off (spec_event k e) /\ irqs_off s' = false.
Proof.
  intros Hr Hw Hirq Hok. pose proof (wk_threads _ k Hw) as Hth. destruct e; simpl in *.
  - destruct (init_refines s k main nm Hr Hw Hirq Hok) as (s' & ? & ? & ?). exists s'.
    split; [done|]. split; [done|]. split; [|done]. destruct Hok as (_ & Hf & _).
    eapply wf_same; [..|eapply (wf_set_state _ (a_current main (a_create main k)) main THREAD_STATE_RUNNING)];
      try done; [|simpl; set_solver|].
    + eapply wf_same; [..|by apply (wf_create _ k main)]; done.
    + intros _. by apply fresh_not_waiting.
  - destruct Hok as (Hmem & Hf & He1 & He2).
    destruct (create_refines queue_off s k memory t nm size stk Hmem Hr Hth Hf He1 He2) as (s' & Hrun & Hrep & Hi & _).
    exists s'. split; [|split; [done|split; [by apply wf_create|congruence] ] ].
    unfold thread_create. destruct Hf as (_ & H0 & _). rewrite (proj2 (Z.eqb_neq t NULL) H0).
    by rewrite (bind_ok _ _ s t s') by (by rewrite (bind_ok _ _ s tt s')).
  - exists (set_idle s t). split; [done|]. split; [destruct Hr; by split|]. split; [by eapply wf_same; [..|exact Hw]|done].
  - destruct Hok as [Ht Hnw].
    destruct (set_state_refines queue_off s k t THREAD_STATE_RUNNING Hr Hth Ht) as (s' & ? & ? & ? & _).
    exists s'. split; [done|]. split; [done|]. split; [by apply wf_set_state|done].
  - destruct (set_state_refines queue_off s k t THREAD_STATE_STOPPED Hr Hth Hok) as (s' & ? & ? & ? & _).
    exists s'. split; [done|]. split; [done|]. split; [by apply wf_set_state|done].
  - destruct (set_state_refines queue_off s k (k_cur k) THREAD_STATE_BLOCKED Hr Hth Hok) as (s' & Hrun & ? & ? & _).
    exists s'. split; [|split; [done|split; [by apply wf_set_state|done] ] ].
    unfold thread_block. rewrite (bind_ok _ _ s (k_cur k) s); [done|].
    unfold scheduler_current_thread, gets. by rewrite (rep_cur _ s k Hr).
  - exists (set_pendsv s true). split; [done|]. split; [by apply rep_pend_set|]. split; [by eapply wf_same; [..|exact Hw]|done].
  - destruct Hok as (Hsp & (th & Hth1 & Hlt & Hint) & Hnext).
    assert (wf_kernel queue_off (a_pend false k)) as Hw2 by (by eapply wf_same; [..|exact Hw]).
    destruct (schedule_refines queue_off (set_pendsv s false) (a_pend false k) sp th _
                (rep_pend_set s k false Hr) (wk_threads _ _ Hw2) Hsp Hth1 Hlt Hint eq_refl) as (s' & Hrun & Hrep & Hi & _).
    { by apply (wk_dom _ k Hth). }
    exists s'. split; [|split; [done|split; [by apply wf_schedule|done] ] ].
    unfold pendsv_handler, bind, modify. by rewrite Hrun.
  - destruct Hok as [Hq Hv]. eexists. split; [reflexivity|]. split; [|split; [|done] ].
    + destruct Hr. split; simpl; try done. intros q'. destruct (decide (q = q')) as [<-|Hne].
      * rewrite !lookup_insert_eq. split; [done|]. split; [apply l_init_rep|]. by intros w t ?%not_elem_of_nil.
      * rewrite !lookup_insert_ne by done. apply rep_sems.
    + apply wf_sem_init; [done|done|lia].
  - destruct Hok as ((v & ws & Hq & Hv) & Hf & He & Hc). unfold sem_of. rewrite Hq. simpl.
    destruct (wait_refines queue_off s k q v ws w Hr Hth Hq Hv Hf He (rq_all _ k _ Hth Hc)) as (s' & ? & ? & ?).
    exists s'. split; [done|]. split; [done|]. split; [by apply wf_wait|done].
  - destruct Hok as (v & ws & Hq & Hv). unfold sem_of. rewrite Hq. simpl.
    destruct (signal_refines queue_off s k q v ws Hr Hth Hq Hv Hirq) as (s' & ? & ? & ?).
    { intros w t Hin. by eapply (wk_waiting _ k Hw q v ws). }
    exists s'. split; [done|]. split; [done|]. split; [by apply wf_signal|done].
Qed.

Fixpoint run_events (es : list kevent) : M sys unit :=
  match es with
  | [] => ret tt
  | e :: es' => run! run_event e in run_events es'
  end.

(** Every event may happen when it does. *)
Fixpoint ok_events (es : list kevent) (s : sys) (k : kernel) : Prop :=
  match es with
  | [] => True
  | e :: es' => ok_event e s k /\ forall s', run_event e s = Ok tt s' -> ok_events es' s' (spec_event k e)
  end.

Lemma events_refine s k es :
  rep queue_off s k -> wf_kernel queue_off k -> irqs_off s = false -> ok_events es s k ->
  exists s', run_events es s = Ok tt s' /\ rep queue_off s' (foldl spec_event k es) /\
    wf_kernel queue_off (foldl spec_event k es) /\ irqs_off s' = false.
Proof.
  revert s k. induction es as [|e es IH]; intros s k Hr Hw Hi Hok; [by exists s|].
  destruct Hok as [He Hes]. destruct (event_refines s k e Hr Hw Hi He) as (s1 & Hrun & Hr1 & Hw1 & Hi1).
  destruct (IH s1 (spec_event k e) Hr1 Hw1 Hi1 (Hes s1 Hrun)) as (s' & Hrun' & ?).
  exists s'. split; [|done]. simpl. by rewrite (bind_ok _ _ s tt s1).
Qed.

(** What the assertions of [schedule] look for in the stack of the thread [th]. *)
Definition stack_overrun (s : sys) (th : thread) (sp : Z) : Prop :=
  sp = NULL \/ sp <= stack_protector th \/
  stack_protector th <> NULL /\ exists w, words s !! stack_protector th = Some w /\ w <> kStackProtector.

Lemma pendsv_overrun s k th sp : rep queue_off s k -> threads s !! k_cur k = Some th -> stack_overrun s th sp ->
  run_event (KPendSV sp) s = Fault AssertFail.
Proof.
  intros Hr Hth Ho. rewrite <-(rep_cur _ s k Hr) in Hth. cbn [run_event].
  enough (pendsv_handler sp s = Fault AssertFail) as E by (unfold bind at 1; by rewrite E).
  unfold pendsv_handler, schedule, scheduler_enter_isr, thread_set_stack, thread_assert_stack_protection, get_thread, put_thread, truth, assert_,
    bind, modify, deref, gets. destruct (decide (sp = 0)) as [->|Hsp]; [done|].
  rewrite (proj2 (Z.eqb_neq sp 0) Hsp). cbn. rewrite Hth. cbn. destruct (Z.ltb_spec (stack_protector th) sp) as [Hlt|]; [|done]. cbn.
  destruct Ho as [?|[?|(Hp & w & Hw & Hne)] ]; [done|lia|].
  rewrite lookup_insert_eq. cbn. rewrite (proj2 (Z.eqb_neq _ 0) Hp). cbn. rewrite (proj2 (Z.ltb_lt _ _) Hlt). cbn. rewrite Hw. cbn.
  by rewrite (proj2 (Z.eqb_neq _ _) Hne).
Qed.

(** C1: the firmware's threads, scheduler and semaphores implement the abstract kernel.
    Take a sequence of calls and reschedules, each when it may happen ([ok_events]):
    memory for a thread, semaphore or waitee is fresh, the threads named exist, a thread
    that waits for a semaphore is running and is woken by signals only, a semaphore's
    value stays within eight bits, no call interrupts another, and at a reschedule there
    is a thread to run and the stack saved is not overrun.  From memory that represents a
    consistent kernel the sequence runs to its end, with no failed assertion or wild
    access, to memory that represents the kernel the abstract transitions give.  It is
    consistent: the running queue holds exactly the threads in the state RUNNING, a
    waiting thread is in one queue of one semaphore, and a negative semaphore has that
    many waiters.  A reschedule with an overrun stack (null, at or below the thread's
    protector, or the protector overwritten) stops at an assertion. *)
Theorem kernel_refines s k es :
  rep queue_off s k -> wf_kernel queue_off k -> irqs_off s = false -> ok_events es s k ->
  exists s', run_events es s = Ok tt s' /\ rep queue_off s' (foldl spec_event k es) /\
    wf_kernel queue_off (foldl spec_event k es) /\ irqs_off s' = false /\
    forall sp th, threads s' !! k_cur (foldl spec_event k es) = Some th -> stack_overrun s' th sp ->
      run_event (KPendSV sp) s' = Fault AssertFail.
Proof.
  intros Hr Hw Hi Hok. destruct (events_refine s k es Hr Hw Hi Hok) as (s' & E & Hr' & Hw' & Hi').
  exists s'. repeat (split; [assumption|]). intros sp th. by apply pendsv_overrun.
Qed.

(** ** The kernel a memory represents *)

Lemma l_rep_inj st l xs ys : l_rep st l xs -> l_rep st l ys -> xs = ys.
Proof.
  intros Hx Hy. destruct (l_rep_NoDup _ _ _ Hx) as [_ Nx]. destruct (l_rep_NoDup _ _ _ Hy) as [_ Ny].
  assert (forall zs xs' ys', xs = zs ++ xs' -> ys = zs ++ ys' -> hd_or NULL xs' = hd_or NULL ys' -> xs' = ys') as H.
  { intros zs xs'. revert zs. induction xs' as [|x xs' IH]; intros zs ys' -> -> Hh.
    - destruct ys' as [|y ys']; [done|]. simpl in Hh. subst y. destruct Ny. set_solver.
    - destruct ys' as [|y ys']; simpl in Hh; [subst x; destruct Nx; set_solver|]. subst y. f_equal.
      apply (IH (zs ++ [x])); [by rewrite <-app_assoc|by rewrite <-app_assoc|].
      pose proof (l_next_spec _ _ _ _ _ Hx) as E1. pose proof (l_next_spec _ _ _ _ _ Hy) as E2. congruence. }
  apply (H []); [done|done|]. by rewrite <-(l_first_spec _ _ _ Hx), <-(l_first_spec _ _ _ Hy).
Qed.

Lemma fst_inj (f : Z -> option Z) : forall ws ws' : list (Z * Z), fst <$> ws = fst <$> ws' ->
  (forall w t, (w, t) ∈ ws -> f w = Some t) -> (forall w t, (w, t) ∈ ws' -> f w = Some t) -> ws = ws'.
Proof.
  induction ws as [|[w t] ws IH]; intros [|[w' t'] ws'] E H H'; simpl in E; try done. injection E as -> E.
  assert (Some t = Some t') as [= ->] by (rewrite <-(H w' t), <-(H' w' t'); [done|by left..]).
  f_equal. apply IH; [done|intros w t Hin; apply H; by right|intros w t Hin; apply H'; by right].
Qed.

Lemma rep_inj ks k k' : rep queue_off ks k -> rep queue_off ks k' -> k = k'.
Proof.
  intros [S1 A1 Q1 _ M1 C1 I1 P1] [S2 A2 Q2 _ M2 C2 I2 P2].
  destruct k as [all st rq sm cur idle pend], k' as [all' st' rq' sm' cur' idle' pend']. simpl in *. f_equal; try congruence.
  - by eapply l_rep_inj.
  - apply map_eq. intros t. by rewrite <-S1, <-S2.
  - pose proof (l_rep_inj _ _ _ _ Q1 Q2) as E. eapply (list_fmap_eq_inj (queue_entry queue_off)); [|done].
    intros t t'. unfold queue_entry. lia.
  - apply map_eq. intros q. specialize (M1 q). specialize (M2 q).
    destruct (sems ks !! q) as [m|], (sm !! q) as [ [v ws]|], (sm' !! q) as [ [v' ws']|]; try done.
    destruct M1 as (V1 & L1 & W1), M2 as (V2 & L2 & W2). f_equal. f_equal; [congruence|].
    apply (fst_inj (fun w => waitees ks !! w)); [by eapply l_rep_inj|done|done].
Qed.

(** The memory before the kernel starts, and the kernel it represents. *)
Definition sys_start (st : S) : sys :=
  mk_sys st ∅ ∅ ∅ ∅ l_init 1 l_init NULL NULL 0 false false.
Definition kernel_start : kernel := mk_kernel [] ∅ [] ∅ NULL NULL false.

Lemma start_rep st : rep queue_off (sys_start st) kernel_start /\ wf_kernel queue_off kernel_start.
Proof.
  split.
  - split; simpl; try done; apply l_init_rep.
  - split; [split; [split|..]|..]; simpl; try done; try apply NoDup_nil_2;
      try (intros; by rewrite lookup_empty in *); try (by intros t ? ?%not_elem_of_nil);
      try (by intros t ?%not_elem_of_nil).
    + intros t. rewrite lookup_empty. split; [by intros ?%not_elem_of_nil|by intros [? ?] ].
    + intros t. rewrite lookup_empty. split; [by intros ?%not_elem_of_nil|done].
Qed.
End Run.

(** ** A run on the lists of [core/list.c] *)

(** Two threads, at 100 and 200, with their queue entries 20 bytes on; the second
    waits on the semaphore at 400 with its waitee at 300, and is signalled. *)
Definition ex_store : store := fresh_store [100; 120; 200; 220; 300].
Definition ex_start : Sched.sys := sys_start (S := store) (L := list_t) ex_store.
Definition ex_events : list kevent :=
  [KInit 100 0; KCreate 200 1000 0 64 NULL; KWakeup 200; KSemInit 400 0; KPendSV 5000; KWait 400 300;
   KPendSV 6000; KSignal 400].

(** The freshness conditions, decided on a concrete kernel. *)
Definition all_waitees (k : kernel) (P : Z -> bool) : bool :=
  forallb (fun e : Z * (Z * list (Z * Z)) => forallb (fun w => P w.1) e.2.2) (map_to_list (k_sems k)).

Definition fresh_thread_b (off : Z) (k : kernel) (t : Z) : bool :=
  forallb (fun t' => negb (t =? t') && negb (t =? t' + off) && negb (t' =? t + off)) (k_all k)
  && negb (t =? 0) && negb (t + off =? 0) && negb (off =? 0)
  && all_waitees k (fun w => negb (w =? t) && negb (w =? t + off)).

Definition fresh_waitee_b (off : Z) (k : kernel) (w : Z) : bool :=
  forallb (fun t' => negb (w =? t') && negb (w =? t' + off)) (k_all k)
  && negb (w =? 0) && all_waitees k (fun w' => negb (w' =? w)).

Lemma all_waitees_spec k P q v ws w t : all_waitees k P = true -> k_sems k !! q = Some (v, ws) -> (w, t) ∈ ws -> P w = true.
Proof.
  unfold all_waitees. rewrite forallb_forall. intros H Hq Hin. specialize (H (q, (v, ws))).
  rewrite <-list_elem_of_In, elem_of_map_to_list in H. specialize (H Hq). simpl in H.
  rewrite forallb_forall in H. apply (H (w, t)). by rewrite <-list_elem_of_In.
Qed.

Lemma fresh_thread_dec off k t : fresh_thread_b off k t = true -> fresh_thread off k t.
Proof.
  unfold fresh_thread_b. rewrite !andb_true_iff, forallb_forall, !negb_true_iff, !Z.eqb_neq.
  intros ((((Ha & H0) & Hq0) & Ho) & Hw).
  assert (forall t', t' ∈ k_all k -> t <> t' /\ t <> t' + off /\ t' <> t + off) as Hall.
  { intros t' Ht'. specialize (Ha t'). rewrite <-list_elem_of_In in Ha. specialize (Ha Ht').
    rewrite !andb_true_iff, !negb_true_iff, !Z.eqb_neq in Ha. tauto. }
  unfold fresh_thread, queue_entry. split; [intros Hin; by destruct (Hall t Hin)|].
  split; [done|]. split; [done|]. split; [lia|]. split.
  - intros t' Ht'. destruct (Hall t' Ht') as (? & ? & ?). done.
  - intros q v ws w t' Hq Hin. pose proof (all_waitees_spec _ _ _ _ _ _ _ Hw Hq Hin) as H. simpl in H.
    rewrite andb_true_iff, !negb_true_iff, !Z.eqb_neq in H. done.
Qed.

Lemma fresh_waitee_dec off k w : fresh_waitee_b off k w = true -> fresh_waitee off k w.
Proof.
  unfold fresh_waitee_b. rewrite !andb_true_iff, forallb_forall, !negb_true_iff, !Z.eqb_neq. intros ((Ha & H0) & Hw).
  split; [done|]. split.
  - intros t' Ht'. specialize (Ha t'). rewrite <-list_elem_of_In in Ha. specialize (Ha Ht').
    rewrite !andb_true_iff, !negb_true_iff, !Z.eqb_neq in Ha. done.
  - intros q v ws t Hq Hin. pose proof (all_waitees_spec _ _ _ _ _ _ _ Hw Hq Hin) as H. simpl in H.
    by rewrite Z.eqb_refl in H.
Qed.

Lemma not_waiting_dec k t :
  forallb (fun e : Z * (Z * list (Z * Z)) => forallb (fun w => negb (w.2 =? t)) e.2.2) (map_to_list (k_sems k)) = true ->
  not_waiting k t.
Proof.
  rewrite forallb_forall. intros H q v ws w Hq Hin. specialize (H (q, (v, ws))).
  rewrite <-list_elem_of_In, elem_of_map_to_list in H. specialize (H Hq). simpl in H.
  rewrite forallb_forall in H. specialize (H (w, t)). rewrite <-list_elem_of_In in H. specialize (H Hin).
  simpl in H. by rewrite Z.eqb_refl in H.
Qed.

Abbreviation csys := (Sched.sys (S := store) (L := list_t)).

Definition has_entry (s : csys) (e : Z) : bool := bool_decide (is_Some (entries s !! e)).
Definition mem_b (t : Z) (xs : list Z) : bool := existsb (Z.eqb t) xs.

Definition stack_intact_b (s : csys) (th : thread) : bool :=
  (stack_protector th =? NULL) ||
  match words s !! stack_protector th with Some w => w =? kStackProtector | None => false end.

(** [ok_event] decided on the lists of [core/list.c]. *)
Definition ok_event_b (off : Z) (e : kevent) (s : csys) (k : kernel) : bool :=
  match e with
  | KInit t _ => match k_rq k with [] => true | _ => false end
                 && (fresh_thread_b off k t && (has_entry s t && has_entry s (t + off)))
  | KCreate t memory _ size stk => (negb (allocates size stk) || (0 <? memory)) &&
      (fresh_thread_b off k t && (has_entry s t && has_entry s (t + off)))
  | KWakeup t => mem_b t (k_all k) &&
      forallb (fun e : Z * (Z * list (Z * Z)) => forallb (fun w => negb (w.2 =? t)) e.2.2) (map_to_list (k_sems k))
  | KStop t => mem_b t (k_all k)
  | KBlock => mem_b (k_cur k) (k_all k)
  | KSetIdle _ | KYield => true
  | KPendSV sp => negb (sp =? 0)
      && (match threads s !! k_cur k with Some th => (stack_protector th <? sp) && stack_intact_b s th | None => false end
          && mem_b (hd_or (k_idle k) (rotate (k_rq k))) (k_all k))
  | KSemInit q v => match k_sems k !! q with None => true | _ => false end && ((0 <=? v) && (v <? 128))
  | KWait q w => match k_sems k !! q with Some (v, _) => (-128 <? v) && (v <? 128) | None => false end
      && (fresh_waitee_b off k w && (has_entry s w && mem_b (k_cur k) (k_rq k)))
  | KSignal q => match k_sems k !! q with Some (v, _) => (-128 <=? v) && (v <? 127) | None => false end
  end.

Lemma has_entry_ok s e : has_entry s e = true -> l_entry (entries s) e.
Proof. unfold has_entry. by rewrite bool_decide_eq_true. Qed.

Lemma mem_b_ok t xs : mem_b t xs = true -> t ∈ xs.
Proof. unfold mem_b. rewrite existsb_exists. intros (x & Hx & ->%Z.eqb_eq). by apply list_elem_of_In. Qed.

Lemma stack_intact_b_ok s th : stack_intact_b s th = true -> stack_intact s th.
Proof.
  unfold stack_intact_b. intros [H|H]%orb_true_iff; [left; by apply Z.eqb_eq|right].
  destruct (words s !! stack_protector th); [|done]. by apply Z.eqb_eq in H as ->.
Qed.

Lemma ok_event_b_ok off e s k : ok_event_b off e s k = true -> ok_event off e s k.
Proof.
  destruct e; simpl; rewrite ?andb_true_iff; try done.
  - intros (Hq & Hf & He1 & He2). split; [by destruct (k_rq k)|].
    split; [by apply fresh_thread_dec|split; by apply has_entry_ok].
  - intros (Hm & Hf & He1 & He2). split.
    { intros Ha. rewrite Ha in Hm. by apply Z.ltb_lt. }
    split; [by apply fresh_thread_dec|split; by apply has_entry_ok].
  - intros (Ht & Hw). split; [by apply mem_b_ok|by apply not_waiting_dec].
  - apply mem_b_ok.
  - apply mem_b_ok.
  - intros (Hsp & Hth & Hn). split; [by apply Z.eqb_neq, negb_true_iff|]. split; [|by apply mem_b_ok].
    destruct (threads s !! k_cur k) as [th|]; [|done]. exists th. apply andb_true_iff in Hth as [? ?].
    split; [done|]. split; [by apply Z.ltb_lt|by apply stack_intact_b_ok].
  - intros (Hq & Hv). split; [by destruct (k_sems k !! q)|lia].
  - intros (Hq & Hf & He & Hc). split; [|split; [by apply fresh_waitee_dec|split; [by apply has_entry_ok|by apply mem_b_ok] ] ].
    destruct (k_sems k !! q) as [ [v ws]|]; [|done]. exists v, ws. split; [done|lia].
  - intros Hq. destruct (k_sems k !! q) as [ [v ws]|]; [|done]. exists v, ws. split; [done|lia].
Qed.

(** [ok_events] decided by running the events. *)
Fixpoint ok_events_b (off : Z) (es : list kevent) (s : csys) (k : kernel) : bool :=
  match es with
  | [] => true
  | e :: es' => ok_event_b off e s k &&
      match run_event off e s with Ok _ s' => ok_events_b off es' s' (spec_event k e) | Fault _ => true end
  end.

Lemma ok_events_b_ok off es s k : ok_events_b off es s k = true -> ok_events off es s k.
Proof.
  revert s k. induction es as [|e es IH]; intros s k H; [done|]. simpl in H. apply andb_true_iff in H as [He H].
  split; [by apply ok_event_b_ok|]. intros s' Hs. rewrite Hs in H. by apply IH.
Qed.

Lemma ex_ok : ok_events 20 ex_events ex_start kernel_start.
Proof. apply ok_events_b_ok. vm_compute. reflexivity. Qed.

Lemma kernel_refines_witness :
  exists s', run_events 20 ex_events ex_start = Ok tt s' /\
    wf_kernel 20 (foldl (spec_event) kernel_start ex_events) /\
    k_rq (foldl spec_event kernel_start ex_events) = [100; 200] /\
    run_event 20 (KPendSV 0) s' = Fault AssertFail.
Proof.
  destruct (kernel_refines 20 ex_start kernel_start ex_events) as (s' & Hrun & Hr & Hw & _ & Ho).
  - exact (proj1 (start_rep 20 ex_store)).
  - exact (proj2 (start_rep (S := store) (L := list_t) 20 ex_store)).
  - done.
  - apply ex_ok.
  - exists s'. split; [exact Hrun|]. split; [exact Hw|]. split; [vm_compute; reflexivity|].
    pose proof (rep_state _ _ _ Hr (k_cur (foldl spec_event kernel_start ex_events))) as Hst.
    destruct (threads s' !! _) as [th|] eqn:Eth; [|vm_compute in Hst; discriminate].
    apply (Ho 0 th); [reflexivity|by left].
Defined.
