(* ===== verification/SchedProps.v ===== *)
(** * SchedProps: scheduling order, first frames, and two limits of semaphores *)
From S2P Require Import Prelude ListApi DList Fw Sched Semaphore SchedSpec SchedRun.

(** ** Round robin *)

Lemma nth_rotate xs i : (i < length xs)%nat -> nth i (rotate xs) 0 = nth ((i + 1) mod length xs) xs 0.
Proof.
  destruct xs as [|x xs]; [simpl; lia|]. intros Hi. cbn [rotate]. cbn [length] in Hi.
  destruct (decide (i = length xs)) as [->|Hne].
  - rewrite app_nth2 by lia. rewrite Nat.sub_diag. cbn [length].
    replace (length xs + 1)%nat with (S (length xs)) by lia. by rewrite Nat.Div0.mod_same.
  - rewrite app_nth1 by lia. cbn [length]. rewrite Nat.mod_small by lia.
    by replace (i + 1)%nat with (S i) by lia.
Qed.

Section Props.
Context {S L : Type} `{LA : ListApi S L} (queue_off : Z).
Abbreviation sys := (Sched.sys (S := S) (L := L)).
Abbreviation qe := (queue_entry queue_off).

(** Reschedules with the given stacks, and the threads they switch to. *)
Fixpoint run_schedules (sps : list Z) : M sys (list Z) :=
  match sps with
  | [] => ret []
  | sp :: sps' =>
      run! schedule queue_off sp in
      let! cur := scheduler_current_thread in
      let! rest := run_schedules sps' in
      ret (cur :: rest)
  end.

(** All stack pointers lie above all stack protectors, which are intact. *)
Definition stacks_fine (s : sys) (sps : list Z) : Prop :=
  (forall t th, threads s !! t = Some th -> stack_intact s th) /\
  Forall (fun sp => sp <> 0 /\ forall t th, threads s !! t = Some th -> stack_protector th < sp) sps.

Lemma stacks_fine_dec (s : sys) sps :
  forallb (fun e : Z * thread => (stack_protector e.2 =? NULL) ||
    match words s !! stack_protector e.2 with Some w => w =? kStackProtector | None => false end)
    (map_to_list (threads s)) &&
  forallb (fun sp => negb (sp =? 0) &&
    forallb (fun e : Z * thread => stack_protector e.2 <? sp) (map_to_list (threads s))) sps = true ->
  stacks_fine s sps.
Proof.
  rewrite andb_true_iff, !forallb_forall. intros [Hi H]. split.
  { intros t th Ht%elem_of_map_to_list%list_elem_of_In. specialize (Hi (t, th) Ht). simpl in Hi.
    apply orb_true_iff in Hi as [Hi|Hi]; [left; by apply Z.eqb_eq|right].
    destruct (words s !! stack_protector th); [|done]. by apply Z.eqb_eq in Hi as ->. }
  apply Forall_forall. intros sp Hin. apply list_elem_of_In in Hin.
  specialize (H sp Hin). rewrite andb_true_iff, forallb_forall, negb_true_iff, Z.eqb_neq in H. destruct H as [H1 H2].
  split; [done|]. intros t th Ht%elem_of_map_to_list%list_elem_of_In. apply Z.ltb_lt. by apply (H2 (t, th)).
Qed.

(** scheduling is round robin: while no thread changes its state the current
    thread after the [i]-th reschedule is number [i] modulo [n] of the [n] threads
    in the running queue, so each of them runs exactly once in [n] reschedules. *)
Theorem round_robin s k xs sps :
  rep queue_off s k -> wf_kernel queue_off k -> k_rq k = xs -> xs <> [] -> k_cur k ∈ k_all k ->
  stacks_fine s sps ->
  exists s', run_schedules sps s =
    Ok ((fun i => nth (i mod length xs) xs 0) <$> seq 1 (length sps)) s'.
Proof.
  revert s k xs. induction sps as [|sp sps IH]; intros s k xs Hr Hw Hxs Hne Hcur Hst; [by eexists|].
  destruct Hst as [Hint Hst]. apply Forall_cons in Hst as [[Hsp Hprot] Hst]. pose proof (wk_threads _ k Hw) as Hth.
  destruct (proj1 (wk_dom _ k Hth (k_cur k)) Hcur) as [st Est].
  pose proof (rep_state _ s k Hr (k_cur k)) as E. rewrite Est in E.
  destruct (threads s !! k_cur k) as [th|] eqn:Eth; [|done].
  assert (rotate xs <> []) as Hrot by (destruct xs; [done|simpl; by destruct xs]).
  assert (k_cur (a_schedule k) ∈ k_rq k) as Hin.
  { simpl. rewrite Hxs. destruct (rotate xs) as [|y ys] eqn:Ey; [done|]. simpl. apply rotate_elem. rewrite Ey. left. }
  pose proof (rq_all _ k _ Hth Hin) as Hall.
  destruct (schedule_refines queue_off s k sp th _ Hr Hth Hsp Eth (Hprot _ _ Eth) (Hint _ _ Eth) eq_refl
              (proj1 (wk_dom _ k Hth _) Hall)) as (s1 & Hrun & Hr1 & _ & Ethr & _ & Ewd).
  destruct (IH s1 (a_schedule k) (rotate xs) Hr1 (wf_schedule _ k Hw)) as (s' & Hrest);
    [simpl; by rewrite Hxs|done|done| |].
  { split.
    { intros t' th' Ht. unfold stack_intact. rewrite Ewd. rewrite Ethr in Ht.
      apply lookup_insert_Some in Ht as [[<- <-]|[_ Ht]]; [exact (Hint _ _ Eth)|exact (Hint _ _ Ht)]. }
    eapply Forall_impl; [exact Hst|]. intros sp' [? Hp]. split; [done|]. intros t th' Ht.
    rewrite Ethr in Ht. apply lookup_insert_Some in Ht as [[<- <-]|[_ Ht]]; [simpl; by eapply Hp|by eapply Hp]. }
  exists s'. cbn [run_schedules]. erewrite bind_ok by exact Hrun.
  assert (length (rotate xs) = length xs) as Hlen by (destruct xs; simpl; [done|rewrite length_app; simpl; lia]).
  assert (0 < length xs)%nat by (destruct xs; [done|simpl; lia]).
  assert (current_thread s1 = nth (1 mod length xs) xs 0) as Ecur.
  { rewrite (rep_cur _ _ _ Hr1). simpl. rewrite Hxs.
    transitivity (nth 0 (rotate xs) 0); [by destruct (rotate xs)|]. by apply nth_rotate. }
  unfold scheduler_current_thread, bind, gets. rewrite Hrest, Ecur. unfold ret. cbn [length seq fmap list_fmap].
  assert ((fun i => nth (i mod length (rotate xs)) (rotate xs) 0) <$> seq 1 (length sps)
          = (fun i => nth (i mod length xs) xs 0) <$> seq 2 (length sps)) as Es; [|by rewrite <-Es].
  rewrite <-(fmap_S_seq 1), <-list_fmap_compose, Hlen. apply list_fmap_ext. intros j i _. unfold compose.
  rewrite nth_rotate by (apply Nat.mod_upper_bound; lia).
  f_equal. rewrite Nat.Div0.add_mod_idemp_l. f_equal. lia.
Qed.

(** ** The first frame of a thread *)

Definition down (n : Z) (th : thread) : thread :=
  mk_thread (tid th) (tstate th) (stack th - 4 * n) (stack_protector th) (stack_size th) (name th).

Definition push_down (t v n : Z) (th : thread) (s : sys) : sys :=
  set_threads (set_words s (<[stack th := u32 v]> (words s))) (<[t := down n th]> (threads s)).

Lemma stack_down_run (s : sys) t th n : threads s !! t = Some th ->
  stack_down t n s = Ok tt (set_threads s (<[t := down n th]> (threads s))).
Proof. intros Ht. unfold stack_down, get_thread, bind, deref. by rewrite Ht. Qed.

Lemma push_word_run (s : sys) t th v : threads s !! t = Some th -> 0 < stack th ->
  push_word t v s = Ok tt (set_words s (<[stack th := u32 v]> (words s))).
Proof.
  intros Ht Hs. unfold push_word, get_thread, bind, deref. rewrite Ht. unfold write_word.
  by rewrite (proj2 (Z.eqb_neq (stack th) NULL)) by (unfold NULL; lia).
Qed.

Lemma push_down_run {A} (s : sys) t th v n (k : M sys A) : threads s !! t = Some th -> 0 < stack th ->
  (run! push_word t v in run! stack_down t n in k) s = k (push_down t v n th s).
Proof.
  intros Ht Hs. rewrite (bind_ok _ _ _ _ _ (push_word_run s t th v Ht Hs)).
  by rewrite (bind_ok _ _ _ _ _ (stack_down_run (set_words s _) t th n Ht)).
Qed.

Lemma push_down_thread t v n th s : threads (push_down t v n th s) !! t = Some (down n th).
Proof. simpl. by rewrite lookup_insert_eq. Qed.

(** The words [thread_set_function] writes. *)
Definition frame_words (top func argc arg : Z) (w : gmap Z Z) : gmap Z Z :=
  (if argc >? 0 then <[top - 28 := arg]> else id) (<[top - 8 := 0xFFFFFFFE]> (<[top - 4 := func]> (<[top := 0x01000000]> w))).

Lemma set_function_run (s : sys) t th func argc arg :
  threads s !! t = Some th -> 28 < stack th -> in_u 32 func -> in_u 32 arg ->
  thread_set_function t func argc arg s =
  Ok tt (set_threads (set_words s (frame_words (stack th) func argc arg (words s))) (<[t := down 15 th]> (threads s))).
Proof.
  intros Ht Hlow Hf Ha.
  set (s1 := push_down t 0x01000000 1 th s). set (s2 := push_down t func 1 (down 1 th) s1).
  set (s3 := push_down t 0xFFFFFFFE 5 (down 1 (down 1 th)) s2). set (th3 := down 5 (down 1 (down 1 th))).
  assert (s3 = set_threads (set_words s (frame_words (stack th) func 0 arg (words s))) (<[t := th3]> (threads s))) as E3.
  { unfold s3, s2, s1, push_down, frame_words, id, set_threads, set_words. simpl. rewrite !insert_insert_eq, (wrap_id 32 func) by done.
    replace (stack th - 4 * 1 - 4 * 1) with (stack th - 8) by lia. by replace (stack th - 4 * 1) with (stack th - 4) by lia. }
  assert (down 8 th3 = down 15 th) as E15 by (unfold th3, down; simpl; f_equal; lia).
  assert (stack th3 = stack th - 28) as Estk by (unfold th3; simpl; lia).
  unfold thread_set_function, thread_set_function_v.
  rewrite (push_down_run s t th) by (done || lia).
  rewrite (push_down_run s1 t (down 1 th)) by (apply push_down_thread || (simpl; lia)).
  rewrite (push_down_run s2 t (down 1 (down 1 th))) by (apply push_down_thread || (simpl; lia)). fold s1 s2 s3.
  pose proof (push_down_thread t 0xFFFFFFFE 5 (down 1 (down 1 th)) s2) as H3. fold s3 th3 in H3. clearbody s3. clear s1 s2.
  unfold frame_words in *. destruct (argc >? 0).
  - rewrite (bind_ok _ _ _ _ _ (push_word_run s3 t th3 arg H3 ltac:(lia))). rewrite Estk, (wrap_id 32 arg) by done.
    rewrite (stack_down_run _ t th3) by exact H3. subst s3. unfold set_threads, set_words. simpl.
    by rewrite !insert_insert_eq, E15.
  - rewrite (stack_down_run _ t th3) by exact H3. subst s3. unfold set_threads, set_words. simpl. by rewrite !insert_insert_eq, E15.
Qed.

(** [thread_set_function] lays out the frame PendSV will load: from the
    thread's stack pointer down PSR (with the Thumb bit), the entry function, the
    link register, with an argument r0 five words below, and leaves the pointer
    fifteen words down; no other memory changes.  The protector of a stack the
    kernel allocated is intact afterwards when the frame fits above it. *)
Theorem first_frame (s : sys) t th func argc arg :
  threads s !! t = Some th -> 28 < stack th -> in_u 32 func -> in_u 32 arg ->
  let top := stack th in
  exists s' : sys, thread_set_function t func argc arg s = Ok tt s' /\
    words s' !! top = Some 0x01000000 /\ words s' !! (top - 4) = Some func /\
    words s' !! (top - 8) = Some 0xFFFFFFFE /\
    (0 < argc -> words s' !! (top - 28) = Some arg) /\
    threads s' !! t = Some (down 15 th) /\
    (forall a, a < top - 28 \/ top < a -> words s' !! a = words s !! a) /\
    (words s !! stack_protector th = Some kStackProtector -> stack_protector th < top - 60 ->
     thread_assert_stack_protection t s' = Ok tt s').
Proof.
  intros Ht Hlow Hf Ha top. eexists. split; [by apply set_function_run|].
  cbn [words set_threads set_words threads]. rewrite lookup_insert_eq.
  assert (forall a, a < top - 28 \/ top < a -> frame_words top func argc arg (words s) !! a = words s !! a) as Hout.
  { intros a Hout. unfold frame_words, id. destruct (argc >? 0); by rewrite !lookup_insert_ne by lia. }
  split; [unfold frame_words, id; destruct (argc >? 0); rewrite !lookup_insert_ne by lia; by rewrite lookup_insert_eq|].
  split; [unfold frame_words, id; destruct (argc >? 0); rewrite !lookup_insert_ne by lia; by rewrite lookup_insert_eq|].
  split; [unfold frame_words, id; destruct (argc >? 0); rewrite ?lookup_insert_ne by lia; by rewrite lookup_insert_eq|].
  split; [intros Hc; unfold frame_words; rewrite (proj2 (Z.gtb_lt argc 0)) by lia; by rewrite lookup_insert_eq|].
  split; [done|]. split; [done|]. intros Hp Hlt.
  eapply (assert_protection_run _ t (down 15 th)); [apply lookup_insert_eq|simpl; unfold top in *; lia|].
  right. cbn [words set_threads set_words]. change (stack_protector (down 15 th)) with (stack_protector th). rewrite Hout; [exact Hp|lia].
Qed.

(** ** Stack utilisation *)

Lemma count_painted_run fuel p top size m (s : sys) :
  0 <= m -> (Z.to_nat m <= fuel)%nat -> 0 <= size - 4 * m -> size < 2 ^ 32 ->
  (forall i, 0 <= i < m -> p + 4 * i < top /\ words s !! (p + 4 * i) = Some kStackProtector) ->
  (top <= p + 4 * m \/ exists w, words s !! (p + 4 * m) = Some w /\ w <> kStackProtector) ->
  count_painted fuel p top size s = Ok (size - 4 * m) s.
Proof.
  revert p size m. induction fuel as [|fuel IH]; intros p size m Hm Hf Hs Hs' Hin Hout; simpl.
  - replace m with 0 by lia. by rewrite Z.sub_0_r.
  - destruct (decide (m = 0)) as [->|Hne].
    + rewrite Z.mul_0_r, Z.add_0_r in Hout. rewrite Z.sub_0_r. destruct (Z.ltb_spec p top); [|done].
      destruct Hout as [?|(w & Hw & Hd)]; [lia|].
      rewrite (bind_ok _ _ _ _ _ (deref_ok (fun s : sys => words s !! p) s _ Hw)). by rewrite (proj2 (Z.eqb_neq _ _) Hd).
    + destruct (Hin 0 ltac:(lia)) as [Hlt Hw]. rewrite Z.add_0_r in Hlt, Hw.
      rewrite (proj2 (Z.ltb_lt _ _) Hlt).
      rewrite (bind_ok _ _ _ _ _ (deref_ok (fun s : sys => words s !! p) s _ Hw)). rewrite Z.eqb_refl.
      rewrite wrap_id by (unfold in_u; lia). replace (size - 4 * m) with (size - 4 - 4 * (m - 1)) by lia.
      apply IH; try lia.
      * intros i Hi. replace (p + 4 + 4 * i) with (p + 4 * (i + 1)) by lia. apply Hin. lia.
      * by replace (p + 4 + 4 * (m - 1)) with (p + 4 * m) by lia.
Qed.

Lemma initial_words_painted cur t memory size w i : 0 <= i -> memory + 4 * i < memory + size -> t <> cur ->
  initial_words cur t memory size w !! (memory + 4 * i) = Some kStackProtector.
Proof.
  intros Hi Hlt Ht. unfold initial_words. rewrite (proj2 (Z.eqb_neq _ _) Ht).
  destruct (decide (i = 0)) as [->|Hne].
  - rewrite paint_lookup by lia. rewrite Z.mul_0_r, Z.add_0_r. replace (memory + 4 <=? memory) with false by lia.
    simpl. by rewrite lookup_insert_eq.
  - rewrite paint_lookup by lia. replace (memory + 4 * i - (memory + 4)) with ((i - 1) * 4) by lia.
    rewrite Z_mod_mult. replace (memory + 4 <=? memory + 4 * i) with true by lia.
    by rewrite (proj2 (Z.ltb_lt _ _) Hlt).
Qed.

(** [thread_stack_utilisation] measures the deepest use of a stack the kernel
    allocated: [thread_create] paints the new stack, and when later the lowest
    [m] words still hold what they held then and the next one does not (or is the
    word at the stack pointer), the result is the size less these words. *)
Theorem stack_high_water s k t memory nm size :
  rep queue_off s k -> wf_kernel queue_off k -> fresh_thread queue_off k t ->
  l_entry (entries s) t -> l_entry (entries s) (qe t) ->
  0 < memory -> 0 < size < 2 ^ 32 -> t <> current_thread s ->
  exists s', thread_create queue_off t memory nm size NULL s = Ok t s' /\
  forall (s2 : sys) th m, threads s2 !! t = Some th -> stack_protector th = memory -> stack_size th = size ->
    0 <= m -> memory + 4 * m <= stack th <= memory + size ->
    (forall i, 0 <= i < m -> words s2 !! (memory + 4 * i) = words s' !! (memory + 4 * i)) ->
    (stack th = memory + 4 * m \/ exists w, words s2 !! (memory + 4 * m) = Some w /\ w <> kStackProtector) ->
    thread_stack_utilisation t s2 = Ok (size - 4 * m) s2.
Proof.
  intros Hr Hw Hf He1 He2 Hm Hs Hc. assert (allocates size NULL = true) as Ha by (unfold allocates; simpl; lia).
  destruct (create_refines queue_off s k memory t nm size NULL (fun _ => Hm) Hr (wk_threads _ k Hw) Hf He1 He2)
    as (s' & Hrun & _ & _ & _ & _ & Ewd).
  exists s'. split.
  { unfold thread_create. destruct Hf as (_ & H0 & _). rewrite (proj2 (Z.eqb_neq t NULL) H0).
    by rewrite (bind_ok _ _ s tt s') by exact Hrun. }
  intros s2 th m Ht Ep Es H0 Hb Hin Hout. rewrite Ha in Ewd.
  unfold thread_stack_utilisation, get_thread.
  rewrite (bind_ok _ _ _ _ _ (deref_ok (fun s : sys => threads s !! t) s2 _ Ht)). rewrite Ep, Es.
  apply count_painted_run; try lia.
  - intros i Hi. split; [lia|]. rewrite Hin, Ewd by lia. apply initial_words_painted; [lia|lia|done].
  - destruct Hout as [->|?]; [left; lia|by right].
Qed.

(** ** The limits of a semaphore *)

(** the counter of a semaphore has eight bits: with 128 threads waiting the
    next one that waits makes it 127, and does not block: the running queue and
    the queue of the semaphore stay as they are. *)
Theorem wait_overflow s k q ws w :
  rep queue_off s k -> wf_kernel queue_off k -> k_sems k !! q = Some (-128, ws) ->
  fresh_waitee queue_off k w -> l_entry (entries s) w ->
  length ws = 128%nat /\
  exists s' sm, semaphore_wait queue_off q w s = Ok tt s' /\
    sems s' !! q = Some sm /\ value sm = 127 /\ l_rep (entries s') (queue sm) (fst <$> ws) /\
    running_queue s' = running_queue s /\ threads s' = threads s.
Proof.
  intros Hr Hw Hq Hf He. split; [pose proof (wk_count _ k Hw q _ _ Hq); lia|].
  pose proof (rep_sems _ s k Hr q) as Hsem. rewrite Hq in Hsem.
  destruct (sems s !! q) as [sm|] eqn:Esm; [|done]. destruct Hsem as (Ev & Hl & _).
  destruct (l_entry_init_spec _ _ He) as (st1 & Hinit & _ & Hfr).
  eexists _, (mk_sem 127 (queue sm)). split; [|split; [|split; [done|split] ] ].
  - unfold semaphore_wait, scheduler_current_thread, on_entries, get_sem, put_sem, scheduler_lock, bind, gets, modify, deref.
    simpl. rewrite Hinit. simpl. rewrite Esm, Ev. change (i8 (-128 - 1)) with 127. change (127 >=? 0) with true. reflexivity.
  - simpl. by rewrite lookup_insert_eq.
  - simpl. eapply l_frame_rep; [exact Hfr| |exact Hl]. intros a Ha ->%list_elem_of_singleton.
    apply list_elem_of_fmap in Ha as ([w' t] & -> & Hin). by eapply (proj2 (proj2 Hf)).
  - done.
Qed.
End Props.

(** ** Runs that reach the hypotheses *)

(** Two threads, at 100 and 200, both running. *)
Definition two_events : list kevent := [KInit 100 0; KCreate 200 1000 0 64 NULL; KWakeup 200].

Lemma two_ok : ok_events 20 two_events ex_start kernel_start.
Proof. apply ok_events_b_ok. vm_compute. reflexivity. Qed.

Lemma events_reach off (st : store) es : ok_events off es (sys_start st) kernel_start ->
  exists s, run_events off es (sys_start st) = Ok tt s /\ rep off s (foldl spec_event kernel_start es) /\ wf_kernel off (foldl spec_event kernel_start es).
Proof.
  intros Hok. destruct (events_refine off (sys_start st) kernel_start es) as (s & ? & ? & ? & _); [apply (start_rep (L := list_t))|apply (start_rep (L := list_t) off st)|done|done|by exists s].
Qed.

Lemma round_robin_witness :
  exists s, run_events 20 two_events ex_start = Ok tt s /\
    exists s', run_schedules 20 [5000; 6000; 5000] s = Ok [200; 100; 200] s'.
Proof.
  destruct (events_reach 20 ex_store two_events two_ok) as (s & Hrun & Hr & Hw). exists s. split; [exact Hrun|].
  apply (round_robin 20 s (foldl spec_event kernel_start two_events) [100; 200] [5000; 6000; 5000] Hr Hw).
  - vm_compute. reflexivity.
  - done.
  - apply mem_b_ok. vm_compute. reflexivity.
  - apply stacks_fine_dec. vm_compute in Hrun. injection Hrun as <-. vm_compute. reflexivity.
Defined.

Definition one_thread : csys := set_threads (sys_start (fresh_store [])) {[100 := mk_thread 1 THREAD_STATE_STOPPED 2000 1800 200 0]}.

Lemma first_frame_witness :
  exists s' : csys, thread_set_function 100 0x200 1 7 one_thread = Ok tt s' /\ words s' !! 1996 = Some 0x200.
Proof.
  destruct (first_frame one_thread 100 (mk_thread 1 THREAD_STATE_STOPPED 2000 1800 200 0) 0x200 1 7) as (s' & H & _ & H2 & _).
  - reflexivity.
  - done.
  - vm_compute. split; [discriminate|reflexivity].
  - vm_compute. split; [discriminate|reflexivity].
  - exists s'. split; [exact H|exact H2].
Defined.

(** A thread at 200 whose stack, at 1000, has 60 of its 64 bytes in use. *)
Lemma stack_high_water_witness :
  exists s s' : csys, thread_create 20 200 1000 0 64 NULL ex_start = Ok 200 s /\
    thread_set_function 200 0x200 0 0 s = Ok tt s' /\ thread_stack_utilisation 200 s' = Ok 60 s'.
Proof.
  destruct (stack_high_water 20 ex_start kernel_start 200 1000 0 64) as (s & Hs & Hu).
  - apply (start_rep (L := list_t)).
  - apply (start_rep (S := store) (L := list_t) 20 ex_store).
  - apply fresh_thread_dec. vm_compute. reflexivity.
  - apply has_entry_ok. vm_compute. reflexivity.
  - apply has_entry_ok. vm_compute. reflexivity.
  - done.
  - done.
  - done.
  - exists s. vm_compute in Hs. injection Hs as <-. eexists. split; [vm_compute; reflexivity|].
    split; [vm_compute; reflexivity|].
    change 60 with (64 - 4 * 1). eapply (Hu _ _ 1).
    + vm_compute. reflexivity.
    + reflexivity.
    + reflexivity.
    + done.
    + vm_compute. split; discriminate.
    + intros i Hi. replace i with 0 by lia. vm_compute. reflexivity.
    + left. vm_compute. reflexivity.
Defined.

(** 128 threads that wait on the semaphore at 400, and the main thread. *)
Definition waiter_events (i : Z) : list kevent :=
  let t := 1000 + 40 * i in
  [KCreate t NULL 0 64 9000; KWakeup t; KPendSV 5000; KWait 400 (100000 + 16 * i); KPendSV 6000].
Definition full_events : list kevent := KInit 100 0 :: KSemInit 400 0 :: (seqZ 0 128 ≫= waiter_events).
Definition full_store : store :=
  fresh_store (100 :: 120 :: 300 :: (seqZ 0 128 ≫= (fun i => [1000 + 40 * i; 1020 + 40 * i; 100000 + 16 * i]))).

Lemma full_ok : ok_events 20 full_events (sys_start full_store) kernel_start.
Proof. apply ok_events_b_ok. vm_compute. reflexivity. Qed.

Definition full_kernel : kernel := Eval vm_compute in foldl spec_event kernel_start full_events.
Definition full_waiters : list (Z * Z) := (sem_of full_kernel 400).2.

Lemma full_entry :
  match run_events 20 full_events (sys_start full_store) with Ok _ s => has_entry s 300 | Fault _ => false end = true.
Proof. vm_compute. reflexivity. Qed.

Lemma wait_overflow_witness :
  exists s s' : csys, run_events 20 full_events (sys_start full_store) = Ok tt s /\
    semaphore_wait 20 400 300 s = Ok tt s' /\ running_queue s' = running_queue s.
Proof.
  destruct (events_reach 20 full_store full_events full_ok) as (s & Hrun & Hr & Hw).
  assert (foldl spec_event kernel_start full_events = full_kernel) as E by (vm_compute; reflexivity).
  rewrite E in Hr, Hw.
  destruct (wait_overflow 20 s full_kernel 400 full_waiters 300 Hr Hw) as (_ & s' & sm & Hwait & _ & _ & _ & Hrq & _).
  - vm_compute. reflexivity.
  - apply fresh_waitee_dec. vm_compute. reflexivity.
  - apply has_entry_ok. pose proof full_entry as H. rewrite Hrun in H. exact H.
  - exists s, s'. split; [exact Hrun|]. split; [exact Hwait|exact Hrq].
Defined.

(** [semaphore_signal] does not mask interrupts and looks at the queue twice:
    when a second signal comes between the two looks, the one waiter is gone and
    the first signal unlinks the entry at address 0.  The same signals one after
    the other are fine. *)
Theorem signal_race :
  exists s, run_events 20 (take 7 ex_events) ex_start = Ok tt s /\
    (run! signal_count 400 in
     let! first := signal_first 400 in
     run! semaphore_signal 20 400 in
     signal_wake 20 400 first) s = Fault WildAccess /\
    (exists s', (run! semaphore_signal 20 400 in semaphore_signal 20 400) s = Ok tt s').
Proof.
  eexists. split; [vm_compute; reflexivity|]. split; [vm_compute; reflexivity|].
  eexists. vm_compute. reflexivity.
Qed.
