(* ===== verification/Irq.v ===== *)
(** * Irq: the interrupt table and its dispatch

    [platform/irq.c], and of [arch/arm-m/arch.c] the dispatch of an exception and
    the enabling of interrupts.  A handler is the address of a function; what it
    does is given ([call]).  The interrupt controller is the list of the writes to
    its registers. *)
From S2P Require Import Prelude ListApi DList Fw Sched SchedRun.

Definition IRQ_NMI : Z := 2.
Definition IRQ_HARDFAULT : Z := 3.
Definition IRQ_SV : Z := 4.
Definition IRQ_PENDSV : Z := 5.
Definition IRQ_SYSTICK : Z := 6.
Definition IRQ0 : Z := 7.
Definition IRQ_HANDLER_MISSING : Z := IRQ_HARDFAULT.

(** A write to [NVIC->ISER[0]] or [NVIC->ICER[0]]. *)
Inductive nvic_write := ISER (v : Z) | ICER (v : Z).

Section Irq.
Context {S L : Type} `{LA : ListApi S L}.
Abbreviation sys := (Sched.sys (S := S) (L := L)).

(** [irq.entries] has [NUMBER_OF_IRQS] elements. *)
Record irqs := mk_irqs { handlers : list Z; kern : sys; nvic : list nvic_write }.

Context (call : Z -> M irqs unit).

Definition NUMBER_OF_IRQS (s : irqs) : Z := Z.of_nat (length (handlers s)).
Definition get_handler (irq_number : Z) : M irqs Z := deref (fun s => handlers s !! Z.to_nat irq_number).
Definition put_handler (irq_number h : Z) : M irqs unit :=
  modify (fun s => mk_irqs (<[Z.to_nat irq_number := h]> (handlers s)) (kern s) (nvic s)).
Definition on_kern {A} (c : M sys A) : M irqs A := fun s =>
  match c (kern s) with Ok a k => Ok a (mk_irqs (handlers s) k (nvic s)) | Fault f => Fault f end.

Definition irq_register (irq_number handler : Z) : M irqs bool :=
  let! n := gets NUMBER_OF_IRQS in
  if irq_number >=? n then ret false
  else
    let! h := get_handler irq_number in
    if truth h then ret false
    else run! put_handler irq_number handler in ret true.

Definition irq_unregister (irq_number handler : Z) : M irqs bool :=
  let! n := gets NUMBER_OF_IRQS in
  if irq_number >=? n then ret false
  else
    let! h := get_handler irq_number in
    if negb (h =? handler) then ret false
    else run! put_handler irq_number NULL in ret true.

(** The recursive call is for [IRQ_HANDLER_MISSING], where a missing handler fails
    the assertion: [do_irq] has one level of it. *)
Fixpoint do_irq_fuel (fuel : nat) (irq_number : Z) : M irqs unit :=
  match fuel with
  | O => fail Diverges
  | Datatypes.S fuel =>
      let! h := get_handler irq_number in
      if truth h then call h
      else
        run! assert_ (negb (irq_number =? IRQ_HANDLER_MISSING)) in
        do_irq_fuel fuel IRQ_HANDLER_MISSING
  end.
Definition do_irq (irq_number : Z) : M irqs unit := do_irq_fuel 2 irq_number.

(** [ipsr] is the exception number the processor shows. *)
Definition irq_of_ipsr (ipsr : Z) : Z :=
  let irq := ipsr in
  let irq := if irq >? 11 then irq - 7 else irq in
  if irq >? 5 then irq - 2 else irq.

Definition arch_dispatch_irq (ipsr stack : Z) : M irqs Z :=
  run! on_kern scheduler_enter_isr in
  run! do_irq (u8 (irq_of_ipsr ipsr)) in
  run! on_kern scheduler_leave_isr in
  ret stack.

Definition nvic_store (w : nvic_write) : M irqs unit := modify (fun s => mk_irqs (handlers s) (kern s) (nvic s ++ [w])).

Definition irq_enable (irq_number : Z) : M irqs unit :=
  run! assert_ (irq_number >=? 7) in
  let irq_number := u8 (irq_number - 7) in
  nvic_store (ISER (Z.shiftl 1 (Z.land irq_number 0x1F))).

Definition irq_disable (irq_number : Z) : M irqs unit :=
  run! assert_ (irq_number >=? 7) in
  let irq_number := u8 (irq_number - 7) in
  nvic_store (ICER (Z.shiftl 1 (Z.land irq_number 0x1F))).

(** ** What the table means *)

Inductive irq_event := Register (n h : Z) | Unregister (n h : Z).

Definition run_irq_event (e : irq_event) : M irqs bool :=
  match e with Register n h => irq_register n h | Unregister n h => irq_unregister n h end.

Fixpoint run_irq_events (es : list irq_event) : M irqs (list bool) :=
  match es with
  | [] => ret []
  | e :: es => let! b := run_irq_event e in let! bs := run_irq_events es in ret (b :: bs)
  end.

(** A lock on each interrupt: taken by who registers first, released by its owner. *)
Definition owner_event (size : Z) (own : gmap Z Z) (e : irq_event) : gmap Z Z * bool :=
  match e with
  | Register n h => if decide (n < size /\ own !! n = None) then (<[n := h]> own, true) else (own, false)
  | Unregister n h => if decide (n < size /\ own !! n = Some h) then (delete n own, true) else (own, false)
  end.

Fixpoint owner_events (size : Z) (own : gmap Z Z) (es : list irq_event) : gmap Z Z * list bool :=
  match es with
  | [] => (own, [])
  | e :: es => let (own, b) := owner_event size own e in let (own, bs) := owner_events size own es in (own, b :: bs)
  end.

Definition sound_event (e : irq_event) : Prop :=
  match e with Register n h | Unregister n h => in_u 8 n /\ 0 < h end.

Definition table_of (s : irqs) (own : gmap Z Z) : Prop :=
  forall n, 0 <= n < NUMBER_OF_IRQS s -> handlers s !! Z.to_nat n = Some (default NULL (own !! n)) /\ own !! n <> Some NULL.

(** The number [include/arch/irq.h] gives the exceptions of the vector table whose
    handler is [arch_handle_irq]: NMI, HardFault, SVCall, SysTick and the interrupts. *)
Definition exception_irq (x : Z) : option Z :=
  if x =? 2 then Some IRQ_NMI else if x =? 3 then Some IRQ_HARDFAULT else if x =? 11 then Some IRQ_SV
  else if x =? 15 then Some IRQ_SYSTICK else if (16 <=? x) && (x <? 48) then Some (IRQ0 + (x - 16)) else None.

(** The number the dispatch computes: SVCall is taken for the third interrupt. *)
Definition delivered_irq (x n : Z) : Z := if x =? 11 then IRQ0 + 2 else n.

Lemma get_handler_ok s n h : handlers s !! Z.to_nat n = Some h -> get_handler n s = Ok h s.
Proof. intros Eh. unfold get_handler, deref. by rewrite Eh. Qed.

Lemma truth_nz h : truth h = bool_decide (h <> NULL).
Proof. unfold truth, NULL. destruct (Z.eqb_spec h 0); symmetry; [apply bool_decide_false|apply bool_decide_true]; tauto. Qed.

(** The table after [n] got handler [h]. *)
Lemma table_put s own n h : table_of s own -> 0 <= n < NUMBER_OF_IRQS s ->
  table_of (mk_irqs (<[Z.to_nat n := h]> (handlers s)) (kern s) (nvic s)) (if truth h then <[n := h]> own else delete n own).
Proof.
  intros Ht Hn m. unfold NUMBER_OF_IRQS in *. simpl. rewrite length_insert. intros Hm. destruct (Ht m Hm) as [Hl Hne].
  destruct (decide (m = n)) as [->|Hmn].
  - rewrite list_lookup_insert_eq by lia. rewrite truth_nz. case_bool_decide as Hh.
    + rewrite lookup_insert_eq. split; [done|]. congruence.
    + rewrite lookup_delete_eq. simpl. split; [f_equal|done]. by destruct (decide (h = NULL)).
  - rewrite list_lookup_insert_ne by lia. destruct (truth h); [rewrite lookup_insert_ne by done|rewrite lookup_delete_ne by done]; done.
Qed.

Lemma irq_event_run s own e : table_of s own -> sound_event e ->
  let (own', b) := owner_event (NUMBER_OF_IRQS s) own e in
  exists s', run_irq_event e s = Ok b s' /\ table_of s' own' /\ NUMBER_OF_IRQS s' = NUMBER_OF_IRQS s /\
    kern s' = kern s /\ nvic s' = nvic s.
Proof.
  intros Ht He. assert (forall n h, NUMBER_OF_IRQS (mk_irqs (<[n := h]> (handlers s)) (kern s) (nvic s)) = NUMBER_OF_IRQS s) as Hlen.
  { intros. unfold NUMBER_OF_IRQS. simpl. by rewrite length_insert. }
  destruct e as [n h|n h]; destruct He as [Hn Hh]; unfold in_u in Hn; simpl; unfold irq_register, irq_unregister, bind, gets.
  - destruct (Z.geb_spec n (NUMBER_OF_IRQS s)) as [Hge|Hlt].
    { rewrite decide_False by lia. by exists s. }
    destruct (Ht n ltac:(lia)) as [Hl Hne]. rewrite (get_handler_ok _ _ _ Hl). destruct (own !! n) as [o|] eqn:Ho; simpl.
    + rewrite decide_False by (intros [_ ?]; done). rewrite truth_nz, bool_decide_true by congruence. by exists s.
    + rewrite decide_True by done. eexists. split; [done|]. split; [|done].
      pose proof (table_put s own n h Ht ltac:(lia)) as H. by rewrite truth_pos in H.
  - destruct (Z.geb_spec n (NUMBER_OF_IRQS s)) as [Hge|Hlt].
    { rewrite decide_False by lia. by exists s. }
    destruct (Ht n ltac:(lia)) as [Hl Hne]. rewrite (get_handler_ok _ _ _ Hl). destruct (own !! n) as [o|] eqn:Ho; simpl.
    + destruct (Z.eqb_spec o h) as [->|Hoh]; simpl.
      * rewrite decide_True by done. eexists. split; [done|]. split; [|done]. apply (table_put s own n NULL Ht). lia.
      * rewrite decide_False by (intros [_ ?]; congruence). by exists s.
    + rewrite decide_False by (intros [_ ?]; congruence). destruct h; [lia|by exists s|lia].
Qed.

Lemma irq_events_run es : forall s own, table_of s own -> Forall sound_event es ->
  exists s', run_irq_events es s = Ok (owner_events (NUMBER_OF_IRQS s) own es).2 s' /\
    table_of s' (owner_events (NUMBER_OF_IRQS s) own es).1 /\ NUMBER_OF_IRQS s' = NUMBER_OF_IRQS s /\
    kern s' = kern s /\ nvic s' = nvic s.
Proof.
  induction es as [|e es IH]; intros s own Ht Hes; [by exists s|]. inversion_clear Hes as [|? ? He Hes'].
  pose proof (irq_event_run s own e Ht He) as H. simpl. destruct (owner_event (NUMBER_OF_IRQS s) own e) as [own1 b].
  destruct H as (s1 & E1 & Ht1 & Hn1 & Hk1 & Hv1). rewrite (bind_ok _ _ _ _ _ E1).
  destruct (IH s1 own1 Ht1 Hes') as (s2 & E2 & Ht2 & Hn2 & Hk2 & Hv2). rewrite Hn1 in E2, Ht2, Hn2.
  rewrite (bind_ok _ _ _ _ _ E2). exists s2. destruct (owner_events (NUMBER_OF_IRQS s) own1 es) as [own2 bs].
  repeat split; try done; try apply Ht2; congruence.
Qed.

Lemma irq_of_exception x n : exception_irq x = Some n -> u8 (irq_of_ipsr x) = delivered_irq x n /\ 0 <= delivered_irq x n.
Proof.
  unfold exception_irq, delivered_irq, irq_of_ipsr, IRQ_NMI, IRQ_HARDFAULT, IRQ_SV, IRQ_SYSTICK, IRQ0.
  destruct (Z.eqb_spec x 2) as [->|]; [by intros [= <-]|]. destruct (Z.eqb_spec x 3) as [->|]; [by intros [= <-]|].
  destruct (Z.eqb_spec x 11) as [->|]; [by intros [= <-]|]. destruct (Z.eqb_spec x 15) as [->|]; [by intros [= <-]|].
  destruct (Z.leb_spec 16 x); [|done]. destruct (Z.ltb_spec x 48); [|done]. intros [= <-]. simpl.
  destruct (Z.gtb_spec x 11); [|lia]. destruct (Z.gtb_spec (x - 7) 5); [|lia].
  rewrite wrap_id by (unfold in_u; lia). lia.
Qed.

Lemma do_irq_run s own n : table_of s own -> 0 <= n < NUMBER_OF_IRQS s -> 3 < NUMBER_OF_IRQS s ->
  do_irq n s = match own !! n, own !! IRQ_HARDFAULT with
               | Some h, _ | None, Some h => call h s
               | None, None => Fault AssertFail
               end.
Proof.
  intros Ht Hn H3. unfold do_irq. cbn [do_irq_fuel]. destruct (Ht n Hn) as [Hl Hne].
  destruct (Ht IRQ_HARDFAULT) as [Hl3 Hne3]; [unfold IRQ_HARDFAULT; lia|].
  rewrite (bind_ok _ _ _ _ _ (get_handler_ok _ _ _ Hl)). rewrite truth_nz.
  destruct (own !! n) as [h|] eqn:Ho; cbn [default]; [rewrite bool_decide_true by (simpl; congruence); done|].
  rewrite bool_decide_false by (simpl; tauto). unfold IRQ_HANDLER_MISSING.
  destruct (Z.eqb_spec n IRQ_HARDFAULT) as [->|Hne']; simpl.
  - by rewrite Ho.
  - unfold assert_. rewrite (bind_ok _ _ s tt s) by done.
    rewrite (bind_ok _ _ _ _ _ (get_handler_ok _ _ _ Hl3)). rewrite truth_nz.
    destruct (own !! IRQ_HARDFAULT) as [h|]; simpl; [by rewrite bool_decide_true by congruence|done].
Qed.

(** C39: After any sequence of registrations and releases the table is a lock on
    each interrupt, taken by the first to register and released by its owner only;
    an exception of the vector table other than SVCall then runs the owner of its
    interrupt inside [scheduler_enter_isr] and [scheduler_leave_isr], or the hard
    fault handler when there is no owner, or stops on an assertion when there is none
    either.  SVCall is delivered as if it were the third interrupt, IRQ2, whatever is
    registered for IRQ_SV: arch_dispatch_irq corrects its number as an interrupt's
    (delivered_irq). *)
Theorem irq_delivery (s : irqs) size es x n stack :
  handlers s = replicate size NULL -> 3 < Z.of_nat size -> Forall sound_event es ->
  exception_irq x = Some n -> delivered_irq x n < Z.of_nat size ->
  let own := (owner_events (Z.of_nat size) ∅ es).1 in
  exists s', run_irq_events es s = Ok (owner_events (Z.of_nat size) ∅ es).2 s' /\ kern s' = kern s /\
    arch_dispatch_irq x stack s' =
      match own !! delivered_irq x n, own !! IRQ_HARDFAULT with
      | Some h, _ | None, Some h =>
          (run! on_kern scheduler_enter_isr in run! call h in run! on_kern scheduler_leave_isr in ret stack) s'
      | None, None => Fault AssertFail
      end.
Proof.
  intros Hs H3 Hes Hx Hn own. assert (NUMBER_OF_IRQS s = Z.of_nat size) as Hsize.
  { unfold NUMBER_OF_IRQS. by rewrite Hs, length_replicate. }
  destruct (irq_events_run es s ∅) as (s' & E & Ht & Hn' & Hk & Hv); [|done|].
  { intros m Hm. rewrite Hs, lookup_empty. rewrite lookup_replicate_2 by lia. done. }
  rewrite Hsize in *. exists s'. split; [done|]. split; [done|]. destruct (irq_of_exception x n Hx) as [Hirq Hn0].
  unfold arch_dispatch_irq. rewrite Hirq. set (m := delivered_irq x n) in *. fold own in Ht.
  set (s'' := mk_irqs (handlers s') (set_isr (kern s') (u8 (in_isr_count (kern s') + 1))) (nvic s')).
  assert (on_kern scheduler_enter_isr s' = Ok tt s'') as E1 by done.
  assert (do_irq m s'' = match own !! m, own !! IRQ_HARDFAULT with
               | Some h, _ | None, Some h => call h s'' | None, None => Fault AssertFail end) as E2.
  { apply (do_irq_run s'' own); try done; unfold s'', NUMBER_OF_IRQS in *; simpl; lia. }
  rewrite (bind_ok _ _ _ _ _ E1). unfold bind at 1. rewrite E2.
  destruct (own !! m), (own !! IRQ_HARDFAULT); try done; by rewrite (bind_ok _ _ _ _ _ E1).
Qed.

(** The number computed for SVCall, exception 11, is that of interrupt 2. *)
Lemma svcall_misrouted : irq_of_ipsr 11 = IRQ0 + 2 /\ irq_of_ipsr 11 = irq_of_ipsr 18 /\ irq_of_ipsr 11 <> IRQ_SV.
Proof. done. Qed.

(** Interrupt [n] has bit [n] of the registers. *)
Lemma irq_enable_bit (s : irqs) n : 0 <= n < 32 ->
  irq_enable (IRQ0 + n) s = Ok tt (mk_irqs (handlers s) (kern s) (nvic s ++ [ISER (2 ^ n)])) /\
  irq_disable (IRQ0 + n) s = Ok tt (mk_irqs (handlers s) (kern s) (nvic s ++ [ICER (2 ^ n)])).
Proof.
  intros Hn. unfold irq_enable, irq_disable, IRQ0. destruct (Z.geb_spec (7 + n) 7); [|lia]. simpl.
  unfold nvic_store, assert_, bind, ret, modify.
  replace (7 + n - 7) with n by lia. rewrite (wrap_id 8 n) by (unfold in_u; lia).
  change 31 with (Z.ones 5). rewrite Z.land_ones, Z.mod_small, Z.shiftl_1_l by lia. done.
Qed.
End Irq.

(** ** A run with a system clock and a hard fault handler *)

Definition ex_irqs : irqs (S := store) (L := list_t) := mk_irqs (replicate 10 NULL) ex_start [].

(** The handlers write their address to a register. *)
Definition ex_call (h : Z) : M (irqs (S := store) (L := list_t)) unit := nvic_store (ICER h).

Definition ex_irq_events : list irq_event :=
  [Register 3 50; Register 6 60; Register 6 61; Unregister 6 61; Register 12 70; Register 7 80; Unregister 7 80].

(** The system clock, and SVCall with nobody registered for IRQ2. *)
Lemma irq_delivery_witness :
  (owner_events 10 ∅ ex_irq_events).2 = [true; true; false; false; false; true; true] /\
  (exists s', run_irq_events ex_irq_events ex_irqs = Ok (owner_events 10 ∅ ex_irq_events).2 s' /\ kern s' = ex_start /\
    arch_dispatch_irq ex_call 15 500 s' =
      (run! on_kern scheduler_enter_isr in run! ex_call 60 in run! on_kern scheduler_leave_isr in ret 500) s') /\
  exists s', run_irq_events [Register 4 90; Register 9 91] ex_irqs = Ok [true; true] s' /\ kern s' = ex_start /\
    arch_dispatch_irq ex_call 11 500 s' =
      (run! on_kern scheduler_enter_isr in run! ex_call 91 in run! on_kern scheduler_leave_isr in ret 500) s'.
Proof.
  split; [reflexivity|]. split.
  - apply (irq_delivery ex_call ex_irqs 10 ex_irq_events 15 6 500); try reflexivity.
    repeat constructor; vm_compute; intuition congruence.
  - apply (irq_delivery ex_call ex_irqs 10 [Register 4 90; Register 9 91] 11 4 500); try reflexivity.
    repeat constructor; vm_compute; intuition congruence.
Defined.
