(* ===== verification/FwTests.v ===== *)
(** * FwTests: the firmware's tests of the lists and of the interrupt table

    [tests/list_tests.c] on the lists of [core/list.c], and of [tests/irq_test.c] the
    tests that register and unregister handlers.  [test_fail] ends a test ([SelfTest]):
    here it is a failure of the run, so that a test that passes is one that returns. *)
From S2P Require Import Prelude ListApi DList Fw Sched SchedRun Irq.

Section ListTests.
Abbreviation lists := (list_t * store)%type.

Definition test_fail : M lists unit := fail AssertFail.

(** [assert_list]: its loop is [list_foreach] with the index of the next entry. *)
Fixpoint assert_loop (fuel : nat) (pos i : Z) (entries : list Z) : M lists Z :=
  match fuel with
  | O => fail Diverges
  | Datatypes.S fuel =>
      if pos =? NULL then ret i
      else
        run! (if i >=? Z.of_nat (length entries) then test_fail else ret tt) in
        run! (if negb (pos =? nth (Z.to_nat i) entries NULL) then test_fail else ret tt) in
        let! next := deref (fun s => list_next s.1 s.2 pos) in
        assert_loop fuel next (u32 (i + 1)) entries
  end.

Definition assert_list (entries : list Z) : M lists unit :=
  let! head := gets (fun s => list_first s.1) in
  let! i := assert_loop (Datatypes.S (length entries)) head 0 entries in
  if i <? Z.of_nat (length entries) then test_fail else ret tt.

Definition on_entry (op : store -> option store) : M lists unit :=
  let! st := deref (fun s => op s.2) in modify (fun s => (s.1, st)).
Definition on_list (op : list_t -> store -> option (list_t * store)) : M lists unit :=
  let! r := deref (fun s => op s.1 s.2) in modify (fun _ => r).
Definition append (e : Z) : M lists unit := on_list (fun l st => list_append l st e).
Definition delete (e : Z) : M lists unit := on_list (fun l st => list_delete l st e).

(** [a], [b] and [c] are the addresses of the entries. *)
Definition init_all (a b c : Z) : M lists unit :=
  run! on_entry (fun st => list_entry_init st a) in
  run! on_entry (fun st => list_entry_init st b) in
  run! on_entry (fun st => list_entry_init st c) in
  modify (fun s => (list_init, s.2)).

Definition test_list_add (a b c : Z) : M lists unit :=
  run! init_all a b c in
  run! assert_list [] in
  run! append a in
  run! assert_list [a] in
  run! append b in
  run! assert_list [a; b] in
  run! append c in
  assert_list [a; b; c].

Definition test_list_delete (a b c : Z) : M lists unit :=
  run! init_all a b c in
  run! append a in
  run! append b in
  run! append c in
  run! assert_list [a; b; c] in
  run! delete b in
  run! assert_list [a; c] in
  run! delete c in
  run! assert_list [a] in
  run! delete a in
  assert_list [].

Definition test_list_append_same (a b c : Z) : M lists unit :=
  run! init_all a b c in
  run! assert_list [] in
  run! append a in
  run! assert_list [a] in
  run! append a in
  run! assert_list [a] in
  run! append b in
  run! assert_list [a; b] in
  run! append a in
  run! assert_list [b; a] in
  run! append c in
  run! assert_list [b; a; c] in
  run! append a in
  assert_list [b; c; a].

(** From a list that holds [xs], [c] returns with one that holds [ys]; the entries of
    [U] that are not in it stay free. *)
Definition turns (U : list Z) (c : M lists unit) (xs ys : list Z) : Prop :=
  forall s, list_world U s xs -> exists s', c s = Ok tt s' /\ list_world U s' ys.

Lemma turns_bind U c d xs ys zs : turns U c xs ys -> turns U d ys zs -> turns U (run! c in d) xs zs.
Proof. intros Hc Hd s H. destruct (Hc s H) as (s1 & E1 & H1). destruct (Hd s1 H1) as (s2 & E2 & H2). exists s2. by rewrite (bind_ok _ _ _ _ _ E1). Qed.

Lemma turns_op U o xs c : op_entry o ⊆ U -> (forall s, c s = on_list (fun l st => run_op (l, st) o) s) -> turns U c xs (spec_op xs o).
Proof.
  intros Ho Hc s H. destruct (run_op_refines U s xs o H Ho) as (s1 & E & H1). exists s1. split; [|done].
  rewrite Hc. unfold on_list, bind, deref, modify. destruct s as [l st]. cbn [fst snd]. by rewrite E.
Qed.

Lemma turns_append U e xs ys : e ∈ U -> spec_op xs (OpAppend e) = ys -> turns U (append e) xs ys.
Proof. intros He <-. apply turns_op; [set_solver|by intros [l st] ]. Qed.
Lemma turns_delete U e xs ys : e ∈ U -> spec_op xs (OpDelete e) = ys -> turns U (delete e) xs ys.
Proof. intros He <-. apply turns_op; [set_solver|by intros [l st] ]. Qed.

Lemma assert_loop_run (s : list_t * store) xs2 : forall xs1 fuel, list_rep s.2 s.1 (xs1 ++ xs2) -> (length xs2 < fuel)%nat ->
  Z.of_nat (length (xs1 ++ xs2)) < 2 ^ 32 ->
  assert_loop fuel (hd_or NULL xs2) (Z.of_nat (length xs1)) (xs1 ++ xs2) s = Ok (Z.of_nat (length (xs1 ++ xs2))) s.
Proof.
  induction xs2 as [|x xs2 IH]; intros xs1 [|fuel] Hr Hf Hlt; simpl in Hf; try lia; cbn [assert_loop hd_or].
  { by rewrite app_nil_r. }
  pose proof Hr as (_ & _ & Hnull & _). destruct (Z.eqb_spec x NULL) as [->|_]; [set_solver|].
  rewrite length_app in Hlt |- *. cbn [length] in Hlt |- *. rewrite Nat2Z.inj_add in *.
  replace (Z.of_nat (length xs1) >=? Z.of_nat (length xs1) + Z.of_nat (Datatypes.S (length xs2))) with false by (symmetry; rewrite Z.geb_leb; apply Z.leb_gt; lia). rewrite (bind_ok _ _ s tt s) by done.
  rewrite Nat2Z.id, app_nth2, Nat.sub_diag by lia. cbn [nth]. rewrite Z.eqb_refl. cbn [negb]. rewrite (bind_ok _ _ s tt s) by done.
  rewrite (bind_ok _ _ s (hd_or NULL xs2) s) by (unfold deref; by rewrite (list_next_spec _ _ _ _ _ Hr)).
  rewrite wrap_id by (unfold in_u; lia). replace (Z.of_nat (length xs1) + 1) with (Z.of_nat (length (xs1 ++ [x]))) by (rewrite length_app; cbn; lia).
  replace (xs1 ++ x :: xs2) with ((xs1 ++ [x]) ++ xs2) in * by by rewrite <-app_assoc.
  rewrite IH; [|done|lia|rewrite !length_app; cbn; lia]. do 2 f_equal. rewrite !length_app. cbn. lia.
Qed.

Lemma turns_assert U xs : Z.of_nat (length xs) < 2 ^ 32 -> turns U (assert_list xs) xs xs.
Proof.
  intros Hl s H. exists s. split; [|done]. pose proof H as (Hr & _). unfold assert_list.
  rewrite (bind_ok _ _ s (hd_or NULL xs) s) by (unfold gets; by rewrite (list_first_spec _ _ _ Hr)).
  rewrite (bind_ok _ _ _ _ _ (assert_loop_run s xs [] (Datatypes.S (length xs)) Hr ltac:(lia) Hl)). by rewrite Z.ltb_irrefl.
Qed.

Lemma init_turns a b c s : NULL ∉ [a; b; c] -> NoDup [a; b; c] -> Forall (fun e => is_Some (s.2 !! e)) [a; b; c] ->
  exists s', init_all a b c s = Ok tt s' /\ list_world [a; b; c] s' [].
Proof.
  intros Hnull Hnd Hm. destruct s as [l st]. cbn [snd] in Hm.
  apply Forall_cons in Hm as [Ha Hm]. apply Forall_cons in Hm as [Hb Hm]. apply Forall_cons in Hm as [Hc _].
  rewrite !NoDup_cons, !not_elem_of_cons in Hnd. destruct Hnd as ((? & ? & _) & (? & _) & _).
  destruct (list_entry_init_spec st a Ha) as (st1 & E1 & D1 & F1).
  destruct (list_entry_init_spec st1 b) as (st2 & E2 & D2 & F2); [rewrite F1 by set_solver; done|].
  destruct (list_entry_init_spec st2 c) as (st3 & E3 & D3 & F3); [rewrite F2, F1 by set_solver; done|].
  exists (list_init, st3). split.
  - unfold init_all, on_entry, bind, deref, modify. cbn [snd fst]. rewrite E1. cbn [snd fst]. rewrite E2. cbn [snd fst]. by rewrite E3.
  - apply list_world_intro; [apply list_init_rep|set_solver|done|]. intros e He _. rewrite !elem_of_cons, elem_of_nil in He.
    destruct He as [->|[->|[->|[] ] ] ]; [| |done].
    + eapply detached_frame; [exact F3|set_solver|]. eapply detached_frame; [exact F2|set_solver|done].
    + eapply detached_frame; [exact F3|set_solver|done].
Qed.

(** One call of a test after the other. *)
Ltac new_list := cbn [spec_op app]; rewrite ?filter_cons, ?filter_nil; repeat first [rewrite decide_True by congruence|rewrite decide_False by (intros Hne; congruence)]; cbn [app]; reflexivity.
Ltac list_call := first [apply turns_assert; cbn; lia|apply turns_append; [set_solver|new_list]|apply turns_delete; [set_solver|new_list] ].
Ltac list_test := repeat (eapply turns_bind; [list_call|]); list_call.

(** The tests of the lists pass, whatever the addresses of the entries are and whatever
    is in them before. *)
Theorem list_tests_pass a b c s : NULL ∉ [a; b; c] -> NoDup [a; b; c] -> Forall (fun e => is_Some (s.2 !! e)) [a; b; c] ->
  (exists s', test_list_add a b c s = Ok tt s') /\ (exists s', test_list_delete a b c s = Ok tt s') /\
  (exists s', test_list_append_same a b c s = Ok tt s').
Proof.
  intros Hnull Hnd Hm. destruct (init_turns a b c s Hnull Hnd Hm) as (s0 & E0 & H0).
  rewrite !NoDup_cons, !not_elem_of_cons in Hnd. destruct Hnd as ((? & ? & _) & (? & _) & _).
  assert (forall t xs, turns [a; b; c] t [] xs -> exists s', (run! init_all a b c in t) s = Ok tt s') as Hrun.
  { intros t xs Ht. destruct (Ht s0 H0) as (s1 & E1 & _). exists s1. by rewrite (bind_ok _ _ _ _ _ E0). }
  split; [|split]; (eapply Hrun).
  all: list_test.
Qed.
End ListTests.

Section IrqTests.
Context {S L : Type} `{LA : ListApi S L}.
Abbreviation irqs := (Irq.irqs (S := S) (L := L)).

Definition IRQ1 : Z := 8.

(** [handler_called] is a variable of the tests, elsewhere in memory than the table:
    [called] reads it and [set_called] writes it.  [irq_handler] is its function's address. *)
Context (called : irqs -> bool) (set_called : bool -> irqs -> irqs) (irq_handler : Z) (call : Z -> M irqs unit).

Definition test_assert (b : bool) : M irqs unit := if b then ret tt else fail AssertFail.
Definition irq_handler_body : M irqs unit := modify (set_called true).

Definition test_irq_register_handler : M irqs unit :=
  let! b := irq_register IRQ0 irq_handler in test_assert b.
Definition test_irq_register_unkown_handler : M irqs unit :=
  let! n := gets NUMBER_OF_IRQS in
  let! b := irq_register n irq_handler in test_assert (negb b).
Definition test_irq_handler_called : M irqs unit :=
  let! b := irq_register IRQ0 irq_handler in
  run! test_assert b in
  run! modify (set_called false) in
  run! do_irq call IRQ0 in
  let! b := gets called in test_assert b.
Definition test_irq_unregister_handler : M irqs unit :=
  let! b := irq_register IRQ0 irq_handler in
  run! test_assert b in
  let! b := irq_unregister IRQ0 irq_handler in test_assert b.
Definition test_irq_unregister_unkown_handler : M irqs unit :=
  let! b := irq_unregister IRQ1 irq_handler in
  run! test_assert (negb b) in
  let! n := gets NUMBER_OF_IRQS in
  let! b := irq_unregister n irq_handler in test_assert (negb b).
Definition test_irq_missing_handler : M irqs unit :=
  let! b := irq_register IRQ_HANDLER_MISSING irq_handler in
  run! test_assert b in
  run! modify (set_called false) in
  run! do_irq call IRQ0 in
  let! b := gets called in test_assert b.

(** A handler for an interrupt nobody has, and then the owner's release. *)
Lemma register_free (s : irqs) own n : table_of s own -> 0 <= n < NUMBER_OF_IRQS s -> in_u 8 n -> 0 < irq_handler -> own !! n = None ->
  exists s', irq_register n irq_handler s = Ok true s' /\ table_of s' (<[n := irq_handler]> own) /\ NUMBER_OF_IRQS s' = NUMBER_OF_IRQS s.
Proof.
  intros Ht Hn Hb Hh Ho. pose proof (irq_event_run call s own (Register n irq_handler) Ht (conj Hb Hh)) as H.
  simpl in H. rewrite decide_True in H by (split; [lia|done]). destruct H as (s' & E & Ht' & En & _). eauto.
Qed.

Lemma release_mine (s : irqs) own n b : table_of s own -> in_u 8 n -> 0 < irq_handler ->
  b = bool_decide (n < NUMBER_OF_IRQS s /\ own !! n = Some irq_handler) ->
  exists s', irq_unregister n irq_handler s = Ok b s' /\ NUMBER_OF_IRQS s' = NUMBER_OF_IRQS s.
Proof.
  intros Ht Hb Hh ->. pose proof (irq_event_run call s own (Unregister n irq_handler) Ht (conj Hb Hh)) as H.
  simpl in H. case_bool_decide; [rewrite decide_True in H by done|rewrite decide_False in H by done];
    destruct H as (s' & E & _ & En & _); eauto.
Qed.

Context (Hcall : call irq_handler = irq_handler_body) (Hset : forall b s, called (set_called b s) = b)
  (Hapart : forall b s, handlers (set_called b s) = handlers s).

(** With the table as [bootstrap] leaves it, where the hard fault has its handler and the
    first two interrupts have none, the tests pass but the last, which fails. *)
Theorem irq_tests_pass (s : irqs) own h : table_of s own -> 8 < NUMBER_OF_IRQS s < 2 ^ 8 -> 0 < irq_handler ->
  own !! IRQ0 = None -> own !! IRQ1 = None -> own !! IRQ_HARDFAULT = Some h ->
  (exists s', test_irq_register_handler s = Ok tt s') /\
  (exists s', test_irq_register_unkown_handler s = Ok tt s') /\
  (exists s', test_irq_handler_called s = Ok tt s') /\
  (exists s', test_irq_unregister_handler s = Ok tt s') /\
  (exists s', test_irq_unregister_unkown_handler s = Ok tt s') /\
  test_irq_missing_handler s = Fault AssertFail.
Proof.
  intros Ht Hn Hh H0 H1 Hf.
  destruct (register_free s own IRQ0 Ht) as (s1 & E1 & Ht1 & En1); [unfold IRQ0; lia|done|done|done|].
  split_and!.
  - exists s1. unfold test_irq_register_handler. by rewrite (bind_ok _ _ _ _ _ E1).
  - exists s. unfold test_irq_register_unkown_handler, bind, gets, irq_register, bind, gets.
    by rewrite Z.geb_leb, (proj2 (Z.leb_le _ _) (Z.le_refl _)).
  - unfold test_irq_handler_called. rewrite (bind_ok _ _ _ _ _ E1). rewrite (bind_ok _ _ s1 tt s1) by done.
    rewrite (bind_ok _ _ s1 tt (set_called false s1)) by done.
    assert (do_irq call IRQ0 (set_called false s1) = Ok tt (set_called true (set_called false s1))) as E2.
    { assert (NUMBER_OF_IRQS (set_called false s1) = NUMBER_OF_IRQS s) as En by (unfold NUMBER_OF_IRQS in *; by rewrite Hapart).
      rewrite (do_irq_run call (set_called false s1) (<[IRQ0 := irq_handler]> own)).
      - by rewrite lookup_insert_eq, Hcall.
      - intros m. rewrite En, <-En1, Hapart. apply Ht1.
      - rewrite En. unfold IRQ0. lia.
      - rewrite En. lia. }
    rewrite (bind_ok _ _ _ _ _ E2). eexists. unfold bind, gets. rewrite Hset. done.
  - destruct (release_mine s1 _ IRQ0 true Ht1) as (s2 & E2 & _); [done|done| |].
    { symmetry. apply bool_decide_true. split; [unfold IRQ0; lia|apply lookup_insert_eq]. }
    exists s2. unfold test_irq_unregister_handler. rewrite (bind_ok _ _ _ _ _ E1), (bind_ok _ _ s1 tt s1) by done.
    by rewrite (bind_ok _ _ _ _ _ E2).
  - destruct (release_mine s own IRQ1 false Ht) as (s2 & E2 & En2); [done|done| |].
    { symmetry. apply bool_decide_false. intros [_ ?]. congruence. }
    exists s2. unfold test_irq_unregister_unkown_handler. rewrite (bind_ok _ _ _ _ _ E2), (bind_ok _ _ s2 tt s2) by done.
    unfold bind, gets, irq_unregister, bind, gets. by rewrite Z.geb_leb, (proj2 (Z.leb_le _ _) (Z.le_refl _)).
  - destruct (Ht IRQ_HARDFAULT) as [Hl Hne]; [unfold IRQ_HARDFAULT; lia|]. rewrite Hf in Hl, Hne. simpl in Hl.
    unfold test_irq_missing_handler. rewrite (bind_ok _ _ s false s); [done|].
    unfold irq_register, bind, gets, IRQ_HANDLER_MISSING.
    destruct (Z.geb_spec IRQ_HARDFAULT (NUMBER_OF_IRQS s)); [done|].
    rewrite (get_handler_ok _ _ _ Hl). unfold truth. destruct (Z.eqb_spec h 0) as [->|]; [by destruct Hne|done].
Qed.
End IrqTests.
