(* ===== verification/Malloc.v ===== *)
(** * Malloc: the heap

    [core/malloc.c].  Memory is a finite map from the addresses of the heap's
    words, multiples of 4, to their values; an access to any other address
    (address 0 and addresses that are no multiple of 4, which the processor
    refuses, among them) is a [WildAccess].  The header of a free block at [p] is
    the word at [p], its size, and the word at [p + 4], the next free block; the
    header of an allocated block is its size. *)
From S2P Require Import Prelude Fw.

Record heap := mk_heap { mem : gmap Z Z; free_head : Z }.

Definition set_mem (h : heap) (m : gmap Z Z) : heap := mk_heap m (free_head h).
Definition set_free_head (p : Z) : M heap unit := modify (fun h => mk_heap (mem h) p).

Definition load (a : Z) : M heap Z := deref (fun h => mem h !! a).
Definition store (a v : Z) : M heap unit := fun h =>
  match mem h !! a with
  | Some _ => Ok tt (set_mem h (<[a := v]> (mem h)))
  | None => Fault WildAccess
  end.

(** [sizeof(struct free_header)] and [sizeof(struct malloc_header)] *)
Definition sizeof_free_header : Z := 8.
Definition sizeof_malloc_header : Z := 4.

Definition get_size (p : Z) : M heap Z := load p.
Definition get_next (p : Z) : M heap Z := load (p + 4).
Definition set_size (p v : Z) : M heap unit := store p v.
Definition set_next (p v : Z) : M heap unit := store (p + 4) v.

(** The end of [free_raw]: a block and its successor become one when they touch. *)
Definition free_coalesce (ptr : Z) : M heap unit :=
  let! pnext := get_next ptr in
  let! psize := get_size ptr in
  if truth pnext && (u32 (ptr + psize) =? pnext) then
    let! nsize := get_size pnext in
    run! set_size ptr (u32 (psize + nsize)) in
    let! nnext := get_next pnext in
    set_next ptr nnext
  else ret tt.

(** The body of the loop of [free_raw] at the block it stops at. *)
Definition free_insert (ptr block : Z) : M heap unit :=
  let! bsize := get_size block in
  let! ptr := (if u32 (block + bsize) =? ptr then
                 let! psize := get_size ptr in
                 run! set_size block (u32 (bsize + psize)) in
                 ret block
               else
                 let! bnext := get_next block in
                 run! set_next ptr bnext in
                 run! set_next block ptr in
                 ret ptr) in
  free_coalesce ptr.

Fixpoint free_loop (fuel : nat) (ptr block : Z) : M heap unit :=
  match fuel with
  | O => fail Diverges
  | S fuel =>
      if block =? NULL then ret tt
      else
        let! bnext := get_next block in
        if (block <? ptr) || (bnext =? NULL) then free_insert ptr block
        else free_loop fuel ptr bnext
  end.

(** The heap has as many words as the fuel, more than free blocks. *)
Definition fuel_of (h : heap) : nat := S (size (mem h)).

(** [free_raw] once the header of the block is written. *)
Definition free_place (ptr sz : Z) : M heap unit :=
  let! head := gets free_head in
  if head =? NULL then set_free_head ptr
  else
    run! (if ptr <? head then
            run! (if u32 (head + sz) =? ptr then
                    let! psize := get_size ptr in
                    let! hsize := get_size head in
                    run! set_size ptr (u32 (psize + hsize)) in
                    let! hnext := get_next head in
                    set_next ptr hnext
                  else set_next ptr head) in
            set_free_head ptr
          else ret tt) in
    let! head := gets free_head in
    let! fuel := gets fuel_of in
    free_loop fuel ptr head.

Definition free_raw (ptr sz : Z) : M heap unit :=
  run! assert_ (truth ptr) in
  run! assert_ (sizeof_free_header <=? sz) in
  run! set_size ptr sz in
  run! set_next ptr NULL in
  free_place ptr sz.

(** What both branches of [malloc_raw] do with a block that is large enough and
    already out of the list. *)
Definition split_block (ptr sz : Z) : M heap Z :=
  let! psize := get_size ptr in
  run! (if sizeof_free_header <=? u32 (psize - sz) then
          run! free_raw (u32 (ptr + sz)) (u32 (psize - sz)) in
          let! psize := get_size ptr in
          set_size ptr (u32 (psize - sz))
        else ret tt) in
  ret ptr.

Fixpoint malloc_loop (fuel : nat) (sz prev : Z) : M heap Z :=
  match fuel with
  | O => fail Diverges
  | S fuel =>
      let! ptr := get_next prev in
      if ptr =? NULL then ret NULL
      else
        let! psize := get_size ptr in
        if sz <=? psize then
          let! pnext := get_next ptr in
          run! set_next prev pnext in
          split_block ptr sz
        else malloc_loop fuel sz ptr
  end.

Definition malloc_raw (sz : Z) : M heap Z :=
  run! assert_ (sizeof_free_header <=? sz) in
  let! head := gets free_head in
  let! hsize := get_size head in
  if sz <=? hsize then
    let! hnext := get_next head in
    run! set_free_head hnext in
    split_block head sz
  else
    let! fuel := gets fuel_of in
    malloc_loop fuel sz head.

Definition malloc (sz : Z) : M heap Z :=
  let! ptr := malloc_raw (u32 (sizeof_malloc_header + sz)) in
  run! set_size ptr sz in
  ret (u32 (ptr + sizeof_malloc_header)).

Definition free (p : Z) : M heap unit :=
  let ptr := u32 (p - sizeof_malloc_header) in
  let! sz := get_size ptr in
  free_raw ptr (u32 (sz + sizeof_malloc_header)).

Fixpoint free_size_loop (fuel : nat) (ptr acc : Z) : M heap Z :=
  match fuel with
  | O => fail Diverges
  | S fuel =>
      if ptr =? NULL then ret acc
      else
        let! psize := get_size ptr in
        let! pnext := get_next ptr in
        free_size_loop fuel pnext (u32 (acc + psize))
  end.

Definition get_free_size : M heap Z :=
  let! head := gets free_head in
  let! fuel := gets fuel_of in
  free_size_loop fuel head 0.

Definition malloc_init (start end_ : Z) : M heap unit := free_raw start (u32 (end_ - start)).
