(* ===== verification/MallocSpec.v ===== *)
(** * MallocSpec: what the heap promises

    The free list as a list of blocks, the abstract allocator, and that
    [core/malloc.c] implements it as long as the free list stays sane. *)
From S2P Require Import Prelude Fw Malloc.

(** A block: its address and its size. *)
Abbreviation block := (Z * Z)%type.

Definition inside (b : block) (x : Z) : Prop := b.1 <= x < b.1 + b.2.
Definition apart2 (b c : block) : Prop := b.1 + b.2 <= c.1 \/ c.1 + c.2 <= b.1.

(** An aligned block of words of the heap, in the lower half of the addresses,
    where the memory map of the processor has its RAM. *)
Record wf_block (m : gmap Z Z) (b : block) : Prop := {
  wb_addr : 0 < b.1; wb_aligned : b.1 mod 4 = 0; wb_size : 8 <= b.2; wb_whole : b.2 mod 4 = 0;
  wb_top : b.1 + b.2 <= 2 ^ 31;
  wb_words : forall x, inside b x -> x mod 4 = 0 -> is_Some (m !! x) }.

Fixpoint apart (bs : list block) : Prop :=
  match bs with [] => True | b :: bs' => Forall (apart2 b) bs' /\ apart bs' end.

Definition wf_blocks (m : gmap Z Z) (bs : list block) : Prop := Forall (wf_block m) bs /\ apart bs.

(** [chain m p bs]: the free list that starts at [p] holds the blocks [bs]. *)
Fixpoint chain (m : gmap Z Z) (p : Z) (bs : list block) : Prop :=
  match bs with
  | [] => p = NULL
  | (a, n) :: bs' => p = a /\ m !! a = Some n /\ exists nx, m !! (a + 4) = Some nx /\ chain m nx bs'
  end.

(** ** The abstract allocator *)

(** A block and the first one of a list as one, when they touch. *)
Definition merge_next (b : block) (bs : list block) : list block :=
  match bs with
  | (a, n) :: bs' => if b.1 + b.2 =? a then (b.1, b.2 + n) :: bs' else b :: bs
  | [] => [b]
  end.

(** The blocks behind the first one below [p]. *)
Fixpoint behind (p : Z) (bs : list block) : list block :=
  match bs with [] => [] | (a, n) :: bs' => if a <? p then bs' else behind p bs' end.

(** Above the head a block goes behind the head; below the head it becomes the
    head, and the blocks up to the first one below it are lost. *)
Definition a_free (b : block) (bs : list block) : list block :=
  match bs with
  | [] => [b]
  | (a, n) :: bs' =>
      if a <? b.1 then
        if a + n =? b.1 then merge_next (a, n + b.2) bs' else (a, n) :: merge_next b bs'
      else merge_next b (behind b.1 bs)
  end.

(** First fit. *)
Fixpoint first_fit (n : Z) (bs : list block) : option (block * list block) :=
  match bs with
  | [] => None
  | b :: bs' =>
      if n <=? b.2 then Some (b, bs')
      else match first_fit n bs' with Some (c, r) => Some (c, b :: r) | None => None end
  end.

Definition a_malloc (n : Z) (bs : list block) : Z * list block :=
  match first_fit n bs with
  | None => (NULL, bs)
  | Some ((a, m), r) => (a, if 8 <=? m - n then a_free (a + n, m - n) r else r)
  end.

(** Freeing [b] is sound: it is above the head, or no free block ends where it
    starts. *)
Definition free_ok (b : block) (bs : list block) : Prop :=
  match bs with [] => True | (a, n) :: _ => a < b.1 \/ Forall (fun c => c.1 + c.2 <> b.1) bs end.

Definition total (bs : list block) : Z := foldr (fun b s => b.2 + s) 0 bs.

(** ** Blocks *)

Lemma apart2_sym b c : apart2 b c -> apart2 c b.
Proof. unfold apart2. lia. Qed.

Lemma apart_perm bs cs : bs ≡ₚ cs -> apart bs -> apart cs.
Proof.
  induction 1 as [|b bs cs Hp IH|b c bs|bs cs ds H1 IH1 H2 IH2]; simpl; try tauto.
  - intros [Hb Ha]. split; [by rewrite <-Hp|by apply IH].
  - rewrite !Forall_cons. intros [[Hbc Hc] [Hb Ha] ]. split; [split; [by apply apart2_sym|done]|done].
Qed.

Lemma wf_perm m bs cs : bs ≡ₚ cs -> wf_blocks m bs -> wf_blocks m cs.
Proof. intros Hp [Hw Ha]. split; [by rewrite <-Hp|by eapply apart_perm]. Qed.

Lemma wf_cons m b bs : wf_blocks m (b :: bs) <-> wf_block m b /\ Forall (apart2 b) bs /\ wf_blocks m bs.
Proof. unfold wf_blocks. simpl. rewrite Forall_cons. tauto. Qed.

Lemma wf_merge m a n k bs : wf_blocks m ((a, n) :: (a + n, k) :: bs) -> wf_blocks m ((a, n + k) :: bs).
Proof.
  rewrite !wf_cons, Forall_cons. intros (Hb & [_ Hf] & Hc & Hg & Hw). destruct Hb, Hc. simpl in *.
  split; [|split; [|done] ].
  - split; simpl; try lia.
    + rewrite Z.add_mod, wb_whole0, wb_whole1 by lia. done.
    + intros x Hx Hm. unfold inside in *. simpl in *. destruct (Z.ltb_spec x (a + n)); [apply wb_words0|apply wb_words1];
        (done || (unfold inside; simpl; lia)).
  - destruct Hw as [Hw _]. rewrite Forall_forall in *. intros c Hc. specialize (Hf c Hc). specialize (Hg c Hc).
    pose proof (wb_size m c (Hw c Hc)). unfold apart2 in *. simpl in *. lia.
Qed.

Lemma wf_drop m bs cs us : sublist cs bs -> wf_blocks m (bs ++ us) -> wf_blocks m (cs ++ us).
Proof.
  induction 1 as [|b cs bs Hs IH|b cs bs Hs IH]; [done|..]; simpl; rewrite !wf_cons.
  - intros (Hb & Hf & Hw). split; [done|]. split; [|by apply IH].
    rewrite Forall_app in *. destruct Hf as [Hf ?]. split; [|done].
    rewrite Forall_forall in *. intros c Hc. apply Hf. by eapply elem_of_submseteq; [|apply sublist_submseteq].
  - intros (_ & _ & Hw). by apply IH.
Qed.

Lemma wf_merge_next m b bs us : wf_blocks m (b :: bs ++ us) -> wf_blocks m (merge_next b bs ++ us).
Proof.
  destruct bs as [|[a n] bs]; [done|]. destruct b as [p k]. simpl. destruct (Z.eqb_spec (p + k) a) as [<-|]; [|done].
  apply wf_merge.
Qed.

Lemma behind_sublist p bs : sublist (behind p bs) bs.
Proof. induction bs as [|[a n] bs IH]; simpl; [done|]. destruct (a <? p); by constructor. Qed.

Lemma wf_a_free m b bs us : wf_blocks m (b :: bs ++ us) -> wf_blocks m (a_free b bs ++ us).
Proof.
  destruct bs as [|[a n] bs]; [done|]. destruct b as [p k]. intros Hw. unfold a_free. cbn [fst snd].
  destruct (Z.ltb_spec a p) as [Hlt|Hge]; [destruct (Z.eqb_spec (a + n) p) as [E|Hne]|].
  - apply wf_merge_next, wf_merge. rewrite E. eapply wf_perm; [|exact Hw]. apply Permutation_swap.
  - simpl. apply (wf_perm m (merge_next (p, k) bs ++ (a, n) :: us)); [by rewrite Permutation_middle|].
    apply wf_merge_next. eapply wf_perm; [|exact Hw]. simpl. by rewrite Permutation_middle.
  - apply wf_merge_next, (wf_drop m ((p, k) :: (a, n) :: bs) ((p, k) :: behind p ((a, n) :: bs))); [|done].
    constructor. apply behind_sublist.
Qed.

Lemma first_fit_spec n bs b r : first_fit n bs = Some (b, r) ->
  n <= b.2 /\ exists l1 l2, bs = l1 ++ b :: l2 /\ r = l1 ++ l2 /\ Forall (fun c => c.2 < n) l1.
Proof.
  revert b r. induction bs as [|c bs IH]; intros b r; simpl; [done|]. destruct (Z.leb_spec n c.2) as [Hle|Hgt].
  - intros [= <- <-]. split; [done|]. by exists [], bs.
  - destruct (first_fit n bs) as [ [d r']|]; [|done]. intros [= <- <-].
    destruct (IH d r' eq_refl) as (? & l1 & l2 & -> & -> & ?). split; [done|]. exists (c :: l1), l2. by repeat constructor.
Qed.

Lemma first_fit_none n bs : first_fit n bs = None -> Forall (fun c => c.2 < n) bs.
Proof.
  induction bs as [|c bs IH]; simpl; [by constructor|]. destruct (Z.leb_spec n c.2); [done|].
  destruct (first_fit n bs) as [ [d r']|]; [done|]. constructor; [done|by apply IH].
Qed.

(** Splitting a block. *)
Lemma wf_split m a k n bs : wf_blocks m ((a, k) :: bs) -> 8 <= n -> n mod 4 = 0 -> 8 <= k - n ->
  wf_blocks m ((a, n) :: (a + n, k - n) :: bs).
Proof.
  rewrite !wf_cons, Forall_cons. intros (Hb & Hf & Hw) Hn Hm Hr. destruct Hb. simpl in *.
  assert (Forall (apart2 (a, n)) bs /\ Forall (apart2 (a + n, k - n)) bs) as [Hf1 Hf2].
  { rewrite !Forall_forall in *. split; intros c Hc; specialize (Hf c Hc); unfold apart2 in *; simpl in *; lia. }
  split; [|split; [split; [left; simpl; lia|done]|split; [|split; [done|done] ] ] ]; split; simpl; try lia.
  - intros x Hx. apply wb_words0. unfold inside in *. simpl in *. lia.
  - rewrite Z.add_mod, wb_aligned0, Hm by lia. done.
  - rewrite Zminus_mod, wb_whole0, Hm. done.
  - intros x Hx. apply wb_words0. unfold inside in *. simpl in *. lia.
Qed.

Lemma wf_shrink m a k n bs : wf_blocks m ((a, k) :: bs) -> 8 <= n -> n mod 4 = 0 -> n <= k ->
  wf_blocks m ((a, n) :: bs).
Proof.
  rewrite !wf_cons. intros (Hb & Hf & Hw) Hn Hm Hr. destruct Hb. simpl in *. split; [|split; [|done] ].
  - split; simpl; try lia. intros x Hx. apply wb_words0. unfold inside in *. simpl in *. lia.
  - rewrite !Forall_forall in *. intros c Hc; specialize (Hf c Hc); unfold apart2 in *; simpl in *; lia.
Qed.

(** ** Memory *)

(** Only words inside the blocks [cs] differ. *)
Definition only (cs : list block) (m m' : gmap Z Z) : Prop :=
  (forall y, Forall (fun c => ~ inside c y) cs -> m' !! y = m !! y) /\
  (forall y, is_Some (m !! y) -> is_Some (m' !! y)).

Lemma only_refl cs m : only cs m m.
Proof. done. Qed.

Lemma only_trans cs m1 m2 m3 : only cs m1 m2 -> only cs m2 m3 -> only cs m1 m3.
Proof. intros [H1 D1] [H2 D2]. split; [|by eauto]. intros y Hy. by rewrite H2, H1. Qed.

Lemma only_mono cs ds m m' : cs ⊆ ds -> only cs m m' -> only ds m m'.
Proof.
  intros Hs [H D]. split; [|done]. intros y Hy. apply H. rewrite Forall_forall in *. auto.
Qed.

Lemma only_insert c m x v : is_Some (m !! x) -> inside c x -> only [c] m (<[x := v]> m).
Proof.
  intros Hx Hc. split.
  - intros y Hy. rewrite lookup_insert_ne; [done|]. intros <-. by apply Forall_cons in Hy as [Hy _].
  - intros y Hy. destruct (decide (x = y)) as [<-|]; [rewrite lookup_insert_eq; eauto|by rewrite lookup_insert_ne].
Qed.

Lemma wf_only cs m m' bs : only cs m m' -> wf_blocks m bs -> wf_blocks m' bs.
Proof.
  intros [_ D] [Hw Ha]. split; [|done]. eapply Forall_impl; [exact Hw|]. intros b []. split; eauto.
Qed.

Lemma inside_header m b : wf_block m b -> inside b b.1 /\ inside b (b.1 + 4).
Proof. intros []. unfold inside. lia. Qed.

Lemma header_words m b : wf_block m b -> is_Some (m !! b.1) /\ is_Some (m !! (b.1 + 4)).
Proof.
  intros Hb. destruct (inside_header m b Hb). destruct Hb. split; apply wb_words0; try done.
  rewrite Z.add_mod, wb_aligned0 by lia. done.
Qed.

Lemma apart_outside c b y : apart2 c b -> inside b y -> ~ inside c y.
Proof. unfold apart2, inside. lia. Qed.

Lemma only_lookup cs m m' b y : only cs m m' -> Forall (apart2 b) cs -> inside b y -> m' !! y = m !! y.
Proof.
  intros [H _] Hf Hy. apply H. rewrite Forall_forall in *. intros c Hc. eapply apart_outside; [apply apart2_sym, Hf|]; done.
Qed.

Lemma chain_only cs m m' p bs :
  only cs m m' -> wf_blocks m bs -> Forall (fun b => Forall (apart2 b) cs) bs -> chain m p bs -> chain m' p bs.
Proof.
  intros Ho. revert p. induction bs as [|[a n] bs IH]; intros p; [done|]. rewrite wf_cons, Forall_cons.
  intros (Hb & _ & Hw) [Hf Hfs] (-> & Hs & nx & Hn & Hc). destruct (inside_header m _ Hb) as [H1 H2]. simpl in *.
  split; [done|]. split; [by rewrite (only_lookup _ _ _ _ _ Ho Hf H1)|].
  exists nx. split; [by rewrite (only_lookup _ _ _ _ _ Ho Hf H2)|]. by apply IH.
Qed.

Lemma chain_head m p bs : wf_blocks m bs -> chain m p bs -> p = NULL <-> bs = [].
Proof.
  destruct bs as [|[a n] bs]; simpl; [done|]. rewrite wf_cons. intros (Hb & _) (-> & _). destruct Hb. simpl in *.
  split; [unfold NULL; lia|done].
Qed.

Lemma load_run h a v : mem h !! a = Some v -> load a h = Ok v h.
Proof. apply (deref_ok (fun h => mem h !! a)). Qed.

Lemma store_run h a v : is_Some (mem h !! a) -> store a v h = Ok tt (set_mem h (<[a := v]> (mem h))).
Proof. intros [w E]. unfold store. by rewrite E. Qed.

(** There are more words than blocks. *)
Lemma blocks_fuel m bs : wf_blocks m bs -> (length bs <= size m)%nat.
Proof.
  intros Hw. assert (NoDup bs.*1) as Hn.
  { induction bs as [|b bs IH]; simpl; [constructor|]. rewrite wf_cons in Hw. destruct Hw as (Hb & Hf & Hw).
    constructor; [|by apply IH]. intros (c & E & Hc)%list_elem_of_fmap. rewrite Forall_forall in Hf. specialize (Hf c Hc).
    destruct Hw as [Hw _]. rewrite Forall_forall in Hw. pose proof (wb_size m c (Hw c Hc)). pose proof (wb_size m b Hb).
    unfold apart2 in Hf. lia. }
  rewrite <-(length_fmap fst), <-(size_list_to_set (C := gset Z) _ Hn), <-(size_dom (D := gset Z)).
  apply subseteq_size. intros a Ha%elem_of_list_to_set. apply elem_of_dom.
  apply list_elem_of_fmap in Ha as (b & -> & Hb). destruct Hw as [Hw _]. rewrite Forall_forall in Hw.
  by apply header_words, Hw.
Qed.

(** ** Freeing *)

Lemma store_header h c x v : wf_block (mem h) c -> x = c.1 \/ x = c.1 + 4 ->
  store x v h = Ok tt (set_mem h (<[x := v]> (mem h))) /\ only [c] (mem h) (<[x := v]> (mem h)).
Proof.
  intros Hc Hx. destruct (header_words _ _ Hc), (inside_header _ _ Hc).
  assert (is_Some (mem h !! x) /\ inside c x) as [? ?] by (by destruct Hx as [-> | ->]).
  split; [by apply store_run|by apply only_insert].
Qed.

(** Setting the successor of a block that is apart from a list. *)
Lemma chain_link m (p n nx : Z) bs : wf_blocks m ((p, n) :: bs) -> m !! p = Some n -> chain m nx bs ->
  chain (<[p + 4 := nx]> m) p ((p, n) :: bs).
Proof.
  rewrite wf_cons. intros (Hb & Hf & Hw) Hp Hc. simpl. split; [done|].
  rewrite lookup_insert_ne by lia. split; [done|]. exists nx. rewrite lookup_insert_eq. split; [done|].
  eapply (chain_only [(p, n)]); [|exact Hw| |exact Hc].
  - apply only_insert; [by apply (header_words _ _ Hb)|by apply (inside_header _ _ Hb)].
  - rewrite Forall_forall in *. intros c Hc'. apply Forall_singleton, apart2_sym, Hf, Hc'.
Qed.

(** Setting the size of a block that heads a list. *)
Lemma chain_resize m (p n k : Z) bs : wf_blocks m ((p, n) :: bs) -> chain m p ((p, n) :: bs) ->
  chain (<[p := k]> m) p ((p, k) :: bs).
Proof.
  rewrite wf_cons. intros (Hb & Hf & Hw) (_ & Hp & nx & Hn & Hc). simpl. split; [done|].
  rewrite lookup_insert_eq. split; [done|]. exists nx. rewrite lookup_insert_ne by lia. split; [done|].
  eapply (chain_only [(p, n)]); [|exact Hw| |exact Hc].
  - apply only_insert; [by apply (header_words _ _ Hb)|by apply (inside_header _ _ Hb)].
  - rewrite Forall_forall in *. intros c Hc'. apply Forall_singleton, apart2_sym, Hf, Hc'.
Qed.

Lemma coalesce_run h q n bs : wf_blocks (mem h) ((q, n) :: bs) -> chain (mem h) q ((q, n) :: bs) ->
  exists m', free_coalesce q h = Ok tt (set_mem h m') /\ chain m' q (merge_next (q, n) bs) /\
    only [(q, n)] (mem h) m'.
Proof.
  intros Hw Hc. pose proof Hc as (_ & Hs & nx & Hn & Hc').
  pose proof (proj1 (wf_cons _ _ _) Hw) as (Hb & Hf & Hw').
  assert ((forall a k t, bs = (a, k) :: t -> q + n <> a) ->
    free_coalesce q h = Ok tt (set_mem h (mem h)) /\ merge_next (q, n) bs = (q, n) :: bs) as Hno.
  { intros Hne. split.
    - unfold free_coalesce, get_next, get_size. rewrite (bind_ok _ _ _ _ _ (load_run h _ _ Hn)).
      rewrite (bind_ok _ _ _ _ _ (load_run h _ _ Hs)). replace (truth nx && (u32 (q + n) =? nx)) with false; [by destruct h|].
      symmetry. apply andb_false_iff. destruct bs as [|[a k] t]; [left; by rewrite Hc'|right].
      destruct Hc' as [-> _]. apply Z.eqb_neq. destruct Hb. simpl in *. rewrite wrap_id by (unfold in_u; lia). by eapply Hne.
    - destruct bs as [|[a k] t]; [done|]. simpl. by rewrite (proj2 (Z.eqb_neq _ _) (Hne a k t eq_refl)). }
  destruct bs as [|[a k] t]; [|destruct (decide (q + n = a)) as [<-|Hne] ].
  - destruct (Hno ltac:(done)) as [E1 E2]. exists (mem h). rewrite E1, E2. done.
  - destruct Hc' as (-> & Hk & nx2 & Hn2 & Hc2).
    pose proof (wf_merge _ _ _ _ _ Hw) as Hwm. pose proof (proj1 (wf_cons _ _ _) Hwm) as (Hbm & _ & _).
    destruct (store_header h (q, n) q (n + k) Hb) as [E1 O1]; [by left|].
    set (h1 := set_mem h (<[q := n + k]> (mem h))) in *.
    assert (wf_block (mem h1) (q, n)) as Hb1 by (eapply wf_only in Hw; [|exact O1]; by apply wf_cons in Hw as (? & _)).
    destruct (store_header h1 (q, n) (q + 4) nx2 Hb1) as [E2 O2]; [by right|].
    exists (<[q + 4 := nx2]> (mem h1)). split; [|split].
    + unfold free_coalesce, get_next, get_size, set_size, set_next. rewrite (bind_ok _ _ _ _ _ (load_run h _ _ Hn)).
      rewrite (bind_ok _ _ _ _ _ (load_run h _ _ Hs)).
      apply wf_cons in Hw' as (Hbk & _ & _). destruct Hb, Hbm, Hbk. simpl in *.
      rewrite (wrap_id 32 (q + n)) by (unfold in_u; lia). rewrite Z.eqb_refl.
      replace (truth (q + n)) with true by (unfold truth; lia). cbn [andb].
      rewrite (bind_ok _ _ _ _ _ (load_run h _ _ Hk)). rewrite (wrap_id 32 (n + k)) by (unfold in_u; lia).
      rewrite (bind_ok _ _ _ _ _ E1).
      rewrite (bind_ok _ _ h1 nx2 h1); [exact E2|]. apply load_run. simpl. rewrite lookup_insert_ne by lia. done.
    + simpl merge_next. rewrite Z.eqb_refl. apply chain_link; [by eapply wf_only; [|exact Hwm] |by simpl; rewrite lookup_insert_eq|].
      eapply (chain_only [(q, n)]); [exact O1|by apply wf_cons in Hw' as (_ & _ & ?)| |exact Hc2].
      apply Forall_cons in Hf as [_ Hf]. rewrite Forall_forall in *. intros c Hc'. apply Forall_singleton, apart2_sym, Hf, Hc'.
    + by eapply only_trans.
  - destruct (Hno ltac:(by intros a' k' t' [= -> -> ->])) as [E1 E2]. exists (mem h). rewrite E1, E2. done.
Qed.

Lemma only_cover cs ds m m' :
  (forall y, Forall (fun c => ~ inside c y) ds -> Forall (fun c => ~ inside c y) cs) -> only cs m m' -> only ds m m'.
Proof. intros Hs [H D]. split; [|done]. intros y Hy. by apply H, Hs. Qed.

Lemma insert_apart h p n x k t :
  wf_blocks (mem h) ((p, n) :: (x, k) :: t) -> mem h !! p = Some n -> chain (mem h) x ((x, k) :: t) -> x + k <> p ->
  exists m', free_insert p x h = Ok tt (set_mem h m') /\ chain m' p (merge_next (p, n) t) /\
    m' !! x = Some k /\ m' !! (x + 4) = Some p /\ only [(p, n); (x, k)] (mem h) m'.
Proof.
  intros Hw Hp (_ & Hs & nx & Hn & Hc) Hne.
  pose proof (proj1 (wf_cons _ _ _) Hw) as (Hb & Hf & Hw1). pose proof (proj1 (wf_cons _ _ _) Hw1) as (Hbx & Hfx & Hw2).
  apply Forall_cons in Hf as [Hpx Hf].
  assert (wf_blocks (mem h) ((p, n) :: t)) as Hwp by (apply wf_cons; done).
  destruct (store_header h (p, n) (p + 4) nx Hb) as [E1 O1]; [by right|].
  pose proof (chain_link _ _ _ _ _ Hwp Hp Hc) as C1. set (h1 := set_mem h (<[p + 4 := nx]> (mem h))) in *.
  pose proof (wf_only _ _ _ _ O1 Hw1) as Hw1'. pose proof (proj1 (wf_cons _ _ _) Hw1') as (Hbx1 & _).
  destruct (store_header h1 (x, k) (x + 4) p Hbx1) as [E2 O2]; [by right|].
  set (h2 := set_mem h1 (<[x + 4 := p]> (mem h1))) in *.
  assert (chain (mem h2) p ((p, n) :: t)) as C2.
  { eapply (chain_only [(x, k)]); [exact O2|by eapply wf_only; [exact O1|]| |exact C1].
    constructor; [by apply Forall_singleton|]. rewrite Forall_forall in *. intros c Hc'.
    apply Forall_singleton, apart2_sym, Hfx, Hc'. }
  assert (wf_blocks (mem h2) ((p, n) :: t)) as Hw3 by (eapply wf_only; [exact O2|by eapply wf_only; [exact O1|] ]).
  destruct (coalesce_run h2 p n t Hw3 C2) as (m' & E3 & C3 & O3).
  assert (forall y, inside (x, k) y -> m' !! y = mem h2 !! y) as Hxm.
  { intros y Hy. eapply only_lookup; [exact O3| |exact Hy]. by apply Forall_singleton, apart2_sym. }
  destruct (inside_header _ _ Hbx) as [I1 I2]. cbn [fst] in I1, I2.
  exists m'. split; [|split; [exact C3|split; [|split] ] ].
  - unfold free_insert, get_size, get_next, set_next. rewrite (bind_ok _ _ _ _ _ (load_run h _ _ Hs)).
    destruct Hb, Hbx. simpl in *. rewrite wrap_id by (unfold in_u; lia). rewrite (proj2 (Z.eqb_neq _ _) Hne).
    rewrite (bind_ok _ _ h p h2); [exact E3|].
    rewrite (bind_ok _ _ _ _ _ (load_run h _ _ Hn)). rewrite (bind_ok _ _ _ _ _ E1). by rewrite (bind_ok _ _ _ _ _ E2).
  - rewrite Hxm by done. simpl. rewrite lookup_insert_ne by lia. rewrite lookup_insert_ne; [done|].
    intros E. apply (apart_outside (p, n) (x, k) x Hpx I1). destruct Hb. unfold inside. simpl in *. lia.
  - rewrite Hxm by done. simpl. by rewrite lookup_insert_eq.
  - eapply only_trans; [|eapply only_trans]; (eapply only_mono; [|eassumption]); set_solver.
Qed.

Lemma insert_join h p n x k t :
  wf_blocks (mem h) ((p, n) :: (x, k) :: t) -> mem h !! p = Some n -> chain (mem h) x ((x, k) :: t) -> x + k = p ->
  exists m', free_insert p x h = Ok tt (set_mem h m') /\ chain m' x (merge_next (x, k + n) t) /\
    only [(p, n); (x, k)] (mem h) m'.
Proof.
  intros Hw Hp Hc <-. pose proof Hc as (_ & Hs & _).
  pose proof (proj1 (wf_cons _ _ _) Hw) as (Hb & Hf & Hw1). pose proof (proj1 (wf_cons _ _ _) Hw1) as (Hbx & Hfx & Hw2).
  assert (wf_blocks (mem h) ((x, k + n) :: t)) as Hwm.
  { apply wf_merge. eapply wf_perm; [apply Permutation_swap|exact Hw]. }
  destruct (store_header h (x, k) x (k + n) Hbx) as [E1 O1]; [by left|].
  pose proof (chain_resize _ _ _ (k + n) _ Hw1 Hc) as C1. set (h1 := set_mem h (<[x := k + n]> (mem h))) in *.
  destruct (coalesce_run h1 x (k + n) t (wf_only _ _ _ _ O1 Hwm) C1) as (m' & E2 & C2 & O2).
  exists m'. split; [|split; [exact C2|] ].
  - unfold free_insert, get_size, set_size. rewrite (bind_ok _ _ _ _ _ (load_run h _ _ Hs)).
    apply wf_cons in Hwm as (Hbm & _). destruct Hb, Hbx, Hbm. simpl in *. rewrite (wrap_id 32 (x + k)) by (unfold in_u; lia).
    rewrite Z.eqb_refl. rewrite (bind_ok _ _ h x h1); [exact E2|].
    rewrite (bind_ok _ _ _ _ _ (load_run h _ _ Hp)). rewrite (wrap_id 32 (k + n)) by (unfold in_u; lia).
    by rewrite (bind_ok _ _ _ _ _ E1).
  - eapply only_trans; [eapply only_mono; [|exact O1]; set_solver|]. eapply only_cover; [|exact O2].
    intros y. rewrite !Forall_cons. unfold inside. simpl. intros (? & ? & _). split; [lia|constructor].
Qed.

(** The loop stops at the first block below [p], or at the last one. *)
Lemma free_loop_run h p bs blk fuel :
  wf_blocks (mem h) bs -> chain (mem h) blk bs -> bs <> [] -> (length bs <= fuel)%nat ->
  exists l x k, free_loop fuel p blk h = free_insert p x h /\ bs = l ++ (x, k) :: behind p bs /\
    chain (mem h) x ((x, k) :: behind p bs) /\ Forall (fun c => ~ c.1 < p) l.
Proof.
  revert blk fuel. induction bs as [|[a n] bs IH]; intros blk fuel Hw Hc Hne Hf; [done|].
  destruct fuel as [|fuel]; [simpl in Hf; lia|]. pose proof Hc as (-> & Hs & nx & Hn & Hc').
  apply wf_cons in Hw as (Hb & _ & Hw). simpl free_loop. destruct Hb as [Ha _ _ _ _ _]. simpl in Ha.
  rewrite (proj2 (Z.eqb_neq a NULL)) by (unfold NULL; lia). unfold get_next. rewrite (bind_ok _ _ _ _ _ (load_run h _ _ Hn)).
  simpl. destruct (Z.ltb_spec a p) as [Hlt|Hge]; simpl.
  - by exists [], a, n.
  - destruct (Z.eqb_spec nx NULL) as [E|E]; pose proof (chain_head _ _ _ Hw Hc') as Hh.
    + assert (bs = []) as -> by tauto. exists [], a, n. split; [done|]. split; [done|]. split; [exact Hc|constructor].
    + destruct (IH nx fuel Hw Hc') as (l & x & k & E1 & E2 & C & Hl); [tauto|simpl in Hf; lia|].
      exists ((a, n) :: l), x, k. split; [done|]. split; [simpl; by f_equal|]. split; [done|]. constructor; [simpl; lia|done].
Qed.

Lemma free_prologue h p n : wf_block (mem h) (p, n) ->
  exists h2, free_raw p n h = free_place p n h2 /\ free_head h2 = free_head h /\ mem h2 !! p = Some n /\
    mem h2 !! (p + 4) = Some NULL /\ only [(p, n)] (mem h) (mem h2).
Proof.
  intros Hb. destruct (store_header h (p, n) p n Hb) as [E1 O1]; [by left|].
  set (h1 := set_mem h (<[p := n]> (mem h))) in *.
  assert (wf_blocks (mem h1) [(p, n)]) as Hw1.
  { eapply wf_only; [exact O1|]. apply wf_cons. split; [done|]. split; [constructor|done]. }
  apply wf_cons in Hw1 as (Hb1 & _).
  destruct (store_header h1 (p, n) (p + 4) NULL Hb1) as [E2 O2]; [by right|].
  exists (set_mem h1 (<[p + 4 := NULL]> (mem h1))). split; [|split; [done|split; [|split] ] ].
  - unfold free_raw. destruct Hb. simpl in *. replace (truth p) with true by (unfold truth; lia).
    replace (sizeof_free_header <=? n) with true by (unfold sizeof_free_header; lia).
    rewrite (bind_ok _ _ h tt h) by done. rewrite (bind_ok _ _ h tt h) by done.
    unfold set_size. rewrite (bind_ok _ _ _ _ _ E1). unfold set_next. by rewrite (bind_ok _ _ _ _ _ E2).
  - simpl. rewrite lookup_insert_ne by lia. by rewrite lookup_insert_eq.
  - simpl. by rewrite lookup_insert_eq.
  - eapply only_trans; [exact O1|exact O2].
Qed.

(** A block above the head of the free list. *)
Lemma free_above h p n a m t :
  wf_blocks (mem h) ((p, n) :: (a, m) :: t) -> mem h !! p = Some n ->
  chain (mem h) a ((a, m) :: t) -> free_head h = a -> a < p ->
  exists h', free_place p n h = Ok tt h' /\ chain (mem h') (free_head h') (a_free (p, n) ((a, m) :: t)) /\
    only ((p, n) :: (a, m) :: t) (mem h) (mem h').
Proof.
  intros Hw Hp Hc Eh Hlt. pose proof (proj1 (wf_cons _ _ _) Hw) as (_ & _ & Hwb).
  pose proof (proj1 (wf_cons _ _ _) Hwb) as (Hba & _). destruct Hba as [Ha _ _ _ _ _]. cbn [fst] in Ha.
  assert (free_place p n h = free_insert p a h) as ->.
  { unfold free_place. rewrite (bind_ok _ _ h a h) by (unfold gets; by rewrite Eh).
    rewrite (proj2 (Z.eqb_neq a NULL)) by (unfold NULL; lia). rewrite (proj2 (Z.ltb_ge p a)) by lia.
    rewrite (bind_ok _ _ h tt h) by done. rewrite (bind_ok _ _ h a h) by (unfold gets; by rewrite Eh).
    rewrite (bind_ok _ _ h (S (size (mem h))) h) by done. cbn [free_loop].
    rewrite (proj2 (Z.eqb_neq a NULL)) by (unfold NULL; lia). pose proof Hc as (_ & _ & nx & Hn & _).
    unfold get_next at 1. rewrite (bind_ok _ _ _ _ _ (load_run h _ _ Hn)). by rewrite (proj2 (Z.ltb_lt _ _) Hlt). }
  simpl a_free. rewrite (proj2 (Z.ltb_lt _ _) Hlt). destruct (Z.eqb_spec (a + m) p) as [E|E].
  - destruct (insert_join h p n a m t Hw Hp Hc E) as (m' & Er & C & O).
    exists (set_mem h m'). split; [exact Er|]. split; [simpl; by rewrite Eh|]. eapply only_mono; [|exact O]. set_solver.
  - destruct (insert_apart h p n a m t Hw Hp Hc E) as (m' & Er & C & Hs' & Hn' & O).
    exists (set_mem h m'). split; [exact Er|]. split; [simpl; rewrite Eh; by eauto|]. eapply only_mono; [|exact O]. set_solver.
Qed.

(** A block below the head of the free list. *)
Lemma free_below h p n a m t :
  wf_blocks (mem h) ((p, n) :: (a, m) :: t) -> mem h !! p = Some n -> is_Some (mem h !! (p + 4)) ->
  chain (mem h) a ((a, m) :: t) -> free_head h = a -> p < a -> free_ok (p, n) ((a, m) :: t) ->
  exists h', free_place p n h = Ok tt h' /\ chain (mem h') (free_head h') (a_free (p, n) ((a, m) :: t)) /\
    only ((p, n) :: (a, m) :: t) (mem h) (mem h').
Proof.
  intros Hw Hp Hp4 Hc Eh Hlt Hok. pose proof (proj1 (wf_cons _ _ _) Hw) as (Hb & Hf & Hwb).
  pose proof (proj1 (wf_cons _ _ _) Hwb) as (Hba & _).
  pose proof (only_insert (p, n) _ (p + 4) a Hp4 (proj2 (inside_header _ _ Hb))) as O3.
  set (h3 := mk_heap (<[p + 4 := a]> (mem h)) p). change (<[p + 4 := a]> (mem h)) with (mem h3) in O3.
  pose proof (wf_only _ _ _ _ O3 Hw) as Hw3. pose proof (proj1 (wf_cons _ _ _) Hw3) as (_ & _ & Hwb3).
  assert (chain (mem h3) a ((a, m) :: t)) as C3.
  { eapply (chain_only [(p, n)]); [exact O3|exact Hwb| |exact Hc].
    rewrite Forall_forall in *. intros c Hc'. apply Forall_singleton, apart2_sym, Hf, Hc'. }
  destruct (free_loop_run h3 p ((a, m) :: t) a (size (mem h3)) Hwb3 C3) as (l & x & k & Er & El & C & _);
    [done|by apply blocks_fuel|].
  destruct Hb as [Hp0 _ Hp8 _ Hptop _], Hba as [Ha _ Ha8 _ Htop _]. cbn [fst snd] in *.
  assert (free_place p n h = free_insert p x h3) as Erun.
  { rewrite <-Er. unfold free_place. rewrite (bind_ok _ _ h a h) by (unfold gets; by rewrite Eh).
    rewrite (proj2 (Z.eqb_neq a NULL)) by (unfold NULL; lia). rewrite (proj2 (Z.ltb_lt _ _) Hlt).
    rewrite (bind_ok _ _ h tt h3).
    2:{ apply Forall_cons in Hf as [Hpa _]. unfold apart2 in Hpa. cbn [fst snd] in Hpa.
        rewrite wrap_id by (unfold in_u; lia). rewrite (proj2 (Z.eqb_neq (a + n) p)) by lia.
        unfold set_next. by rewrite (bind_ok _ _ _ _ _ (store_run h _ a Hp4)). }
    rewrite (bind_ok _ _ h3 p h3) by done. rewrite (bind_ok _ _ h3 (S (size (mem h3))) h3) by done. cbn [free_loop].
    rewrite (proj2 (Z.eqb_neq p NULL)) by (unfold NULL; lia).
    unfold get_next at 1. rewrite (bind_ok _ _ h3 a h3) by (apply load_run; simpl; by rewrite lookup_insert_eq).
    by rewrite Z.ltb_irrefl, (proj2 (Z.eqb_neq a NULL)) by (unfold NULL; lia). }
  assert (forall c r, (a, m) :: t = l ++ c :: r -> c ∈ (a, m) :: t /\ sublist (c :: r) ((a, m) :: t)) as Hsub.
  { intros c r ->. split; [set_solver|by apply sublist_inserts_l]. }
  destruct (Hsub _ _ El) as [Hin Hs].
  assert (x + k <> p) as Hxk.
  { destruct Hok as [Hok|Hok]; [simpl in Hok; lia|]. rewrite Forall_forall in Hok. by apply (Hok (x, k)). }
  assert (wf_blocks (mem h3) ((p, n) :: (x, k) :: behind p ((a, m) :: t))) as Hwx.
  { pose proof (wf_drop (mem h3) ((p, n) :: (a, m) :: t) ((p, n) :: (x, k) :: behind p ((a, m) :: t)) []) as Hd.
    rewrite !app_nil_r in Hd. apply Hd; [by constructor|exact Hw3]. }
  assert (mem h3 !! p = Some n) as Hp3 by (simpl; by rewrite lookup_insert_ne by lia).
  destruct (insert_apart h3 p n x k _ Hwx Hp3 C Hxk) as (m' & Er' & C' & _ & _ & O).
  exists (set_mem h3 m'). split; [by rewrite Erun|]. split.
  - cbn [a_free fst snd]. by rewrite (proj2 (Z.ltb_ge a p)) by lia.
  - eapply only_trans; [eapply only_mono; [|exact O3]; set_solver|]. eapply only_mono; [|exact O].
    intros c [->|[->|[] %not_elem_of_nil]%elem_of_cons]%elem_of_cons; [left|by right].
Qed.

Lemma free_raw_run h p n bs :
  wf_blocks (mem h) ((p, n) :: bs) -> chain (mem h) (free_head h) bs -> free_ok (p, n) bs ->
  exists h', free_raw p n h = Ok tt h' /\ chain (mem h') (free_head h') (a_free (p, n) bs) /\
    only ((p, n) :: bs) (mem h) (mem h').
Proof.
  intros Hw Hc Hok. pose proof (proj1 (wf_cons _ _ _) Hw) as (Hb & Hf & Hwb).
  destruct (free_prologue h p n Hb) as (h2 & -> & Eh & Hp & Hn & O).
  pose proof (wf_only _ _ _ _ O Hw) as Hw2.
  assert (chain (mem h2) (free_head h2) bs) as C2.
  { rewrite Eh. eapply (chain_only [(p, n)]); [exact O|exact Hwb| |exact Hc].
    rewrite Forall_forall in *. intros c Hc'. apply Forall_singleton, apart2_sym, Hf, Hc'. }
  destruct bs as [|[a m] t].
  - eexists. split; [unfold free_place; rewrite (bind_ok _ _ h2 NULL h2) by (unfold gets; by rewrite C2); reflexivity|].
    split; [simpl; by eauto|exact O].
  - pose proof C2 as [Ea _]. rewrite Ea in C2. apply Forall_cons in Hf as [Hpa _].
    apply wf_cons in Hwb as (Hba & _). destruct Hba, Hb. unfold apart2 in Hpa. cbn [fst snd] in *.
    assert (exists h', free_place p n h2 = Ok tt h' /\ chain (mem h') (free_head h') (a_free (p, n) ((a, m) :: t)) /\
      only ((p, n) :: (a, m) :: t) (mem h2) (mem h')) as (h' & E & C & O').
    { destruct (Z.lt_ge_cases a p); [by apply free_above|apply free_below; try done; lia]. }
    exists h'. split; [done|]. split; [done|]. eapply only_trans; [|exact O']. eapply only_mono; [|exact O]. set_solver.
Qed.

(** ** Allocating *)

(** What is free after [n] bytes are taken from the front of a block. *)
Definition a_split (n : Z) (b : block) (r : list block) : list block :=
  if 8 <=? b.2 - n then a_free (b.1 + n, b.2 - n) r else r.

Lemma split_free_ok m a k n r : wf_blocks m ((a, k) :: r) -> 8 <= n <= k -> free_ok (a + n, k - n) r.
Proof.
  intros Hw Hn. destruct r as [|[b j] r]; [done|]. right. apply wf_cons in Hw as (_ & Hf & [Hw _]).
  rewrite Forall_forall in *. intros c Hc. specialize (Hf c Hc). pose proof (wb_size m c (Hw c Hc)).
  unfold apart2 in Hf. simpl in *. lia.
Qed.

Lemma split_block_run h a k n r :
  wf_blocks (mem h) ((a, k) :: r) -> mem h !! a = Some k -> chain (mem h) (free_head h) r ->
  8 <= n <= k -> n mod 4 = 0 ->
  exists h', split_block a n h = Ok a h' /\ chain (mem h') (free_head h') (a_split n (a, k) r) /\
    only ((a, k) :: r) (mem h) (mem h').
Proof.
  intros Hw Ha Hc Hn Hm. pose proof (proj1 (wf_cons _ _ _) Hw) as (Hb & Hf & Hwr).
  unfold split_block, get_size. rewrite (bind_ok _ _ _ _ _ (load_run h _ _ Ha)).
  pose proof Hb as [Hp0 _ _ _ Htop _]. cbn [fst snd] in *. unfold a_split. cbn [fst snd].
  rewrite (wrap_id 32 (k - n)) by (unfold in_u; lia). rewrite (wrap_id 32 (a + n)) by (unfold in_u; lia).
  unfold sizeof_free_header. destruct (Z.leb_spec 8 (k - n)) as [Hle|Hgt].
  - pose proof (wf_split _ _ _ n _ Hw ltac:(lia) Hm Hle) as Hws. apply wf_cons in Hws as (Hba & Hfa & Hws).
    destruct (free_raw_run h (a + n) (k - n) r Hws Hc (split_free_ok _ _ _ _ _ Hw Hn)) as (h1 & E1 & C1 & O1).
    assert (wf_block (mem h1) (a, n)) as Hb1.
    { assert (wf_blocks (mem h) [(a, n)]) as Hx by (apply wf_cons; split; [done|split; [constructor|done] ]).
      eapply wf_only in Hx; [|exact O1]. by apply wf_cons in Hx as (? & _). }
    assert (mem h1 !! a = Some k) as Ha1.
    { rewrite <-Ha. eapply only_lookup; [exact O1|exact Hfa|]. apply (inside_header _ _ Hba). }
    destruct (store_header h1 (a, n) a (k - n) Hb1) as [E2 O2]; [by left|].
    exists (set_mem h1 (<[a := k - n]> (mem h1))). split; [|split].
    + erewrite bind_ok; [reflexivity|]. rewrite (bind_ok _ _ h tt h1) by exact E1.
      rewrite (bind_ok _ _ _ _ _ (load_run h1 _ _ Ha1)). rewrite wrap_id by (unfold in_u; lia). exact E2.
    + assert (wf_blocks (mem h) ((a, n) :: a_free (a + n, k - n) r)) as Hwa.
      { eapply (wf_perm _ (a_free (a + n, k - n) r ++ [(a, n)])); [by rewrite Permutation_app_comm|].
        apply wf_a_free. eapply (wf_perm _ ((a, n) :: (a + n, k - n) :: r)); [|by apply wf_cons].
        rewrite app_comm_cons, Permutation_app_comm. done. }
      eapply wf_only in Hwa; [|exact O1]. apply wf_cons in Hwa as (_ & Hfx & Hwx).
      eapply (chain_only [(a, n)]); [exact O2|exact Hwx| |exact C1].
      rewrite Forall_forall in *. intros c Hc'. apply Forall_singleton, apart2_sym, Hfx, Hc'.
    + eapply only_trans; [eapply only_cover; [|exact O1]|eapply only_cover; [|exact O2] ].
      * intros y. rewrite !Forall_cons. unfold inside. simpl. intros [? ?]. split; [lia|done].
      * intros y. rewrite !Forall_cons. unfold inside. simpl. intros [? ?]. split; [lia|constructor].
  - exists h. split; [done|]. split; [done|apply only_refl].
Qed.

Lemma malloc_loop_run h prev kp n bs fuel :
  wf_blocks (mem h) ((prev, kp) :: bs) -> chain (mem h) prev ((prev, kp) :: bs) -> (length bs < fuel)%nat ->
  match first_fit n bs with
  | None => malloc_loop fuel n prev h = Ok NULL h
  | Some ((a, k), r) =>
      exists m1, malloc_loop fuel n prev h = split_block a n (set_mem h m1) /\
        m1 !! a = Some k /\ chain m1 prev ((prev, kp) :: r) /\ only ((prev, kp) :: bs) (mem h) m1
  end.
Proof.
  revert prev kp fuel. induction bs as [|[c k] bs IH]; intros prev kp fuel Hw Hc Hf;
    (destruct fuel as [|fuel]; [simpl in Hf; lia|]); pose proof Hc as (_ & Hs & nx & Hn & Hc').
  - simpl. unfold get_next at 1. rewrite (bind_ok _ _ _ _ _ (load_run h _ _ Hn)). by rewrite Hc'.
  - pose proof Hc' as (-> & Hk & nx2 & Hn2 & Hc2).
    pose proof (proj1 (wf_cons _ _ _) Hw) as (Hbp & Hfp & Hwc). pose proof (proj1 (wf_cons _ _ _) Hwc) as (Hbc & Hfc & Hwb).
    assert (malloc_loop (S fuel) n prev h =
      (if n <=? k then let! pnext := get_next c in run! set_next prev pnext in split_block c n
       else malloc_loop fuel n c) h) as Estep.
    { cbn [malloc_loop]. unfold get_next at 1, get_size at 1. rewrite (bind_ok _ _ _ _ _ (load_run h _ _ Hn)).
      destruct Hbc as [Hc0 _ _ _ _ _]. cbn [fst] in Hc0. rewrite (proj2 (Z.eqb_neq c NULL)) by (unfold NULL; lia).
      by rewrite (bind_ok _ _ _ _ _ (load_run h _ _ Hk)). }
    rewrite !Estep. clear Estep. cbn [first_fit snd]. apply Forall_cons in Hfp as [Hpc Hfp].
    assert (wf_blocks (mem h) ((prev, kp) :: bs)) as Hwpb by (by apply wf_cons).
    destruct (Z.leb_spec n k) as [Hle|Hgt].
    + pose proof (header_words _ _ Hbp) as [_ Hp4].
      exists (<[prev + 4 := nx2]> (mem h)).
      assert (only [(prev, kp)] (mem h) (<[prev + 4 := nx2]> (mem h))) as O
        by (apply only_insert; [done|by apply (inside_header _ _ Hbp)]).
      split; [|split; [|split] ].
      * unfold get_next at 1. rewrite (bind_ok _ _ _ _ _ (load_run h _ _ Hn2)). unfold set_next.
        by rewrite (bind_ok _ _ _ _ _ (store_run h _ nx2 Hp4)).
      * rewrite <-Hk. eapply only_lookup; [exact O|by apply Forall_singleton, apart2_sym|].
        by apply (inside_header _ _ Hbc).
      * by apply chain_link.
      * eapply only_mono; [|exact O]. set_solver.
    + specialize (IH c k fuel Hwc Hc' ltac:(simpl in Hf; lia)). destruct (first_fit n bs) as [[[a k'] r]|]; [|exact IH].
      destruct IH as (m1 & E & Hm1 & C1 & O1). exists m1. split; [exact E|]. split; [exact Hm1|].
      split; [|eapply only_mono; [|exact O1]; set_solver].
      assert (forall y, inside (prev, kp) y -> m1 !! y = mem h !! y) as Hprev.
      { intros y Hy. eapply only_lookup; [exact O1| |exact Hy]. by constructor. }
      destruct (inside_header _ _ Hbp) as [I1 I2]. split; [done|]. split; [by rewrite Hprev|]. exists c. split; [by rewrite Hprev|done].
Qed.

Lemma wf_first_fit m n bs b r us : first_fit n bs = Some (b, r) -> wf_blocks m (bs ++ us) -> wf_blocks m (b :: r ++ us).
Proof.
  intros Hff. apply first_fit_spec in Hff as (_ & l1 & l2 & -> & -> & _). apply wf_perm.
  rewrite app_comm_cons. by rewrite (Permutation_middle l1 l2 b).
Qed.

Lemma malloc_raw_run h n bs :
  wf_blocks (mem h) bs -> chain (mem h) (free_head h) bs -> bs <> [] -> 8 <= n -> n mod 4 = 0 ->
  exists h', malloc_raw n h = Ok (a_malloc n bs).1 h' /\ chain (mem h') (free_head h') (a_malloc n bs).2 /\
    only bs (mem h) (mem h').
Proof.
  intros Hw Hc Hne Hn Hm. destruct bs as [|[a k] bs]; [done|]. pose proof Hc as (Eh & Hk & nx & Hnx & Hc').
  unfold malloc_raw. replace (sizeof_free_header <=? n) with true by (unfold sizeof_free_header; lia).
  rewrite (bind_ok _ _ h tt h) by done. rewrite (bind_ok _ _ h a h) by (unfold gets; by rewrite Eh).
  unfold get_size at 1. rewrite (bind_ok _ _ _ _ _ (load_run h _ _ Hk)).
  unfold a_malloc. cbn [first_fit snd]. destruct (Z.leb_spec n k) as [Hle|Hgt].
  - unfold get_next at 1. rewrite (bind_ok _ _ _ _ _ (load_run h _ _ Hnx)).
    rewrite (bind_ok _ _ h tt (mk_heap (mem h) nx)) by done.
    destruct (split_block_run (mk_heap (mem h) nx) a k n bs Hw Hk Hc') as (h' & E & C & O); [lia|done|].
    by exists h'.
  - rewrite (bind_ok _ _ h (S (size (mem h))) h) by done.
    pose proof (malloc_loop_run h a k n bs (S (size (mem h))) Hw) as Hl. rewrite Eh in Hc. specialize (Hl Hc).
    destruct (first_fit n bs) as [[[a' k'] r]|] eqn:Eff.
    + destruct Hl as (m1 & E & Hk' & C & O); [pose proof (blocks_fuel _ _ Hw) as Hb; simpl in Hb; lia|].
      pose proof (first_fit_spec _ _ _ _ Eff) as (Hle & l1 & l2 & Ebs & Er & _). cbn [snd] in Hle.
      assert (wf_blocks m1 ((a', k') :: (a, k) :: r)) as Hw1.
      { eapply wf_only; [exact O|]. eapply wf_perm; [apply Permutation_swap|]. eapply wf_perm; [|exact Hw].
        subst bs r. constructor. by rewrite <-Permutation_middle. }
      destruct (split_block_run (set_mem h m1) a' k' n ((a, k) :: r) Hw1 Hk') as (h' & E' & C' & O');
        [change (chain m1 (free_head h) ((a, k) :: r)); by rewrite Eh|lia|done|].
      exists h'. split; [by rewrite E|]. split; [exact C'|].
      eapply only_trans; [exact O|]. eapply only_mono; [|exact O']. subst bs r. set_solver.
    + exists h. rewrite Hl by (pose proof (blocks_fuel _ _ Hw) as Hb; simpl in Hb; lia).
      split; [done|]. split; [simpl; by rewrite Eh|apply only_refl].
Qed.
