(* ===== verification/MallocRun.v ===== *)
(** * MallocRun: runs of the heap, and what it loses *)
From S2P Require Import Prelude Fw Malloc MallocSpec.

(** What a client does: allocate, free, and write to memory it was given. *)
Inductive heap_op :=
| HMalloc (n : Z)
| HFree (a n : Z)
| HWrite (x v : Z).

Definition without (b : block) (us : list block) : list block := filter (fun c => c <> b) us.

(** A run, with the blocks in use. *)
Definition heap_step (o : heap_op) (us : list block) : M heap (list block) :=
  match o with
  | HMalloc n => let! p := malloc_raw n in ret (if p =? NULL then us else (p, n) :: us)
  | HFree a n => run! free_raw a n in ret (without (a, n) us)
  | HWrite x v => run! store x v in ret us
  end.

Fixpoint heap_run (os : list heap_op) (us : list block) : M heap (list block) :=
  match os with
  | [] => ret us
  | o :: os' => let! us' := heap_step o us in heap_run os' us'
  end.

(** The same on the abstract allocator: the free list and the blocks in use. *)
Definition a_step (s : list block * list block) (o : heap_op) : list block * list block :=
  let (fs, us) := s in
  match o with
  | HMalloc n => let (p, fs') := a_malloc n fs in (fs', if p =? NULL then us else (p, n) :: us)
  | HFree a n => (a_free (a, n) fs, without (a, n) us)
  | HWrite x v => (fs, us)
  end.

(** Sizes are multiples of 4, the free list is not exhausted, only blocks in use
    are freed, soundly, and only they are written. *)
Definition ok_op (s : list block * list block) (o : heap_op) : Prop :=
  match o with
  | HMalloc n => 8 <= n /\ n mod 4 = 0 /\ s.1 <> []
  | HFree a n => (a, n) ∈ s.2 /\ free_ok (a, n) s.1
  | HWrite x v => x mod 4 = 0 /\ Exists (fun b => inside b x) s.2
  end.

Fixpoint ok_ops (s : list block * list block) (os : list heap_op) : Prop :=
  match os with [] => True | o :: os' => ok_op s o /\ ok_ops (a_step s o) os' end.

#[export] Instance inside_dec b x : Decision (inside b x).
Proof. unfold inside. apply _. Defined.
#[export] Instance apart2_dec b c : Decision (apart2 b c).
Proof. unfold apart2. apply _. Defined.
#[export] Instance free_ok_dec b bs : Decision (free_ok b bs).
Proof. destruct bs as [|[a n] bs]; simpl; apply _. Defined.
#[export] Instance ok_op_dec s o : Decision (ok_op s o).
Proof. destruct o; simpl; apply _. Defined.
#[export] Instance ok_ops_dec s os : Decision (ok_ops s os).
Proof. revert s. induction os as [|o os IH]; intros s; simpl; apply _. Defined.

(** The operation leaves the word [x] of block [b] alone. *)
Definition spares (b : block) (x : Z) (o : heap_op) : Prop :=
  match o with HMalloc _ => True | HFree a n => (a, n) <> b | HWrite y _ => y <> x end.

Definition heap_inv (h : heap) (s : list block * list block) : Prop :=
  chain (mem h) (free_head h) s.1 /\ wf_blocks (mem h) (s.1 ++ s.2).

Lemma wf_app m bs cs : wf_blocks m (bs ++ cs) ->
  wf_blocks m bs /\ wf_blocks m cs /\ forall b c, b ∈ bs -> c ∈ cs -> apart2 b c.
Proof.
  induction bs as [|b bs IH]; simpl; [intros Hw; split; [by split; [constructor|]|split; [done|set_solver] ]|].
  rewrite !wf_cons, Forall_app. intros (Hb & [Hf1 Hf2] & Hw). destruct (IH Hw) as (H1 & H2 & H3).
  split; [done|]. split; [done|]. intros b' c [->|Hb']%elem_of_cons Hc; [|by apply H3].
  rewrite Forall_forall in Hf2. by apply Hf2.
Qed.

Lemma without_perm m b us : wf_blocks m us -> b ∈ us -> us ≡ₚ b :: without b us.
Proof.
  intros Hw Hin. assert (NoDup us) as Hnd.
  { clear Hin. induction us as [|c us IH]; [constructor|]. apply wf_cons in Hw as (Hc & Hf & Hw).
    constructor; [|by apply IH]. intros Hin. rewrite Forall_forall in Hf. specialize (Hf c Hin).
    pose proof (wb_size m c Hc). unfold apart2 in Hf. lia. }
  apply NoDup_Permutation; [done|constructor; [unfold without; rewrite list_elem_of_filter; tauto|by apply NoDup_filter]|].
  intros c. rewrite elem_of_cons. unfold without. rewrite list_elem_of_filter. destruct (decide (c = b)) as [->|]; tauto.
Qed.

(** An operation on the free blocks [bs] leaves blocks in use alone. *)
Lemma only_used cs m m' (us : list block) b x :
  only cs m m' -> (forall c, c ∈ cs -> apart2 b c) -> inside b x -> m' !! x = m !! x.
Proof. intros Ho Hc Hx. eapply only_lookup; [exact Ho|by apply Forall_forall|exact Hx]. Qed.

Lemma malloc_step h fs us n :
  heap_inv h (fs, us) -> ok_op (fs, us) (HMalloc n) ->
  exists h', heap_step (HMalloc n) us h = Ok (a_step (fs, us) (HMalloc n)).2 h' /\
    heap_inv h' (a_step (fs, us) (HMalloc n)) /\
    forall b x, b ∈ us -> inside b x -> mem h' !! x = mem h !! x.
Proof.
  intros [Hc Hw] (Hn & Hm & Hne). simpl in *. destruct (wf_app _ _ _ Hw) as (Hwf & Hwu & Hap).
  destruct (malloc_raw_run h n fs Hwf Hc Hne Hn Hm) as (h' & E & C & O).
  pose proof (surjective_pairing (a_malloc n fs)) as Ep. destruct (a_malloc n fs) as [p fs'] eqn:Ea. cbn [fst snd] in *.
  exists h'. split; [by rewrite (bind_ok _ _ _ _ _ E)|].
  split; [|intros b x Hb Hx; eapply only_used; [exact us|exact O|intros c Hc'; by apply apart2_sym, Hap|exact Hx] ].
  split; [exact C|]. eapply wf_only; [exact O|]. cbn [fst snd].
  unfold a_malloc in Ea. destruct (first_fit n fs) as [[[a k] r]|] eqn:Eff.
  - injection Ea as <- <-. pose proof (wf_first_fit _ _ _ _ _ us Eff Hw) as Hwr.
    apply first_fit_spec in Eff as (Hle & _). cbn [snd] in Hle.
    pose proof (proj1 (wf_cons _ _ _) Hwr) as (Hb & _). destruct Hb as [Ha _ _ _ _ _]. cbn [fst] in Ha.
    rewrite (proj2 (Z.eqb_neq a NULL)) by (unfold NULL; lia). destruct (Z.leb_spec 8 (k - n)).
    + apply wf_split with (n := n) in Hwr; [|lia|done|lia].
      eapply (wf_perm _ (a_free (a + n, k - n) r ++ (a, n) :: us)); [done|]. apply wf_a_free.
      eapply wf_perm; [|exact Hwr]. rewrite <-(Permutation_middle r us (a, n)). apply Permutation_swap.
    + apply wf_shrink with (n := n) in Hwr; [|lia|done|lia]. eapply wf_perm; [|exact Hwr]. by rewrite Permutation_middle.
  - injection Ea as <- <-. exact Hw.
Qed.

Lemma free_step h fs us a n :
  heap_inv h (fs, us) -> ok_op (fs, us) (HFree a n) ->
  exists h', heap_step (HFree a n) us h = Ok (a_step (fs, us) (HFree a n)).2 h' /\
    heap_inv h' (a_step (fs, us) (HFree a n)) /\
    forall b x, b ∈ us -> (a, n) <> b -> inside b x -> mem h' !! x = mem h !! x.
Proof.
  intros [Hc Hw] [Hin Hok]. simpl in *. destruct (wf_app _ _ _ Hw) as (Hwf & Hwu & Hap).
  pose proof (without_perm _ _ _ Hwu Hin) as Hp.
  assert (wf_blocks (mem h) ((a, n) :: fs ++ without (a, n) us)) as Hw'.
  { eapply wf_perm; [|exact Hw]. rewrite Hp at 1. by rewrite Permutation_middle. }
  destruct (wf_app _ ((a, n) :: fs) (without (a, n) us) Hw') as (Hwa & _ & Hap').
  destruct (free_raw_run h a n fs Hwa Hc Hok) as (h' & E & C & O).
  exists h'. split; [by rewrite (bind_ok _ _ _ _ _ E)|]. split.
  - split; [exact C|]. eapply wf_only; [exact O|]. by apply wf_a_free.
  - intros b x Hb Hne Hx. eapply only_used; [exact us|exact O| |exact Hx]. intros c Hc'. apply apart2_sym, Hap'; [done|].
    unfold without. rewrite list_elem_of_filter. done.
Qed.

Lemma write_step h fs us x v :
  heap_inv h (fs, us) -> ok_op (fs, us) (HWrite x v) ->
  exists h', heap_step (HWrite x v) us h = Ok us h' /\ heap_inv h' (fs, us) /\
    forall y, y <> x -> mem h' !! y = mem h !! y.
Proof.
  intros [Hc Hw] (Hx & (b & Hin & Hb)%Exists_exists). simpl in *. destruct (wf_app _ _ _ Hw) as (Hwf & Hwu & Hap).
  assert (is_Some (mem h !! x)) as Hs.
  { destruct Hwu as [Hwu _]. rewrite Forall_forall in Hwu. by apply (Hwu b Hin). }
  pose proof (only_insert b _ x v Hs Hb) as O.
  eexists. split; [by rewrite (bind_ok _ _ _ _ _ (store_run h x v Hs))|]. split; [split|].
  - eapply (chain_only [b]); [exact O|exact Hwf| |exact Hc]. apply Forall_forall. intros c Hc'. apply Forall_singleton. by apply Hap.
  - eapply wf_only; [exact O|exact Hw].
  - intros y Hy. simpl. by rewrite lookup_insert_ne.
Qed.

Lemma heap_run_refines h s os :
  heap_inv h s -> ok_ops s os ->
  exists h', heap_run os s.2 h = Ok (foldl a_step s os).2 h' /\ heap_inv h' (foldl a_step s os) /\
    forall b x, b ∈ s.2 -> inside b x -> Forall (spares b x) os -> mem h' !! x = mem h !! x.
Proof.
  revert h s. induction os as [|o os IH]; intros h [fs us] Hi Hok; [by exists h|].
  destruct Hok as [Ho Hos].
  assert (exists h1, heap_step o us h = Ok (a_step (fs, us) o).2 h1 /\ heap_inv h1 (a_step (fs, us) o) /\
    forall b x, b ∈ us -> inside b x -> spares b x o ->
      mem h1 !! x = mem h !! x /\ b ∈ (a_step (fs, us) o).2) as (h1 & E1 & I1 & F1).
  { destruct o as [n|a n|x v].
    - destruct (malloc_step h fs us n Hi Ho) as (h1 & E & I & F). exists h1. split; [done|]. split; [done|].
      intros b x Hb Hx _. split; [by eapply F|]. simpl. destruct (a_malloc n fs) as [p fs']. simpl.
      destruct (p =? NULL); [done|by right].
    - destruct (free_step h fs us a n Hi Ho) as (h1 & E & I & F). exists h1. split; [done|]. split; [done|].
      intros b x Hb Hx Hs. split; [by eapply F|]. simpl. unfold without. rewrite list_elem_of_filter. by split; [apply not_eq_sym|].
    - destruct (write_step h fs us x v Hi Ho) as (h1 & E & I & F). exists h1. split; [done|]. split; [done|].
      intros b y Hb Hy Hs. split; [by apply F, not_eq_sym|done]. }
  destruct (IH h1 _ I1 Hos) as (h' & E & I & F). exists h'. split; [|split; [exact I|] ].
  - simpl heap_run. rewrite (bind_ok _ _ _ _ _ E1). exact E.
  - intros b x Hb Hx Hs. apply Forall_cons in Hs as [Hs1 Hs]. destruct (F1 b x Hb Hx Hs1) as [<- Hin]. by apply (F b x).
Qed.

(** Memory that is not there does not appear. *)
Definition no_new {A} (c : M heap A) : Prop := forall h a h', c h = Ok a h' -> forall x, mem h !! x = None -> mem h' !! x = None.

Create HintDb no_new.
Lemma no_new_ret {A} (a : A) : no_new (ret a). Proof. by intros h b h' [= _ <-]. Qed.
Lemma no_new_fail {A} f : no_new (fail f : M heap A). Proof. by intros h b h'. Qed.
Lemma no_new_gets {A} (f : heap -> A) : no_new (gets f). Proof. by intros h b h' [= _ <-]. Qed.
Lemma no_new_load a : no_new (load a). Proof. intros h b h'. unfold load, deref. by case_match; [intros [= _ <-]|]. Qed.
Lemma no_new_assert b : no_new (assert_ b : M heap unit). Proof. destruct b; [apply no_new_ret|apply no_new_fail]. Qed.
Lemma no_new_head p : no_new (set_free_head p). Proof. by intros h b h' [= _ <-]. Qed.
Lemma no_new_store a v : no_new (store a v).
Proof.
  intros h b h'. unfold store. destruct (mem h !! a) eqn:E; [|done]. intros [= _ <-] x Hx. cbn. rewrite lookup_insert_ne; [done|congruence].
Qed.
Lemma no_new_bind {A B} (c : M heap A) (k : A -> M heap B) : no_new c -> (forall a, no_new (k a)) -> no_new (bind c k).
Proof. intros Hc Hk h b h'. unfold bind. destruct (c h) as [a h1|] eqn:E1; [|done]. intros E2 x Hx. eapply Hk; [exact E2|]. by eapply Hc. Qed.
Lemma no_new_if {A} (b : bool) (c d : M heap A) : no_new c -> no_new d -> no_new (if b then c else d). Proof. by destruct b. Qed.
#[local] Hint Resolve no_new_ret no_new_fail no_new_gets no_new_load no_new_assert no_new_head no_new_store no_new_bind no_new_if : no_new.
#[local] Hint Extern 0 (no_new (get_size _)) => apply no_new_load : no_new.
#[local] Hint Extern 0 (no_new (get_next _)) => apply no_new_load : no_new.
#[local] Hint Extern 0 (no_new (set_size _ _)) => apply no_new_store : no_new.
#[local] Hint Extern 0 (no_new (set_next _ _)) => apply no_new_store : no_new.

Lemma no_new_free fuel p b : no_new (free_loop fuel p b).
Proof. revert b. induction fuel as [|fuel IH]; intros b; cbn [free_loop]; unfold free_insert, free_coalesce; auto 20 with no_new. Qed.
Lemma no_new_free_raw p n : no_new (free_raw p n).
Proof. unfold free_raw, free_place. auto 20 using no_new_free with no_new. Qed.
Lemma no_new_split p n : no_new (split_block p n).
Proof. unfold split_block. auto 20 using no_new_free_raw with no_new. Qed.
Lemma no_new_malloc n : no_new (malloc_raw n).
Proof.
  assert (forall fuel sz prev, no_new (malloc_loop fuel sz prev)) as Hl.
  { intros fuel. induction fuel as [|fuel IH]; intros sz prev; cbn [malloc_loop]; auto 20 using no_new_split with no_new. }
  unfold malloc_raw. auto 20 using no_new_split with no_new.
Qed.

Lemma no_new_run os us : no_new (heap_run os us).
Proof.
  revert us. induction os as [|o os IH]; intros us; cbn [heap_run]; [apply no_new_ret|]. apply no_new_bind; [|done].
  destruct o; cbn [heap_step]; auto using no_new_malloc, no_new_free_raw with no_new.
Qed.

Lemma malloc_empty h n : free_head h = NULL -> mem h !! NULL = None -> 8 <= n -> malloc_raw n h = Fault WildAccess.
Proof.
  intros Hh Hm Hn. unfold malloc_raw. rewrite (proj2 (Z.leb_le _ n)) by (unfold sizeof_free_header; lia).
  rewrite (bind_ok _ _ h tt h) by done. rewrite (bind_ok _ _ h NULL h) by (unfold gets; by rewrite Hh).
  unfold get_size, load, bind, deref. by rewrite Hm.
Qed.

(** C10: the heap implements first fit over disjoint blocks.  Take a sequence of
    allocations, each of at least 8 bytes, a multiple of 4, and made while some block is
    free; of frees of blocks in use, each above the head of the free list or where no
    free block ends; and of writes to blocks in use.  From a consistent heap it runs to its
    end without a wild access, to a heap whose free list and blocks in use are those of
    the abstract allocator, all disjoint; and a word of a block in use keeps its value
    until its owner writes it or frees the block.  An allocation that finds the free
    list empty is a wild access: [malloc_raw] reads the size of a block at NULL. *)
Theorem heap_refines h s os :
  heap_inv h s -> ok_ops s os -> mem h !! NULL = None ->
  exists h', heap_run os s.2 h = Ok (foldl a_step s os).2 h' /\ heap_inv h' (foldl a_step s os) /\
    (forall b x, b ∈ s.2 -> inside b x -> Forall (spares b x) os -> mem h' !! x = mem h !! x) /\
    ((foldl a_step s os).1 = [] -> forall n, 8 <= n -> malloc_raw n h' = Fault WildAccess).
Proof.
  intros Hi Hok Hnull. destruct (heap_run_refines h s os Hi Hok) as (h' & E & I & F). exists h'. split; [exact E|]. split; [exact I|].
  split; [exact F|]. intros Hempty n Hn. destruct I as [Hc _]. rewrite Hempty in Hc. apply malloc_empty; [exact Hc| |exact Hn].
  by apply (no_new_run os s.2 h _ h' E).
Qed.

(** ** The heap at boot *)

(** The words from [start], [n] of them, with whatever is in them. *)
Fixpoint words_from (junk : Z -> Z) (start : Z) (n : nat) : gmap Z Z :=
  match n with O => ∅ | S n => <[start := junk start]> (words_from junk (start + 4) n) end.

Lemma words_from_lookup junk start n x : start <= x < start + 4 * Z.of_nat n -> (x - start) mod 4 = 0 ->
  is_Some (words_from junk start n !! x).
Proof.
  revert start. induction n as [|n IH]; intros start Hx Hm; [lia|]. simpl.
  destruct (decide (start = x)) as [->|Hne]; [rewrite lookup_insert_eq; eauto|]. rewrite lookup_insert_ne by done.
  apply Z.mod_divide in Hm as [q Hq]; [|lia]. apply IH; [lia|].
  replace (x - (start + 4)) with ((q - 1) * 4) by lia. apply Z_mod_mult.
Qed.

Definition boot_heap (junk : Z -> Z) (start : Z) (n : nat) : heap := mk_heap (words_from junk start n) NULL.

Lemma boot_wf junk start n : 0 < start -> start mod 4 = 0 -> (2 <= n)%nat -> start + 4 * Z.of_nat n <= 2 ^ 31 ->
  wf_block (words_from junk start n) (start, 4 * Z.of_nat n).
Proof.
  intros Hs Hm Hn Ht. split; simpl; try lia.
  - rewrite Z.mul_comm. apply Z_mod_mult.
  - intros x Hx Hxm. apply words_from_lookup; [exact Hx|]. rewrite Zminus_mod, Hm, Hxm. done.
Qed.

(** [malloc_init] makes all of the heap one free block. *)
Theorem malloc_init_spec junk start n :
  0 < start -> start mod 4 = 0 -> (2 <= n)%nat -> start + 4 * Z.of_nat n <= 2 ^ 31 ->
  exists h', malloc_init start (start + 4 * Z.of_nat n) (boot_heap junk start n) = Ok tt h' /\
    heap_inv h' ([(start, 4 * Z.of_nat n)], []).
Proof.
  intros Hs Hm Hn Ht. pose proof (boot_wf junk start n Hs Hm Hn Ht) as Hb.
  assert (wf_blocks (words_from junk start n) [(start, 4 * Z.of_nat n)]) as Hw
    by (apply wf_cons; split; [done|split; [constructor|done] ]).
  destruct (free_raw_run (boot_heap junk start n) start (4 * Z.of_nat n) [] Hw eq_refl I) as (h' & E & C & O).
  exists h'. split; [|split; [exact C|eapply wf_only; [exact O|exact Hw] ] ].
  unfold malloc_init. rewrite wrap_id by (unfold in_u; lia). by replace (start + 4 * Z.of_nat n - start) with (4 * Z.of_nat n) by lia.
Qed.

(** ** What is free *)

Lemma free_size_run h p bs fuel acc :
  wf_blocks (mem h) bs -> chain (mem h) p bs -> (length bs < fuel)%nat ->
  free_size_loop fuel p acc h = Ok (if bool_decide (bs = []) then acc else u32 (acc + total bs)) h.
Proof.
  revert p fuel acc. induction bs as [|[a n] bs IH]; intros p fuel acc Hw Hc Hf;
    (destruct fuel as [|fuel]; [simpl in Hf; lia|]); cbn [free_size_loop].
  - by rewrite Hc.
  - destruct Hc as (-> & Hs & nx & Hn & Hc). apply wf_cons in Hw as ([Ha _ _ _ _ _] & _ & Hw). simpl in Ha.
    rewrite (proj2 (Z.eqb_neq a NULL)) by (unfold NULL; lia). unfold get_size, get_next.
    rewrite (bind_ok _ _ _ _ _ (load_run h _ _ Hs)), (bind_ok _ _ _ _ _ (load_run h _ _ Hn)).
    rewrite IH by (done || (simpl in Hf; lia)). rewrite (bool_decide_false (_ :: _ = [])) by done.
    unfold total. cbn [foldr snd]. fold (total bs). case_bool_decide as Hbs; [by rewrite Hbs, Z.add_0_r|].
    by rewrite wrap_add_l, Z.add_assoc.
Qed.

Lemma get_free_size_run h bs : wf_blocks (mem h) bs -> chain (mem h) (free_head h) bs ->
  get_free_size h = Ok (u32 (total bs)) h.
Proof.
  intros Hw Hc. unfold get_free_size. rewrite (bind_ok _ _ h (free_head h) h) by done.
  rewrite (bind_ok _ _ h (S (size (mem h))) h) by done.
  rewrite (free_size_run h (free_head h) bs) by (done || (pose proof (blocks_fuel _ _ Hw); lia)).
  by destruct bs.
Qed.

Lemma total_merge b bs : total (merge_next b bs) = b.2 + total bs.
Proof. destruct bs as [|[a n] bs]; simpl; [lia|]. destruct (b.1 + b.2 =? a); simpl; lia. Qed.

(** [free_raw] of a block above the head of the free list returns all of it:
    [get_free_size] terminates before and after, and grows by the size of the
    block (modulo 2^32). *)
Theorem free_returns_block h p n fs :
  wf_blocks (mem h) ((p, n) :: fs) -> chain (mem h) (free_head h) fs -> 0 < free_head h < p ->
  exists h', free_raw p n h = Ok tt h' /\
    get_free_size h = Ok (u32 (total fs)) h /\ get_free_size h' = Ok (u32 (total fs + n)) h'.
Proof.
  intros Hw Hc Hh. pose proof (proj1 (wf_cons _ _ _) Hw) as (_ & _ & Hwf).
  destruct fs as [|[a m] fs]; [simpl in Hc; rewrite Hc in Hh; unfold NULL in Hh; lia|].
  pose proof Hc as [Ea _]. rewrite Ea in Hh.
  destruct (free_raw_run h p n _ Hw Hc (or_introl (proj2 Hh))) as (h' & E & C & O). exists h'. split; [exact E|].
  split; [by apply get_free_size_run|].
  assert (total (a_free (p, n) ((a, m) :: fs)) = total ((a, m) :: fs) + n) as <-.
  { simpl. rewrite (proj2 (Z.ltb_lt a p)) by lia. destruct (a + m =? p); rewrite ?total_merge; simpl; rewrite ?total_merge; simpl; lia. }
  apply get_free_size_run; [|exact C]. eapply wf_only; [exact O|].
  rewrite <-(app_nil_r (a_free _ _)). apply wf_a_free. by rewrite app_nil_r.
Qed.

Lemma behind_nil p bs : Forall (fun c => p < c.1) bs -> behind p bs = [].
Proof. induction 1 as [|[a n] bs Hc _ IH]; simpl; [done|]. simpl in Hc. by rewrite (proj2 (Z.ltb_ge a p)) by lia. Qed.

(** [free_raw] of a block below every free block loses them all: afterwards
    the free list holds the freed block alone. *)
Theorem free_below_loses h p n fs :
  wf_blocks (mem h) ((p, n) :: fs) -> chain (mem h) (free_head h) fs -> Forall (fun c => p < c.1) fs ->
  exists h', free_raw p n h = Ok tt h' /\ heap_inv h' ([(p, n)], []) /\ get_free_size h' = Ok (u32 n) h'.
Proof.
  intros Hw Hc Hbelow.
  assert (free_ok (p, n) fs) as Hok.
  { destruct fs as [|[a m] fs]; [done|]. right. pose proof (proj1 (wf_cons _ _ _) Hw) as (_ & _ & [Hwf _]).
    rewrite Forall_forall in *. intros c Hc'. specialize (Hbelow c Hc'). pose proof (wb_size _ c (Hwf c Hc')). simpl. lia. }
  destruct (free_raw_run h p n fs Hw Hc Hok) as (h' & E & C & O). exists h'.
  assert (a_free (p, n) fs = [(p, n)]) as Ef.
  { destruct fs as [|[a m] fs]; [done|]. pose proof (behind_nil _ _ Hbelow) as Eb. cbn [a_free fst snd].
    apply Forall_cons in Hbelow as [Hpa _]. simpl in Hpa. rewrite (proj2 (Z.ltb_ge a p)) by lia. by rewrite Eb. }
  rewrite Ef in C. assert (wf_blocks (mem h') [(p, n)]) as Hw'.
  { eapply wf_only; [exact O|]. eapply (wf_drop _ ((p, n) :: fs) [(p, n)] []); [|by rewrite app_nil_r].
    constructor. apply sublist_nil_l. }
  split; [exact E|]. split; [by split|]. rewrite (get_free_size_run h' _ Hw' C). simpl. by rewrite Z.add_0_r.
Qed.

(** [malloc] and then [free] of its result on a heap that is one free block
    leave only the freed block free: the rest of the heap is lost. *)
Theorem malloc_free_loses_rest h a k n :
  heap_inv h ([(a, k)], []) -> 4 <= n -> n mod 4 = 0 -> 8 <= k - (n + 4) ->
  exists h1 h2, malloc n h = Ok (a + 4) h1 /\ free (a + 4) h1 = Ok tt h2 /\
    get_free_size h1 = Ok (k - (n + 4)) h1 /\ get_free_size h2 = Ok (n + 4) h2.
Proof.
  intros [Hc Hw] Hn Hm Hk. cbn [fst snd app] in *. pose proof (proj1 (wf_cons _ _ _) Hw) as (Hb & _).
  pose proof Hb as [Ha _ _ _ Ht _]. cbn [fst snd] in *.
  assert ((n + 4) mod 4 = 0) as Hm4 by (rewrite Z.add_mod, Hm by lia; done).
  assert (a_malloc (n + 4) [(a, k)] = (a, [(a + (n + 4), k - (n + 4))])) as Ea.
  { unfold a_malloc. cbn [first_fit snd]. rewrite (proj2 (Z.leb_le _ _)) by lia. by rewrite (proj2 (Z.leb_le 8 _)) by lia. }
  destruct (malloc_raw_run h (n + 4) _ Hw Hc ltac:(done) ltac:(lia) Hm4) as (h0 & E & C & O). rewrite Ea in E, C. cbn [fst snd] in E, C.
  pose proof (wf_split _ _ _ (n + 4) _ Hw ltac:(lia) Hm4 Hk) as Hw2.
  pose proof (wf_only _ _ _ _ O Hw2) as Hw0. pose proof (proj1 (wf_cons _ _ _) Hw0) as (Hb0 & Hf0 & Hwf0).
  destruct (store_header h0 (a, n + 4) a n Hb0) as [E1 O1]; [by left|].
  set (h1 := set_mem h0 (<[a := n]> (mem h0))) in *.
  pose proof (wf_only _ _ _ _ O1 Hw0) as Hw1. pose proof (proj1 (wf_cons _ _ _) Hw1) as (_ & _ & Hwf1).
  assert (chain (mem h1) (free_head h1) [(a + (n + 4), k - (n + 4))]) as C1.
  { eapply (chain_only [(a, n + 4)]); [exact O1|exact Hwf0| |exact C].
    rewrite Forall_forall in *. intros c Hc'. apply Forall_singleton, apart2_sym, Hf0, Hc'. }
  exists h1.
  assert (Forall (fun c : block => a < c.1) [(a + (n + 4), k - (n + 4))]) as Hbelow by (apply Forall_singleton; simpl; lia).
  assert (exists h2, free_raw a (n + 4) h1 = Ok tt h2 /\ get_free_size h2 = Ok (u32 (n + 4)) h2) as (h2 & E2 & G2).
  { destruct (free_raw_run h1 a (n + 4) _ Hw1 C1) as (h2 & E2 & C2 & O2).
    - right. apply Forall_singleton. simpl. lia.
    - exists h2. split; [exact E2|]. cbn [a_free fst snd] in C2. rewrite (proj2 (Z.ltb_ge _ a)) in C2 by lia.
      rewrite behind_nil in C2 by exact Hbelow. cbn [merge_next] in C2.
      rewrite (get_free_size_run h2 _ (wf_only _ _ _ _ O2 ltac:(apply wf_cons; split; [by apply wf_cons in Hw1 as (? & _)|split; [constructor|done] ])) C2).
      simpl. by rewrite Z.add_0_r. }
  exists h2. split; [|split; [|split] ].
  - unfold malloc, sizeof_malloc_header. rewrite (wrap_id 32 (4 + n)) by (unfold in_u; lia). rewrite (Z.add_comm 4 n).
    rewrite (bind_ok _ _ _ _ _ E). unfold set_size. rewrite (bind_ok _ _ _ _ _ E1). unfold ret. by rewrite wrap_id by (unfold in_u; lia).
  - unfold free, sizeof_malloc_header. rewrite wrap_id by (unfold in_u; lia). replace (a + 4 - 4) with a by lia.
    unfold get_size. rewrite (bind_ok _ _ h1 n h1) by (apply load_run; simpl; by rewrite lookup_insert_eq).
    rewrite wrap_id by (unfold in_u; lia). exact E2.
  - rewrite (get_free_size_run h1 _ Hwf1 C1). simpl. rewrite Z.add_0_r. by rewrite wrap_id by (unfold in_u; lia).
  - by rewrite wrap_id in G2 by (unfold in_u; lia).
Qed.

(** A heap of 256 bytes. *)
Definition ex_boot : heap := boot_heap (fun _ => 0) 1024 64.
Definition ex_heap : heap := match malloc_init 1024 1280 ex_boot with Ok _ h => h | Fault _ => ex_boot end.

(** a run with correct calls only (every free is of a block in use) after
    which two blocks in use overlap: freeing a block below the head of the free
    list merges it into a free block that ends at it, and leaves it in the list. *)
Theorem malloc_overlap :
  exists us h, heap_run [HMalloc 16; HMalloc 16; HMalloc 16; HMalloc 16; HMalloc 16; HFree 1024 16; HFree 1056 16;
                         HFree 1088 16; HMalloc 16; HFree 1072 16; HMalloc 16; HMalloc 32] [] ex_heap = Ok us h /\
    us = [(1056, 32); (1072, 16); (1024, 16); (1040, 16)] /\ ~ apart us.
Proof.
  eexists _, _. split; [vm_compute; reflexivity|]. split; [vm_compute; reflexivity|].
  simpl. rewrite !Forall_cons. unfold apart2. simpl. lia.
Qed.

(** [malloc_raw] reads the head of the free list without looking whether
    there is one: with no free block left it dereferences NULL; and it hands out
    addresses that are no multiple of 4 after a request whose size is none, so
    that the next header it writes is misaligned. *)
Theorem malloc_raw_faults h n m :
  free_head h = NULL -> mem h !! NULL = None -> 8 <= n ->
  malloc_raw n h = Fault WildAccess /\ (8 <= m <= 200 -> m mod 4 <> 0 -> malloc_raw m ex_heap = Fault WildAccess).
Proof.
  intros Hh Hm Hn. split.
  - by apply malloc_empty.
  - intros Hr Hmod. assert (forallb (fun i => (i mod 4 =? 0) || match malloc_raw i ex_heap with Fault WildAccess => true | _ => false end) (seqZ 8 193) = true) as H
      by (vm_compute; reflexivity).
    rewrite forallb_forall in H. specialize (H m). rewrite <-list_elem_of_In, elem_of_seqZ in H. specialize (H ltac:(lia)).
    rewrite (proj2 (Z.eqb_neq _ _) Hmod) in H. simpl in H. destruct (malloc_raw m ex_heap) as [|[] ]; done.
Qed.

(** ** Witnesses *)

Definition ex_ops : list heap_op :=
  [HMalloc 16; HMalloc 24; HMalloc 16; HWrite 1028 7; HFree 1040 24; HMalloc 12].

Lemma ex_heap_inv : heap_inv ex_heap ([(1024, 256)], []).
Proof.
  pose proof (boot_wf (fun _ => 0) 1024 64 ltac:(lia) eq_refl ltac:(lia) ltac:(lia)) as Hb.
  change (4 * Z.of_nat 64) with 256 in Hb.
  destruct (free_raw_run ex_boot 1024 256 []) as (h' & E & C & O); [|done|done|].
  - apply wf_cons. split; [exact Hb|]. split; [constructor|done].
  - assert (h' = ex_heap) as <-.
    { unfold ex_heap, malloc_init. change (u32 (1280 - 1024)) with 256. by rewrite E. }
    split; [exact C|]. eapply wf_only; [exact O|]. apply wf_cons. split; [exact Hb|]. split; [constructor|done].
Qed.

(** The last allocation takes all that is left: then nothing is free. *)
Lemma heap_refines_witness :
  (exists h', heap_run ex_ops [] ex_heap = Ok [(1040, 12); (1064, 16); (1024, 16)] h' /\
    heap_inv h' (foldl a_step ([(1024, 256)], []) ex_ops)) /\
  exists h', heap_run [HMalloc 256] [] ex_heap = Ok [(1024, 256)] h' /\ malloc_raw 16 h' = Fault WildAccess.
Proof.
  split.
  - destruct (heap_refines ex_heap ([(1024, 256)], []) ex_ops ex_heap_inv) as (h' & E & I & _).
    + refine (bool_decide_unpack _ _). vm_compute. exact I.
    + vm_compute. reflexivity.
    + exists h'. split; [exact E|exact I].
  - destruct (heap_refines ex_heap ([(1024, 256)], []) [HMalloc 256] ex_heap_inv) as (h' & E & _ & _ & H).
    + refine (bool_decide_unpack _ _). vm_compute. exact I.
    + vm_compute. reflexivity.
    + exists h'. split; [exact E|]. apply H; [reflexivity|lia].
Defined.

Lemma malloc_init_spec_witness :
  exists h', malloc_init 1024 1280 ex_boot = Ok tt h' /\ heap_inv h' ([(1024, 256)], []).
Proof. apply (malloc_init_spec (fun _ => 0) 1024 64); [lia|reflexivity|lia|lia]. Defined.

(** The heap after three allocations and the release of the first. *)
Definition ex_ops2 : list heap_op := [HMalloc 16; HMalloc 16; HMalloc 16; HFree 1024 16].

Lemma ex_reach os : ok_ops ([(1024, 256)], []) os ->
  exists h, heap_run os [] ex_heap = Ok (foldl a_step ([(1024, 256)], []) os).2 h /\
    heap_inv h (foldl a_step ([(1024, 256)], []) os).
Proof.
  intros Hok. destruct (heap_run_refines ex_heap ([(1024, 256)], []) os ex_heap_inv Hok) as (h & E & Hi & _). by exists h.
Qed.

Lemma free_returns_block_witness :
  exists h h', heap_run ex_ops2 [] ex_heap = Ok [(1056, 16); (1040, 16)] h /\
    free_raw 1056 16 h = Ok tt h' /\ get_free_size h' = Ok 32 h'.
Proof.
  destruct (ex_reach ex_ops2) as (h & E & Hc & Hw); [refine (bool_decide_unpack _ _); vm_compute; exact I|].
  destruct (free_returns_block h 1056 16 [(1024, 16)]) as (h' & Ef & _ & G).
  - eapply (wf_drop _ [(1024, 16); (1056, 16)] [(1024, 16); (1056, 16)] [(1040, 16)]) in Hw; [|done].
    eapply (wf_perm _ [(1024, 16); (1056, 16)]); [apply Permutation_swap|].
    by apply (wf_app _ [(1024, 16); (1056, 16)] [(1040, 16)]) in Hw as (? & _).
  - exact Hc.
  - destruct Hc as [-> _]. lia.
  - exists h, h'. split; [exact E|]. split; [exact Ef|exact G].
Defined.

Lemma free_below_loses_witness :
  exists h h', heap_run (take 3 ex_ops2) [] ex_heap = Ok [(1056, 16); (1040, 16); (1024, 16)] h /\
    free_raw 1040 16 h = Ok tt h' /\ get_free_size h' = Ok 16 h'.
Proof.
  destruct (ex_reach (take 3 ex_ops2)) as (h & E & Hc & Hw); [refine (bool_decide_unpack _ _); vm_compute; exact I|].
  destruct (free_below_loses h 1040 16 [(1072, 208)]) as (h' & Ef & _ & G).
  - eapply (wf_perm _ _ ([(1040, 16); (1072, 208)] ++ [(1056, 16); (1024, 16)])) in Hw;
      [by apply wf_app in Hw as (? & _)|refine (bool_decide_unpack _ _); vm_compute; exact I].
  - exact Hc.
  - apply Forall_singleton. simpl. lia.
  - exists h, h'. split; [exact E|]. split; [exact Ef|exact G].
Defined.

Lemma malloc_free_loses_rest_witness :
  exists h1 h2, malloc 12 ex_heap = Ok 1028 h1 /\ free 1028 h1 = Ok tt h2 /\ get_free_size h2 = Ok 16 h2.
Proof.
  destruct (malloc_free_loses_rest ex_heap 1024 256 12 ex_heap_inv) as (h1 & h2 & E1 & E2 & _ & G); [lia|reflexivity|lia|].
  exists h1, h2. split; [exact E1|]. split; [exact E2|exact G].
Defined.

Lemma malloc_raw_faults_witness :
  malloc_raw 16 (mk_heap ∅ NULL) = Fault WildAccess /\ malloc_raw 13 ex_heap = Fault WildAccess.
Proof.
  destruct (malloc_raw_faults (mk_heap ∅ NULL) 16 13) as [H1 H2]; [reflexivity|reflexivity|lia|].
  split; [exact H1|apply H2; [lia|discriminate] ].
Defined.
