(* ===== verification/Early.v ===== *)
(** * Early: the heap and the stacks at the start

    [arch_early_init] of [arch/arm-m/arch.c]: the heap of [Malloc] between the end of the
    data and the stack of the main thread, and the stack registers of the processor.
    [HeapStart] and [MainStackTop] are symbols of the linker script. *)
From S2P Require Import Prelude Fw Malloc MallocSpec MallocRun.

Definition STACK_SIZE_MAIN : Z := 2048.
Definition STACK_SIZE_ISR : Z := 2048.

(** The heap and the special registers; [control] is CONTROL, whose bit 1 makes PSP the
    stack pointer of a thread.  [default_timer] is the variable of [core/timer.c]. *)
Record core := mk_core { core_heap : heap; msp : Z; psp : Z; control : Z; default_timer : Z }.

Definition sp (c : core) : Z := if Z.testbit (control c) 1 then psp c else msp c.

Definition on_heap {A} (op : M heap A) : M core A := fun c =>
  match op (core_heap c) with Ok a h => Ok a (mk_core h (msp c) (psp c) (control c) (default_timer c)) | Fault f => Fault f end.

(** A stack register holds a multiple of 4. *)
Definition MSR_MSP (v : Z) : M core unit :=
  modify (fun c => mk_core (core_heap c) (Z.land (u32 v) 0xFFFFFFFC) (psp c) (control c) (default_timer c)).
Definition MSR_PSP (v : Z) : M core unit :=
  modify (fun c => mk_core (core_heap c) (msp c) (Z.land (u32 v) 0xFFFFFFFC) (control c) (default_timer c)).
Definition MSR_CONTROL (v : Z) : M core unit :=
  modify (fun c => mk_core (core_heap c) (msp c) (psp c) v (default_timer c)).

Definition arch_early_init (HeapStart MainStackTop isr_stack systick_timer : Z) : M core unit :=
  run! on_heap (malloc_init HeapStart (u32 (MainStackTop - STACK_SIZE_MAIN))) in
  let! r1 := gets msp in
  run! MSR_PSP r1 in
  run! MSR_CONTROL 2 in
  run! MSR_MSP (isr_stack + (STACK_SIZE_ISR - 1)) in
  modify (fun c => mk_core (core_heap c) (msp c) (psp c) (control c) systick_timer).

Lemma land_not3 v : in_u 32 v -> Z.land v 0xFFFFFFFC = v - v mod 4.
Proof.
  intros Hv. transitivity (Z.shiftl (Z.shiftr v 2) 2).
  - change 0xFFFFFFFC with (Z.shiftl (Z.ones 30) 2). apply Z.bits_inj'. intros i Hi. rewrite Z.land_spec, !Z.shiftl_spec by lia.
    destruct (Z.ltb_spec i 2); [rewrite !(Z.testbit_neg_r _ (i - 2)) by lia; apply andb_false_r|].
    rewrite Z.shiftr_spec, Z.testbit_ones by lia. replace (i - 2 + 2) with i by lia. rewrite (proj2 (Z.leb_le 0 (i - 2))) by lia. cbn [andb].
    destruct (Z.ltb_spec (i - 2) 30); [apply andb_true_r|]. by rewrite (in_u_testbit_high 32 v) by (done || lia).
  - rewrite Z.shiftl_mul_pow2, Z.shiftr_div_pow2 by lia. change (2 ^ 2) with 4. pose proof (Z.div_mod v 4). lia.
Qed.

(** The start sets up the memory.  When [firmware_main] runs on its stack below
    [MainStackTop], [arch_early_init] makes all of the memory between the end of the data
    and this stack one free block of the heap; the thread goes on with the stack pointer
    it had, now PSP, and the handlers get their own stack, which ends inside [isr_stack]:
    heap, main stack and handlers' stack are apart. *)
Theorem early_init junk start n isr_stack tm m p ctl t :
  0 < start -> start mod 4 = 0 -> (2 <= n)%nat -> start + 4 * Z.of_nat n + STACK_SIZE_MAIN <= 2 ^ 31 ->
  let top := start + 4 * Z.of_nat n + STACK_SIZE_MAIN in
  top - STACK_SIZE_MAIN < m <= top -> m mod 4 = 0 -> Z.testbit ctl 1 = false ->
  0 <= isr_stack -> isr_stack mod 4 = 0 -> isr_stack + STACK_SIZE_ISR <= start ->
  let c := mk_core (boot_heap junk start n) m p ctl t in
  exists c', arch_early_init start top isr_stack tm c = Ok tt c' /\
    heap_inv (core_heap c') ([(start, 4 * Z.of_nat n)], []) /\ sp c' = sp c /\
    psp c' = m /\ isr_stack < msp c' < isr_stack + STACK_SIZE_ISR /\ msp c' mod 4 = 0 /\ default_timer c' = tm.
Proof.
  intros Hs Hm4 Hn Ht top Hm Hmm Hctl Hi Hi4 Hil c. unfold STACK_SIZE_MAIN, STACK_SIZE_ISR in *. unfold top in Hm.
  destruct (malloc_init_spec junk start n Hs Hm4 Hn ltac:(lia)) as (h' & E & Hh).
  assert (u32 (top - 2048) = start + 4 * Z.of_nat n) as Hu by (unfold top; rewrite wrap_id by (unfold in_u; lia); lia).
  exists (mk_core h' (isr_stack + 2044) m 2 tm). split.
  - unfold arch_early_init, bind, on_heap, gets, modify, MSR_PSP, MSR_MSP, MSR_CONTROL. cbn [core_heap c]. unfold STACK_SIZE_MAIN, STACK_SIZE_ISR.
    rewrite Hu, E. cbn -[Z.land wrap Z.add Z.modulo]. do 2 f_equal.
    + rewrite !wrap_id by (unfold in_u; lia). rewrite land_not3 by (unfold in_u; lia).
      rewrite <-Zplus_mod_idemp_l, Hi4. change ((0 + (2048 - 1)) mod 4) with 3. lia.
    + rewrite wrap_id by (unfold in_u; lia). rewrite land_not3 by (unfold in_u; lia). lia.
  - cbn [core_heap msp psp control default_timer]. split; [exact Hh|]. split; [unfold sp; cbn [control c msp psp]; by rewrite Hctl|].
    split; [done|]. split; [lia|]. split; [|done]. rewrite <-Zplus_mod_idemp_l, Hi4. done.
Qed.

Lemma early_init_witness :
  exists c', arch_early_init 4096 6400 1024 77 (mk_core (boot_heap (fun _ => 0) 4096 64) 6392 0 0 0) = Ok tt c' /\
    heap_inv (core_heap c') ([(4096, 256)], []) /\ psp c' = 6392.
Proof.
  destruct (early_init (fun _ => 0) 4096 64 1024 77 6392 0 0 0) as (c' & E & H & _ & Hp & _); [unfold STACK_SIZE_MAIN, STACK_SIZE_ISR; cbn; try lia; done..|].
  exists c'. split; [exact E|]. by split.
Defined.
