(* ===== verification/File.v ===== *)
(** * File: file operations

    [core/file.c]: the dispatch through [struct file_operations].  A pointer may be
    NULL; the functions behind it are given.  [F] is the state of the file. *)
From S2P Require Import Prelude.

(** [read] delivers its result and the bytes it stored; [write] takes the bytes. *)
Record file_operations (F : Type) := mk_ops {
  op_read : option (Z -> F -> (Z * list Z) * F);
  op_write : option (list Z -> F -> Z * F);
  op_flush : option (F -> Z * F) }.
Arguments mk_ops {F}. Arguments op_read {F}. Arguments op_write {F}. Arguments op_flush {F}.

Definition ERR_NOT_SUPPORTED : Z := -1.

Section File.
Context {F : Type} (ops : file_operations F).

Definition read (nbytes : Z) (f : F) : (Z * list Z) * F :=
  match op_read ops with Some r => r nbytes f | None => ((ERR_NOT_SUPPORTED, []), f) end.

Definition write (bs : list Z) (f : F) : Z * F :=
  match op_write ops with Some w => w bs f | None => (ERR_NOT_SUPPORTED, f) end.

(** Not an error when the file has no such operation. *)
Definition flush (f : F) : Z * F :=
  match op_flush ops with Some g => g f | None => (0, f) end.
End File.

(** A terminal: bytes to read, and the bytes written. *)
Record terminal := mk_term { keys : list Z; screen : list Z }.

Definition term_ops : file_operations terminal := mk_ops
  (Some (fun n t => match keys t with
                    | c :: ks => if n >? 0 then ((1, [c]), mk_term ks (screen t)) else ((0, []), t)
                    | [] => ((-1, []), t)
                    end))
  (Some (fun bs t => (Z.of_nat (length bs), mk_term (keys t) (screen t ++ bs))))
  None.
