(* ===== verification/CString.v ===== *)
(** * CString: strings and memory

    [core/string.c] over a byte memory: a finite map from addresses to bytes, in
    which an access to any other address is a [WildAccess].  [char] is unsigned, as
    on the processor.  A loop that runs along memory has as fuel the number of
    bytes there are. *)
From S2P Require Import Prelude Fw File.

Abbreviation bytes := (gmap Z Z).

Definition get_byte (p : Z) : M bytes Z := deref (fun m => m !! p).
Definition put_byte (p v : Z) : M bytes unit := fun m =>
  match m !! p with Some _ => Ok tt (<[p := v]> m) | None => Fault WildAccess end.
Definition fuel_mem : M bytes nat := gets (fun m => S (size m)).

Definition isdigit (c : Z) : bool := (48 <=? c) && (c <=? 57).

Definition isalpha (c : Z) : bool :=
  if (97 <=? c) && (c <=? 122) then true
  else if (65 <=? c) && (c <=? 90) then true else false.

Fixpoint strlen_loop (fuel : nat) (str i : Z) : M bytes Z :=
  match fuel with
  | O => fail Diverges
  | S fuel => let! c := get_byte str in if truth c then strlen_loop fuel (str + 1) (i + 1) else ret i
  end.

Definition strlen (str : Z) : M bytes Z := let! fuel := fuel_mem in strlen_loop fuel str 0.

(** The loop goes down: [--s1, --s2]. *)
Fixpoint memcmp_loop (n : nat) (s1 s2 : Z) : M bytes Z :=
  match n with
  | O => ret 0
  | S n =>
      let! a := get_byte s1 in
      let! b := get_byte s2 in
      if a =? b then memcmp_loop n (s1 - 1) (s2 - 1)
      else if a <? b then ret (-1) else ret 1
  end.

Definition memcmp (s1 s2 n : Z) : M bytes Z := memcmp_loop (Z.to_nat n) s1 s2.

Fixpoint strncmp_loop (fuel : nat) (s1 s2 n : Z) : M bytes Z :=
  match fuel with
  | O => fail Diverges
  | S fuel =>
      if n >? 0 then
        let! a := get_byte s1 in
        let! b := (if truth a then get_byte s2 else ret 0) in
        if truth a && truth b && (a =? b) then strncmp_loop fuel (s1 + 1) (s2 + 1) (n - 1)
        else
          let! a := get_byte s1 in
          let! b := get_byte s2 in
          if a <? b then ret (-1) else if a >? b then ret 1 else ret 0
      else ret 0
  end.

Definition strncmp (s1 s2 n : Z) : M bytes Z := let! fuel := fuel_mem in strncmp_loop fuel s1 s2 n.

Definition SIZE_MAX : Z := 2 ^ 32 - 1.
Definition strcmp (s1 s2 : Z) : M bytes Z := strncmp s1 s2 SIZE_MAX.

(** [for (; n > 0; --n, dst += d, src += d) *dst = *src;] *)
Fixpoint copy_loop (n : nat) (d dst src : Z) : M bytes unit :=
  match n with
  | O => ret tt
  | S n =>
      let! c := get_byte src in
      run! put_byte dst c in
      copy_loop n d (dst + d) (src + d)
  end.

Definition memcpy (dst src n : Z) : M bytes Z := run! copy_loop (Z.to_nat n) 1 dst src in ret dst.

(** The result is the pointer as the loop left it. *)
Definition memmove (dst src n : Z) : M bytes Z :=
  if dst <? src then run! copy_loop (Z.to_nat n) 1 dst src in ret (dst + n)
  else if dst >? src then
    let src := src + n in
    let dst := dst + n in
    run! copy_loop (Z.to_nat n) (-1) dst src in ret (dst - n)
  else ret dst.

Fixpoint set_loop (n : nat) (b c : Z) : M bytes unit :=
  match n with
  | O => ret tt
  | S n => run! put_byte b c in set_loop n (b + 1) c
  end.

Definition memset (b c n : Z) : M bytes Z := run! set_loop (Z.to_nat n) b (u8 c) in ret (b + n).
Definition __aeabi_memset (b n c : Z) : M bytes Z := memset b c n.

Fixpoint strchr_loop (fuel : nat) (s c : Z) : M bytes Z :=
  match fuel with
  | O => fail Diverges
  | S fuel =>
      let! x := get_byte s in
      if truth x then if x =? c then ret s else strchr_loop fuel (s + 1) c else ret NULL
  end.

Definition strchr (s c : Z) : M bytes Z := let! fuel := fuel_mem in strchr_loop fuel s c.

(** The loop of [strsep]: where [remaining] ends. *)
Fixpoint strsep_loop (fuel : nat) (remaining delim : Z) : M bytes Z :=
  match fuel with
  | O => fail Diverges
  | S fuel =>
      let! x := get_byte remaining in
      if truth x then
        let! hit := strchr delim x in
        if truth hit then run! put_byte remaining 0 in ret (remaining + 1)
        else strsep_loop fuel (remaining + 1) delim
      else ret remaining
  end.

(** The result is the token and the new value of [*stringp]. *)
Definition strsep (string delim : Z) : M bytes (Z * Z) :=
  run! assert_ (truth delim) in
  let found := string in
  let! fuel := fuel_mem in
  let! remaining := strsep_loop fuel found delim in
  let! x := get_byte remaining in
  ret (found, if x =? 0 then NULL else remaining).

Fixpoint strsep_ext_loop (fuel : nat) (string delim : Z) : M bytes (Z * Z) :=
  match fuel with
  | O => fail Diverges
  | S fuel =>
      let! r := strsep string delim in
      let (value, string) := (r : Z * Z) in
      if truth value then
        let! l := strlen value in
        if l =? 0 then strsep_ext_loop fuel string delim else ret (value, string)
      else ret (value, string)
  end.

Definition strsep_ext (string delim : Z) : M bytes (Z * Z) :=
  let! fuel := fuel_mem in strsep_ext_loop fuel string delim.

(** The value of a digit, an [uint8_t]. *)
Definition digit_value (c : Z) : option Z :=
  if (48 <=? c) && (c <=? 57) then Some (c - 48)
  else if (65 <=? c) && (c <=? 70) then Some (c - 65 + 10)
  else if (97 <=? c) && (c <=? 102) then Some (c - 97 + 10)
  else None.

Fixpoint strtol_loop (fuel : nat) (c base n : Z) : M bytes (Z * Z) :=
  match fuel with
  | O => fail Diverges
  | S fuel =>
      let! x := get_byte c in
      if truth x then
        match digit_value x with
        | None => ret (n, c)
        | Some i =>
            if i >? base then ret (n, c)
            else strtol_loop fuel (c + 1) base (u32 (u32 (n * base) + i))
        end
      else ret (n, c)
  end.

(** The base and where the digits start. *)
Definition strtol_base (c base : Z) : M bytes (Z * Z) :=
  if base =? 0 then
    let! x := get_byte c in
    if x =? 48 then
      let! y := get_byte (c + 1) in
      if (y =? 120) || (y =? 88) then ret (16, c + 2)
      else if (y =? 98) || (y =? 66) then ret (2, c + 2)
      else ret (10, c)
    else ret (10, c)
  else ret (base, c).

(** The result is the number and [*endptr]. *)
Definition strtol (c base : Z) : M bytes (Z * Z) :=
  let! r := strtol_base c base in
  let (base, c) := (r : Z * Z) in
  let! fuel := fuel_mem in
  strtol_loop fuel c base 0.

Definition atoi (c : Z) : M bytes Z := let! r := strtol c 10 in ret (fst (r : Z * Z)).

(** ** [readline] *)

Section Readline.
Context {F : Type} (ops : file_operations F).

(** The memory and the file. *)
Record io := mk_io { iomem : bytes; iofile : F }.

Definition on_bytes {A} (c : M bytes A) : M io A := fun s =>
  match c (iomem s) with Ok a m => Ok a (mk_io m (iofile s)) | Fault f => Fault f end.
Definition file_read (n : Z) : M io (Z * list Z) := fun s =>
  let (r, f) := read ops n (iofile s) in Ok r (mk_io (iomem s) f).
Definition file_write (bs : list Z) : M io Z := fun s =>
  let (r, f) := write ops bs (iofile s) in Ok r (mk_io (iomem s) f).

(** [read(file, &c, 1)]: the byte, if there was one. *)
Definition read_char : M io (option Z) :=
  let! r := file_read 1 in
  let (n, bs) := (r : Z * list Z) in
  ret (if n =? 1 then match bs with [c] => Some c | _ => None end else None).

(** The rest of a control sequence: up to a letter. *)
Fixpoint skip_sequence (fuel : nat) : M io (option unit) :=
  match fuel with
  | O => fail Diverges
  | S fuel =>
      let! r := read_char in
      match r with
      | None => ret None
      | Some c => if negb (isalpha c) then skip_sequence fuel else ret (Some tt)
      end
  end.

Definition CRLF : list Z := [13; 10].
Definition ERASE : list Z := [27; 91; 49; 68; 27; 91; 75].

(** The loop; [inr r] is a [return r], [inl i] its regular end.  [rounds] bounds
    the bytes read. *)
Fixpoint readline_loop (rounds : nat) (buffer len i : Z) : M io (Z + Z) :=
  match rounds with
  | O => fail Diverges
  | S rounds =>
      if negb (i <? u32 (len - 1)) then ret (inl i)
      else
        let! r := read_char in
        match r with
        | None => ret (inr (-1))
        | Some c =>
            if (c =? 13) || (c =? 10) then
              run! on_bytes (put_byte (buffer + i) 0) in
              run! file_write CRLF in
              ret (inl (i + 1))
            else if (c =? 127) || (c =? 8) then
              if i >? 0 then run! file_write ERASE in readline_loop rounds buffer len (i - 1)
              else readline_loop rounds buffer len i
            else if c =? 3 then run! file_write CRLF in ret (inr 0)
            else if c =? 27 then
              let! r := read_char in
              match r with
              | None => ret (inr (-1))
              | Some c =>
                  if c =? 91 then
                    let! r := skip_sequence rounds in
                    match r with
                    | None => ret (inr (-1))
                    | Some _ => readline_loop rounds buffer len i
                    end
                  else readline_loop rounds buffer len i
              end
            else
              run! file_write [c] in
              run! on_bytes (put_byte (buffer + i) c) in
              readline_loop rounds buffer len (i + 1)
        end
  end.

Definition readline (rounds : nat) (buffer len : Z) : M io Z :=
  let! r := readline_loop rounds buffer len 0 in
  match (r : Z + Z) with
  | inr e => ret e
  | inl i => run! on_bytes (put_byte (buffer + (i + 1)) 0) in ret i
  end.
End Readline.
Arguments mk_io {F}. Arguments iomem {F}. Arguments iofile {F}.
