(* ===== verification/CStringSpec.v ===== *)
(** * CStringSpec: what the string functions compute *)
From S2P Require Import Prelude Fw File CString.

(** ** Strings in memory *)

(** The bytes from [p] on. *)
Fixpoint holds (m : bytes) (p : Z) (bs : list Z) : Prop :=
  match bs with [] => True | c :: bs' => m !! p = Some c /\ holds m (p + 1) bs' end.

Definition is_char (c : Z) : Prop := 0 < c < 256.

(** A terminated string at [p]. *)
Definition cstr (m : bytes) (p : Z) (s : list Z) : Prop := Forall is_char s /\ holds m p (s ++ [0]).

Lemma holds_app m p bs cs : holds m p (bs ++ cs) <-> holds m p bs /\ holds m (p + Z.of_nat (length bs)) cs.
Proof.
  revert p. induction bs as [|c bs IH]; intros p; simpl; [rewrite Z.add_0_r; tauto|]. rewrite IH.
  replace (p + 1 + Z.of_nat (length bs)) with (p + Z.of_nat (S (length bs))) by lia. tauto.
Qed.

Lemma holds_lookup m p bs i c : holds m p bs -> bs !! i = Some c -> m !! (p + Z.of_nat i) = Some c.
Proof.
  revert p i. induction bs as [|b bs IH]; intros p [|i]; simpl; try done.
  - rewrite Z.add_0_r. by intros [? ?] [= <-].
  - intros [_ H] E. replace (p + Z.of_nat (S i)) with (p + 1 + Z.of_nat i) by lia. by apply IH.
Qed.

Lemma holds_ext m m' p bs : (forall a, p <= a < p + Z.of_nat (length bs) -> m' !! a = m !! a) ->
  holds m p bs -> holds m' p bs.
Proof.
  revert p. induction bs as [|c bs IH]; intros p Hs; simpl; [done|]. intros [E H]. simpl in Hs.
  rewrite Hs by lia. split; [done|]. apply IH; [intros a Ha; apply Hs; lia|done].
Qed.

Lemma holds_fuel m p bs : holds m p bs -> (length bs <= size m)%nat.
Proof.
  intros H. rewrite <-(size_dom (D := gset Z)).
  assert (size (list_to_set (seqZ p (Z.of_nat (length bs))) : gset Z) = length bs) as E.
  { rewrite size_list_to_set by apply NoDup_seqZ. rewrite length_seqZ. lia. }
  rewrite <-E at 1. apply subseteq_size. intros a Ha%elem_of_list_to_set. rewrite elem_of_seqZ in Ha. apply elem_of_dom.
  destruct (lookup_lt_is_Some_2 bs (Z.to_nat (a - p))) as [c Hc]; [lia|].
  exists c. rewrite <-(holds_lookup m p bs _ _ H Hc). f_equal. lia.
Qed.

Lemma get_run m p c : m !! p = Some c -> get_byte p m = Ok c m.
Proof. apply (deref_ok (fun m => m !! p)). Qed.

Lemma put_run m p v : is_Some (m !! p) -> put_byte p v m = Ok tt (<[p := v]> m).
Proof. intros [w E]. unfold put_byte. by rewrite E. Qed.

Lemma truth_char c : is_char c -> truth c = true.
Proof. unfold is_char, truth. intros ?. rewrite (proj2 (Z.eqb_neq c 0)) by lia. done. Qed.

Ltac step_get H := rewrite (bind_ok _ _ _ _ _ (get_run _ _ _ H)).

Lemma cstr_fuel m p s : cstr m p s -> (length s < S (size m))%nat.
Proof. intros [_ H]. apply holds_fuel in H. rewrite length_app in H. simpl in H. lia. Qed.

(** ** [strlen] and [strchr] *)

Lemma strlen_loop_run m p s i fuel : cstr m p s -> (length s < fuel)%nat ->
  strlen_loop fuel p i m = Ok (i + Z.of_nat (length s)) m.
Proof.
  revert p i fuel. induction s as [|c s IH]; intros p i fuel [Hs H] Hf; (destruct fuel as [|fuel]; [simpl in Hf; lia|]);
    destruct H as [E H]; cbn [strlen_loop]; step_get E.
  - simpl. by rewrite Z.add_0_r.
  - apply Forall_cons in Hs as [Hc Hs]. rewrite (truth_char _ Hc). rewrite IH; [|done|simpl in Hf; lia].
    f_equal. simpl. lia.
Qed.

Lemma strlen_run m p s : cstr m p s -> strlen p m = Ok (Z.of_nat (length s)) m.
Proof.
  intros H. unfold strlen, fuel_mem. rewrite (bind_ok _ _ m (S (size m)) m) by done.
  rewrite (strlen_loop_run m p s) by (done || by eapply cstr_fuel). done.
Qed.

Lemma strchr_loop_run m p s c fuel : cstr m p s -> (length s < fuel)%nat ->
  strchr_loop fuel p c m =
  Ok (match list_find (eq c) s with Some (i, _) => p + Z.of_nat i | None => NULL end) m.
Proof.
  revert p fuel. induction s as [|x s IH]; intros p fuel [Hs H] Hf; (destruct fuel as [|fuel]; [simpl in Hf; lia|]);
    destruct H as [E H]; cbn [strchr_loop]; step_get E; [done|].
  apply Forall_cons in Hs as [Hc Hs]. rewrite (truth_char _ Hc). cbn [list_find].
  destruct (Z.eqb_spec x c) as [->|Hne]; [rewrite decide_True by done; unfold ret; f_equal; lia|].
  rewrite decide_False by done. rewrite IH; [|done|simpl in Hf; lia].
  destruct (list_find (eq c) s) as [[i y]|]; simpl; [f_equal; lia|done].
Qed.

Lemma strchr_run m p s c : cstr m p s ->
  strchr p c m = Ok (match list_find (eq c) s with Some (i, _) => p + Z.of_nat i | None => NULL end) m.
Proof.
  intros H. unfold strchr, fuel_mem. rewrite (bind_ok _ _ m (S (size m)) m) by done.
  by apply strchr_loop_run, (cstr_fuel m p s).
Qed.

(** ** Comparison *)

(** Lexicographic order, as -1, 0 or 1. *)
Fixpoint lex (s t : list Z) : Z :=
  match s, t with
  | [], [] => 0
  | [], _ :: _ => -1
  | _ :: _, [] => 1
  | x :: s', y :: t' => if x <? y then -1 else if x >? y then 1 else lex s' t'
  end.

Lemma strncmp_loop_run m p q s t n fuel : cstr m p s -> cstr m q t -> (length s < fuel)%nat -> 0 <= n ->
  strncmp_loop fuel p q n m = Ok (lex (take (Z.to_nat n) s) (take (Z.to_nat n) t)) m.
Proof.
  revert p q t n fuel. induction s as [|x s IH]; intros p q t n fuel [Hs Ep] [Ht Eq] Hf Hn;
    (destruct fuel as [|fuel]; [simpl in Hf; lia|]); cbn [strncmp_loop];
    (destruct (Z.gtb_spec n 0) as [Hpos|Hneg]; [|by replace (Z.to_nat n) with O by lia]);
    (destruct (Z.to_nat n) as [|k] eqn:Ek; [lia|]); destruct Ep as [Ep Hp]; step_get Ep.
  - rewrite (bind_ok _ _ m 0 m) by done. simpl. step_get Ep.
    destruct t as [|y t]; destruct Eq as [Eq _]; step_get Eq; [done|].
    apply Forall_cons in Ht as [Hy _]. simpl. unfold is_char in Hy. by rewrite (proj2 (Z.ltb_lt _ _)) by lia.
  - apply Forall_cons in Hs as [Hx Hs]. rewrite (truth_char _ Hx).
    destruct t as [|y t]; destruct Eq as [Eq Hq]; step_get Eq.
    + simpl. step_get Ep. step_get Eq. unfold is_char in Hx. rewrite (proj2 (Z.ltb_ge _ _)) by lia.
      by rewrite (proj2 (Z.gtb_lt _ _)) by lia.
    + apply Forall_cons in Ht as [Hy Ht]. rewrite (truth_char _ Hy). simpl. destruct (Z.eqb_spec x y) as [->|Hne].
      * rewrite (IH (p + 1) (q + 1) t) by (done || (simpl in Hf; lia)). rewrite Z.ltb_irrefl.
        replace (y >? y) with false by lia. by replace (Z.to_nat (n - 1)) with k by lia.
      * step_get Ep. step_get Eq. destruct (x <? y) eqn:E1; [done|]. by replace (x >? y) with true by lia.
Qed.

Lemma strncmp_run m p q s t n : cstr m p s -> cstr m q t -> 0 <= n ->
  strncmp p q n m = Ok (lex (take (Z.to_nat n) s) (take (Z.to_nat n) t)) m.
Proof.
  intros Hs Ht Hn. unfold strncmp, fuel_mem. rewrite (bind_ok _ _ m (S (size m)) m) by done.
  apply strncmp_loop_run; try done. by eapply cstr_fuel.
Qed.

Lemma lex_eq s t : lex s t = 0 <-> s = t.
Proof.
  split; [|intros ->; induction t as [|y t IH]; simpl; [done|by rewrite Z.ltb_irrefl, Z.gtb_ltb, Z.ltb_irrefl] ].
  revert t. induction s as [|x s IH]; intros [|y t]; simpl; try done.
  destruct (Z.ltb_spec x y); [done|]. destruct (Z.gtb_spec x y); [done|]. intros ->%IH. f_equal. lia.
Qed.

Lemma strcmp_run m p q s t : cstr m p s -> cstr m q t -> Z.of_nat (length s) < 2 ^ 32 -> Z.of_nat (length t) < 2 ^ 32 ->
  strcmp p q m = Ok (lex s t) m.
Proof. intros Hs Ht Ls Lt. unfold strcmp, SIZE_MAX. rewrite (strncmp_run m p q s t) by (done || lia). by rewrite !take_ge by lia. Qed.

(** [strncmp] orders two strings by their first [n] characters,
    lexicographically; [strcmp] by all of them; [strlen] counts them. *)
Theorem strings_compare m p q s t n :
  cstr m p s -> cstr m q t -> 0 <= n -> Z.of_nat (length s) < 2 ^ 32 -> Z.of_nat (length t) < 2 ^ 32 ->
  strncmp p q n m = Ok (lex (take (Z.to_nat n) s) (take (Z.to_nat n) t)) m /\
  strcmp p q m = Ok (lex s t) m /\ (lex s t = 0 <-> s = t) /\ strlen p m = Ok (Z.of_nat (length s)) m.
Proof.
  intros Hs Ht Hn Ls Lt. split; [by apply strncmp_run|]. split; [by apply strcmp_run|]. split; [apply lex_eq|by apply strlen_run].
Qed.

(** ** Copying *)

Definition there (m : bytes) (p n : Z) : Prop := forall i, 0 <= i < n -> is_Some (m !! (p + i)).

(** [n] bytes from [src] on in [m] are at [dst] in [m'], and nothing else changed. *)
Definition copied (m m' : bytes) (dst src n : Z) : Prop :=
  (forall i, 0 <= i < n -> m' !! (dst + i) = m !! (src + i)) /\
  (forall a, ~ (dst <= a < dst + n) -> m' !! a = m !! a).

Lemma there_insert m p n a v : there m p n -> there (<[a := v]> m) p n.
Proof.
  intros H i Hi. destruct (decide (a = p + i)) as [->|]; [rewrite lookup_insert_eq; eauto|].
  rewrite lookup_insert_ne by done. by apply H.
Qed.

Lemma copy_up m k dst src : dst < src \/ src + Z.of_nat k <= dst -> there m src (Z.of_nat k) -> there m dst (Z.of_nat k) ->
  exists m', copy_loop k 1 dst src m = Ok tt m' /\ copied m m' dst src (Z.of_nat k).
Proof.
  revert m dst src. induction k as [|k IH]; intros m dst src Ho Hs Hd.
  - exists m. split; [done|]. split; [intros i Hi; lia|done].
  - destruct (Hs 0 ltac:(lia)) as [c Hc]. rewrite Z.add_0_r in Hc. pose proof (Hd 0 ltac:(lia)) as H0. rewrite Z.add_0_r in H0.
    destruct (IH (<[dst := c]> m) (dst + 1) (src + 1)) as (m' & E & H1 & H2); [lia|..].
    { apply there_insert. intros i Hi. replace (src + 1 + i) with (src + (i + 1)) by lia. apply Hs. lia. }
    { apply there_insert. intros i Hi. replace (dst + 1 + i) with (dst + (i + 1)) by lia. apply Hd. lia. }
    exists m'. split; [|split].
    + cbn [copy_loop]. step_get Hc. by rewrite (bind_ok _ _ _ _ _ (put_run _ _ c H0)).
    + intros i Hi. destruct (decide (i = 0)) as [->|Hne].
      * rewrite !Z.add_0_r, H2 by lia. by rewrite lookup_insert_eq.
      * replace (dst + i) with (dst + 1 + (i - 1)) by lia. rewrite H1 by lia.
        rewrite lookup_insert_ne by lia. f_equal. lia.
    + intros a Ha. rewrite H2 by lia. by rewrite lookup_insert_ne by lia.
Qed.

Lemma copy_down m k dst src : src < dst ->
  there m (src - Z.of_nat k + 1) (Z.of_nat k) -> there m (dst - Z.of_nat k + 1) (Z.of_nat k) ->
  exists m', copy_loop k (-1) dst src m = Ok tt m' /\
    copied m m' (dst - Z.of_nat k + 1) (src - Z.of_nat k + 1) (Z.of_nat k).
Proof.
  revert m dst src. induction k as [|k IH]; intros m dst src Ho Hs Hd.
  - exists m. split; [done|]. split; [intros i Hi; lia|done].
  - destruct (Hs (Z.of_nat k) ltac:(lia)) as [c Hc]. replace (src - Z.of_nat (S k) + 1 + Z.of_nat k) with src in Hc by lia.
    pose proof (Hd (Z.of_nat k) ltac:(lia)) as H0. replace (dst - Z.of_nat (S k) + 1 + Z.of_nat k) with dst in H0 by lia.
    destruct (IH (<[dst := c]> m) (dst + -1) (src + -1)) as (m' & E & H1 & H2); [lia|..].
    { apply there_insert. intros i Hi. replace (src + -1 - Z.of_nat k + 1 + i) with (src - Z.of_nat (S k) + 1 + i) by lia. apply Hs. lia. }
    { apply there_insert. intros i Hi. replace (dst + -1 - Z.of_nat k + 1 + i) with (dst - Z.of_nat (S k) + 1 + i) by lia. apply Hd. lia. }
    exists m'. split; [|split].
    + cbn [copy_loop]. step_get Hc. by rewrite (bind_ok _ _ _ _ _ (put_run _ _ c H0)).
    + intros i Hi. destruct (decide (i = Z.of_nat k)) as [->|Hne].
      * replace (dst - Z.of_nat (S k) + 1 + Z.of_nat k) with dst by lia.
        replace (src - Z.of_nat (S k) + 1 + Z.of_nat k) with src by lia. rewrite H2 by lia. by rewrite lookup_insert_eq, Hc.
      * replace (dst - Z.of_nat (S k) + 1 + i) with (dst + -1 - Z.of_nat k + 1 + i) by lia. rewrite H1 by lia.
        rewrite lookup_insert_ne by lia. f_equal. lia.
    + intros a Ha. rewrite H2 by lia. by rewrite lookup_insert_ne by lia.
Qed.

Lemma set_run m k b c : there m b (Z.of_nat k) ->
  exists m', set_loop k b c m = Ok tt m' /\ (forall i, 0 <= i < Z.of_nat k -> m' !! (b + i) = Some c) /\
    (forall a, ~ (b <= a < b + Z.of_nat k) -> m' !! a = m !! a).
Proof.
  revert m b. induction k as [|k IH]; intros m b Hd.
  - exists m. split; [done|]. split; [intros i Hi; lia|done].
  - pose proof (Hd 0 ltac:(lia)) as H0. rewrite Z.add_0_r in H0.
    destruct (IH (<[b := c]> m) (b + 1)) as (m' & E & H1 & H2).
    { apply there_insert. intros i Hi. replace (b + 1 + i) with (b + (i + 1)) by lia. apply Hd. lia. }
    exists m'. split; [|split].
    + cbn [set_loop]. by rewrite (bind_ok _ _ _ _ _ (put_run _ _ c H0)).
    + intros i Hi. destruct (decide (i = 0)) as [->|Hne].
      * rewrite Z.add_0_r, H2 by lia. by rewrite lookup_insert_eq.
      * replace (b + i) with (b + 1 + (i - 1)) by lia. by apply H1; lia.
    + intros a Ha. rewrite H2 by lia. by rewrite lookup_insert_ne by lia.
Qed.

(** [memcpy] between disjoint buffers, [memmove] to a lower address, also
    when the buffers overlap, and [memset] do what they should and touch no other
    byte.  [memmove] to a higher address is one byte off: the first byte of the
    destination is not written, and the byte behind its end is. *)
Theorem memory_functions m dst src n c :
  0 <= n -> there m src (n + 1) -> there m dst (n + 1) ->
  (dst + n <= src \/ src + n <= dst ->
   exists m', memcpy dst src n m = Ok dst m' /\ copied m m' dst src n) /\
  (dst < src -> exists r m', memmove dst src n m = Ok r m' /\ copied m m' dst src n) /\
  (src < dst -> exists r m', memmove dst src n m = Ok r m' /\ copied m m' (dst + 1) (src + 1) n) /\
  (exists m', memset dst c n m = Ok (dst + n) m' /\ (forall i, 0 <= i < n -> m' !! (dst + i) = Some (u8 c)) /\
     forall a, ~ (dst <= a < dst + n) -> m' !! a = m !! a).
Proof.
  intros Hn Hs Hd. assert (Z.of_nat (Z.to_nat n) = n) as En by lia.
  assert (there m src (Z.of_nat (Z.to_nat n)) /\ there m dst (Z.of_nat (Z.to_nat n))) as [Hs' Hd'].
  { split; intros i Hi; [apply Hs|apply Hd]; lia. }
  split; [|split; [|split] ].
  - intros Ho. destruct (copy_up m (Z.to_nat n) dst src ltac:(lia) Hs' Hd') as (m' & E & H). rewrite En in H.
    exists m'. split; [|done]. unfold memcpy. by rewrite (bind_ok _ _ _ _ _ E).
  - intros Ho. destruct (copy_up m (Z.to_nat n) dst src (or_introl Ho) Hs' Hd') as (m' & E & H). rewrite En in H.
    exists (dst + n), m'. split; [|done]. unfold memmove. rewrite (proj2 (Z.ltb_lt _ _) Ho). by rewrite (bind_ok _ _ _ _ _ E).
  - intros Ho. destruct (copy_down m (Z.to_nat n) (dst + n) (src + n)) as (m' & E & H).
    + lia.
    + intros i Hi. replace (src + n - Z.of_nat (Z.to_nat n) + 1 + i) with (src + (i + 1)) by lia. apply Hs. lia.
    + intros i Hi. replace (dst + n - Z.of_nat (Z.to_nat n) + 1 + i) with (dst + (i + 1)) by lia. apply Hd. lia.
    + rewrite En in H. replace (dst + n - n + 1) with (dst + 1) in H by lia. replace (src + n - n + 1) with (src + 1) in H by lia.
      exists (dst + n - n), m'. split; [|done]. unfold memmove. rewrite (proj2 (Z.ltb_ge _ _)) by lia.
      rewrite (proj2 (Z.gtb_lt _ _) Ho). by rewrite (bind_ok _ _ _ _ _ E).
  - destruct (set_run m (Z.to_nat n) dst (u8 c) Hd') as (m' & E & H1 & H2). rewrite En in H1, H2.
    exists m'. split; [|done]. unfold memset. by rewrite (bind_ok _ _ _ _ _ E).
Qed.

(** [memcmp] looks at the bytes from its pointers downwards. *)
Lemma memcmp_down m s1 s2 k :
  there m (s1 - Z.of_nat k + 1) (Z.of_nat k) -> there m (s2 - Z.of_nat k + 1) (Z.of_nat k) ->
  exists r, memcmp_loop k s1 s2 m = Ok r m /\
    (r = 0 <-> forall i, 0 <= i < Z.of_nat k -> m !! (s1 - i) = m !! (s2 - i)).
Proof.
  revert s1 s2. induction k as [|k IH]; intros s1 s2 H1 H2; [exists 0; split; [done|]; split; [intros _ i Hi; lia|done]|].
  destruct (H1 (Z.of_nat k) ltac:(lia)) as [a Ha]. replace (s1 - Z.of_nat (S k) + 1 + Z.of_nat k) with s1 in Ha by lia.
  destruct (H2 (Z.of_nat k) ltac:(lia)) as [b Hb]. replace (s2 - Z.of_nat (S k) + 1 + Z.of_nat k) with s2 in Hb by lia.
  cbn [memcmp_loop]. step_get Ha. step_get Hb. destruct (Z.eqb_spec a b) as [->|Hne].
  - destruct (IH (s1 - 1) (s2 - 1)) as (r & E & Hr).
    { intros i Hi. replace (s1 - 1 - Z.of_nat k + 1 + i) with (s1 - Z.of_nat (S k) + 1 + i) by lia. apply H1. lia. }
    { intros i Hi. replace (s2 - 1 - Z.of_nat k + 1 + i) with (s2 - Z.of_nat (S k) + 1 + i) by lia. apply H2. lia. }
    exists r. split; [done|]. rewrite Hr. split; intros H i Hi.
    + destruct (decide (i = 0)) as [->|]; [by rewrite !Z.sub_0_r, Ha, Hb|].
      replace (s1 - i) with (s1 - 1 - (i - 1)) by lia. replace (s2 - i) with (s2 - 1 - (i - 1)) by lia. apply H. lia.
    + replace (s1 - 1 - i) with (s1 - (i + 1)) by lia. replace (s2 - 1 - i) with (s2 - (i + 1)) by lia. apply H. lia.
  - exists (if a <? b then -1 else 1). split; [by destruct (a <? b)|]. split; [by destruct (a <? b)|].
    intros H. specialize (H 0 ltac:(lia)). rewrite !Z.sub_0_r, Ha, Hb in H. congruence.
Qed.

(** [memcmp] goes down from its pointers instead of up: it reports equality
    exactly when the bytes at the two addresses and the [n - 1] bytes before each
    agree. *)
Theorem memcmp_backwards m s1 s2 n :
  0 <= n -> there m (s1 - n + 1) n -> there m (s2 - n + 1) n ->
  exists r, memcmp s1 s2 n m = Ok r m /\ (r = 0 <-> forall i, 0 <= i < n -> m !! (s1 - i) = m !! (s2 - i)).
Proof.
  intros Hn H1 H2. unfold memcmp. pose proof (memcmp_down m s1 s2 (Z.to_nat n)) as H. rewrite Z2Nat.id in H by lia. by apply H.
Qed.

(** ** Tokens *)

(** Where the first delimiter is. *)
Fixpoint find_delim (ds s : list Z) : option nat :=
  match s with
  | [] => None
  | c :: s' => if decide (c ∈ ds) then Some O else S <$> find_delim ds s'
  end.

(** A string away from the memory of another. *)
Definition away (p : Z) (s : list Z) (q : Z) (t : list Z) : Prop :=
  p + Z.of_nat (length s) < q \/ q + Z.of_nat (length t) < p.

Lemma list_find_eq (c : Z) (s : list Z) : match list_find (eq c) s with Some (i, _) => c ∈ s | None => c ∉ s end.
Proof.
  induction s as [|x s IH]; [apply not_elem_of_nil|]. cbn [list_find]. destruct (decide (c = x)) as [->|Hne]; [left|].
  destruct (list_find (eq c) s) as [[i y]|]; simpl; [by right|]. by intros [?|?]%elem_of_cons.
Qed.

Lemma strsep_loop_run m p s d ds fuel : cstr m p s -> cstr m d ds -> (length s < fuel)%nat -> 0 < d ->
  strsep_loop fuel p d m =
  match find_delim ds s with
  | Some i => Ok (p + Z.of_nat i + 1) (<[p + Z.of_nat i := 0]> m)
  | None => Ok (p + Z.of_nat (length s)) m
  end.
Proof.
  revert p fuel. induction s as [|x s IH]; intros p fuel [Hs H] Hd Hf Hd0; (destruct fuel as [|fuel]; [simpl in Hf; lia|]);
    destruct H as [E H]; cbn [strsep_loop]; step_get E; [simpl; by rewrite Z.add_0_r|].
  apply Forall_cons in Hs as [Hx Hs]. rewrite (truth_char _ Hx). rewrite (bind_ok _ _ _ _ _ (strchr_run m d ds x Hd)).
  pose proof (list_find_eq x ds) as Hfind. cbn [find_delim]. destruct (list_find (eq x) ds) as [[i y]|].
  - rewrite decide_True by done. rewrite truth_pos by lia.
    rewrite (bind_ok _ _ _ _ _ (put_run m p 0 ltac:(eauto))). by rewrite Z.add_0_r.
  - rewrite decide_False by done. change (truth NULL) with false. cbv iota.
    rewrite (IH (p + 1)) by (done || (simpl in Hf; lia)). destruct (find_delim ds s) as [i|]; cbn [fmap option_fmap option_map].
    + by replace (p + 1 + Z.of_nat i) with (p + Z.of_nat (S i)) by lia.
    + f_equal. simpl. lia.
Qed.

Lemma find_delim_split ds s i : find_delim ds s = Some i ->
  exists c, s = take i s ++ c :: drop (S i) s /\ c ∈ ds /\ Forall (fun c => c ∉ ds) (take i s) /\ length (take i s) = i.
Proof.
  revert i. induction s as [|x s IH]; intros i; simpl; [done|]. destruct (decide (x ∈ ds)) as [Hx|Hx].
  - intros [= <-]. exists x. by repeat constructor.
  - destruct (find_delim ds s) as [j|]; simpl; [|done]. intros [= <-].
    destruct (IH j eq_refl) as (c & E & Hc & Hf & Hl). exists c. simpl. split; [by f_equal|]. split; [done|].
    split; [by constructor|by f_equal].
Qed.

Lemma cstr_cut m p s i : cstr m p s -> (i < length s)%nat ->
  cstr (<[p + Z.of_nat i := 0]> m) p (take i s) /\ cstr (<[p + Z.of_nat i := 0]> m) (p + Z.of_nat i + 1) (drop (S i) s).
Proof.
  intros [Hs H] Hi. rewrite <-(take_drop (S i) s), <-app_assoc in H. apply holds_app in H as [H1 H2].
  assert (length (take i s) = i /\ length (take (S i) s) = S i) as [L1 L2] by (rewrite !length_take; lia).
  split; (split; [by (apply Forall_take || apply Forall_drop)|]).
  - apply holds_app. rewrite L1. split; [|simpl; by rewrite lookup_insert_eq].
    assert (take (S i) s = take i s ++ drop i (take (S i) s)) as E.
    { rewrite <-(take_drop i (take (S i) s)) at 1. rewrite take_take. by replace (i `min` S i)%nat with i by lia. }
    rewrite E in H1. apply holds_app in H1 as [H1 _]. eapply holds_ext; [|exact H1].
    intros a Ha. rewrite L1 in Ha. by rewrite lookup_insert_ne by lia.
  - rewrite L2 in H2. replace (p + Z.of_nat i + 1) with (p + Z.of_nat (S i)) by lia.
    eapply holds_ext; [|exact H2]. intros a Ha. by rewrite lookup_insert_ne by lia.
Qed.

Lemma cstr_insert m p s a v : cstr m p s -> ~ (p <= a <= p + Z.of_nat (length s)) -> cstr (<[a := v]> m) p s.
Proof.
  intros [Hs H] Ha. split; [done|]. eapply holds_ext; [|exact H]. intros b Hb. rewrite length_app in Hb. simpl in Hb.
  by rewrite lookup_insert_ne by lia.
Qed.

Lemma cstr_drop m p s i : cstr m p s -> (i <= length s)%nat -> cstr m (p + Z.of_nat i) (drop i s).
Proof.
  intros [Hs H] Hi. split; [by apply Forall_drop|]. rewrite <-(take_drop i s), <-app_assoc in H.
  apply holds_app in H as [_ H]. rewrite length_take, Nat.min_l in H by done. exact H.
Qed.

Lemma cstr_head m p s : cstr m p s -> m !! p = Some (hd_or 0 s).
Proof. destruct s as [|c s]; by intros [_ [E _]]. Qed.

Lemma strsep_run m p s d ds : cstr m p s -> cstr m d ds -> 0 < d -> 0 <= p ->
  strsep p d m =
  match find_delim ds s with
  | Some i => Ok (p, if bool_decide (drop (S i) s = []) then NULL else p + Z.of_nat i + 1) (<[p + Z.of_nat i := 0]> m)
  | None => Ok (p, NULL) m
  end.
Proof.
  intros Hs Hd Hd0 Hp. unfold strsep. rewrite (truth_pos d) by lia.
  rewrite (bind_ok _ _ m tt m) by done. unfold fuel_mem. rewrite (bind_ok _ _ m (S (size m)) m) by done.
  pose proof (strsep_loop_run m p s d ds (S (size m)) Hs Hd ltac:(by eapply cstr_fuel) Hd0) as E.
  destruct (find_delim ds s) as [i|] eqn:Ef.
  - rewrite (bind_ok _ _ _ _ _ E). destruct (find_delim_split _ _ _ Ef) as (c & Es & _ & _ & Hl).
    assert (i < length s)%nat as Hi by (rewrite Es, length_app; simpl; lia).
    destruct (cstr_cut m p s i Hs Hi) as [_ H2]. step_get (cstr_head _ _ _ H2). unfold ret. do 2 f_equal.
    destruct (drop (S i) s) as [|y t]; [done|]. simpl. destruct H2 as [Hy _]. apply Forall_cons in Hy as [Hy _]. unfold is_char in Hy.
    by rewrite (proj2 (Z.eqb_neq y 0)) by lia.
  - rewrite (bind_ok _ _ _ _ _ E). destruct Hs as [_ H]. apply holds_app in H as [_ [H _]]. by step_get H.
Qed.

Lemma strsep_null m d ds : cstr m d ds -> 0 < d -> m !! NULL = None -> strsep NULL d m = Fault WildAccess.
Proof.
  intros Hd Hd0 H0. unfold strsep. rewrite (truth_pos d) by lia.
  rewrite (bind_ok _ _ m tt m) by done. unfold fuel_mem. rewrite (bind_ok _ _ m (S (size m)) m) by done.
  cbn [strsep_loop]. unfold bind, get_byte, deref. by rewrite H0.
Qed.

Lemma strsep_ext_empty m p s d ds fuel : cstr m p s -> cstr m d ds -> 0 < d -> 0 < p -> Forall (fun c => c ∈ ds) s ->
  away p s d ds -> m !! NULL = None -> (length s + 1 < fuel)%nat -> strsep_ext_loop fuel p d m = Fault WildAccess.
Proof.
  revert p m fuel. induction s as [|x s IH]; intros p m fuel Hs Hd Hd0 Hp Hall Haway H0 Hf;
    (destruct fuel as [|[|fuel] ]; [simpl in Hf; lia|simpl in Hf; lia|]);
    pose proof (strsep_run m p _ d ds Hs Hd Hd0 ltac:(lia)) as E; cbn [find_delim] in E; cbn [strsep_ext_loop].
  - rewrite (bind_ok _ _ _ _ _ E). cbv beta iota. rewrite (truth_pos p) by lia.
    rewrite (bind_ok _ _ _ _ _ (strlen_run m p [] Hs)). simpl. unfold bind. by rewrite (strsep_null m d ds).
  - apply Forall_cons in Hall as [Hx Hall]. rewrite decide_True in E by done. rewrite Z.add_0_r in E.
    destruct (cstr_cut m p (x :: s) 0 Hs ltac:(simpl; lia)) as [H1 H2]. rewrite Z.add_0_r in H1, H2. simpl in H1, H2.
    unfold away in Haway. cbn [length] in Haway. set (m' := <[p := 0]> m) in *.
    assert (cstr m' d ds) as Hd' by (apply cstr_insert; [done|lia]).
    assert (m' !! NULL = None) as H0' by (unfold m'; rewrite lookup_insert_ne; [done|unfold NULL; lia]).
    rewrite (bind_ok _ _ _ _ _ E). cbv beta iota. rewrite (truth_pos p) by lia.
    rewrite (bind_ok _ _ _ _ _ (strlen_run m' p [] H1)). cbn [length Z.of_nat Z.eqb drop].
    change (Z.of_nat 0 =? 0) with true. cbv iota. destruct (decide (s = [])) as [Hnil|Hnil].
    + rewrite bool_decide_true by done. unfold bind at 1. by rewrite (strsep_null m' d ds).
    + rewrite bool_decide_false by done. change (strsep_ext_loop (S fuel) (p + 1) d m' = Fault WildAccess).
      apply IH; try done; [lia|unfold away; lia|simpl in Hf; lia].
Qed.

(** [strsep] cuts a string at its first delimiter: the token before it is
    terminated in place, and [*stringp] is set to the string behind it, or to
    NULL when nothing follows or there was no delimiter.  [strsep_ext] skips
    empty tokens, but when there is no other token it follows the NULL that
    [strsep] left and dereferences it. *)
Theorem strsep_tokens m p s d ds :
  cstr m p s -> cstr m d ds -> 0 < d -> 0 < p ->
  match find_delim ds s with
  | Some i =>
      exists m', strsep p d m = Ok (p, if bool_decide (drop (S i) s = []) then NULL else p + Z.of_nat i + 1) m' /\
        cstr m' p (take i s) /\ cstr m' (p + Z.of_nat i + 1) (drop (S i) s) /\
        (forall a, a <> p + Z.of_nat i -> m' !! a = m !! a)
  | None => strsep p d m = Ok (p, NULL) m
  end /\
  (Forall (fun c => c ∈ ds) s -> away p s d ds -> m !! NULL = None -> strsep_ext p d m = Fault WildAccess).
Proof.
  intros Hs Hd Hd0 Hp. split.
  - pose proof (strsep_run m p s d ds Hs Hd Hd0 ltac:(lia)) as E. destruct (find_delim ds s) as [i|] eqn:Ef; [|exact E].
    destruct (find_delim_split _ _ _ Ef) as (c & Es & _ & _ & Hl).
    assert (i < length s)%nat as Hi by (rewrite Es, length_app; simpl; lia).
    destruct (cstr_cut m p s i Hs Hi) as [H1 H2]. eexists. split; [exact E|]. split; [done|]. split; [done|].
    intros a Ha. by rewrite lookup_insert_ne.
  - intros Hall Haway H0. unfold strsep_ext, fuel_mem. rewrite (bind_ok _ _ m (S (size m)) m) by done.
    eapply strsep_ext_empty; try done. destruct Hs as [_ H]. apply holds_fuel in H. rewrite length_app in H. simpl in H. lia.
Qed.

(** ** Witnesses *)

(** [m] with [bs] at [p]. *)
Fixpoint poke (p : Z) (bs : list Z) (m : bytes) : bytes :=
  match bs with [] => m | c :: bs' => <[p := c]> (poke (p + 1) bs' m) end.

(** A terminated string, a buffer, in a concrete memory. *)
Ltac concrete_cstr :=
  split; [repeat (apply Forall_cons; split; [unfold is_char; lia|]); by apply Forall_nil|vm_compute; repeat split].

Lemma there_dec m p n : 0 <= n -> forallb (fun i => bool_decide (is_Some (m !! (p + i)))) (seqZ 0 n) = true -> there m p n.
Proof.
  intros Hn H i Hi. rewrite forallb_forall in H. apply (bool_decide_unpack (is_Some (m !! (p + i)))), Is_true_true, H, list_elem_of_In, elem_of_seqZ. lia.
Qed.

(** "ab" at 10, "abc" at 20. *)
Definition two_strings : bytes := poke 10 [97; 98; 0] (poke 20 [97; 98; 99; 0] empty).

Lemma strings_compare_witness :
  strncmp 10 20 2 two_strings = Ok 0 two_strings /\ strcmp 10 20 two_strings = Ok (-1) two_strings.
Proof.
  destruct (strings_compare two_strings 10 20 [97; 98] [97; 98; 99] 2) as (H1 & H2 & _);
    [concrete_cstr|concrete_cstr|lia|simpl; lia|simpl; lia|]. by split.
Defined.

(** Eight bytes from 10 on. *)
Definition buffer8 : bytes := poke 10 [1; 2; 3; 4; 5; 6; 7; 8] empty.

Lemma memory_functions_witness :
  (exists m', memcpy 10 14 3 buffer8 = Ok 10 m' /\ copied buffer8 m' 10 14 3) /\
  (exists r m', memmove 14 10 3 (poke 10 [1; 2; 3; 4; 5; 6; 7; 8] empty) = Ok r m' /\ copied buffer8 m' 15 11 3).
Proof.
  destruct (memory_functions buffer8 10 14 3 0) as (H1 & _); [lia|apply there_dec; [lia|reflexivity]..|].
  destruct (memory_functions buffer8 14 10 3 0) as (_ & _ & H2 & _); [lia|apply there_dec; [lia|reflexivity]..|].
  split; [apply H1; lia|apply H2; lia].
Defined.

Lemma memcmp_backwards_witness :
  exists r, memcmp 11 13 2 buffer8 = Ok r buffer8 /\ (r = 0 <-> forall i, 0 <= i < 2 -> buffer8 !! (11 - i) = buffer8 !! (13 - i)).
Proof. apply (memcmp_backwards buffer8 11 13 2); [lia|apply there_dec; [lia|reflexivity]..]. Defined.

(** "a b" at 10 and " " at 20. *)
Definition words2 : bytes := poke 10 [97; 32; 98; 0] (poke 20 [32; 0] empty).

Lemma strsep_tokens_witness :
  (exists m', strsep 10 20 words2 = Ok (10, 12) m' /\ cstr m' 10 [97] /\ cstr m' 12 [98]) /\
  strsep_ext 10 20 (poke 10 [32; 32; 0] (poke 20 [32; 0] empty)) = Fault WildAccess.
Proof.
  split.
  - destruct (strsep_tokens words2 10 [97; 32; 98] 20 [32]) as (H & _); [concrete_cstr|concrete_cstr|lia|lia|].
    destruct H as (m' & E & H1 & H2 & _). by exists m'.
  - eapply (strsep_tokens _ 10 [32; 32] 20 [32]); [concrete_cstr|concrete_cstr|lia|lia| |unfold away; simpl; lia|reflexivity].
    repeat (apply Forall_cons; split; [by left|]). by apply Forall_nil.
Defined.
