(* ===== verification/ReadlineSpec.v ===== *)
(** * ReadlineSpec: line editing

    What [readline] makes of the keys typed.  The file is given by what is still to
    be read from it ([input]) and what was written to it ([log]). *)
From S2P Require Import Prelude Fw File CString CStringSpec.

(** What may be typed before the end of a line.  [Sequence ps l] is ESC, [\[],
    parameters and a letter; [Escape c] is ESC and any other byte. *)
Inductive key :=
| Typed (c : Z)
| Erase (c : Z)
| Sequence (ps : list Z) (l : Z)
| Escape (c : Z).

Definition key_bytes (k : key) : list Z :=
  match k with
  | Typed c | Erase c => [c]
  | Sequence ps l => 27 :: 91 :: ps ++ [l]
  | Escape c => [27; c]
  end.

Definition control : list Z := [13; 10; 127; 8; 3; 27].

Definition wf_key (k : key) : Prop :=
  match k with
  | Typed c => c ∉ control
  | Erase c => c = 127 \/ c = 8
  | Sequence ps l => Forall (fun c => isalpha c = false) ps /\ isalpha l = true
  | Escape c => c <> 91
  end.

(** The line a key leaves, and what it echoes. *)
Definition edit (line : list Z) (k : key) : list Z :=
  match k with Typed c => line ++ [c] | Erase _ => removelast line | _ => line end.
Definition echo (line : list Z) (k : key) : list Z :=
  match k with Typed c => [c] | Erase _ => match line with [] => [] | _ => ERASE end | _ => [] end.

Fixpoint echoes (line : list Z) (ks : list key) : list Z :=
  match ks with [] => [] | k :: ks => echo line k ++ echoes (edit line k) ks end.

(** Every line in between leaves room for another character and its terminator. *)
Fixpoint fits (room : Z) (line : list Z) (ks : list key) : Prop :=
  Z.of_nat (length line) < room /\ match ks with [] => True | k :: ks => fits room (edit line k) ks end.

Lemma fits_here room line ks : fits room line ks -> Z.of_nat (length line) < room.
Proof. destruct ks; intros [H _]; exact H. Qed.

Lemma fits_next room line k ks : fits room line (k :: ks) -> fits room (edit line k) ks.
Proof. by intros [_ H]. Qed.

Section Readline.
Context {F : Type} (ops : file_operations F) (input log : F -> list Z).
Abbreviation io := (CString.io (F := F)).

(** A file that gives its input byte by byte and takes every write. *)
Record interactive : Prop := {
  gives : forall c cs f, input f = c :: cs -> exists f', read ops 1 f = ((1, [c]), f') /\ input f' = cs /\ log f' = log f;
  takes : forall bs f, exists r f', write ops bs f = (r, f') /\ log f' = log f ++ bs /\ input f' = input f }.
Context (Hops : interactive).

(** [s'] is [s] after [n] bytes were read and [bs] written to the file. *)
Definition file_is (s : io) (rest out : list Z) (m : bytes) : Prop :=
  iomem s = m /\ input (iofile s) = rest /\ log (iofile s) = out.

Lemma read_char_run (s : io) c rest out m : file_is s (c :: rest) out m ->
  exists s', read_char ops s = Ok (Some c) s' /\ file_is s' rest out m.
Proof.
  intros (Hm & Hi & Hl). destruct (gives Hops c rest (iofile s) Hi) as (f' & E & Hi' & Hl').
  exists (mk_io (iomem s) f'). split; [|split; [done|split; simpl; congruence] ].
  unfold read_char, file_read. unfold bind at 1. by rewrite E.
Qed.

Lemma write_run (s : io) bs rest out m : file_is s rest out m ->
  exists r s', file_write ops bs s = Ok r s' /\ file_is s' rest (out ++ bs) m.
Proof.
  intros (Hm & Hi & Hl). destruct (takes Hops bs (iofile s)) as (r & f' & E & Hl' & Hi').
  exists r, (mk_io (iomem s) f'). split; [unfold file_write; by rewrite E|].
  split; [done|]. split; simpl; congruence.
Qed.

Lemma put_io_run (s : io) p v rest out m : file_is s rest out m -> is_Some (m !! p) ->
  exists s', on_bytes (put_byte p v) s = Ok tt s' /\ file_is s' rest out (<[p := v]> m).
Proof.
  intros (Hm & Hi & Hl) Hp. exists (mk_io (<[p := v]> m) (iofile s)). split; [|done].
  unfold on_bytes. rewrite Hm. by rewrite put_run.
Qed.

Lemma skip_run (s : io) ps l rest out m fuel : file_is s (ps ++ l :: rest) out m ->
  Forall (fun c => isalpha c = false) ps -> isalpha l = true -> (length ps < fuel)%nat ->
  exists s', skip_sequence ops fuel s = Ok (Some tt) s' /\ file_is s' rest out m.
Proof.
  revert s fuel. induction ps as [|c ps IH]; intros s fuel Hs Hps Hl Hf; (destruct fuel as [|fuel]; [simpl in Hf; lia|]);
    destruct (read_char_run _ _ _ _ _ Hs) as (s1 & E & H1); cbn [skip_sequence]; rewrite (bind_ok _ _ _ _ _ E).
  - rewrite Hl. by exists s1.
  - apply Forall_cons in Hps as [Hc Hps]. rewrite Hc. simpl in Hf. apply (IH s1); [done..|lia].
Qed.

Context (buffer len : Z) (Hlen : 1 < len < 2 ^ 32).

(** What the loop keeps: the line so far is in the buffer, and only the first [top] bytes
    of the buffer changed. *)
Record typed (top : Z) (m0 m : bytes) (line : list Z) : Prop := {
  typed_line : holds m buffer line;
  typed_there : there m buffer (len + 1);
  typed_frame : forall a, ~ (buffer <= a < buffer + top) -> m !! a = m0 !! a }.

Lemma typed_char top m0 m line c : typed top m0 m line -> Z.of_nat (length line) < top ->
  typed top m0 (<[buffer + Z.of_nat (length line) := c]> m) (line ++ [c]).
Proof.
  intros [Hh Ht Hf] Hl. split.
  - apply holds_app. split; [|split; [by rewrite lookup_insert_eq|done] ].
    eapply holds_ext; [|exact Hh]. intros a Ha. by rewrite lookup_insert_ne by lia.
  - by apply there_insert.
  - intros a Ha. rewrite lookup_insert_ne by lia. by apply Hf.
Qed.

Lemma typed_more top top' m0 m line : typed top m0 m line -> top <= top' -> typed top' m0 m line.
Proof. intros [Hh Ht Hf] Hle. split; [done..|]. intros a Ha. apply Hf. lia. Qed.

Lemma typed_back top m0 m line : typed top m0 m line -> typed top m0 m (removelast line).
Proof.
  intros [Hh Ht Hf]. split; [|done..]. destruct line as [|c line] using rev_ind; [done|].
  rewrite removelast_last. by apply holds_app in Hh as [Hh _].
Qed.

(** One key. *)
Lemma loop_key top (s : io) k line rest out m0 m rounds :
  file_is s (key_bytes k ++ rest) out m -> wf_key k -> typed top m0 m line -> Z.of_nat (length line) < len - 1 ->
  Z.of_nat (length (edit line k)) <= top ->
  (length (key_bytes k) <= rounds)%nat ->
  exists s' m', readline_loop ops (S rounds) buffer len (Z.of_nat (length line)) s =
      readline_loop ops rounds buffer len (Z.of_nat (length (edit line k))) s' /\
    file_is s' rest (out ++ echo line k) m' /\ typed top m0 m' (edit line k).
Proof.
  intros Hs Hk Ht Hl Htop Hf. cbn [readline_loop]. rewrite (wrap_id 32 (len - 1)) by (unfold in_u; lia).
  rewrite (proj2 (Z.ltb_lt _ _) Hl). cbn [negb].
  destruct k as [c|c|ps l|c]; cbn [key_bytes app wf_key edit echo] in *;
    destruct (read_char_run _ _ _ _ _ Hs) as (s1 & E1 & H1); rewrite (bind_ok _ _ _ _ _ E1).
  - assert (((c =? 13) || (c =? 10)) = false /\ ((c =? 127) || (c =? 8)) = false /\ (c =? 3) = false /\ (c =? 27) = false) as (-> & -> & -> & ->).
    { unfold control in Hk. rewrite !not_elem_of_cons in Hk. lia. }
    destruct (write_run s1 [c] _ _ _ H1) as (r & s2 & E2 & H2). rewrite (bind_ok _ _ _ _ _ E2).
    destruct (put_io_run s2 (buffer + Z.of_nat (length line)) c _ _ _ H2) as (s3 & E3 & H3);
      [apply (typed_there _ _ _ _ Ht); lia|]. rewrite (bind_ok _ _ _ _ _ E3).
    rewrite length_app in Htop. cbn [length] in Htop. eexists s3, _. split; [|split; [exact H3|apply typed_char; [done|lia] ] ].
    f_equal. rewrite length_app. simpl. lia.
  - assert (((c =? 13) || (c =? 10)) = false /\ ((c =? 127) || (c =? 8)) = true) as (-> & ->) by lia.
    destruct line as [|x line'] eqn:El.
    + exists s1, m. rewrite app_nil_r. done.
    + rewrite <-El in *. assert (0 < length line)%nat as Hpos by (rewrite El; simpl; lia).
      rewrite (proj2 (Z.gtb_lt _ _)) by lia.
      destruct (write_run s1 ERASE _ _ _ H1) as (r & s2 & E2 & H2). rewrite (bind_ok _ _ _ _ _ E2).
      exists s2, m. split; [|split; [done|by apply typed_back] ]. f_equal.
      rewrite removelast_firstn_len, length_firstn. lia.
  - destruct Hk as [Hps Hl']. cbn [orb Z.eqb Pos.eqb].
    destruct (read_char_run _ _ _ _ _ H1) as (s2 & E2 & H2). rewrite (bind_ok _ _ _ _ _ E2). cbn [Z.eqb Pos.eqb].
    rewrite <-app_assoc in H2. simpl in Hf. rewrite length_app in Hf. simpl in Hf.
    destruct (skip_run s2 ps l rest out m rounds H2 Hps Hl' ltac:(lia)) as (s3 & E3 & H3). rewrite (bind_ok _ _ _ _ _ E3).
    exists s3, m. by rewrite app_nil_r.
  - cbn [orb Z.eqb Pos.eqb].
    destruct (read_char_run _ _ _ _ _ H1) as (s2 & E2 & H2). rewrite (bind_ok _ _ _ _ _ E2).
    rewrite (proj2 (Z.eqb_neq c 91) Hk). exists s2, m. by rewrite app_nil_r.
Qed.

Lemma loop_keys top ks (s : io) line rest out m0 m rounds :
  file_is s (flat_map key_bytes ks ++ rest) out m -> Forall wf_key ks -> typed top m0 m line -> fits (top + 1) line ks -> top < len - 1 ->
  (length (flat_map key_bytes ks) < rounds)%nat ->
  exists s' m' rounds', readline_loop ops rounds buffer len (Z.of_nat (length line)) s =
      readline_loop ops (S rounds') buffer len (Z.of_nat (length (foldl edit line ks))) s' /\
    file_is s' rest (out ++ echoes line ks) m' /\ typed top m0 m' (foldl edit line ks) /\
    Z.of_nat (length (foldl edit line ks)) < len - 1.
Proof.
  revert s line out m rounds. induction ks as [|k ks IH]; intros s line out m rounds Hs Hk Ht Hfit Htop Hf;
    (destruct rounds as [|rounds]; [lia|]); cbn [flat_map foldl echoes app] in *.
  - exists s, m, rounds. rewrite app_nil_r. pose proof (fits_here _ _ _ Hfit). split; [done|]. split; [done|]. split; [done|lia].
  - apply Forall_cons in Hk as [Hk Hks]. rewrite <-app_assoc in Hs. rewrite length_app in Hf.
    assert (0 < length (key_bytes k))%nat as Hpos by (destruct k; simpl; lia).
    pose proof (fits_here _ _ _ Hfit) as Hl. apply fits_next in Hfit. pose proof (fits_here _ _ _ Hfit) as Hl'.
    destruct (loop_key top s k line _ out m0 m rounds Hs Hk Ht ltac:(lia) ltac:(lia) ltac:(lia)) as (s1 & m1 & E1 & H1 & Ht1).
    destruct (IH s1 (edit line k) _ m1 rounds H1 Hks Ht1 Hfit Htop ltac:(lia)) as (s2 & m2 & r' & E2 & H2 & Ht2 & Hl2).
    exists s2, m2, r'. rewrite E1, E2. split; [done|]. split; [by rewrite app_assoc|done].
Qed.
End Readline.

Lemma readline_run {F : Type} (ops : file_operations F) input log s buffer len ks nl rest rounds :
  interactive ops input log -> 1 < len < 2 ^ 32 -> there (iomem s) buffer (len + 1) ->
  Forall wf_key ks -> fits (len - 1) [] ks -> nl = 13 \/ nl = 10 ->
  input (iofile s) = flat_map key_bytes ks ++ nl :: rest -> (length (flat_map key_bytes ks) < rounds)%nat ->
  let line := foldl edit [] ks in
  exists s', readline ops rounds buffer len s = Ok (Z.of_nat (length line) + 1) s' /\
    holds (iomem s') buffer (line ++ [0]) /\
    input (iofile s') = rest /\ log (iofile s') = log (iofile s) ++ echoes [] ks ++ CRLF /\
    (forall a, ~ (buffer <= a < buffer + len) -> a <> buffer + Z.of_nat (length line) + 2 -> iomem s' !! a = iomem s !! a) /\
    iomem s' !! (buffer + Z.of_nat (length line) + 2) = Some 0.
Proof.
  intros Hops Hlen Hth Hks Hfit Hnl Hin Hr line.
  assert (typed buffer len (len - 2) (iomem s) (iomem s) []) as Ht by (split; done).
  destruct (loop_keys ops input log Hops buffer len Hlen (len - 2) ks s [] (nl :: rest) (log (iofile s)) (iomem s) (iomem s) rounds)
    as (s1 & m1 & r' & E1 & H1 & Ht1 & Hl1); [by split|done|done|by replace (len - 2 + 1) with (len - 1) by lia|lia|done|].
  fold line in E1, Ht1, Hl1. apply (typed_more _ _ _ len) in Ht1; [|lia].
  set (i := Z.of_nat (length line)) in *.
  destruct (read_char_run ops input log Hops _ _ _ _ _ H1) as (s2 & E2 & H2).
  destruct (put_io_run input log s2 (buffer + i) 0 _ _ _ H2) as (s3 & E3 & H3); [apply (typed_there _ _ _ _ _ _ Ht1); lia|].
  destruct (write_run ops input log Hops s3 CRLF _ _ _ H3) as (r & s4 & E4 & H4).
  pose proof (typed_char buffer len len (iomem s) m1 line 0 Ht1 ltac:(lia)) as [Hh Hth2 Hfr]. fold i in Hh, Hth2, Hfr.
  destruct (put_io_run input log s4 (buffer + (i + 1 + 1)) 0 _ _ _ H4) as (s5 & E5 & Hm & Hi & Hlog); [apply Hth2; lia|].
  exists s5. rewrite Hm. split; [|split; [|split; [done|split; [by rewrite Hlog, <-app_assoc|split] ] ] ].
  - assert (readline_loop ops rounds buffer len 0 s = Ok (inl (i + 1)) s4) as E.
    { etransitivity; [exact E1|]. cbn [readline_loop]. rewrite (wrap_id 32 (len - 1)) by (unfold in_u; lia).
      rewrite (proj2 (Z.ltb_lt _ _) Hl1). cbn [negb]. rewrite (bind_ok _ _ _ _ _ E2).
      replace ((nl =? 13) || (nl =? 10)) with true by lia.
      by rewrite (bind_ok _ _ _ _ _ E3), (bind_ok _ _ _ _ _ E4). }
    unfold readline. rewrite (bind_ok _ _ _ _ _ E). by rewrite (bind_ok _ _ _ _ _ E5).
  - eapply holds_ext; [|exact Hh]. intros a Ha. rewrite length_app in Ha. simpl in Ha. by rewrite lookup_insert_ne by lia.
  - intros a Ha Hne. rewrite lookup_insert_ne by lia. by apply Hfr.
  - replace (buffer + (i + 1 + 1)) with (buffer + i + 2) by lia. by rewrite lookup_insert_eq.
Qed.

(** Ctrl-C behind the keys: [readline] returns 0, and leaves in the buffer what it held
    behind the line, when no line in between was longer. *)
Lemma readline_interrupted {F : Type} (ops : file_operations F) input log s buffer len ks rest rounds :
  interactive ops input log -> 1 < len < 2 ^ 32 -> there (iomem s) buffer (len + 1) ->
  let line := foldl edit [] ks in let n := Z.of_nat (length line) in
  Forall wf_key ks -> fits (n + 1) [] ks -> n < len - 1 ->
  input (iofile s) = flat_map key_bytes ks ++ 3 :: rest -> (length (flat_map key_bytes ks) < rounds)%nat ->
  exists s', readline ops rounds buffer len s = Ok 0 s' /\ holds (iomem s') buffer line /\
    input (iofile s') = rest /\ log (iofile s') = log (iofile s) ++ echoes [] ks ++ CRLF /\
    (forall a, ~ (buffer <= a < buffer + n) -> iomem s' !! a = iomem s !! a).
Proof.
  intros Hops Hlen Hth line n Hks Hfit Hn Hin Hr.
  assert (typed buffer len n (iomem s) (iomem s) []) as Ht by (split; done).
  destruct (loop_keys ops input log Hops buffer len Hlen n ks s [] (3 :: rest) (log (iofile s)) (iomem s) (iomem s) rounds)
    as (s1 & m1 & r' & E1 & H1 & [Hh _ Hfr] & Hl1); [by split|done..|]. fold line in E1, Hh, Hl1.
  destruct (read_char_run ops input log Hops _ _ _ _ _ H1) as (s2 & E2 & H2).
  destruct (write_run ops input log Hops s2 CRLF _ _ _ H2) as (r & s3 & E3 & Hm & Hi & Hlog).
  exists s3. rewrite Hm. split; [|split; [done|split; [done|split; [by rewrite Hlog, <-app_assoc|exact Hfr] ] ] ].
  assert (readline_loop ops rounds buffer len 0 s = Ok (inr 0) s3) as E.
  { etransitivity; [exact E1|]. cbn [readline_loop]. rewrite (wrap_id 32 (len - 1)) by (unfold in_u; lia).
    rewrite (proj2 (Z.ltb_lt _ _) Hl1). cbn [negb]. rewrite (bind_ok _ _ _ _ _ E2). cbn [orb Z.eqb Pos.eqb].
    by rewrite (bind_ok _ _ _ _ _ E3). }
  unfold readline. by rewrite (bind_ok _ _ _ _ _ E).
Qed.

(** [readline] edits a line: the keys typed up to a carriage return or line
    feed - characters, backspaces and escape sequences, whose lines all leave
    room in the buffer - give the edited line in the buffer, terminated; the
    characters are echoed and the erased ones erased; the loop ends, all keys are
    consumed and nothing outside the buffer changes but for one byte: the result
    is one more than the length, and a zero is also stored two bytes behind the
    line, which for a line of [len - 2] characters is one byte past the buffer. *)
Theorem readline_edits {F : Type} (ops : file_operations F) input log s buffer len ks nl rest rounds :
  interactive ops input log -> 1 < len < 2 ^ 32 -> there (iomem s) buffer (len + 1) ->
  Forall wf_key ks -> fits (len - 1) [] ks -> nl = 13 \/ nl = 10 ->
  input (iofile s) = flat_map key_bytes ks ++ nl :: rest -> (length (flat_map key_bytes ks) < rounds)%nat ->
  let line := foldl edit [] ks in
  exists s', readline ops rounds buffer len s = Ok (Z.of_nat (length line) + 1) s' /\
    holds (iomem s') buffer (line ++ [0]) /\
    input (iofile s') = rest /\ log (iofile s') = log (iofile s) ++ echoes [] ks ++ CRLF /\
    (forall a, ~ (buffer <= a < buffer + len) -> a <> buffer + Z.of_nat (length line) + 2 -> iomem s' !! a = iomem s !! a) /\
    iomem s' !! (buffer + Z.of_nat (length line) + 2) = Some 0.
Proof. apply readline_run. Qed.

(** ** Witness *)

Lemma term_interactive : interactive term_ops keys screen.
Proof.
  split.
  - intros c cs [ks sc] E. simpl in E. subst ks. eexists. split; [reflexivity|done].
  - intros bs f. eexists _, _. split; [reflexivity|done].
Qed.

(** "ax", backspace, cursor up, "b", return: the line "ab". *)
Definition example_keys : list key := [Typed 97; Typed 120; Erase 127; Sequence [] 65; Typed 98].
Definition example_terminal : CString.io (F := terminal) :=
  mk_io (poke 10 [7; 7; 7; 7; 7; 7; 7] empty) (mk_term (flat_map key_bytes example_keys ++ [13; 99]) []).

Lemma readline_edits_witness :
  exists s', readline term_ops 20 10 6 example_terminal = Ok 3 s' /\ holds (iomem s') 10 [97; 98; 0] /\ keys (iofile s') = [99].
Proof.
  destruct (readline_edits term_ops keys screen example_terminal 10 6 example_keys 13 [99] 20 term_interactive)
    as (s' & E & Hh & Hi & _); [lia|apply there_dec; [lia|reflexivity]| |simpl; lia|by left|reflexivity|simpl; lia|].
  - repeat (apply Forall_cons; split; [first [by left|split; [by apply Forall_nil|reflexivity]|
      unfold wf_key, control; rewrite !not_elem_of_cons; repeat split; (lia || by apply not_elem_of_nil)]|]). by apply Forall_nil.
  - by exists s'.
Defined.
