(* ===== verification/Printf.v ===== *)
(** * Printf: formatted output

    [lib/printf/printf.c].  The arguments of a variadic call are a list of words;
    to ask for more than there are is a [WildAccess]. *)
From S2P Require Import Prelude Fw File CString.

Section Printf.
Context {F : Type} (ops : file_operations F).
Abbreviation io := (CString.io (F := F)).

(** "0123456789ABCDEF" *)
Definition numberDefinitions : list Z := [48; 49; 50; 51; 52; 53; 54; 55; 56; 57; 65; 66; 67; 68; 69; 70].
Definition trueString : list Z := [116; 114; 117; 101].
Definition falseString : list Z := [102; 97; 108; 115; 101].
Definition BUFFER_SIZE : nat := 25.

(** The first loop of [print_number]: the characters written so far, last first
    in time, [used] of them. *)
Fixpoint digits_loop (room : nat) (number base : Z) (buffer : list Z) : list Z :=
  let buffer := nth (Z.to_nat (number mod base)) numberDefinitions 0 :: buffer in
  let number := number / base in
  match room with
  | O => buffer
  | S room => if number >? 0 then digits_loop room number base buffer else buffer
  end.

(** Padding beyond the 25 characters of the buffer stores below it. *)
Definition print_number (number base minLength : Z) (useWhitespacePadding : bool) : M io Z :=
  if (base <? 2) || (base >? 16) then ret 0
  else
    let buffer := digits_loop (BUFFER_SIZE - 1) number base [] in
    if minLength >? Z.of_nat BUFFER_SIZE then fail WildAccess
    else
      let pad := if useWhitespacePadding then 32 else 48 in
      let! r := file_write ops (replicate (Z.to_nat minLength - length buffer) pad ++ buffer) in
      ret (u32 r).

Definition char_at (p : Z) : M io Z := on_bytes (get_byte p).

(** [va_arg] *)
Definition va_arg (args : list Z) : M io (Z * list Z) :=
  match args with [] => fail WildAccess | a :: args' => ret (a, args') end.

(** [n] bytes from [p] on, as [write] reads them. *)
Fixpoint bytes_at (p : Z) (n : nat) : M io (list Z) :=
  match n with
  | O => ret []
  | S n => let! c := char_at p in let! cs := bytes_at (p + 1) n in ret (c :: cs)
  end.

(** [res = write(f, ...); if (res < 0) return len; len += res;] *)
Definition emit (bs : list Z) (len : Z) (k : Z -> M io Z) : M io Z :=
  let! res := file_write ops bs in
  if res <? 0 then ret len else k (u32 (len + res)).

(** The length specifier: where it ends, [minLength] and the padding. *)
Fixpoint width_loop (fuel : nat) (format minLength : Z) (ws : bool) : M io (Z * (Z * bool)) :=
  match fuel with
  | O => fail Diverges
  | S fuel =>
      let! c := char_at format in
      if isdigit c then
        if (minLength =? 0) && (c =? 48) then width_loop fuel (format + 1) minLength false
        else width_loop fuel (format + 1) (u32 (u32 (minLength * 10) + u32 (c - 48))) ws
      else ret (format, (minLength, ws))
  end.

(** The precision, which is read and not used. *)
Fixpoint precision_loop (fuel : nat) (format : Z) : M io Z :=
  match fuel with
  | O => fail Diverges
  | S fuel => let! c := char_at format in if isdigit c then precision_loop fuel (format + 1) else ret format
  end.

Definition precision (fuel : nat) (format : Z) : M io Z :=
  let! c := char_at format in if c =? 46 then precision_loop fuel (format + 1) else ret format.

(** Hex numbers; [%p] falls through to them. *)
Definition print_hex (c : Z) (args : list Z) (minLength : Z) (ws : bool) (len : Z)
    (k : list Z -> Z -> M io Z) : M io Z :=
  let! r := va_arg args in
  let (val, args) := (r : Z * list Z) in
  let rest len := let! n := print_number val 16 minLength ws in k args (u32 (len + n)) in
  if c =? 120 then emit [48; 120] len rest else rest len.

(** One format specifier, [%] and the options read; [k] goes on behind it. *)
Definition print_directive (fmt_start format minLength : Z) (ws : bool) (args : list Z) (len : Z)
    (k : list Z -> Z -> M io Z) : M io Z :=
  let! c := char_at format in
  if c =? 112 then emit [42] len (fun len => print_hex c args 8 false len k)
  else if (c =? 88) || (c =? 120) then print_hex c args minLength ws len k
  else if (c =? 100) || (c =? 105) then
    let! r := va_arg args in
    let (val, args) := (r : Z * list Z) in
    let val := i32 val in
    let rest val len := let! n := print_number (u32 val) 10 minLength ws in k args (u32 (len + n)) in
    if val <? 0 then emit [45] len (rest (i32 (- val))) else rest val len
  else if c =? 117 then
    let! r := va_arg args in
    let (val, args) := (r : Z * list Z) in
    let! n := print_number val 10 minLength ws in
    k args (u32 (len + n))
  else if c =? 66 then
    let! r := va_arg args in
    let (val, args) := (r : Z * list Z) in
    emit (if truth val then trueString else falseString) len (k args)
  else if c =? 115 then
    let! r := va_arg args in
    let (str, args) := (r : Z * list Z) in
    if str =? 0 then emit [40; 110; 117; 108; 108; 41] len (k args)
    else
      let! l := on_bytes (strlen str) in
      let! bs := bytes_at str (Z.to_nat l) in
      emit bs len (k args)
  else
    let! bs := bytes_at fmt_start (Z.to_nat (format - fmt_start)) in
    emit bs len (k args).

Fixpoint vfprintf_loop (fuel : nat) (format : Z) (args : list Z) (len : Z) : M io Z :=
  match fuel with
  | O => fail Diverges
  | S fuel =>
      let! c := char_at format in
      if negb (truth c) then ret len
      else if c =? 37 then
        let fmt_start := format in
        let format := format + 1 in
        let! c := char_at format in
        if c =? 37 then emit [c] len (vfprintf_loop fuel (format + 1) args)
        else
          let! r := width_loop fuel format 0 true in
          let '(format, (minLength, ws)) := (r : Z * (Z * bool)) in
          let! format := precision fuel format in
          let! c := char_at format in
          let format := if c =? 108 then format + 1 else format in
          print_directive fmt_start format minLength ws args len (fun args => vfprintf_loop fuel (format + 1) args)
      else emit [c] len (vfprintf_loop fuel (format + 1) args)
  end.

Definition vfprintf (format : Z) (args : list Z) : M io Z :=
  run! assert_ (truth format) in
  let! fuel := gets (fun s => S (size (iomem s))) in
  vfprintf_loop fuel format args 0.

Definition fprintf (format : Z) (args : list Z) : M io Z := vfprintf format args.
End Printf.
