(* ===== verification/PrintfSpec.v ===== *)
(** * PrintfSpec: numbers and formats *)
From S2P Require Import Prelude Fw File CString CStringSpec Printf.

(** ** Digits *)

Definition is_digit (b c : Z) : Prop := is_char c /\ exists i, digit_value c = Some i /\ 0 <= i < b.

Definition num_value (b : Z) (ds : list Z) : Z := foldl (fun n c => n * b + default 0 (digit_value c)) 0 ds.

Lemma num_value_acc b ds n : foldl (fun n c => n * b + default 0 (digit_value c)) n ds = n * b ^ Z.of_nat (length ds) + num_value b ds.
Proof.
  unfold num_value. revert n. induction ds as [|c ds IH]; intros n; cbn [foldl length]; [lia|].
  rewrite IH, (IH (0 * b + _)). rewrite Nat2Z.inj_succ, Z.pow_succ_r by lia. lia.
Qed.

Lemma num_value_app b ds es : num_value b (ds ++ es) = num_value b ds * b ^ Z.of_nat (length es) + num_value b es.
Proof. unfold num_value at 1. rewrite foldl_app. apply num_value_acc. Qed.

Lemma number_char b i : 2 <= b <= 16 -> 0 <= i < b ->
  is_digit b (nth (Z.to_nat i) numberDefinitions 0) /\ digit_value (nth (Z.to_nat i) numberDefinitions 0) = Some i /\
  (nth (Z.to_nat i) numberDefinitions 0 = 48 <-> i = 0).
Proof.
  intros Hb Hi.
  assert (forallb (fun i => bool_decide (digit_value (nth (Z.to_nat i) numberDefinitions 0) = Some i)
    && ((0 <? nth (Z.to_nat i) numberDefinitions 0) && (nth (Z.to_nat i) numberDefinitions 0 <? 256))
    && Bool.eqb (nth (Z.to_nat i) numberDefinitions 0 =? 48) (i =? 0)) (seqZ 0 16) = true) as H by (vm_compute; reflexivity).
  rewrite forallb_forall in H. specialize (H i). rewrite <-list_elem_of_In, elem_of_seqZ in H. specialize (H ltac:(lia)).
  rewrite !andb_true_iff, bool_decide_eq_true in H. destruct H as [[Hd Hc] He].
  apply Bool.eqb_prop in He. split; [split; [unfold is_char; lia|by exists i]|]. split; [done|].
  rewrite <-Z.eqb_eq, He. apply Z.eqb_eq.
Qed.

Lemma digits_loop_spec k n b acc : 2 <= b <= 16 -> 0 <= n < b ^ Z.of_nat (S k) ->
  exists ds, digits_loop k n b acc = ds ++ acc /\ num_value b ds = n /\ Forall (is_digit b) ds /\ ds <> [] /\
    (length ds <= S k)%nat /\ (hd_or 0 ds = 48 -> ds = [48]).
Proof.
  revert n acc. induction k as [|k IH]; intros n acc Hb Hn; cbn [digits_loop];
    pose proof (Z.mod_pos_bound n b ltac:(lia)) as Hr; destruct (number_char b (n mod b) Hb Hr) as (Hd & Hv & H48);
    set (c := nth _ _ 0) in *.
  - exists [c]. split; [done|]. rewrite Z.pow_1_r in Hn. rewrite Z.mod_small in Hv by lia.
    split; [unfold num_value; simpl; rewrite Hv; simpl; lia|]. split; [by constructor|]. split; [done|]. split; [done|].
    simpl. by intros ->.
  - destruct (Z.gtb_spec (n / b) 0) as [Hq|Hq].
    + destruct (IH (n / b) (c :: acc) Hb) as (ds & E & Hval & Hds & Hne & Hl & H0).
      { split; [lia|]. apply Z.div_lt_upper_bound; [lia|]. rewrite <-Z.pow_succ_r by lia.
        replace (Z.succ (Z.of_nat (S k))) with (Z.of_nat (S (S k))) by lia. lia. }
      exists (ds ++ [c]). split; [rewrite E, <-app_assoc; done|]. split; [|split; [|split; [|split] ] ].
      * rewrite num_value_app, Hval. unfold num_value. simpl. rewrite Hv, Z.pow_1_r. simpl.
        pose proof (Z.div_mod n b ltac:(lia)). lia.
      * apply Forall_app. split; [done|by constructor].
      * by destruct ds.
      * rewrite length_app. simpl. lia.
      * destruct ds as [|d ds]; [done|]. simpl. simpl in H0. intros ->. specialize (H0 eq_refl). injection H0 as ->.
        unfold num_value in Hval. simpl in Hval. change (digit_value 48) with (Some 0) in Hval. simpl in Hval. lia.
    + assert (n < b) as Hlt.
      { destruct (Z.lt_ge_cases n b); [done|]. assert (1 <= n / b) by (apply Z.div_le_lower_bound; lia). lia. }
      rewrite Z.mod_small in Hv by lia. exists [c]. split; [done|].
      split; [unfold num_value; simpl; rewrite Hv; simpl; lia|]. split; [by constructor|]. split; [done|]. split; [simpl; lia|].
      simpl. by intros ->.
Qed.

(** The digits of a number, most significant first. *)
Definition numeral (b n : Z) : list Z := digits_loop 24 n b [].

Lemma numeral_spec b n : 2 <= b <= 16 -> 0 <= n < b ^ 25 ->
  num_value b (numeral b n) = n /\ Forall (is_digit b) (numeral b n) /\ numeral b n <> [] /\
  (length (numeral b n) <= 25)%nat /\ (hd_or 0 (numeral b n) = 48 -> numeral b n = [48]).
Proof.
  intros Hb Hn. destruct (digits_loop_spec 24 n b [] Hb Hn) as (ds & E & H). unfold numeral. rewrite E, app_nil_r. exact H.
Qed.

(** ** Reading numbers *)

(** The characters [strtol] takes: the digits, and one more. *)
Definition taken (b c : Z) : Prop := is_char c /\ exists i, digit_value c = Some i /\ 0 <= i <= b.

Lemma digit_taken b c : is_digit b c -> taken b c.
Proof. intros (Hc & i & Hi & Hb). split; [done|]. exists i. split; [done|lia]. Qed.

Lemma strtol_loop_run m p b ds rest n fuel :
  0 <= b < 256 -> holds m p (ds ++ rest) -> Forall (taken b) ds -> (length ds < fuel)%nat ->
  (match rest with c :: _ => c = 0 \/ digit_value c = None \/ (exists i, digit_value c = Some i /\ b < i) | [] => False end) ->
  strtol_loop fuel p b (u32 n) m =
  Ok (u32 (n * b ^ Z.of_nat (length ds) + num_value b ds), p + Z.of_nat (length ds)) m.
Proof.
  intros Hb. revert p n fuel. induction ds as [|c ds IH]; intros p n fuel Hh Hd Hf Hr; (destruct fuel as [|fuel]; [simpl in Hf; lia|]).
  - destruct rest as [|c rest]; [done|]. destruct Hh as [E _]. cbn [strtol_loop]. step_get E.
    cbn [length Z.of_nat]. rewrite Z.pow_0_r, Z.mul_1_r. unfold num_value. simpl foldl. rewrite !Z.add_0_r.
    destruct Hr as [->|[Hn|(i & Hi & Hlt)] ]; [done|..].
    + destruct (truth c); [|done]. by rewrite Hn.
    + destruct (truth c); [|done]. rewrite Hi. by rewrite (proj2 (Z.gtb_lt _ _)) by lia.
  - destruct Hh as [E Hh]. apply Forall_cons in Hd as [(Hc & i & Hi & Hib) Hd]. cbn [strtol_loop]. step_get E.
    rewrite (truth_char _ Hc), Hi. replace (i >? b) with false by lia.
    assert (u32 (u32 (u32 n * b) + i) = u32 (n * b + i)) as -> by (wrap_eq).
    rewrite IH by (done || (simpl in Hf; lia)). cbn [length]. f_equal. f_equal; [|lia]. f_equal.
    unfold num_value at 2. cbn [foldl]. rewrite num_value_acc, Hi. simpl default.
    rewrite Nat2Z.inj_succ, Z.pow_succ_r by lia. lia.
Qed.

Lemma strtol_run m p b ds c rest :
  0 < b < 256 -> holds m p (ds ++ c :: rest) -> Forall (taken b) ds ->
  (c = 0 \/ digit_value c = None \/ exists i, digit_value c = Some i /\ b < i) ->
  strtol p b m = Ok (u32 (num_value b ds), p + Z.of_nat (length ds)) m.
Proof.
  intros Hb Hh Hd Hc. unfold strtol, strtol_base. rewrite (proj2 (Z.eqb_neq b 0)) by lia.
  rewrite (bind_ok _ _ m (b, p) m) by done. unfold fuel_mem. rewrite (bind_ok _ _ m (S (size m)) m) by done.
  pose proof (strtol_loop_run m p b ds (c :: rest) 0 (S (size m)) ltac:(lia) Hh Hd) as E.
  rewrite Z.mul_0_l in E. apply E; [|done]. apply holds_fuel in Hh. rewrite length_app in Hh. simpl in Hh. lia.
Qed.

(** [strtol] reads the digits of a number in a base from 2 to 16, up to the
    first character that is none, modulo 2^32, and reports where it stopped;
    [atoi] does so in base 10.  But it takes a digit whose value equals the base:
    "1A" in base 10 is 20. *)
Theorem strtol_reads m p b ds c rest :
  2 <= b <= 16 -> Forall (is_digit b) ds -> holds m p (ds ++ c :: rest) ->
  (c = 0 \/ digit_value c = None \/ exists i, digit_value c = Some i /\ b < i) ->
  strtol p b m = Ok (u32 (num_value b ds), p + Z.of_nat (length ds)) m /\
  (b = 10 -> atoi p m = Ok (u32 (num_value 10 ds)) m) /\
  (forall m' q, cstr m' q [49; 65] -> strtol q 10 m' = Ok (20, q + 2) m').
Proof.
  intros Hb Hd Hh Hc.
  assert (strtol p b m = Ok (u32 (num_value b ds), p + Z.of_nat (length ds)) m) as E.
  { eapply strtol_run; [lia|exact Hh| |done]. eapply Forall_impl; [exact Hd|apply digit_taken]. }
  split; [exact E|]. split.
  - intros ->. unfold atoi. by rewrite (bind_ok _ _ _ _ _ E).
  - clear. intros m q [_ H]. apply (strtol_run m q 10 [49; 65] 0 []); [lia|exact H| |by left].
    apply Forall_cons. split; [|apply Forall_singleton];
      (split; [unfold is_char; lia|eexists; split; [reflexivity|lia] ]).
Qed.

(** ** Printing *)

(** The digits of [n] padded to [w] characters. *)
Definition padded (b w : Z) (zero : bool) (n : Z) : list Z :=
  replicate (Z.to_nat w - length (numeral b n)) (if zero then 48 else 32) ++ numeral b n.

Section Print.
Context {F : Type} (ops : file_operations F) (log : F -> list Z).

(** The file takes all it is given; [log] is what it has. *)
Definition accepts : Prop :=
  forall bs f, exists f', write ops bs f = (Z.of_nat (length bs), f') /\ log f' = log f ++ bs.

Context (Hacc : accepts).
Abbreviation io := (CString.io (F := F)).

(** [s'] is [s] with [bs] written. *)
Definition wrote (bs : list Z) (s s' : io) : Prop :=
  iomem s' = iomem s /\ log (iofile s') = log (iofile s) ++ bs.

Lemma wrote_refl s : wrote [] s s.
Proof. split; [done|by rewrite app_nil_r]. Qed.

Lemma wrote_trans bs cs s1 s2 s3 : wrote bs s1 s2 -> wrote cs s2 s3 -> wrote (bs ++ cs) s1 s3.
Proof. intros [E1 E2] [E3 E4]. split; [congruence|]. by rewrite E4, E2, app_assoc. Qed.

Lemma file_write_run bs (s : io) : exists s', file_write ops bs s = Ok (Z.of_nat (length bs)) s' /\ wrote bs s s'.
Proof.
  destruct (Hacc bs (iofile s)) as (f' & E & Hl). exists (mk_io (iomem s) f'). unfold file_write. rewrite E. done.
Qed.

Lemma emit_run bs len k (s : io) :
  exists s', emit ops bs len k s = k (u32 (len + Z.of_nat (length bs))) s' /\ wrote bs s s'.
Proof.
  destruct (file_write_run bs s) as (s' & E & H). exists s'. split; [|done].
  unfold emit. rewrite (bind_ok _ _ _ _ _ E). by rewrite (proj2 (Z.ltb_ge _ _)) by lia.
Qed.

Lemma padded_length b w z n : 2 <= b <= 16 -> 0 <= n < b ^ 25 -> 0 <= w <= 25 -> (length (padded b w z n) <= 25)%nat.
Proof.
  intros Hb Hn Hw. destruct (numeral_spec b n Hb Hn) as (_ & _ & _ & Hl & _). unfold padded.
  rewrite length_app, length_replicate. lia.
Qed.

Lemma print_number_run n b w ws (s : io) : 2 <= b <= 16 -> 0 <= n < b ^ 25 -> 0 <= w <= 25 ->
  exists s', print_number ops n b w ws s = Ok (Z.of_nat (length (padded b w (negb ws) n))) s' /\
    wrote (padded b w (negb ws) n) s s'.
Proof.
  intros Hb Hn Hw. destruct (file_write_run (padded b w (negb ws) n) s) as (s' & E & H). exists s'. split; [|done].
  pose proof (padded_length b w (negb ws) n Hb Hn Hw) as Hl.
  unfold print_number. replace ((b <? 2) || (b >? 16)) with false by lia.
  change (Z.of_nat BUFFER_SIZE) with 25. rewrite Z.gtb_ltb, (proj2 (Z.ltb_ge _ _)) by lia.
  fold (numeral b n). replace (if ws then 32 else 48) with (if negb ws then 48 else 32) by (by destruct ws).
  fold (padded b w (negb ws) n). rewrite (bind_ok _ _ _ _ _ E). unfold ret. f_equal. apply wrap_id. unfold in_u. lia.
Qed.
End Print.

(** what [print_number] writes [strtol] reads back: in a base from 2 to 16 a
    32-bit number (of at most 25 digits) printed with zero padding gives a string
    that [strtol] in this base reads completely, as the same number; and it has
    no digit more than the number or the asked length needs. *)
Theorem number_roundtrip {F : Type} (ops : file_operations F) log s n b w m p :
  accepts ops log -> 2 <= b <= 16 -> 0 <= n < 2 ^ 32 -> n < b ^ 25 -> 0 <= w <= 25 ->
  exists bs s', print_number ops n b w false s = Ok (Z.of_nat (length bs)) s' /\ wrote log bs s s' /\
    (cstr m p bs -> strtol p b m = Ok (n, p + Z.of_nat (length bs)) m) /\
    (Z.of_nat (length bs) = w \/ hd_or 0 bs <> 48 \/ bs = [48]).
Proof.
  intros Hacc Hb Hn Hn25 Hw. destruct (print_number_run ops log Hacc n b w false s Hb ltac:(lia) Hw) as (s' & E & H).
  change (negb false) with true in *. exists (padded b w true n), s'. split; [done|]. split; [done|].
  destruct (numeral_spec b n Hb ltac:(lia)) as (Hv & Hd & Hne & Hl & H0).
  assert (forall k, Forall (is_digit b) (replicate k 48) /\ num_value b (replicate k 48) = 0) as Hz.
  { induction k as [|k [IH1 IH2] ]; [done|]. split.
    - constructor; [|done]. split; [unfold is_char; lia|]. exists 0. split; [done|lia].
    - change (replicate (S k) 48) with ([48] ++ replicate k 48). rewrite num_value_app, IH2. unfold num_value. simpl. lia. }
  split.
  - intros [_ Hc]. rewrite (strtol_run m p b _ 0 [] ltac:(lia) Hc); [|
      |by left].
    + do 2 f_equal. unfold padded. rewrite num_value_app, (proj2 (Hz _)), Hv, Z.mul_0_l. apply wrap_id. unfold in_u. lia.
    + eapply Forall_impl; [|apply digit_taken]. apply Forall_app. split; [apply Hz|done].
  - unfold padded. rewrite length_app, length_replicate. destruct (Nat.le_gt_cases (Z.to_nat w) (length (numeral b n))) as [Hle|Hgt].
    + replace (Z.to_nat w - length (numeral b n))%nat with O by lia. simpl. right.
      destruct (decide (hd_or 0 (numeral b n) = 48)) as [Heq|]; [right; by apply H0|by left].
    + left. lia.
Qed.

(** ** Formats *)

(** A length specifier and the [l] modifier. *)
Record options := mk_options { o_zero : bool; o_width : list Z; o_long : bool }.

(** The parts of a format.  The conversion of a number is its letter. *)
Inductive piece :=
| Plain (c : Z)
| Percent
| Num (o : options) (conv v : Z)
| Bool (v : Z)
| Str (q : Z) (s : list Z)
| Null.

Definition width_text (o : options) : list Z := (if o_zero o then [48] else []) ++ o_width o.
Definition long_text (o : options) : list Z := if o_long o then [108] else [].
Definition width_of (o : options) : Z := num_value 10 (o_width o).

Definition piece_text (pc : piece) : list Z :=
  match pc with
  | Plain c => [c]
  | Percent => [37; 37]
  | Num o conv _ => 37 :: width_text o ++ long_text o ++ [conv]
  | Bool _ => [37; 66]
  | Str _ _ | Null => [37; 115]
  end.

Definition piece_args (pc : piece) : list Z :=
  match pc with
  | Plain _ | Percent => []
  | Num _ _ v | Bool v => [v]
  | Str q _ => [q]
  | Null => [0]
  end.

Definition signed_text (w : Z) (zero : bool) (v : Z) : list Z :=
  (if i32 v <? 0 then [45] else []) ++ padded 10 w zero (Z.abs (i32 v)).

Definition rendered (pc : piece) : list Z :=
  match pc with
  | Plain c => [c]
  | Percent => [37]
  | Num o conv v =>
      if conv =? 112 then [42] ++ padded 16 8 true v
      else if conv =? 88 then padded 16 (width_of o) (o_zero o) v
      else if conv =? 120 then [48; 120] ++ padded 16 (width_of o) (o_zero o) v
      else if conv =? 117 then padded 10 (width_of o) (o_zero o) v
      else signed_text (width_of o) (o_zero o) v
  | Bool v => if v =? 0 then falseString else trueString
  | Str _ s => s
  | Null => [40; 110; 117; 108; 108; 41]
  end.

Definition wf_piece (m : bytes) (pc : piece) : Prop :=
  match pc with
  | Plain c => is_char c /\ c <> 37
  | Percent | Null => True
  | Num o conv v => Forall (is_digit 10) (o_width o) /\ hd_or 0 (o_width o) <> 48 /\ width_of o <= 25 /\
      conv ∈ [112; 88; 120; 117; 100; 105] /\ in_u 32 v
  | Bool v => in_u 32 v
  | Str q s => q <> 0 /\ cstr m q s /\ Z.of_nat (length s) < 2 ^ 31
  end.

Lemma digit10_range c : is_digit 10 c -> 48 <= c <= 57.
Proof.
  intros (Hc & i & Hi & Hb). unfold is_char, digit_value in *.
  destruct ((48 <=? c) && (c <=? 57)) eqn:E1; [lia|].
  destruct ((65 <=? c) && (c <=? 70)) eqn:E2; [injection Hi; lia|].
  destruct ((97 <=? c) && (c <=? 102)) eqn:E3; [injection Hi; lia|done].
Qed.

Lemma digit10_value c : 48 <= c <= 57 -> digit_value c = Some (c - 48).
Proof. intros H. unfold digit_value. by rewrite (proj2 (Z.leb_le _ _)), (proj2 (Z.leb_le _ _)) by lia. Qed.

Section Format.
Context {F : Type} (ops : file_operations F) (log : F -> list Z) (Hacc : accepts ops log).
Abbreviation io := (CString.io (F := F)).

Lemma char_at_run (s : io) p c : iomem s !! p = Some c -> char_at p s = Ok c s.
Proof. intros E. unfold char_at, on_bytes. rewrite (get_run _ _ _ E). by destruct s. Qed.

Ltac step_char H := rewrite (bind_ok _ _ _ _ _ (char_at_run _ _ _ H)).

Lemma num_value_nonneg ds : Forall (is_digit 10) ds -> 0 <= num_value 10 ds.
Proof.
  induction ds as [|c ds IH] using rev_ind; [done|]. intros [Hds Hc]%Forall_app. apply Forall_cons in Hc as [Hc _].
  rewrite num_value_app. specialize (IH Hds). apply digit10_range in Hc. unfold num_value at 2. simpl.
  rewrite (digit10_value c Hc), Z.pow_1_r. simpl. lia.
Qed.

Lemma width_digits_run (s : io) p ds c rest n ws fuel :
  holds (iomem s) p (ds ++ c :: rest) -> Forall (is_digit 10) ds -> isdigit c = false ->
  0 < n \/ hd_or 0 ds <> 48 -> 0 <= n -> n * 10 ^ Z.of_nat (length ds) + num_value 10 ds <= 25 -> (length ds < fuel)%nat ->
  width_loop fuel p n ws s =
  Ok (p + Z.of_nat (length ds), (n * 10 ^ Z.of_nat (length ds) + num_value 10 ds, ws)) s.
Proof.
  revert p n fuel. induction ds as [|d ds IH]; intros p n fuel Hh Hd Hc H0 Hn Hle Hf; (destruct fuel as [|fuel]; [simpl in Hf; lia|]).
  - destruct Hh as [E _]. cbn [width_loop]. step_char E. rewrite Hc. unfold ret. cbn [length Z.of_nat]. unfold num_value. simpl.
    do 2 f_equal; [lia|]. f_equal. lia.
  - destruct Hh as [E Hh]. apply Forall_cons in Hd as [Hdd Hd]. pose proof (digit10_range d Hdd) as Hr.
    cbn [width_loop]. step_char E. replace (isdigit d) with true by (unfold isdigit; lia).
    assert (((n =? 0) && (d =? 48)) = false) as -> by (simpl in H0; lia).
    pose proof (num_value_nonneg ds Hd) as Hnn.
    assert (num_value 10 (d :: ds) = (d - 48) * 10 ^ Z.of_nat (length ds) + num_value 10 ds) as Ev.
    { unfold num_value at 1. cbn [foldl]. rewrite num_value_acc, (digit10_value d Hr). simpl default. lia. }
    rewrite Ev in *. cbn [length] in *. rewrite Nat2Z.inj_succ, Z.pow_succ_r in * by lia.
    assert (1 <= 10 ^ Z.of_nat (length ds)) as Hp by (pose proof (Z.pow_pos_nonneg 10 (Z.of_nat (length ds))); lia).
    assert (n * 10 + (d - 48) <= 25) as Hb by nia.
    rewrite (wrap_id 32 (n * 10)), (wrap_id 32 (d - 48)), (wrap_id 32 (n * 10 + (d - 48))) by (unfold in_u; lia).
    rewrite IH; try done; [do 2 f_equal; [lia|]; f_equal; lia|left; simpl in H0; lia|lia|lia|lia].
Qed.

Lemma width_run (s : io) p o c rest fuel :
  holds (iomem s) p (width_text o ++ c :: rest) -> Forall (is_digit 10) (o_width o) -> hd_or 0 (o_width o) <> 48 ->
  width_of o <= 25 -> isdigit c = false -> (length (width_text o) < fuel)%nat ->
  width_loop fuel p 0 true s = Ok (p + Z.of_nat (length (width_text o)), (width_of o, negb (o_zero o))) s.
Proof.
  intros Hh Hd H0 Hle Hc Hf. unfold width_text in *. destruct (o_zero o).
  - destruct fuel as [|fuel]; [simpl in Hf; lia|]. destruct Hh as [E Hh]. cbn [width_loop]. step_char E.
    change (isdigit 48) with true. change ((0 =? 0) && (48 =? 48)) with true. cbv iota.
    rewrite (width_digits_run s (p + 1) (o_width o) c rest 0 false); try done;
      [|by right|simpl in Hf; lia].
    rewrite Z.mul_0_l. fold (width_of o). cbn [length app]. do 2 f_equal. lia.
  - rewrite (width_digits_run s p (o_width o) c rest 0 true); try done; by right.
Qed.

Lemma bytes_at_run (s : io) p bs : holds (iomem s) p bs -> bytes_at p (length bs) s = Ok bs s.
Proof.
  revert p. induction bs as [|c bs IH]; intros p; [done|]. intros [E Hh]. cbn [length bytes_at]. step_char E.
  by rewrite (bind_ok _ _ _ _ _ (IH _ Hh)).
Qed.

(** [c] goes on as [k] does, with [bs] written and [n] characters counted. *)
Definition continues (c : M io Z) (bs : list Z) (s : io) (k : Z -> M io Z) (len : Z) : Prop :=
  exists s', c s = k (u32 (len + Z.of_nat (length bs))) s' /\ wrote log bs s s'.

Lemma continues_emit bs cs len (s : io) (k : Z -> M io Z) (j : Z -> M io Z) :
  (forall s', wrote log bs s s' -> continues (j (u32 (len + Z.of_nat (length bs)))) cs s' k (u32 (len + Z.of_nat (length bs)))) ->
  continues (emit ops bs len j) (bs ++ cs) s k len.
Proof.
  intros H. destruct (emit_run ops log Hacc bs len j s) as (s1 & E & W). destruct (H s1 W) as (s2 & E2 & W2).
  exists s2. split; [|by eapply wrote_trans]. rewrite E, E2. f_equal. rewrite length_app, wrap_add_l. f_equal. lia.
Qed.

Lemma continues_number n b w z len (s : io) (k : Z -> M io Z) : 2 <= b <= 16 -> 0 <= n < b ^ 25 -> 0 <= w <= 25 ->
  continues (let! r := print_number ops n b w (negb z) in k (u32 (len + r))) (padded b w z n) s k len.
Proof.
  intros Hb Hn Hw. destruct (print_number_run ops log Hacc n b w (negb z) s Hb Hn Hw) as (s' & E & W).
  rewrite negb_involutive in *. exists s'. split; [|done]. by rewrite (bind_ok _ _ _ _ _ E).
Qed.

Lemma continues_emit1 bs len (s : io) k : continues (emit ops bs len k) bs s k len.
Proof. destruct (emit_run ops log Hacc bs len k s) as (s' & E & W). by exists s'. Qed.

Lemma i32_abs v : in_u 32 v -> Z.abs (i32 v) < 10 ^ 25 /\ (i32 v < 0 -> u32 (i32 (- i32 v)) = Z.abs (i32 v)) /\
  (0 <= i32 v -> u32 (i32 v) = Z.abs (i32 v)).
Proof.
  intros Hv. unfold sgn. unfold in_u in Hv. rewrite (wrap_id 32 v) by done. change (2 ^ (32 - 1)) with 2147483648. change (2 ^ 32) with 4294967296 in *.
  destruct (Z.ltb_spec v 2147483648); (split; [lia|]); (split; [|rewrite ?wrap_id by (unfold in_u; lia); lia]); intros Hneg; [lia|].
  unfold wrap. change (2 ^ 32) with 4294967296. replace (Z.abs (v - 4294967296)) with (4294967296 - v) by lia.
  replace (- (v - 4294967296)) with (4294967296 - v) by lia. rewrite (Z.mod_small (4294967296 - v)) by lia.
  destruct (Z.ltb_spec (4294967296 - v) 2147483648); [apply Z.mod_small; lia|].
  replace (4294967296 - v - 4294967296) with (- v) by lia. assert (v = 2147483648) as -> by lia. done.
Qed.

Lemma hex_run c v args w z len (s : io) (k : list Z -> Z -> M io Z) : in_u 32 v -> 0 <= w <= 25 ->
  continues (print_hex ops c (v :: args) w (negb z) len k)
    ((if c =? 120 then [48; 120] else []) ++ padded 16 w z v) s (k args) len.
Proof.
  intros Hv Hw. unfold print_hex, va_arg. unfold continues. rewrite (bind_ok _ _ s (v, args) s) by done. cbv beta iota zeta.
  assert (forall len s, continues (let! n := print_number ops v 16 w (negb z) in k args (u32 (len + n))) (padded 16 w z v) s (k args) len) as Hp.
  { intros len' s'. apply continues_number; [lia|unfold in_u in Hv; lia|lia]. }
  destruct (c =? 120); [apply (continues_emit _ _ _ _ (k args)); intros s' _; apply Hp|apply Hp].
Qed.

Lemma directive_num fs f o conv v args len (s : io) k :
  wf_piece (iomem s) (Num o conv v) -> iomem s !! f = Some conv ->
  continues (print_directive ops fs f (width_of o) (negb (o_zero o)) (v :: args) len k)
    (rendered (Num o conv v)) s (k args) len.
Proof.
  intros (Hd & _ & Hw & Hc & Hv) Hf. unfold print_directive, continues. step_char Hf.
  assert (0 <= width_of o <= 25) as Hw' by (split; [by apply num_value_nonneg|done]).
  assert (conv = 112 \/ conv = 88 \/ conv = 120 \/ conv = 117 \/ conv = 100 \/ conv = 105) as [-> |[-> |[-> |[-> |Hs] ] ] ] by set_solver.
  - apply (continues_emit [42] (padded 16 8 true v) len s (k args)). intros s' _.
    apply (hex_run 112 v args 8 true); [done|lia].
  - apply (hex_run 88 v args _ (o_zero o)); done.
  - apply (hex_run 120 v args _ (o_zero o)); done.
  - change (117 =? 112) with false. cbn [Z.eqb orb]. change (continues (let! r := va_arg (v :: args) in
      let (val, args) := (r : Z * list Z) in
      let! n := print_number ops val 10 (width_of o) (negb (o_zero o)) in k args (u32 (len + n)))
      (padded 10 (width_of o) (o_zero o) v) s (k args) len).
    unfold continues, va_arg. rewrite (bind_ok _ _ s (v, args) s) by done.
    apply continues_number; [lia|unfold in_u in Hv; lia|done].
  - destruct (i32_abs v Hv) as (Ha & Hneg & Hpos).
    change (continues (let! r := va_arg (v :: args) in
      let (val, args) := (r : Z * list Z) in
      let val := i32 val in
      let rest val len := let! n := print_number ops (u32 val) 10 (width_of o) (negb (o_zero o)) in k args (u32 (len + n)) in
      if val <? 0 then emit ops [45] len (rest (i32 (- val))) else rest val len)
      (rendered (Num o 100 v)) s (k args) len) with (continues (let! r := va_arg (v :: args) in
      let (val, args) := (r : Z * list Z) in
      let val := i32 val in
      let rest val len := let! n := print_number ops (u32 val) 10 (width_of o) (negb (o_zero o)) in k args (u32 (len + n)) in
      if val <? 0 then emit ops [45] len (rest (i32 (- val))) else rest val len)
      (signed_text (width_of o) (o_zero o) v) s (k args) len).
    assert (continues (let! r := va_arg (v :: args) in
      let (val, args) := (r : Z * list Z) in
      let val := i32 val in
      let rest val len := let! n := print_number ops (u32 val) 10 (width_of o) (negb (o_zero o)) in k args (u32 (len + n)) in
      if val <? 0 then emit ops [45] len (rest (i32 (- val))) else rest val len)
      (signed_text (width_of o) (o_zero o) v) s (k args) len) as Hgoal.
    { unfold continues at 1, va_arg. rewrite (bind_ok _ _ s (v, args) s) by done. cbv beta iota zeta. unfold signed_text.
      destruct (Z.ltb_spec (i32 v) 0) as [Hlt|Hge].
      - rewrite (Hneg Hlt). apply continues_emit. intros s' _. apply continues_number; [lia|lia|done].
      - rewrite (Hpos Hge). simpl app. apply continues_number; [lia|lia|done]. }
    destruct Hs as [-> | ->]; exact Hgoal.
Qed.

Lemma precision_none (s : io) p c fuel : iomem s !! p = Some c -> c <> 46 -> precision fuel p s = Ok p s.
Proof. intros E Hc. unfold precision. step_char E. by rewrite (proj2 (Z.eqb_neq _ _) Hc). Qed.

(** The loop at a directive: the options are read, then its letter decides. *)
Lemma loop_directive (s : io) p o conv rest args len fuel :
  holds (iomem s) p (37 :: width_text o ++ long_text o ++ conv :: rest) ->
  Forall (is_digit 10) (o_width o) -> hd_or 0 (o_width o) <> 48 -> width_of o <= 25 ->
  isdigit conv = false -> conv <> 37 -> conv <> 46 -> conv <> 108 -> (S (length (width_text o)) < fuel)%nat ->
  let f := p + Z.of_nat (S (length (width_text o ++ long_text o))) in
  iomem s !! f = Some conv /\
  vfprintf_loop ops (S fuel) p args len s =
  print_directive ops p f (width_of o) (negb (o_zero o)) args len (fun args => vfprintf_loop ops fuel (f + 1) args) s.
Proof.
  intros Hh Hd H0 Hw Hc H37 H46 H108 Hf f. destruct Hh as [E Hh].
  assert (holds (iomem s) (p + 1 + Z.of_nat (length (width_text o))) (long_text o ++ conv :: rest)) as Hl by (by apply holds_app in Hh as [_ Hh]).
  assert (iomem s !! f = Some conv) as Ef.
  { apply holds_app in Hl as [_ [Hl _] ]. rewrite <-Hl. f_equal. unfold f. rewrite length_app. lia. }
  split; [done|]. cbn [vfprintf_loop]. step_char E. change (negb (truth 37)) with false. change (37 =? 37) with true. cbv iota zeta.
  assert (exists c1 rest1, width_text o ++ long_text o ++ conv :: rest = c1 :: rest1 /\ c1 <> 37) as (c1 & rest1 & E1 & Hc1).
  { unfold width_text, long_text in *. destruct (o_zero o); [by eexists 48, _|].
    destruct (o_width o) as [|d ds]; [destruct (o_long o); [by eexists 108, _|by eexists conv, _]|]. eexists d, _. split; [done|].
    apply Forall_cons in Hd as [Hd _]. apply digit10_range in Hd. lia. }
  assert (iomem s !! (p + 1) = Some c1) as Ec1 by (rewrite E1 in Hh; by destruct Hh).
  step_char Ec1. rewrite (proj2 (Z.eqb_neq _ _) Hc1).
  assert (exists c2 rest2, long_text o ++ conv :: rest = c2 :: rest2 /\ isdigit c2 = false /\ c2 <> 46 /\
    (if c2 =? 108 then o_long o = true else c2 = conv /\ o_long o = false)) as (c2 & rest2 & E2 & Hc2 & H2 & Hlong).
  { unfold long_text. destruct (o_long o); [by eexists 108, _|]. eexists conv, _. split; [done|].
    by rewrite (proj2 (Z.eqb_neq _ _) H108). }
  rewrite E2 in Hh, Hl. rewrite (bind_ok _ _ _ _ _ (width_run s (p + 1) o c2 rest2 fuel Hh Hd H0 Hw Hc2 ltac:(lia))).
  cbv beta iota zeta. destruct Hl as [Ec2 _].
  rewrite (bind_ok _ _ _ _ _ (precision_none s _ _ fuel Ec2 H2)). step_char Ec2. unfold f, long_text. rewrite length_app.
  destruct (c2 =? 108); [rewrite Hlong|destruct Hlong as [-> Hlong]; rewrite Hlong]; simpl length.
  - replace (p + 1 + Z.of_nat (length (width_text o)) + 1) with (p + Z.of_nat (S (length (width_text o) + 1))) by lia. done.
  - replace (p + 1 + Z.of_nat (length (width_text o))) with (p + Z.of_nat (S (length (width_text o) + 0))) by lia. done.
Qed.

(** The letters without options. *)
Definition no_options : options := mk_options false [] false.

Lemma loop_letter (s : io) p conv rest args len fuel :
  holds (iomem s) p (37 :: conv :: rest) -> conv = 66 \/ conv = 115 -> (1 < fuel)%nat ->
  iomem s !! (p + 1) = Some conv /\
  vfprintf_loop ops (S fuel) p args len s =
  print_directive ops p (p + 1) 0 true args len (fun args => vfprintf_loop ops fuel (p + 1 + 1) args) s.
Proof.
  intros Hh Hc Hf. apply (loop_directive s p no_options conv rest args len fuel); simpl; try done; by destruct Hc as [-> | ->].
Qed.

Lemma directive_bool fs f w ws v args len (s : io) k : iomem s !! f = Some 66 ->
  print_directive ops fs f w ws (v :: args) len k s = emit ops (if truth v then trueString else falseString) len (k args) s.
Proof. intros E. unfold print_directive. by step_char E. Qed.

Lemma directive_str fs f w ws q args len (s : io) k : iomem s !! f = Some 115 ->
  print_directive ops fs f w ws (q :: args) len k s =
  (if q =? 0 then emit ops [40; 110; 117; 108; 108; 41] len (k args)
   else let! l := on_bytes (strlen q) in let! bs := bytes_at q (Z.to_nat l) in emit ops bs len (k args)) s.
Proof. intros E. unfold print_directive. by step_char E. Qed.

(** Each part of a format is rendered, whatever follows it. *)
Lemma piece_run (s : io) p pc rest args len fuel :
  wf_piece (iomem s) pc -> holds (iomem s) p (piece_text pc ++ rest) -> (length (piece_text pc) < fuel)%nat ->
  continues (vfprintf_loop ops (S fuel) p (piece_args pc ++ args) len) (rendered pc) s
    (vfprintf_loop ops fuel (p + Z.of_nat (length (piece_text pc))) args) len.
Proof.
  intros Hwf Hh Hf. destruct pc as [c| |o conv v|v|q t|].
  - destruct Hwf as [Hc Hne]. destruct Hh as [E _]. unfold continues. cbn [vfprintf_loop]. step_char E.
    rewrite (truth_char _ Hc), (proj2 (Z.eqb_neq _ _) Hne). apply continues_emit1.
  - destruct Hh as [E [E1 _] ]. unfold continues. cbn [vfprintf_loop]. step_char E.
    change (negb (truth 37)) with false. change (37 =? 37) with true. cbv iota zeta. step_char E1. change (37 =? 37) with true.
    cbv iota. simpl length. replace (p + Z.of_nat 2) with (p + 1 + 1) by lia. apply (continues_emit1 [37]).
  - pose proof Hwf as (Hd & H0 & Hw & Hc & Hv). cbn [piece_text app] in Hh. rewrite <-!app_assoc in Hh. cbn [app] in Hh.
    assert (isdigit conv = false /\ conv <> 37 /\ conv <> 46 /\ conv <> 108) as (? & ? & ? & ?).
    { clear -Hc. repeat (apply elem_of_cons in Hc as [-> |Hc]; [done|]). by apply elem_of_nil in Hc. }
    destruct (loop_directive s p o conv rest (v :: args) len fuel Hh Hd H0 Hw) as [E El]; try done.
    { simpl in Hf. rewrite !length_app in Hf. simpl in Hf. lia. }
    unfold continues. cbn [piece_args app]. rewrite El.
    set (f := p + Z.of_nat (S (length (width_text o ++ long_text o)))) in *.
    replace (p + Z.of_nat (length (piece_text (Num o conv v)))) with (f + 1).
    2: { unfold f. simpl. rewrite !length_app. simpl. lia. }
    apply (directive_num p f o conv v args len s (fun args => vfprintf_loop ops fuel (f + 1) args)); done.
  - destruct (loop_letter s p 66 rest (v :: args) len fuel Hh ltac:(by left) ltac:(simpl in Hf; lia)) as [E El]. unfold continues. cbn [piece_args app].
    rewrite El, (directive_bool _ _ _ _ _ _ _ _ _ E). cbn [piece_text length rendered].
    replace (p + 1 + 1) with (p + Z.of_nat 2) by lia. unfold truth. destruct (v =? 0); apply continues_emit1.
  - destruct Hwf as (Hq & Ht & Hlt).
    destruct (loop_letter s p 115 rest (q :: args) len fuel Hh ltac:(by right) ltac:(simpl in Hf; lia)) as [E El]. unfold continues. cbn [piece_args app].
    rewrite El, (directive_str _ _ _ _ _ _ _ _ _ E). rewrite (proj2 (Z.eqb_neq q 0) Hq).
    rewrite (bind_ok _ _ s (Z.of_nat (length t)) s).
    2: { unfold on_bytes. rewrite (strlen_run _ _ _ Ht). by destruct s. }
    rewrite Nat2Z.id. destruct Ht as [_ Ht]. apply holds_app in Ht as [Ht _].
    rewrite (bind_ok _ _ _ _ _ (bytes_at_run s q t Ht)). cbn [piece_text length rendered].
    replace (p + 1 + 1) with (p + Z.of_nat 2) by lia. apply continues_emit1.
  - destruct (loop_letter s p 115 rest (0 :: args) len fuel Hh ltac:(by right) ltac:(simpl in Hf; lia)) as [E El]. unfold continues. cbn [piece_args app].
    rewrite El, (directive_str _ _ _ _ _ _ _ _ _ E). change (0 =? 0) with true. cbv beta iota. cbn [piece_text length rendered].
    replace (p + 1 + 1) with (p + Z.of_nat 2) by lia. apply continues_emit1.
Qed.
Lemma vfprintf_loop_run pcs (s : io) p args len fuel :
  Forall (wf_piece (iomem s)) pcs -> holds (iomem s) p (flat_map piece_text pcs ++ [0]) ->
  (length (flat_map piece_text pcs) < fuel)%nat -> in_u 32 len ->
  exists s', vfprintf_loop ops (S fuel) p (flat_map piece_args pcs ++ args) len s =
    Ok (u32 (len + Z.of_nat (length (flat_map rendered pcs)))) s' /\ wrote log (flat_map rendered pcs) s s'.
Proof.
  revert s p len fuel. induction pcs as [|pc pcs IH]; intros s p len fuel Hwf Hh Hf Hlen; cbn [flat_map app length Z.of_nat] in *.
  - destruct Hh as [E _]. exists s. split; [|apply wrote_refl]. cbn [vfprintf_loop]. step_char E.
    change (negb (truth 0)) with true. cbv iota. by rewrite Z.add_0_r, (wrap_id 32 len Hlen).
  - apply Forall_cons in Hwf as [Hp Hwf]. rewrite <-!app_assoc in *. rewrite length_app in Hf.
    destruct (piece_run s p pc _ (flat_map piece_args pcs ++ args) len fuel Hp Hh ltac:(lia)) as (s1 & E1 & W1).
    assert (0 < length (piece_text pc))%nat as Hpos by (destruct pc; simpl; lia).
    destruct fuel as [|fuel]; [lia|]. apply holds_app in Hh as [_ Hh].
    destruct (IH s1 (p + Z.of_nat (length (piece_text pc))) (u32 (len + Z.of_nat (length (rendered pc)))) fuel) as (s2 & E2 & W2).
    + by rewrite (proj1 W1).
    + by rewrite (proj1 W1).
    + lia.
    + apply wrap_range. lia.
    + exists s2. split; [|by eapply wrote_trans]. rewrite E1, E2. f_equal. rewrite length_app, wrap_add_l. f_equal. lia.
Qed.

(** The call on a whole format. *)
Lemma fprintf_run (s : io) p pcs args : p <> NULL -> Forall (wf_piece (iomem s)) pcs ->
  holds (iomem s) p (flat_map piece_text pcs ++ [0]) ->
  exists s', fprintf ops p (flat_map piece_args pcs ++ args) s = Ok (u32 (Z.of_nat (length (flat_map rendered pcs)))) s' /\
    wrote log (flat_map rendered pcs) s s'.
Proof.
  intros Hp Hwf Hh. unfold fprintf, vfprintf. unfold truth. rewrite (proj2 (Z.eqb_neq p 0)) by done.
  rewrite (bind_ok _ _ s tt s) by done. rewrite (bind_ok _ _ s (S (size (iomem s))) s) by done.
  destruct (vfprintf_loop_run pcs s p args 0 (size (iomem s)) Hwf Hh) as (s' & E & W); [| |by exists s'].
  - apply holds_fuel in Hh. rewrite length_app in Hh. simpl in Hh. lia.
  - unfold in_u. lia.
Qed.
End Format.

(** C26: [vfprintf] renders its format: a format made of plain characters, [%%],
    numbers in hexadecimal, decimal and pointer form with their optional zero
    padding, width up to 25 and [l], booleans and strings (or NULL), given its
    arguments in order and a file that takes every byte, terminates, writes
    exactly the rendered parts one after the other, leaves the memory alone and
    returns the number of bytes written, modulo 2^32. *)
Theorem vfprintf_renders {F : Type} (ops : file_operations F) log (s : CString.io (F := F)) p pcs args :
  accepts ops log -> p <> NULL -> Forall (wf_piece (iomem s)) pcs ->
  holds (iomem s) p (flat_map piece_text pcs ++ [0]) ->
  exists s', fprintf ops p (flat_map piece_args pcs ++ args) s = Ok (u32 (Z.of_nat (length (flat_map rendered pcs)))) s' /\
    wrote log (flat_map rendered pcs) s s'.
Proof.
  intros Hacc. by apply fprintf_run.
Qed.

(** ** Witnesses *)

Lemma term_accepts : accepts term_ops screen.
Proof. intros bs f. eexists. split; reflexivity. Qed.

Definition blank (m : bytes) : CString.io (F := terminal) := mk_io m (mk_term [] []).

Ltac digits := repeat (apply Forall_cons; split; [split; [unfold is_char; lia|eexists; split; [reflexivity|lia] ]|]); by apply Forall_nil.

(** "2Ah" in base 16. *)
Lemma strtol_reads_witness :
  strtol 10 16 (poke 10 [50; 65; 104; 0] empty) = Ok (42, 12) (poke 10 [50; 65; 104; 0] empty) /\
  strtol 10 10 (poke 10 [49; 65; 0] empty) = Ok (20, 12) (poke 10 [49; 65; 0] empty).
Proof.
  destruct (strtol_reads (poke 10 [50; 65; 104; 0] empty) 10 16 [50; 65] 104 [0]) as (E & _ & H);
    [lia|digits|vm_compute; repeat split|right; by left|].
  split; [exact E|]. apply (H (poke 10 [49; 65; 0] empty) 10). concrete_cstr.
Defined.

Lemma number_roundtrip_witness :
  exists bs s', print_number term_ops 300 10 5 false (blank empty) = Ok (Z.of_nat (length bs)) s' /\
    wrote screen bs (blank empty) s' /\
    (cstr (poke 10 [48; 48; 51; 48; 48; 0] empty) 10 bs ->
     strtol 10 10 (poke 10 [48; 48; 51; 48; 48; 0] empty) = Ok (300, 10 + Z.of_nat (length bs)) (poke 10 [48; 48; 51; 48; 48; 0] empty)).
Proof.
  destruct (number_roundtrip term_ops screen (blank empty) 300 10 5 (poke 10 [48; 48; 51; 48; 48; 0] empty) 10 term_accepts)
    as (bs & s' & E & W & H & _); [lia..|]. by exists bs, s'.
Defined.

(** "n=%04d %s" with -7 and "ok". *)
Definition example_pieces : list piece :=
  [Plain 110; Plain 61; Num (mk_options true [52] false) 100 4294967289; Plain 32; Str 50 [111; 107]; Percent].
Definition example_memory : bytes := poke 10 (flat_map piece_text example_pieces ++ [0]) (poke 50 [111; 107; 0] empty).

Lemma vfprintf_renders_witness :
  exists s', fprintf term_ops 10 [4294967289; 50] (blank example_memory) = Ok 11 s' /\
    wrote screen [110; 61; 45; 48; 48; 48; 55; 32; 111; 107; 37] (blank example_memory) s'.
Proof.
  apply (vfprintf_renders term_ops screen (blank example_memory) 10 example_pieces []);
    [apply term_accepts|unfold NULL; lia| |vm_compute; repeat split].
  apply Forall_cons; split; [split; [unfold is_char|]; lia|].
  apply Forall_cons; split; [split; [unfold is_char|]; lia|].
  apply Forall_cons; split.
  { split; [digits|]. split; [simpl; lia|]. split; [vm_compute; congruence|]. split; [|unfold in_u; lia].
    do 4 right. by left. }
  apply Forall_cons; split; [split; [unfold is_char|]; lia|].
  apply Forall_cons; split; [split; [lia|split; [concrete_cstr|simpl; lia] ]|].
  apply Forall_cons; split; [exact I|by apply Forall_nil].
Defined.
