(* ===== verification/Timer.v ===== *)
(** * Timer: managed timeouts

    [core/timer.c] over the list interface of [ListApi], and the SysTick driver of
    [arch/arm-m/systick.c] as one [struct timer_ops].  A [struct
    timer_managed_timeout] is known by its address, which is that of its list
    entry.  The handlers of the timeouts are given ([call]). *)
From S2P Require Import Prelude ListApi Fw.

(** [struct timer_ops], over the state [D] of the hardware. *)
Record timer_ops (D : Type) := mk_timer_ops {
  op_set : Z -> D -> D;
  op_get : D -> Z;
  op_remaining : D -> Z;
  op_enable : D -> D;
  op_disable : D -> D }.
Arguments mk_timer_ops {D}. Arguments op_set {D}. Arguments op_get {D}. Arguments op_remaining {D}.
Arguments op_enable {D}. Arguments op_disable {D}.

(** The handler of a timer: none, [timer_managedhandler], or another function. *)
Inductive timer_handler := NoHandler | ManagedHandler | OtherHandler (f : Z).

#[export] Instance timer_handler_eq_dec : EqDecision timer_handler.
Proof. solve_decision. Defined.

(** [struct timer_managed_timeout], less its list entry. *)
Record timer_managed_timeout := mk_timeout { remaining : Z; reset_time : Z; handler : Z; context : Z }.

Section Timer.
Context {S L D E : Type} `{LA : ListApi S L} (ops : timer_ops D).

(** [struct timer] *)
Record timer := mk_timer { thandler : timer_handler; managed_timeouts : L; device : D }.

(** The memory of the timers, whether interrupts are masked, and the rest of the
    world, which only the handlers touch. *)
Record tsys := mk_tsys {
  tentries : S;
  timeouts : gmap Z timer_managed_timeout;
  timers : gmap Z timer;
  locked : bool;
  env : E }.

Definition put_tentries (s : tsys) v := mk_tsys v (timeouts s) (timers s) (locked s) (env s).
Definition put_timeouts (s : tsys) v := mk_tsys (tentries s) v (timers s) (locked s) (env s).
Definition put_timers (s : tsys) v := mk_tsys (tentries s) (timeouts s) v (locked s) (env s).
Definition put_locked (s : tsys) v := mk_tsys (tentries s) (timeouts s) (timers s) v (env s).

(** What the handler of a timeout does, for the function, the timer and the
    context it is given. *)
Context (call : Z -> Z -> Z -> M tsys unit).

Definition get_timer (tm : Z) : M tsys timer := deref (fun s => timers s !! tm).
Definition put_timer (tm : Z) (v : timer) : M tsys unit := modify (fun s => put_timers s (<[tm := v]> (timers s))).
Definition get_timeout (t : Z) : M tsys timer_managed_timeout := deref (fun s => timeouts s !! t).
Definition put_timeout (t : Z) (v : timer_managed_timeout) : M tsys unit :=
  modify (fun s => put_timeouts s (<[t := v]> (timeouts s))).
Definition set_remaining (t v : Z) : M tsys unit :=
  let! x := get_timeout t in put_timeout t (mk_timeout (i32 v) (reset_time x) (handler x) (context x)).

Definition on_device (tm : Z) (f : D -> D) : M tsys unit :=
  let! x := get_timer tm in put_timer tm (mk_timer (thandler x) (managed_timeouts x) (f (device x))).

(** A list operation on [timer->managed_timeouts]. *)
Definition on_timeouts (tm : Z) (op : L -> S -> option (L * S)) : M tsys unit :=
  let! x := get_timer tm in
  let! r := deref (fun s => op (managed_timeouts x) (tentries s)) in
  run! modify (fun s => put_tentries s r.2) in
  put_timer tm (mk_timer (thandler x) r.1 (device x)).

Definition on_tentries (op : S -> option S) : M tsys unit :=
  let! r := deref (fun s => op (tentries s)) in modify (fun s => put_tentries s r).

Definition lock : M tsys unit := modify (fun s => put_locked s true).
Definition unlock : M tsys unit := modify (fun s => put_locked s false).

Definition timer_set (tm time : Z) : M tsys unit :=
  run! assert_ (time >? 0) in on_device tm (op_set ops time).
Definition timer_get (tm : Z) : M tsys Z := let! x := get_timer tm in ret (op_get ops (device x)).
Definition timer_remaining (tm : Z) : M tsys Z := let! x := get_timer tm in ret (op_remaining ops (device x)).
Definition timer_enable (tm : Z) : M tsys unit := on_device tm (op_enable ops).
Definition timer_disable (tm : Z) : M tsys unit := on_device tm (op_disable ops).

Definition timer_set_handler (tm : Z) (h : timer_handler) : M tsys unit :=
  let! x := get_timer tm in
  run! assert_ (negb (bool_decide (thandler x = ManagedHandler))) in
  put_timer tm (mk_timer h (managed_timeouts x) (device x)).
Definition timer_get_handler (tm : Z) : M tsys timer_handler := let! x := get_timer tm in ret (thandler x).

(** The timeout of the first entry; [container_of] keeps NULL, the offset is 0. *)
Definition first_timeout (tm : Z) : M tsys Z := let! x := get_timer tm in ret (l_first (managed_timeouts x)).
Definition next_timeout (tm t : Z) : M tsys Z :=
  let! x := get_timer tm in deref (fun s => l_next (managed_timeouts x) (tentries s) t).

Definition timer_managed_recalculate (tm : Z) : M tsys unit :=
  let! t := first_timeout tm in
  if truth t then let! x := get_timeout t in timer_set tm (remaining x) else timer_disable tm.

(** All of its body is commented out. *)
Definition timer_managed_update_first (tm : Z) : M tsys unit := ret tt.

Definition append_timeout (tm t : Z) : M tsys unit := on_timeouts tm (fun l st => l_append l st t).
Definition delete_timeout (tm t : Z) : M tsys unit := on_timeouts tm (fun l st => l_delete l st t).
Definition rrotate_timeouts (tm : Z) : M tsys unit :=
  let! x := get_timer tm in
  let! l := deref (fun s => l_rrotate (managed_timeouts x) (tentries s)) in
  put_timer tm (mk_timer (thandler x) l (device x)).

(** The loop of [timer_managed_insert], at entry [t]. *)
Fixpoint insert_loop (fuel : nat) (tm timeout t : Z) : M tsys unit :=
  match fuel with
  | O => fail Diverges
  | Datatypes.S fuel =>
      if truth t then
        let! n := get_timeout timeout in
        let! x := get_timeout t in
        if remaining n <=? remaining x then
          let! first := first_timeout tm in
          run! (if t =? first then
                  run! on_tentries (fun st => l_insert_before st t timeout) in
                  run! rrotate_timeouts tm in
                  timer_managed_recalculate tm
                else on_tentries (fun st => l_insert_before st t timeout)) in
          let! x := get_timeout t in
          let! n := get_timeout timeout in
          set_remaining t (remaining x - remaining n)
        else
          run! set_remaining timeout (remaining n - remaining x) in
          let! t := next_timeout tm t in
          insert_loop fuel tm timeout t
      else append_timeout tm timeout
  end.

Definition timer_managed_insert (tm timeout : Z) : M tsys unit :=
  run! assert_ (truth tm) in
  run! assert_ (truth timeout) in
  let! x := get_timer tm in
  if l_is_empty (managed_timeouts x) then
    run! append_timeout tm timeout in
    timer_managed_recalculate tm
  else
    run! timer_managed_update_first tm in
    let! t := first_timeout tm in
    let! fuel := gets (fun s => Datatypes.S (size (timeouts s))) in
    insert_loop fuel tm timeout t.

(** [memory] is what [malloc_raw] returns. *)
Definition timer_managed_schedule (tm timeout : Z) (repeat : bool) (h c memory : Z) : M tsys unit :=
  run! assert_ (truth tm) in
  run! assert_ (timeout >? 0) in
  run! assert_ (truth h) in
  run! lock in
  let! th := timer_get_handler tm in
  run! (if negb (bool_decide (th = ManagedHandler)) then
          run! (let! x := get_timer tm in put_timer tm (mk_timer (thandler x) l_init (device x))) in
          timer_set_handler tm ManagedHandler
        else ret tt) in
  run! on_tentries (fun st => l_entry_init st memory) in
  run! put_timeout memory (mk_timeout timeout (if repeat then timeout else 0) h c) in
  run! timer_managed_insert tm memory in
  unlock.

Definition free_timeout (t : Z) : M tsys unit := modify (fun s => put_timeouts s (delete t (timeouts s))).

Fixpoint cancel_loop (fuel : nat) (tm h c t : Z) : M tsys unit :=
  match fuel with
  | O => fail Diverges
  | Datatypes.S fuel =>
      if truth t then
        let! x := get_timeout t in
        if (handler x =? h) && (context x =? c) then
          let! f := first_timeout tm in
          let first := t =? f in
          run! (if first then timer_managed_update_first tm else ret tt) in
          let! next := next_timeout tm t in
          run! (if truth next then let! n := get_timeout next in set_remaining next (remaining n + remaining x) else ret tt) in
          run! delete_timeout tm t in
          run! free_timeout t in
          if first then timer_managed_recalculate tm else ret tt
        else
          let! t := next_timeout tm t in
          cancel_loop fuel tm h c t
      else ret tt
  end.

Definition timer_managed_cancel (tm h c : Z) : M tsys unit :=
  run! assert_ (truth tm) in
  run! assert_ (truth h) in
  run! lock in
  let! t := first_timeout tm in
  let! fuel := gets (fun s => Datatypes.S (size (timeouts s))) in
  run! cancel_loop fuel tm h c t in
  unlock.

(** The loop of [timer_managedhandler], for at most [rounds] timeouts. *)
Fixpoint fire_loop (rounds : nat) (tm t : Z) : M tsys unit :=
  match rounds with
  | O => fail Diverges
  | Datatypes.S rounds =>
      let! x := get_timeout t in
      if remaining x <=? 0 then
        run! lock in
        run! delete_timeout tm t in
        let! free_it := (if reset_time x >? 0 then
                           run! set_remaining t (reset_time x) in
                           run! timer_managed_insert tm t in
                           ret false
                         else ret true) in
        run! unlock in
        let! x := get_timeout t in
        run! call (handler x) tm (context x) in
        run! (if (free_it : bool) then free_timeout t else ret tt) in
        let! t := first_timeout tm in
        fire_loop rounds tm t
      else ret tt
  end.

Definition timer_managedhandler (rounds : nat) (tm elapsed_time : Z) : M tsys unit :=
  run! assert_ (truth tm) in
  run! lock in
  let! t := first_timeout tm in
  if truth t then
    let! x := get_timeout t in
    run! set_remaining t (remaining x - elapsed_time) in
    run! unlock in
    run! fire_loop rounds tm t in
    timer_managed_recalculate tm
  else unlock.
End Timer.
Arguments mk_timer {L D}. Arguments thandler {L D}. Arguments managed_timeouts {L D}. Arguments device {L D}.
Arguments mk_tsys {S L D E}. Arguments tentries {S L D E}. Arguments timeouts {S L D E}. Arguments timers {S L D E}.
Arguments locked {S L D E}. Arguments env {S L D E}.

(** ** SysTick *)

(** [struct systick_regs], less CALIB. *)
Record systick_regs := mk_regs { CTRL : Z; LOAD : Z; VAL : Z }.

Definition kCtrlClockSource : Z := Z.shiftl 1 2.
Definition kCtrlTickInt : Z := Z.shiftl 1 1.
Definition kCtrlEnable : Z := Z.shiftl 1 0.
Definition kMaxLoadValue : Z := 0xFFFFFF.

Section SysTick.
(** [clock_get_main()] and [clock_systick_reference()]. *)
Context (clock_main clock_reference : Z).

Definition systick_clock (r : systick_regs) : Z :=
  if truth (Z.land (CTRL r) kCtrlClockSource) then clock_main else clock_reference.

(** Unsigned arithmetic, stored to an [int32_t]. *)
Definition systick_get (r : systick_regs) : Z := i32 (u32 (LOAD r * 1000) / systick_clock r).
Definition systick_remaining (r : systick_regs) : Z := i32 (u32 (VAL r * 1000) / systick_clock r).

Definition systick_enable (r : systick_regs) : systick_regs :=
  mk_regs (Z.lor (CTRL r) (Z.lor kCtrlEnable kCtrlTickInt)) (LOAD r) (VAL r).
Definition systick_disable (r : systick_regs) : systick_regs :=
  mk_regs (Z.land (CTRL r) (u32 (Z.lnot (Z.lor kCtrlEnable kCtrlTickInt)))) (LOAD r) (VAL r).

(** A register takes any value; the hardware keeps 24 bits of LOAD. *)
Definition systick_set (time : Z) (r : systick_regs) : systick_regs :=
  let clock := systick_clock r in
  let maxPossibleValue := i32 (u32 (1000 * kMaxLoadValue) / clock) in
  let time := if time >? maxPossibleValue then maxPossibleValue else time in
  systick_enable (mk_regs (CTRL r) (u32 (clock / 1000 * u32 time)) 0).

Definition systick_ops : timer_ops systick_regs :=
  mk_timer_ops systick_set systick_get systick_remaining systick_enable systick_disable.

(** The interrupt; [other] is what a handler of its own does. *)
Section Irq.
Context {S L E : Type} `{LA : ListApi S L}.
Abbreviation tsys := (tsys (S := S) (L := L) (D := systick_regs) (E := E)).
Context (call : Z -> Z -> Z -> M tsys unit) (other : Z -> Z -> Z -> M tsys unit).

Definition systick_handle_irq (rounds : nat) (tm : Z) : M tsys unit :=
  let! x := get_timer tm in
  match thandler x with
  | NoHandler => ret tt
  | ManagedHandler => timer_managedhandler systick_ops call rounds tm (systick_get (device x))
  | OtherHandler f => other f tm (systick_get (device x))
  end.
End Irq.
End SysTick.
