(* ===== verification/TimerSpec.v ===== *)
(** * TimerSpec: what the managed timeouts implement

    The list of [timer->managed_timeouts], each with the time that remains after
    the one before it, represents a queue of absolute times.  On any [ListApi] and
    any device, scheduling and cancelling refine the operations on this queue, and
    the handler of the timer fires what is due. *)
From S2P Require Import Prelude ListApi Fw Timer.

(** A timeout: when it is due, where it is, and what it does. *)
Record due := mk_due { d_time : Z; d_addr : Z; d_reset : Z; d_handler : Z; d_ctx : Z }.

(** Among equal times the one scheduled last comes first. *)
Fixpoint a_insert (d : due) (q : list due) : list due :=
  match q with
  | [] => [d]
  | e :: q' => if d_time d <=? d_time e then d :: q else e :: a_insert d q'
  end.

Definition is_first (d : due) (q : list due) : bool :=
  match q with [] => true | e :: _ => d_time d <=? d_time e end.

Definition matches (h c : Z) (d : due) : bool := (d_handler d =? h) && (d_ctx d =? c).

(** The first that matches is cancelled. *)
Fixpoint a_cancel (h c : Z) (q : list due) : list due :=
  match q with [] => [] | d :: q' => if matches h c d then q' else d :: a_cancel h c q' end.

(** Times in order, from [b] on, as [millitime_t] can hold them. *)
Fixpoint ordered (b : Z) (q : list due) : Prop :=
  match q with [] => True | d :: q' => b <= d_time d < 2 ^ 31 /\ ordered (d_time d) q' end.

(** The memory holds the queue [q], relative to [b]. *)
Fixpoint queued (m : gmap Z timer_managed_timeout) (b : Z) (q : list due) : Prop :=
  match q with
  | [] => True
  | d :: q' => m !! d_addr d = Some (mk_timeout (d_time d - b) (d_reset d) (d_handler d) (d_ctx d)) /\
               queued m (d_time d) q'
  end.

(** The time of the last timeout. *)
Definition end_time (b : Z) (q : list due) : Z := foldl (fun _ d => d_time d) b q.

Lemma queued_app m b q1 q2 : queued m b (q1 ++ q2) <-> queued m b q1 /\ queued m (end_time b q1) q2.
Proof. revert b. induction q1 as [|d q1 IH]; intros b; simpl; [tauto|]. rewrite IH. unfold end_time. simpl. tauto. Qed.

Lemma ordered_app b q1 q2 : ordered b (q1 ++ q2) <-> ordered b q1 /\ ordered (end_time b q1) q2.
Proof. revert b. induction q1 as [|d q1 IH]; intros b; simpl; [tauto|]. rewrite IH. unfold end_time. simpl. tauto. Qed.

Lemma end_time_snoc b q d : end_time b (q ++ [d]) = d_time d.
Proof. unfold end_time. by rewrite foldl_app. Qed.

Lemma end_time_bounds b q : 0 <= b < 2 ^ 31 -> ordered b q -> b <= end_time b q < 2 ^ 31.
Proof.
  revert b. induction q as [|d q IH]; intros b Hb; unfold end_time; simpl; [lia|]. intros [H Ho].
  specialize (IH (d_time d) ltac:(lia) Ho). unfold end_time in IH. lia.
Qed.

Lemma queued_other m m' b q : (forall a, a ∈ d_addr <$> q -> m' !! a = m !! a) -> queued m b q -> queued m' b q.
Proof.
  revert b. induction q as [|d q IH]; intros b Hm; simpl; [done|]. intros [E Hq].
  split; [rewrite Hm; [done|by left]|]. apply IH; [|done]. intros a Ha. apply Hm. by right.
Qed.

Lemma queued_insert m b q a v : a ∉ d_addr <$> q -> queued m b q -> queued (<[a := v]> m) b q.
Proof. intros Ha. apply queued_other. intros a' Ha'. rewrite lookup_insert_ne; [done|]. by intros ->. Qed.

Lemma queued_size m b q : queued m b q -> NoDup (d_addr <$> q) -> (length q <= size m)%nat.
Proof.
  intros Hq Hn. rewrite <-(size_dom (D := gset Z)).
  rewrite <-(length_fmap d_addr q), <-(size_list_to_set (C := gset Z) (d_addr <$> q) Hn).
  apply subseteq_size. intros a Ha%elem_of_list_to_set. apply elem_of_dom.
  revert b Hq a Ha. clear Hn. induction q as [|d q IH]; intros b Hq a Ha; simpl in *; [by apply elem_of_nil in Ha|].
  destruct Hq as [E Hq]. apply elem_of_cons in Ha as [->|Ha]; [by eexists|by eapply IH].
Qed.

Lemma a_insert_head d q : hd_or NULL (d_addr <$> a_insert d q) = if is_first d q then d_addr d else hd_or NULL (d_addr <$> q).
Proof. destruct q as [|e q]; simpl; [done|]. by destruct (d_time d <=? d_time e). Qed.

Lemma ordered_insert b d q : b <= d_time d < 2 ^ 31 -> ordered b q -> ordered b (a_insert d q).
Proof.
  revert b. induction q as [|e q IH]; intros b Hd; simpl; [done|]. intros [He Hq].
  destruct (Z.leb_spec (d_time d) (d_time e)); simpl; [|split; [lia|apply IH; [lia|done] ] ]. split; [lia|]. split; [lia|done].
Qed.

Lemma truth_ne x : x <> NULL -> truth x = true.
Proof. intros H. unfold truth. by rewrite (proj2 (Z.eqb_neq x 0)). Qed.

Section Spec.
Context {S L D E : Type} `{LA : ListApi S L} (ops : timer_ops D).
Abbreviation tsys := (Timer.tsys (S := S) (L := L) (D := D) (E := E)).

(** ** The elementary steps *)

Definition set_timers (s : tsys) v : tsys := mk_tsys (tentries s) (timeouts s) v (locked s) (env s).

Lemma get_timer_run (s : tsys) tm x : timers s !! tm = Some x -> get_timer tm s = Ok x s.
Proof. apply (deref_ok (fun s => timers s !! tm)). Qed.

Lemma get_timeout_run (s : tsys) t x : timeouts s !! t = Some x -> get_timeout t s = Ok x s.
Proof. apply (deref_ok (fun s => timeouts s !! t)). Qed.

Lemma set_remaining_run (s : tsys) t v r rt h c : timeouts s !! t = Some (mk_timeout r rt h c) -> - 2 ^ 31 <= v < 2 ^ 31 ->
  set_remaining t v s = Ok tt (put_timeouts s (<[t := mk_timeout v rt h c]> (timeouts s))).
Proof.
  intros E1 Hv. unfold set_remaining. rewrite (bind_ok _ _ _ _ _ (get_timeout_run _ _ _ E1)).
  by rewrite (sgn_id 32 v) by lia.
Qed.

Lemma first_timeout_run (s : tsys) tm th l dv xs : timers s !! tm = Some (mk_timer th l dv) -> l_rep (tentries s) l xs ->
  first_timeout tm s = Ok (hd_or NULL xs) s.
Proof.
  intros E1 Hl. unfold first_timeout. rewrite (bind_ok _ _ _ _ _ (get_timer_run _ _ _ E1)).
  unfold ret. simpl. by rewrite (l_first_spec _ _ _ Hl).
Qed.

Lemma next_timeout_run (s : tsys) tm th l dv xs1 x xs2 : timers s !! tm = Some (mk_timer th l dv) ->
  l_rep (tentries s) l (xs1 ++ x :: xs2) -> next_timeout tm x s = Ok (hd_or NULL xs2) s.
Proof.
  intros E1 Hl. unfold next_timeout. rewrite (bind_ok _ _ _ _ _ (get_timer_run _ _ _ E1)).
  apply deref_ok. by apply (l_next_spec _ _ xs1).
Qed.

Lemma on_timeouts_run (s : tsys) tm th l dv op l' st' : timers s !! tm = Some (mk_timer th l dv) ->
  op l (tentries s) = Some (l', st') ->
  on_timeouts tm op s = Ok tt (set_timers (put_tentries s st') (<[tm := mk_timer th l' dv]> (timers s))).
Proof.
  intros E1 E2. unfold on_timeouts. rewrite (bind_ok _ _ _ _ _ (get_timer_run _ _ _ E1)).
  rewrite (bind_ok _ _ s (l', st') s) by (by apply deref_ok). done.
Qed.

Lemma on_tentries_run (s : tsys) op st' : op (tentries s) = Some st' -> on_tentries op s = Ok tt (put_tentries s st').
Proof. intros E1. unfold on_tentries. by rewrite (bind_ok _ _ s st' s) by (by apply deref_ok). Qed.

Lemma on_device_run (s : tsys) tm th l dv f : timers s !! tm = Some (mk_timer th l dv) ->
  on_device tm f s = Ok tt (set_timers s (<[tm := mk_timer th l (f dv)]> (timers s))).
Proof. intros E1. unfold on_device. by rewrite (bind_ok _ _ _ _ _ (get_timer_run _ _ _ E1)). Qed.

(** What a state says of one timer: its handler is the managed one, its list has
    the entries [xs], its device the state [dv]. *)
Definition managed (s : tsys) (tm : Z) (xs : list Z) (dv : D) : Prop :=
  exists l, timers s !! tm = Some (mk_timer ManagedHandler l dv) /\ l_rep (tentries s) l xs.

Record trep (s : tsys) (tm : Z) (q : list due) (dv : D) : Prop := {
  trep_managed : managed s tm (d_addr <$> q) dv;
  trep_queued : queued (timeouts s) 0 q }.

(** Neither the interrupt mask nor the rest of the world changed, and there is
    still nothing at NULL. *)
Definition same (s s' : tsys) : Prop :=
  locked s' = locked s /\ env s' = env s /\ timeouts s' !! NULL = timeouts s !! NULL.

Lemma same_refl s : same s s.
Proof. done. Qed.

Lemma same_trans s1 s2 s3 : same s1 s2 -> same s2 s3 -> same s1 s3.
Proof. intros (A1 & A2 & A3) (B1 & B2 & B3). repeat split; congruence. Qed.

Lemma same_put s t v : t <> NULL -> same s (put_timeouts s (<[t := v]> (timeouts s))).
Proof. intros Ht. split; [done|]. split; [done|]. simpl. by rewrite lookup_insert_ne. Qed.

Lemma same_free s t : t <> NULL -> same s (put_timeouts s (delete t (timeouts s))).
Proof. intros Ht. split; [done|]. split; [done|]. simpl. by rewrite lookup_delete_ne. Qed.

Lemma same_timeouts s s' : timeouts s' = timeouts s -> locked s' = locked s -> env s' = env s -> same s s'.
Proof. intros E1 E2 E3. split; [done|]. split; [done|]. by rewrite E1. Qed.

Lemma recalculate_run (s : tsys) tm xs dv : managed s tm xs dv ->
  (forall x, hd_or NULL xs <> NULL -> timeouts s !! hd_or NULL xs = Some x -> 0 < remaining x) ->
  (hd_or NULL xs <> NULL -> is_Some (timeouts s !! hd_or NULL xs)) ->
  exists s' dv', timer_managed_recalculate ops tm s = Ok tt s' /\ managed s' tm xs dv' /\
    timeouts s' = timeouts s /\ tentries s' = tentries s /\ same s s' /\
    dv' = (if hd_or NULL xs =? NULL then op_disable ops dv
           else op_set ops (default 0 (remaining <$> timeouts s !! hd_or NULL xs)) dv).
Proof.
  intros (l & El & Hl) Hpos Hx. unfold timer_managed_recalculate.
  rewrite (bind_ok _ _ _ _ _ (first_timeout_run s tm _ l dv xs El Hl)).
  destruct (Z.eqb_spec (hd_or NULL xs) NULL) as [E0|Hne].
  - rewrite E0. change (truth NULL) with false. cbv iota. unfold timer_disable. rewrite (on_device_run s tm _ l dv _ El).
    eexists _, _. split; [done|]. split; [|done]. exists l. simpl. by rewrite lookup_insert_eq.
  - rewrite (truth_ne _ Hne). destruct (Hx Hne) as [x Ex].
    rewrite (bind_ok _ _ _ _ _ (get_timeout_run s _ x Ex)). unfold timer_set.
    rewrite (proj2 (Z.gtb_lt _ _)) by (by eapply Hpos). rewrite (bind_ok _ _ s tt s) by done.
    rewrite (on_device_run s tm _ l dv _ El). eexists _, _. split; [done|]. split.
    + exists l. simpl. by rewrite lookup_insert_eq.
    + rewrite Ex. done.
Qed.

(** ** Insertion *)

Lemma bind_assoc_ok {A B C} (c : M tsys A) (f : A -> M tsys B) (k : B -> M tsys C) s b s' :
  bind c f s = Ok b s' -> bind c (fun a => bind (f a) k) s = k b s'.
Proof. unfold bind. destruct (c s); [|done]. by intros ->. Qed.

(** A timeout that is in no list. *)
Record fresh (s : tsys) (xs : list Z) (t : Z) : Prop := {
  fresh_detached : l_detached (tentries s) t;
  fresh_null : t <> NULL;
  fresh_notin : t ∉ xs }.

Lemma append_timeout_run (s : tsys) tm xs dv t : managed s tm xs dv -> fresh s xs t ->
  exists s', append_timeout tm t s = Ok tt s' /\ managed s' tm (xs ++ [t]) dv /\ timeouts s' = timeouts s /\ same s s'.
Proof.
  intros (l & El & Hl) [Hd H0 Hn]. destruct (l_append_spec _ _ _ _ Hl Hd H0 Hn) as (l' & st' & E1 & Hl' & _).
  unfold append_timeout. rewrite (on_timeouts_run s tm _ l dv _ l' st' El E1).
  eexists. split; [done|]. split; [|done]. exists l'. simpl. by rewrite lookup_insert_eq.
Qed.

(** [timeout] is linked in front of [t]; in front of the first, the list is turned
    and the device set. *)
Lemma place_run (s : tsys) tm xs1 t xs2 dv timeout x : managed s tm (xs1 ++ t :: xs2) dv ->
  fresh s (xs1 ++ t :: xs2) timeout -> timeouts s !! timeout = Some x -> (xs1 = [] -> 0 < remaining x) ->
  exists s', (let! first := first_timeout tm in
              if t =? first then
                run! on_tentries (fun st => l_insert_before st t timeout) in
                run! rrotate_timeouts tm in
                timer_managed_recalculate ops tm
              else on_tentries (fun st => l_insert_before st t timeout)) s = Ok tt s' /\
    managed s' tm (xs1 ++ timeout :: t :: xs2) (match xs1 with [] => op_set ops (remaining x) dv | _ => dv end) /\
    timeouts s' = timeouts s /\ same s s'.
Proof.
  intros (l & El & Hl) [Hd H0 Hn] Ex Hpos. rewrite (bind_ok _ _ _ _ _ (first_timeout_run s tm _ l dv _ El Hl)).
  destruct (l_rep_NoDup _ _ _ Hl) as [Hnd _].
  destruct (l_insert_before_spec _ _ _ _ _ _ Hl Hd H0 Hn) as (st' & E1 & Hl' & _). destruct xs1 as [|x1 xs1]; simpl app in *.
  - cbn [hd_or]. rewrite Z.eqb_refl. specialize (Hpos eq_refl). rewrite (bind_ok _ _ _ _ _ (on_tentries_run s _ st' E1)).
    destruct (l_rrotate_spec _ l (t :: xs2) timeout Hl') as (l2 & E2 & Hl2).
    set (s1 := put_tentries s st'). set (s2 := set_timers s1 (<[tm := mk_timer ManagedHandler l2 dv]> (timers s1))).
    rewrite (bind_ok _ _ s1 tt s2).
    2: { unfold rrotate_timeouts. rewrite (bind_ok _ _ s1 _ s1 (get_timer_run s1 tm _ El)).
         by rewrite (bind_ok _ _ s1 l2 s1) by (by apply deref_ok). }
    destruct (recalculate_run s2 tm (timeout :: t :: xs2) dv) as (s' & dv' & E3 & Hm & Ht & Hen & Hs & Edv).
    + exists l2. simpl. by rewrite lookup_insert_eq.
    + simpl. intros x' _ Ex'. by simplify_eq.
    + simpl. intros _. by eexists.
    + exists s'. split; [done|]. split; [|done]. simpl in Edv. rewrite Ex, (proj2 (Z.eqb_neq _ _) H0) in Edv.
      simpl in Edv. by subst dv'.
  - cbn [hd_or app]. rewrite (proj2 (Z.eqb_neq t x1)).
    2: { intros ->. apply NoDup_cons in Hnd as [Hx _]. apply Hx. set_solver. }
    exists (put_tentries s st'). split; [apply (on_tentries_run s _ st' E1)|]. split; [|done]. by exists l.
Qed.

Lemma ordered_head b q1 e q2 : ordered b (q1 ++ e :: q2) -> end_time b q1 <= d_time e.
Proof. intros [_ [H _] ]%ordered_app. lia. Qed.

Lemma insert_loop_run tm d dv q2 (s : tsys) q1 fuel : (length q2 < fuel)%nat -> q1 ++ q2 <> [] ->
  trep s tm (q1 ++ q2) dv -> ordered 0 (q1 ++ q2) -> fresh s (d_addr <$> q1 ++ q2) (d_addr d) ->
  timeouts s !! d_addr d = Some (mk_timeout (d_time d - end_time 0 q1) (d_reset d) (d_handler d) (d_ctx d)) ->
  end_time 0 q1 <= d_time d < 2 ^ 31 -> 0 < d_time d ->
  exists s', insert_loop ops fuel tm (d_addr d) (hd_or NULL (d_addr <$> q2)) s = Ok tt s' /\
    trep s' tm (q1 ++ a_insert d q2) (if bool_decide (q1 = []) && is_first d q2 then op_set ops (d_time d) dv else dv) /\
    same s s'.
Proof.
  revert s q1 fuel. induction q2 as [|e q2 IH]; intros s q1 fuel Hf Hne [Hm Hq] Ho Hfr Ed Hd Hpos;
    (destruct fuel as [|fuel]; [simpl in Hf; lia|]); cbn [insert_loop fmap list_fmap hd_or].
  - change (truth NULL) with false. cbv iota. rewrite app_nil_r in *. rewrite (bool_decide_eq_false_2 (q1 = [])) by done.
    destruct (append_timeout_run s tm _ dv _ Hm Hfr) as (s' & E1 & Hm' & Ht & Hs). exists s'. split; [done|].
    split; [|done]. split; [by rewrite fmap_app|]. rewrite Ht. apply queued_app. by split.
  - pose proof Hm as (l & El & Hl). destruct (l_rep_NoDup _ _ _ Hl) as [Hnd Hnull].
    assert (d_addr e <> NULL /\ d_addr e <> d_addr d) as [He0 Hed].
    { split; [intros E0; apply Hnull; rewrite <-E0|intros E0; apply (fresh_notin _ _ _ Hfr); rewrite <-E0];
        rewrite fmap_app; apply elem_of_app; right; by left. }
    apply queued_app in Hq as [Hq1 [Ee Hq2] ]. rewrite (truth_ne _ He0).
    rewrite (bind_ok _ _ _ _ _ (get_timeout_run s _ _ Ed)), (bind_ok _ _ _ _ _ (get_timeout_run s _ _ Ee)). cbn [remaining].
    pose proof (ordered_head _ _ _ _ Ho) as Hle. pose proof (proj1 (ordered_app 0 q1 (e :: q2)) Ho) as [Ho1 [Heb Ho2] ].
    pose proof (end_time_bounds 0 q1 ltac:(lia) Ho1) as Hb1.
    replace (d_time d - end_time 0 q1 <=? d_time e - end_time 0 q1) with (d_time d <=? d_time e) by lia.
    cbn [a_insert is_first]. rewrite fmap_app in Hm, Hfr. cbn [fmap list_fmap] in Hm, Hfr.
    destruct (Z.leb_spec (d_time d) (d_time e)) as [Hlt|Hgt].
    + destruct (place_run s tm (d_addr <$> q1) (d_addr e) (d_addr <$> q2) dv (d_addr d) _ Hm Hfr Ed) as (s1 & E1 & Hm1 & Ht1 & Hs1).
      { intros E0. apply fmap_nil_inv in E0. subst q1. simpl. lia. }
      rewrite (bind_assoc_ok _ _ _ _ _ _ E1). rewrite <-Ht1 in Ed, Ee.
      rewrite (bind_ok _ _ _ _ _ (get_timeout_run s1 _ _ Ee)), (bind_ok _ _ _ _ _ (get_timeout_run s1 _ _ Ed)). cbn [remaining].
      rewrite (set_remaining_run s1 _ _ _ _ _ _ Ee) by lia.
      eexists. split; [reflexivity|]. split; [|eapply same_trans; [exact Hs1|by apply same_put] ]. split.
      * rewrite fmap_app. cbn [fmap list_fmap]. destruct Hm1 as (l1 & El1 & Hl1). exists l1. split; [|exact Hl1].
        simpl. rewrite El1. do 2 f_equal. rewrite andb_true_r. destruct q1; simpl; [f_equal; lia|done].
      * cbn [timeouts put_timeouts]. rewrite Ht1. apply queued_app. split.
        { apply queued_insert; [|done]. intros Hin. rewrite fmap_app in Hnd. apply NoDup_app in Hnd as (_ & H & _).
          apply (H _ Hin). by left. }
        rewrite Ht1 in Ed. split; [by rewrite lookup_insert_ne|]. split; [rewrite lookup_insert_eq; do 2 f_equal; lia|].
        apply queued_insert; [|done]. rewrite fmap_app in Hnd. apply NoDup_app in Hnd as (_ & _ & Hnd).
        by apply NoDup_cons in Hnd as [Hnd _].
    + rewrite (bind_ok _ _ _ _ _ (set_remaining_run s _ (d_time d - end_time 0 q1 - (d_time e - end_time 0 q1)) _ _ _ _ Ed ltac:(lia))).
      set (s1 := put_timeouts s _).
      assert (managed s1 tm (d_addr <$> q1 ++ e :: q2) dv) as Hm1 by (rewrite fmap_app; exact Hm).
      destruct Hm1 as (l1 & El1 & Hl1). rewrite fmap_app in Hl1. cbn [fmap list_fmap] in Hl1.
      rewrite (bind_ok _ _ _ _ _ (next_timeout_run s1 tm _ l1 dv _ _ _ El1 Hl1)).
      assert (end_time 0 (q1 ++ [e]) = d_time e) as Eend by apply end_time_snoc.
      destruct (IH s1 (q1 ++ [e]) fuel) as (s' & E1 & Hr & Hs).
      * simpl in Hf. lia.
      * by destruct q1.
      * rewrite <-app_assoc. split; [exists l1; rewrite fmap_app; by split|].
        cbn [timeouts put_timeouts s1]. apply queued_insert; [rewrite fmap_app; apply (fresh_notin _ _ _ Hfr)|].
        apply queued_app. by repeat split.
      * by rewrite <-app_assoc.
      * rewrite <-app_assoc, fmap_app. destruct Hfr as [H1 H2 H3]. by split.
      * cbn [timeouts put_timeouts s1]. rewrite lookup_insert_eq, Eend. do 2 f_equal. lia.
      * rewrite Eend. lia.
      * done.
      * exists s'. split; [exact E1|]. split; [|eapply same_trans; [|exact Hs]; apply same_put, (fresh_null _ _ _ Hfr)].
        rewrite <-app_assoc in Hr. rewrite (bool_decide_eq_false_2 (q1 ++ [e] = [])) in Hr by (by destruct q1). rewrite andb_false_r. exact Hr.
Qed.

Lemma managed_insert_run tm d dv q (s : tsys) : trep s tm q dv -> ordered 0 q -> fresh s (d_addr <$> q) (d_addr d) ->
  timeouts s !! d_addr d = Some (mk_timeout (d_time d) (d_reset d) (d_handler d) (d_ctx d)) ->
  0 < d_time d < 2 ^ 31 -> tm <> NULL ->
  exists s', timer_managed_insert ops tm (d_addr d) s = Ok tt s' /\
    trep s' tm (a_insert d q) (if is_first d q then op_set ops (d_time d) dv else dv) /\ same s s'.
Proof.
  intros [Hm Hq] Ho Hfr Ed Hd Htm. unfold timer_managed_insert.
  rewrite (truth_ne _ Htm), (truth_ne _ (fresh_null _ _ _ Hfr)). do 2 rewrite (bind_ok _ _ s tt s) by done.
  pose proof Hm as (l & El & Hl). rewrite (bind_ok _ _ _ _ _ (get_timer_run _ _ _ El)). cbn [managed_timeouts].
  rewrite (l_is_empty_spec _ _ _ Hl). destruct q as [|e q].
  - simpl bool_decide. cbn [fmap list_fmap] in *. rewrite bool_decide_eq_true_2 by done.
    destruct (append_timeout_run s tm [] dv _ Hm Hfr) as (s1 & E1 & Hm1 & Ht1 & Hs1). rewrite (bind_ok _ _ _ _ _ E1).
    cbn [app] in Hm1. destruct (recalculate_run s1 tm _ dv Hm1) as (s2 & dv' & E2 & Hm2 & Ht2 & _ & Hs2 & Edv).
    + intros x _ Ex. simpl in Ex. rewrite Ht1, Ed in Ex. injection Ex as <-. simpl. lia.
    + intros _. simpl. rewrite Ht1, Ed. by eexists.
    + exists s2. split; [exact E2|]. split; [|by eapply same_trans].
      simpl in Edv. rewrite Ht1, Ed, (proj2 (Z.eqb_neq _ _) (fresh_null _ _ _ Hfr)) in Edv. simpl in Edv. subst dv'.
      split; [exact Hm2|]. rewrite Ht2, Ht1. simpl. by rewrite Z.sub_0_r.
  - rewrite bool_decide_eq_false_2 by done. rewrite (bind_ok _ _ s tt s) by done.
    rewrite (bind_ok _ _ _ _ _ (first_timeout_run s tm _ l dv _ El Hl)).
    rewrite (bind_ok _ _ s (Datatypes.S (size (timeouts s))) s) by done.
    destruct (insert_loop_run tm d dv (e :: q) s [] (Datatypes.S (size (timeouts s)))) as (s' & E1 & Hr & Hs).
    + apply queued_size in Hq; [simpl in *; lia|]. by apply (l_rep_NoDup _ _ _ Hl).
    + done.
    + by split.
    + done.
    + done.
    + unfold end_time. simpl. by rewrite Z.sub_0_r.
    + unfold end_time. simpl. lia.
    + lia.
    + exists s'. split; [exact E1|]. split; [exact Hr|exact Hs].
Qed.

(** The timer before it is managed, or the managed timer with its queue. *)
Definition queue_of (s : tsys) (tm : Z) (q : list due) (dv : D) : Prop :=
  trep s tm q dv \/ q = [] /\ exists th l, th <> ManagedHandler /\ timers s !! tm = Some (mk_timer th l dv).

(** Memory that [malloc_raw] may return for a timeout. *)
Record unused (s : tsys) (q : list due) (t : Z) : Prop := {
  unused_entry : l_entry (tentries s) t;
  unused_null : t <> NULL;
  unused_queue : t ∉ d_addr <$> q }.

(** Making the timer managed. *)
Lemma manage_run (s : tsys) tm q dv : queue_of s tm q dv ->
  exists s', (let! th := timer_get_handler tm in
              if negb (bool_decide (th = ManagedHandler)) then
                run! (let! x := get_timer tm in put_timer tm (mk_timer (thandler x) l_init (device x))) in
                timer_set_handler tm ManagedHandler
              else ret tt) s = Ok tt s' /\ trep s' tm q dv /\ tentries s' = tentries s /\ timeouts s' = timeouts s /\ same s s'.
Proof.
  intros [ [(l & El & Hl) Hq]|(-> & th & l & Hth & El)].
  - exists s. unfold timer_get_handler. split; [|split; [split; [by exists l|done]|done] ].
    rewrite (bind_ok _ _ s ManagedHandler s); [by rewrite bool_decide_eq_true_2|].
    by rewrite (bind_ok _ _ _ _ _ (get_timer_run _ _ _ El)).
  - set (s1 := set_timers s (<[tm := mk_timer th l_init dv]> (timers s))).
    set (s2 := set_timers s1 (<[tm := mk_timer ManagedHandler l_init dv]> (timers s1))).
    exists s2. split; [|split; [|done] ].
    + rewrite (bind_ok _ _ s th s).
      2: { unfold timer_get_handler. by rewrite (bind_ok _ _ _ _ _ (get_timer_run _ _ _ El)). }
      rewrite bool_decide_eq_false_2 by done. cbn [negb].
      rewrite (bind_ok _ _ s tt s1) by (by rewrite (bind_ok _ _ _ _ _ (get_timer_run _ _ _ El))).
      unfold timer_set_handler. rewrite (bind_ok _ _ s1 (mk_timer th l_init dv) s1).
      2: { apply get_timer_run. simpl. by rewrite lookup_insert_eq. }
      cbn [thandler]. rewrite bool_decide_eq_false_2 by done. by rewrite (bind_ok _ _ s1 tt s1) by done.
    + split; [|done]. exists l_init. simpl. rewrite lookup_insert_eq. split; [done|apply l_init_rep].
Qed.

Lemma schedule_run (s : tsys) tm q dv timeout repeat h c memory :
  queue_of s tm q dv -> ordered 0 q -> unused s q memory -> 0 < timeout < 2 ^ 31 -> h <> NULL -> tm <> NULL ->
  let d := mk_due timeout memory (if (repeat : bool) then timeout else 0) h c in
  exists s', timer_managed_schedule ops tm timeout repeat h c memory s = Ok tt s' /\
    trep s' tm (a_insert d q) (if is_first d q then op_set ops timeout dv else dv) /\
    locked s' = false /\ env s' = env s.
Proof.
  intros Hq Ho [He Hn Hnq] Ht Hh Htm d. unfold timer_managed_schedule.
  rewrite (truth_ne _ Htm), (truth_ne _ Hh), (proj2 (Z.gtb_lt _ _)) by lia.
  do 3 rewrite (bind_ok _ _ s tt s) by done. rewrite (bind_ok _ _ s tt (put_locked s true)) by done.
  destruct (manage_run (put_locked s true) tm q dv) as (s1 & E1 & Hr1 & Hen1 & Hto1 & Hs1).
  { destruct Hq as [ [H1 H2]|H]; [left; by split|by right]. }
  rewrite (bind_assoc_ok _ _ _ _ _ _ E1).
  destruct (l_entry_init_spec (tentries s1) memory) as (st' & E2 & Hdet & Hfr); [rewrite Hen1; exact He|].
  rewrite (bind_ok _ _ _ _ _ (on_tentries_run s1 _ st' E2)).
  set (s2 := put_tentries s1 st'). rewrite (bind_ok _ _ s2 tt (put_timeouts s2 (<[memory := mk_timeout timeout (d_reset d) h c]> (timeouts s2)))) by done.
  set (s3 := put_timeouts s2 _). destruct Hr1 as [(l & El & Hl) Hqu].
  destruct (managed_insert_run tm d dv q s3) as (s4 & E4 & Hr4 & Hs4).
  - split; [exists l; split; [exact El|]; eapply l_frame_rep; [exact Hfr| |exact Hl]|].
    + intros a Ha Hin. apply list_elem_of_singleton in Hin. by subst a.
    + simpl. by apply queued_insert.
  - done.
  - by split.
  - simpl. by rewrite lookup_insert_eq.
  - done.
  - done.
  - rewrite (bind_ok _ _ _ _ _ E4). eexists. split; [reflexivity|]. split; [destruct Hr4; by split|].
    split; [done|]. simpl. rewrite (proj1 (proj2 Hs4)). apply (proj1 (proj2 Hs1)).
Qed.

(** ** Cancellation *)

Lemma delete_timeout_run (s : tsys) tm xs1 t xs2 dv : managed s tm (xs1 ++ t :: xs2) dv ->
  exists s', delete_timeout tm t s = Ok tt s' /\ managed s' tm (xs1 ++ xs2) dv /\ l_detached (tentries s') t /\
    timeouts s' = timeouts s /\ same s s'.
Proof.
  intros (l & El & Hl). destruct (l_delete_spec _ _ _ _ _ Hl) as (l' & st' & E1 & Hl' & Hd & _).
  unfold delete_timeout. rewrite (on_timeouts_run s tm _ l dv _ l' st' El E1).
  eexists. split; [done|]. split; [|done]. exists l'. simpl. by rewrite lookup_insert_eq.
Qed.

(** The device after the first timeout went. *)
Definition redevice (q : list due) (dv : D) : D :=
  match q with [] => op_disable ops dv | d :: _ => op_set ops (d_time d) dv end.

Lemma recalculate_queue (s : tsys) tm q dv : trep s tm q dv -> Forall (fun d => 0 < d_time d) q ->
  exists s', timer_managed_recalculate ops tm s = Ok tt s' /\ trep s' tm q (redevice q dv) /\ same s s'.
Proof.
  intros [Hm Hq] Hpos. pose proof Hm as (l & El & Hl). pose proof (l_rep_NoDup _ _ _ Hl) as [_ H0].
  destruct (recalculate_run s tm _ dv Hm) as (s' & dv' & E1 & Hm' & Ht & _ & Hs & Edv).
  - destruct q as [|d q]; simpl; [done|]. intros x _ Ex. destruct Hq as [Ed _]. apply Forall_cons in Hpos as [Hd _].
    rewrite Ed in Ex. injection Ex as <-. simpl. lia.
  - destruct q as [|d q]; simpl; [done|]. intros _. destruct Hq as [Ed _]. by eexists.
  - exists s'. split; [done|]. split; [|done]. split; [|by rewrite Ht].
    destruct q as [|d q]; simpl in *; [by subst dv'|]. destruct Hq as [Ed _].
    rewrite Ed in Edv. rewrite (proj2 (Z.eqb_neq (d_addr d) NULL)) in Edv by (intros E0; apply H0, elem_of_cons; by left).
    simpl in Edv. rewrite Z.sub_0_r in Edv. by subst dv'.
Qed.

(** The time that was left goes to the next timeout. *)
Lemma hand_over_run (s : tsys) q1 e q2 : ordered 0 (q1 ++ e :: q2) -> queued (timeouts s) 0 (q1 ++ e :: q2) ->
  NoDup (d_addr <$> q1 ++ e :: q2) -> NULL ∉ d_addr <$> q1 ++ e :: q2 ->
  exists s', (let next := hd_or NULL (d_addr <$> q2) in
              if truth next then let! n := get_timeout next in set_remaining next (remaining n + (d_time e - end_time 0 q1))
              else ret tt) s = Ok tt s' /\
    tentries s' = tentries s /\ timers s' = timers s /\ same s s' /\ queued (timeouts s') 0 (q1 ++ q2).
Proof.
  intros Ho Hq Hnd H0. apply queued_app in Hq as [Hq1 [Ee Hq2] ]. apply ordered_app in Ho as [Ho1 [He Ho2] ].
  destruct q2 as [|n q2].
  - exists s. split; [done|]. do 3 (split; [done|]). by rewrite app_nil_r.
  - cbn [fmap list_fmap hd_or]. destruct Hq2 as [En Hq2]. destruct Ho2 as [Hn _].
    rewrite fmap_app in Hnd, H0. cbn [fmap list_fmap] in Hnd, H0.
    assert (d_addr n <> NULL) as Hn0 by (intros E0; apply H0; rewrite <-E0; set_solver). rewrite (truth_ne _ Hn0).
    cbv zeta. rewrite (bind_ok _ _ _ _ _ (get_timeout_run s _ _ En)). cbn [remaining].
    pose proof (end_time_bounds 0 q1 ltac:(lia) Ho1) as Hb.
    rewrite (set_remaining_run s _ _ _ _ _ _ En) by lia. eexists. split; [reflexivity|]. do 2 (split; [done|]).
    split; [by apply same_put|].
    cbn [timeouts put_timeouts]. apply NoDup_app in Hnd as (_ & Hd & Hnd). apply NoDup_cons in Hnd as [_ Hnd].
    apply NoDup_cons in Hnd as [Hnn _]. apply queued_app. split; [apply queued_insert; [|done]|split].
    + intros Hin. apply (Hd _ Hin). set_solver.
    + rewrite lookup_insert_eq. do 2 f_equal. lia.
    + by apply queued_insert.
Qed.

Lemma cancel_loop_run tm h c dv q2 (s : tsys) q1 fuel : (length q2 < fuel)%nat ->
  trep s tm (q1 ++ q2) dv -> ordered 0 (q1 ++ q2) -> Forall (fun d => 0 < d_time d) (q1 ++ q2) ->
  exists s', cancel_loop ops fuel tm h c (hd_or NULL (d_addr <$> q2)) s = Ok tt s' /\
    trep s' tm (q1 ++ a_cancel h c q2)
      (if bool_decide (q1 = []) && existsb (matches h c) (take 1 q2) then redevice (a_cancel h c q2) dv else dv) /\ same s s'.
Proof.
  revert s q1 fuel. induction q2 as [|e q2 IH]; intros s q1 fuel Hf Hr Ho Hpos;
    (destruct fuel as [|fuel]; [simpl in Hf; lia|]); cbn [cancel_loop fmap list_fmap hd_or take existsb a_cancel].
  - change (truth NULL) with false. cbv iota. rewrite andb_false_r. by exists s.
  - destruct Hr as [Hm Hq]. pose proof Hm as (l & El & Hl). destruct (l_rep_NoDup _ _ _ Hl) as [Hnd H0].
    pose proof (proj1 (queued_app _ _ _ _) Hq) as [_ [Ee _] ].
    rewrite fmap_app in Hl. cbn [fmap list_fmap] in Hl.
    assert (d_addr e <> NULL) as He0 by (intros E0; apply H0; rewrite <-E0, fmap_app; set_solver). rewrite (truth_ne _ He0).
    rewrite (bind_ok _ _ _ _ _ (get_timeout_run s _ _ Ee)). cbn [handler context remaining]. fold (matches h c e).
    rewrite orb_false_r. destruct (matches h c e).
    + rewrite (bind_ok _ _ _ _ _ (first_timeout_run s tm _ l dv _ El Hl)). cbv zeta. rewrite andb_true_r.
      assert ((d_addr e =? hd_or NULL ((d_addr <$> q1) ++ d_addr e :: (d_addr <$> q2))) = bool_decide (q1 = [])) as ->.
      { destruct q1 as [|d1 q1]; cbn [app fmap list_fmap hd_or]; [by rewrite Z.eqb_refl|]. apply Z.eqb_neq.
        intros E0. rewrite fmap_app in Hnd. cbn [app fmap list_fmap] in Hnd. apply NoDup_cons in Hnd as [Hx _]. apply Hx. set_solver. }
      rewrite (bind_ok _ _ s tt s) by (by destruct (bool_decide _)).
      rewrite (bind_ok _ _ _ _ _ (next_timeout_run s tm _ l dv _ _ _ El Hl)).
      destruct (hand_over_run s q1 e q2 Ho Hq Hnd H0) as (s1 & E1 & Hen1 & Hti1 & Hs1 & Hq1). rewrite (bind_ok _ _ _ _ _ E1).
      destruct (delete_timeout_run s1 tm (d_addr <$> q1) (d_addr e) (d_addr <$> q2) dv) as (s2 & E2 & Hm2 & _ & Ht2 & Hs2).
      { exists l. by rewrite Hen1, Hti1. }
      rewrite (bind_ok _ _ _ _ _ E2). set (s3 := put_timeouts s2 (delete (d_addr e) (timeouts s2))).
      rewrite (bind_ok _ _ s2 tt s3) by done.
      assert (trep s3 tm (q1 ++ q2) dv) as Hr3.
      { split; [rewrite fmap_app; exact Hm2|]. cbn [timeouts put_timeouts s3]. rewrite Ht2. eapply queued_other; [|exact Hq1].
        intros a Ha. rewrite fmap_app in Ha, Hnd. cbn [fmap list_fmap] in Hnd. apply lookup_delete_ne. intros E0. subst a.
        apply NoDup_app in Hnd as (_ & Hd & Hn). apply NoDup_cons in Hn as [Hn _]. apply elem_of_app in Ha as [Ha|Ha]; [|done].
        apply (Hd _ Ha). by left. }
      assert (same s s3) as Hs3 by (eapply same_trans; [exact Hs1|eapply same_trans; [exact Hs2|by apply same_free] ]).
      destruct (bool_decide_reflect (q1 = [])) as [->|Hne]; [|by exists s3].
      destruct (recalculate_queue s3 tm q2 dv Hr3) as (s4 & E4 & Hr4 & Hs4).
      { apply Forall_app in Hpos as [_ Hpos]. by apply Forall_cons in Hpos as [_ Hpos]. }
      exists s4. split; [exact E4|]. split; [exact Hr4|]. by eapply same_trans.
    + rewrite (bind_ok _ _ _ _ _ (next_timeout_run s tm _ l dv _ _ _ El Hl)). rewrite andb_false_r.
      destruct (IH s (q1 ++ [e]) fuel) as (s' & E1 & Hr & Hs).
      * simpl in Hf. lia.
      * rewrite <-app_assoc. by split.
      * by rewrite <-app_assoc.
      * by rewrite <-app_assoc.
      * exists s'. split; [exact E1|]. split; [|exact Hs]. rewrite <-app_assoc in Hr.
        rewrite (bool_decide_eq_false_2 (q1 ++ [e] = [])) in Hr by (by destruct q1). exact Hr.
Qed.

Lemma cancel_run (s : tsys) tm q dv h c : trep s tm q dv -> ordered 0 q -> Forall (fun d => 0 < d_time d) q ->
  tm <> NULL -> h <> NULL ->
  exists s', timer_managed_cancel ops tm h c s = Ok tt s' /\
    trep s' tm (a_cancel h c q) (if existsb (matches h c) (take 1 q) then redevice (a_cancel h c q) dv else dv) /\
    locked s' = false /\ env s' = env s.
Proof.
  intros [Hm Hq] Ho Hpos Htm Hh. pose proof Hm as (l & El & Hl). unfold timer_managed_cancel.
  rewrite (truth_ne _ Htm), (truth_ne _ Hh). do 2 rewrite (bind_ok _ _ s tt s) by done.
  rewrite (bind_ok _ _ s tt (put_locked s true)) by done.
  rewrite (bind_ok _ _ _ _ _ (first_timeout_run (put_locked s true) tm _ l dv _ El Hl)).
  rewrite (bind_ok _ _ (put_locked s true) (Datatypes.S (size (timeouts s))) (put_locked s true)) by done.
  destruct (cancel_loop_run tm h c dv q (put_locked s true) [] (Datatypes.S (size (timeouts s)))) as (s1 & E1 & [Hm1 Hq1] & Hs1).
  - pose proof (queued_size _ _ _ Hq (proj1 (l_rep_NoDup _ _ _ Hl))). simpl. lia.
  - by split.
  - done.
  - done.
  - rewrite (bind_ok _ _ _ _ _ E1). eexists. split; [reflexivity|]. split; [by split|]. split; [done|]. apply (proj1 (proj2 Hs1)).
Qed.

(** ** Firing *)

(** A repeating timeout starts again. *)
Definition renewed (d : due) : due := mk_due (d_reset d) (d_addr d) (d_reset d) (d_handler d) (d_ctx d).
Definition a_renew (fired rest : list due) : list due :=
  foldl (fun q d => if d_reset d >? 0 then a_insert (renewed d) q else q) rest fired.

(** What happens outside when the timeouts [fired] are called in turn. *)
Context (call : Z -> Z -> Z -> M tsys unit) (act : Z -> Z -> Z -> M E unit).
Fixpoint acts (tm : Z) (fired : list due) : M E unit :=
  match fired with [] => ret tt | d :: fired => run! act (d_handler d) tm (d_ctx d) in acts tm fired end.

Definition put_env (s : tsys) (e : E) : tsys := mk_tsys (tentries s) (timeouts s) (timers s) (locked s) e.

(** The handlers, called with interrupts on, leave the timers alone. *)
Definition quiet_handlers : Prop := forall h tm c (s : tsys) e, locked s = false ->
  act h tm c (env s) = Ok tt e -> call h tm c s = Ok tt (put_env s e).
Context (Hcall : quiet_handlers).

Lemma queued_elem m b q d : queued m b q -> d ∈ q ->
  exists r, m !! d_addr d = Some (mk_timeout r (d_reset d) (d_handler d) (d_ctx d)).
Proof.
  revert b. induction q as [|e q IH]; intros b Hq Hd; [by apply elem_of_nil in Hd|]. destruct Hq as [Ee Hq].
  apply elem_of_cons in Hd as [->|Hd]; [by eexists|by eapply IH].
Qed.

Lemma a_insert_elem d q : d ∈ a_insert d q.
Proof. induction q as [|e q IH]; simpl; [by left|]. destruct (d_time d <=? d_time e); [by left|by right]. Qed.

Lemma a_insert_after d q1 q2 : Forall (fun e => d_time e < d_time d) q1 -> a_insert d (q1 ++ q2) = q1 ++ a_insert d q2.
Proof.
  induction q1 as [|e q1 IH]; [done|]. intros [He H]%Forall_cons. simpl.
  rewrite (proj2 (Z.leb_gt _ _)) by lia. by rewrite IH.
Qed.

Lemma a_insert_pos d q : 0 < d_time d -> Forall (fun e => 0 < d_time e) q -> Forall (fun e => 0 < d_time e) (a_insert d q).
Proof.
  intros Hd Hq. induction Hq as [|e q He Hq IH]; simpl; [by repeat constructor|].
  destruct (d_time d <=? d_time e); by repeat constructor.
Qed.

Lemma a_insert_nonempty d q : a_insert d q <> [].
Proof. destruct q as [|e q]; simpl; [done|]. by destruct (d_time d <=? d_time e). Qed.

Lemma ordered_now q1 q2 : Forall (fun e => d_time e = 0) q1 -> ordered 0 q2 -> ordered 0 (q1 ++ q2).
Proof. induction q1 as [|e q1 IH]; [done|]. intros [He H]%Forall_cons Hq. simpl. rewrite He. split; [lia|by apply IH]. Qed.

(** One timeout is taken from the list and, when it repeats, put back. *)
Lemma renew_run (s : tsys) tm d fired rest dv : trep s tm (d :: fired ++ rest) dv -> tm <> NULL ->
  d_time d = 0 -> Forall (fun e => d_time e = 0) fired -> ordered 0 rest -> Forall (fun e => 0 < d_time e) rest ->
  0 <= d_reset d < 2 ^ 31 ->
  exists s' dv', (run! delete_timeout tm (d_addr d) in
    if d_reset d >? 0 then
      run! set_remaining (d_addr d) (d_reset d) in
      run! timer_managed_insert ops tm (d_addr d) in
      ret false
    else ret true) s = Ok (negb (d_reset d >? 0)) s' /\
    trep s' tm (fired ++ a_renew [d] rest) dv' /\ same s s' /\
    (exists r, timeouts s' !! d_addr d = Some (mk_timeout r (d_reset d) (d_handler d) (d_ctx d))) /\
    (d_reset d >? 0 = false -> d_addr d ∉ d_addr <$> fired ++ rest).
Proof.
  intros [Hm Hq] Htm Hd0 Hfired Ho Hpos Hr. pose proof Hm as (l & El & Hl). destruct (l_rep_NoDup _ _ _ Hl) as [Hnd H0].
  cbn [fmap list_fmap] in Hm, Hnd, H0. assert (d_addr d <> NULL) as Hne by (intros E0; apply H0, elem_of_cons; by left).
  apply NoDup_cons in Hnd as [Hnd _]. destruct Hq as [Ed Hq]. rewrite Hd0 in Hq, Ed.
  destruct (delete_timeout_run s tm [] (d_addr d) _ dv Hm) as (s1 & E1 & Hm1 & Hdet & Ht1 & Hs1). cbn [app] in Hm1.
  rewrite (bind_ok _ _ _ _ _ E1). destruct (Z.gtb_spec (d_reset d) 0) as [Hp|Hn]; unfold a_renew; cbn [foldl].
  - rewrite (proj2 (Z.gtb_lt _ _)) by lia. rewrite <-Ht1 in Ed.
    rewrite (bind_ok _ _ _ _ _ (set_remaining_run s1 _ (d_reset d) _ _ _ _ Ed ltac:(lia))). set (s2 := put_timeouts s1 _).
    destruct (managed_insert_run tm (renewed d) dv (fired ++ rest) s2) as (s3 & E3 & Hr3 & Hs3).
    + split; [exact Hm1|]. simpl. rewrite Ht1. by apply queued_insert.
    + by apply ordered_now.
    + by split.
    + simpl. by rewrite lookup_insert_eq.
    + simpl. lia.
    + done.
    + eexists s3, _. split; [rewrite (bind_ok _ _ _ _ _ E3); done|].
      rewrite a_insert_after in Hr3 by (eapply Forall_impl; [exact Hfired|intros e; simpl; lia]). split; [exact Hr3|].
      split; [eapply same_trans; [exact Hs1|eapply same_trans; [by apply (same_put _ (d_addr d))|exact Hs3] ]|]. split; [|done].
      destruct Hr3 as [_ Hq3]. destruct (queued_elem _ _ _ (renewed d) Hq3) as [r Er]; [|by exists r].
      apply elem_of_app. right. apply a_insert_elem.
  - rewrite Z.gtb_ltb, (proj2 (Z.ltb_ge _ _)) by lia. exists s1, dv. split; [done|]. split; [split; [exact Hm1|by rewrite Ht1]|].
    split; [done|]. split; [rewrite Ht1; by eexists|done].
Qed.

(** [fire_loop] does this with each timeout, and calls its handler. *)
Lemma fire_loop_run tm fired (s : tsys) rest dv rounds e : acts tm fired (env s) = Ok tt e ->
  trep s tm (fired ++ rest) dv -> tm <> NULL ->
  Forall (fun e => d_time e = 0 /\ 0 <= d_reset e < 2 ^ 31) fired -> ordered 0 rest -> Forall (fun e => 0 < d_time e) rest ->
  (length fired < rounds)%nat -> timeouts s !! NULL = None ->
  if bool_decide (a_renew fired rest = []) then
    fire_loop ops call rounds tm (hd_or NULL (d_addr <$> fired ++ rest)) s = Fault WildAccess
  else
    exists s' dv', fire_loop ops call rounds tm (hd_or NULL (d_addr <$> fired ++ rest)) s = Ok tt s' /\
      trep s' tm (a_renew fired rest) dv' /\ env s' = e /\
      (fired <> [] -> locked s' = false) /\ (fired = [] -> s' = s) /\ Forall (fun e => 0 < d_time e) (a_renew fired rest).
Proof.
  revert s rest dv rounds. induction fired as [|d fired IH]; intros s rest dv rounds Ha Hr Htm Hf Ho Hpos Hl H0;
    (destruct rounds as [|rounds]; [lia|]).
  - unfold a_renew. cbn [foldl app]. injection Ha as Ha. destruct rest as [|e0 rest].
    + rewrite bool_decide_eq_true_2 by done. cbn [fire_loop fmap list_fmap hd_or]. unfold bind at 1, get_timeout, deref. by rewrite H0.
    + rewrite bool_decide_eq_false_2 by done. exists s, dv. split; [|done]. cbn [fire_loop fmap list_fmap hd_or].
      destruct Hr as [_ [Ee _] ]. rewrite (bind_ok _ _ _ _ _ (get_timeout_run s _ _ Ee)). cbn [remaining].
      apply Forall_cons in Hpos as [He _]. by rewrite (proj2 (Z.leb_gt _ _)) by lia.
  - cbn [acts] in Ha. unfold bind at 1 in Ha. destruct (act (d_handler d) tm (d_ctx d) (env s)) as [ [] e1|] eqn:Eact; [|done].
    apply Forall_cons in Hf as [ [Hd Hreset] Hf]. cbn [app fmap list_fmap hd_or fire_loop] in *.
    pose proof Hr as [_ [Ed _] ]. rewrite (bind_ok _ _ _ _ _ (get_timeout_run s _ _ Ed)). cbn [remaining reset_time].
    rewrite (proj2 (Z.leb_le _ _)) by lia. rewrite (bind_ok _ _ s tt (put_locked s true)) by done.
    destruct (renew_run (put_locked s true) tm d fired rest dv) as (s1 & dv1 & E1 & Hr1 & Hs1 & [r Er] & Hout); try done.
    { destruct Hr; by split. } { eapply Forall_impl; [exact Hf|by intros e0 [? _] ]. }
    rewrite (bind_assoc_ok _ _ _ _ _ _ E1). set (s2 := put_locked s1 false). rewrite (bind_ok _ _ s1 tt s2) by done.
    rewrite (bind_ok _ _ _ _ _ (get_timeout_run s2 _ _ Er)). cbn [handler context].
    assert (env s1 = env s) as V1 by apply (proj1 (proj2 Hs1)).
    assert (act (d_handler d) tm (d_ctx d) (env s2) = Ok tt e1) as Eact2 by (simpl; by rewrite V1).
    rewrite (bind_ok _ _ _ _ _ (Hcall _ _ _ s2 e1 eq_refl Eact2)). set (s3 := put_env s2 e1).
    assert (d_addr d <> NULL) as Hne by (intros E0; by rewrite E0, H0 in Ed).
    set (s4 := if negb (d_reset d >? 0) then put_timeouts s3 (delete (d_addr d) (timeouts s3)) else s3).
    rewrite (bind_ok _ _ s3 tt s4) by (unfold s4; by destruct (negb _)).
    assert (trep s4 tm (fired ++ a_renew [d] rest) dv1) as Hr4.
    { destruct Hr1 as [Hm1 Hq1]. unfold s4. destruct (d_reset d >? 0) eqn:Eg; cbn [negb]; [by split|]. split; [exact Hm1|].
      cbn [timeouts put_timeouts s3]. eapply queued_other; [|exact Hq1]. intros a Hin. apply lookup_delete_ne. intros E0. subst a.
      apply (Hout eq_refl). unfold a_renew in Hin. cbn [foldl] in Hin. by rewrite Eg in Hin. }
    assert (timeouts s4 !! NULL = None) as H4.
    { assert (timeouts s1 !! NULL = None) as H1 by (rewrite (proj2 (proj2 Hs1)); done).
      unfold s4. destruct (negb _); [cbn [timeouts put_timeouts s3]; by rewrite lookup_delete_ne|done]. }
    pose proof Hr4 as [(l4 & El4 & Hl4) _]. rewrite (bind_ok _ _ _ _ _ (first_timeout_run s4 tm _ l4 dv1 _ El4 Hl4)).
    assert (ordered 0 (a_renew [d] rest) /\ Forall (fun e => 0 < d_time e) (a_renew [d] rest)) as [Ho4 Hp4].
    { unfold a_renew. cbn [foldl]. destruct (Z.gtb_spec (d_reset d) 0); [|done].
      split; [apply ordered_insert; simpl; [lia|done]|apply a_insert_pos; simpl; [lia|done] ]. }
    assert (locked s4 = false /\ env s4 = e1) as [L4 V4] by (unfold s4; by destruct (negb _)). rewrite <-V4 in Ha.
    specialize (IH s4 (a_renew [d] rest) dv1 rounds Ha Hr4 Htm Hf Ho4 Hp4 ltac:(simpl in Hl; lia) H4).
    change (a_renew fired (a_renew [d] rest)) with (a_renew (d :: fired) rest) in IH.
    destruct (bool_decide _); [exact IH|]. destruct IH as (s5 & dv5 & E5 & Hr5 & He5 & Hl5 & Hn5 & Hp5).
    exists s5, dv5. split; [exact E5|]. split; [exact Hr5|].
    split; [done|]. split; [|done]. intros _. destruct fired; [by rewrite Hn5|by apply Hl5].
Qed.
End Spec.
