(* ===== verification/TimerProps.v ===== *)
(** * TimerProps: the guarantees of timers *)
From S2P Require Import Prelude ListApi DList Fw Timer TimerSpec.

Section Props.
Context {S L D E : Type} `{LA : ListApi S L} (ops : timer_ops D).
Abbreviation tsys := (Timer.tsys (S := S) (L := L) (D := D) (E := E)).
Context (call : Z -> Z -> Z -> M tsys unit) (act : Z -> Z -> Z -> M E unit).

(** [el] has passed. *)
Definition shift (el : Z) (q : list due) : list due :=
  (fun d => mk_due (d_time d - el) (d_addr d) (d_reset d) (d_handler d) (d_ctx d)) <$> q.

Lemma queued_shift m b el q : queued m b q -> queued m (b - el) (shift el q).
Proof.
  revert b. induction q as [|d q IH]; intros b; simpl; [done|]. intros [E1 Hq]. split; [|by apply IH].
  rewrite E1. do 2 f_equal. lia.
Qed.

Lemma shift_app el q1 q2 : shift el (q1 ++ q2) = shift el q1 ++ shift el q2.
Proof. apply fmap_app. Qed.

Lemma shift_addr el q : d_addr <$> shift el q = d_addr <$> q.
Proof. unfold shift. rewrite <-list_fmap_compose. done. Qed.

Lemma ordered_shift b el q : 0 <= el -> ordered b q -> ordered (b - el) (shift el q).
Proof. intros Hel. revert b. induction q as [|d q IH]; intros b; simpl; [done|]. intros [H Hq]. split; [lia|by apply IH]. Qed.

Lemma a_renew_shift el fired rest : a_renew (shift el fired) rest = a_renew fired rest.
Proof. unfold a_renew, shift. rewrite foldl_fmap. done. Qed.

Lemma acts_shift el tm fired : acts act tm (shift el fired) = acts act tm fired.
Proof. induction fired as [|d fired IH]; [done|]. simpl. by rewrite <-IH. Qed.

Lemma ordered_mono b b' q : b' <= b -> ordered b q -> ordered b' q.
Proof. destruct q; simpl; [done|]. intros ? [? ?]. split; [lia|done]. Qed.

Lemma fire_run (s : tsys) tm el fired later dv rounds e : quiet_handlers call act -> acts act tm fired (env s) = Ok tt e ->
  trep s tm (fired ++ later) dv -> ordered 0 (fired ++ later) -> tm <> NULL -> timeouts s !! NULL = None ->
  Forall (fun d => d_time d = el /\ 0 <= d_reset d < 2 ^ 31) fired -> Forall (fun d => el < d_time d) later ->
  0 <= el < 2 ^ 31 -> (length fired < rounds)%nat -> fired ++ later <> [] ->
  let q' := a_renew fired (shift el later) in
  if bool_decide (q' = []) then timer_managedhandler ops call rounds tm el s = Fault WildAccess
  else exists s' dv', timer_managedhandler ops call rounds tm el s = Ok tt s' /\
    trep s' tm q' (redevice ops q' dv') /\ env s' = e /\ locked s' = false.
Proof.
  intros Hcall Ha [Hm Hq] Ho Htm H0 Hf Hlat Hel Hr Hne q'.
  pose proof Hm as (l & El & Hl). destruct (l_rep_NoDup _ _ _ Hl) as [Hnd Hnull].
  destruct (fired ++ later) as [|d q] eqn:Eq; [done|]. destruct Hq as [Ed Hq]. cbn [fmap list_fmap] in *.
  assert (d_addr d <> NULL) as Hd0 by (intros E0; apply Hnull, elem_of_cons; by left).
  unfold timer_managedhandler. rewrite (truth_ne _ Htm), (bind_ok _ _ s tt s) by done.
  rewrite (bind_ok _ _ s tt (put_locked s true)) by done.
  rewrite (bind_ok _ _ _ _ _ (first_timeout_run (put_locked s true) tm _ l dv _ El Hl)). cbn [hd_or]. rewrite (truth_ne _ Hd0).
  rewrite (bind_ok _ _ _ _ _ (get_timeout_run (put_locked s true) _ _ Ed)). cbn [remaining].
  assert (0 <= d_time d < 2 ^ 31) as Hd by (destruct Ho; lia).
  rewrite (bind_ok _ _ _ _ _ (set_remaining_run (put_locked s true) _ (d_time d - 0 - el) _ _ _ _ Ed ltac:(lia))).
  set (s1 := put_timeouts _ _). rewrite (bind_ok _ _ s1 tt (put_locked s1 false)) by done. set (s2 := put_locked s1 false).
  assert (trep s2 tm (shift el fired ++ shift el later) dv) as Hr2.
  { rewrite <-shift_app, Eq. split; [exists l; rewrite shift_addr; by split|]. cbn [timeouts put_timeouts put_locked s1 s2].
    cbn [shift fmap list_fmap]. split; [rewrite lookup_insert_eq; do 2 f_equal; cbn [d_time]; lia|].
    apply queued_insert; [change (d_addr d ∉ d_addr <$> shift el q); rewrite shift_addr; by apply NoDup_cons in Hnd as [Hnd _]|]. by apply queued_shift. }
  assert (timeouts s2 !! NULL = None) as H2 by (simpl; by rewrite lookup_insert_ne).
  pose proof (fire_loop_run ops call act Hcall tm (shift el fired) s2 (shift el later) dv rounds e
    ltac:(rewrite acts_shift; exact Ha) Hr2 Htm) as H. rewrite a_renew_shift in H. rewrite <-shift_app, Eq, shift_addr in H. cbn [fmap list_fmap hd_or] in H.
  assert (ordered 0 (shift el later) /\ Forall (fun d => 0 < d_time d) (shift el later)) as [Ho2 Hp2].
  { split; [|apply Forall_fmap; eapply Forall_impl; [exact Hlat|intros x; simpl; lia] ].
    rewrite <-Eq in Ho. apply ordered_app in Ho as [_ Ho]. destruct later as [|e' later]; [done|]. destruct Ho as [He Ho].
    apply Forall_cons in Hlat as [Hlat _]. split; [simpl; lia|]. simpl. by apply ordered_shift; [lia|]. }
  fold q' in H. specialize (H ltac:(apply Forall_fmap; eapply Forall_impl; [exact Hf|intros x; simpl; lia]) Ho2 Hp2
    ltac:(unfold shift; rewrite length_fmap; lia) H2).
  destruct (bool_decide _).
  - unfold bind at 1. by rewrite H.
  - destruct H as (s3 & dv3 & E3 & Hr3 & He3 & Hl3 & Hn3 & Hp3). rewrite (bind_ok _ _ _ _ _ E3).
    destruct (recalculate_queue ops s3 tm q' dv3 Hr3 Hp3) as (s4 & E4 & Hr4 & (Hl4 & He4 & _)).
    exists s4, dv3. split; [exact E4|]. split; [exact Hr4|]. split; [by rewrite He4, He3|].
    rewrite Hl4. destruct fired; [by rewrite Hn3|by apply Hl3].
Qed.
End Props.

Lemma ordered_cancel b h c q : ordered b q -> ordered b (a_cancel h c q).
Proof.
  revert b. induction q as [|d q IH]; intros b; simpl; [done|]. intros [Hd Hq].
  destruct (matches h c d); [by apply (ordered_mono (d_time d)); [lia|]|]. split; [done|by apply IH].
Qed.

Lemma a_insert_perm d q : Permutation (a_insert d q) (d :: q).
Proof.
  induction q as [|e q IH]; simpl; [done|]. destruct (d_time d <=? d_time e); [done|].
  etransitivity; [by apply perm_skip|apply perm_swap].
Qed.

(** The times of a queue count from when the device was last set ([since], on a clock);
    a call at [now] that sets it anew counts from then on. *)
Definition due_at (since : Z) (d : due) : Z := since + d_time d.
Definition set_at (anew : bool) (since now : Z) : Z := if anew then now else since.

(** C13: The list of timeouts, each holding what is left after the one before it,
    is a queue of times that count from when the device was last set: scheduling a
    timeout puts it in at its time, cancelling takes out the first timeout with the
    handler and the context; the queue stays in order, and the device is set anew
    exactly when the first timeout changes.  On the clock: the calls take no account
    of the time now - since that has passed since the device was set
    (timer_managed_update_first is commented out).  A timeout that becomes the first
    is due when it was asked for, and every other is late by that time; one that
    does not is early by it, and the others stay due when they were.  Cancelling the
    first makes the others late by that time, cancelling another moves none.  The
    first timeout scheduled makes the timer a managed one.  Interrupts are unmasked
    afterwards, nothing outside the timers changes. *)
Theorem timeouts_refine {S L D E : Type} `{LA : ListApi S L} (ops : timer_ops D)
    (s : Timer.tsys (S := S) (L := L) (D := D) (E := E)) tm q dv since now :
  queue_of s tm q dv -> ordered 0 q -> Forall (fun d => 0 < d_time d) q -> tm <> NULL ->
  (forall timeout repeat h c memory, unused s q memory -> 0 < timeout < 2 ^ 31 -> h <> NULL ->
   let d := mk_due timeout memory (if (repeat : bool) then timeout else 0) h c in
   let anew := is_first d q in
   exists s', timer_managed_schedule ops tm timeout repeat h c memory s = Ok tt s' /\
     trep s' tm (a_insert d q) (if anew then op_set ops timeout dv else dv) /\
     Permutation (a_insert d q) (d :: q) /\ ordered 0 (a_insert d q) /\ locked s' = false /\ env s' = env s /\
     due_at (set_at anew since now) d = now + timeout - (if anew then 0 else now - since) /\
     Forall (fun e => due_at (set_at anew since now) e = due_at since e + (if anew then now - since else 0)) q) /\
  (forall h c, h <> NULL -> trep s tm q dv ->
   let anew := existsb (matches h c) (take 1 q) in
   exists s', timer_managed_cancel ops tm h c s = Ok tt s' /\
     trep s' tm (a_cancel h c q) (if anew then redevice ops (a_cancel h c q) dv else dv) /\
     ordered 0 (a_cancel h c q) /\ locked s' = false /\ env s' = env s /\
     Forall (fun e => due_at (set_at anew since now) e = due_at since e + (if anew then now - since else 0)) (a_cancel h c q)).
Proof.
  intros Hq Ho Hpos Htm. split.
  - intros timeout repeat h c memory Hu Ht Hh d anew.
    destruct (schedule_run ops s tm q dv timeout repeat h c memory Hq Ho Hu Ht Hh Htm) as (s' & E1 & Hr & Hl & He).
    exists s'. split; [done|]. split; [done|]. split; [apply a_insert_perm|]. split; [apply ordered_insert; simpl; [lia|done]|].
    split; [done|]. split; [done|]. unfold due_at, set_at.
    split; [simpl; destruct anew; lia|]. apply Forall_true. intros e. destruct anew; lia.
  - intros h c Hh Hr anew. destruct (cancel_run ops s tm q dv h c Hr Ho Hpos Htm Hh) as (s' & E1 & Hr' & Hl & He).
    exists s'. split; [done|]. split; [done|]. split; [by apply ordered_cancel|]. split; [done|]. split; [done|].
    apply Forall_true. intros e. unfold due_at, set_at. destruct anew; lia.
Qed.

(** C30: When the timer expires every timeout that is due is called, once and in
    order, and no other: given the time [el] that has passed, at most that of the
    first timeout, and handlers that leave the timers alone, the handler returns; the
    timeouts due at [el] were called with their contexts, those that repeat are queued
    again with their period, the others are gone; the rest are due [el] earlier, the
    device is set for the first of them and interrupts are unmasked.  But when nothing
    is left the handler follows the NULL of the empty list. *)
Theorem timeouts_fire {S L D E : Type} `{LA : ListApi S L} (ops : timer_ops D) call act
    (s : Timer.tsys (S := S) (L := L) (D := D) (E := E)) tm el fired later dv rounds e :
  quiet_handlers call act -> acts act tm fired (env s) = Ok tt e ->
  trep s tm (fired ++ later) dv -> ordered 0 (fired ++ later) -> tm <> NULL -> timeouts s !! NULL = None ->
  Forall (fun d => d_time d = el /\ 0 <= d_reset d < 2 ^ 31) fired -> Forall (fun d => el < d_time d) later ->
  0 <= el < 2 ^ 31 -> (length fired < rounds)%nat -> fired ++ later <> [] ->
  let q' := a_renew fired (shift el later) in
  if bool_decide (q' = []) then timer_managedhandler ops call rounds tm el s = Fault WildAccess
  else exists s' dv', timer_managedhandler ops call rounds tm el s = Ok tt s' /\
    trep s' tm q' (redevice ops q' dv') /\ env s' = e /\ locked s' = false.
Proof. apply fire_run. Qed.

(** The SysTick timer runs at most as long as it was asked to, within the 24
    bits of its counter and without overflow of the 32-bit arithmetic; a time
    within its range at a clock that is a multiple of 1 kHz is kept exactly, and
    the timer runs and raises interrupts.  Its range is computed modulo 2^32 and
    so is at most a quarter of what the counter allows. *)
Theorem systick_exact clock_main clock_reference r time :
  let c := systick_clock clock_main clock_reference r in
  let range := 3892313112 / c in
  1000 <= c < 2 ^ 32 -> 0 < time < 2 ^ 31 ->
  let r' := systick_set clock_main clock_reference time r in
  0 <= LOAD r' <= kMaxLoadValue /\ systick_clock clock_main clock_reference r' = c /\
  0 <= systick_get clock_main clock_reference r' <= Z.min time range /\
  (c mod 1000 = 0 -> systick_get clock_main clock_reference r' = Z.min time range) /\
  Z.testbit (CTRL r') 0 = true /\ Z.testbit (CTRL r') 1 = true /\
  4 * range <= 1000 * kMaxLoadValue / c.
Proof.
  intros c range Hc Ht r'.
  assert (0 <= range /\ range * c <= 3892313112) as [Hr Hrc].
  { split; [apply Z.div_pos; lia|]. pose proof (Z.mul_div_le 3892313112 c ltac:(lia)) as H. fold range in H. lia. }
  assert (range < 2 ^ 22) as Hr22 by (apply Z.div_lt_upper_bound; lia).
  set (t := Z.min time range). assert (0 <= t <= range) as Htr by lia.
  pose proof (Z.div_mod c 1000 ltac:(lia)) as Hdiv. pose proof (Z.mod_pos_bound c 1000 ltac:(lia)) as Hmod.
  assert (0 <= c / 1000) as Hq by (apply Z.div_pos; lia).
  assert (0 <= c / 1000 * t /\ c / 1000 * t * 1000 <= c * t /\ c * t <= 3892313112) as (H1 & H2 & H3) by nia.
  assert (r' = systick_enable (mk_regs (CTRL r) (c / 1000 * t) 0)) as E1.
  { unfold r', systick_set. fold c. change (u32 (1000 * kMaxLoadValue)) with 3892313112. fold range.
    rewrite (sgn_id 32 range) by lia. replace (if time >? range then range else time) with t.
    2: { unfold t. destruct (Z.gtb_spec time range); lia. }
    rewrite (wrap_id 32 t), (wrap_id 32 (c / 1000 * t)) by (unfold in_u; lia). done. }
  assert (systick_clock clock_main clock_reference r' = c) as Eclk.
  { rewrite E1. unfold c, systick_clock. cbn [CTRL systick_enable]. rewrite Z.land_lor_distr_l.
    change (Z.land (Z.lor kCtrlEnable kCtrlTickInt) kCtrlClockSource) with 0. by rewrite Z.lor_0_r. }
  assert (systick_get clock_main clock_reference r' = c / 1000 * t * 1000 / c) as Eget.
  { unfold systick_get. rewrite Eclk, E1. cbn [LOAD systick_enable]. rewrite (wrap_id 32) by (unfold in_u; lia).
    rewrite sgn_id; [done|lia|]. assert (c / 1000 * t * 1000 / c <= range) by (apply Z.div_le_upper_bound; nia).
    assert (0 <= c / 1000 * t * 1000 / c) by (apply Z.div_pos; lia). lia. }
  split; [rewrite E1; cbn [LOAD systick_enable]; unfold kMaxLoadValue; nia|]. split; [exact Eclk|].
  rewrite Eget. split; [split; [apply Z.div_pos; lia|apply Z.div_le_upper_bound; nia]|]. split; [|split; [|split] ].
  - intros Hm. replace (c / 1000 * t * 1000) with (t * c) by nia. apply Z.div_mul. lia.
  - rewrite E1. cbn [CTRL systick_enable]. rewrite Z.lor_spec. apply orb_true_r.
  - rewrite E1. cbn [CTRL systick_enable]. rewrite Z.lor_spec. apply orb_true_r.
  - apply Z.div_le_lower_bound; [lia|]. unfold kMaxLoadValue. lia.
Qed.

(** ** Witnesses *)

(** A device that is the time it was last set to, and handlers that note their
    contexts. *)
Definition plain_ops : timer_ops Z := mk_timer_ops (fun t _ => t) (fun t => t) (fun t => t) (fun t => t) (fun _ => 0).
Abbreviation plain_tsys := (tsys (S := store) (L := list_t) (D := Z) (E := list Z)).
Definition note_call (h tm c : Z) : M plain_tsys unit :=
  modify (fun s => mk_tsys (tentries s) (timeouts s) (timers s) (locked s) (env s ++ [c])).

(** A timer at 4 that is not managed yet, with memory for timeouts at 8 and 24. *)
Definition start_state : plain_tsys :=
  mk_tsys (<[8 := mk_entry 0 0]> (<[24 := mk_entry 0 0]> empty)) empty (<[4 := mk_timer NoHandler list_init 0]> empty) false [].

(** A timeout of 5 ms, 4 ms after the device was set for one of 10 ms: it is due in
    time, and the first, whose time was 110, is due at 114. *)
Lemma timeouts_refine_witness :
  exists s', timer_managed_schedule plain_ops 4 10 true 100 7 8 start_state = Ok tt s' /\
    trep s' 4 [mk_due 10 8 10 100 7] 10 /\
    exists s2, timer_managed_schedule plain_ops 4 5 false 101 9 24 s' = Ok tt s2 /\
      trep s2 4 [mk_due 5 24 0 101 9; mk_due 10 8 10 100 7] 5 /\
      due_at 100 (mk_due 10 8 10 100 7) = 110 /\ due_at 104 (mk_due 5 24 0 101 9) = 109 /\ due_at 104 (mk_due 10 8 10 100 7) = 114.
Proof.
  destruct (timeouts_refine plain_ops start_state 4 [] 0 90 100) as [H _]; [|done|by apply Forall_nil|by unfold NULL|].
  - right. split; [done|]. exists NoHandler, list_init. split; [done|reflexivity].
  - destruct (H 10 true 100 7 8) as (s' & E1 & Hr & _); [|lia|by unfold NULL|].
    { split; [by eexists|by unfold NULL|by apply not_elem_of_nil]. }
    exists s'. split; [exact E1|]. split; [exact Hr|].
    destruct (timeouts_refine plain_ops s' 4 [mk_due 10 8 10 100 7] 10 100 104) as [H2 _]; [by left|simpl; lia|by apply Forall_singleton|by unfold NULL|].
    destruct (H2 5 false 101 9 24) as (s2 & E2 & Hr2 & _); [|lia|by unfold NULL|].
    { split; [|by unfold NULL|change (24 ∉ [8]); by rewrite list_elem_of_singleton].
      vm_compute in E1. injection E1 as <-. by eexists. }
    exists s2. split; [exact E2|]. split; [exact Hr2|]. done.
Defined.

(** Two timeouts: at 10, repeating, and at 30. *)
Definition two_timeouts : plain_tsys :=
  mk_tsys (<[8 := mk_entry 24 24]> (<[24 := mk_entry 8 8]> empty))
    (<[8 := mk_timeout 10 10 100 7]> (<[24 := mk_timeout 20 0 101 9]> empty))
    (<[4 := mk_timer ManagedHandler (mk_list 8) 10]> empty) false [].

Lemma timeouts_fire_witness :
  exists s' dv', timer_managedhandler plain_ops note_call 2 4 10 two_timeouts = Ok tt s' /\
    trep s' 4 [mk_due 10 8 10 100 7; mk_due 20 24 0 101 9] dv' /\ env s' = [7].
Proof.
  destruct (timeouts_fire plain_ops note_call (fun _ _ c => modify (fun e => e ++ [c])) two_timeouts 4 10
              [mk_due 10 8 10 100 7] [mk_due 30 24 0 101 9] 10 2 [7]) as (s' & dv' & E1 & Hr & He & _).
  - intros h tm c s e _ E1. injection E1 as <-. done.
  - reflexivity.
  - split; [|by repeat split]. exists (mk_list 8). split; [reflexivity|]. split; [done|]. split; [|split; [|by repeat split] ].
    + change (NoDup [8; 24]). apply NoDup_cons. split; [|apply NoDup_singleton]. rewrite list_elem_of_singleton. done.
    + change (0 ∉ [8; 24]). rewrite !not_elem_of_cons. by split; [|split; [|apply not_elem_of_nil] ].
  - simpl. lia.
  - done.
  - reflexivity.
  - apply Forall_singleton. simpl. lia.
  - apply Forall_singleton. simpl. lia.
  - lia.
  - simpl. lia.
  - done.
  - eexists s', _. split; [exact E1|]. split; [exact Hr|exact He].
Defined.

(** A 48 MHz clock, and 10 ms. *)
Lemma systick_exact_witness :
  systick_get 48000000 0 (systick_set 48000000 0 10 (mk_regs 4 0 0)) = 10.
Proof.
  destruct (systick_exact 48000000 0 (mk_regs 4 0 0) 10) as (_ & _ & _ & H & _); [|lia|].
  - change (systick_clock 48000000 0 (mk_regs 4 0 0)) with 48000000. lia.
  - apply H. reflexivity.
Defined.
