(* ===== verification/Delay.v ===== *)
(** * Delay: sleeping for a time

    [delay] and [delay_handler] of [core/scheduler.c]: the composition of the
    scheduler with the managed timeouts of the default timer.  The world outside
    the timers is the scheduler's memory; the interrupt mask is one. *)
From S2P Require Import Prelude ListApi DList Fw Sched Semaphore SchedSpec SchedRun Timer TimerSpec TimerProps.

Section Delay.
Context {S L D : Type} `{LA : ListApi S L} (queue_off : Z) (ops : timer_ops D).
Abbreviation sys := (Sched.sys (S := S) (L := L)).
Abbreviation tsys := (Timer.tsys (S := S) (L := L) (D := D) (E := sys)).

(** Addresses: of the default timer and of the function [delay_handler]. *)
Context (default_timer delay_fn : Z).

Definition on_sched {A} (c : M sys A) : M tsys A := fun s =>
  match c (set_irqs_off (env s) (locked s)) with
  | Ok a e => Ok a (mk_tsys (tentries s) (timeouts s) (timers s) (irqs_off e) e)
  | Fault f => Fault f
  end.

Definition delay_handler (context : Z) : M sys unit :=
  run! thread_wakeup queue_off context in
  let! cur := gets current_thread in
  let! idle := gets idle_thread in
  if cur =? idle then yield else ret tt.

(** The function a timeout of [delay] calls. *)
Definition delay_call (h tm c : Z) : M tsys unit :=
  if h =? delay_fn then on_sched (delay_handler c) else ret tt.

(** Up to the call of [thread_block]. *)
Definition delay_schedule (time memory : Z) : M tsys unit :=
  run! on_sched scheduler_lock in
  let! cur := on_sched scheduler_current_thread in
  timer_managed_schedule ops default_timer time false delay_fn cur memory.

(** [memory] is what [malloc_raw] returns for the timeout. *)
Definition delay (time memory : Z) : M tsys unit :=
  run! delay_schedule time memory in
  run! on_sched (thread_block queue_off) in
  on_sched scheduler_unlock.

(** ** What it does *)

Definition delay_act (h tm c : Z) : M sys unit := fun e =>
  if h =? delay_fn then delay_handler c (set_irqs_off e false) else Ok tt e.

Lemma bind_inv {St A B} (c : M St A) (k : A -> M St B) s b s' : bind c k s = Ok b s' ->
  exists a s1, c s = Ok a s1 /\ k a s1 = Ok b s'.
Proof. unfold bind. destruct (c s) as [a s1|]; [|done]. by exists a, s1. Qed.

(** Changing the state of a thread leaves the interrupts on. *)
Lemma set_state_unmasks t new (s s' : sys) : thread_set_state queue_off t new s = Ok tt s' -> irqs_off s' = false.
Proof.
  unfold thread_set_state, scheduler_thread_changed_state.
  do 2 (intros (? & ? & _ & H)%bind_inv; revert H). do 5 (intros (? & ? & _ & H)%bind_inv; revert H).
  by intros [= <-].
Qed.

Lemma delay_handler_unmasks c (s s' : sys) : delay_handler c s = Ok tt s' -> irqs_off s' = false.
Proof.
  unfold delay_handler. intros ([] & s1 & E1%set_state_unmasks & H)%bind_inv. revert H.
  intros (cur & s2 & [= <- <-] & H)%bind_inv. revert H. intros (idle & s3 & [= <- <-] & H)%bind_inv. revert H.
  destruct (_ =? _); by intros [= <-].
Qed.

Lemma delay_quiet : quiet_handlers delay_call delay_act.
Proof.
  intros h tm c s e Hl. unfold delay_act, delay_call, on_sched. destruct (h =? delay_fn).
  - intros E1. rewrite Hl, E1. apply delay_handler_unmasks in E1. unfold put_env. by rewrite E1, Hl.
  - intros [= <-]. unfold put_env. by destruct s.
Qed.

Lemma rep_irqs (s : sys) k b : rep queue_off s k -> rep queue_off (set_irqs_off s b) k.
Proof. intros []. by split. Qed.

Definition a_wake (t : Z) (k : kernel) : kernel := a_set_state t THREAD_STATE_RUNNING k.

Lemma delay_handler_run (s : sys) k t : rep queue_off s k -> wf_threads queue_off k -> t ∈ k_all k ->
  exists s', delay_handler t s = Ok tt s' /\ rep queue_off s' (a_wake t k).
Proof.
  intros Hr Hw Ht. destruct (set_state_refines queue_off s k t THREAD_STATE_RUNNING Hr Hw Ht) as (s1 & E1 & Hr1 & _).
  unfold delay_handler, thread_wakeup. rewrite (bind_ok _ _ _ _ _ E1).
  rewrite (bind_ok _ _ s1 (current_thread s1) s1), (bind_ok _ _ s1 (idle_thread s1) s1) by done.
  destruct (Z.eqb_spec (current_thread s1) (idle_thread s1)) as [E0|Hne]; [|by exists s1].
  exists (set_pendsv s1 true). split; [done|]. destruct Hr1 as [A1 A2 A3 A4 A5 A6 A7 A8]. split; try done.
  simpl in *. rewrite A6, A7 in E0. rewrite E0, Z.eqb_refl. by rewrite orb_true_r.
Qed.

Lemma a_wake_wf k t : wf_threads queue_off k -> t ∈ k_all k -> wf_threads queue_off (a_wake t k).
Proof. apply wf_threads_set. Qed.

(** The timeouts of threads that sleep. *)
Definition sleepers (k : kernel) (fired : list due) : Prop :=
  Forall (fun d => d_handler d = delay_fn /\ d_ctx d ∈ k_all k) fired.

Lemma acts_wake tm fired (e : sys) k : rep queue_off e k -> wf_threads queue_off k -> sleepers k fired ->
  exists e', acts delay_act tm fired e = Ok tt e' /\ rep queue_off e' (foldl (fun k d => a_wake (d_ctx d) k) k fired).
Proof.
  revert e k. induction fired as [|d fired IH]; intros e k Hr Hw Hs; [by exists e|].
  apply Forall_cons in Hs as [ [Hh Hc] Hs]. cbn [acts foldl].
  destruct (delay_handler_run (set_irqs_off e false) k (d_ctx d) (rep_irqs _ _ _ Hr) Hw Hc) as (e1 & E1 & Hr1).
  assert (delay_act (d_handler d) tm (d_ctx d) e = Ok tt e1) as Ea by (unfold delay_act; by rewrite Hh, Z.eqb_refl).
  rewrite (bind_ok _ _ _ _ _ Ea). apply IH; [done|by apply a_wake_wf|]. exact Hs.
Qed.

(** A thread that sleeps is blocked. *)
Lemma delay_run (s : tsys) k q dv time memory :
  rep queue_off (env s) k -> wf_threads queue_off k -> k_cur k ∈ k_all k ->
  queue_of s default_timer q dv -> ordered 0 q -> unused s q memory -> 0 < time < 2 ^ 31 ->
  delay_fn <> NULL -> default_timer <> NULL ->
  let d := mk_due time memory 0 delay_fn (k_cur k) in
  exists s', delay time memory s = Ok tt s' /\ rep queue_off (env s') (a_set_state (k_cur k) THREAD_STATE_BLOCKED k) /\
    trep s' default_timer (a_insert d q) (if is_first d q then op_set ops time dv else dv) /\ locked s' = false.
Proof.
  intros Hr Hw Hcur Hq Ho Hu Ht Hfn Htm d. unfold delay, delay_schedule.
  set (s1 := mk_tsys (tentries s) (timeouts s) (timers s) true (set_irqs_off (env s) true)).
  assert (queue_of s1 default_timer q dv) as Hq1 by (destruct Hq as [ [? ?]|H]; [left; by split|by right]).
  assert (unused s1 q memory) as Hu1 by (destruct Hu; by split).
  destruct (schedule_run ops s1 default_timer q dv time false delay_fn (k_cur k) memory Hq1 Ho Hu1 Ht Hfn Htm)
    as (s2 & E2 & Hr2 & Hl2 & He2).
  assert (rep queue_off (set_irqs_off (env s2) (locked s2)) k) as Hr2' by (rewrite He2; apply (rep_irqs _ _ _ Hr)).
  destruct (set_state_refines queue_off _ k (k_cur k) THREAD_STATE_BLOCKED Hr2' Hw Hcur) as (e3 & E3 & Hr3 & Hi3 & _).
  set (s3 := mk_tsys (tentries s2) (timeouts s2) (timers s2) (irqs_off e3) e3).
  set (s4 := mk_tsys (tentries s3) (timeouts s3) (timers s3) false (set_irqs_off (set_irqs_off e3 (irqs_off e3)) false)).
  exists s4. split; [|split; [|split; [|done] ] ].
  - assert ((run! on_sched scheduler_lock in
             let! cur := on_sched scheduler_current_thread in
             timer_managed_schedule ops default_timer time false delay_fn cur memory) s = Ok tt s2) as E1.
    { rewrite (bind_ok _ _ s tt s1) by done. rewrite (bind_ok _ _ s1 (k_cur k) s1); [exact E2|].
      unfold on_sched, scheduler_current_thread, gets. simpl. by rewrite (rep_cur _ _ _ Hr). }
    rewrite (bind_ok _ _ _ _ _ E1). rewrite (bind_ok _ _ s2 tt s3); [done|].
    unfold on_sched, thread_block.
    rewrite (bind_ok _ _ _ (k_cur k) (set_irqs_off (env s2) (locked s2))); [by rewrite E3|].
    unfold scheduler_current_thread, gets. by rewrite <-(rep_cur _ _ _ Hr2').
  - simpl. apply rep_irqs, rep_irqs, Hr3.
  - destruct Hr2 as [A1 A2]. by split.
Qed.
End Delay.

Lemma wake_running (fired : list due) k t :
  k_state k !! t = Some THREAD_STATE_RUNNING \/ t ∈ d_ctx <$> fired ->
  k_state (foldl (fun k d => a_wake (d_ctx d) k) k fired) !! t = Some THREAD_STATE_RUNNING.
Proof.
  revert k. induction fired as [|d fired IH]; intros k H; cbn [foldl fmap list_fmap] in *.
  - destruct H as [H|H]; [done|by apply elem_of_nil in H].
  - apply IH. unfold a_wake, a_set_state. simpl. destruct (decide (t = d_ctx d)) as [->|Hne]; [left; by rewrite lookup_insert_eq|].
    rewrite lookup_insert_ne by done. destruct H as [H|[?|H]%elem_of_cons]; [by left|done|by right].
Qed.

(** Waking leaves a consistent kernel, with the same thread running. *)
Lemma wakes_wf queue_off fn (fired : list due) k : wf_threads queue_off k -> sleepers fn k fired ->
  let k' := foldl (fun k d => a_wake (d_ctx d) k) k fired in
  wf_threads queue_off k' /\ k_cur k' = k_cur k /\ k_all k' = k_all k.
Proof.
  revert k. induction fired as [|d fired IH]; intros k Hw Hs; [done|]. apply Forall_cons in Hs as [ [_ Hc] Hs].
  cbn [foldl]. destruct (IH (a_wake (d_ctx d) k)) as (H1 & H2 & H3); [by apply a_wake_wf|exact Hs|]. by rewrite H2, H3.
Qed.

(** The rest of [delay], once the timeout is queued. *)
Definition delay_block {S L D : Type} `{LA : ListApi S L} queue_off :
    M (Timer.tsys (S := S) (L := L) (D := D) (E := Sched.sys (S := S) (L := L))) unit :=
  run! on_sched (thread_block queue_off) in on_sched scheduler_unlock.

Lemma delay_block_run {S L D : Type} `{LA : ListApi S L} queue_off
    (s : Timer.tsys (S := S) (L := L) (D := D) (E := Sched.sys (S := S) (L := L))) k tm q dv :
  rep queue_off (env s) k -> wf_threads queue_off k -> k_cur k ∈ k_all k -> trep s tm q dv ->
  exists s', delay_block queue_off s = Ok tt s' /\
    rep queue_off (env s') (a_set_state (k_cur k) THREAD_STATE_BLOCKED k) /\ trep s' tm q dv /\ locked s' = false.
Proof.
  intros Hr Hw Hcur Ht. pose proof (rep_irqs _ _ _ (locked s) Hr) as Hr'.
  destruct (set_state_refines queue_off _ k (k_cur k) THREAD_STATE_BLOCKED Hr' Hw Hcur) as (e3 & E3 & Hr3 & Hi3 & _).
  set (s3 := mk_tsys (tentries s) (timeouts s) (timers s) (irqs_off e3) e3).
  eexists. split; [|split; [|split] ].
  - unfold delay_block. rewrite (bind_ok _ _ s tt s3); [done|]. unfold on_sched, thread_block.
    rewrite (bind_ok _ _ _ (k_cur k) (set_irqs_off (env s) (locked s))); [by rewrite E3|].
    unfold scheduler_current_thread, gets. by rewrite <-(rep_cur _ _ _ Hr').
  - simpl. apply rep_irqs, rep_irqs, Hr3.
  - destruct Ht as [A1 A2]. by split.
  - done.
Qed.

(** C31: A thread that calls delay sleeps and is woken, as far as the code sees to it.
    The call, when the timer does not expire during it, blocks the current thread,
    takes it off the running queue and queues a timeout for the time asked.  When the
    timer expires, at any later state of kernel and timers in which the timeouts that
    are due are of delay and some other is not due yet, every thread whose timeout is
    due is made runnable again and the kernel and the timers stay consistent.  When all timeouts are due at once - a
    single delay, the ordinary case -, the handler follows the NULL of the empty list
    (WildAccess).  And when the timer expires after timer_managed_schedule, which
    unmasks the interrupts, but before thread_block, the thread is blocked with its
    timeout gone, and no timeout that is left is its. *)
Theorem delay_wakes {S L D : Type} `{LA : ListApi S L} queue_off (ops : timer_ops D) tm fn
    (s : Timer.tsys (S := S) (L := L) (D := D) (E := Sched.sys (S := S) (L := L))) k q dv time memory :
  rep queue_off (env s) k -> wf_threads queue_off k -> k_cur k ∈ k_all k ->
  queue_of s tm q dv -> ordered 0 q -> unused s q memory -> 0 < time < 2 ^ 31 -> fn <> NULL -> tm <> NULL ->
  let d := mk_due time memory 0 fn (k_cur k) in
  (exists s', delay queue_off ops tm fn time memory s = Ok tt s' /\
     rep queue_off (env s') (a_set_state (k_cur k) THREAD_STATE_BLOCKED k) /\
     trep s' tm (a_insert d q) (if is_first d q then op_set ops time dv else dv) /\ locked s' = false) /\
  (forall s2 k2 dv2 el fired later rounds,
     rep queue_off (env s2) k2 -> wf_threads queue_off k2 -> sleepers fn k2 fired ->
     trep s2 tm (fired ++ later) dv2 -> ordered 0 (fired ++ later) -> timeouts s2 !! NULL = None ->
     Forall (fun d => d_time d = el /\ d_reset d = 0) fired -> Forall (fun d => el < d_time d) later ->
     0 <= el < 2 ^ 31 -> (length fired < rounds)%nat -> fired ++ later <> [] ->
     if bool_decide (later = []) then timer_managedhandler ops (delay_call queue_off fn) rounds tm el s2 = Fault WildAccess
     else exists s3 k3, timer_managedhandler ops (delay_call queue_off fn) rounds tm el s2 = Ok tt s3 /\
       rep queue_off (env s3) k3 /\ (forall t, t ∈ d_ctx <$> fired -> k_state k3 !! t = Some THREAD_STATE_RUNNING) /\
       (exists dv3, trep s3 tm (shift el later) dv3) /\
       (k_cur k2 ∈ k_all k2 -> k_cur k2 ∉ d_ctx <$> later ->
        exists s4 k4 dv4, delay_block queue_off s3 = Ok tt s4 /\ rep queue_off (env s4) k4 /\
          k_state k4 !! k_cur k2 = Some THREAD_STATE_BLOCKED /\
          trep s4 tm (shift el later) dv4 /\ k_cur k2 ∉ d_ctx <$> shift el later)).
Proof.
  intros Hr Hw Hcur Hq Ho Hu Ht Hfn Htm d. split; [by apply delay_run|].
  clear -Htm. intros s2 k2 dv2 el fired later rounds Hr Hw Hs Ht Ho H0 Hf Hl Hel Hrd Hne.
  destruct (acts_wake queue_off fn tm fired (env s2) k2 Hr Hw Hs) as (e & Ea & Hre).
  assert (forall q, a_renew fired q = q) as Hren.
  { intros q. clear -Hf. unfold a_renew. induction Hf as [|d fired [_ Hd] _ IH] in q |- *; [done|]. simpl. rewrite Hd. simpl. apply IH. }
  pose proof (fire_run ops (delay_call queue_off fn) (delay_act queue_off fn) s2 tm el fired later dv2 rounds e
    (delay_quiet queue_off fn) Ea Ht Ho Htm H0) as H.
  cbv zeta in H. rewrite Hren in H.
  replace (bool_decide (shift el later = [])) with (bool_decide (later = [])) in H
    by (apply bool_decide_ext; split; [by intros ->|intros E0; by apply fmap_nil_inv in E0]).
  assert (Forall (fun d => d_time d = el /\ 0 <= d_reset d < 2 ^ 31) fired) as Hf'.
  { eapply Forall_impl; [exact Hf|]. simpl. intros x [? ->]. lia. }
  specialize (H Hf' Hl Hel Hrd Hne). case_bool_decide; [exact H|].
  destruct H as (s3 & dv3 & E3 & Hr3 & He3 & _). set (k3 := foldl (fun k d => a_wake (d_ctx d) k) k2 fired) in *.
  destruct (wakes_wf queue_off fn fired k2 Hw Hs) as (Hw3 & Hcur3 & Hall3). fold k3 in Hw3, Hcur3, Hall3. rewrite <-He3 in Hre.
  exists s3, k3. split; [exact E3|]. split; [exact Hre|].
  split; [intros t Hin; apply wake_running; by right|]. split; [by eexists|]. intros Hc Hnl.
  destruct (delay_block_run queue_off s3 k3 tm _ _ Hre Hw3 ltac:(by rewrite Hcur3, Hall3) Hr3) as (s4 & E4 & Hr4 & Ht4 & _).
  eexists s4, _, _. split; [exact E4|]. split; [exact Hr4|]. split; [|split; [exact Ht4|] ].
  - rewrite <-Hcur3. unfold a_set_state. simpl. apply lookup_insert_eq.
  - unfold shift. by rewrite <-list_fmap_compose.
Qed.

(** The timer and its timeouts, beside a kernel. *)
Definition delay_start (e : csys) : tsys (S := store) (L := list_t) (D := Z) (E := csys) :=
  mk_tsys (<[8 := mk_entry 0 0]> (<[24 := mk_entry 0 0]> empty)) empty (<[4 := mk_timer NoHandler list_init 0]> empty) false e.

(** [delay] can sleep for ever.  The locks do not nest: [timer_managed_schedule]
    ends by unmasking the interrupts, so the timer may expire before the thread is
    blocked.  Its handler then wakes a thread that still runs, and the thread is
    blocked afterwards with no timeout left that would wake it. *)
Theorem delay_race :
  exists e s, run_events 20 [KInit 100 0; KPendSV 5000] ex_start = Ok tt e /\
    (run! timer_managed_schedule plain_ops 4 50 true 999 9 24 in
     run! delay_schedule plain_ops 4 1000 10 8 in
     run! timer_managedhandler plain_ops (delay_call 20 1000) 5 4 10 in
     run! on_sched (thread_block 20) in
     on_sched scheduler_unlock) (delay_start e) = Ok tt s /\
    (tstate <$> threads (env s) !! 100) = Some THREAD_STATE_BLOCKED /\
    (context ∘ snd <$> map_to_list (timeouts s)) = [9].
Proof.
  eexists _, _. split; [vm_compute; reflexivity|]. split; [vm_compute; reflexivity|]. split; vm_compute; reflexivity.
Qed.

(** Thread 100 sleeps for 10 ms. *)
Lemma delay_wakes_witness :
  exists e s, run_events 20 [KInit 100 0; KPendSV 5000] ex_start = Ok tt e /\
    delay 20 plain_ops 4 1000 10 8 (delay_start e) = Ok tt s /\
    (exists dv, trep s 4 [mk_due 10 8 0 1000 100] dv).
Proof.
  set (es := [KInit 100 0; KPendSV 5000]).
  assert (ok_events 20 es ex_start kernel_start) as Hok by (apply ok_events_b_ok; vm_compute; reflexivity).
  destruct (events_refine 20 ex_start kernel_start es) as (e & He & Hr & Hw & _);
    [apply (start_rep (L := list_t))|apply (start_rep (S := store) (L := list_t) 20 ex_store)|done|exact Hok|].
  destruct (delay_wakes 20 plain_ops 4 1000 (delay_start e) (foldl spec_event kernel_start es) [] 0 10 8) as [H _];
    [exact Hr|apply Hw| |right; split; [done|]; exists NoHandler, list_init; split; [done|reflexivity]|done| |lia|by unfold NULL|by unfold NULL|].
  - refine (bool_decide_unpack _ _). vm_compute. exact I.
  - split; [by eexists|by unfold NULL|by apply not_elem_of_nil].
  - destruct H as (s' & E1 & _ & Ht & _). exists e, s'. split; [exact He|]. split; [exact E1|]. eexists. exact Ht.
Defined.
