(* ===== verification/Vfs.v ===== *)
(** * Vfs: the virtual file system

    [lib/vfs/vfs.c].  The vnodes and the tables of the static file system are
    constant data, which the build generates: they are parameters, as are the
    vnodes of other kinds.  A vnode is known by its address. *)
From S2P Require Import Prelude Fw File CString Printf.

(** [vnode_kind_t] *)
Inductive vnode_kind_t := VNODE_KIND_REG | VNODE_KIND_DIR | VNODE_KIND_CALLABLE.

#[export] Instance vnode_kind_eq_dec : EqDecision vnode_kind_t.
Proof. solve_decision. Defined.

(** What [vnode->ops] points to: [staticfs_dir_ops], [staticfs_callable_ops], or
    the operations of another file system. *)
Inductive vnode_ops := staticfs_dir_ops | staticfs_callable_ops | other_ops (i : Z).

(** What follows the [struct vnode] in a [struct staticfs_vnode] (name and vnode
    of each entry, up to the one whose name is NULL) and in a [struct
    staticfs_callable_vnode]. *)
Inductive vnode_data := no_data | entries (es : list (Z * Z)) | func (f : Z).

Record vnode := mk_vnode { kind : vnode_kind_t; ops : vnode_ops; data : vnode_data }.

Section Vfs.
Context {F : Type} (fops : file_operations F).

(** Memory and file, [vfs_root], and the [ident] of the [vfs_dump_context]. *)
Record vfs := mk_vfs { vio : CString.io (F := F); vfs_root : Z; ident : Z }.

(** The vnodes, the operations of other file systems, and the functions. *)
Context (vnodes : gmap Z vnode).
Context (other_open : Z -> Z -> M vfs Z) (other_lookup : Z -> Z -> Z -> M vfs Z)
        (other_readdir : Z -> Z -> (Z -> Z -> Z -> M vfs unit) -> M vfs unit)
        (other_call : Z -> Z -> Z -> Z -> M vfs Z) (function : Z -> Z -> Z -> M vfs Z).

Definition on_io {A} (c : M (CString.io (F := F)) A) : M vfs A := fun s =>
  match c (vio s) with Ok a i => Ok a (mk_vfs i (vfs_root s) (ident s)) | Fault f => Fault f end.
Definition on_mem {A} (c : M bytes A) : M vfs A := on_io (on_bytes c).

Definition get_vnode (v : Z) : M vfs vnode := deref (fun _ => vnodes !! v).
Definition get_entries (v : Z) : M vfs (list (Z * Z)) :=
  deref (fun _ => x ← vnodes !! v; match data x with entries es => Some es | _ => None end).

Definition vnode_get_kind (v : Z) : M vfs vnode_kind_t := let! x := get_vnode v in ret (kind x).

(** ** The static file system *)

(** The loop of [staticfs_lookup]. *)
Fixpoint lookup_loop (es : list (Z * Z)) (name len : Z) : M vfs Z :=
  match es with
  | [] => fail WildAccess
  | (ename, child) :: es =>
      if ename =? NULL then ret NULL
      else
        let! l := on_mem (strlen ename) in
        if negb (l =? len) then lookup_loop es name len
        else
          let! r := on_mem (strncmp ename name len) in
          if r =? 0 then ret child else lookup_loop es name len
  end.

Definition staticfs_lookup (v name : Z) : M vfs Z :=
  let! deli := on_mem (strchr name 47) in
  let! len := (if truth deli then ret (deli - name) else on_mem (strlen name)) in
  let! es := get_entries v in
  lookup_loop es name len.

(** The callback gets the parent, the name and the child. *)
Fixpoint readdir_loop (es : list (Z * Z)) (v : Z) (callback : Z -> Z -> Z -> M vfs unit) : M vfs unit :=
  match es with
  | [] => fail WildAccess
  | (ename, child) :: es =>
      if ename =? NULL then ret tt
      else run! callback v ename child in readdir_loop es v callback
  end.

Definition staticfs_readdir (v : Z) (callback : Z -> Z -> Z -> M vfs unit) : M vfs unit :=
  let! es := get_entries v in readdir_loop es v callback.

Definition staticfs_call (v argc argv : Z) : M vfs Z :=
  let! f := deref (fun _ => x ← vnodes !! v; match data x with func f => Some f | _ => None end) in
  function f argc argv.

Definition staticfs_init : M vfs unit := ret tt.

(** ** Vnodes *)

(** Operations of the wrong kind are a wild access. *)
Definition vnode_open (v : Z) : M vfs Z :=
  let! x := get_vnode v in
  if bool_decide (kind x <> VNODE_KIND_REG) then ret NULL
  else match ops x with other_ops i => other_open i v | _ => fail WildAccess end.

Definition vnode_lookup (v name : Z) : M vfs Z :=
  let! x := get_vnode v in
  if bool_decide (kind x <> VNODE_KIND_DIR) then ret NULL
  else match ops x with
       | staticfs_dir_ops => staticfs_lookup v name
       | other_ops i => other_lookup i v name
       | staticfs_callable_ops => fail WildAccess
       end.

Definition vnode_readdir (v : Z) (callback : Z -> Z -> Z -> M vfs unit) : M vfs unit :=
  let! x := get_vnode v in
  if bool_decide (kind x <> VNODE_KIND_DIR) then ret tt
  else match ops x with
       | staticfs_dir_ops => staticfs_readdir v callback
       | other_ops i => other_readdir i v callback
       | staticfs_callable_ops => fail WildAccess
       end.

Definition vnode_call (v argc argv : Z) : M vfs Z :=
  let! x := get_vnode v in
  if bool_decide (kind x <> VNODE_KIND_CALLABLE) then ret (-1)
  else match ops x with
       | staticfs_callable_ops => staticfs_call v argc argv
       | other_ops i => other_call i v argc argv
       | staticfs_dir_ops => fail WildAccess
       end.

Definition vfs_set_root (v : Z) : M vfs unit := modify (fun s => mk_vfs (vio s) v (ident s)).

Fixpoint vfs_lookup_loop (fuel : nat) (node path : Z) : M vfs Z :=
  match fuel with
  | O => fail Diverges
  | S fuel =>
      if truth node && truth path then
        let! node := vnode_lookup node path in
        let! path := on_mem (strchr path 47) in
        if negb (truth path) then ret node else vfs_lookup_loop fuel node (path + 1)
      else ret node
  end.

(** A round for each byte of the memory is enough for the path. *)
Definition vfs_lookup (path : Z) : M vfs Z :=
  let! node := gets vfs_root in
  let! fuel := gets (fun s => S (size (iomem (vio s)))) in
  vfs_lookup_loop fuel node path.

(** ** The dump *)

(** The string constants, where the compiler puts them: two spaces and the two
    formats. *)
Context (entry_format root_format : Z).

Definition kind_value (k : vnode_kind_t) : Z :=
  match k with VNODE_KIND_REG => 0 | VNODE_KIND_DIR => 1 | VNODE_KIND_CALLABLE => 2 end.

Definition set_ident (f : Z -> Z) : M vfs unit := modify (fun s => mk_vfs (vio s) (vfs_root s) (f (ident s))).

Fixpoint indent_loop (n : nat) : M vfs unit :=
  match n with O => ret tt | S n => run! on_io (file_write fops [32; 32]) in indent_loop n end.

(** [depth] bounds the depth of the tree. *)
Fixpoint vfs_dump_callback (depth : nat) (parent name child : Z) : M vfs unit :=
  match depth with
  | O => fail Diverges
  | S depth =>
      let! i := gets ident in
      run! indent_loop (Z.to_nat i) in
      let! x := get_vnode child in
      run! on_io (fprintf fops entry_format [name; child; kind_value (kind x)]) in
      if bool_decide (kind x = VNODE_KIND_DIR) then
        run! set_ident (fun i => i + 1) in
        run! vnode_readdir child (vfs_dump_callback depth) in
        set_ident (fun i => i - 1)
      else ret tt
  end.

Definition vfs_dump (depth : nat) : M vfs unit :=
  run! set_ident (fun _ => 1) in
  let! root := gets vfs_root in
  run! on_io (fprintf fops root_format [root]) in
  vnode_readdir root (vfs_dump_callback depth).
End Vfs.
Arguments mk_vfs {F}. Arguments vio {F}. Arguments vfs_root {F}. Arguments ident {F}.
