(* ===== verification/VfsSpec.v ===== *)
(** * VfsSpec: what a path names *)
From S2P Require Import Prelude Fw File CString CStringSpec Printf PrintfSpec Vfs.

(** ** Paths *)

(** A path cut at its slashes. *)
Fixpoint components (s : list Z) : list (list Z) :=
  match s with
  | [] => [ [] ]
  | c :: s' => if c =? 47 then [] :: components s'
               else match components s' with x :: xs => (c :: x) :: xs | [] => [ [c] ] end
  end.

Lemma components_nonempty s : components s <> [].
Proof. destruct s as [|c s]; simpl; [done|]. destruct (c =? 47); [done|]. by destruct (components s). Qed.

Lemma components_first s : components s =
  match list_find (eq 47) s with
  | Some (i, _) => take i s :: components (drop (S i) s)
  | None => [s]
  end.
Proof.
  induction s as [|c s IH]; [done|]. cbn [components list_find]. destruct (Z.eqb_spec c 47) as [->|Hne].
  - by rewrite decide_True.
  - rewrite decide_False by done. rewrite IH. by destruct (list_find (eq 47) s) as [[i x]|].
Qed.

Lemma components_length s : (length (components s) <= S (length s))%nat.
Proof.
  induction s as [|c s IH]; simpl; [done|]. destruct (c =? 47); simpl; [lia|].
  destruct (components s); simpl in *; lia.
Qed.

(** ** Directories *)

Section Spec.
Context {F : Type} (vnodes : gmap Z vnode).
Abbreviation vfs := (Vfs.vfs (F := F)).
Context (other_lookup : Z -> Z -> Z -> M vfs Z).

(** The directories: the names of each with their vnodes. *)
Context (dirs : gmap Z (list (list Z * Z))).

Definition find_child (name : list Z) (ns : list (list Z * Z)) : Z :=
  match list_find (fun n => n.1 = name) ns with Some (_, n) => n.2 | None => NULL end.

(** The vnode a directory has under a name, NULL when there is none. *)
Definition child (v : Z) (name : list Z) : Z :=
  match dirs !! v with Some ns => find_child name ns | None => NULL end.

Definition resolve (v : Z) (path : list (list Z)) : Z := foldl child v path.

(** The table [es] in memory says [ns]. *)
Definition table (m : bytes) (es : list (Z * Z)) (ns : list (list Z * Z)) : Prop :=
  exists es', es = es' ++ [(NULL, 0)] /\ Forall2 (fun e n => e.1 <> NULL /\ cstr m e.1 n.1 /\ e.2 = n.2) es' ns.

(** The vnodes are those of a static file system with the directories [dirs]. *)
Definition static_fs (m : bytes) : Prop :=
  vnodes !! NULL = None /\
  forall v, match vnodes !! v with
  | Some x =>
      match kind x with
      | VNODE_KIND_DIR => exists es ns, ops x = staticfs_dir_ops /\ data x = entries es /\ dirs !! v = Some ns /\
          table m es ns /\ Forall (fun n => is_Some (vnodes !! n.2)) ns
      | _ => dirs !! v = None
      end
  | None => dirs !! v = None
  end.

Lemma on_mem_run {A} (c : M bytes A) (s : vfs) a : c (iomem (vio s)) = Ok a (iomem (vio s)) -> on_mem c s = Ok a s.
Proof. intros E. unfold on_mem, on_io, on_bytes. rewrite E. by destruct s as [ [] ]. Qed.

Lemma lookup_loop_run (s : vfs) es ns p t c : cstr (iomem (vio s)) p t -> c = take (length c) t ->
  Forall2 (fun e n => e.1 <> NULL /\ cstr (iomem (vio s)) e.1 n.1 /\ e.2 = n.2) es ns ->
  lookup_loop (es ++ [(NULL, 0)]) p (Z.of_nat (length c)) s = Ok (find_child c ns) s.
Proof.
  intros Hp Hc H. induction H as [|[en ev] [n v] es ns (Hne & Hn & Ev) H IH]; [done|]. simpl in Hne, Hn, Ev. subst v.
  cbn [app lookup_loop]. rewrite (proj2 (Z.eqb_neq en NULL)) by done.
  rewrite (bind_ok _ _ s (Z.of_nat (length n)) s) by (by apply on_mem_run, strlen_run).
  unfold find_child in *. cbn [list_find]. destruct (Z.eqb_spec (Z.of_nat (length n)) (Z.of_nat (length c))) as [El|El]; cbn [negb].
  - rewrite (bind_ok _ _ s (lex n c) s).
    2: { apply on_mem_run. rewrite (strncmp_run _ _ _ n t) by (done || lia). rewrite Nat2Z.id, <-Hc.
         by rewrite take_ge by lia. }
    destruct (Z.eqb_spec (lex n c) 0) as [E0|E0].
    + apply lex_eq in E0. by rewrite decide_True.
    + rewrite decide_False by (by intros ?%lex_eq). rewrite IH. by destruct (list_find _ ns) as [[i x]|].
  - rewrite decide_False by (intros E; simpl in E; congruence). rewrite IH. by destruct (list_find _ ns) as [[i x]|].
Qed.

(** The first component of a path, and where the next one starts. *)
Lemma first_component m p t : cstr m p t ->
  exists c, (match list_find (eq 47) t with Some (i, _) => c = take i t /\ length c = i | None => c = t end) /\ c = take (length c) t.
Proof.
  intros _. destruct (list_find (eq 47) t) as [[i x]|] eqn:E.
  - exists (take i t). apply list_find_Some in E as (Ei & _ & _). apply lookup_lt_Some in Ei.
    rewrite length_take, Nat.min_l by lia. done.
  - exists t. by rewrite take_ge.
Qed.

Lemma staticfs_lookup_run (s : vfs) v x es ns p t : cstr (iomem (vio s)) p t -> 0 < p -> vnodes !! v = Some x ->
  data x = entries es -> table (iomem (vio s)) es ns ->
  staticfs_lookup vnodes v p s = Ok (find_child (hd [] (components t)) ns) s.
Proof.
  intros Hp Hp0 Ev Ed (es' & -> & Ht). unfold staticfs_lookup.
  rewrite (bind_ok _ _ s _ s) by (by apply on_mem_run, (strchr_run _ _ t)).
  assert (forall len, len = Z.of_nat (length (hd [] (components t))) -> hd [] (components t) = take (length (hd [] (components t))) t ->
    (let! es := get_entries vnodes v in lookup_loop es p len) s = Ok (find_child (hd [] (components t)) ns) s) as H.
  { intros len -> Hc. rewrite (bind_ok _ _ s (es' ++ [(NULL, 0)]) s); [by apply (lookup_loop_run s es' ns p t)|].
    apply deref_ok. rewrite Ev. simpl. by rewrite Ed. }
  rewrite components_first in *. destruct (first_component _ _ _ Hp) as (c & Hc & Htake).
  destruct (list_find (eq 47) t) as [[i y]|]; simpl in *.
  - destruct Hc as [-> El]. rewrite truth_pos by lia. rewrite (bind_ok _ _ s (p + Z.of_nat i - p) s) by done.
    apply H; [rewrite El; lia|exact Htake].
  - subst c. change (truth NULL) with false. cbv iota. rewrite (bind_ok _ _ s (Z.of_nat (length t)) s); [by apply H|].
    by apply on_mem_run, strlen_run.
Qed.

Lemma vnode_lookup_run (s : vfs) v p t : static_fs (iomem (vio s)) -> is_Some (vnodes !! v) -> cstr (iomem (vio s)) p t -> 0 < p ->
  vnode_lookup vnodes other_lookup v p s = Ok (child v (hd [] (components t))) s /\
  (child v (hd [] (components t)) <> NULL -> is_Some (vnodes !! child v (hd [] (components t)))).
Proof.
  intros [H0 Hfs] [x Ex] Hp Hp0. specialize (Hfs v). rewrite Ex in Hfs. unfold vnode_lookup, child.
  rewrite (bind_ok _ _ s x s) by (by apply deref_ok). destruct (kind x).
  - rewrite bool_decide_eq_true_2 by done. by rewrite Hfs.
  - destruct Hfs as (es & ns & Eo & Ed & Edir & Ht & Hns). rewrite bool_decide_eq_false_2 by (intros H; by apply H).
    rewrite Eo, Edir. split; [by eapply staticfs_lookup_run|].
    unfold find_child. destruct (list_find _ ns) as [[i n]|] eqn:E; [|done]. intros _.
    apply list_find_Some in E as (Ei & _ & _). rewrite Forall_lookup in Hns. by eapply Hns.
  - rewrite bool_decide_eq_true_2 by done. by rewrite Hfs.
Qed.

Lemma resolve_null path : dirs !! NULL = None -> resolve NULL path = NULL.
Proof. intros H. induction path as [|c path IH]; [done|]. simpl. unfold child. by rewrite H. Qed.

Lemma vfs_lookup_loop_run (s : vfs) fuel v p t : static_fs (iomem (vio s)) -> v = NULL \/ is_Some (vnodes !! v) ->
  cstr (iomem (vio s)) p t -> 0 < p -> (length (components t) < fuel)%nat ->
  vfs_lookup_loop vnodes other_lookup fuel v p s = Ok (resolve v (components t)) s.
Proof.
  intros Hfs. assert (dirs !! NULL = None) as Hd0 by (destruct Hfs as [H0 H]; specialize (H NULL); by rewrite H0 in H).
  revert v p t. induction fuel as [|fuel IH]; intros v p t Hv Hp Hp0 Hf; [lia|]. cbn [vfs_lookup_loop].
  destruct (decide (v = NULL)) as [->|Hne]; [by rewrite resolve_null|].
  destruct Hv as [?|Hv]; [done|]. rewrite (truth_pos p Hp0).
  assert (truth v = true) as -> by (unfold truth; by rewrite (proj2 (Z.eqb_neq v 0))). cbn [andb].
  destruct (vnode_lookup_run s v p t Hfs Hv Hp Hp0) as [E1 Hc]. rewrite (bind_ok _ _ _ _ _ E1).
  rewrite (bind_ok _ _ s _ s) by (by apply on_mem_run, (strchr_run _ _ t)).
  rewrite components_first in *. destruct (list_find (eq 47) t) as [[i y]|] eqn:E; [|done].
  rewrite truth_pos by lia. cbn [negb hd resolve foldl length] in *. apply list_find_Some in E as (Ei & _ & _).
  apply lookup_lt_Some in Ei. apply IH.
  - destruct (decide (child v (take i t) = NULL)); [by left|right; by apply Hc].
  - replace (p + Z.of_nat i + 1) with (p + Z.of_nat (S i)) by lia. by apply cstr_drop.
  - lia.
  - lia.
Qed.
End Spec.

(** C29: [vfs_lookup] walks the tree: on a static file system, whose tables are in
    memory, the path is cut at its slashes and each component looked up, by the
    whole name, in the directory found so far; the result is NULL as soon as a
    component is missing or what was found is no directory; the loop ends and
    memory stays.  A path that starts with a slash names nothing, unless the root
    has an entry with an empty name. *)
Theorem vfs_lookup_resolves {F : Type} vnodes other_lookup dirs (s : vfs (F := F)) p t :
  static_fs vnodes dirs (iomem (vio s)) -> vfs_root s = NULL \/ is_Some (vnodes !! vfs_root s) ->
  cstr (iomem (vio s)) p t -> 0 < p ->
  vfs_lookup vnodes other_lookup p s = Ok (resolve dirs (vfs_root s) (components t)) s /\
  (hd 0 t = 47 -> (forall ns, dirs !! vfs_root s = Some ns -> [] ∉ fst <$> ns) ->
   vfs_lookup vnodes other_lookup p s = Ok NULL s).
Proof.
  intros Hfs Hroot Hp Hp0.
  assert (vfs_lookup vnodes other_lookup p s = Ok (resolve dirs (vfs_root s) (components t)) s) as E.
  { unfold vfs_lookup. rewrite (bind_ok _ _ s (vfs_root s) s) by done.
    rewrite (bind_ok _ _ s (S (size (iomem (vio s)))) s) by done. apply vfs_lookup_loop_run; try done.
    pose proof (components_length t). apply proj2, holds_fuel in Hp. rewrite length_app in Hp. simpl in Hp. lia. }
  split; [exact E|]. intros Ht Hns. rewrite E. f_equal. destruct t as [|c t]; [done|]. simpl in Ht. subst c.
  cbn [components Z.eqb Pos.eqb resolve foldl]. unfold child at 2. 
  assert (dirs !! NULL = None) as Hd0 by (destruct Hfs as [H0 H]; specialize (H NULL); by rewrite H0 in H).
  destruct (dirs !! vfs_root s) as [ns|] eqn:Er; [|by apply resolve_null].
  unfold find_child. destruct (list_find _ ns) as [[i [n v]]|] eqn:El; [|by apply resolve_null].
  apply list_find_Some in El as (Ei & En & _). simpl in En. subst n. exfalso. apply (Hns ns eq_refl).
  apply list_elem_of_fmap. exists ([], v). split; [done|]. by eapply list_elem_of_lookup_2.
Qed.

(** ** Witness *)

(** "/ls" and "/bin/x": names at 10, 20 and 30, the path "bin/x" at 40. *)
Definition fs_memory : bytes :=
  poke 10 [108; 115; 0] (poke 20 [98; 105; 110; 0] (poke 30 [120; 0] (poke 40 [98; 105; 110; 47; 120; 0] empty))).
Definition fs_vnodes : gmap Z vnode :=
  <[1000 := mk_vnode VNODE_KIND_DIR staticfs_dir_ops (entries [(10, 2000); (20, 3000); (NULL, 0)])]>
  (<[2000 := mk_vnode VNODE_KIND_CALLABLE staticfs_callable_ops (func 7)]>
  (<[3000 := mk_vnode VNODE_KIND_DIR staticfs_dir_ops (entries [(30, 4000); (NULL, 0)])]>
  (<[4000 := mk_vnode VNODE_KIND_CALLABLE staticfs_callable_ops (func 8)]> empty))).
Definition fs_dirs : gmap Z (list (list Z * Z)) :=
  <[1000 := [([108; 115], 2000); ([98; 105; 110], 3000)]]> (<[3000 := [([120], 4000)]]> empty).
Definition fs_state : vfs (F := terminal) := mk_vfs (mk_io fs_memory (mk_term [] [])) 1000 0.

Lemma fs_static : static_fs fs_vnodes fs_dirs fs_memory.
Proof.
  split; [reflexivity|]. intros v.
  destruct (decide (v = 1000)) as [->|H1].
  { change (fs_vnodes !! 1000) with (Some (mk_vnode VNODE_KIND_DIR staticfs_dir_ops (entries [(10, 2000); (20, 3000); (NULL, 0)]))).
    eexists _, _. do 2 (split; [reflexivity|]). split; [reflexivity|]. split.
    - exists [(10, 2000); (20, 3000)]. split; [done|]. repeat constructor; simpl; try done; concrete_cstr.
    - repeat (apply Forall_cons; split; [by eexists|]). by apply Forall_nil. }
  destruct (decide (v = 3000)) as [->|H3].
  { change (fs_vnodes !! 3000) with (Some (mk_vnode VNODE_KIND_DIR staticfs_dir_ops (entries [(30, 4000); (NULL, 0)]))).
    eexists _, _. do 2 (split; [reflexivity|]). split; [reflexivity|]. split.
    - exists [(30, 4000)]. split; [done|]. repeat constructor; simpl; try done; concrete_cstr.
    - apply Forall_singleton. by eexists. }
  assert (fs_dirs !! v = None) as Hd by (unfold fs_dirs; by rewrite !lookup_insert_ne).
  unfold fs_vnodes. rewrite lookup_insert_ne by done.
  destruct (decide (v = 2000)) as [->|H2]; [rewrite lookup_insert_eq; exact Hd|]. rewrite lookup_insert_ne by done.
  rewrite lookup_insert_ne by done.
  destruct (decide (v = 4000)) as [->|H4]; [rewrite lookup_insert_eq; exact Hd|]. by rewrite lookup_insert_ne.
Qed.

Lemma vfs_lookup_resolves_witness :
  vfs_lookup fs_vnodes (fun _ _ _ => fail WildAccess) 40 fs_state = Ok 4000 fs_state.
Proof.
  destruct (vfs_lookup_resolves fs_vnodes (fun _ _ _ => fail WildAccess) fs_dirs fs_state 40 [98; 105; 110; 47; 120]) as [E _];
    [exact fs_static|right; by eexists|concrete_cstr|lia|exact E].
Defined.
