(* ===== verification/Crc.v ===== *)
(** * Crc: the checksum of the configuration and of the SHT2x

    [lib/crc/crc8_maxim.c].  [data] is the [length] bytes the pointer points to. *)
From S2P Require Import Prelude.

Definition kCRCPolynomial : Z := 0x31.

(** One round of the inner loop, on an [uint8_t]. *)
Definition crc_bit (crc : Z) : Z :=
  if truth (Z.land crc 0x80) then Z.lxor (u8 (Z.shiftl crc 1)) kCRCPolynomial else u8 (Z.shiftl crc 1).

Definition crc_byte (crc b : Z) : Z := Nat.iter 8 crc_bit (Z.lxor crc b).

Definition crc8_maxim (data : list Z) : Z := foldl crc_byte 0 data.

(** ** What it detects *)

Definition is_byte (b : Z) : Prop := in_u 8 b.

Lemma byte_lxor a b : is_byte a -> is_byte b -> is_byte (Z.lxor a b).
Proof.
  intros Ha Hb. apply in_u_of_testbit; [lia| |].
  - apply Z.lxor_nonneg. unfold is_byte, in_u in *. lia.
  - intros i Hi. rewrite Z.lxor_spec, (in_u_testbit_high 8 a), (in_u_testbit_high 8 b) by (done || lia). done.
Qed.

(** Linearity of a function on bytes, checked bit by bit: it is the sum of what it
    does to the powers of two. *)
Definition T (x : Z) : Z := Nat.iter 8 crc_bit x.

Lemma forall_bytes (P : Z -> bool) : forallb P (seqZ 0 256) = true -> forall b, is_byte b -> P b = true.
Proof.
  intros H b Hb. rewrite forallb_forall in H. apply H, list_elem_of_In, elem_of_seqZ. unfold is_byte, in_u in Hb. lia.
Qed.

Lemma T_byte x : is_byte x -> is_byte (T x).
Proof.
  intros Hx. assert ((0 <=? T x) && (T x <? 256) = true) as H by (apply (forall_bytes (fun x => (0 <=? T x) && (T x <? 256))); [vm_compute; reflexivity|done]).
  unfold is_byte, in_u. lia.
Qed.

Lemma T_lxor a b : is_byte a -> is_byte b -> T (Z.lxor a b) = Z.lxor (T a) (T b).
Proof.
  intros Ha Hb. apply Z.eqb_eq.
  apply (forall_bytes (fun b => T (Z.lxor a b) =? Z.lxor (T a) (T b))); [|done]. clear b Hb.
  apply (forall_bytes (fun a => forallb (fun b => T (Z.lxor a b) =? Z.lxor (T a) (T b)) (seqZ 0 256))); [|done].
  vm_compute. reflexivity.
Qed.

Lemma T_zero x : is_byte x -> T x = 0 -> x = 0.
Proof.
  intros Hx H0. assert ((negb (T x =? 0) || (x =? 0)) = true) as H.
  { apply (forall_bytes (fun x => negb (T x =? 0) || (x =? 0))); [vm_compute; reflexivity|done]. }
  rewrite H0 in H. simpl in H. lia.
Qed.

Lemma crc_byte_T crc b : crc_byte crc b = T (Z.lxor crc b).
Proof. done. Qed.

Lemma crc_range crc data : is_byte crc -> Forall is_byte data -> is_byte (foldl crc_byte crc data).
Proof.
  intros Hc Hd. induction Hd as [|b data Hb Hd IH] in crc, Hc |- *; [done|]. simpl. apply IH, T_byte. by apply byte_lxor.
Qed.

(** The difference of two checksums runs on by itself. *)
Lemma crc_difference c1 c2 data : is_byte c1 -> is_byte c2 -> Forall is_byte data ->
  Z.lxor (foldl crc_byte c1 data) (foldl crc_byte c2 data) = Nat.iter (length data) T (Z.lxor c1 c2).
Proof.
  intros H1 H2 Hd. induction Hd as [|b data Hb Hd IH] in c1, c2, H1, H2 |- *; [done|]. cbn [foldl length].
  rewrite IH by (apply T_byte; by apply byte_lxor). rewrite !crc_byte_T, <-T_lxor by (by apply byte_lxor).
  rewrite Nat.iter_succ_r. do 2 f_equal.
  rewrite Z.lxor_assoc, (Z.lxor_comm b), Z.lxor_assoc, Z.lxor_nilpotent, Z.lxor_0_r. done.
Qed.

Lemma iter_T_zero n x : is_byte x -> Nat.iter n T x = 0 -> x = 0.
Proof.
  revert x. induction n as [|n IH]; intros x Hx; [done|]. rewrite Nat.iter_succ_r. intros H. apply T_zero; [done|].
  apply IH; [by apply T_byte|done].
Qed.

(** Nonzero patterns of at most 8 bits in two successive bytes. *)
Definition burst (d1 d2 : Z) : Prop := exists e s, 0 < e < 256 /\ 0 <= s < 8 /\ d1 * 256 + d2 = Z.shiftl e s /\ is_byte d1 /\ is_byte d2.

Lemma burst_seen d1 d2 : burst d1 d2 -> Z.lxor (T d1) d2 <> 0.
Proof.
  intros (e & s & He & Hs & E & H1 & H2) H0. apply Z.lxor_eq in H0.
  assert (forallb (fun e => forallb (fun s => (e =? 0) || negb (T (Z.shiftl e s / 256) =? Z.shiftl e s mod 256)) (seqZ 0 8)) (seqZ 0 256) = true) as H
    by (vm_compute; reflexivity).
  rewrite forallb_forall in H. specialize (H e). rewrite <-list_elem_of_In, elem_of_seqZ in H. specialize (H ltac:(lia)).
  cbv beta in H. rewrite forallb_forall in H. specialize (H s). rewrite <-list_elem_of_In, elem_of_seqZ in H. specialize (H ltac:(lia)).
  unfold is_byte, in_u in *. assert (Z.shiftl e s / 256 = d1 /\ Z.shiftl e s mod 256 = d2) as [E1 E2].
  { rewrite <-E. split; [symmetry; apply (Z.div_unique _ _ _ d2)|symmetry; apply (Z.mod_unique _ _ d1)]; lia. }
  rewrite E1, E2, H0, Z.eqb_refl in H. simpl in H. lia.
Qed.

Lemma two_bytes c a1 a2 b1 b2 : is_byte c -> is_byte a1 -> is_byte a2 -> is_byte b1 -> is_byte b2 ->
  Z.lxor (crc_byte (crc_byte c a1) a2) (crc_byte (crc_byte c b1) b2) = T (Z.lxor (T (Z.lxor a1 b1)) (Z.lxor a2 b2)).
Proof.
  intros Hc Ha1 Ha2 Hb1 Hb2. rewrite !crc_byte_T. pose proof (byte_lxor _ _ Hc Ha1) as H1. pose proof (byte_lxor _ _ Hc Hb1) as H2.
  pose proof (T_byte _ H1) as H3. pose proof (T_byte _ H2) as H4.
  rewrite <-T_lxor by (by apply byte_lxor). f_equal.
  assert (Z.lxor a1 b1 = Z.lxor (Z.lxor c a1) (Z.lxor c b1)) as ->.
  { bitwise. by destruct (Z.testbit c i), (Z.testbit a1 i), (Z.testbit b1 i). }
  rewrite (T_lxor (Z.lxor c a1) (Z.lxor c b1)) by done. bitwise. by destruct (Z.testbit (T (Z.lxor c a1)) i), (Z.testbit a2 i), (Z.testbit (T (Z.lxor c b1)) i), (Z.testbit b2 i).
Qed.

Lemma crc_byte_byte c b : is_byte c -> is_byte b -> is_byte (crc_byte c b).
Proof. intros Hc Hb. rewrite crc_byte_T. apply T_byte. by apply byte_lxor. Qed.

Lemma zero_crc c b : is_byte c -> is_byte b -> crc_byte c b = 0 <-> b = c.
Proof.
  intros Hc Hb. rewrite crc_byte_T. split.
  - intros E. apply T_zero in E; [|by apply byte_lxor]. by apply Z.lxor_eq in E.
  - intros ->. rewrite Z.lxor_nilpotent. reflexivity.
Qed.

Lemma burst_differs c a1 a2 b1 b2 after : is_byte c -> is_byte a1 -> is_byte a2 -> is_byte b1 -> is_byte b2 ->
  Forall is_byte after -> burst (Z.lxor a1 b1) (Z.lxor a2 b2) ->
  foldl crc_byte (crc_byte (crc_byte c a1) a2) after <> foldl crc_byte (crc_byte (crc_byte c b1) b2) after.
Proof.
  intros Hc Ha1 Ha2 Hb1 Hb2 Haft Hburst E. apply Z.lxor_eq_0_iff in E.
  pose proof (crc_byte_byte _ _ (crc_byte_byte _ _ Hc Ha1) Ha2) as H1. pose proof (crc_byte_byte _ _ (crc_byte_byte _ _ Hc Hb1) Hb2) as H2.
  rewrite (crc_difference _ _ _ H1 H2 Haft) in E. apply (iter_T_zero _ _ (byte_lxor _ _ H1 H2)) in E.
  rewrite (two_bytes _ _ _ _ _ Hc Ha1 Ha2 Hb1 Hb2) in E.
  apply T_zero in E; [by apply (burst_seen _ _ Hburst)|].
  apply byte_lxor; [apply T_byte; by apply byte_lxor|by apply byte_lxor].
Qed.

(** The checksum detects every burst of errors of up to 8 bits: two messages
    that differ only in such a pattern within two successive bytes have different
    checksums.  A message followed by a byte has the checksum 0 exactly when that
    byte is the checksum of the message. *)
Theorem crc_detects_bursts before a1 a2 b1 b2 after :
  Forall is_byte (before ++ [a1; a2] ++ after) -> Forall is_byte [b1; b2] ->
  (burst (Z.lxor a1 b1) (Z.lxor a2 b2) ->
   crc8_maxim (before ++ [a1; a2] ++ after) <> crc8_maxim (before ++ [b1; b2] ++ after)) /\
  (crc8_maxim (before ++ [b1]) = 0 <-> b1 = crc8_maxim before).
Proof.
  intros Ha Hb. apply Forall_app in Ha as [Hbef Ha]. apply Forall_app in Ha as [Ha Haft].
  apply Forall_cons in Ha as [Ha1 Ha]. apply Forall_cons in Ha as [Ha2 _].
  apply Forall_cons in Hb as [Hb1 Hb]. apply Forall_cons in Hb as [Hb2 _].
  assert (is_byte 0) as H0 by (unfold is_byte, in_u; lia).
  pose proof (crc_range 0 before H0 Hbef) as Hc. unfold crc8_maxim. rewrite !foldl_app. set (c := foldl crc_byte 0 before) in *.
  split.
  - intros Hburst. by apply burst_differs.
  - by apply zero_crc.
Qed.

(** ** Witness *)

Lemma crc_detects_bursts_witness :
  crc8_maxim ([1] ++ [0x5A; 0xF0] ++ [7]) <> crc8_maxim ([1] ++ [0x5B; 0x70] ++ [7]) /\ crc8_maxim [1; crc8_maxim [1] ] = 0.
Proof.
  assert (forall l, forallb (fun b => (0 <=? b) && (b <? 256)) l = true -> Forall is_byte l) as Hall.
  { intros l H. apply Forall_forall. intros b Hb. rewrite forallb_forall in H. specialize (H b). rewrite <-list_elem_of_In in H.
    specialize (H Hb). unfold is_byte, in_u. lia. }
  destruct (crc_detects_bursts [1] 0x5A 0xF0 0x5B 0x70 [7]) as [H _]; [apply Hall; reflexivity..|].
  destruct (crc_detects_bursts [1] 0x5A 0xF0 (crc8_maxim [1]) 0 [7]) as [_ H2]; [apply Hall; reflexivity..|].
  split; [|by apply H2]. apply H. exists 3, 7. do 2 (split; [lia|]). split; [reflexivity|].
  change (0 <= 1 < 256 /\ 0 <= 128 < 256). lia.
Defined.
