(* ===== verification/Eeprom.v ===== *)
(** * Eeprom: the 24xx64 driver

    [device/24xx64/24xx64.c] on an I2C bus that is given ([i2c_dev_transfer]: the
    address of the device, the bytes to write, the number of bytes to read; the
    status and the bytes read), and the interface of [dev/eeprom.h], which the
    configuration store uses. *)
From S2P Require Import Prelude Fw.

Definition STATUS_OK : Z := 0.
Definition STATUS_ERR (x : Z) : Z := Z.lor (Z.shiftl x 1) 1.

(** [struct eeprom]: a read gives the status and the bytes stored to the buffer. *)
Record eeprom (W : Type) := mk_eeprom {
  eeprom_read : Z -> Z -> M W (Z * list Z);
  eeprom_write : Z -> list Z -> M W Z }.
Arguments mk_eeprom {W}. Arguments eeprom_read {W}. Arguments eeprom_write {W}.

Definition kMCP24XX64Address : Z := 0xA0.
Definition kPageSize : Z := 32.

Section Driver.
Context {W : Type} (i2c_dev_transfer : Z -> list Z -> Z -> M W (Z * list Z)).

Definition address_bytes (address : Z) : list Z :=
  [Z.land (Z.shiftr address 8) 0xFF; Z.land (Z.shiftr address 0) 0xFF].

Fixpoint read_loop (fuel : nat) (address remainingLength : Z) : M W (Z * list Z) :=
  match fuel with
  | O => fail Diverges
  | S fuel =>
      if remainingLength >? 0 then
        let length := if remainingLength <? kPageSize then remainingLength else kPageSize in
        let! r := i2c_dev_transfer kMCP24XX64Address (address_bytes address) length in
        let (status, bs) := (r : Z * list Z) in
        if negb (status =? STATUS_OK) then ret (status, bs)
        else
          let! r := read_loop fuel (u16 (address + kPageSize)) (remainingLength - kPageSize) in
          ret (fst (r : Z * list Z), bs ++ snd r)
      else ret (STATUS_OK, [])
  end.

Definition mcp24xx64_read (address bufferLength : Z) : M W (Z * list Z) :=
  read_loop (S (Z.to_nat bufferLength)) address bufferLength.

(** [do ... while (status != STATUS_OK)], at most [rounds] times. *)
Fixpoint retry (rounds : nat) (buf : list Z) : M W unit :=
  match rounds with
  | O => fail Diverges
  | S rounds =>
      let! r := i2c_dev_transfer kMCP24XX64Address buf 0 in
      if negb (fst (r : Z * list Z) =? STATUS_OK) then retry rounds buf else ret tt
  end.

Fixpoint write_loop (fuel rounds : nat) (address : Z) (buffer : list Z) (remainingLength : Z) : M W Z :=
  match fuel with
  | O => fail Diverges
  | S fuel =>
      if remainingLength >? 0 then
        let length := if remainingLength <? kPageSize then remainingLength else kPageSize in
        run! retry rounds (address_bytes address ++ take (Z.to_nat length) buffer) in
        write_loop fuel rounds (u16 (address + kPageSize)) (drop (Z.to_nat length) buffer) (remainingLength - kPageSize)
      else ret STATUS_OK
  end.

Definition mcp24xx64_write (rounds : nat) (address : Z) (buffer : list Z) : M W Z :=
  write_loop (S (length buffer)) rounds address buffer (Z.of_nat (length buffer)).

(** [mcp24xx64_create], when its [malloc] succeeds. *)
Definition mcp24xx64_create (rounds : nat) : eeprom W := mk_eeprom mcp24xx64_read (mcp24xx64_write rounds).
End Driver.

(** ** The interface *)

(** [n] cells from [a] on. *)
Definition cells_at (cells : Z -> Z) (a : Z) (n : nat) : list Z := (fun i => cells (a + Z.of_nat i)) <$> seq 0 n.

(** The cells after [data] went to [a]. *)
Definition stored (cells : Z -> Z) (a : Z) (data : list Z) : Z -> Z := fun x =>
  if decide (a <= x < a + Z.of_nat (length data)) then nth (Z.to_nat (x - a)) data 0 else cells x.

(** What an EEPROM of [capacity] cells promises: a write stores its data, and an
    EEPROM that is [ready] gives its cells.  [fits] says where one may write. *)
Class EepromApi {W : Type} (ee : eeprom W) (cells : W -> Z -> Z) (ready : W -> Prop) (capacity : Z) (fits : Z -> Z -> Prop) := {
  api_fits_start n : 0 < n <= capacity -> fits 0 n;
  api_fits_one a : 0 <= a < capacity -> fits a 1;
  api_write s a data : fits a (Z.of_nat (length data)) ->
    exists s', eeprom_write ee a data s = Ok STATUS_OK s' /\ forall x, cells s' x = stored (cells s) a data x;
  api_read s a n : ready s -> 0 <= a -> 0 <= n -> a + n <= capacity ->
    exists s', eeprom_read ee a n s = Ok (STATUS_OK, cells_at (cells s) a (Z.to_nat n)) s' /\ ready s' /\
      forall x, cells s' x = cells s x }.

Lemma cells_at_length c a n : length (cells_at c a n) = n.
Proof. unfold cells_at. by rewrite length_fmap, length_seq. Qed.

Lemma cells_at_lookup c a n i : (i < n)%nat -> cells_at c a n !! i = Some (c (a + Z.of_nat i)).
Proof. intros Hi. unfold cells_at. by rewrite list_lookup_fmap, lookup_seq_lt. Qed.

Lemma cells_at_app cells a n m : cells_at cells a (n + m) = cells_at cells a n ++ cells_at cells (a + Z.of_nat n) m.
Proof.
  apply list_eq. intros i. destruct (decide (i < n + m)%nat) as [Hi|Hi].
  - rewrite cells_at_lookup by done. destruct (decide (i < n)%nat).
    + by rewrite lookup_app_l, cells_at_lookup by (rewrite ?cells_at_length; lia).
    + rewrite lookup_app_r, cells_at_length, cells_at_lookup by (rewrite ?cells_at_length; lia). do 2 f_equal. lia.
  - rewrite !lookup_ge_None_2; [done|rewrite length_app, !cells_at_length; lia|rewrite cells_at_length; lia].
Qed.

Lemma cells_at_ext c1 c2 a n : (forall x, a <= x < a + Z.of_nat n -> c1 x = c2 x) -> cells_at c1 a n = cells_at c2 a n.
Proof.
  intros H. unfold cells_at. apply list_fmap_ext. intros i x Hx. apply lookup_seq in Hx as [-> Hi]. apply H. lia.
Qed.

Lemma cells_at_stored cells a data : cells_at (stored cells a data) a (length data) = data.
Proof.
  apply list_eq. intros i. destruct (decide (i < length data)%nat) as [Hi|Hi].
  - rewrite cells_at_lookup by done. unfold stored.
    rewrite decide_True by lia.
    replace (Z.to_nat (a + Z.of_nat i - a)) with i by lia.
    destruct (lookup_lt_is_Some_2 data i Hi) as [c Hc]. rewrite Hc. f_equal. by apply nth_lookup_Some.
  - rewrite !lookup_ge_None_2; [done|lia|rewrite cells_at_length; lia].
Qed.

Lemma stored_app cells a d1 d2 x : stored (stored cells a d1) (a + Z.of_nat (length d1)) d2 x = stored cells a (d1 ++ d2) x.
Proof.
  unfold stored. rewrite length_app, Nat2Z.inj_add.
  destruct (decide (a + Z.of_nat (length d1) <= x < a + Z.of_nat (length d1) + Z.of_nat (length d2))).
  - rewrite decide_True by lia. rewrite app_nth2 by lia. f_equal. lia.
  - destruct (decide (a <= x < a + Z.of_nat (length d1))).
    + rewrite decide_True by lia. by rewrite app_nth1 by lia.
    + by rewrite decide_False by lia.
Qed.
