(* ===== verification/EepromSpec.v ===== *)
(** * EepromSpec: the driver implements the interface *)
From S2P Require Import Prelude Fw Eeprom.

Definition kCapacity : Z := 8192.

Section Spec.
Context {W : Type} (i2c_dev_transfer : Z -> list Z -> Z -> M W (Z * list Z)).
Context (cells : W -> Z -> Z) (busy : W -> nat) (rounds : nat).

(** What the data sheet of the 24xx64 says of a transfer with it: a read gives the
    cells from the address on; during a write cycle, which ends, the device does
    not answer; a write of up to a page that stays within a page stores its data. *)
Record chip_24xx64 : Prop := {
  chip_read s a n : busy s = O -> 0 < n -> 0 <= a -> a + n <= kCapacity ->
    exists s', i2c_dev_transfer 0xA0 [a / 256; a mod 256] n s = Ok (STATUS_OK, cells_at (cells s) a (Z.to_nat n)) s' /\
      busy s' = O /\ forall x, cells s' x = cells s x;
  chip_busy s buf : busy s <> O ->
    exists st s', i2c_dev_transfer 0xA0 buf 0 s = Ok (st, []) s' /\ st <> STATUS_OK /\ (busy s' < busy s)%nat /\
      forall x, cells s' x = cells s x;
  chip_write s a data : busy s = O -> data <> [] -> 0 <= a -> a mod 32 + Z.of_nat (length data) <= 32 ->
    a + Z.of_nat (length data) <= kCapacity ->
    exists s', i2c_dev_transfer 0xA0 ([a / 256; a mod 256] ++ data) 0 s = Ok (STATUS_OK, []) s' /\
      forall x, cells s' x = stored (cells s) a data x;
  chip_bound s : (busy s < rounds)%nat }.
Context (Hchip : chip_24xx64).

(** Where a buffer may go: from the start of a page, or within one. *)
Definition fits (a n : Z) : Prop := 0 <= a /\ 0 < n /\ a + n <= kCapacity /\ (a mod 32 = 0 \/ a mod 32 + n <= 32).

Lemma address_bytes_eq a : 0 <= a < 65536 -> address_bytes a = [a / 256; a mod 256].
Proof.
  intros Ha. unfold address_bytes. rewrite Z.shiftr_0_r. change 0xFF with (Z.ones 8). rewrite !Z.land_ones by lia.
  rewrite Z.shiftr_div_pow2 by lia. change (2 ^ 8) with 256. f_equal. apply Z.mod_small.
  split; [apply Z.div_pos; lia|apply Z.div_lt_upper_bound; lia].
Qed.

Lemma retry_run s a data n : (busy s < n)%nat -> data <> [] -> 0 <= a -> a mod 32 + Z.of_nat (length data) <= 32 ->
  a + Z.of_nat (length data) <= kCapacity ->
  exists s', retry i2c_dev_transfer n ([a / 256; a mod 256] ++ data) s = Ok tt s' /\ forall x, cells s' x = stored (cells s) a data x.
Proof.
  intros Hn Hd Ha Hp Hc. induction n as [|n IH] in s, Hn |- *; [lia|]. cbn [retry]. destruct (decide (busy s = O)) as [H0|H0].
  - destruct (chip_write Hchip s a data H0 Hd Ha Hp Hc) as (s' & E & Hs). exists s'. split; [|done].
    change kMCP24XX64Address with 0xA0. by rewrite (bind_ok _ _ _ _ _ E).
  - destruct (chip_busy Hchip s ([a / 256; a mod 256] ++ data) H0) as (st & s1 & E & Hst & Hb & Hs).
    change kMCP24XX64Address with 0xA0. rewrite (bind_ok _ _ _ _ _ E). cbn [fst]. rewrite (proj2 (Z.eqb_neq _ _) Hst). cbn [negb].
    destruct (IH s1 ltac:(lia)) as (s2 & E2 & Hs2). exists s2. split; [exact E2|]. intros x. rewrite Hs2. unfold stored.
    by rewrite Hs.
Qed.

Lemma chunk_length (n : Z) (data : list Z) : n = Z.of_nat (length data) ->
  let k := if n <? kPageSize then n else kPageSize in k = Z.min n 32 /\ Z.of_nat (length (take (Z.to_nat k) data)) = Z.min n 32.
Proof. intros -> k. assert (k = Z.min (Z.of_nat (length data)) 32) as -> by (unfold k, kPageSize; destruct (Z.ltb_spec (Z.of_nat (length data)) 32); lia).
  rewrite length_take. lia.
Qed.

Lemma write_loop_run fuel s a data : (length data < fuel)%nat -> data = [] \/ fits a (Z.of_nat (length data)) ->
  exists s', write_loop i2c_dev_transfer fuel rounds a data (Z.of_nat (length data)) s = Ok STATUS_OK s' /\
    forall x, cells s' x = stored (cells s) a data x.
Proof.
  revert s a data. induction fuel as [|fuel IH]; intros s a data Hf Hfit; [lia|]. cbn [write_loop].
  destruct (Z.gtb_spec (Z.of_nat (length data)) 0) as [Hpos|Hz].
  - destruct Hfit as [->|(Ha & Hn & Hc & Hp)]; [simpl in Hpos; lia|]. unfold kCapacity in Hc.
    destruct (chunk_length _ data eq_refl) as [Ek El]. cbv zeta. set (k := if _ <? _ then _ else _) in *.
    rewrite address_bytes_eq by lia.
    assert (a mod 32 + Z.min (Z.of_nat (length data)) 32 <= 32) as Hpage by (destruct Hp as [-> |]; lia).
    destruct (retry_run s a (take (Z.to_nat k) data) rounds) as (s1 & E1 & Hs1);
      [apply (chip_bound Hchip)|intros E0; rewrite E0 in El; simpl in El; lia|done|lia|unfold kCapacity; lia|].
    rewrite (bind_ok _ _ _ _ _ E1).
    assert (Z.of_nat (length (drop (Z.to_nat k) data)) = Z.max 0 (Z.of_nat (length data) - 32)) as Edrop by (rewrite length_drop; lia).
    destruct (decide (length data <= 32)%nat) as [Hle|Hgt].
    + assert (drop (Z.to_nat k) data = []) as -> by (apply drop_ge; lia). rewrite take_ge in Hs1 by lia.
      exists s1. split; [|exact Hs1]. destruct fuel as [|fuel]; [lia|]. cbn [write_loop]. unfold kPageSize.
      by rewrite Z.gtb_ltb, (proj2 (Z.ltb_ge _ _)) by lia.
    + assert (a mod 32 = 0) as H0 by (pose proof (Z.mod_pos_bound a 32); lia). rewrite (wrap_id 16 (a + kPageSize)) by (unfold in_u, kPageSize; lia).
      replace (Z.of_nat (length data) - kPageSize) with (Z.of_nat (length (drop (Z.to_nat k) data))) by (unfold kPageSize; lia).
      destruct (IH s1 (a + kPageSize) (drop (Z.to_nat k) data)) as (s2 & E2 & Hs2).
      * lia.
      * right. unfold fits, kPageSize, kCapacity. split; [lia|]. split; [lia|]. split; [lia|]. left.
        rewrite <-Z.add_mod_idemp_r, Z.mod_same, Z.add_0_r by lia. done.
      * exists s2. split; [exact E2|]. intros x. rewrite Hs2. rewrite <-(take_drop (Z.to_nat k) data) at 2. rewrite <-stored_app.
        replace (Z.of_nat (length (take (Z.to_nat k) data))) with kPageSize by (unfold kPageSize; lia).
        unfold stored at 1 2. destruct (decide _); [done|]. apply Hs1.
  - destruct data as [|]; [|simpl in Hz; lia]. exists s. split; [done|]. intros x. unfold stored. simpl.
    by rewrite decide_False by lia.
Qed.

Lemma read_loop_run fuel s a n : busy s = O -> 0 <= a -> 0 <= n -> a + n <= kCapacity -> (Z.to_nat n < fuel)%nat ->
  exists s', read_loop i2c_dev_transfer fuel a n s = Ok (STATUS_OK, cells_at (cells s) a (Z.to_nat n)) s' /\
    busy s' = O /\ forall x, cells s' x = cells s x.
Proof.
  unfold kCapacity. revert s a n. induction fuel as [|fuel IH]; intros s a n Hb Ha Hn Hc Hf; [lia|]. cbn [read_loop].
  destruct (Z.gtb_spec n 0) as [Hpos|Hz]; [|replace n with 0 by lia; by exists s].
  rewrite address_bytes_eq by lia. cbv zeta. set (k := if _ <? _ then _ else _).
  assert (k = Z.min n 32) as Ek by (unfold k, kPageSize; destruct (Z.ltb_spec n 32); lia).
  destruct (chip_read Hchip s a k Hb ltac:(lia) Ha ltac:(unfold kCapacity; lia)) as (s1 & E1 & Hb1 & Hs1).
  change kMCP24XX64Address with 0xA0. rewrite (bind_ok _ _ _ _ _ E1). cbn [negb]. change (STATUS_OK =? STATUS_OK) with true. cbn [negb].
  destruct (decide (n <= 32)) as [Hle|Hgt].
  - exists s1. split; [|done]. destruct fuel as [|fuel]; [lia|]. cbn [read_loop]. unfold kPageSize.
    rewrite Z.gtb_ltb, (proj2 (Z.ltb_ge 0 (n - 32))) by lia. rewrite (bind_ok _ _ s1 (STATUS_OK, []) s1) by done.
    cbn [fst snd]. rewrite app_nil_r. by replace k with n by lia.
  - rewrite (wrap_id 16 (a + kPageSize)) by (unfold in_u, kPageSize; lia).
    destruct (IH s1 (a + kPageSize) (n - kPageSize) Hb1) as (s2 & E2 & Hb2 & Hs2); [unfold kPageSize; lia..|].
    rewrite (bind_ok _ _ _ _ _ E2). exists s2. split; [|split; [done|intros x; by rewrite Hs2] ]. unfold ret. cbn [fst snd].
    do 2 f_equal. replace (Z.to_nat n) with (Z.to_nat k + Z.to_nat (n - kPageSize))%nat by (unfold kPageSize; lia).
    rewrite cells_at_app. f_equal. replace (a + Z.of_nat (Z.to_nat k)) with (a + kPageSize) by (unfold kPageSize; lia).
    apply cells_at_ext. intros x _. apply Hs1.
Qed.

(** The driver is an EEPROM. *)
#[export] Instance mcp24xx64_api : EepromApi (mcp24xx64_create i2c_dev_transfer rounds) cells (fun s => busy s = O) kCapacity fits.
Proof.
  split.
  - intros n Hn. unfold fits. split; [done|]. split; [lia|]. split; [lia|]. by left.
  - intros a Ha. unfold fits. pose proof (Z.mod_pos_bound a 32). lia.
  - intros s a data Hfit. apply write_loop_run; [lia|by right].
  - intros s a n Hs Ha Hn Hc. apply read_loop_run; try done. lia.
Qed.
End Spec.

(** C32: The driver cuts what it writes and reads into pages and waits out the
    write cycles: data written from the start of a page, or within one, is stored
    by the device, nothing else changes, and once the device is ready a read of
    the same place gives the data back; both loops end and report success.  A
    buffer that starts inside a page and leaves it is not cut at the page
    boundaries, so this does not hold for it. *)
Theorem eeprom_roundtrip {W : Type} i2c_dev_transfer (cells : W -> Z -> Z) busy rounds s a data :
  chip_24xx64 i2c_dev_transfer cells busy rounds -> fits a (Z.of_nat (length data)) ->
  exists s', mcp24xx64_write i2c_dev_transfer rounds a data s = Ok STATUS_OK s' /\
    (forall x, cells s' x = stored (cells s) a data x) /\
    forall s2, busy s2 = O -> (forall x, cells s2 x = cells s' x) ->
    exists s3, mcp24xx64_read i2c_dev_transfer a (Z.of_nat (length data)) s2 = Ok (STATUS_OK, data) s3 /\
      forall x, cells s3 x = cells s' x.
Proof.
  intros Hchip Hfit. destruct (write_loop_run i2c_dev_transfer cells busy rounds Hchip (S (length data)) s a data) as (s1 & E1 & Hs1);
    [lia|by right|]. exists s1. split; [exact E1|]. split; [exact Hs1|]. intros s2 Hb Hs2. destruct Hfit as (Ha & Hn & Hc & _).
  destruct (read_loop_run i2c_dev_transfer cells busy rounds Hchip (S (Z.to_nat (Z.of_nat (length data)))) s2 a (Z.of_nat (length data)))
    as (s3 & E3 & _ & Hs3); [done|done|lia|done|lia|]. exists s3. split; [|intros x; by rewrite Hs3].
  unfold mcp24xx64_read. rewrite E3. do 2 f_equal. rewrite Nat2Z.id. rewrite <-(cells_at_stored (cells s) a data) at 2.
  apply cells_at_ext. intros x _. by rewrite Hs2.
Qed.

(** ** Witness *)

(** A device that is busy for one transfer after each write. *)
Record device := mk_device { dcells : Z -> Z; dbusy : bool }.
Definition device_transfer (addr : Z) (buf : list Z) (n : Z) : M device (Z * list Z) := fun d =>
  if dbusy d then Ok (1, []) (mk_device (dcells d) false)
  else match buf with
       | hi :: lo :: data =>
           let a := hi * 256 + lo in
           if n >? 0 then Ok (STATUS_OK, cells_at (dcells d) a (Z.to_nat n)) d
           else Ok (STATUS_OK, []) (mk_device (stored (dcells d) a data) true)
       | _ => Ok (1, []) d
       end.
Definition device_busy (d : device) : nat := if dbusy d then 1 else 0.

Lemma device_chip : chip_24xx64 device_transfer dcells device_busy 2.
Proof.
  assert (forall a, a / 256 * 256 + a mod 256 = a) as Ha by (intros a; pose proof (Z.div_mod a 256); lia).
  split.
  - intros [c b] a n Hb Hn H0 Hc. unfold device_busy in *. simpl in *. destruct b; [done|]. unfold device_transfer. simpl.
    rewrite (proj2 (Z.gtb_lt _ _)) by lia. rewrite Ha. by eexists.
  - intros [c b] buf Hb. unfold device_busy in *. simpl in *. destruct b; [|done].
    eexists _, _. split; [reflexivity|]. simpl. split; [done|]. split; [lia|done].
  - intros [c b] a data Hb Hd H0 Hp Hc. unfold device_busy in *. simpl in *. destruct b; [done|].
    eexists. split; [reflexivity|]. simpl. by rewrite Ha.
  - intros [c []]; unfold device_busy; simpl; lia.
Qed.

Lemma eeprom_roundtrip_witness :
  exists s', mcp24xx64_write device_transfer 2 64 (replicate 40 7) (mk_device (fun _ => 255) true) = Ok STATUS_OK s' /\
    (forall x, dcells s' x = stored (fun _ => 255) 64 (replicate 40 7) x).
Proof.
  destruct (eeprom_roundtrip device_transfer dcells device_busy 2 (mk_device (fun _ => 255) true) 64 (replicate 40 7)) as (s' & E & H & _);
    [apply device_chip|unfold fits, kCapacity; rewrite length_replicate; do 3 (split; [lia|]); by left|by exists s'].
Defined.
