(* ===== verification/Config.v ===== *)
(** * Config: the configuration store

    [lib/config/config.c] over any EEPROM ([EepromApi]).  The configuration is the
    bytes of the packed [struct config_t]; with the CAN node configured it starts
    with [sn] and a [struct can_node_config], of which the defaults write
    [node_id], [speed] and [sensor_interval]. *)
From S2P Require Import Prelude Fw Eeprom Crc.

Section Config.
Context {W : Type} (config_eeprom : eeprom W).

(** [sizeof(struct config_t)] and whether [HAVE_CAN_NODE] is set. *)
Context (sizeof_config : nat) (have_can_node : bool).

(** What is logged: that reading failed, an invalid checksum with the expected one,
    the checksum written. *)
Inductive config_log := ReadFailed | Invalid (actual expected : Z) | Written (crc : Z).

Record store := mk_store { config : list Z; world : W; logged : list config_log }.

Definition on_eeprom {A} (c : M W A) : M store A := fun s =>
  match c (world s) with Ok a w => Ok a (mk_store (config s) w (logged s)) | Fault f => Fault f end.
Definition put_config (c : list Z) : M store unit := modify (fun s => mk_store c (world s) (logged s)).
Definition log (e : config_log) : M store unit := modify (fun s => mk_store (config s) (world s) (logged s ++ [e])).

(** A little-endian word at an offset of the configuration. *)
Definition put_bytes (off : nat) (bs c : list Z) : list Z := take off c ++ bs ++ drop (off + length bs) c.
Definition word_bytes (x : Z) : list Z := [bits x 0 8; bits x 8 8; bits x 16 8; bits x 24 8].

(** [memset(&conf->outputs, ...)] writes zeros to zeros here. *)
Definition can_node_config_defaults (c : list Z) : list Z :=
  put_bytes 12 (word_bytes 30) (put_bytes 8 (word_bytes 125000) (put_bytes 4 [0; 0] c)).

Definition default_config : list Z :=
  let zeros := replicate sizeof_config 0 in if have_can_node then can_node_config_defaults zeros else zeros.

Definition config_load_defaults : M store unit := put_config default_config.

(** [uninitialised] is what [crc_actual] holds when it cannot be read. *)
Definition config_load (uninitialised : Z) : M store unit :=
  let! r := on_eeprom (eeprom_read config_eeprom 0 (Z.of_nat sizeof_config)) in
  let (status, bs) := (r : Z * list Z) in
  let! c := gets config in
  run! put_config (bs ++ drop (length bs) c) in
  if negb (status =? STATUS_OK) then log ReadFailed
  else
    let! c := gets config in
    let crc_expected := crc8_maxim c in
    let! r := on_eeprom (eeprom_read config_eeprom (Z.of_nat sizeof_config) 1) in
    let crc_actual := match snd (r : Z * list Z) with [b] => b | _ => uninitialised end in
    if negb (crc_actual =? crc_expected) then
      run! log (Invalid crc_actual crc_expected) in config_load_defaults
    else ret tt.

Definition config_save : M store unit :=
  let! c := gets config in
  let! st := on_eeprom (eeprom_write config_eeprom 0 c) in
  let crc := crc8_maxim c in
  let! st := on_eeprom (eeprom_write config_eeprom (Z.of_nat sizeof_config) [crc]) in
  log (Written crc).
End Config.
Arguments mk_store {W}. Arguments config {W}. Arguments world {W}. Arguments logged {W}.
