(* ===== verification/ConfigSpec.v ===== *)
(** * ConfigSpec: the configuration survives, and damage is noticed *)
From S2P Require Import Prelude Fw Eeprom EepromSpec Crc Config.

Section Spec.
Context {W : Type} (ee : eeprom W) (cells : W -> Z -> Z) (ready : W -> Prop) (capacity : Z) (fits : Z -> Z -> Prop).
Context `{API : !EepromApi ee cells ready capacity fits}.
Context (n : nat) (have_can : bool) (Hn : (0 < n)%nat) (Hcap : Z.of_nat n + 1 <= capacity).

Lemma on_eeprom_run {A} (c : M W A) (s : store (W := W)) a w : c (world s) = Ok a w ->
  on_eeprom c s = Ok a (mk_store (config s) w (logged s)).
Proof. intros E. unfold on_eeprom. by rewrite E. Qed.

(** The image of a configuration in the EEPROM. *)
Definition image (c : list Z) : list Z := c ++ [crc8_maxim c].

Lemma save_run (s : store (W := W)) : length (config s) = n ->
  exists s', config_save ee n s = Ok tt s' /\ cells_at (cells (world s')) 0 (S n) = image (config s) /\
    config s' = config s /\ logged s' = logged s ++ [Written (crc8_maxim (config s))].
Proof.
  intros Hl. unfold config_save. rewrite (bind_ok _ _ s (config s) s) by done.
  destruct (api_write (world s) 0 (config s)) as (w1 & E1 & H1).
  { apply api_fits_start. rewrite Hl. lia. }
  rewrite (bind_ok _ _ _ _ _ (on_eeprom_run _ _ _ _ E1)). set (s1 := mk_store _ _ _).
  destruct (api_write (world s1) (Z.of_nat n) [crc8_maxim (config s)]) as (w2 & E2 & H2).
  { simpl. apply api_fits_one. lia. }
  rewrite (bind_ok _ _ _ _ _ (on_eeprom_run _ _ _ _ E2)). eexists. split; [reflexivity|]. split; [|done]. simpl.
  rewrite (cells_at_ext _ (stored (cells (world s)) 0 (image (config s)))).
  - replace (S n) with (length (image (config s))) by (unfold image; rewrite length_app; simpl; lia). apply cells_at_stored.
  - intros x _. rewrite H2. unfold image. rewrite <-stored_app. rewrite Hl. unfold stored at 1 2. simpl.
    destruct (decide _); [done|]. apply H1.
Qed.

Lemma config_load_run u (s : store (W := W)) : ready (world s) -> length (config s) = n ->
  exists s', config_load ee n have_can u s = Ok tt s' /\
    let c := cells_at (cells (world s)) 0 n in
    let crc := cells (world s) (Z.of_nat n) in
    if crc =? crc8_maxim c then config s' = c /\ logged s' = logged s
    else config s' = default_config n have_can /\ logged s' = logged s ++ [Invalid crc (crc8_maxim c)].
Proof.
  intros Hr Hl. unfold config_load.
  destruct (api_read (world s) 0 (Z.of_nat n) Hr) as (w1 & E1 & Hr1 & H1); [lia..|].
  rewrite (bind_ok _ _ _ _ _ (on_eeprom_run _ _ _ _ E1)). rewrite Nat2Z.id. set (c := cells_at (cells (world s)) 0 n).
  set (s1 := mk_store _ _ _). rewrite (bind_ok _ _ s1 (config s) s1) by done.
  assert (length c = n) as Hc by apply cells_at_length. rewrite Hc, (drop_ge (config s)), app_nil_r by lia.
  rewrite (bind_ok _ _ s1 tt (mk_store c w1 (logged s))) by done. set (s2 := mk_store c w1 (logged s)).
  change (STATUS_OK =? STATUS_OK) with true. cbn [negb]. rewrite (bind_ok _ _ s2 c s2) by done. cbv zeta.
  destruct (api_read (world s2) (Z.of_nat n) 1 Hr1) as (w3 & E3 & _ & H3); [lia..|].
  rewrite (bind_ok _ _ _ _ _ (on_eeprom_run _ _ _ _ E3)). cbn [snd]. change (Z.to_nat 1) with 1%nat.
  unfold cells_at at 1. simpl fmap. simpl seq. simpl. rewrite Z.add_0_r, H1.
  destruct (cells (world s) (Z.of_nat n) =? crc8_maxim c); simpl; eexists; (split; [reflexivity|done]).
Qed.

Lemma image_split w : cells_at (cells w) 0 (S n) = cells_at (cells w) 0 n ++ [cells w (Z.of_nat n)].
Proof. clear Hn Hcap. replace (S n) with (n + 1)%nat by lia. rewrite cells_at_app. f_equal. unfold cells_at. simpl. by rewrite Z.add_0_r. Qed.

Lemma image_crc c x : Forall is_byte c -> is_byte x -> crc8_maxim (c ++ [x]) = 0 <-> x = crc8_maxim c.
Proof.
  clear Hn Hcap. intros Hc Hx. unfold crc8_maxim. rewrite foldl_app. cbn [foldl]. apply zero_crc; [|done].
  apply crc_range; [unfold is_byte, in_u; lia|done].
Qed.
End Spec.

(** C19: A saved configuration is loaded again: after [config_save], on any EEPROM
    that keeps its promises, [config_load] restores the same bytes, whatever was
    in memory; and when the stored image - the configuration and its checksum -
    was damaged by a burst of up to 8 bits, the damage is noticed, logged, and the
    defaults are loaded instead.  The load finds the EEPROM ready, no longer busy
    with a write, and the configuration with its checksum fits the EEPROM. *)
Theorem config_survives {W : Type} (ee : eeprom W) cells ready capacity fits `{API : !EepromApi ee cells ready capacity fits}
    n have_can u (s : store (W := W)) :
  (0 < n)%nat -> Z.of_nat n + 1 <= capacity -> length (config s) = n -> Forall is_byte (config s) ->
  exists s', config_save ee n s = Ok tt s' /\
    (forall s2, ready (world s2) -> length (config s2) = n -> (forall x, cells (world s2) x = cells (world s') x) ->
     exists s3, config_load ee n have_can u s2 = Ok tt s3 /\ config s3 = config s /\ logged s3 = logged s2) /\
    (forall s2 before a1 a2 b1 b2 after, ready (world s2) -> length (config s2) = n ->
     cells_at (cells (world s')) 0 (S n) = before ++ [a1; a2] ++ after ->
     cells_at (cells (world s2)) 0 (S n) = before ++ [b1; b2] ++ after -> is_byte b1 -> is_byte b2 ->
     burst (Z.lxor a1 b1) (Z.lxor a2 b2) ->
     exists s3, config_load ee n have_can u s2 = Ok tt s3 /\ config s3 = default_config n have_can /\ logged s3 <> logged s2).
Proof.
  intros Hn Hcap Hl Hb. destruct (save_run ee cells ready capacity fits n Hn Hcap s Hl) as (s1 & E1 & Him & Hc1 & _).
  exists s1. split; [exact E1|]. assert (is_byte 0) as H0 by (unfold is_byte, in_u; lia).
  assert (is_byte (crc8_maxim (config s))) as Hcrc by (by apply crc_range). split.
  - intros s2 Hr2 Hl2 Hs2. destruct (config_load_run ee cells ready capacity fits n have_can Hn Hcap u s2 Hr2 Hl2) as (s3 & E3 & H3).
    exists s3. split; [exact E3|].
    assert (cells_at (cells (world s2)) 0 (S n) = image (config s)) as Him2 by (rewrite <-Him; apply cells_at_ext; intros x _; apply Hs2).
    rewrite image_split in Him2. unfold image in Him2. apply app_inj_2 in Him2 as [Ec Ex]; [|done]. injection Ex as Ex.
    cbv zeta in H3. rewrite Ec, Ex, Z.eqb_refl in H3. exact H3.
  - intros s2 before a1 a2 b1 b2 after Hr2 Hl2 Ea Eb Hb1 Hb2 Hburst.
    destruct (config_load_run ee cells ready capacity fits n have_can Hn Hcap u s2 Hr2 Hl2) as (s3 & E3 & H3). exists s3. split; [exact E3|].
    rewrite Him in Ea. assert (Forall is_byte (before ++ [a1; a2] ++ after)) as Hall.
    { rewrite <-Ea. apply Forall_app. split; [done|]. by apply Forall_singleton. }
    apply Forall_app in Hall as [Hbef Hall]. apply Forall_app in Hall as [Ha Haft]. apply Forall_cons in Ha as [Ha1 Ha]. apply Forall_cons in Ha as [Ha2 _].
    assert (crc8_maxim (before ++ [b1; b2] ++ after) <> 0) as Hne.
    { assert (crc8_maxim (before ++ [a1; a2] ++ after) = 0) as Hz.
      { rewrite <-Ea. by apply image_crc. }
      intros E. revert Hz. rewrite <-E. unfold crc8_maxim. rewrite !foldl_app. cbn [foldl].
      apply burst_differs; try done. by apply crc_range. }
    assert (Forall is_byte (cells_at (cells (world s2)) 0 n ++ [cells (world s2) (Z.of_nat n)])) as Hby.
    { rewrite <-image_split, Eb. apply Forall_app. split; [done|]. apply Forall_app. split; [|done]. by repeat (apply Forall_cons_2; [done|]). }
    apply Forall_app in Hby as [Hy1 Hy2]. apply Forall_cons in Hy2 as [Hy2 _].
    rewrite <-Eb, image_split in Hne. cbv zeta in H3. destruct (Z.eqb_spec (cells (world s2) (Z.of_nat n)) (crc8_maxim (cells_at (cells (world s2)) 0 n))) as [E|E].
    + exfalso. apply Hne. by apply image_crc.
    + destruct H3 as [-> ->]. split; [done|]. intros H. apply (f_equal length) in H. rewrite length_app in H. simpl in H. lia.
Qed.

(** ** Witness *)

(** Four bytes on the device of [EepromSpec]. *)
Lemma config_survives_witness :
  exists s', config_save (mcp24xx64_create device_transfer 2) 4
               (mk_store [1; 2; 3; 4] (mk_device (fun _ => 255) false) []) = Ok tt s' /\
    exists s3, config_load (mcp24xx64_create device_transfer 2) 4 false 0
                 (mk_store [0; 0; 0; 0] (mk_device (dcells (world s')) false) []) = Ok tt s3 /\ config s3 = [1; 2; 3; 4].
Proof.
  pose proof (mcp24xx64_api device_transfer dcells device_busy 2 device_chip) as API.
  destruct (config_survives (mcp24xx64_create device_transfer 2) dcells (fun d => device_busy d = O) kCapacity fits (API := API)
              4 false 0 (mk_store [1; 2; 3; 4] (mk_device (fun _ => 255) false) [])) as (s' & E & H & _);
    [lia|unfold kCapacity; lia|done|repeat (apply Forall_cons; split; [unfold is_byte, in_u; lia|]); by apply Forall_nil|].
  exists s'. split; [exact E|].
  destruct (H (mk_store [0; 0; 0; 0] (mk_device (dcells (world s')) false) [])) as (s3 & E3 & Hc & _); [done..|].
  by exists s3.
Defined.
