(* ===== verification/Console.v ===== *)
(** * Console: commands

    [lib/console/console.c].  One round of the loop of [console_main] is
    [console_round]; the commands, which the linker collects, are given with
    their names and what they do; [buf] is where the buffer lies on the stack.
    [console_spawn] is in [Spawn]. *)
From S2P Require Import Prelude Fw File CString Printf.

(** [for (; *buf == ' '; ++buf);] and [for (; *buf != '\0' && *buf != ' '; ++buf);] *)
Fixpoint skip_spaces (fuel : nat) (buf : Z) : M bytes Z :=
  match fuel with
  | O => fail Diverges
  | S fuel => let! c := get_byte buf in if c =? 32 then skip_spaces fuel (buf + 1) else ret buf
  end.

Fixpoint skip_word (fuel : nat) (buf : Z) : M bytes Z :=
  match fuel with
  | O => fail Diverges
  | S fuel =>
      let! c := get_byte buf in
      if truth c && negb (c =? 32) then skip_word fuel (buf + 1) else ret buf
  end.

(** The arguments found, in order.  [store] says that [_argv] is not NULL. *)
Fixpoint parse_loop (fuel : nat) (store : bool) (buf : Z) : M bytes (list Z) :=
  match fuel with
  | O => fail Diverges
  | S fuel =>
      let! c := get_byte buf in
      if truth c then
        let! size := fuel_mem in
        let! buf := skip_spaces size buf in
        let! c := get_byte buf in
        if negb (truth c) then ret []
        else
          let arg := buf in
          let! buf := skip_word size buf in
          let! c := get_byte buf in
          if negb (truth c) then ret [arg]
          else
            run! (if store then put_byte buf 0 else ret tt) in
            let! args := parse_loop fuel store (buf + 1) in
            ret (arg :: args)
      else ret []
  end.

Definition console_parse_command (buf : Z) (store : bool) : M bytes (list Z) :=
  let! fuel := fuel_mem in parse_loop fuel store buf.

(** [struct console_cmd]: the address of its name, and its function on [argc] and
    [argv]. *)
Record console_cmd (F : Type) := mk_cmd { cmd_name : Z; cmd_func : Z -> list Z -> M (CString.io (F := F)) Z }.
Arguments mk_cmd {F}. Arguments cmd_name {F}. Arguments cmd_func {F}.

Section Console.
Context {F : Type} (ops : file_operations F).
Abbreviation io := (CString.io (F := F)).

(** The loop over [console_cmds_begin] to [console_cmds_end]. *)
Fixpoint find_cmd (cmds : list (console_cmd F)) (name : Z) : M bytes (option (console_cmd F)) :=
  match cmds with
  | [] => ret None
  | c :: cmds => let! r := strcmp (cmd_name c) name in if r =? 0 then ret (Some c) else find_cmd cmds name
  end.

(** The string constants: "error reading", "command not found" and "command exited
    with %d", each with its line end. *)
Context (error_reading not_found exited : Z) (cmds : list (console_cmd F)).

Definition console_round (rounds : nat) (buf : Z) : M io unit :=
  run! file_write ops [62; 32] in
  let! r := readline ops rounds buf 60 in
  if r <? 0 then run! fprintf ops error_reading [] in ret tt
  else
    let! args := on_bytes (console_parse_command buf false) in
    if Z.of_nat (length args) =? 0 then ret tt
    else
      let! argv := on_bytes (console_parse_command buf true) in
      let! cmd := on_bytes (find_cmd cmds (hd 0 argv)) in
      match cmd with
      | None => run! fprintf ops not_found [] in ret tt
      | Some c =>
          let! r := cmd_func c (Z.of_nat (length args)) argv in
          if negb (r =? 0) then run! fprintf ops exited [u32 r] in ret tt else ret tt
      end.

(** [console_help_cmd]: the names of all commands, each through "%s\r\n". *)
Context (header_format name_format : Z).
Fixpoint help_loop (cmds : list (console_cmd F)) : M io unit :=
  match cmds with
  | [] => ret tt
  | c :: cmds => run! fprintf ops name_format [cmd_name c] in help_loop cmds
  end.

Definition console_help_cmd (argc : Z) (argv : list Z) : M io Z :=
  run! fprintf ops header_format [] in run! help_loop cmds in ret 0.
End Console.
