(* ===== verification/ConsoleSpec.v ===== *)
(** * ConsoleSpec: from the keys to the command *)
From S2P Require Import Prelude Fw File CString CStringSpec ReadlineSpec Printf PrintfSpec Console.

(** ** Words *)

(** The words of a line at [p], with their addresses; [cur] is one begun. *)
Fixpoint words_from (p : Z) (s : list Z) (cur : option (Z * list Z)) : list (Z * list Z) :=
  match s with
  | [] => match cur with Some w => [w] | None => [] end
  | c :: s' =>
      if c =? 32 then match cur with Some w => w :: words_from (p + 1) s' None | None => words_from (p + 1) s' None end
      else words_from (p + 1) s' (Some (match cur with Some (a, w) => (a, w ++ [c]) | None => (p, [c]) end))
  end.

Definition words (p : Z) (s : list Z) : list (Z * list Z) := words_from p s None.

Definition spaces (k : nat) : list Z := replicate k 32.
Definition no_space (w : list Z) : Prop := Forall (fun c => c <> 32) w.

Lemma words_spaces k p s : words p (spaces k ++ s) = words (p + Z.of_nat k) s.
Proof.
  revert p. induction k as [|k IH]; intros p; simpl; [by rewrite Z.add_0_r|]. unfold words in *. simpl. rewrite IH. f_equal. lia.
Qed.

Lemma words_word w p a w0 rest : no_space w ->
  words_from p (w ++ rest) (Some (a, w0)) = words_from (p + Z.of_nat (length w)) rest (Some (a, w0 ++ w)).
Proof.
  intros Hw. induction Hw as [|c w Hc Hw IH] in p, w0 |- *; simpl; [by rewrite Z.add_0_r, app_nil_r|].
  rewrite (proj2 (Z.eqb_neq _ _) Hc), IH, <-app_assoc. simpl. f_equal. lia.
Qed.

Lemma words_first c w p rest : no_space (c :: w) -> (rest = [] \/ exists r, rest = 32 :: r) ->
  words p ((c :: w) ++ rest) = (p, c :: w) :: words (p + Z.of_nat (length (c :: w)) + 1) (tail rest).
Proof.
  intros Hw Hr. apply Forall_cons in Hw as [Hc Hw]. unfold words. simpl. rewrite (proj2 (Z.eqb_neq _ _) Hc), words_word by done.
  destruct Hr as [->|[r ->] ]; simpl; [done|]. do 2 f_equal. lia.
Qed.

Lemma words_short p s cur :
  Forall (fun w => length w.2 <= length s + match cur with Some w => length w.2 | None => 0 end)%nat (words_from p s cur).
Proof.
  revert p cur. induction s as [|c s IH]; intros p cur; simpl; [destruct cur; by repeat constructor|].
  destruct (c =? 32).
  - pose proof (IH (p + 1) None) as H.
    destruct cur as [w|]; [apply Forall_cons; split; [lia|]|]; (eapply Forall_impl; [exact H|intros x; simpl; lia]).
  - set (cur' := Some _). pose proof (IH (p + 1) cur') as H. eapply Forall_impl; [exact H|]. unfold cur'.
    destruct cur as [ [a w] |]; intros x; simpl; rewrite ?length_app; simpl; lia.
Qed.

(** A line is spaces, a word, and what follows. *)
Lemma line_split s : exists k w rest, s = spaces k ++ w ++ rest /\ no_space w /\
  (rest = [] \/ exists r, rest = 32 :: r) /\ (w = [] -> rest = []).
Proof.
  induction s as [|c s (k & w & rest & E & Hw & Hr & Hn)].
  - exists O, [], []. repeat split; [by apply Forall_nil|by left].
  - destruct (decide (c = 32)) as [->|Hc].
    + exists (S k), w, rest. by rewrite E.
    + destruct k as [|k].
      * exists O, (c :: w), rest. rewrite E. split; [done|]. split; [by apply Forall_cons|]. done.
      * exists O, [c], s. split; [done|]. split; [by repeat constructor|]. split; [right; by exists (spaces k ++ w ++ rest); rewrite E|done].
Qed.

Lemma skip_spaces_run m p k t fuel : cstr m p (spaces k ++ t) -> hd_or 0 t <> 32 -> (k < fuel)%nat ->
  skip_spaces fuel p m = Ok (p + Z.of_nat k) m.
Proof.
  revert p fuel. induction k as [|k IH]; intros p fuel Hs Ht Hf; (destruct fuel as [|fuel]; [lia|]); cbn [skip_spaces].
  - pose proof (cstr_head _ _ _ Hs) as E. step_get E. cbn [spaces replicate app] in *. rewrite (proj2 (Z.eqb_neq _ _) Ht).
    by rewrite Z.add_0_r.
  - pose proof (cstr_head _ _ _ Hs) as E. step_get E. cbn [hd_or spaces replicate app]. change (32 =? 32) with true. cbv iota.
    pose proof (cstr_drop _ _ _ 1 Hs ltac:(simpl; lia)) as Hs'. rewrite IH; [f_equal; lia|exact Hs'|done|lia].
Qed.

Lemma skip_word_run m p w rest fuel : cstr m p (w ++ rest) -> no_space w -> (rest = [] \/ exists r, rest = 32 :: r) ->
  (length w < fuel)%nat -> skip_word fuel p m = Ok (p + Z.of_nat (length w)) m.
Proof.
  revert p fuel. induction w as [|c w IH]; intros p fuel Hs Hw Hr Hf; (destruct fuel as [|fuel]; [lia|]); cbn [skip_word];
    pose proof (cstr_head _ _ _ Hs) as E; step_get E; cbn [app hd_or] in *.
  - simpl. rewrite Z.add_0_r. by destruct Hr as [->|[r ->] ].
  - apply Forall_cons in Hw as [Hc Hw]. destruct Hs as [Hch Hh]. apply Forall_cons in Hch as [Hc0 Hch].
    rewrite (truth_char _ Hc0), (proj2 (Z.eqb_neq _ _) Hc). cbn [andb negb].
    rewrite IH; [f_equal; simpl; lia|split; [done|by destruct Hh]|done|done|simpl in Hf; lia].
Qed.

Lemma cstr_outside m m' p s : (forall a, p <= a <= p + Z.of_nat (length s) -> m' !! a = m !! a) -> cstr m p s -> cstr m' p s.
Proof.
  intros H [Hs Hh]. split; [done|]. eapply holds_ext; [|exact Hh]. intros a Ha. rewrite length_app in Ha. simpl in Ha. apply H. lia.
Qed.

Lemma cstr_size m p s : cstr m p s -> (length s < size m)%nat.
Proof. intros [_ H]. apply holds_fuel in H. rewrite length_app in H. simpl in H. lia. Qed.

Lemma parse_loop_run fuel store m p s : cstr m p s -> (length s < fuel)%nat ->
  exists m', parse_loop fuel store p m = Ok (fst <$> words p s) m' /\ (store = false -> m' = m) /\
    (store = true -> Forall (fun w => cstr m' w.1 w.2) (words p s)) /\
    (forall a, ~ (p <= a < p + Z.of_nat (length s)) -> m' !! a = m !! a).
Proof.
  revert m p s. induction fuel as [|fuel IH]; intros m p s Hs Hf; [lia|]. cbn [parse_loop].
  pose proof (cstr_head _ _ _ Hs) as E. step_get E. destruct s as [|c s].
  { exists m. split; [done|]. split; [done|]. split; [by intros _; apply Forall_nil|done]. }
  cbn [hd_or]. destruct Hs as [Hch Hh]. pose proof (proj1 (Forall_cons _ _ _) Hch) as [Hc _]. rewrite (truth_char _ Hc).
  assert (cstr m p (c :: s)) as Hs by done. pose proof (cstr_size _ _ _ Hs) as Hsz.
  unfold fuel_mem. rewrite (bind_ok _ _ m (S (size m)) m) by done.
  destruct (line_split (c :: s)) as (k & w & rest & Es & Hw & Hr & Hn). rewrite Es in *. clear Es c s E Hc Hch Hh.
  assert (hd_or 0 (w ++ rest) <> 32) as Hhd.
  { destruct w as [|x w]; [by rewrite (Hn eq_refl)|]. by apply Forall_cons in Hw as [Hx _]. }
  rewrite !length_app in Hsz, Hf. unfold spaces in Hsz, Hf. rewrite length_replicate in Hsz, Hf. fold (spaces k) in *.
  rewrite (bind_ok _ _ _ _ _ (skip_spaces_run m p k _ (S (size m)) Hs Hhd ltac:(lia))).
  assert (cstr m (p + Z.of_nat k) (w ++ rest)) as Hs1.
  { pose proof (cstr_drop _ _ _ k Hs) as H. unfold spaces in H. rewrite length_app, length_replicate, drop_app_length' in H by (by rewrite length_replicate).
    apply H. lia. }
  rewrite words_spaces. set (q := p + Z.of_nat k) in *. pose proof (cstr_head _ _ _ Hs1) as E1. step_get E1.
  assert (forall a, ~ (p <= a < p + Z.of_nat (length (spaces k ++ w ++ rest))) -> ~ (q <= a < q + Z.of_nat (length (w ++ rest)))) as Hout.
  { intros a. rewrite length_app. unfold spaces. rewrite length_replicate. unfold q. lia. }
  destruct w as [|x w].
  { rewrite (Hn eq_refl). exists m. split; [done|]. split; [done|]. split; [by intros _; apply Forall_nil|done]. }
  cbn [app hd_or]. pose proof Hs1 as [Hch1 _]. apply Forall_cons in Hch1 as [Hx _]. rewrite (truth_char _ Hx). cbn [negb].
  cbv zeta. change (x :: w ++ rest) with ((x :: w) ++ rest) in *.
  rewrite (bind_ok _ _ _ _ _ (skip_word_run m q (x :: w) rest (S (size m)) Hs1 Hw Hr ltac:(lia))).
  pose proof (cstr_drop _ _ _ (length (x :: w)) Hs1 ltac:(rewrite length_app; lia)) as Hs2. rewrite drop_app_length in Hs2.
  set (e := q + Z.of_nat (length (x :: w))) in *. pose proof (cstr_head _ _ _ Hs2) as E2. step_get E2.
  rewrite (words_first x w q rest Hw Hr). fold e. destruct Hr as [->|[r ->] ].
  - cbn [hd_or]. change (truth 0) with false. cbn [negb]. exists m. split; [done|]. split; [done|]. rewrite app_nil_r in Hs1.
    split; [intros _; by apply Forall_singleton|done].
  - cbn [hd_or]. change (truth 32) with true. cbn [negb tail].
    set (m1 := if store then <[e := 0]> m else m).
    rewrite (bind_ok _ _ m tt m1) by (unfold m1; destruct store; [by apply put_run; rewrite E2|done]).
    assert (cstr m (e + 1) r) as Hs3 by (apply (cstr_drop _ _ _ 1) in Hs2; [exact Hs2|simpl; lia]).
    assert (cstr m1 (e + 1) r) as Hs4 by (unfold m1; destruct store; [apply cstr_insert; [done|lia]|done]).
    destruct (IH m1 (e + 1) r Hs4) as (m2 & E4 & Hf4 & Ht4 & Ho4).
    { clear -Hf. simpl in Hf. rewrite ?length_app in Hf. simpl in Hf. lia. }
    rewrite (bind_ok _ _ _ _ _ E4). exists m2. split; [done|]. split; [|split].
    + intros ->. by rewrite Hf4.
    + intros ->. apply Forall_cons. split; [|by apply Ht4]. simpl fst. simpl snd.
      destruct (cstr_cut m q ((x :: w) ++ 32 :: r) (length (x :: w)) Hs1) as [Hcut _]; [rewrite length_app; simpl; lia|].
      rewrite take_app_length in Hcut. eapply cstr_outside; [|exact Hcut]. intros a Ha. rewrite Ho4 by (unfold e; lia). done.
    + intros a Ha. apply Hout in Ha. rewrite length_app in Ha. rewrite Ho4 by (simpl in *; unfold e; simpl; lia).
      unfold m1. destruct store; [|done]. apply lookup_insert_ne. unfold e. simpl in *. lia.
Qed.

Lemma parse_run store m p s : cstr m p s ->
  exists m', console_parse_command p store m = Ok (fst <$> words p s) m' /\ (store = false -> m' = m) /\
    (store = true -> Forall (fun w => cstr m' w.1 w.2) (words p s)) /\
    (forall a, ~ (p <= a < p + Z.of_nat (length s)) -> m' !! a = m !! a).
Proof.
  intros Hs. unfold console_parse_command, fuel_mem. rewrite (bind_ok _ _ m (S (size m)) m) by done.
  apply parse_loop_run; [done|]. pose proof (cstr_size _ _ _ Hs). lia.
Qed.

Section Console.
Context {F : Type} (ops : file_operations F) (input log : F -> list Z).
Abbreviation io := (CString.io (F := F)).

(** The first command with a name. *)
Definition find_named (w : list Z) (cs : list (console_cmd F * list Z)) : option (console_cmd F) :=
  match list_find (fun c => c.2 = w) cs with Some (_, c) => Some c.1 | None => None end.

(** A string constant, outside the buffer of the console. *)
Definition constant (m : bytes) (buf p : Z) (s : list Z) : Prop :=
  cstr m p s /\ Z.of_nat (length s) < 2 ^ 32 /\ (buf + 60 < p \/ p + Z.of_nat (length s) < buf).

Lemma constant_kept m m' buf p s : (forall a, ~ (buf <= a <= buf + 60) -> m' !! a = m !! a) ->
  constant m buf p s -> constant m' buf p s.
Proof. intros H (Hs & Hl & Ha). split; [|done]. eapply cstr_outside; [|exact Hs]. intros a Hin. apply H. lia. Qed.

Lemma find_cmd_run m cs a w : Forall (fun c => cstr m (cmd_name c.1) c.2 /\ Z.of_nat (length c.2) < 2 ^ 32) cs ->
  cstr m a w -> Z.of_nat (length w) < 2 ^ 32 -> find_cmd (fst <$> cs) a m = Ok (find_named w cs) m.
Proof.
  intros Hc Hw Hl. induction Hc as [|[c n] cs [Hn Hln] Hc IH]; [done|]. cbn [fmap list_fmap fst find_cmd].
  rewrite (bind_ok _ _ _ _ _ (strcmp_run _ _ _ _ _ Hn Hw Hln Hl)). unfold find_named in *. cbn [list_find snd].
  destruct (Z.eqb_spec (lex n w) 0) as [E|E].
  - apply lex_eq in E. by rewrite decide_True.
  - rewrite decide_False by (by intros ?%lex_eq). rewrite IH. by destruct (list_find _ cs) as [[i x]|].
Qed.

Lemma on_bytes_run {A} (c : M bytes A) (s : io) a m : c (iomem s) = Ok a m -> on_bytes c s = Ok a (mk_io m (iofile s)).
Proof. intros E. unfold on_bytes. by rewrite E. Qed.

Lemma plain_pieces_text t : flat_map piece_text (Plain <$> t) = t.
Proof. induction t as [|c t IH]; [done|]. cbn. by f_equal. Qed.
Lemma plain_pieces_rendered t : flat_map rendered (Plain <$> t) = t.
Proof. induction t as [|c t IH]; [done|]. cbn. by f_equal. Qed.
Lemma plain_pieces_args t : flat_map piece_args (Plain <$> t) = [].
Proof. induction t as [|c t IH]; [done|]. cbn. by f_equal. Qed.

(** A constant without directives is written as it is. *)
Lemma print_constant (s : io) p t : accepts ops log -> cstr (iomem s) p t -> Forall (fun c => c <> 37) t -> p <> NULL ->
  exists r s', fprintf ops p [] s = Ok r s' /\ wrote log t s s'.
Proof.
  intros Hacc [Hc Hh] Ht Hp. destruct (fprintf_run ops log Hacc s p (Plain <$> t) []) as (s' & E & W); [done| | |].
  - apply Forall_fmap. rewrite Forall_forall in *. intros c Hin. simpl. split; [by apply Hc|by apply Ht].
  - by rewrite plain_pieces_text.
  - rewrite plain_pieces_args, plain_pieces_rendered in *. by eexists _, s'.
Qed.

(** *** A round *)

(** [readline] has left [text] in the buffer: what the round does with it. *)
Definition runs_line (round : M io unit) (s : io) (exited : Z) (cs : list (console_cmd F * list Z)) (buf : Z) (nf_text shown rest text : list Z) : Prop :=
  match words buf text with
  | [] => exists s', round s = Ok tt s' /\ log (iofile s') = shown /\ input (iofile s') = rest
  | (_, w) :: _ =>
      match find_named w cs with
      | Some c =>
          exists s1, Forall (fun w => cstr (iomem s1) w.1 w.2) (words buf text) /\ log (iofile s1) = shown /\ input (iofile s1) = rest /\
            round s = (let! r := cmd_func c (Z.of_nat (length (words buf text))) (fst <$> words buf text) in
                       if negb (r =? 0) then run! fprintf ops exited [u32 r] in ret tt else ret tt) s1
      | None => exists s', round s = Ok tt s' /\ log (iofile s') = shown ++ nf_text
      end
  end.

Lemma round_run (s s0 s1 : io) error_reading not_found exited cs nf_text buf r0 r text rounds :
  accepts ops log -> Forall (fun c => constant (iomem s) buf (cmd_name c.1) c.2) cs ->
  constant (iomem s) buf not_found nf_text -> Forall (fun c => c <> 37) nf_text -> not_found <> NULL ->
  file_write ops [62; 32] s = Ok r0 s0 -> readline ops rounds buf 60 s0 = Ok r s1 -> 0 <= r ->
  cstr (iomem s1) buf text -> Z.of_nat (length text) <= 59 -> (forall a, ~ (buf <= a <= buf + 60) -> iomem s1 !! a = iomem s !! a) ->
  runs_line (console_round ops error_reading not_found exited (fst <$> cs) rounds buf) s exited cs buf nf_text (log (iofile s1)) (input (iofile s1)) text.
Proof.
  intros Hacc Hcs Hnf Hnt Hn0 E0 E1 Hr Hs1 Hlen Hf1. unfold runs_line.
  destruct (parse_run false _ _ _ Hs1) as (m2 & E2 & Hm2 & _). specialize (Hm2 eq_refl). subst m2.
  destruct (parse_run true _ _ _ Hs1) as (m3 & E3 & _ & Ht3 & Hf3). specialize (Ht3 eq_refl). set (ws := words buf text) in *.
  set (s3 := mk_io m3 (iofile s1)).
  assert (forall a, ~ (buf <= a <= buf + 60) -> m3 !! a = iomem s !! a) as Hkept by (intros a Ha; rewrite Hf3 by lia; by apply Hf1).
  assert (forall A (k : list Z -> M _ A), bind (on_bytes (console_parse_command buf false)) k s1 = k (fst <$> ws) s1) as Estep.
  { intros A k. rewrite (bind_ok _ _ _ _ _ (on_bytes_run _ s1 _ _ E2)). by destruct s1. }
  unfold console_round. rewrite (bind_ok _ _ _ _ _ E0), (bind_ok _ _ _ _ _ E1).
  rewrite (proj2 (Z.ltb_ge r 0)) by lia. rewrite Estep, length_fmap.
  destruct ws as [|[a w] ws'] eqn:Ews; [by exists s1|].
  cbn [length]. rewrite (proj2 (Z.eqb_neq (Z.of_nat (S (length ws'))) 0)) by lia.
  rewrite (bind_ok _ _ _ _ _ (on_bytes_run _ s1 _ _ E3)). fold s3. cbn [fmap list_fmap fst hd].
  pose proof (proj1 (Forall_cons _ _ _) Ht3) as [Hw _]. simpl in Hw.
  assert (Z.of_nat (length w) < 2 ^ 32) as Hlw.
  { pose proof (words_short buf text None) as H. fold (words buf text) in H. fold ws in H. rewrite Ews in H.
    apply Forall_cons in H as [H _]. simpl in H. lia. }
  assert (find_cmd (fst <$> cs) a m3 = Ok (find_named w cs) m3) as E4.
  { apply find_cmd_run; [|done|done]. eapply Forall_impl; [exact Hcs|]. intros c Hc.
    apply (constant_kept _ m3 _ _ _ Hkept) in Hc as (Hc & Hlc & _). done. }
  rewrite (bind_ok _ _ _ _ _ (on_bytes_run _ s3 _ _ E4)). destruct (find_named w cs) as [c|].
  - exists s3. done.
  - destruct (print_constant s3 not_found nf_text Hacc) as (r5 & s5 & E5 & _ & Hl5); [|done|done|].
    + by apply (constant_kept _ m3 _ _ _ Hkept) in Hnf as (Hnf & _).
    + exists s5. rewrite (bind_ok _ _ _ _ _ E5). by split.
Qed.
End Console.

(** C15: What is typed is what runs.  Let the byte behind the [buf] of 60 be writable
    too ([readline] may store to it).  One round of the console prompts, reads keys -
    characters, backspaces, escape sequences, whose lines stay below 59 characters - up
    to a carriage return or line feed, and cuts the edited line into its words at the
    spaces.  An empty line does nothing; the command whose name is the first word -
    exactly, and the first such - is called with the number of words and their addresses,
    where each word is a string of its own; when there is none the console says so.  The
    screen has the prompt, the echo of the keys and the message.  Ctrl-C ends the line
    too, but not its text: [readline] stores no terminator and returns 0, so what runs is
    the line with whatever string [buf] held behind it (stated where no line in between
    was longer); Ctrl-C alone runs what [buf] holds. *)
Theorem console_runs_typed {F : Type} (ops : file_operations F) input log (s : CString.io (F := F))
    error_reading not_found exited cs nf_text buf ks rest rounds :
  interactive ops input log -> accepts ops log -> there (iomem s) buf 61 -> Forall wf_key ks ->
  (length (flat_map key_bytes ks) < rounds)%nat ->
  Forall (fun c => constant (iomem s) buf (cmd_name c.1) c.2) cs ->
  constant (iomem s) buf not_found nf_text -> Forall (fun c => c <> 37) nf_text -> not_found <> NULL ->
  let line := foldl edit [] ks in let n := Z.of_nat (length line) in Forall is_char line ->
  let shown := log (iofile s) ++ [62; 32] ++ echoes [] ks ++ CRLF in
  let runs := runs_line ops input log (console_round ops error_reading not_found exited (fst <$> cs) rounds buf) s exited cs buf nf_text shown rest in
  (forall nl, nl = 13 \/ nl = 10 -> input (iofile s) = flat_map key_bytes ks ++ nl :: rest -> fits 59 [] ks -> runs line) /\
  (forall stale, input (iofile s) = flat_map key_bytes ks ++ 3 :: rest -> fits (n + 1) [] ks -> cstr (iomem s) (buf + n) stale ->
     n + Z.of_nat (length stale) < 59 -> runs (line ++ stale)).
Proof.
  intros Hint Hacc Hth Hk Hr Hcs Hnf Hnt Hn0 line n Hline shown runs.
  assert (forall tl, input (iofile s) = tl -> exists r0 s0, file_write ops [62; 32] s = Ok r0 s0 /\ iomem s0 = iomem s /\
            input (iofile s0) = tl /\ log (iofile s0) = log (iofile s) ++ [62; 32]) as Hprompt.
  { intros tl Hin. destruct (write_run ops input log Hint s [62; 32] _ _ _ (conj eq_refl (conj Hin eq_refl))) as (r0 & s0 & E0 & H). by exists r0, s0. }
  split.
  - intros nl Hnl Hin Hfit. destruct (Hprompt _ Hin) as (r0 & s0 & E0 & Hm0 & Hi0 & Hl0).
    destruct (readline_run ops input log s0 buf 60 ks nl rest rounds Hint) as (s1 & E1 & Hh1 & Hi1 & Hl1 & Hf1 & Hz1);
      [lia|by rewrite Hm0|done|done|done|by rewrite Hi0|done|]. fold line n in E1, Hh1, Hf1, Hz1.
    assert (n < 59) as Hlen.
    { clear -Hfit. unfold n, line. revert Hfit. generalize (@nil Z). induction ks as [|k ks IH]; intros l H; [by apply fits_here in H|].
      apply IH. by apply fits_next in H. }
    assert (log (iofile s1) = shown) as Hshown by (rewrite Hl1, Hl0; unfold shown; by rewrite <-!app_assoc).
    unfold runs. rewrite <-Hshown, <-Hi1. eapply round_run; try done; [lia|fold n; lia|].
    intros a Ha. rewrite Hf1 by lia. by rewrite Hm0.
  - intros stale Hin Hfit Hst Hlen. destruct (Hprompt _ Hin) as (r0 & s0 & E0 & Hm0 & Hi0 & Hl0).
    destruct (readline_interrupted ops input log s0 buf 60 ks rest rounds Hint) as (s1 & E1 & Hh1 & Hi1 & Hl1 & Hf1);
      [lia|by rewrite Hm0|done|done|fold line n; lia|by rewrite Hi0|done|]. fold line n in Hh1, Hf1.
    assert (log (iofile s1) = shown) as Hshown by (rewrite Hl1, Hl0; unfold shown; by rewrite <-!app_assoc).
    assert (cstr (iomem s1) (buf + n) stale) as Hst1 by (eapply cstr_outside; [|exact Hst]; intros a Ha; rewrite Hf1 by lia; by rewrite Hm0).
    unfold runs. rewrite <-Hshown, <-Hi1. eapply round_run; try done.
    + destruct Hst1 as [Hc1 Hh2]. split; [by apply Forall_app|]. rewrite <-app_assoc. apply holds_app. by split.
    + rewrite length_app. lia.
    + intros a Ha. rewrite Hf1 by lia. by rewrite Hm0.
Qed.

(** ** Witness *)

(** The names "help" and "ls", the message and the buffer at 100. *)
Definition console_memory : bytes :=
  poke 10 [104; 101; 108; 112; 0] (poke 20 [108; 115; 0] (poke 30 [110; 111; 0] (poke 100 (replicate 61 0) empty))).
Definition ls_command : console_cmd terminal := mk_cmd 20 (fun argc argv => ret argc).
Definition console_commands : list (console_cmd terminal * list Z) :=
  [(mk_cmd 10 (fun _ _ => ret 0), [104; 101; 108; 112]); (ls_command, [108; 115])].
(** "lx", backspace, "s -a", return. *)
Definition console_keys : list key := [Typed 108; Typed 120; Erase 127; Typed 115; Typed 32; Typed 45; Typed 97].

(** The buffer still holds "ls". *)
Definition console_left : bytes := poke 100 [108; 115; 0] console_memory.

Lemma console_runs_typed_witness :
  let round := console_round term_ops 40 30 50 (fst <$> console_commands) 20 100 in
  let after argc argv := let! r := cmd_func ls_command argc argv in if negb (r =? 0) then run! fprintf term_ops 50 [u32 r] in ret tt else ret tt in
  (exists s1, Forall (fun w => cstr (iomem s1) w.1 w.2) [(100, [108; 115]); (103, [45; 97])] /\
    round (mk_io console_memory (mk_term (flat_map key_bytes console_keys ++ [13]) [])) = after 2 [100; 103] s1) /\
  exists s1, Forall (fun w => cstr (iomem s1) w.1 w.2) [(100, [108; 115])] /\ round (mk_io console_left (mk_term [3] [])) = after 1 [100] s1.
Proof.
  intros round after.
  assert (Forall (fun c => c <> 37) [110; 111]) as Htext by (repeat (apply Forall_cons; split; [lia|]); by apply Forall_nil).
  split.
  - destruct (console_runs_typed term_ops keys screen (mk_io console_memory (mk_term (flat_map key_bytes console_keys ++ [13]) []))
                40 30 50 console_commands [110; 111] 100 console_keys [] 20) as [H _];
      [apply term_interactive|apply term_accepts|apply there_dec; [lia|vm_compute; reflexivity]| |simpl; lia| | |exact Htext|done| |].
    + repeat (apply Forall_cons; split; [first [by left|unfold wf_key, control; rewrite !not_elem_of_cons; repeat split; (lia || by apply not_elem_of_nil)]|]).
      by apply Forall_nil.
    + repeat (apply Forall_cons; split; [split; [concrete_cstr|simpl; lia]|]). by apply Forall_nil.
    + split; [concrete_cstr|simpl; lia].
    + simpl. repeat (apply Forall_cons; split; [unfold is_char; lia|]). by apply Forall_nil.
    + destruct (H 13 ltac:(by left) eq_refl ltac:(simpl; lia)) as (s1 & H1 & _ & _ & H2). exists s1. split; [exact H1|exact H2].
  - destruct (console_runs_typed term_ops keys screen (mk_io console_left (mk_term [3] [])) 40 30 50 console_commands [110; 111] 100 [] [] 20) as [_ H];
      [apply term_interactive|apply term_accepts|apply there_dec; [lia|vm_compute; reflexivity]|by apply Forall_nil|simpl; lia| | |exact Htext|done|by apply Forall_nil|].
    + repeat (apply Forall_cons; split; [split; [concrete_cstr|simpl; lia]|]). by apply Forall_nil.
    + split; [concrete_cstr|simpl; lia].
    + destruct (H [108; 115] eq_refl ltac:(simpl; lia) ltac:(concrete_cstr) ltac:(simpl; lia)) as (s1 & H1 & _ & _ & H2). exists s1. split; [exact H1|exact H2].
Defined.
