(* ===== verification/Sensor.v ===== *)
(** * Sensor: the registry of sensors

    [lib/sensor/sensor.c] over the list interface; the drivers are in [Sht2x].  The
    list entry is the first member of a [struct sensor], so the address of a sensor
    is the address of its entry. *)
From S2P Require Import Prelude ListApi DList Fw Eeprom.

Definition STATUS_NOT_SUPPORTED : Z := STATUS_ERR 1.

Definition SENSOR_CAPABILITY_TEMP : Z := Z.shiftl 1 0.
Definition SENSOR_CAPABILITY_HUMIDITY : Z := Z.shiftl 1 1.
Definition SENSOR_CAPABILITY_VOLTAGE : Z := Z.shiftl 1 2.

(** [struct sensor_ops]: a measurement gives a status and what it stored to
    [*result]. *)
Record sensor_ops (W : Type) := mk_ops {
  get_capabilities : option (Z -> M W Z);
  get_temp : option (Z -> M W (Z * option Z));
  get_humidity : option (Z -> M W (Z * option Z));
  get_voltage : option (Z -> M W (Z * option Z)) }.
Arguments mk_ops {W}. Arguments get_capabilities {W}. Arguments get_temp {W}.
Arguments get_humidity {W}. Arguments get_voltage {W}.

Section Sensor.
Context {S L W : Type} `{LA : ListApi S L}.

(** The list of the registered sensors and what their [ops] point to. *)
Record sensors := mk_sensors { s_list : L; s_entries : S; s_ops : gmap Z (sensor_ops W) }.

Context {St : Type} (registry : St -> sensors) (put_registry : sensors -> St -> St) (world : St -> W) (put_world : W -> St -> St).

Definition on_world {A} (c : M W A) : M St A := fun s =>
  match c (world s) with Ok a w => Ok a (put_world w s) | Fault f => Fault f end.
Definition get_ops (sensor : Z) : M St (sensor_ops W) := deref (fun s => s_ops (registry s) !! sensor).

Definition sensor_get_capabilities (sensor : Z) : M St Z :=
  let! o := get_ops sensor in
  match get_capabilities o with None => fail AssertFail | Some f => on_world (f sensor) end.

Definition sensor_get_temp (sensor : Z) : M St (Z * option Z) :=
  let! o := get_ops sensor in
  match get_temp o with None => ret (STATUS_NOT_SUPPORTED, None) | Some f => on_world (f sensor) end.

Definition sensor_get_humidity (sensor : Z) : M St (Z * option Z) :=
  let! o := get_ops sensor in
  match get_humidity o with None => ret (STATUS_NOT_SUPPORTED, None) | Some f => on_world (f sensor) end.

Definition sensor_get_voltage (sensor : Z) : M St (Z * option Z) :=
  let! o := get_ops sensor in
  match get_voltage o with None => ret (STATUS_NOT_SUPPORTED, None) | Some f => on_world (f sensor) end.

Definition sensors_init : M St unit :=
  modify (fun s => put_registry (mk_sensors l_init (s_entries (registry s)) (s_ops (registry s))) s).

Definition sensors_register (sensor : Z) : M St unit :=
  let! r := deref (fun s => l_append (s_list (registry s)) (s_entries (registry s)) sensor) in
  modify (fun s => put_registry (mk_sensors r.1 r.2 (s_ops (registry s))) s).

(** [list_foreach_contained] with the [break] of the callback. *)
Fixpoint for_each_loop (fuel : nat) (f : Z -> M St bool) (entry : Z) : M St unit :=
  match fuel with
  | O => fail Diverges
  | Datatypes.S fuel =>
      if entry =? NULL then ret tt
      else
        let! go := f entry in
        if negb go then ret tt
        else
          let! next := deref (fun s => l_next (s_list (registry s)) (s_entries (registry s)) entry) in
          for_each_loop fuel f next
  end.

Definition sensors_for_each (f : Z -> M St bool) : M St unit :=
  let! head := gets (fun s => l_first (s_list (registry s))) in
  let! fuel := gets (fun s => Datatypes.S (size (s_ops (registry s)))) in
  for_each_loop fuel f head.

(** ** A run over the sensors *)

(** The callback on each of a sequence of sensors, until it says to stop. *)
Fixpoint visit (f : Z -> M St bool) (xs : list Z) : M St unit :=
  match xs with
  | [] => ret tt
  | x :: xs => let! go := f x in if negb go then ret tt else visit f xs
  end.

(** The registry holds the sensors [xs], all of which have [ops]. *)
Definition registered (r : sensors) (xs : list Z) : Prop :=
  l_rep (s_entries r) (s_list r) xs /\ forall x, x ∈ xs -> is_Some (s_ops r !! x).

Lemma registered_size r xs : registered r xs -> (length xs <= size (s_ops r))%nat.
Proof.
  intros [Hr Ho]. destruct (l_rep_NoDup _ _ _ Hr) as [Hnd _].
  rewrite <-(size_dom (D := gset Z)), <-(size_list_to_set (C := gset Z) xs Hnd). apply subseteq_size.
  intros x Hx. apply elem_of_list_to_set in Hx. by apply elem_of_dom, Ho.
Qed.

Lemma for_each_visit f xs2 : forall xs1 fuel s, registered (registry s) (xs1 ++ xs2) -> (length xs2 < fuel)%nat ->
  (forall x s b s', f x s = Ok b s' -> registry s' = registry s) ->
  for_each_loop fuel f (hd_or NULL xs2) s = visit f xs2 s.
Proof.
  induction xs2 as [|x xs2 IH]; intros xs1 [|fuel] s Hr Hf Hkeep; simpl in Hf; try lia; [done|].
  cbn [for_each_loop hd_or visit]. destruct Hr as [Hr Ho]. destruct (l_rep_NoDup _ _ _ Hr) as [_ Hnull].
  destruct (Z.eqb_spec x NULL) as [->|Hx]; [destruct Hnull; set_solver|]. unfold bind at 1 3.
  destruct (f x s) as [b s'|] eqn:E; [|done]. destruct b; [|done]. simpl. pose proof (Hkeep _ _ _ _ E) as Hk.
  pose proof (l_next_spec _ _ _ _ _ Hr) as Hn. rewrite <-Hk in Hn.
  unfold bind, deref. rewrite Hn. apply (IH (xs1 ++ [x])); [|lia|done]. rewrite Hk, <-app_assoc. by split.
Qed.

(** [sensors_for_each] gives its callback the registered sensors in the order
    they were registered, each once, and stops after the first call that returns
    false, for any callback that does not register sensors; registering appends
    the sensor. *)
Theorem sensors_visited s xs :
  registered (registry s) xs ->
  (forall f, (forall x s b s', f x s = Ok b s' -> registry s' = registry s) -> sensors_for_each f s = visit f xs s) /\
  ((forall r s, registry (put_registry r s) = r) ->
   forall x, l_detached (s_entries (registry s)) x -> x <> NULL -> x ∉ xs -> is_Some (s_ops (registry s) !! x) ->
     exists s', sensors_register x s = Ok tt s' /\ registered (registry s') (xs ++ [x])).
Proof.
  intros Hr. pose proof Hr as [Hl Ho]. split.
  - intros f Hkeep. unfold sensors_for_each, bind at 1 2, gets. rewrite (l_first_spec _ _ _ Hl).
    apply (for_each_visit f xs [] _ s); [done| |done]. pose proof (registered_size _ _ Hr). lia.
  - intros Hput x Hd Hx0 Hx Hox. destruct (l_append_spec _ _ _ _ Hl Hd Hx0 Hx) as (l' & st' & E & Hl' & _).
    unfold sensors_register, bind, deref. rewrite E. eexists. split; [reflexivity|]. rewrite Hput. split; [done|].
    intros y Hy. apply elem_of_app in Hy as [Hy|Hy]; [by apply Ho|]. apply list_elem_of_singleton in Hy as ->. done.
Qed.
End Sensor.

(** ** Two sensors on the lists of [core/list.c] *)

Definition ex_ops : sensor_ops (list Z) :=
  mk_ops (Some (fun x => ret 1)) (Some (fun x w => Ok (STATUS_OK, Some (10 * x)) (w ++ [x]))) None None.

Definition ex_sensors : sensors (S := store) (L := list_t) (W := list Z) :=
  mk_sensors list_init (fresh_store [100; 120]) {[100 := ex_ops; 120 := ex_ops]}.

(** The state: the registry and a log of the readings. *)
Abbreviation ex_state := (sensors (S := store) (L := list_t) (W := list Z) * list Z)%type.
Definition ex_put (r : sensors (S := store) (L := list_t) (W := list Z)) (s : ex_state) : ex_state := (r, s.2).
Definition ex_put_world (w : list Z) (s : ex_state) : ex_state := (s.1, w).

(** Reads a sensor, and stops at the second. *)
Definition ex_callback (x : Z) : M ex_state bool :=
  let! r := sensor_get_temp (S := store) (L := list_t) fst snd ex_put_world x in ret (negb (x =? 120)).

Lemma sensors_visited_witness :
  exists s1 s2, sensors_register fst ex_put 120 (ex_sensors, []) = Ok tt s1 /\
    sensors_register fst ex_put 100 s1 = Ok tt s2 /\
    sensors_for_each fst ex_callback s2 = visit ex_callback [120; 100] s2 /\ snd s2 = [].
Proof.
  destruct (sensors_visited (W := list Z) fst ex_put snd ex_put_world (ex_sensors, []) []) as [_ Hreg1].
  { split; [apply list_init_rep|]. by intros x ?%not_elem_of_nil. }
  destruct (Hreg1 ltac:(by intros r [? ?]) 120) as (s1 & E1 & Hr1).
  { exists (mk_entry NULL NULL). split; [reflexivity|by left]. }
  { done. }
  { by intros ?%not_elem_of_nil. }
  { by exists ex_ops. }
  destruct (sensors_visited (W := list Z) fst ex_put snd ex_put_world s1 [120] Hr1) as [_ Hreg2].
  assert (s1 = (mk_sensors (mk_list 120) (<[120 := mk_entry 120 120]> (fresh_store [100; 120])) (s_ops ex_sensors), [])) as Hs1.
  { revert E1. vm_compute. congruence. }
  destruct (Hreg2 ltac:(by intros r [? ?]) 100) as (s2 & E2 & Hr2).
  { rewrite Hs1. exists (mk_entry NULL NULL). split; [reflexivity|by left]. }
  { done. }
  { by intros ?%list_elem_of_singleton. }
  { rewrite Hs1. by exists ex_ops. }
  exists s1, s2. split; [exact E1|]. split; [exact E2|]. split.
  - destruct (sensors_visited (W := list Z) fst ex_put snd ex_put_world s2 [120; 100] Hr2) as [Hvisit _].
    apply Hvisit. intros x [r w] b [r' w']. unfold ex_callback, sensor_get_temp, get_ops, bind, deref, on_world. simpl.
    destruct (s_ops r !! x) as [o|]; [|by intros [=] ]. destruct (get_temp o) as [g|]; [|by intros H; inversion H].
    cbn [snd]. destruct (g x w) as [v w''|f]; intros H; by inversion H.
  - rewrite Hs1 in E2. vm_compute in E2. by inversion E2.
Defined.

(** A voltage sensor is registered with the list entry [malloc] left in it: links
    to whatever was there before are followed. *)
Lemma adc_sensor_garbage :
  sensors_register fst ex_put 100 (mk_sensors list_init {[100 := mk_entry 8 12]} {[100 := ex_ops]}, []) = Fault WildAccess.
Proof. reflexivity. Qed.
