(* ===== verification/Sht2x.v ===== *)
(** * Sht2x: the drivers of the sensors

    The SHT2x on the I2C bus ([device/sht2x/sht2x.c], [i2c_dev_transfer] as in
    [Eeprom]) and the voltage sensor on a converter ([lib/sensor/sensor.c],
    [platform/lpc11xx/adc.c]).  A variable that a transfer does not fill holds
    [uninit]. *)
From S2P Require Import Prelude ListApi Fw Eeprom Crc Sensor.

Definition kSHT2xAddress : Z := 0x80.
Definition kSHT2xTrigTMeasureHold : Z := 0xE3.
Definition kSHT2xTrigRHMeasureHold : Z := 0xE5.
Definition kSHT2xReadSerialNumber1 : list Z := [0xFA; 0x0F].
Definition kSHT2xReadSerialNumber2 : list Z := [0xFC; 0xC9].
Definition kSHT2xReadConfig : Z := 0xE6.
Definition kSHT2xWriteConfig : Z := 0xE7.
Definition kSHT2xSoftReset : Z := 0xFE.

Section Sht2x.
Context {W : Type} (i2c_dev_transfer : Z -> list Z -> Z -> M W (Z * list Z)) (uninit : Z).

Definition check_crc (data : list Z) (checksum : Z) : bool := crc8_maxim data =? checksum.

(** The raw value of a measurement, without its two status bits. *)
Definition raw_of (b0 b1 : Z) : Z := Z.land (u16 (Z.lor (Z.shiftl b0 8) b1)) (u16 (Z.lnot 3)).

(** [sht2x_get_temp] and [sht2x_get_humidity] differ in their command and formula. *)
Definition sht2x_measure (cmd : Z) (formula : Z -> Z) (sensor : Z) : M W (Z * option Z) :=
  let! r := i2c_dev_transfer kSHT2xAddress [cmd] 3 in
  let (status, buf) := (r : Z * list Z) in
  if negb (status =? STATUS_OK) then ret (-1, None)
  else
    let b i := nth i buf uninit in
    let raw := raw_of (b 0%nat) (b 1%nat) in
    if negb (check_crc [b 0%nat; b 1%nat] (b 2%nat)) then ret (STATUS_ERR 0, None)
    else ret (STATUS_OK, Some (formula raw)).

Definition sht2x_get_temp : Z -> M W (Z * option Z) :=
  sht2x_measure kSHT2xTrigTMeasureHold (fun raw => i32 (Z.shiftr (i32 (21965 * raw)) 13 - 46850)).

Definition sht2x_get_humidity : Z -> M W (Z * option Z) :=
  sht2x_measure kSHT2xTrigRHMeasureHold (fun raw => i32 (Z.shiftr (i32 (15625 * raw)) 13 - 6000)).

Definition sht2x_get_capabilities (sensor : Z) : M W Z :=
  ret (Z.lor SENSOR_CAPABILITY_TEMP SENSOR_CAPABILITY_HUMIDITY).

Definition ops : sensor_ops W :=
  mk_ops (Some sht2x_get_capabilities) (Some sht2x_get_temp) (Some sht2x_get_humidity) None.

Definition sht2x_read_serial_number : M W Z :=
  let! r := i2c_dev_transfer kSHT2xAddress kSHT2xReadSerialNumber1 8 in
  let (status, buf1) := (r : Z * list Z) in
  if negb (status =? STATUS_OK) then ret (2 ^ 64 - 1)
  else
    let! r := i2c_dev_transfer kSHT2xAddress kSHT2xReadSerialNumber2 6 in
    let (status, buf2) := (r : Z * list Z) in
    if negb (status =? STATUS_OK) then ret (2 ^ 64 - 1)
    else
      let b1 i := nth i buf1 uninit in
      let b2 i := nth i buf2 uninit in
      ret (Z.lor (Z.shiftl (b2 3%nat) 56) (Z.lor (Z.shiftl (b2 4%nat) 48) (Z.lor (Z.shiftl (b1 0%nat) 40)
           (Z.lor (Z.shiftl (b1 2%nat) 32) (Z.lor (Z.shiftl (b1 4%nat) 24) (Z.lor (Z.shiftl (b1 6%nat) 16)
           (Z.lor (Z.shiftl (b2 0%nat) 8) (b2 1%nat)))))))).

Definition sht2x_read_config : M W Z :=
  let! r := i2c_dev_transfer kSHT2xAddress [kSHT2xReadConfig] 1 in
  ret (nth 0 (snd (r : Z * list Z)) uninit).

Definition sht2x_write_config (conf : Z) : M W unit :=
  let! r := i2c_dev_transfer kSHT2xAddress [kSHT2xWriteConfig; conf] 0 in ret tt.

Definition sht2x_soft_reset : M W unit :=
  let! r := i2c_dev_transfer kSHT2xAddress [kSHT2xSoftReset] 0 in ret tt.
End Sht2x.

(** ** The converter *)

Section Adc.
Context {W : Type} (cr_and cr_or : Z -> M W unit) (read_gdr : M W Z).

(** Waiting for the done bit of [LPC_ADC->GDR], at most [rounds] reads. *)
Fixpoint wait_done (rounds : nat) : M W Z :=
  match rounds with
  | O => fail Diverges
  | S rounds => let! val := read_gdr in if truth (Z.land val (Z.shiftl 1 31)) then ret val else wait_done rounds
  end.

Definition adc_read (rounds : nat) : M W Z :=
  run! cr_and 0xFFFFFF00 in
  run! cr_or (Z.lor (Z.shiftl 1 24) (Z.shiftl 1 7)) in
  let! val := wait_done rounds in
  run! cr_and 0xF8FFFFFF in
  ret (Z.land (Z.shiftr val 6) 0x3FF).

Definition adc_resolution : Z := 10.

(** [struct adc_sensor] behind its [struct sensor]. *)
Record adc_sensor := mk_adc_sensor { mult : Z; div : Z; ref : Z }.

Definition sensor_adc_get_capabilities (sensor : Z) : M W Z := ret SENSOR_CAPABILITY_VOLTAGE.

(** A division by zero has no result. *)
Definition sensor_adc_get_voltage (rounds : nat) (a : adc_sensor) (sensor : Z) : M W (Z * option Z) :=
  let! v := adc_read rounds in
  if div a =? 0 then fail Diverges
  else ret (STATUS_OK, Some (i32 (Z.shiftr (u32 (u32 (v * mult a) * ref a) / div a) adc_resolution))).

Definition adc_sensor_ops (rounds : nat) (a : adc_sensor) : sensor_ops W :=
  mk_ops (Some sensor_adc_get_capabilities) None None (Some (sensor_adc_get_voltage rounds a)).

Definition sensor_from_adc (mult div ref : Z) : adc_sensor := mk_adc_sensor (u32 mult) (u32 div) (u32 ref).
End Adc.

(** ** What a measurement gives *)

(** The conversions of the data sheet, in thousandths: -46.85 + 175.72 x / 2^16
    degrees and -6 + 125 x / 2^16 percent. *)
Inductive quantity := Temperature | Humidity.
Definition command (q : quantity) : Z := match q with Temperature => 0xE3 | Humidity => 0xE5 end.
Definition scale (q : quantity) : Z := match q with Temperature => 175720 | Humidity => 125000 end.
Definition origin (q : quantity) : Z := match q with Temperature => -46850 | Humidity => -6000 end.
Definition measure {W} (i2c : Z -> list Z -> Z -> M W (Z * list Z)) (uninit : Z) (q : quantity) : Z -> M W (Z * option Z) :=
  match q with Temperature => sht2x_get_temp i2c uninit | Humidity => sht2x_get_humidity i2c uninit end.

(** The measured value of two bytes, its status bits zero. *)
Definition value14 (b0 b1 : Z) : Z := 4 * ((b0 * 256 + b1) / 4).

Lemma lor_bytes b0 b1 : is_byte b0 -> is_byte b1 -> Z.lor (Z.shiftl b0 8) b1 = b0 * 256 + b1.
Proof.
  intros H0 H1. pose proof (Z.add_lor_land (Z.shiftl b0 8) b1) as H.
  assert (Z.land (Z.shiftl b0 8) b1 = 0) as E; [|rewrite E in H; assert (Z.shiftl b0 8 = b0 * 256) by (rewrite Z.shiftl_mul_pow2 by lia; done); lia].
  apply Z.bits_inj'. intros i Hi. rewrite Z.land_spec, Z.bits_0. destruct (Z.lt_ge_cases i 8).
  - rewrite Z.shiftl_spec_low by lia. done.
  - rewrite (in_u_testbit_high 8 b1) by (done || lia). apply andb_false_r.
Qed.

Lemma raw_value b0 b1 : is_byte b0 -> is_byte b1 -> raw_of b0 b1 = value14 b0 b1 /\ 0 <= value14 b0 b1 < 65536.
Proof.
  intros H0 H1. unfold raw_of, value14. rewrite lor_bytes by done. unfold is_byte, in_u in *.
  rewrite wrap_id by (unfold in_u; lia). set (x := b0 * 256 + b1).
  pose proof (Z.div_mod x 4 ltac:(lia)). pose proof (Z.mod_pos_bound x 4 ltac:(lia)). split; [|lia].
  change (u16 (Z.lnot 3)) with (Z.shiftl (Z.ones 14) 2).
  transitivity (Z.shiftl (Z.shiftr x 2) 2).
  - apply Z.bits_inj'. intros i Hi. rewrite Z.land_spec. destruct (Z.lt_ge_cases i 2).
    + rewrite !Z.shiftl_spec_low by lia. apply andb_false_r.
    + rewrite !Z.shiftl_spec_high, Z.shiftr_spec by lia. replace (i - 2 + 2) with i by lia.
      rewrite Z.testbit_ones by lia. destruct (Z.ltb_spec (i - 2) 14).
      * rewrite (proj2 (Z.leb_le 0 (i - 2))) by lia. apply andb_true_r.
      * rewrite (in_u_testbit_high 16 x) by (unfold in_u; lia). done.
  - rewrite Z.shiftl_mul_pow2, Z.shiftr_div_pow2 by lia. change (2 ^ 2) with 4. lia.
Qed.

(** The integer formulas of the driver are the conversions, rounded down. *)
Lemma formula_exact q raw : 0 <= raw < 65536 ->
  let t := (scale q * raw) / 65536 + origin q in
  (match q with Temperature => i32 (Z.shiftr (i32 (21965 * raw)) 13 - 46850)
              | Humidity => i32 (Z.shiftr (i32 (15625 * raw)) 13 - 6000) end) = t /\
  origin q <= t < origin q + scale q.
Proof.
  intros Hr. assert (forall a, a * 8 * raw / 65536 = a * raw / 2 ^ 13) as Hdiv.
  { intros a. change 65536 with (2 ^ 13 * 8). rewrite <-(Z.div_mul_cancel_r (a * raw) (2 ^ 13) 8) by lia. f_equal. lia. }
  assert (0 <= scale q * raw / 65536 < scale q) as Hb.
  { split; [apply Z.div_pos; destruct q; simpl; lia|]. apply Z.div_lt_upper_bound; destruct q; simpl; lia. }
  cbv zeta. split; [|lia]. destruct q; cbn [scale origin] in *.
  - change 175720 with (21965 * 8) in *. rewrite Hdiv in *. rewrite (sgn_id 32 (21965 * raw)) by lia.
    rewrite Z.shiftr_div_pow2 by lia. rewrite sgn_id; [lia|done|]. lia.
  - change 125000 with (15625 * 8) in *. rewrite Hdiv in *. rewrite (sgn_id 32 (15625 * raw)) by lia.
    rewrite Z.shiftr_div_pow2 by lia. rewrite sgn_id; [lia|done|]. lia.
Qed.

Lemma measure_run {W} (i2c : Z -> list Z -> Z -> M W (Z * list Z)) uninit q x w w' r0 r1 r2 :
  i2c 0x80 [command q] 3 w = Ok (STATUS_OK, [r0; r1; r2]) w' -> is_byte r0 -> is_byte r1 ->
  measure i2c uninit q x w =
  if crc8_maxim [r0; r1] =? r2 then Ok (STATUS_OK, Some (scale q * value14 r0 r1 / 65536 + origin q)) w'
  else Ok (STATUS_ERR 0, None) w'.
Proof.
  intros E H0 H1. destruct (raw_value r0 r1 H0 H1) as [Hraw Hrange].
  destruct (formula_exact q (value14 r0 r1) Hrange) as [Hf _].
  destruct q; unfold measure, sht2x_get_temp, sht2x_get_humidity, sht2x_measure, kSHT2xAddress, kSHT2xTrigTMeasureHold, kSHT2xTrigRHMeasureHold;
    simpl command in E; rewrite (bind_ok _ _ _ _ _ E); cbn [nth]; rewrite Hraw; unfold check_crc, STATUS_OK; cbn [Z.eqb negb];
    destruct (crc8_maxim [r0; r1] =? r2); cbn [negb]; [|done| |done]; by rewrite Hf.
Qed.

Lemma crc_two a b : crc8_maxim [a; b] = crc_byte (crc_byte 0 a) b.
Proof. done. Qed.

(** A measurement of the SHT2x that arrives intact gives the temperature or
    humidity of the data sheet in thousandths, rounded down, for every raw value
    and without overflow; one in which a burst of up to eight bits was changed is
    always refused, and stores no result. *)
Theorem sht2x_measures {W} (i2c : Z -> list Z -> Z -> M W (Z * list Z)) uninit q x w w' s0 s1 r0 r1 r2 :
  Forall is_byte [s0; s1; r0; r1; r2] -> i2c 0x80 [command q] 3 w = Ok (STATUS_OK, [r0; r1; r2]) w' ->
  let s2 := crc8_maxim [s0; s1] in
  ([r0; r1; r2] = [s0; s1; s2] ->
    exists t, measure i2c uninit q x w = Ok (STATUS_OK, Some t) w' /\
      65536 * (t - origin q) <= scale q * value14 s0 s1 < 65536 * (t - origin q + 1) /\ origin q <= t < origin q + scale q) /\
  (burst (Z.lxor s0 r0) (Z.lxor s1 r1) /\ r2 = s2 \/ r0 = s0 /\ burst (Z.lxor s1 r1) (Z.lxor s2 r2) ->
    measure i2c uninit q x w = Ok (STATUS_ERR 0, None) w').
Proof.
  intros Hb E s2. assert (is_byte s0 /\ is_byte s1 /\ is_byte r0 /\ is_byte r1 /\ is_byte r2) as (Hs0 & Hs1 & Hr0 & Hr1 & Hr2).
  { rewrite !Forall_cons in Hb. tauto. }
  rewrite (measure_run i2c uninit q x w w' r0 r1 r2 E Hr0 Hr1).
  assert (is_byte 0) as H0 by (unfold is_byte, in_u; lia).
  assert (is_byte s2) as Hs2 by (apply crc_range; [done|by repeat apply Forall_cons_2]).
  split.
  - intros [= -> -> ->]. unfold s2. rewrite Z.eqb_refl. destruct (raw_value s0 s1 Hs0 Hs1) as [_ Hr].
    destruct (formula_exact q _ Hr) as [_ Hrange]. eexists. split; [reflexivity|]. split; [|done].
    pose proof (Z.div_mod (scale q * value14 s0 s1) 65536). pose proof (Z.mod_pos_bound (scale q * value14 s0 s1) 65536). lia.
  - intros Hburst. destruct (Z.eqb_spec (crc8_maxim [r0; r1]) r2) as [Ec|]; [|done]. exfalso.
    rewrite crc_two in Ec. unfold s2 in *. rewrite crc_two in *. destruct Hburst as [ [Hburst Hr]|[-> Hburst] ].
    + apply (burst_differs 0 s0 s1 r0 r1 [] H0 Hs0 Hs1 Hr0 Hr1 (Forall_nil_2 _) Hburst). cbn [foldl]. congruence.
    + pose proof (crc_byte_byte 0 s0 H0 Hs0) as Hc0.
      apply (burst_differs (crc_byte 0 s0) s1 _ r1 r2 [] Hc0 Hs1 Hs2 Hr1 Hr2 (Forall_nil_2 _) Hburst).
      cbn [foldl]. transitivity 0.
      * by apply zero_crc.
      * symmetry. apply zero_crc; [by apply crc_byte_byte|done|by symmetry].
Qed.

(** The value 0x6320, intact and with one changed bit. *)
Definition ex_i2c (reply : list Z) (address : Z) (cmd : list Z) (n : Z) : M unit (Z * list Z) := ret (STATUS_OK, reply).

Lemma sht2x_measures_witness :
  (exists t, measure (ex_i2c [0x63; 0x20; crc8_maxim [0x63; 0x20] ]) 0 Temperature 7 tt = Ok (STATUS_OK, Some t) tt /\
    65536 * (t - origin Temperature) <= scale Temperature * value14 0x63 0x20 < 65536 * (t - origin Temperature + 1) /\
    origin Temperature <= t < origin Temperature + scale Temperature) /\
  measure (ex_i2c [0x63; 0x21; crc8_maxim [0x63; 0x20] ]) 0 Temperature 7 tt = Ok (STATUS_ERR 0, None) tt.
Proof.
  assert (forall l, forallb (fun b => (0 <=? b) && (b <? 256)) l = true -> Forall is_byte l) as Hall.
  { intros l H. apply Forall_forall. intros b Hb. rewrite forallb_forall in H. specialize (H b). rewrite <-list_elem_of_In in H.
    specialize (H Hb). unfold is_byte, in_u. lia. }
  split.
  - apply (sht2x_measures (ex_i2c [0x63; 0x20; crc8_maxim [0x63; 0x20] ]) 0 Temperature 7 tt tt 0x63 0x20 0x63 0x20 (crc8_maxim [0x63; 0x20]));
      [by apply Hall|done|done].
  - apply (sht2x_measures (ex_i2c [0x63; 0x21; crc8_maxim [0x63; 0x20] ]) 0 Temperature 7 tt tt 0x63 0x20 0x63 0x21 (crc8_maxim [0x63; 0x20]));
      [by apply Hall|done|]. left. split; [|done]. exists 1, 0. unfold is_byte, in_u. vm_compute. intuition congruence.
Defined.

(** The voltage is exact as long as the product fits 32 bits; with the converter's
    ten bits and the factors the boards use it always does. *)
Lemma adc_voltage {W} (cr_and cr_or : Z -> M W unit) (read_gdr : M W Z) rounds a x w r w' :
  adc_read cr_and cr_or read_gdr rounds w = Ok r w' -> 0 <= r < 2 ^ 10 -> 0 < div a -> 0 <= mult a -> 0 <= ref a ->
  2 ^ 10 * mult a * ref a <= 2 ^ 32 ->
  sensor_adc_get_voltage cr_and cr_or read_gdr rounds a x w = Ok (STATUS_OK, Some (r * mult a * ref a / (div a * 2 ^ 10))) w'.
Proof.
  intros E Hr Hd Hm Hf Hp. unfold sensor_adc_get_voltage. rewrite (bind_ok _ _ _ _ _ E).
  rewrite (proj2 (Z.eqb_neq (div a) 0)) by lia.
  assert (u32 (u32 (r * mult a) * ref a) = r * mult a * ref a) as ->.
  { assert (0 <= r * mult a * ref a < 2 ^ 32 \/ mult a * ref a = 0) as [H|H] by nia.
    - unfold wrap. rewrite Zmult_mod_idemp_l. by apply Z.mod_small.
    - unfold wrap. rewrite Zmult_mod_idemp_l, <-Z.mul_assoc, H, Z.mul_0_r. done. }
  unfold adc_resolution. rewrite Z.shiftr_div_pow2, Z.div_div by lia. rewrite sgn_id; [done|done|].
  assert (0 <= r * mult a * ref a <= 2 ^ 32) by nia. split.
  - transitivity 0; [done|]. apply Z.div_pos; nia.
  - apply Z.div_lt_upper_bound; nia.
Qed.
