(* ===== verification/CanNode.v ===== *)
(** * CanNode: the CAN protocol of a node

    [lib/can_node/can_node.c] with its configuration
    ([lib/can_node/include/config/can_node.h]).  The node's thread and the receive
    interrupts share [can_node] and [config]; the semaphore is that of [Semaphore]
    in the kernel's state, the sensors are those of [Sensor].  What goes out to the
    CAN driver, the pins and the configuration store is the trace.  [can_send] of the
    driver is given: what it does to the world and returns ([CanRom] has the one of the
    LPC11xx); a call of it is a part of the step of its caller. *)
From S2P Require Import Prelude ListApi Fw Sched Semaphore Eeprom Sensor.

Definition can_node_valid_id (id : Z) : bool := Z.land id 0xFC00 =? 0.

Definition kCanNodeWorkReqSensors : Z := Z.shiftl 1 0.
Definition kCanNodeWorkReqOutput : Z := Z.shiftl 1 1.
Definition kCanNodeWorkReqOutputResponse : Z := Z.shiftl 1 2.
Definition kCanNodeWorkReqSaveConfig : Z := Z.shiftl 1 3.

Definition CAN_NODE_BROADCAST_ID : Z := 0.
Definition CAN_FRAME_FLAG_EXT : Z := Z.shiftl 1 0.

(** [struct _output_src] is its [state]. *)
Record output := mk_output { o_state : bool; manual_state : bool; pin : Z; srcs : list bool }.

(** [can_node_output_mode_t] is any [uint8_t]. *)
Definition can_node_output_mode : Type := Z.
Definition kCanNodeOutputModeAuto : can_node_output_mode := 0.
Definition kCanNodeOutputModeManual : can_node_output_mode := 1.

Record can_node_output_src_config := mk_src { src_node_id : Z; sensor_type : Z; sensor_idx : Z; off_value : Z; on_value : Z }.
Record can_node_output_config := mk_oconf { mode : can_node_output_mode; sources : list can_node_output_src_config }.
(** What the node reads of [config]: the serial number [sn] and the outputs. *)
Record can_node_config := mk_nconf { sn : Z; c_outputs : list can_node_output_config }.

Record can_frame := mk_frame { id : Z; flags : Z; data_length : Z; data : list Z }.

Inductive receiver := Discovery | SensorValue | OutputRequest.

(** The calls to the CAN driver, the pins and the configuration store. *)
Inductive node_event :=
| EvSend (f : can_frame)
| EvReceive (want mask flags : Z) (r : receiver)
| EvGpio (pin : Z) (on : bool)
| EvSave (c : can_node_config).

Definition can_id_build (from to topic : Z) : Z :=
  Z.lor (Z.lor (Z.shiftl (Z.land topic 0x1FF) 20) (Z.shiftl (Z.land from 0x3FF) 10)) (Z.land to 0x3FF).
Definition can_id_extract_to (id : Z) : Z := Z.land id 0x3FF.
Definition can_id_extract_from (id : Z) : Z := Z.land (Z.shiftr id 10) 0x3FF.
Definition can_id_extract_topic (id : Z) : Z := Z.land (Z.shiftr id 20) 0x1FF.

(** The bytes of a 32-bit value, highest first. *)
Definition be_bytes (x : Z) : list Z := [u8 (Z.shiftr x 24); u8 (Z.shiftr x 16); u8 (Z.shiftr x 8); u8 (Z.shiftr x 0)].

(** Every call of [can_send] comes back to its caller. *)
Definition sends_return {W} (can_send : can_frame -> Z -> M W Z) : Prop := forall f flags w, exists st w', can_send f flags w = Ok st w'.

Section CanNode.
Context {S L W : Type} `{LA : ListApi S L} (queue_off : Z).
Abbreviation sys := (Sched.sys (S := S) (L := L)).
Abbreviation sensors := (Sensor.sensors (S := S) (L := L) (W := W)).

(** The address of [can_node.sem], and what the unfilled bytes of a frame hold. *)
Context (sem uninit : Z) (can_send : can_frame -> Z -> M W Z).

Record nsys := mk_nsys {
  node_id : Z;
  reqs : Z;
  outputs : list output;
  conf : can_node_config;
  pub_idx : Z;              (* [idx] of [can_node_loop] *)
  kern : sys;
  regy : sensors;
  world : W;
  ntrace : list node_event }.

Definition set_node_id (v : Z) s := mk_nsys v (reqs s) (outputs s) (conf s) (pub_idx s) (kern s) (regy s) (world s) (ntrace s).
Definition set_reqs (v : Z) s := mk_nsys (node_id s) v (outputs s) (conf s) (pub_idx s) (kern s) (regy s) (world s) (ntrace s).
Definition set_outputs (v : list output) s := mk_nsys (node_id s) (reqs s) v (conf s) (pub_idx s) (kern s) (regy s) (world s) (ntrace s).
Definition set_conf (v : can_node_config) s := mk_nsys (node_id s) (reqs s) (outputs s) v (pub_idx s) (kern s) (regy s) (world s) (ntrace s).
Definition set_pub_idx (v : Z) s := mk_nsys (node_id s) (reqs s) (outputs s) (conf s) v (kern s) (regy s) (world s) (ntrace s).
Definition set_kern (v : sys) s := mk_nsys (node_id s) (reqs s) (outputs s) (conf s) (pub_idx s) v (regy s) (world s) (ntrace s).
Definition set_regy (v : sensors) s := mk_nsys (node_id s) (reqs s) (outputs s) (conf s) (pub_idx s) (kern s) v (world s) (ntrace s).
Definition set_world (v : W) s := mk_nsys (node_id s) (reqs s) (outputs s) (conf s) (pub_idx s) (kern s) (regy s) v (ntrace s).
Definition emit (e : node_event) : M nsys unit := modify (fun s =>
  mk_nsys (node_id s) (reqs s) (outputs s) (conf s) (pub_idx s) (kern s) (regy s) (world s) (ntrace s ++ [e])).

Definition on_kern {A} (c : M sys A) : M nsys A := fun s =>
  match c (kern s) with Ok a k => Ok a (set_kern k s) | Fault f => Fault f end.

Definition request (bits : Z) : M nsys unit := modify (fun s => set_reqs (Z.lor (reqs s) bits) s).

Definition get_output (i : nat) : M nsys output := deref (fun s => outputs s !! i).
Definition put_output (i : nat) (o : output) : M nsys unit := modify (fun s => set_outputs (<[i := o]> (outputs s)) s).
Definition get_oconf (i : nat) : M nsys can_node_output_config := deref (fun s => c_outputs (conf s) !! i).

Definition can_node_fetch_clear_reqs : M nsys Z :=
  run! on_kern scheduler_lock in
  let! r := gets reqs in
  run! modify (set_reqs 0) in
  run! on_kern scheduler_unlock in
  ret r.

(** The frame is handed to the driver. *)
Definition hand_over (f : can_frame) : M nsys Z :=
  run! emit (EvSend f) in on_world world set_world (can_send f 0).

Definition can_node_send (topic to : Z) (bytes : list Z) : M nsys Z :=
  run! assert_ (can_node_valid_id to) in
  run! assert_ (Z.of_nat (length bytes) <=? 8) in
  let! from := gets node_id in
  hand_over (mk_frame (can_id_build from to topic) CAN_FRAME_FLAG_EXT (Z.of_nat (length bytes))
               (bytes ++ replicate (8 - length bytes) uninit)).

Definition can_node_send_discovery_response (to : Z) : M nsys unit :=
  let! c := gets conf in
  let! _ := can_node_send 511 to (Z.lor (Z.shiftl 1 1) (Z.shiftl 1 0) :: be_bytes (sn c)) in
  ret tt.

(** *** The receive callbacks *)

Definition byte (f : can_frame) (i : nat) : Z := nth i (data f) 0.

Definition can_node_discovery_callback (f : can_frame) : M nsys unit :=
  let! me := gets node_id in
  if (Z.land (byte f 0) 1 =? 0) && ((can_id_extract_to (id f) =? CAN_NODE_BROADCAST_ID) || (can_id_extract_to (id f) =? me))
  then can_node_send_discovery_response (can_id_extract_from (id f))
  else ret tt.

(** What a value does to the state of a source. *)
Definition source_value (f : can_frame) (i j : nat) (c : can_node_output_src_config) : M nsys unit :=
  if data_length f <? 6 then ret tt
  else if (byte f 0 =? sensor_type c) && (byte f 1 =? sensor_idx c) then
    let value := i32 (Z.lor (Z.lor (Z.lor (Z.shiftl (byte f 2) 24) (Z.shiftl (byte f 3) 16)) (Z.shiftl (byte f 4) 8)) (byte f 5)) in
    let! o := get_output i in
    let! st := deref (fun _ => srcs o !! j) in
    let set (b : bool) :=
      run! put_output i (mk_output (o_state o) (manual_state o) (pin o) (<[j := b]> (srcs o))) in
      run! request kCanNodeWorkReqOutput in
      on_kern (semaphore_signal queue_off sem) in
    if st && (value <? off_value c) then set false
    else if negb st && (value >? on_value c) then set true
    else ret tt
  else ret tt.

(** The two loops, up to the first source of the node that sends. *)
Fixpoint sensor_loop (f : can_frame) (ijs : list (nat * nat)) : M nsys unit :=
  match ijs with
  | [] => ret tt
  | (i, j) :: ijs =>
      let! oc := get_oconf i in
      let! c := deref (fun _ => sources oc !! j) in
      if src_node_id c =? can_id_extract_from (id f) then source_value f i j c
      else sensor_loop f ijs
  end.

Context (NUM_OUTPUT NUM_OUTPUT_SOURCE : nat).

Definition all_sources : list (nat * nat) := i ← seq 0 NUM_OUTPUT; j ← seq 0 NUM_OUTPUT_SOURCE; [(i, j)].

Definition can_node_sensor_callback (f : can_frame) : M nsys unit := sensor_loop f all_sources.

Definition can_node_output_callback (f : can_frame) : M nsys unit :=
  let! me := gets node_id in
  if negb (can_id_extract_to (id f) =? me) then ret tt
  else if negb (data_length f =? 2) then ret tt
  else
    let idx := byte f 0 in
    if Z.of_nat NUM_OUTPUT <=? idx then ret tt
    else
      let i := Z.to_nat idx in
      let! o := get_output i in
      let! new_mode :=
        (if truth (Z.land (byte f 1) (Z.shiftl 1 1)) then
           run! put_output i (mk_output (o_state o) (truth (Z.land (byte f 1) (Z.shiftl 1 0))) (pin o) (srcs o)) in
           ret kCanNodeOutputModeManual
         else ret kCanNodeOutputModeAuto) in
      let! oc := get_oconf i in
      run! (if new_mode =? mode oc then ret tt
            else
              run! modify (fun s => set_conf (mk_nconf (sn (conf s)) (<[i := mk_oconf new_mode (sources oc)]> (c_outputs (conf s)))) s) in
              request kCanNodeWorkReqSaveConfig) in
      run! request (Z.lor kCanNodeWorkReqOutput kCanNodeWorkReqOutputResponse) in
      on_kern (semaphore_signal queue_off sem).

(** *** Set-up; [init_status] is what [can_init] returns *)

Definition can_node_init (nid init_status : Z) : M nsys Z :=
  run! assert_ (can_node_valid_id nid) in
  if negb (init_status =? STATUS_OK) then ret init_status
  else
    run! modify (set_node_id nid) in
    run! on_kern (semaphore_init sem 0) in
    run! can_node_send_discovery_response CAN_NODE_BROADCAST_ID in
    run! emit (EvReceive (can_id_build CAN_NODE_BROADCAST_ID CAN_NODE_BROADCAST_ID 511)
                         (can_id_build CAN_NODE_BROADCAST_ID CAN_NODE_BROADCAST_ID 0x1FF) CAN_FRAME_FLAG_EXT Discovery) in
    run! (if (0 <? Z.of_nat NUM_OUTPUT) then
            run! emit (EvReceive (can_id_build CAN_NODE_BROADCAST_ID CAN_NODE_BROADCAST_ID 500)
                                 (can_id_build CAN_NODE_BROADCAST_ID 0x3FF 0x1FF) CAN_FRAME_FLAG_EXT SensorValue) in
            emit (EvReceive (can_id_build CAN_NODE_BROADCAST_ID nid 499)
                            (can_id_build CAN_NODE_BROADCAST_ID 0x3FF 0x1FF) CAN_FRAME_FLAG_EXT OutputRequest)
          else ret tt) in
    ret STATUS_OK.

Definition can_node_set_output_pin (n p : Z) : M nsys Z :=
  if Z.of_nat NUM_OUTPUT <=? n then ret (STATUS_ERR 0)
  else
    let! o := get_output (Z.to_nat n) in
    run! put_output (Z.to_nat n) (mk_output (o_state o) (manual_state o) p (srcs o)) in
    ret STATUS_OK.

(** *** The work of the node's thread *)

(** One measurement and its frame. *)
Definition publish (kind : Z) (measurement : M nsys (Z * option Z)) : M nsys unit :=
  let! r := measurement in
  let (status, t) := (r : Z * option Z) in
  if status =? STATUS_OK then
    let! idx := gets pub_idx in
    let! _ := can_node_send 500 CAN_NODE_BROADCAST_ID (kind :: idx :: be_bytes (default uninit t)) in
    ret tt
  else ret tt.

Definition can_node_loop_publish_sensor (sensor : Z) : M nsys bool :=
  let! capabilities := sensor_get_capabilities regy world set_world sensor in
  run! (if truth (Z.land capabilities SENSOR_CAPABILITY_TEMP)
        then publish 0 (sensor_get_temp regy world set_world sensor) else ret tt) in
  run! (if truth (Z.land capabilities SENSOR_CAPABILITY_HUMIDITY)
        then publish 1 (sensor_get_humidity regy world set_world sensor) else ret tt) in
  run! (if truth (Z.land capabilities SENSOR_CAPABILITY_VOLTAGE)
        then publish 2 (sensor_get_voltage regy world set_world sensor) else ret tt) in
  run! modify (fun s => set_pub_idx (u8 (pub_idx s + 1)) s) in
  ret true.

Definition can_node_post_sensor_req : M nsys unit :=
  run! request kCanNodeWorkReqSensors in
  on_kern (semaphore_signal queue_off sem).

Definition publish_sensors (r : Z) : M nsys unit :=
  if truth (Z.land r kCanNodeWorkReqSensors) then
    run! modify (set_pub_idx 0) in
    sensors_for_each regy can_node_loop_publish_sensor
  else ret tt.

Definition wants_output (r : Z) : bool := truth (Z.land r (Z.lor kCanNodeWorkReqOutput kCanNodeWorkReqOutputResponse)).

(** The state an output should have. *)
Definition demanded (o : output) (c : can_node_output_config) : bool :=
  if mode c =? kCanNodeOutputModeManual then manual_state o else existsb (fun st => st) (srcs o).

Definition update_output (r : Z) (i : nat) : M nsys unit :=
  let! oc := get_oconf i in
  let! o := get_output i in
  let state := demanded o oc in
  run! (if Bool.eqb (o_state o) state then ret tt
        else
          run! put_output i (mk_output state (manual_state o) (pin o) (srcs o)) in
          emit (EvGpio (pin o) state)) in
  let! o := get_output i in
  if negb (Bool.eqb (o_state o) state) || truth (Z.land r kCanNodeWorkReqOutputResponse) then
    let bit0 := if state then 1 else 0 in
    let bit1 := if mode oc =? kCanNodeOutputModeManual then 2 else 0 in
    let! _ := can_node_send 499 CAN_NODE_BROADCAST_ID [u8 (Z.of_nat i); Z.lor bit0 bit1] in
    ret tt
  else ret tt.

Definition save_config (r : Z) : M nsys unit :=
  if truth (Z.land r kCanNodeWorkReqSaveConfig) then let! c := gets conf in emit (EvSave c) else ret tt.

(** *** The loop, with the points at which an interrupt may come

    [AtWait] is the head of [can_node_loop]'s loop; [InWait] is after the call of
    [semaphore_wait], from which the thread goes on when it runs; then the requests
    are fetched, the sensors published, the outputs updated one by one from
    [Output r i] on, and the configuration saved. *)
Inductive loop_pc := AtWait | InWait | Publish (r : Z) | Output (r : Z) (i : nat) | Save (r : Z).

Definition loop_step (w : Z) (pc : loop_pc) : M nsys loop_pc :=
  match pc with
  | AtWait => run! on_kern (semaphore_wait queue_off sem w) in ret InWait
  | InWait => let! r := can_node_fetch_clear_reqs in ret (Publish r)
  | Publish r => run! publish_sensors r in ret (if wants_output r then Output r 0 else Save r)
  | Output r i =>
      if (i <? NUM_OUTPUT)%nat then run! update_output r i in ret (Output r (Datatypes.S i)) else ret (Save r)
  | Save r => run! save_config r in ret AtWait
  end.
End CanNode.
