(* ===== verification/CanNodeSpec.v ===== *)
(** * CanNodeSpec: the node's thread and its interrupts

    The interleavings of [can_node_loop] with received frames, the sensor timer and
    the other threads of the kernel, as a step relation, and what they keep: work
    that is requested is not slept on, and outputs follow their sources. *)
From S2P Require Import Prelude ListApi Fw Sched Semaphore SchedSpec SchedRun Delay Eeprom Sensor CanNode.

Section Spec.
Context {S L W : Type} `{LA : ListApi S L} (queue_off : Z) (sem uninit : Z) (can_send : can_frame -> Z -> M W Z) (NUM_OUTPUT NUM_OUTPUT_SOURCE : nat) (node : Z).
Context (Hsend : sends_return can_send).
Abbreviation sys := (Sched.sys (S := S) (L := L)).
Abbreviation nsys := (CanNode.nsys (S := S) (L := L) (W := W)).
Abbreviation rep := (rep queue_off).
Abbreviation wf_kernel := (wf_kernel queue_off).
Abbreviation signal := (semaphore_signal queue_off sem).

(** A receive callback. *)
Definition receive (r : receiver) (f : can_frame) : M nsys unit :=
  match r with
  | Discovery => can_node_discovery_callback uninit can_send f
  | SensorValue => can_node_sensor_callback queue_off sem NUM_OUTPUT NUM_OUTPUT_SOURCE f
  | OutputRequest => can_node_output_callback queue_off sem NUM_OUTPUT f
  end.

(** ** Shapes *)

(** The arrays have their sizes, a frame its eight bytes. *)
Record shaped (s : nsys) : Prop := {
  sh_outputs : length (outputs s) = NUM_OUTPUT;
  sh_srcs : Forall (fun o => length (srcs o) = NUM_OUTPUT_SOURCE) (outputs s);
  sh_conf : length (c_outputs (conf s)) = NUM_OUTPUT;
  sh_sources : Forall (fun c => length (sources c) = NUM_OUTPUT_SOURCE) (c_outputs (conf s));
  sh_id : can_node_valid_id (node_id s) = true;
  sh_pins : NoDup (pin <$> outputs s) }.

Definition frame_ok (f : can_frame) : Prop := length (data f) = 8%nat /\ Forall (in_u 8) (data f).

Lemma get_output_ok i (s : nsys) : shaped s -> (i < NUM_OUTPUT)%nat ->
  exists o, outputs s !! i = Some o /\ length (srcs o) = NUM_OUTPUT_SOURCE /\ get_output i s = Ok o s.
Proof.
  intros Hs Hi. destruct (lookup_lt_is_Some_2 (outputs s) i) as [o Ho]; [rewrite (sh_outputs s Hs); lia|].
  exists o. split; [done|]. split; [by apply (Forall_lookup_1 _ _ _ _ (sh_srcs s Hs) Ho)|]. unfold get_output, deref. by rewrite Ho.
Qed.

Lemma get_oconf_ok i (s : nsys) : shaped s -> (i < NUM_OUTPUT)%nat ->
  exists c, c_outputs (conf s) !! i = Some c /\ length (sources c) = NUM_OUTPUT_SOURCE /\ get_oconf i s = Ok c s.
Proof.
  intros Hs Hi. destruct (lookup_lt_is_Some_2 (c_outputs (conf s)) i) as [c Hc]; [rewrite (sh_conf s Hs); lia|].
  exists c. split; [done|]. split; [by apply (Forall_lookup_1 _ _ _ _ (sh_sources s Hs) Hc)|]. unfold get_oconf, deref. by rewrite Hc.
Qed.

(** ** What the parts change *)

(** No write to a pin. *)
Definition no_gpio (e : node_event) : Prop := match e with EvGpio _ _ => False | _ => True end.

(** Only what goes out, the world and the publishing index differ. *)
Record quiet (s s' : nsys) : Prop := {
  q_id : node_id s' = node_id s;
  q_reqs : reqs s' = reqs s;
  q_outputs : outputs s' = outputs s;
  q_conf : conf s' = conf s;
  q_kern : kern s' = kern s;
  q_regy : regy s' = regy s;
  q_trace : exists es, ntrace s' = ntrace s ++ es /\ Forall no_gpio es }.

#[local] Instance quiet_preorder : PreOrder quiet.
Proof.
  split.
  - intros s. split; try done. exists []. split; [by rewrite app_nil_r|apply Forall_nil_2].
  - intros s1 s2 s3 [? ? ? ? ? ? (es & He & Hn)] [? ? ? ? ? ? (es' & He' & Hn')]. split; try congruence.
    exists (es ++ es'). rewrite He', He, <-app_assoc. split; [done|]. by apply Forall_app.
Qed.

(** [c] returns, and only makes quiet changes. *)
Definition runs_quiet {A} (c : M nsys A) (s : nsys) : Prop := exists a s', c s = Ok a s' /\ quiet s s'.

Lemma hand_over_quiet f (s : nsys) : runs_quiet (hand_over can_send f) s.
Proof.
  destruct (Hsend f 0 (world s)) as (st & w' & E). unfold runs_quiet, hand_over.
  exists st. eexists. split; [unfold on_world, bind, emit, modify; cbn; rewrite E; reflexivity|].
  split; try done. eexists [_]. split; [done|]. by repeat constructor.
Qed.

Lemma send_quiet topic to bytes (s : nsys) : can_node_valid_id to = true -> (length bytes <= 8)%nat ->
  runs_quiet (can_node_send uninit can_send topic to bytes) s.
Proof.
  intros Hto Hl. unfold can_node_send, runs_quiet. rewrite Hto, (proj2 (Z.leb_le _ 8)) by lia. apply hand_over_quiet.
Qed.

(** The room a signal needs in the counter. *)
Definition sem_room (k : kernel) : Prop := exists v ws, k_sems k !! sem = Some (v, ws) /\ -128 <= v < 127.

Lemma signal_run (s : nsys) k : rep (kern s) k -> wf_kernel k -> irqs_off (kern s) = false -> sem_room k ->
  exists k', on_kern signal s = Ok tt (set_kern k' s) /\ rep k' (spec_event k (KSignal sem)) /\
    wf_kernel (spec_event k (KSignal sem)) /\ irqs_off k' = false.
Proof.
  intros Hr Hw Hi Hroom. destruct (event_refines queue_off (kern s) k (KSignal sem) Hr Hw Hi Hroom) as (k' & E & H).
  exists k'. split; [|exact H]. unfold on_kern. simpl in E. by rewrite E.
Qed.

(** The discovery callback answers requests. *)
Lemma discovery_quiet f (s : nsys) : frame_ok f -> runs_quiet (can_node_discovery_callback uninit can_send f) s.
Proof.
  intros Hf. unfold can_node_discovery_callback, runs_quiet, bind at 1, gets.
  destruct (_ && _); [|eexists tt, s; split; [reflexivity|reflexivity] ].
  unfold can_node_send_discovery_response. rewrite (bind_ok _ _ s (conf s) s) by done.
  destruct (send_quiet 511 (can_id_extract_from (id f)) (Z.lor (Z.shiftl 1 1) (Z.shiftl 1 0) :: be_bytes (sn (conf s))) s) as (st & s' & E & Hq);
    [|simpl; lia|exists tt, s'; by rewrite (bind_ok _ _ _ _ _ E)].
  unfold can_node_valid_id, can_id_extract_from. rewrite <-Z.land_assoc. change (Z.land 0x3FF 0xFC00) with 0. by rewrite Z.land_0_r.
Qed.

(** ** What a callback does to the node

    Either nothing but sending, or work is requested, the outputs keep what they
    drive, and the semaphore is signalled. *)

Definition same_drive (o o' : output) : Prop := o_state o' = o_state o /\ pin o' = pin o /\ length (srcs o') = length (srcs o).

Record touched (s s' : nsys) : Prop := {
  t_id : node_id s' = node_id s;
  t_outputs : Forall2 same_drive (outputs s) (outputs s');
  t_conf : Forall2 (fun c c' => length (sources c') = length (sources c)) (c_outputs (conf s)) (c_outputs (conf s'));
  t_kern : kern s' = kern s;
  t_regy : regy s' = regy s;
  t_trace : ntrace s' = ntrace s;
  t_reqs : reqs s' <> 0;
  t_follow : wants_output (reqs s') = true \/
             (outputs s' = outputs s /\ conf s' = conf s /\ wants_output (reqs s) = false) }.

(** [c] runs as a signal after [touched] changes, or quietly. *)
Definition runs_signal (c : M nsys unit) (s : nsys) : Prop :=
  (exists s', c s = Ok tt s' /\ quiet s s') \/
  (exists s', c s = on_kern signal s' /\ touched s s').

Lemma Forall2_update {A} (R : A -> A -> Prop) `{!Reflexive R} (l : list A) i x y :
  l !! i = Some x -> R x y -> Forall2 R l (<[i := y]> l).
Proof.
  intros Hx HR. rewrite <-(list_insert_id l i x) at 1 by done. apply Forall2_insert; [|done].
  apply Forall2_same_length_lookup. split; [done|]. intros j a b Ha Hb. by replace b with a by congruence.
Qed.

Lemma Forall2_self {A} (R : A -> A -> Prop) `{!Reflexive R} (l : list A) : Forall2 R l l.
Proof. apply Forall2_same_length_lookup. split; [done|]. intros j a b Ha Hb. by replace b with a by congruence. Qed.

#[local] Instance same_drive_refl : Reflexive same_drive.
Proof. by intros o. Qed.
#[local] Instance same_sources_refl : Reflexive (fun c c' => length (sources c') = length (sources c)).
Proof. by intros c. Qed.

Lemma truth_lor a b : truth (Z.lor a b) = truth a || truth b.
Proof.
  unfold truth. destruct (Z.eqb_spec a 0) as [->|Ha]; [done|]. destruct (Z.eqb_spec (Z.lor a b) 0) as [[E1 E2]%Z.lor_eq_0_iff|]; done.
Qed.

Lemma wants_output_lor a b : wants_output (Z.lor a b) = wants_output a || wants_output b.
Proof. unfold wants_output. by rewrite Z.land_lor_distr_l, truth_lor. Qed.

Lemma lor_nonzero a b : b <> 0 -> Z.lor a b <> 0.
Proof. intros Hb [_ E]%Z.lor_eq_0_iff. done. Qed.

(** A request after [touched] changes of the outputs and the configuration. *)
Lemma touched_request bits os c (s : nsys) : bits <> 0 ->
  Forall2 same_drive (outputs s) os ->
  Forall2 (fun c c' => length (sources c') = length (sources c)) (c_outputs (conf s)) (c_outputs c) ->
  (wants_output bits = true \/ os = outputs s /\ c = conf s) ->
  touched s (set_reqs (Z.lor (reqs s) bits) (set_conf c (set_outputs os s))).
Proof.
  intros Hb Ho Hc Hf. split; try done; simpl; [by apply lor_nonzero|]. rewrite wants_output_lor.
  destruct (wants_output (reqs s)); [by left|]. destruct Hf as [->|[-> ->] ]; [by left|].
  destruct (wants_output bits); [by left|right; by destruct s].
Qed.

Lemma source_value_runs f i j c (s : nsys) : shaped s -> (i < NUM_OUTPUT)%nat -> (j < NUM_OUTPUT_SOURCE)%nat ->
  runs_signal (source_value queue_off sem f i j c) s.
Proof.
  intros Hs Hi Hj. unfold runs_signal, source_value.
  destruct (_ <? _); [left; exists s; by split|]. destruct (_ && _); [|left; exists s; by split].
  destruct (get_output_ok i s Hs Hi) as (o & Ho & Hl & E). rewrite (bind_ok _ _ _ _ _ E).
  destruct (lookup_lt_is_Some_2 (srcs o) j) as [st Hst]; [lia|].
  rewrite (bind_ok _ _ s st s) by (unfold deref; by rewrite Hst). cbv zeta.
  assert (forall b, touched s (set_reqs (Z.lor (reqs s) kCanNodeWorkReqOutput)
            (set_conf (conf s) (set_outputs (<[i := mk_output (o_state o) (manual_state o) (pin o) (<[j := b]> (srcs o))]> (outputs s)) s)))) as Ht.
  { intros b. apply touched_request; [done| |by apply Forall2_self; intros ?|by left].
    eapply Forall2_update; [apply _|done|]. split; [done|]. split; [done|]. simpl. by rewrite length_insert. }
  destruct (_ && _); [right; eexists; split; [reflexivity|apply (Ht false)]|].
  destruct (_ && _); [right; eexists; split; [reflexivity|apply (Ht true)]|]. left. exists s. by split.
Qed.

Lemma sensor_loop_runs f (s : nsys) : shaped s -> forall ijs,
  Forall (fun ij => (ij.1 < NUM_OUTPUT)%nat /\ (ij.2 < NUM_OUTPUT_SOURCE)%nat) ijs ->
  runs_signal (sensor_loop queue_off sem f ijs) s.
Proof.
  intros Hs. induction 1 as [|[i j] ijs [Hi Hj] _ IH]; cbn [sensor_loop fst snd] in *; [left; exists s; by split|].
  destruct (get_oconf_ok i s Hs Hi) as (c & Hc & Hl & E). unfold runs_signal. rewrite (bind_ok _ _ _ _ _ E).
  destruct (lookup_lt_is_Some_2 (sources c) j) as [sc Hsc]; [lia|].
  rewrite (bind_ok _ _ s sc s) by (unfold deref; by rewrite Hsc).
  destruct (_ =? _); [by apply source_value_runs|exact IH].
Qed.

Lemma all_sources_ok : Forall (fun ij => (ij.1 < NUM_OUTPUT)%nat /\ (ij.2 < NUM_OUTPUT_SOURCE)%nat) (all_sources NUM_OUTPUT NUM_OUTPUT_SOURCE).
Proof.
  apply Forall_forall. intros [i j] H. unfold all_sources in H.
  apply list_elem_of_bind in H as (i' & H & Hi). apply list_elem_of_bind in H as (j' & H & Hj).
  apply list_elem_of_singleton in H as [= -> ->]. apply elem_of_seq in Hi, Hj. simpl. lia.
Qed.

Lemma output_callback_runs f (s : nsys) : shaped s -> frame_ok f ->
  runs_signal (can_node_output_callback queue_off sem NUM_OUTPUT f) s.
Proof.
  intros Hs [_ Hf]. unfold runs_signal, can_node_output_callback. rewrite (bind_ok _ _ s (node_id s) s) by done.
  destruct (negb _); [left; exists s; by split|]. destruct (negb _); [left; exists s; by split|]. cbv zeta.
  destruct (Z.leb_spec (Z.of_nat NUM_OUTPUT) (byte f 0)) as [_|Hlt]; [left; exists s; by split|]. right.
  assert (0 <= byte f 0) as Hb.
  { unfold byte. destruct (data f) as [|b bs]; [done|]. by apply Forall_cons in Hf as [ [? _] _]. }
  destruct (get_output_ok (Z.to_nat (byte f 0)) s Hs ltac:(lia)) as (o & Ho & Hl & E). rewrite (bind_ok _ _ _ _ _ E).
  set (i := Z.to_nat (byte f 0)) in *.
  assert (exists m os, Forall2 same_drive (outputs s) os /\
    (if truth (Z.land (byte f 1) (Z.shiftl 1 1))
     then run! put_output i (mk_output (o_state o) (truth (Z.land (byte f 1) (Z.shiftl 1 0))) (pin o) (srcs o)) in ret kCanNodeOutputModeManual
     else ret kCanNodeOutputModeAuto) s = Ok m (set_outputs os s)) as (m & os & Hos & Em).
  { destruct (truth _); [|exists kCanNodeOutputModeAuto, (outputs s); split; [by apply Forall2_self, _|by destruct s] ].
    eexists _, _. split; [|reflexivity]. by eapply Forall2_update; [apply _|done|]. }
  rewrite (bind_ok _ _ _ _ _ Em).
  destruct (get_oconf_ok i s Hs ltac:(lia)) as (c & Hc & Hlc & Ec).
  rewrite (bind_ok _ _ _ c (set_outputs os s)) by (unfold get_oconf, deref in *; simpl; by rewrite Hc).
  assert (kCanNodeWorkReqOutput <> 0 /\ wants_output (Z.lor kCanNodeWorkReqOutput kCanNodeWorkReqOutputResponse) = true) as [_ Hwo] by done.
  destruct (m =? mode c).
  - rewrite (bind_ok _ _ (set_outputs os s) tt (set_outputs os s)) by done. eexists. split; [reflexivity|].
    split; simpl; try done; [by apply lor_nonzero|by left; rewrite wants_output_lor, Hwo, orb_true_r].
  - eexists. split; [reflexivity|].
    split; simpl; try done; [|by apply lor_nonzero|by left; rewrite wants_output_lor, Hwo, orb_true_r].
    by eapply Forall2_update; [by intros ?|done|].
Qed.

(** What comes from outside the node's thread. *)
Inductive arrival := Frame (r : receiver) (f : can_frame) | SensorTimer.
Definition arrives (a : arrival) : M nsys unit :=
  match a with Frame r f => receive r f | SensorTimer => can_node_post_sensor_req queue_off sem end.
Definition arrival_ok (a : arrival) : Prop := match a with Frame _ f => frame_ok f | SensorTimer => True end.

Lemma arrives_runs a (s : nsys) : shaped s -> arrival_ok a -> runs_signal (arrives a) s.
Proof.
  intros Hs Ha. destruct a as [ [] f|]; simpl in *.
  - left. destruct (discovery_quiet f s Ha) as ([] & s' & ? & ?). by exists s'.
  - by apply sensor_loop_runs, all_sources_ok.
  - by apply output_callback_runs.
  - right. eexists. split; [reflexivity|].
    apply (touched_request kCanNodeWorkReqSensors (outputs s) (conf s)); [done| | |by right]; by apply Forall2_self, _.
Qed.

(** ** Publishing *)

(** Whatever [c] returns, it only made quiet changes. *)
Definition quietly {A} (c : M nsys A) : Prop := forall s a s', c s = Ok a s' -> quiet s s'.

Lemma quietly_ret {A} (a : A) : quietly (ret a).
Proof. by intros s b s' [= <- <-]. Qed.

Lemma quietly_bind {A B} (c : M nsys A) (k : A -> M nsys B) : quietly c -> (forall a, quietly (k a)) -> quietly (bind c k).
Proof.
  intros Hc Hk s b s' E. destruct (bind_inv _ _ _ _ _ E) as (a & s1 & E1 & E2).
  etransitivity; [by eapply Hc|by eapply Hk].
Qed.

Lemma quietly_read {A} (f : nsys -> option A) : quietly (deref f).
Proof. intros s a s'. unfold deref. destruct (f s); [by intros [= _ <-]|done]. Qed.

Lemma quietly_gets {A} (f : nsys -> A) : quietly (gets f).
Proof. by intros s a s' [= _ <-]. Qed.

Lemma quietly_world {A} (c : M W A) : quietly (on_world world set_world c).
Proof.
  intros s a s'. unfold on_world. destruct (c (world s)); [intros [= _ <-]|done].
  split; try done. exists []. by rewrite app_nil_r.
Qed.

Lemma quietly_idx f : quietly (modify (fun s => set_pub_idx (f s) s)).
Proof. intros s a s' [= _ <-]. split; try done. exists []. by rewrite app_nil_r. Qed.

Lemma quietly_send topic to bytes : quietly (can_node_send uninit can_send topic to bytes).
Proof.
  apply quietly_bind; [intros s a s'; unfold assert_; by destruct (can_node_valid_id to); [intros [= _ <-]|] |intros _].
  apply quietly_bind; [intros s a s'; unfold assert_; by destruct (_ <=? 8); [intros [= _ <-]|] |intros _].
  apply quietly_bind; [apply quietly_gets|]. intros me. apply quietly_bind; [|intros _; apply quietly_world].
  intros s a s' [= _ <-]. split; try done. eexists. split; [done|]. by repeat constructor.
Qed.

Lemma quietly_publish kind m : quietly m -> quietly (publish uninit can_send kind m).
Proof.
  intros Hm. apply quietly_bind; [done|]. intros [st t]. destruct (_ =? _); [|apply quietly_ret].
  apply quietly_bind; [apply quietly_gets|intros idx]. apply quietly_bind; [apply quietly_send|intros _; apply quietly_ret].
Qed.

Lemma quietly_measure (get : sensor_ops W -> option (Z -> M W (Z * option Z))) sensor : quietly
  (let! o := get_ops (S := S) (L := L) regy sensor in
   match get o with None => ret (STATUS_NOT_SUPPORTED, None) | Some f => on_world world set_world (f sensor) end).
Proof.
  apply quietly_bind; [apply quietly_read|]. intros o. destruct (get o); [apply quietly_world|apply quietly_ret].
Qed.

Lemma quietly_publish_sensor x : quietly (can_node_loop_publish_sensor uninit can_send x).
Proof.
  apply quietly_bind.
  { apply quietly_bind; [apply quietly_read|]. intros o. destruct (get_capabilities o); [apply quietly_world|by intros s a s']. }
  intros cap. apply quietly_bind; [destruct (truth _); [apply quietly_publish, quietly_measure|apply quietly_ret]|intros _].
  apply quietly_bind; [destruct (truth _); [apply quietly_publish, quietly_measure|apply quietly_ret]|intros _].
  apply quietly_bind; [destruct (truth _); [apply quietly_publish, quietly_measure|apply quietly_ret]|intros _].
  apply quietly_bind; [apply (quietly_idx (fun s => u8 (pub_idx s + 1)))|intros _; apply quietly_ret].
Qed.

Lemma quietly_for_each f : (forall x, quietly (f x)) -> quietly (sensors_for_each (S := S) (L := L) regy f).
Proof.
  intros Hf. apply quietly_bind; [apply quietly_gets|intros head]. apply quietly_bind; [apply quietly_gets|intros fuel].
  revert head. induction fuel as [|fuel IH]; intros head; [by intros s a s'|]. cbn [for_each_loop].
  destruct (_ =? _); [apply quietly_ret|]. apply quietly_bind; [apply Hf|]. intros []; [|apply quietly_ret].
  apply quietly_bind; [apply quietly_read|intros next; apply IH].
Qed.

Lemma quietly_publish_sensors r : quietly (publish_sensors uninit can_send r).
Proof.
  unfold publish_sensors. destruct (truth _); [|apply quietly_ret].
  apply quietly_bind; [apply (quietly_idx (fun _ => 0))|intros _]. apply quietly_for_each, quietly_publish_sensor.
Qed.

(** Sensors whose operations always return. *)
Definition total {A} (f : Z -> M W A) : Prop := forall x w, exists v w', f x w = Ok v w'.

Record total_ops (o : sensor_ops W) : Prop := {
  to_cap : exists f, get_capabilities o = Some f /\ total f;
  to_temp f : get_temp o = Some f -> total f;
  to_hum f : get_humidity o = Some f -> total f;
  to_volt f : get_voltage o = Some f -> total f }.

Definition sensors_ok (s : nsys) : Prop :=
  exists xs, registered (regy s) xs /\ forall x, x ∈ xs -> exists o, s_ops (regy s) !! x = Some o /\ total_ops o.

Definition returns {A} (c : M nsys A) (s : nsys) : Prop := exists a s', c s = Ok a s'.

(** Quiet calls one after the other. *)
Lemma returns_bind {A B} (c : M nsys A) (k : A -> M nsys B) s :
  returns c s -> quietly c -> (forall a s', quiet s s' -> returns (k a) s') -> returns (bind c k) s.
Proof. intros (a & s1 & E) Hq Hk. unfold returns. rewrite (bind_ok _ _ _ _ _ E). by eapply Hk, Hq. Qed.

Lemma world_returns {A} (f : Z -> M W A) x s : total f -> returns (on_world world set_world (f x)) s.
Proof. intros Hf. destruct (Hf x (world s)) as (v & w' & E). unfold returns, on_world. rewrite E. eauto. Qed.

Lemma publish_returns kind m s : returns m s -> quietly m -> returns (publish uninit can_send kind m) s.
Proof.
  intros Hm Hq. apply returns_bind; [done|done|]. intros [st t] s1 _. destruct (_ =? _); [|by eexists _, _].
  unfold returns. rewrite (bind_ok _ _ s1 (pub_idx s1) s1) by done.
  destruct (send_quiet 500 CAN_NODE_BROADCAST_ID (kind :: pub_idx s1 :: be_bytes (default uninit t)) s1) as (a & s2 & E & _);
    [done|simpl; lia|]. rewrite (bind_ok _ _ _ _ _ E). by eexists _, _.
Qed.

Lemma measure_returns (get : sensor_ops W -> option (Z -> M W (Z * option Z))) x o s :
  s_ops (regy s) !! x = Some o -> (forall f, get o = Some f -> total f) -> returns
  (let! o := get_ops (S := S) (L := L) regy x in
   match get o with None => ret (STATUS_NOT_SUPPORTED, None) | Some f => on_world world set_world (f x) end) s.
Proof.
  intros Ho Hf. unfold returns, get_ops. rewrite (bind_ok _ _ s o s) by (unfold deref; by rewrite Ho).
  destruct (get o) as [f|]; [by apply world_returns, Hf|by eexists _, _].
Qed.

Lemma publish_sensor_returns x o s : s_ops (regy s) !! x = Some o -> total_ops o ->
  returns (can_node_loop_publish_sensor uninit can_send x) s.
Proof.
  intros Ho [ (fc & Hc & Htc) Ht Hh Hv].
  assert (forall s' get kind cap bit, quiet s s' -> (forall f, get o = Some f -> total f) -> returns
    (if truth (Z.land cap bit) then publish uninit can_send kind
      (let! o := get_ops (S := S) (L := L) regy x in
       match get o with None => ret (STATUS_NOT_SUPPORTED, None) | Some f => on_world world set_world (f x) end) else ret tt) s') as Hpub.
  { intros s' get kind cap bit Hq Hg. destruct (truth _); [|by eexists _, _].
    apply publish_returns; [|apply quietly_measure]. eapply measure_returns; [by rewrite (q_regy _ _ Hq)|done]. }
  assert (forall (get : sensor_ops W -> option (Z -> M W (Z * option Z))) kind cap bit, quietly
    (if truth (Z.land cap bit) then publish uninit can_send kind
      (let! o := get_ops (S := S) (L := L) regy x in
       match get o with None => ret (STATUS_NOT_SUPPORTED, None) | Some f => on_world world set_world (f x) end) else ret tt)) as Hqp.
  { intros. destruct (truth _); [apply quietly_publish, quietly_measure|apply quietly_ret]. }
  apply returns_bind.
  { unfold returns, sensor_get_capabilities, get_ops. rewrite (bind_ok _ _ s o s) by (unfold deref; by rewrite Ho).
    rewrite Hc. by apply world_returns. }
  { apply quietly_bind; [apply quietly_read|]. intros o'. destruct (get_capabilities o'); [apply quietly_world|by intros ???]. }
  intros cap s1 H1. apply returns_bind; [by apply (Hpub s1 get_temp)|apply (Hqp get_temp)|]. intros _ s2 H2.
  apply returns_bind; [apply (Hpub s2 get_humidity); [by transitivity s1|done]|apply (Hqp get_humidity)|]. intros _ s3 H3.
  apply returns_bind; [apply (Hpub s3 get_voltage); [transitivity s1; [done|by transitivity s2]|done]|apply (Hqp get_voltage)|].
  intros _ s4 _. by eexists _, _.
Qed.

Lemma visit_returns xs : forall s, (forall x, x ∈ xs -> exists o, s_ops (regy s) !! x = Some o /\ total_ops o) ->
  returns (visit (can_node_loop_publish_sensor uninit can_send) xs) s.
Proof.
  induction xs as [|x xs IH]; intros s Hx; [by eexists _, _|]. cbn [visit].
  destruct (Hx x) as (o & Ho & Hto); [by left|].
  apply returns_bind; [by eapply publish_sensor_returns|apply quietly_publish_sensor|].
  intros [] s' Hq; [|by eexists _, _]. apply IH. intros y Hy. rewrite (q_regy _ _ Hq). apply Hx. by right.
Qed.

Lemma publish_sensors_returns r s : sensors_ok s -> returns (publish_sensors uninit can_send r) s.
Proof.
  intros (xs & Hr & Hx). unfold publish_sensors. destruct (truth _); [|by eexists _, _].
  apply returns_bind; [by eexists _, _|apply (quietly_idx (fun _ => 0))|]. intros _ s' Hq. unfold returns.
  unfold sensors_for_each, bind at 1 2, gets. destruct (Hr) as [Hl _]. rewrite (q_regy _ _ Hq), (l_first_spec _ _ _ Hl).
  rewrite (for_each_visit regy world set_world _ xs [] _ s').
  - apply visit_returns. by rewrite (q_regy _ _ Hq).
  - by rewrite (q_regy _ _ Hq).
  - pose proof (registered_size _ _ Hr). lia.
  - intros x s1 b s2 E. by rewrite (q_regy _ _ (quietly_publish_sensor x _ _ _ E)).
Qed.

(** ** Outputs and their pins *)

(** What was written last to a pin, which starts low. *)
Definition level (p : Z) (es : list node_event) : bool :=
  foldl (fun b e => match e with EvGpio q on => if q =? p then on else b | _ => b end) false es.

Lemma level_app_quiet p es es' : Forall no_gpio es' -> level p (es ++ es') = level p es.
Proof.
  intros H. unfold level. rewrite foldl_app. generalize (foldl (fun b e => match e with EvGpio q on => if q =? p then on else b | _ => b end) false es).
  induction H as [|[] es' He _ IH]; intros b; simpl; try done; apply IH.
Qed.

Lemma level_gpio p q on es : level p (es ++ [EvGpio q on]) = if q =? p then on else level p es.
Proof. unfold level. by rewrite foldl_app. Qed.

(** Every output's pin has the output's state. *)
Definition driven (s : nsys) : Prop :=
  forall i o, outputs s !! i = Some o -> level (pin o) (ntrace s) = o_state o.

(** The output [i] as it should be. *)
Definition settled (o : output) (c : can_node_output_config) : output :=
  mk_output (demanded o c) (manual_state o) (pin o) (srcs o).

Record updated (i : nat) (o : output) (c : can_node_output_config) (s s' : nsys) : Prop := {
  u_id : node_id s' = node_id s;
  u_reqs : reqs s' = reqs s;
  u_outputs : outputs s' = <[i := settled o c]> (outputs s);
  u_conf : conf s' = conf s;
  u_kern : kern s' = kern s;
  u_regy : regy s' = regy s;
  u_trace : exists es, ntrace s' = ntrace s ++ (if Bool.eqb (o_state o) (demanded o c) then [] else [EvGpio (pin o) (demanded o c)]) ++ es /\
            Forall no_gpio es }.

Lemma updated_quiet i o c s s1 s2 : updated i o c s s1 -> quiet s1 s2 -> updated i o c s s2.
Proof.
  intros [? ? ? ? ? ? (es & He & Hn)] [? ? ? ? ? ? (es' & He' & Hn')]. split; try congruence.
  exists (es ++ es'). rewrite He', He, <-!app_assoc. split; [done|]. by apply Forall_app.
Qed.

Lemma update_output_run r i o c (s : nsys) : outputs s !! i = Some o -> c_outputs (conf s) !! i = Some c ->
  exists s', update_output uninit can_send r i s = Ok tt s' /\ updated i o c s s'.
Proof.
  intros Ho Hc. unfold update_output.
  rewrite (bind_ok _ _ s c s) by (unfold get_oconf, deref; by rewrite Hc).
  rewrite (bind_ok _ _ s o s) by (unfold get_output, deref; by rewrite Ho). cbv zeta.
  pose proof (lookup_lt_Some _ _ _ Ho) as Hlt.
  assert (exists s1, (if Bool.eqb (o_state o) (demanded o c) then ret tt
     else run! put_output i (mk_output (demanded o c) (manual_state o) (pin o) (srcs o)) in emit (EvGpio (pin o) (demanded o c))) s = Ok tt s1 /\
     updated i o c s s1) as (s1 & E1 & H1).
  { destruct (Bool.eqb (o_state o) (demanded o c)) eqn:Eo.
    - exists s. split; [done|]. split; try done; [|rewrite Eo; exists []; by rewrite !app_nil_r].
      rewrite list_insert_id; [done|]. unfold settled. rewrite <-(eqb_prop _ _ Eo). by destruct o.
    - eexists. split; [reflexivity|]. split; try done. rewrite Eo. by exists []. }
  rewrite (bind_ok _ _ _ _ _ E1).
  rewrite (bind_ok _ _ s1 (settled o c) s1)
    by (unfold get_output, deref; by rewrite (u_outputs _ _ _ _ _ H1), list_lookup_insert_eq by done).
  destruct (_ || _); [|by exists s1].
  destruct (send_quiet 499 CAN_NODE_BROADCAST_ID [u8 (Z.of_nat i); Z.lor (if demanded o c then 1 else 0) (if mode c =? kCanNodeOutputModeManual then 2 else 0)] s1)
    as (st & s2 & E2 & H2); [done|simpl; lia|]. exists s2. split; [by rewrite (bind_ok _ _ _ _ _ E2)|by eapply updated_quiet].
Qed.

Lemma pins_update (i : nat) o c (os : list output) : os !! i = Some o -> pin <$> <[i := settled o c]> os = pin <$> os.
Proof.
  intros Ho. rewrite list_fmap_insert. apply list_insert_id. by rewrite list_lookup_fmap, Ho.
Qed.

Lemma updated_driven i o c s s' : shaped s -> outputs s !! i = Some o -> updated i o c s s' -> driven s -> driven s'.
Proof.
  intros Hs Ho [_ _ Hu _ _ _ (es & He & Hn)] Hd j o' Hj. rewrite He, app_assoc, level_app_quiet by done. clear es He Hn.
  rewrite Hu in Hj. destruct (decide (i = j)) as [<-|Hne].
  - rewrite list_lookup_insert_eq in Hj by (by eapply lookup_lt_Some). injection Hj as <-. simpl.
    destruct (Bool.eqb (o_state o) (demanded o c)) eqn:Eo; [rewrite app_nil_r, (Hd i o Ho); by apply eqb_prop|].
    by rewrite level_gpio, Z.eqb_refl.
  - rewrite list_lookup_insert_ne in Hj by done. rewrite <-(Hd j o' Hj).
    destruct (Bool.eqb _ _); [by rewrite app_nil_r|]. rewrite level_gpio.
    destruct (Z.eqb_spec (pin o) (pin o')) as [Ep|]; [|done]. destruct Hne.
    eapply (proj1 (NoDup_alt _) (sh_pins s Hs)); rewrite list_lookup_fmap; [by rewrite Ho|]. rewrite Hj. simpl. by rewrite Ep.
Qed.

(** ** Interleavings *)

Abbreviation ok_event := (ok_event queue_off).

(** An event of the kernel that is not the node's: other threads call it, on other
    semaphores, and do not stop the node's thread. *)
Definition foreign (k : kernel) (e : kevent) : Prop :=
  match e with
  | KInit _ _ => False
  | KStop t => t <> node
  | KBlock => k_cur k <> node
  | KWait q _ => k_cur k <> node /\ q <> sem
  | KSignal q => q <> sem
  | _ => True
  end.

(** The node's thread runs; it waits with a waitee of its own. *)
Definition node_runs (pc : loop_pc) (w : Z) (ks : sys) (k : kernel) : Prop :=
  k_cur k = node /\ k_state k !! node = Some THREAD_STATE_RUNNING /\
  (pc = AtWait -> ok_event (KWait sem w) ks k).

Inductive node_step : loop_pc * nsys -> loop_pc * nsys -> Prop :=
| ns_arrival pc s a s' k :
    arrival_ok a -> rep (kern s) k -> sem_room k -> arrives a s = Ok tt s' -> node_step (pc, s) (pc, s')
| ns_loop pc s w pc' s' k :
    rep (kern s) k -> node_runs pc w (kern s) k ->
    loop_step queue_off sem uninit can_send NUM_OUTPUT w pc s = Ok pc' s' -> node_step (pc, s) (pc', s')
| ns_other pc s e k ks' :
    rep (kern s) k -> ok_event e (kern s) k -> foreign k e -> run_event queue_off e (kern s) = Ok tt ks' ->
    node_step (pc, s) (pc, set_kern ks' s).

(** The node sleeps on its semaphore, with nothing requested, or it is awake, and
    has a unit of the semaphore for what is requested before it waits again. *)
Definition asleep (pc : loop_pc) (k : kernel) : Prop :=
  pc = InWait /\ exists w, k_sems k !! sem = Some (-1, [(w, node)]).
Definition awake (k : kernel) (v : Z) : Prop :=
  k_sems k !! sem = Some (v, []) /\ 0 <= v < 128 /\ k_state k !! node = Some THREAD_STATE_RUNNING.

Definition sync (pc : loop_pc) (r : Z) (k : kernel) : Prop :=
  (asleep pc k /\ r = 0) \/ (exists v, awake k v /\ (pc <> InWait -> r <> 0 -> 0 < v)).

(** The outputs the loop has yet to look at. *)
Definition will (pc : loop_pc) (i : nat) : Prop :=
  match pc with Publish r => wants_output r = true | Output _ j => (j <= i)%nat | _ => False end.

Definition follows (pc : loop_pc) (s : nsys) : Prop :=
  forall i o c, outputs s !! i = Some o -> c_outputs (conf s) !! i = Some c ->
    o_state o = demanded o c \/ wants_output (reqs s) = true \/ will pc i.

Record node_inv (c : loop_pc * nsys) : Prop := {
  ni_shape : shaped c.2;
  ni_kernel : exists k, rep (kern c.2) k /\ wf_kernel k /\ irqs_off (kern c.2) = false /\ sync c.1 (reqs c.2) k;
  ni_follows : follows c.1 c.2;
  ni_driven : driven c.2;
  ni_sensors : sensors_ok c.2 }.

(** ** The kernel's part *)

Lemma a_set_running_keeps t k : k_state k !! node = Some THREAD_STATE_RUNNING ->
  k_state (a_set_state t THREAD_STATE_RUNNING k) !! node = Some THREAD_STATE_RUNNING.
Proof. intros H. simpl. destruct (decide (t = node)) as [->|]; [by rewrite lookup_insert_eq|by rewrite lookup_insert_ne]. Qed.

Lemma a_signal_keeps q v ws k : k_state k !! node = Some THREAD_STATE_RUNNING ->
  k_state (a_signal q v ws k) !! node = Some THREAD_STATE_RUNNING.
Proof. intros H. destruct ws as [|[w t] ws]; simpl; [done|]. by apply (a_set_running_keeps t (a_put_sem q (v + 1) ws k)). Qed.

Lemma foreign_keeps e ks k : foreign k e -> ok_event e ks k -> wf_kernel k -> is_Some (k_sems k !! sem) ->
  k_sems (spec_event k e) !! sem = k_sems k !! sem /\
  (k_state k !! node = Some THREAD_STATE_RUNNING -> k_state (spec_event k e) !! node = Some THREAD_STATE_RUNNING).
Proof.
  intros Hf Hok Hw [x Hx]. destruct e; simpl in *; try done.
  - destruct Hok as (_ & (Hnew & _) & _). split; [done|]. intros H. rewrite lookup_insert_ne; [done|].
    intros ->. apply Hnew, (wk_dom _ k (wk_threads _ k Hw)). by rewrite H.
  - split; [done|]. apply (a_set_running_keeps t k).
  - split; [done|]. intros H. by rewrite lookup_insert_ne.
  - split; [done|]. intros H. by rewrite lookup_insert_ne.
  - destruct Hok as [Hq _]. rewrite lookup_insert_ne; [done|]. intros ->. congruence.
  - destruct Hf as [Hc Hq]. unfold a_wait. destruct (_ >? _); simpl; rewrite lookup_insert_ne by done; [done|].
    split; [done|]. intros H. by rewrite lookup_insert_ne.
  - split; [|apply a_signal_keeps]. unfold a_signal. destruct (sem_of k q).2 as [|[w t] ws]; simpl; by rewrite lookup_insert_ne.
Qed.

Lemma sync_foreign pc r e ks k : foreign k e -> ok_event e ks k -> wf_kernel k -> sync pc r k -> sync pc r (spec_event k e).
Proof.
  intros Hf Hok Hw [ [ [Hpc (w & Hq)] Hr]|(v & (Hq & Hv & Hrun) & Hr)];
    destruct (foreign_keeps e ks k Hf Hok Hw ltac:(by rewrite Hq)) as [E1 E2].
  - left. split; [|done]. split; [done|]. exists w. by rewrite E1.
  - right. exists v. split; [|done]. split; [by rewrite E1|]. split; [done|by apply E2].
Qed.

Lemma sync_signal pc r r' k : sem_room k -> sync pc r k -> sync pc r' (spec_event k (KSignal sem)).
Proof.
  intros (v0 & ws0 & E0 & Hv0) [ [ [Hpc (w & Hq)] Hr]|(v & (Hq & Hv & Hrun) & Hr)]; right; simpl; unfold sem_of; rewrite Hq; simpl.
  - exists 0. split; [|done]. split; [simpl; by rewrite lookup_insert_eq|]. split; [lia|]. simpl. by rewrite lookup_insert_eq.
  - exists (v + 1). split; [|lia]. split; [simpl; by rewrite lookup_insert_eq|]. split; [|done].
    replace v with v0 in * by congruence. lia.
Qed.

Lemma sync_wait w r ks k : node_runs AtWait w ks k -> sync AtWait r k -> sync InWait r (spec_event k (KWait sem w)).
Proof.
  intros (Hcur & _ & Hok) [ [ [Hpc _] _]|(v & (Hq & Hv & Hrun) & Hr)]; [done|].
  simpl. unfold sem_of. rewrite Hq. simpl. unfold a_wait. destruct (Z.gtb_spec v 0) as [Hpos|Hle].
  - right. exists (v - 1). split; [|done]. split; [simpl; by rewrite lookup_insert_eq|]. split; [lia|done].
  - left. split.
    + split; [done|]. exists w. simpl. rewrite lookup_insert_eq, Hcur. by replace v with 0 by lia.
    + destruct (decide (r = 0)) as [|Hne]; [done|]. specialize (Hr ltac:(done) Hne). lia.
Qed.

Lemma sync_awake pc pc' r r' k : k_state k !! node = Some THREAD_STATE_RUNNING -> wf_kernel k -> sync pc r k ->
  (pc <> InWait /\ r' = r \/ r' = 0) -> sync pc' r' k.
Proof.
  intros Hrun Hw [ [ [Hpc (w & Hq)] Hr]|(v & Hv & Hr)] Hr'.
  - destruct (wk_waiting _ k Hw _ _ _ w node Hq) as [_ []]; [by left|done].
  - right. exists v. split; [done|]. intros _. destruct Hr' as [ [Hpc ->]| ->]; [by apply Hr|done].
Qed.

(** ** The invariant is kept *)

Lemma inv_quiet pc pc' (s s' : nsys) : node_inv (pc, s) -> quiet s s' ->
  (forall k, rep (kern s) k -> wf_kernel k -> sync pc (reqs s) k -> sync pc' (reqs s) k) ->
  (follows pc s -> follows pc' s) -> node_inv (pc', s').
Proof.
  intros [Hs (k & Hr & Hw & Hi & Hy) Hf Hd Hn] [Q1 Q2 Q3 Q4 Q5 Q6 (es & He & Hes)] Hsync Hfol; simpl in *. split; simpl.
  - destruct Hs. split; by rewrite ?Q1, ?Q3, ?Q4.
  - exists k. rewrite Q5, Q2. auto.
  - intros i o c. rewrite Q3, Q4, Q2. by apply Hfol.
  - intros i o. rewrite Q3, He, level_app_quiet by done. apply Hd.
  - unfold sensors_ok. by rewrite Q6.
Qed.

Lemma shaped_touched s s' : shaped s -> touched s s' -> shaped s'.
Proof.
  intros [S1 S2 S3 S4 S5 S6] [T1 T2 T3 _ _ _ _ _]. split.
  - by rewrite <-(Forall2_length _ _ _ T2).
  - clear S1 S6. induction T2 as [|o o' os os' (_ & _ & E) _ IH]; [done|]. apply Forall_cons in S2 as [? ?].
    constructor; [congruence|by apply IH].
  - by rewrite <-(Forall2_length _ _ _ T3).
  - clear S3. induction T3 as [|c c' cs cs' E _ IH]; [done|]. apply Forall_cons in S4 as [? ?].
    constructor; [congruence|by apply IH].
  - by rewrite T1.
  - replace (pin <$> outputs s') with (pin <$> outputs s); [done|]. clear S1 S2 S6.
    induction T2 as [|o o' os os' (_ & E & _) _ IH]; [done|]. rewrite !fmap_cons. by f_equal.
Qed.

Lemma inv_touched pc (s s1 : nsys) ks k : node_inv (pc, s) -> touched s s1 -> rep (kern s) k -> sem_room k ->
  rep ks (spec_event k (KSignal sem)) -> wf_kernel (spec_event k (KSignal sem)) -> irqs_off ks = false ->
  node_inv (pc, set_kern ks s1).
Proof.
  intros [Hs (k0 & Hr & Hw & Hi & Hy) Hf Hd Hn] Ht Hrk Hroom Hrep Hwf Hirq. simpl in *. split; simpl.
  - destruct (shaped_touched s s1 Hs Ht). by split.
  - exists (spec_event k (KSignal sem)). rewrite (rep_inj _ _ _ _ Hr Hrk) in Hy. split; [done|]. split; [done|]. split; [done|].
    by eapply sync_signal.
  - intros i o c Ho Hc. simpl in *. destruct (t_follow _ _ Ht) as [Hx|(E1 & E2 & Hx)]; [by right; left|].
    rewrite E1 in Ho. rewrite E2 in Hc. destruct (Hf i o c Ho Hc) as [|[Hx'|] ]; [by left|congruence|by right; right].
  - intros i o' Ho'. simpl in *. destruct (Forall2_lookup_r _ _ _ _ _ (t_outputs _ _ Ht) Ho') as (o & Ho & (E1 & E2 & _)).
    rewrite E1, E2, (t_trace _ _ Ht). by apply Hd in Ho.
  - unfold sensors_ok. simpl. by rewrite (t_regy _ _ Ht).
Qed.

Lemma inv_arrival pc (s s' : nsys) a k : node_inv (pc, s) -> arrival_ok a -> rep (kern s) k -> sem_room k ->
  exists s', arrives a s = Ok tt s' /\ node_inv (pc, s').
Proof.
  intros Hinv Ha Hrk Hroom. destruct (arrives_runs a s (ni_shape _ Hinv) Ha) as [(s1 & E & Hq)|(s1 & E & Ht)].
  - exists s1. split; [done|]. by eapply inv_quiet.
  - destruct (ni_kernel _ Hinv) as (k0 & Hr & Hw & Hi & Hy). rewrite (rep_inj _ _ _ _ Hr Hrk) in *. simpl in *.
    rewrite <-(t_kern _ _ Ht) in Hrk, Hi. destruct (signal_run s1 k Hrk Hw Hi Hroom) as (ks & E1 & Hrep & Hwf & Hirq).
    exists (set_kern ks s1). split; [by rewrite E|]. rewrite (t_kern _ _ Ht) in Hrk. by apply (inv_touched pc s s1 ks k).
Qed.

Lemma inv_other pc (s : nsys) e k ks : node_inv (pc, s) -> rep (kern s) k -> ok_event e (kern s) k -> foreign k e ->
  run_event queue_off e (kern s) = Ok tt ks -> node_inv (pc, set_kern ks s).
Proof.
  intros [Hs (k0 & Hr & Hw & Hi & Hy) Hf Hd Hn] Hrk Hok Hfor E. rewrite (rep_inj _ _ _ _ Hr Hrk) in *. simpl in *.
  destruct (event_refines queue_off (kern s) k e Hrk Hw Hi Hok) as (ks' & E' & Hrep & Hwf & Hirq).
  rewrite E in E'. injection E' as <-. split; simpl; [by destruct Hs| |done|done|done].
  exists (spec_event k e). split; [done|]. split; [done|]. split; [done|]. by eapply sync_foreign.
Qed.

Abbreviation loop_step := (loop_step queue_off sem uninit can_send NUM_OUTPUT).

Lemma loop_wait (s : nsys) w k : node_inv (AtWait, s) -> rep (kern s) k -> node_runs AtWait w (kern s) k ->
  exists s', loop_step w AtWait s = Ok InWait s' /\ node_inv (InWait, s').
Proof.
  intros [Hs (k0 & Hr & Hw & Hi & Hy) Hf Hd Hn] Hrk Hrun. rewrite (rep_inj _ _ _ _ Hr Hrk) in *. simpl in *.
  pose proof Hrun as (_ & _ & Hok). specialize (Hok eq_refl).
  destruct (event_refines queue_off (kern s) k (KWait sem w) Hrk Hw Hi Hok) as (ks & E & Hrep & Hwf & Hirq).
  exists (set_kern ks s). split; [unfold bind, on_kern; simpl in E; by rewrite E|].
  split; simpl; [by destruct Hs| |done|done|done].
  exists (spec_event k (KWait sem w)). split; [done|]. split; [done|]. split; [done|]. by eapply sync_wait.
Qed.

Lemma loop_fetch (s : nsys) w k : node_inv (InWait, s) -> rep (kern s) k -> node_runs InWait w (kern s) k ->
  exists s', loop_step w InWait s = Ok (Publish (reqs s)) s' /\ node_inv (Publish (reqs s), s').
Proof.
  intros [Hs (k0 & Hr & Hw & Hi & Hy) Hf Hd Hn] Hrk (_ & Hrun & _). rewrite (rep_inj _ _ _ _ Hr Hrk) in *. simpl in *.
  eexists. split; [reflexivity|]. split; simpl; [by destruct Hs| | |done|done].
  - exists k. split; [by apply rep_irqs, rep_irqs|]. split; [done|]. split; [done|]. eapply sync_awake; [done|done|exact Hy|by right].
  - intros i o c Ho Hc. destruct (Hf i o c Ho Hc) as [|[| [] ] ]; [by left|by right; right].
Qed.

Lemma loop_publish (s : nsys) r w k : node_inv (Publish r, s) -> rep (kern s) k -> node_runs (Publish r) w (kern s) k ->
  exists pc' s', loop_step w (Publish r) s = Ok pc' s' /\ node_inv (pc', s').
Proof.
  intros Hinv Hrk (_ & Hrun & _). destruct (publish_sensors_returns r s (ni_sensors _ Hinv)) as ([] & s1 & E).
  exists (if wants_output r then Output r 0 else Save r), s1.
  split; [simpl; by rewrite (bind_ok _ _ _ _ _ E)|].
  eapply inv_quiet; [done|by eapply quietly_publish_sensors| |].
  - intros k' Hr' Hw' Hy'. rewrite (rep_inj _ _ _ _ Hr' Hrk) in *. eapply sync_awake; [done|done|exact Hy'|by left].
  - intros Hf i o c Ho Hc. destruct (Hf i o c Ho Hc) as [|[|Hx] ]; [by left|by right; left|]. simpl in Hx. rewrite Hx. right. right. simpl. lia.
Qed.

Lemma loop_output (s : nsys) r i w k : node_inv (Output r i, s) -> rep (kern s) k -> node_runs (Output r i) w (kern s) k ->
  exists pc' s', loop_step w (Output r i) s = Ok pc' s' /\ node_inv (pc', s').
Proof.
  intros Hinv Hrk (_ & Hrun & _). pose proof Hinv as [Hs (k0 & Hr & Hw & Hi & Hy) Hf Hd Hn]. simpl in *.
  rewrite (rep_inj _ _ _ _ Hr Hrk) in *. destruct (Nat.ltb_spec i NUM_OUTPUT) as [Hlt|Hge].
  - destruct (get_output_ok i s Hs Hlt) as (o & Ho & Hlo & _). destruct (get_oconf_ok i s Hs Hlt) as (c & Hc & _).
    destruct (update_output_run r i o c s Ho Hc) as (s1 & E & Hu). rewrite (bind_ok _ _ _ _ _ E).
    exists (Output r (Datatypes.S i)), s1. split; [done|]. pose proof (updated_driven i o c s s1 Hs Ho Hu Hd) as Hd1.
    destruct Hu as [U1 U2 U3 U4 U5 U6 _]. split; simpl; [| | |done|by unfold sensors_ok; rewrite U6].
    + destruct Hs. split; rewrite ?U1, ?U3, ?U4; try done; [by rewrite length_insert|by apply Forall_insert|by rewrite pins_update].
    + exists k. rewrite U5, U2. split; [done|]. split; [done|]. split; [done|]. eapply sync_awake; [done|done|exact Hy|by left].
    + intros j o' c'. rewrite U3, U4, U2. intros Ho' Hc'. destruct (decide (i = j)) as [<-|Hne].
      * rewrite list_lookup_insert_eq in Ho' by (by eapply lookup_lt_Some). left. injection Ho' as <-.
        rewrite Hc in Hc'. by injection Hc' as <-.
      * rewrite list_lookup_insert_ne in Ho' by done. destruct (Hf j o' c' Ho' Hc') as [|[|Hx] ]; [by left|by right; left|].
        right. right. simpl in *. lia.
  - eexists _, _. split; [reflexivity|]. eapply inv_quiet; [done|reflexivity| |].
    + intros k' Hr' Hw' Hy'. rewrite (rep_inj _ _ _ _ Hr' Hrk) in *. eapply sync_awake; [done|done|exact Hy'|by left].
    + intros _ j o c Ho Hc. destruct (Hf j o c Ho Hc) as [|[|Hx] ]; [by left|by right; left|].
      apply lookup_lt_Some in Ho. rewrite (sh_outputs s Hs) in Ho. simpl in Hx. lia.
Qed.

Lemma loop_save (s : nsys) r w k : node_inv (Save r, s) -> rep (kern s) k -> node_runs (Save r) w (kern s) k ->
  exists s', loop_step w (Save r) s = Ok AtWait s' /\ node_inv (AtWait, s').
Proof.
  intros Hinv Hrk (_ & Hrun & _).
  assert (exists s', save_config r s = Ok tt s' /\ quiet s s') as (s1 & E & Hq).
  { unfold save_config. destruct (truth _); [|by exists s]. eexists. split; [reflexivity|]. split; try done.
    eexists [_]. split; [done|]. by repeat constructor. }
  exists s1. split; [simpl; by rewrite (bind_ok _ _ _ _ _ E)|]. eapply inv_quiet; [done|done| |done].
  intros k' Hr' Hw' Hy'. rewrite (rep_inj _ _ _ _ Hr' Hrk) in *. eapply sync_awake; [done|done|exact Hy'|by left].
Qed.

Lemma inv_loop pc (s : nsys) w k : node_inv (pc, s) -> rep (kern s) k -> node_runs pc w (kern s) k ->
  exists pc' s', loop_step w pc s = Ok pc' s' /\ node_inv (pc', s').
Proof.
  destruct pc; intros Hinv Hrk Hrun.
  - destruct (loop_wait s w k Hinv Hrk Hrun) as (s' & ? & ?). eauto.
  - destruct (loop_fetch s w k Hinv Hrk Hrun) as (s' & ? & ?). eauto.
  - by eapply loop_publish.
  - by eapply loop_output.
  - destruct (loop_save s r w k Hinv Hrk Hrun) as (s' & ? & ?). eauto.
Qed.

Lemma inv_step c c' : node_step c c' -> node_inv c -> node_inv c'.
Proof.
  intros [pc s a s' k Ha Hr Hroom E|pc s w pc' s' k Hr Hrun E|pc s e k ks' Hr Hok Hf E] Hinv.
  - destruct (inv_arrival pc s s' a k Hinv Ha Hr Hroom) as (s1 & E1 & H1). rewrite E in E1. by injection E1 as <-.
  - destruct (inv_loop pc s w k Hinv Hr Hrun) as (pc1 & s1 & E1 & H1). rewrite E in E1. by injection E1 as <- <-.
  - by eapply inv_other.
Qed.

(** ** A round of the loop *)

(** What is left of a round. *)
Definition rank (pc : loop_pc) : nat :=
  match pc with
  | AtWait => 0
  | InWait => NUM_OUTPUT + 4
  | Publish _ => NUM_OUTPUT + 3
  | Output _ i => 2 + (NUM_OUTPUT - i)
  | Save _ => 1
  end.

Definition after_loop (pc : loop_pc) (w : Z) (k : kernel) : kernel :=
  match pc with AtWait => spec_event k (KWait sem w) | _ => k end.

Lemma loop_rep pc (s : nsys) w k pc' s' : node_inv (pc, s) -> rep (kern s) k -> node_runs pc w (kern s) k ->
  loop_step w pc s = Ok pc' s' -> rep (kern s') (after_loop pc w k) /\ (pc <> AtWait -> (rank pc' < rank pc)%nat).
Proof.
  intros Hinv Hrk Hrun E. destruct pc as [| |r|r i|r]; simpl in E.
  - destruct Hinv as [_ (k0 & Hr & Hw & Hi & _) _ _ _]. rewrite (rep_inj _ _ _ _ Hr Hrk) in *. simpl in *.
    destruct (event_refines queue_off (kern s) k (KWait sem w) Hrk Hw Hi (proj2 (proj2 Hrun) eq_refl)) as (ks & Ek & Hrep & _).
    unfold bind, on_kern in E. simpl in Ek. rewrite Ek in E. injection E as <- <-. by split.
  - injection E as <- <-. split; [by apply rep_irqs, rep_irqs|]. intros _. simpl. lia.
  - apply bind_inv in E as ([] & s1 & E1 & [= <- <-]). split; [by rewrite (q_kern _ _ (quietly_publish_sensors r _ _ _ E1))|].
    intros _. destruct (wants_output r); simpl; lia.
  - destruct (Nat.ltb_spec i NUM_OUTPUT) as [Hlt|]; [|injection E as <- <-; split; [done|simpl; lia] ].
    apply bind_inv in E as ([] & s1 & E1 & [= <- <-]). split; [|simpl; lia].
    pose proof (ni_shape _ Hinv) as Hs. simpl in Hs. destruct (get_output_ok i s Hs Hlt) as (o & Ho & _).
    destruct (get_oconf_ok i s Hs Hlt) as (c & Hc & _). destruct (update_output_run r i o c s Ho Hc) as (s2 & E2 & Hu).
    rewrite E1 in E2. injection E2 as <-. simpl. by rewrite (u_kern _ _ _ _ _ Hu).
  - apply bind_inv in E as ([] & s1 & E1 & [= <- <-]). split; [|simpl; lia]. unfold save_config in E1. simpl.
    destruct (truth _); by injection E1 as <-.
Qed.

(** Left alone, the node's thread comes back to its semaphore. *)
Lemma round_ends (w : Z) k : forall pc (s : nsys), node_inv (pc, s) -> rep (kern s) k -> k_cur k = node ->
  k_state k !! node = Some THREAD_STATE_RUNNING -> pc <> AtWait ->
  exists n s', nsteps node_step n (pc, s) (AtWait, s') /\ (n <= rank pc)%nat /\ rep (kern s') k.
Proof.
  intros pc. induction pc as [pc IH] using (induction_ltof1 _ rank). unfold ltof in IH. intros s Hinv Hr Hcur Hrun Hpc.
  assert (node_runs pc w (kern s) k) as Hn by (split; [done|split; [done|by intros ->] ]).
  destruct (inv_loop pc s w k Hinv Hr Hn) as (pc1 & s1 & E & Hinv1). destruct (loop_rep _ _ _ _ _ _ Hinv Hr Hn E) as [Hr1 Hlt].
  replace (after_loop pc w k) with k in Hr1 by (by destruct pc). specialize (Hlt Hpc).
  assert (node_step (pc, s) (pc1, s1)) as Hstep by (by eapply ns_loop).
  assert (pc1 = AtWait \/ pc1 <> AtWait) as [->|Hne] by (destruct pc1; auto).
  - exists 1%nat, s1. split; [by apply nsteps_once|]. split; [lia|done].
  - destruct (IH pc1 Hlt s1 Hinv1 Hr1 Hcur Hrun Hne) as (n & s2 & Hn2 & Hle & Hr2).
    exists (Datatypes.S n), s2. split; [by eapply nsteps_l|]. split; [lia|done].
Qed.

(** ** The node after [can_node_init] *)

Record node_start (s : nsys) (k : kernel) : Prop := {
  st_shape : shaped s;
  st_zero : Forall (fun o => o_state o = false /\ manual_state o = false /\ Forall (fun st => st = false) (srcs o)) (outputs s);
  st_reqs : reqs s = 0;
  st_trace : Forall no_gpio (ntrace s);
  st_sensors : sensors_ok s;
  st_rep : rep (kern s) k;
  st_wf : wf_kernel k;
  st_irqs : irqs_off (kern s) = false;
  st_sem : k_sems k !! sem = Some (0, []);
  st_running : k_state k !! node = Some THREAD_STATE_RUNNING }.

Lemma start_inv (s : nsys) k : node_start s k -> node_inv (AtWait, s).
Proof.
  intros [Hs Hz Hq Ht Hn Hr Hw Hi Hsem Hrun]. split; simpl; [done| | | |done].
  - exists k. split; [done|]. split; [done|]. split; [done|]. right. exists 0. rewrite Hq. by split.
  - intros i o c Ho Hc. left. destruct (Forall_lookup_1 _ _ _ _ Hz Ho) as (E1 & E2 & E3). rewrite E1. unfold demanded.
    destruct (mode c =? _); [done|]. induction E3 as [|b bs -> _ IH]; [done|exact IH].
  - intros i o Ho. destruct (Forall_lookup_1 _ _ _ _ Hz Ho) as (E1 & _). rewrite E1.
    exact (level_app_quiet (pin o) [] (ntrace s) Ht).
Qed.

(** C9: The node follows its sources.  Let the outputs have different pins, and let
    every call of the driver's [can_send] and of a sensor's operation come back to its
    caller; such a call is here a part of the step that makes it.  (From the receive
    interrupt, where discovery is answered, the LPC11xx's [can_send] does so only while
    the bus is free.)  However frames, sensor timeouts, the node's thread and the rest of
    the system's threads interleave after [can_node_init]: when the thread sleeps on its
    semaphore, no work is requested, and every output has, and has written to its pin,
    the state its sources or the manual setting demand; no receive callback fails while
    the semaphore's counter has room, nor does a step of the thread; and a round of the
    thread, once out of its wait, is back at it after at most [NUM_OUTPUT + 4] steps. *)
Theorem node_follows s0 k0 pc s :
  node_start s0 k0 -> rtc node_step (AtWait, s0) (pc, s) ->
  exists k, rep (kern s) k /\ wf_kernel k /\
    (asleep pc k -> reqs s = 0 /\
       forall i o c, outputs s !! i = Some o -> c_outputs (conf s) !! i = Some c ->
         o_state o = demanded o c /\ level (pin o) (ntrace s) = demanded o c) /\
    (forall a, arrival_ok a -> sem_room k -> exists s', arrives a s = Ok tt s') /\
    (forall w, node_runs pc w (kern s) k -> exists pc' s', loop_step w pc s = Ok pc' s') /\
    (k_cur k = node -> k_state k !! node = Some THREAD_STATE_RUNNING -> pc <> AtWait ->
       exists n s', nsteps node_step n (pc, s) (AtWait, s') /\ (n <= NUM_OUTPUT + 4)%nat).
Proof.
  intros Hst Hsteps.
  assert (node_inv (pc, s)) as Hinv.
  { apply start_inv in Hst. revert Hst. generalize (AtWait, s0) as c0, (pc, s) as c, Hsteps. clear -Hsend.
    induction 1 as [|c1 c2 c3 H12 _ IH]; [done|]. intros H1. by apply IH, (inv_step c1). }
  destruct (ni_kernel _ Hinv) as (k & Hr & Hw & Hi & Hy). exists k. split; [done|]. split; [done|]. simpl in *.
  split; [|split; [|split] ].
  - intros [-> (w & Hq)]. destruct Hy as [ [_ Hz]|(v & (Hq' & Hv & _) & _)]; [|congruence]. split; [done|].
    intros i o c Ho Hc. destruct (ni_follows _ Hinv i o c Ho Hc) as [Hs|[Hx|Hx] ]; [|simpl in Hx; by rewrite Hz in Hx|done].
    split; [done|]. rewrite <-Hs. by eapply (ni_driven _ Hinv).
  - intros a Ha Hroom. destruct (inv_arrival pc s s a k Hinv Ha Hr Hroom) as (s' & E & _). eauto.
  - intros w Hrun. destruct (inv_loop pc s w k Hinv Hr Hrun) as (pc' & s' & E & _). eauto.
  - intros Hcur Hrun Hpc. destruct (round_ends NULL k pc s Hinv Hr Hcur Hrun Hpc) as (n & s' & Hn & Hle & _).
    exists n, s'. split; [done|]. destruct pc; simpl in Hle; lia.
Qed.

(** ** Following a concrete run *)

Definition reach (s0 : nsys) (c : loop_pc * nsys) (k : kernel) : Prop :=
  rtc node_step (AtWait, s0) c /\ node_inv c /\ rep (kern c.2) k.

Lemma reach_start s0 k0 : node_start s0 k0 -> reach s0 (AtWait, s0) k0.
Proof. intros H. split; [done|]. split; [by eapply start_inv|apply H]. Qed.

Lemma reach_loop s0 pc s k w pc' s' : reach s0 (pc, s) k -> node_runs pc w (kern s) k ->
  loop_step w pc s = Ok pc' s' -> reach s0 (pc', s') (after_loop pc w k).
Proof.
  intros (Hrtc & Hinv & Hr) Hrun E. assert (node_step (pc, s) (pc', s')) as Hstep by (by eapply ns_loop).
  split; [by eapply rtc_r|]. split; [by eapply inv_step|]. by eapply loop_rep.
Qed.

Lemma reach_signal s0 pc s k a s' : reach s0 (pc, s) k -> arrival_ok a -> sem_room k ->
  arrives a s = Ok tt s' -> reqs s' <> reqs s -> reach s0 (pc, s') (spec_event k (KSignal sem)).
Proof.
  intros (Hrtc & Hinv & Hr) Ha Hroom E Hne. assert (node_step (pc, s) (pc, s')) as Hstep by (by eapply ns_arrival).
  split; [by eapply rtc_r|]. split; [by eapply inv_step|].
  destruct (arrives_runs a s (ni_shape _ Hinv) Ha) as [(s1 & E1 & Hq)|(s1 & E1 & Ht)].
  - rewrite E in E1. injection E1 as <-. destruct Hne. apply (q_reqs _ _ Hq).
  - destruct (ni_kernel _ Hinv) as (k0 & Hr0 & Hw & Hi & _). rewrite (rep_inj _ _ _ _ Hr0 Hr) in *. simpl in *.
    rewrite <-(t_kern _ _ Ht) in Hr, Hi. destruct (signal_run s1 k Hr Hw Hi Hroom) as (ks & E2 & Hrep & _).
    rewrite E, E2 in E1. injection E1 as ->. exact Hrep.
Qed.
End Spec.
