(* ===== verification/CanNodeProps.v ===== *)
(** * CanNodeProps: what nodes tell each other

    Identifiers and readings between two nodes, the effect of a reading on a source,
    and a run of [node_follows] on the lists of [core/list.c]. *)
From S2P Require Import Prelude ListApi DList Fw Sched Semaphore SchedSpec SchedRun Eeprom Sensor CanNode CanNodeSpec.

(** ** Identifiers and values *)

Lemma field_testbit x w k n : 0 <= w -> 0 <= k ->
  Z.testbit (Z.shiftl (Z.land x (Z.ones w)) k) n = (k <=? n) && (n <? k + w) && Z.testbit x (n - k).
Proof.
  intros Hw Hk. destruct (Z.lt_ge_cases n 0) as [Hn|Hn]; [by rewrite Z.testbit_neg_r, (proj2 (Z.leb_gt k n)) by lia|].
  rewrite Z.shiftl_spec by done. destruct (Z.leb_spec k n) as [Hkn|]; [|by rewrite Z.testbit_neg_r by lia].
  rewrite Z.land_spec, Z.testbit_ones_nonneg by lia. rewrite andb_comm. f_equal. apply eq_bool_prop_intro. rewrite !Is_true_true. lia.
Qed.

Lemma id_testbit from to topic n : Z.testbit (can_id_build from to topic) n =
  ((20 <=? n) && (n <? 29) && Z.testbit topic (n - 20)) || ((10 <=? n) && (n <? 20) && Z.testbit from (n - 10))
  || ((0 <=? n) && (n <? 10) && Z.testbit to n).
Proof.
  unfold can_id_build. rewrite !Z.lor_spec. change 0x1FF with (Z.ones 9). change 0x3FF with (Z.ones 10).
  rewrite !field_testbit by lia. f_equal. rewrite <-(Z.shiftl_0_r (Z.land to (Z.ones 10))), field_testbit by lia. by rewrite Z.sub_0_r.
Qed.

(** The fields of an identifier are those it was built from. *)
Lemma can_id_roundtrip from to topic : in_u 10 from -> in_u 10 to -> in_u 9 topic ->
  let id := can_id_build from to topic in
  can_id_extract_from id = from /\ can_id_extract_to id = to /\ can_id_extract_topic id = topic.
Proof.
  intros Hf Ht Hp. unfold can_id_extract_from, can_id_extract_to, can_id_extract_topic.
  change 0x1FF with (Z.ones 9). change 0x3FF with (Z.ones 10).
  assert (forall x w n, in_u w x -> 0 <= w <= n -> Z.testbit x n = false) as Hhigh by (intros; by eapply in_u_testbit_high).
  split; [|split]; apply Z.bits_inj'; intros n Hn; rewrite Z.land_spec, ?Z.shiftr_spec, Z.testbit_ones_nonneg, id_testbit by lia.
  - destruct (Z.ltb_spec n 10); [|by rewrite andb_false_r, (Hhigh from 10)]. rewrite andb_true_r.
    replace (n + 10 - 10) with n by lia. rewrite (proj2 (Z.leb_gt 20 (n + 10))), (proj2 (Z.ltb_ge (n + 10) 10)) by lia.
    rewrite (proj2 (Z.leb_le 10 (n + 10))), (proj2 (Z.ltb_lt (n + 10) 20)) by lia. simpl. by rewrite andb_false_r, orb_false_r.
  - destruct (Z.ltb_spec n 10); [|by rewrite andb_false_r, (Hhigh to 10)]. rewrite andb_true_r.
    rewrite (proj2 (Z.leb_gt 20 n)), (proj2 (Z.leb_gt 10 n)), (proj2 (Z.leb_le 0 n)) by lia. done.
  - destruct (Z.ltb_spec n 9); [|by rewrite andb_false_r, (Hhigh topic 9)]. rewrite andb_true_r.
    replace (n + 20 - 20) with n by lia. rewrite (proj2 (Z.leb_le 20 (n + 20))), (proj2 (Z.ltb_lt (n + 20) 29)) by lia.
    rewrite (proj2 (Z.ltb_ge (n + 20) 20)), (proj2 (Z.ltb_ge (n + 20) 10)) by lia. by rewrite !andb_false_r, !orb_false_r.
Qed.

(** The value the receiver of [bs] computes. *)
Definition be_value (bs : list Z) (k : nat) : Z :=
  i32 (Z.lor (Z.lor (Z.lor (Z.shiftl (nth k bs 0) 24) (Z.shiftl (nth (1 + k) bs 0) 16)) (Z.shiftl (nth (2 + k) bs 0) 8)) (nth (3 + k) bs 0)).

Lemma byte_part t k n : 0 <= k ->
  Z.testbit (Z.shiftl (u8 (Z.shiftr t k)) k) n = (k <=? n) && (n <? k + 8) && Z.testbit t n.
Proof.
  intros Hk. unfold wrap. rewrite <-Z.land_ones, field_testbit by lia.
  destruct (Z.leb_spec k n); [|done]. simpl. rewrite Z.shiftr_spec by lia. by replace (n - k + k) with n by lia.
Qed.

Lemma be_bytes_value t k1 k2 rest : - 2 ^ 31 <= t < 2 ^ 31 -> be_value (k1 :: k2 :: be_bytes t ++ rest) 2 = t.
Proof.
  intros Ht. unfold be_value, be_bytes. cbn [nth app Nat.add].
  replace (Z.lor _ _) with (u32 t).
  { unfold sgn. rewrite wrap_wrap. exact (sgn_id 32 t ltac:(lia) Ht). }
  apply Z.bits_inj'. intros n Hn. rewrite wrap_testbit, !Z.lor_spec, !byte_part by lia.
  rewrite <-(Z.shiftl_0_r (u8 (Z.shiftr t 0))), byte_part by lia.
  destruct (Z.testbit t n); [rewrite !andb_true_r|by rewrite !andb_false_r].
  apply eq_bool_prop_intro. rewrite !Is_true_true. lia.
Qed.

Section Props.
Context {S L W : Type} `{LA : ListApi S L} (queue_off : Z) (sem uninit : Z) (can_send : can_frame -> Z -> M W Z) (NUM_OUTPUT NUM_OUTPUT_SOURCE : nat).
Abbreviation nsys := (CanNode.nsys (S := S) (L := L) (W := W)).
Abbreviation rep := (rep queue_off).
Abbreviation wf_kernel := (wf_kernel queue_off).
Abbreviation shaped := (shaped NUM_OUTPUT NUM_OUTPUT_SOURCE).

(** ** A reading on its way *)

(** What a value makes of the state of a source. *)
Definition hysteresis (st : bool) (v : Z) (c : can_node_output_src_config) : bool :=
  if st then negb (v <? off_value c) else v >? on_value c.

Definition source_at (s : nsys) (p : nat * nat) : option can_node_output_src_config :=
  c ← c_outputs (conf s) !! p.1; sources c !! p.2.

(** The first source of [n], at output [i] and source [j], is [c]. *)
Definition first_source (s : nsys) (n : Z) (i j : nat) (c : can_node_output_src_config) : Prop :=
  exists pre post, all_sources NUM_OUTPUT NUM_OUTPUT_SOURCE = pre ++ (i, j) :: post /\
    Forall (fun p => exists c', source_at s p = Some c' /\ src_node_id c' <> n) pre /\
    source_at s (i, j) = Some c /\ src_node_id c = n.

Definition reading (n kind idx t : Z) : can_frame :=
  mk_frame (can_id_build n CAN_NODE_BROADCAST_ID 500) CAN_FRAME_FLAG_EXT 6 ((kind :: idx :: be_bytes t) ++ replicate 2 uninit).

Lemma oconf_source s i j c : source_at s (i, j) = Some c ->
  exists oc, get_oconf i s = Ok oc s /\ sources oc !! j = Some c.
Proof.
  unfold source_at, get_oconf, deref. simpl. destruct (c_outputs (conf s) !! i) as [oc|]; [|done]. intros E. by exists oc.
Qed.

Lemma sensor_loop_first f s i j c : first_source s (can_id_extract_from (id f)) i j c ->
  can_node_sensor_callback queue_off sem NUM_OUTPUT NUM_OUTPUT_SOURCE f s = source_value queue_off sem f i j c s.
Proof.
  intros (pre & post & E & Hpre & Hc & Hn). unfold can_node_sensor_callback. rewrite E. clear E.
  induction Hpre as [|[i' j'] pre (c' & Hc' & Hne) _ IH]; cbn [sensor_loop app].
  - destruct (oconf_source s i j c Hc) as (oc & E1 & E2). rewrite (bind_ok _ _ _ _ _ E1).
    rewrite (bind_ok _ _ s c s) by (unfold deref; by rewrite E2). by rewrite Hn, Z.eqb_refl.
  - destruct (oconf_source s i' j' c' Hc') as (oc & E1 & E2). rewrite (bind_ok _ _ _ _ _ E1).
    rewrite (bind_ok _ _ s c' s) by (unfold deref; by rewrite E2). by rewrite (proj2 (Z.eqb_neq _ _) Hne).
Qed.

Lemma publish_sends kind t (m : M nsys (Z * option Z)) x x1 : m x = Ok (STATUS_OK, Some t) x1 ->
  publish uninit can_send kind m x = (let! _ := hand_over can_send (reading (node_id x1) kind (pub_idx x1) t) in ret tt) x1.
Proof. intros E. unfold publish. by rewrite (bind_ok _ _ _ _ _ E). Qed.

Lemma handed_over f st w (x : nsys) : can_send f 0 (world x) = Ok st w ->
  (let! _ := hand_over can_send f in ret tt) x = Ok tt (mk_nsys (node_id x) (reqs x) (outputs x) (conf x) (pub_idx x) (kern x) (regy x) w (ntrace x ++ [EvSend f])).
Proof. intros E. unfold hand_over, on_world, emit, modify, bind, ret. cbn. by rewrite E. Qed.

Lemma source_value_reading (s : nsys) n kind idx t i j c o st :
  - 2 ^ 31 <= t < 2 ^ 31 -> sensor_type c = kind -> sensor_idx c = idx ->
  outputs s !! i = Some o -> srcs o !! j = Some st ->
  source_value queue_off sem (reading n kind idx t) i j c s =
  if Bool.eqb st (hysteresis st t c) then Ok tt s
  else on_kern (semaphore_signal queue_off sem)
         (set_reqs (Z.lor (reqs s) kCanNodeWorkReqOutput)
           (set_outputs (<[i := mk_output (o_state o) (manual_state o) (pin o) (<[j := hysteresis st t c]> (srcs o))]> (outputs s)) s)).
Proof.
  intros Ht <- <- Ho Hst. unfold source_value.
  pose proof (be_bytes_value t (sensor_type c) (sensor_idx c) (replicate 2 uninit) Ht) as Hv. unfold be_value in Hv.
  change (byte (reading n _ _ t) 0) with (sensor_type c). change (byte (reading n _ _ t) 1) with (sensor_idx c).
  rewrite !Z.eqb_refl. cbn [data_length reading Z.ltb Z.compare Pos.compare Pos.compare_cont andb].
  rewrite (bind_ok _ _ s o s) by (unfold get_output, deref; by rewrite Ho).
  rewrite (bind_ok _ _ s st s) by (unfold deref; by rewrite Hst).
  unfold byte, reading. cbn [data]. cbn [Nat.add app nth] in Hv |- *. rewrite Hv. cbv zeta. unfold hysteresis.
  destruct st; simpl; [destruct (t <? _)|destruct (t >? _)]; done.
Qed.

(** C24: what one node publishes another understands: the frame handed to [can_send] for
    a reading [t] of sensor [idx] carries the sender's identifier, and sets the receiver's
    first source of that node, when this is the source of that sensor, by the
    hysteresis of its two thresholds, whatever the sign of the value; a change
    requests the update of the outputs and signals the node's thread, and without a
    change nothing happens. *)
Theorem reading_received (x x1 : nsys) (m : M nsys (Z * option Z)) kind t (s : nsys) k i j c o st :
  m x = Ok (STATUS_OK, Some t) x1 -> in_u 10 (node_id x1) -> - 2 ^ 31 <= t < 2 ^ 31 ->
  rep (kern s) k -> wf_kernel k -> irqs_off (kern s) = false -> sem_room sem k ->
  first_source s (node_id x1) i j c -> sensor_type c = kind -> sensor_idx c = pub_idx x1 ->
  outputs s !! i = Some o -> srcs o !! j = Some st ->
  exists f s', publish uninit can_send kind m x = (let! _ := hand_over can_send f in ret tt) x1 /\
    (forall r w, can_send f 0 (world x1) = Ok r w ->
       exists x2, publish uninit can_send kind m x = Ok tt x2 /\ ntrace x2 = ntrace x1 ++ [EvSend f]) /\
    can_id_extract_from (id f) = node_id x1 /\ can_id_extract_topic (id f) = 500 /\
    can_node_sensor_callback queue_off sem NUM_OUTPUT NUM_OUTPUT_SOURCE f s = Ok tt s' /\
    (if Bool.eqb st (hysteresis st t c) then s' = s
     else outputs s' = <[i := mk_output (o_state o) (manual_state o) (pin o) (<[j := hysteresis st t c]> (srcs o))]> (outputs s) /\
          conf s' = conf s /\ reqs s' = Z.lor (reqs s) kCanNodeWorkReqOutput /\ rep (kern s') (spec_event k (KSignal sem))).
Proof.
  intros Em Hn Ht Hr Hw Hi Hroom Hfirst Hkind Hidx Ho Hst.
  destruct (can_id_roundtrip (node_id x1) CAN_NODE_BROADCAST_ID 500 Hn ltac:(done) ltac:(done)) as (E1 & _ & E2).
  pose proof (source_value_reading s (node_id x1) _ _ t i j c o st Ht Hkind Hidx Ho Hst) as Hsv.
  rewrite <-(sensor_loop_first _ s i j c) in Hsv by (unfold reading; cbn [id]; by rewrite E1).
  destruct (event_refines queue_off (kern s) k (KSignal sem) Hr Hw Hi Hroom) as (ks & E & Hrep & _). simpl in E.
  pose proof (publish_sends kind t m x x1 Em) as Hp. set (f := reading (node_id x1) kind (pub_idx x1) t) in *.
  assert (forall r w, can_send f 0 (world x1) = Ok r w -> exists x2, publish uninit can_send kind m x = Ok tt x2 /\ ntrace x2 = ntrace x1 ++ [EvSend f]) as Hx.
  { intros r w Hc. rewrite Hp, (handed_over f r w x1 Hc). by eexists. }
  destruct (Bool.eqb _ _); exists f; eexists; (split; [exact Hp|]); (split; [exact Hx|]); (split; [exact E1|]); (split; [exact E2|]).
  - by split.
  - unfold on_kern in Hsv. simpl in Hsv. rewrite E in Hsv. by split.
Qed.

(** A change that nobody asked for is written to the pin, but the state that is
    compared after the assignment never differs: it is not sent. *)
Lemma change_not_broadcast r i o c (s : nsys) : outputs s !! i = Some o -> c_outputs (conf s) !! i = Some c ->
  truth (Z.land r kCanNodeWorkReqOutputResponse) = false ->
  exists s', update_output uninit can_send r i s = Ok tt s' /\
    ntrace s' = ntrace s ++ (if Bool.eqb (o_state o) (demanded o c) then [] else [EvGpio (pin o) (demanded o c)]).
Proof.
  intros Ho Hc Hr. unfold update_output. pose proof (lookup_lt_Some _ _ _ Ho) as Hlt.
  rewrite (bind_ok _ _ s c s) by (unfold get_oconf, deref; by rewrite Hc).
  rewrite (bind_ok _ _ s o s) by (unfold get_output, deref; by rewrite Ho). cbv zeta. rewrite Hr.
  destruct (Bool.eqb (o_state o) (demanded o c)) eqn:Eo.
  - exists s. rewrite app_nil_r. split; [|done]. rewrite (bind_ok _ _ s tt s) by done.
    rewrite (bind_ok _ _ s o s) by (unfold get_output, deref; by rewrite Ho). by rewrite Eo.
  - eexists. split; [|shelve]. rewrite (bind_ok _ _ s tt _) by done. unfold bind at 1, get_output at 1, deref. simpl.
    rewrite list_lookup_insert_eq by done. simpl. by rewrite eqb_reflx. Unshelve. done.
Qed.

(** The source that is found first hides the others of its node: a reading of
    another sensor of that node is dropped. *)
Lemma other_sensor_ignored f (s : nsys) i j c : first_source s (can_id_extract_from (id f)) i j c ->
  sensor_type c <> byte f 0 \/ sensor_idx c <> byte f 1 ->
  can_node_sensor_callback queue_off sem NUM_OUTPUT NUM_OUTPUT_SOURCE f s = Ok tt s.
Proof.
  intros Hf Hne. rewrite (sensor_loop_first f s i j c Hf). unfold source_value. destruct (_ <? 6); [done|].
  destruct (Z.eqb_spec (byte f 0) (sensor_type c)), (Z.eqb_spec (byte f 1) (sensor_idx c)); simpl; try done.
  destruct Hne; congruence.
Qed.
End Props.
(** ** A run of a node

    One output on pin 7 with one source, sensor 3 of kind 0 of the node 5, switched on
    above 200 and off below 100; the node's thread is the thread at 100. *)

Abbreviation ex_nsys := (CanNode.nsys (S := store) (L := list_t) (W := list Z)).

(** A driver that takes every frame. *)
Definition ex_can_send (f : can_frame) (flags : Z) : M (list Z) Z := ret STATUS_OK.
Lemma ex_sends : sends_return ex_can_send. Proof. intros f flags w. by exists STATUS_OK, w. Qed.

Definition ex_setup : list kevent := [KInit 100 0; KSemInit 400 0].
Definition ex_kernel : kernel := foldl spec_event kernel_start ex_setup.
Definition ex_oconf : can_node_output_config := mk_oconf kCanNodeOutputModeAuto [mk_src 5 0 3 100 200].
Definition ex_conf : can_node_config := mk_nconf 77 [ex_oconf].

Definition ex_kern : Sched.sys (S := store) (L := list_t) :=
  match run_events 20 ex_setup ex_start with Ok _ s => s | Fault _ => ex_start end.

Definition ex_node : ex_nsys :=
  mk_nsys 9 0 [mk_output false false 7 [false] ] ex_conf 0 ex_kern (mk_sensors list_init (fresh_store []) ∅) [] [].

(** The sender's temperature, 250, as its sensor 3. *)
Definition ex_frame : can_frame := reading 0 5 0 3 250.

Lemma ex_node_start : node_start 20 400 1 1 100 ex_node ex_kernel.
Proof.
  assert (ok_events 20 ex_setup ex_start kernel_start) as Hok by (apply ok_events_b_ok; vm_compute; reflexivity).
  destruct (events_refine 20 ex_start kernel_start ex_setup) as (e & He & Hr & Hw & Hi);
    [apply (start_rep (L := list_t))|apply (start_rep (S := store) (L := list_t) 20 ex_store)|done|exact Hok|].
  assert (kern ex_node = e) as Hk by (simpl; unfold ex_kern; by rewrite He). split; rewrite ?Hk; try done.
  - split; try done; [by repeat constructor|by repeat constructor|apply NoDup_singleton].
  - by repeat constructor.
  - exists []. split; [split; [apply list_init_rep|by intros x ?%not_elem_of_nil]|by intros x ?%not_elem_of_nil].
Qed.

Definition next (w : Z) (c : loop_pc * ex_nsys) : loop_pc * ex_nsys :=
  match loop_step 20 400 0 ex_can_send 1 w c.1 c.2 with Ok pc s => (pc, s) | Fault _ => c end.
Definition hear (a : arrival) (c : loop_pc * ex_nsys) : loop_pc * ex_nsys :=
  match arrives 20 400 0 ex_can_send 1 1 a c.2 with Ok _ s => (c.1, s) | Fault _ => c end.

Abbreviation ex_reach := (reach (S := store) (L := list_t) (W := list Z) 20 400 0 ex_can_send 1 1 100 ex_node).

Lemma ex_next w c k : ex_reach c k ->
  (k_cur k =? 100) && (bool_decide (k_state k !! 100 = Some THREAD_STATE_RUNNING) &&
    (match c.1 with AtWait => ok_event_b 20 (KWait 400 w) (kern c.2) k | _ => true end &&
     match loop_step 20 400 0 ex_can_send 1 w c.1 c.2 with Ok _ _ => true | Fault _ => false end)) = true ->
  ex_reach (next w c) (after_loop 400 c.1 w k).
Proof.
  destruct c as [pc s]. intros Hreach. rewrite !andb_true_iff. intros (Hc & Hs & Hok & Hrun). unfold next. simpl in *.
  destruct (loop_step 20 400 0 ex_can_send 1 w pc s) as [pc' s'|] eqn:E; [|done]. eapply reach_loop; [exact ex_sends|done| |exact E].
  split; [by apply Z.eqb_eq|]. split; [by apply bool_decide_eq_true in Hs|]. intros ->. by apply ok_event_b_ok.
Qed.

Lemma ex_hear a c k : ex_reach c k -> arrival_ok a -> sem_room 400 k ->
  match arrives 20 400 0 ex_can_send 1 1 a c.2 with Ok _ s => negb (reqs s =? reqs c.2) | Fault _ => false end = true ->
  ex_reach (hear a c) (spec_event k (KSignal 400)).
Proof.
  destruct c as [pc s]. intros Hreach Ha Hroom. unfold hear. simpl.
  destruct (arrives 20 400 0 ex_can_send 1 1 a s) as [ [] s'|] eqn:E; [|done]. intros Hne. eapply reach_signal; try done; [exact ex_sends|].
  intros Heq. by rewrite Heq, Z.eqb_refl in Hne.
Qed.

(** The reading arrives, and the thread takes its way round the loop to sleep. *)
Definition ex_end : loop_pc * ex_nsys := Nat.iter 7 (next 300) (hear (Frame SensorValue ex_frame) (AtWait, ex_node)).
Definition ex_end_kernel : kernel :=
  spec_event (spec_event (spec_event ex_kernel (KSignal 400)) (KWait 400 300)) (KWait 400 300).

Lemma ex_end_reach : ex_reach ex_end ex_end_kernel.
Proof.
  assert (ex_reach (hear (Frame SensorValue ex_frame) (AtWait, ex_node)) (spec_event ex_kernel (KSignal 400))) as H0.
  { apply ex_hear; [apply reach_start, ex_node_start| | |vm_compute; reflexivity].
    - split; [done|]. repeat constructor; done.
    - exists 0, []. split; [vm_compute; reflexivity|lia]. }
  unfold ex_end. do 7 (apply (ex_next 300) in H0; [|vm_compute; reflexivity]). exact H0.
Qed.

Lemma node_follows_witness :
  exists s, node_start 20 400 1 1 100 ex_node ex_kernel /\
    rtc (node_step 20 400 0 ex_can_send 1 1 100) (AtWait, ex_node) (InWait, s) /\ reqs s = 0 /\
    (exists o, outputs s !! 0%nat = Some o /\ o_state o = true /\ level (pin o) (ntrace s) = true).
Proof.
  assert (exists pc s o, ex_end = (pc, s) /\ pc = InWait /\ outputs s !! 0%nat = Some o /\
            c_outputs (conf s) !! 0%nat = Some ex_oconf /\ demanded o ex_oconf = true) as (pc & s & o & Ee & -> & Eo & Ec & Hd).
  { eexists _, _, _. vm_compute. repeat split. }
  pose proof ex_end_reach as Hreach. rewrite Ee in Hreach. clear Ee. destruct Hreach as (Hrtc & _ & Hr).
  exists s. split; [exact ex_node_start|]. split; [exact Hrtc|].
  destruct (node_follows 20 400 0 ex_can_send 1 1 100 ex_sends ex_node ex_kernel InWait s ex_node_start Hrtc) as (k & Hrk & _ & Hsleep & _).
  rewrite (rep_inj 20 _ _ _ Hrk Hr) in Hsleep. destruct Hsleep as [Hq Ho].
  { split; [reflexivity|]. exists 300. vm_compute. reflexivity. }
  split; [exact Hq|]. exists o. split; [exact Eo|]. destruct (Ho 0%nat o ex_oconf Eo Ec) as [H1 H2].
  by rewrite H1, H2, Hd.
Defined.

(** A sender whose sensor 3, a temperature, reads 250. *)
Definition ex_sender : ex_nsys := mk_nsys 5 0 [] ex_conf 3 ex_kern (mk_sensors list_init (fresh_store []) ∅) [] [].

Lemma reading_received_witness :
  exists x2 f s', publish 0 ex_can_send 0 (ret (STATUS_OK, Some 250)) ex_sender = Ok tt x2 /\ ntrace x2 = [EvSend f] /\
    can_node_sensor_callback 20 400 1 1 f ex_node = Ok tt s' /\ outputs s' = [mk_output false false 7 [true] ].
Proof.
  destruct ex_node_start as [_ _ _ _ _ Hr Hw Hi Hs _].
  destruct (reading_received 20 400 0 ex_can_send 1 1 ex_sender ex_sender (ret (STATUS_OK, Some 250)) 0 250 ex_node ex_kernel 0 0
              (mk_src 5 0 3 100 200) (mk_output false false 7 [false]) false) as (f & s' & _ & Hx & _ & _ & E3 & E4 & _).
  - reflexivity.
  - split; [done|reflexivity].
  - lia.
  - exact Hr.
  - exact Hw.
  - exact Hi.
  - exists 0, []. split; [exact Hs|lia].
  - exists [], []. split; [reflexivity|]. split; [apply Forall_nil_2|]. split; reflexivity.
  - reflexivity.
  - reflexivity.
  - reflexivity.
  - reflexivity.
  - destruct (Hx STATUS_OK [] eq_refl) as (x2 & E1 & E2). exists x2, f, s'. split; [exact E1|]. split; [exact E2|]. split; [exact E3|]. exact E4.
Defined.
