(* ===== verification/I2c.v ===== *)
(** * I2c: the interrupt-driven I2C master

    [platform/lpc11xx/i2c.c].  A transfer sets up the device structure, sets the
    start flag and waits; the interrupt handler drives the controller from the
    status it reads.  The controller is given: its status and data registers and
    what a write to a register makes of it.  The two semaphores are their
    counters: the thread that waits on zero sleeps, and interrupts come until it is
    signalled ([Semaphore], [SchedSpec]).  Log messages are left out. *)
From S2P Require Import Prelude Fw Eeprom.

Definition kCONSET_I2EN : Z := Z.shiftl 1 6.
Definition kCONSET_AA : Z := Z.shiftl 1 2.
Definition kCONSET_SI : Z := Z.shiftl 1 3.
Definition kCONSET_STO : Z := Z.shiftl 1 4.
Definition kCONSET_STA : Z := Z.shiftl 1 5.
Definition kCONCLR_ACC : Z := Z.shiftl 1 2.
Definition kCONCLR_SIC : Z := Z.shiftl 1 3.
Definition kCONCLR_STAC : Z := Z.shiftl 1 5.
Definition kCONCLR_I2ENC : Z := Z.shiftl 1 6.

(** A write to a register of [LPC_I2C]. *)
Inductive reg_write := DAT (b : Z) | CONSET (x : Z) | CONCLR (x : Z).

Record i2c_dev := mk_i2c_dev {
  lock : Z; done : Z;
  status : Z; addr : Z;
  writeBuffer : list Z; writeBufferIndex : Z;
  readBuffer : list Z; readBufferIndex : Z }.

Definition writeBufferLength (d : i2c_dev) : Z := Z.of_nat (length (writeBuffer d)).
Definition readBufferLength (d : i2c_dev) : Z := Z.of_nat (length (readBuffer d)).

Definition set_done (v : Z) d := mk_i2c_dev (lock d) v (status d) (addr d) (writeBuffer d) (writeBufferIndex d) (readBuffer d) (readBufferIndex d).
Definition set_lock (v : Z) d := mk_i2c_dev v (done d) (status d) (addr d) (writeBuffer d) (writeBufferIndex d) (readBuffer d) (readBufferIndex d).
Definition set_status (v : Z) d := mk_i2c_dev (lock d) (done d) v (addr d) (writeBuffer d) (writeBufferIndex d) (readBuffer d) (readBufferIndex d).
Definition set_writeBufferIndex (v : Z) d := mk_i2c_dev (lock d) (done d) (status d) (addr d) (writeBuffer d) v (readBuffer d) (readBufferIndex d).
Definition set_readBufferIndex (v : Z) d := mk_i2c_dev (lock d) (done d) (status d) (addr d) (writeBuffer d) (writeBufferIndex d) (readBuffer d) v.
Definition set_readBuffer (v : list Z) d := mk_i2c_dev (lock d) (done d) (status d) (addr d) (writeBuffer d) (writeBufferIndex d) v (readBufferIndex d).

Section I2c.
(** The controller: [LPC_I2C->STAT], [LPC_I2C->DAT], and a write to a register. *)
Context {C : Type} (stat dat : C -> Z) (wr : reg_write -> C -> C).

Record bus := mk_bus { global_dev : i2c_dev; ctl : C }.
Definition on_dev (f : i2c_dev -> i2c_dev) : M bus unit := modify (fun b => mk_bus (f (global_dev b)) (ctl b)).
Definition write_reg (w : reg_write) : M bus unit := modify (fun b => mk_bus (global_dev b) (wr w (ctl b))).
Definition signal_done : M bus unit := on_dev (fun d => set_done (done d + 1) d).

(** [writeBuffer[writeBufferIndex++]] *)
Definition next_byte : M bus Z :=
  let! v := deref (fun b => writeBuffer (global_dev b) !! Z.to_nat (writeBufferIndex (global_dev b))) in
  run! on_dev (fun d => set_writeBufferIndex (u32 (writeBufferIndex d + 1)) d) in
  ret v.

(** [readBuffer[readBufferIndex++] = LPC_I2C->DAT] *)
Definition store_byte : M bus unit :=
  let! v := gets (fun b => dat (ctl b)) in
  let! i := gets (fun b => readBufferIndex (global_dev b)) in
  let! _ := deref (fun b => readBuffer (global_dev b) !! Z.to_nat i) in
  on_dev (fun d => set_readBufferIndex (u32 (i + 1)) (set_readBuffer (<[Z.to_nat i := v]> (readBuffer d)) d)).

(** Acknowledge the next byte unless it is the last one. *)
Definition acknowledge : M bus unit :=
  let! more := gets (fun b => u32 (readBufferIndex (global_dev b) + 1) <? readBufferLength (global_dev b)) in
  if (more : bool) then write_reg (CONSET kCONSET_AA) else write_reg (CONCLR kCONCLR_ACC).

Definition write_left (b : bus) : bool := writeBufferIndex (global_dev b) <? writeBufferLength (global_dev b).

(** The interrupt handler, without its log lines.  Their arguments are read from the
    write buffer: after a missing acknowledge (0x20, 0x48) [writeBuffer[0]] and
    [writeBuffer[1]], the second beyond a buffer of one byte, such as that of the SHT2x
    driver; in an unhandled state [writeBuffer[0]].  The values go into the log only. *)
Definition i2c_dev_isr : M bus unit :=
  let! state := gets (fun b => u8 (stat (ctl b))) in
  if state =? 0x08 then
    run! on_dev (set_writeBufferIndex 0) in
    let! a := gets (fun b => addr (global_dev b)) in
    run! write_reg (DAT a) in
    write_reg (CONCLR (Z.lor kCONCLR_SIC kCONCLR_STAC))
  else if state =? 0x10 then
    run! on_dev (set_readBufferIndex 0) in
    let! a := gets (fun b => addr (global_dev b)) in
    run! write_reg (DAT (Z.lor a 1)) in
    write_reg (CONCLR (Z.lor kCONCLR_SIC kCONCLR_STAC))
  else if state =? 0x18 then
    let! more := gets write_left in
    run! (if (more : bool) then let! v := next_byte in write_reg (DAT v) else write_reg (CONSET kCONSET_STO)) in
    write_reg (CONCLR kCONCLR_SIC)
  else if state =? 0x28 then
    let! more := gets write_left in
    let! n := gets (fun b => readBufferLength (global_dev b)) in
    run! (if (more : bool) then let! v := next_byte in write_reg (DAT v)
          else if n >? 0 then write_reg (CONSET kCONSET_STA)
          else
            run! write_reg (CONSET kCONSET_STO) in
            run! on_dev (set_status STATUS_OK) in
            signal_done) in
    write_reg (CONCLR kCONCLR_SIC)
  else if state =? 0x40 then run! acknowledge in write_reg (CONCLR kCONCLR_SIC)
  else if state =? 0x50 then run! store_byte in run! acknowledge in write_reg (CONCLR kCONCLR_SIC)
  else if state =? 0x58 then
    run! store_byte in
    run! on_dev (set_status STATUS_OK) in
    run! signal_done in
    run! write_reg (CONSET kCONSET_STO) in
    write_reg (CONCLR kCONCLR_SIC)
  else
    (* 0x20, 0x48 and the default *)
    run! write_reg (CONSET kCONSET_STO) in
    run! write_reg (CONCLR kCONCLR_SIC) in
    run! on_dev (set_status (STATUS_ERR 0)) in
    signal_done.

(** The status when there is no interrupt. *)
Definition no_interrupt : Z := 0xF8.

Definition wait_lock : M bus unit :=
  let! v := gets (fun b => lock (global_dev b)) in
  if v >? 0 then on_dev (set_lock (v - 1)) else fail Diverges.

(** [semaphore_wait(&dev->done)]: interrupts come, at most [fuel], until [done] is
    signalled; if none comes the thread sleeps for ever. *)
Fixpoint wait_done (fuel : nat) : M bus unit :=
  let! v := gets (fun b => done (global_dev b)) in
  if v >? 0 then on_dev (set_done (v - 1))
  else
    match fuel with
    | O => fail Diverges
    | S fuel =>
        let! st := gets (fun b => stat (ctl b)) in
        if st =? no_interrupt then fail Diverges else run! i2c_dev_isr in wait_done fuel
    end.

Definition i2c_dev_transfer (fuel : nat) (address : Z) (wbuf rbuf : list Z) : M bus Z :=
  run! wait_lock in
  run! on_dev (fun d => mk_i2c_dev (lock d) (done d) (status d) address wbuf (writeBufferIndex d) rbuf (readBufferIndex d)) in
  run! write_reg (CONSET kCONSET_STA) in
  run! wait_done fuel in
  let! st := gets (fun b => status (global_dev b)) in
  run! on_dev (fun d => set_lock (lock d + 1) d) in
  ret st.

(** What [i2c_dev_create] leaves in the structure, and the registers it writes
    besides the clock and the pins. *)
Definition i2c_dev_create : M bus unit :=
  run! on_dev (fun d => set_done 0 (set_lock 1 d)) in
  run! write_reg (CONCLR (Z.lor (Z.lor kCONCLR_ACC kCONCLR_SIC) (Z.lor kCONCLR_STAC kCONCLR_I2ENC))) in
  write_reg (CONSET kCONSET_I2EN).
End I2c.
