(* ===== verification/I2cSpec.v ===== *)
(** * I2cSpec: a transfer on the bus

    What the interrupts make of a transfer, for any device on the bus: the bytes
    that pass, the status, and that the thread is woken once, after the last
    interrupt. *)
From S2P Require Import Prelude Fw Eeprom Crc Sensor Sht2x I2c.

(** A device on the bus: whether it acknowledges an address or a byte, the byte it
    sends, and the stop condition. *)
Record slave (D : Type) := mk_slave {
  sl_address : D -> Z -> bool * D;
  sl_write : D -> Z -> bool * D;
  sl_read : D -> Z * D;
  sl_stop : D -> D }.
Arguments sl_address {D}. Arguments sl_write {D}. Arguments sl_read {D}. Arguments sl_stop {D}. Arguments mk_slave {D}.

(** What the user manual of the controller says of the status codes the driver
    uses: after a start condition, the codes 0x08 and 0x10 ask for an address; 0x18
    and 0x28 (0x40) report an acknowledged address and byte (read address); the
    others a missing acknowledge; 0x50 and 0x58 report a received byte; no code is
    pending after a stop. *)
Class Controller (C D : Type) (sl : slave D) (stat dat : C -> Z) (wr : reg_write -> C -> C) (dev : C -> D) := {
  ctl_start c : stat c = 0xF8 -> let c' := wr (CONSET kCONSET_STA) c in stat c' = 0x08 /\ dev c' = dev c;
  ctl_address c a : stat c = 0x08 \/ stat c = 0x10 ->
    let c' := wr (CONCLR (Z.lor kCONCLR_SIC kCONCLR_STAC)) (wr (DAT a) c) in
    let r := sl_address sl (dev c) a in
    stat c' = (if Z.odd a then if r.1 then 0x40 else 0x48 else if r.1 then 0x18 else 0x20) /\ dev c' = r.2;
  ctl_write c b : stat c = 0x18 \/ stat c = 0x28 ->
    let c' := wr (CONCLR kCONCLR_SIC) (wr (DAT b) c) in
    let r := sl_write sl (dev c) b in
    stat c' = (if r.1 then 0x28 else 0x30) /\ dev c' = r.2;
  ctl_restart c : stat c = 0x28 ->
    let c' := wr (CONCLR kCONCLR_SIC) (wr (CONSET kCONSET_STA) c) in stat c' = 0x10 /\ dev c' = dev c;
  ctl_read c (more : bool) : stat c = 0x40 \/ stat c = 0x50 ->
    let c' := wr (CONCLR kCONCLR_SIC) (wr (if more then CONSET kCONSET_AA else CONCLR kCONCLR_ACC) c) in
    let r := sl_read sl (dev c) in
    stat c' = (if more then 0x50 else 0x58) /\ dat c' = r.1 /\ dev c' = r.2;
  ctl_stop c : stat c <> 0xF8 ->
    let c' := wr (CONCLR kCONCLR_SIC) (wr (CONSET kCONSET_STO) c) in stat c' = 0xF8 /\ dev c' = sl_stop sl (dev c) }.

(** ** The transfer as the device sees it *)

Section Device.
Context {D : Type} (sl : slave D).

Fixpoint send (d : D) (bs : list Z) : bool * D :=
  match bs with
  | [] => (true, d)
  | b :: bs => let (ack, d') := sl_write sl d b in if ack then send d' bs else (false, d')
  end.

Fixpoint fetch (d : D) (n : nat) : list Z * D :=
  match n with
  | O => ([], d)
  | S n => let (b, d') := sl_read sl d in let (bs, d'') := fetch d' n in (b :: bs, d'')
  end.

(** The address for reading and as many bytes as fit [rbuf], if there is room. *)
Definition transfer_read (d : D) (a : Z) (rbuf : list Z) : Z * list Z * D :=
  match rbuf with
  | [] => (STATUS_OK, [], sl_stop sl d)
  | _ =>
      let (ack, d) := sl_address sl d (Z.lor a 1) in
      if ack then let (bs, d) := fetch d (length rbuf) in (STATUS_OK, bs, sl_stop sl d)
      else (STATUS_ERR 0, rbuf, sl_stop sl d)
  end.

Definition transfer_write (d : D) (a : Z) (wbuf rbuf : list Z) : Z * list Z * D :=
  let (ack, d) := send d wbuf in
  if ack then transfer_read d a rbuf else (STATUS_ERR 0, rbuf, sl_stop sl d).

(** The address, the bytes, then what is to be read; a byte that is not acknowledged
    ends it. *)
Definition transfer (d : D) (a : Z) (wbuf rbuf : list Z) : Z * list Z * D :=
  let (ack, d) := sl_address sl d a in
  if ack then transfer_write d a wbuf rbuf else (STATUS_ERR 0, rbuf, sl_stop sl d).
End Device.

Section Spec.
Context {C D : Type} {sl : slave D} {stat dat : C -> Z} {wr : reg_write -> C -> C} {dev : C -> D}
  `{HC : !Controller C D sl stat dat wr dev}.
Abbreviation bus := (I2c.bus (C := C)).
Abbreviation isr := (i2c_dev_isr stat dat wr).
Abbreviation wait_done := (wait_done stat dat wr).

(** The wait ends with status [st], the bytes [buf] and the device [d], the bus idle
    and no signal left over. *)
Definition ends (f : nat) (b : bus) (st : Z) (buf : list Z) (d : D) : Prop :=
  exists b', wait_done f b = Ok tt b' /\ lock (global_dev b') = lock (global_dev b) /\ done (global_dev b') = 0 /\
    status (global_dev b') = st /\ readBuffer (global_dev b') = buf /\ stat (ctl b') = 0xF8 /\ dev (ctl b') = d.

(** An interrupt, then the rest. *)
Lemma ends_step f b b1 st buf d : done (global_dev b) = 0 -> stat (ctl b) <> 0xF8 -> isr b = Ok tt b1 ->
  lock (global_dev b1) = lock (global_dev b) -> ends f b1 st buf d -> ends (S f) b st buf d.
Proof.
  intros Hd Hs Ei Hl (b' & E & Hl' & H). exists b'. split; [|split; [congruence|done] ]. cbn [I2c.wait_done].
  rewrite (bind_ok _ _ b 0 b) by (unfold gets; by rewrite Hd). change (0 >? 0) with false. cbv iota.
  rewrite (bind_ok _ _ b (stat (ctl b)) b) by done. unfold no_interrupt. rewrite (proj2 (Z.eqb_neq _ _) Hs).
  by rewrite (bind_ok _ _ _ _ _ Ei).
Qed.

Lemma ends_now f l st a w wi buf ri c d : stat c = 0xF8 -> dev c = d ->
  ends f (mk_bus (mk_i2c_dev l 1 st a w wi buf ri) c) st buf d.
Proof. intros Hs Hd. eexists. split; [by destruct f|]. by repeat split. Qed.

Ltac isr_case st :=
  unfold i2c_dev_isr; unfold bind at 1, gets at 1; cbn [ctl]; rewrite st; reflexivity.

Lemma isr_error l st0 a w wi buf ri c st : stat c = st -> st = 0x20 \/ st = 0x48 \/ st = 0x30 ->
  isr (mk_bus (mk_i2c_dev l 0 st0 a w wi buf ri) c) =
  Ok tt (mk_bus (mk_i2c_dev l 1 (STATUS_ERR 0) a w wi buf ri) (wr (CONCLR kCONCLR_SIC) (wr (CONSET kCONSET_STO) c))).
Proof. intros Hs [-> |[-> | ->] ]; isr_case Hs. Qed.

Lemma ends_error f l st0 a w wi buf ri c st : stat c = st -> st = 0x20 \/ st = 0x48 \/ st = 0x30 ->
  ends (S f) (mk_bus (mk_i2c_dev l 0 st0 a w wi buf ri) c) (STATUS_ERR 0) buf (sl_stop sl (dev c)).
Proof.
  intros Hs Hst. assert (stat c <> 0xF8) as Hne by (rewrite Hs; destruct Hst as [-> |[-> | ->] ]; done).
  destruct (ctl_stop c Hne) as [H1 H2].
  eapply ends_step; [done|done|by eapply isr_error|done|]. by apply ends_now.
Qed.

(** *** The handler, status by status *)

(** Enter the branch of status [n]. *)
Ltac isr_at n Hs :=
  unfold i2c_dev_isr; rewrite (bind_ok _ _ _ n _) by (unfold gets; cbn [ctl]; by rewrite Hs); cbn [Z.eqb Pos.eqb].

Lemma isr_address l st0 a w wi buf ri c : stat c = 0x08 ->
  isr (mk_bus (mk_i2c_dev l 0 st0 a w wi buf ri) c) =
  Ok tt (mk_bus (mk_i2c_dev l 0 st0 a w 0 buf ri) (wr (CONCLR (Z.lor kCONCLR_SIC kCONCLR_STAC)) (wr (DAT a) c))).
Proof. intros Hs. isr_case Hs. Qed.

Lemma isr_address_read l st0 a w wi buf ri c : stat c = 0x10 ->
  isr (mk_bus (mk_i2c_dev l 0 st0 a w wi buf ri) c) =
  Ok tt (mk_bus (mk_i2c_dev l 0 st0 a w wi buf 0) (wr (CONCLR (Z.lor kCONCLR_SIC kCONCLR_STAC)) (wr (DAT (Z.lor a 1)) c))).
Proof. intros Hs. isr_case Hs. Qed.

Lemma isr_send l st0 a w (i : nat) v buf ri c : stat c = 0x18 \/ stat c = 0x28 -> w !! i = Some v -> Z.of_nat (length w) < 2 ^ 32 ->
  isr (mk_bus (mk_i2c_dev l 0 st0 a w (Z.of_nat i) buf ri) c) =
  Ok tt (mk_bus (mk_i2c_dev l 0 st0 a w (Z.of_nat (S i)) buf ri) (wr (CONCLR kCONCLR_SIC) (wr (DAT v) c))).
Proof.
  intros Hs Hv Hw. pose proof (lookup_lt_Some _ _ _ Hv) as Hlt.
  set (b := mk_bus (mk_i2c_dev l 0 st0 a w (Z.of_nat i) buf ri) c).
  assert (write_left b = true) as Hleft by (unfold write_left, writeBufferLength; simpl; apply Z.ltb_lt; lia).
  assert (next_byte b = Ok v (mk_bus (mk_i2c_dev l 0 st0 a w (Z.of_nat (S i)) buf ri) c)) as Hnext.
  { unfold next_byte. rewrite (bind_ok _ _ b v b) by (unfold deref, b; simpl; by rewrite Nat2Z.id, Hv).
    unfold bind, on_dev, modify, ret, set_writeBufferIndex, b. simpl. unfold wrap. rewrite Z.mod_small by lia. do 2 f_equal. f_equal. lia. }
  subst b. destruct Hs as [Hs|Hs]; [isr_at 0x18 Hs|isr_at 0x28 Hs]; unfold bind, gets; rewrite Hleft, Hnext; reflexivity.
Qed.

Lemma isr_sent l st0 a w buf ri c : stat c = 0x28 ->
  isr (mk_bus (mk_i2c_dev l 0 st0 a w (Z.of_nat (length w)) buf ri) c) =
  match buf with
  | [] => Ok tt (mk_bus (mk_i2c_dev l 1 STATUS_OK a w (Z.of_nat (length w)) [] ri) (wr (CONCLR kCONCLR_SIC) (wr (CONSET kCONSET_STO) c)))
  | _ => Ok tt (mk_bus (mk_i2c_dev l 0 st0 a w (Z.of_nat (length w)) buf ri) (wr (CONCLR kCONCLR_SIC) (wr (CONSET kCONSET_STA) c)))
  end.
Proof.
  intros Hs. isr_at 0x28 Hs.
  assert (write_left (mk_bus (mk_i2c_dev l 0 st0 a w (Z.of_nat (length w)) buf ri) c) = false) as Hleft
    by apply Z.ltb_irrefl.
  unfold bind at 1, gets at 1. rewrite Hleft. by destruct buf.
Qed.

(** The handler acknowledges when more bytes are to come. *)
Lemma isr_read_first l st0 a w wi buf c : stat c = 0x40 -> buf <> [] -> Z.of_nat (length buf) < 2 ^ 32 ->
  isr (mk_bus (mk_i2c_dev l 0 st0 a w wi buf 0) c) =
  Ok tt (mk_bus (mk_i2c_dev l 0 st0 a w wi buf 0)
    (wr (CONCLR kCONCLR_SIC) (wr (if (1 <? length buf)%nat then CONSET kCONSET_AA else CONCLR kCONCLR_ACC) c))).
Proof.
  intros Hs Hb Hl. isr_at 0x40 Hs.
  unfold acknowledge, bind, gets, readBufferLength. simpl.
  match goal with |- context [?x <? ?y] => destruct (Z.ltb_spec x y) as [Hx|Hx]; change x with 1 in Hx end;
    destruct (Nat.ltb_spec 1 (length buf)); done || lia.
Qed.

Lemma store_byte_run l dn st0 a w wi (pre : list Z) x old c : Z.of_nat (length (pre ++ x :: old)) < 2 ^ 32 ->
  store_byte dat (mk_bus (mk_i2c_dev l dn st0 a w wi (pre ++ x :: old) (Z.of_nat (length pre))) c) =
  Ok tt (mk_bus (mk_i2c_dev l dn st0 a w wi ((pre ++ [dat c]) ++ old) (Z.of_nat (length (pre ++ [dat c])))) c).
Proof.
  rewrite !length_app. simpl. intros Hl. unfold store_byte, bind, gets, deref, on_dev, modify. simpl. rewrite Nat2Z.id.
  rewrite lookup_app_r, Nat.sub_diag by lia. simpl. unfold set_readBufferIndex, set_readBuffer. simpl.
  replace (u32 (Z.of_nat (length pre) + 1)) with (Z.of_nat (length pre + 1)) by (unfold wrap; rewrite Z.mod_small; lia).
  do 3 f_equal. rewrite <-app_assoc. replace (length pre) with (length pre + 0)%nat by lia. by rewrite insert_app_r.
Qed.

Lemma isr_read_more l st0 a w wi (pre : list Z) x y old c : stat c = 0x50 -> Z.of_nat (length (pre ++ x :: y :: old)) < 2 ^ 32 ->
  isr (mk_bus (mk_i2c_dev l 0 st0 a w wi (pre ++ x :: y :: old) (Z.of_nat (length pre))) c) =
  Ok tt (mk_bus (mk_i2c_dev l 0 st0 a w wi ((pre ++ [dat c]) ++ y :: old) (Z.of_nat (length (pre ++ [dat c]))))
    (wr (CONCLR kCONCLR_SIC) (wr (if (0 <? length old)%nat then CONSET kCONSET_AA else CONCLR kCONCLR_ACC) c))).
Proof.
  intros Hs Hl. isr_at 0x50 Hs.
  rewrite (bind_ok _ _ _ _ _ (store_byte_run l 0 st0 a w wi pre x (y :: old) c Hl)).
  unfold acknowledge, bind, gets, readBufferLength, readBufferIndex, readBuffer, global_dev.
  rewrite !length_app in *. simpl in *. unfold wrap. rewrite Z.mod_small by lia.
  match goal with |- context [?x <? ?y] => destruct (Z.ltb_spec x y) end; destruct (Nat.ltb_spec 0 (length old)); done || lia.
Qed.

Lemma isr_read_last l st0 a w wi (pre : list Z) x c : stat c = 0x58 -> Z.of_nat (length (pre ++ [x])) < 2 ^ 32 ->
  isr (mk_bus (mk_i2c_dev l 0 st0 a w wi (pre ++ [x]) (Z.of_nat (length pre))) c) =
  Ok tt (mk_bus (mk_i2c_dev l 1 STATUS_OK a w wi (pre ++ [dat c]) (Z.of_nat (length (pre ++ [dat c]))))
    (wr (CONCLR kCONCLR_SIC) (wr (CONSET kCONSET_STO) c))).
Proof.
  intros Hs Hl. isr_at 0x58 Hs.
  rewrite (bind_ok _ _ _ _ _ (store_byte_run l 0 st0 a w wi pre x [] c Hl)). by rewrite app_nil_r.
Qed.

(** *** The phases of a transfer *)

Definition ends_as (f : nat) (b : bus) (r : Z * list Z * D) : Prop := ends f b r.1.1 r.1.2 r.2.

Lemma ends_stop f l st a w wi buf ri c : stat c <> 0xF8 ->
  ends f (mk_bus (mk_i2c_dev l 1 st a w wi buf ri) (wr (CONCLR kCONCLR_SIC) (wr (CONSET kCONSET_STO) c))) st buf (sl_stop sl (dev c)).
Proof. intros H. destruct (ctl_stop c H) as [H1 H2]. by apply ends_now. Qed.

Lemma read_phase l st0 a w wi old : forall x pre c f,
  stat c = (if (0 <? length old)%nat then 0x50 else 0x58) -> Z.of_nat (length (pre ++ x :: old)) < 2 ^ 32 -> (length old < f)%nat ->
  ends f (mk_bus (mk_i2c_dev l 0 st0 a w wi (pre ++ x :: old) (Z.of_nat (length pre))) c) STATUS_OK
    (pre ++ dat c :: (fetch sl (dev c) (length old)).1) (sl_stop sl (fetch sl (dev c) (length old)).2).
Proof.
  induction old as [|y old IH]; intros x pre c [|f] Hs Hl Hf; simpl in Hf; try lia.
  - change (0 <? length [])%nat with false in Hs. cbv iota in Hs. assert (stat c <> 0xF8) as Hne by (rewrite Hs; done).
    eapply ends_step; [done|done|by apply isr_read_last|done|]. cbn [fetch length fst snd]. by apply ends_stop.
  - change (0 <? length (y :: old))%nat with true in Hs. cbv iota in Hs. assert (stat c <> 0xF8) as Hne by (rewrite Hs; done).
    eapply ends_step; [done|done|by apply isr_read_more|done|].
    destruct (ctl_read c (0 <? length old)%nat) as (H1 & H2 & H3); [by right|].
    set (c' := wr _ (wr _ c)) in *. cbn [fetch length]. destruct (sl_read sl (dev c)) as [v d] eqn:Er. cbn [fst snd] in *.
    pose proof (IH y (pre ++ [dat c]) c' f H1) as IH1. rewrite H2, H3 in IH1. destruct (fetch sl d (length old)) as [bs d'].
    cbn [fst snd] in *.
    replace (pre ++ dat c :: v :: bs) with ((pre ++ [dat c]) ++ v :: bs) by (by rewrite <-app_assoc). apply IH1; [|lia]. rewrite !length_app in *. simpl in *. lia.
Qed.

Lemma transfer_read_runs l st0 a w c f buf : stat c = 0x28 -> Z.even a = true -> Z.of_nat (length buf) < 2 ^ 32 ->
  (length buf + 2 < f)%nat -> forall ri,
  ends_as f (mk_bus (mk_i2c_dev l 0 st0 a w (Z.of_nat (length w)) buf ri) c) (transfer_read sl (dev c) a buf).
Proof.
  intros Hs Ha Hl Hf ri. assert (stat c <> 0xF8) as Hne by (rewrite Hs; done). destruct f as [|f]; [lia|].
  unfold ends_as, transfer_read. destruct buf as [|x old].
  - eapply ends_step; [done|done|by apply (isr_sent l st0 a w [] ri)|done|]. by apply ends_stop.
  - eapply ends_step; [done|done|by apply (isr_sent l st0 a w (x :: old) ri)|done|].
    destruct (ctl_restart c Hs) as [H1 H2]. set (c1 := wr _ (wr _ c)) in *. assert (stat c1 <> 0xF8) by (rewrite H1; done).
    destruct f as [|f]; [simpl in *; lia|]. destruct (ctl_address c1 (Z.lor a 1)) as [H3 H4]; [by right|]. rewrite H2 in H3, H4.
    assert (Z.odd (Z.lor a 1) = true) as Hodd by (rewrite <-Z.bit0_odd, Z.lor_spec; apply orb_true_r). rewrite Hodd in H3.
    destruct (sl_address sl (dev c) (Z.lor a 1)) as [ [] d] eqn:Ead; cbn [fst snd] in *.
    + eapply ends_step; [done|done|by apply isr_address_read|done|]. set (c2 := wr _ (wr _ c1)) in *.
      assert (stat c2 <> 0xF8) by (rewrite H3; done). destruct f as [|f]; [simpl in *; lia|].
      eapply ends_step; [done|done|by apply isr_read_first|done|].
      destruct (ctl_read c2 (1 <? length (x :: old))%nat) as (H5 & H6 & H7); [by left|]. rewrite H4 in H6, H7.
      pose proof (read_phase l st0 a w (Z.of_nat (length w)) old x [] _ f H5 Hl ltac:(simpl in *; lia)) as Hr. rewrite H6, H7 in Hr.
      cbn [length fetch]. destruct (sl_read sl d) as [v d1]. cbn [fst snd app] in *.
      destruct (fetch sl d1 (length old)) as [bs d2]. exact Hr.
    + eapply ends_step; [done|done|by apply isr_address_read|done|]. destruct f as [|f]; [simpl in *; lia|].
      cbn [fst snd]. rewrite <-H4. eapply ends_error; [exact H3|]. auto.
Qed.

Lemma transfer_write_runs l st0 a w buf : Z.even a = true -> Z.of_nat (length buf) < 2 ^ 32 -> Z.of_nat (length w) < 2 ^ 32 ->
  forall rest i c f ri, drop i w = rest -> (i <= length w)%nat -> stat c = 0x28 \/ (stat c = 0x18 /\ rest <> []) ->
  (length rest + length buf + 2 < f)%nat ->
  ends_as f (mk_bus (mk_i2c_dev l 0 st0 a w (Z.of_nat i) buf ri) c) (transfer_write sl (dev c) a rest buf).
Proof.
  intros Ha Hb Hw. induction rest as [|v rest IH]; intros i c f ri Hd Hi Hs Hf.
  - destruct Hs as [Hs|[_ []]]; [|done]. assert (i = length w) as -> by (apply (f_equal length) in Hd; rewrite length_drop in Hd; simpl in Hd; lia).
    apply transfer_read_runs; try done; simpl in *; lia.
  - destruct f as [|f]; [lia|].
    assert (w !! i = Some v) as Hv by (rewrite <-(Nat.add_0_r i), <-lookup_drop, Hd; done).
    assert (stat c = 0x18 \/ stat c = 0x28) as Hs' by (destruct Hs as [|[? _] ]; auto).
    assert (stat c <> 0xF8) as Hne by (destruct Hs' as [-> | ->]; done).
    unfold ends_as. eapply ends_step; [done|done|by apply isr_send|done|].
    destruct (ctl_write c v Hs') as [H1 H2]. set (c1 := wr _ (wr _ c)) in *.
    unfold transfer_write. cbn [send]. destruct (sl_write sl (dev c) v) as [ [] d] eqn:Ew; cbn [fst snd] in *.
    + pose proof (IH (S i) c1 f ri) as IH1. rewrite H2 in IH1. apply IH1; [|apply lookup_lt_Some in Hv; lia|by left|simpl in Hf; lia].
      apply drop_S in Hv. rewrite Hd in Hv. by injection Hv as <-.
    + destruct f as [|f]; [simpl in Hf; lia|]. rewrite <-H2. eapply ends_error; [exact H1|]. auto.
Qed.

(** The bus between two transfers. *)
Definition idle (b : bus) : Prop := lock (global_dev b) = 1 /\ done (global_dev b) = 0 /\ stat (ctl b) = 0xF8.

Abbreviation i2c_dev_transfer := (i2c_dev_transfer stat dat wr).

Lemma transfer_runs fuel a w buf (b : bus) : idle b -> Z.even a = true -> w <> [] ->
  Z.of_nat (length w) < 2 ^ 32 -> Z.of_nat (length buf) < 2 ^ 32 -> (length w + length buf + 4 < fuel)%nat ->
  let r := transfer sl (dev (ctl b)) a w buf in
  exists b', i2c_dev_transfer fuel a w buf b = Ok r.1.1 b' /\ readBuffer (global_dev b') = r.1.2 /\ dev (ctl b') = r.2 /\ idle b'.
Proof.
  destruct b as [ [l dn st a0 w0 wi0 buf0 ri0] c]. intros (Hl & Hdn & Hs) Ha Hw Hlw Hlb Hf. cbn [ctl global_dev lock done] in *. subst l dn.
  destruct (ctl_start c Hs) as [H1 H2]. set (c1 := wr (CONSET kCONSET_STA) c) in *.
  assert (stat c1 <> 0xF8) as Hne by (rewrite H1; done).
  assert (ends_as fuel (mk_bus (mk_i2c_dev 0 0 st a w wi0 buf ri0) c1) (transfer sl (dev c) a w buf)) as (b' & E & Hl & Hdn & Hst & Hbuf & Hs' & Hd).
  { destruct fuel as [|fuel]; [lia|]. destruct (ctl_address c1 a) as [H3 H4]; [by left|]. rewrite H2 in H3, H4.
    unfold ends_as, transfer. eapply ends_step; [done|done|by apply isr_address|done|].
    assert (Z.odd a = false) as Hodd by (by rewrite <-Z.negb_even, Ha). rewrite Hodd in H3. set (c2 := wr _ (wr _ c1)) in *.
    destruct (sl_address sl (dev c) a) as [ [] d]; cbn [fst snd] in *.
    - rewrite <-H4. apply (transfer_write_runs 0 st a w buf Ha Hlb Hlw w 0); [done|lia|right; split; [exact H3|exact Hw]|lia].
    - destruct fuel as [|fuel]; [lia|]. rewrite <-H4. eapply ends_error; [exact H3|]. auto. }
  exists (mk_bus (set_lock (lock (global_dev b') + 1) (global_dev b')) (ctl b')).
  split; [|split; [exact Hbuf|split; [exact Hd|] ] ].
  - unfold I2c.i2c_dev_transfer, wait_lock, bind, gets, on_dev, modify, write_reg. cbn -[I2c.wait_done kCONSET_STA]. fold c1.
    change (1 - 1) with 0. rewrite E. cbn. by rewrite Hst.
  - split; [|split; [exact Hdn|exact Hs'] ]. cbn in *. by rewrite Hl.
Qed.

(** C11: A transfer on the interrupt-driven bus is what its device sees: the driver
    addresses it, sends the bytes in order until one is not acknowledged, addresses
    it for reading when there is a buffer to fill, fills it with as many bytes,
    acknowledging all but the last, and ends with a stop condition; the interrupts
    wake the thread exactly once, with the status of the transfer, no matter where
    the device fails; and the bus is idle and unlocked again.  This holds for every
    device and every transfer that writes at least a byte. *)
Theorem i2c_transfer_runs fuel a w buf (b : bus) : idle b -> Z.even a = true -> w <> [] ->
  Z.of_nat (length w) < 2 ^ 32 -> Z.of_nat (length buf) < 2 ^ 32 -> (length w + length buf + 4 < fuel)%nat ->
  let r := transfer sl (dev (ctl b)) a w buf in
  exists b', i2c_dev_transfer fuel a w buf b = Ok r.1.1 b' /\ readBuffer (global_dev b') = r.1.2 /\ dev (ctl b') = r.2 /\ idle b'.
Proof. apply transfer_runs. Qed.

(** A transfer that writes nothing never ends: the branch of status 0x18 stops the
    bus without a signal. *)
Lemma empty_write_hangs fuel a buf (b : bus) : idle b -> Z.even a = true -> (sl_address sl (dev (ctl b)) a).1 = true ->
  i2c_dev_transfer fuel a [] buf b = Fault Diverges.
Proof.
  destruct b as [ [l dn st a0 w0 wi0 buf0 ri0] c]. intros (Hl & Hdn & Hs) Ha Hack. cbn [ctl global_dev lock done] in *. subst l dn.
  destruct (ctl_start c Hs) as [H1 H2]. set (c1 := wr (CONSET kCONSET_STA) c) in *.
  assert (wait_done fuel (mk_bus (mk_i2c_dev 0 0 st a [] wi0 buf ri0) c1) = Fault Diverges) as E.
  { destruct fuel as [|fuel]; [done|]. destruct (ctl_address c1 a) as [H3 _]; [by left|]. rewrite H2, Hack in H3.
    assert (Z.odd a = false) as Hodd by (by rewrite <-Z.negb_even, Ha). rewrite Hodd in H3.
    cbn [I2c.wait_done]. unfold bind at 1, gets at 1. cbn [global_dev done]. change (0 >? 0) with false. cbv iota.
    unfold bind at 1, gets at 1. cbn [ctl]. rewrite H1. change (8 =? no_interrupt) with false. cbv iota.
    rewrite (bind_ok _ _ _ _ _ (isr_address 0 st a [] wi0 buf ri0 c1 H1)). set (c2 := wr _ (wr _ c1)) in *.
    destruct fuel as [|fuel]; [done|]. cbn [I2c.wait_done]. unfold bind at 1, gets at 1. cbn [global_dev done]. change (0 >? 0) with false. cbv iota.
    unfold bind at 1, gets at 1. cbn [ctl]. rewrite H3. change (0x18 =? no_interrupt) with false. cbv iota.
    assert (stat c2 <> 0xF8) as Hne by (rewrite H3; done). destruct (ctl_stop c2 Hne) as [H5 _].
    rewrite (bind_ok _ _ _ tt (mk_bus (mk_i2c_dev 0 0 st a [] 0 buf ri0) (wr (CONCLR kCONCLR_SIC) (wr (CONSET kCONSET_STO) c2)))) by (isr_at 0x18 H3; reflexivity).
    destruct fuel as [|fuel]; [done|]. cbn [I2c.wait_done]. unfold bind at 1, gets at 1. cbn [global_dev done]. change (0 >? 0) with false. cbv iota.
    unfold bind at 1, gets at 1. cbn [ctl]. by rewrite H5. }
  unfold I2c.i2c_dev_transfer, wait_lock, bind, gets, on_dev, modify, write_reg. cbn -[I2c.wait_done kCONSET_STA]. fold c1. change (1 - 1) with 0. by rewrite E.
Qed.
End Spec.

(** ** A sensor on the bus *)

Section Sensor.
Context {C D : Type} {sl : slave D} {stat dat : C -> Z} {wr : reg_write -> C -> C} {dev : C -> D}
  `{HC : !Controller C D sl stat dat wr dev}.

(** The transfer as the drivers of the devices call it. *)
Definition bus_transfer (fuel : nat) (a : Z) (w : list Z) (n : Z) : M (bus (C := C)) (Z * list Z) :=
  let! st := i2c_dev_transfer stat dat wr fuel a w (replicate (Z.to_nat n) 0) in
  let! buf := gets (fun b => readBuffer (global_dev b)) in
  ret (st, buf).

Lemma bus_transfer_runs fuel a w n (b : bus) : idle (stat := stat) b -> Z.even a = true -> w <> [] ->
  Z.of_nat (length w) < 2 ^ 32 -> 0 <= n < 2 ^ 32 -> (length w + Z.to_nat n + 4 < fuel)%nat ->
  let r := transfer sl (dev (ctl b)) a w (replicate (Z.to_nat n) 0) in
  exists b', bus_transfer fuel a w n b = Ok r.1 b' /\ dev (ctl b') = r.2 /\ idle (stat := stat) b'.
Proof.
  intros Hb Ha Hw Hl Hn Hf. destruct (transfer_runs (sl := sl) (dev := dev) fuel a w (replicate (Z.to_nat n) 0) b Hb Ha Hw Hl) as (b' & E & Hbuf & Hd & Hi);
    [rewrite length_replicate; lia|rewrite length_replicate; lia|].
  exists b'. split; [|done]. unfold bus_transfer. rewrite (bind_ok _ _ _ _ _ E). unfold bind, gets, ret. rewrite Hbuf.
  by destruct (transfer _ _ _ _ _) as [ [] ].
Qed.

(** C33: The SHT2x driver over the interrupt-driven bus: a sensor that answers the
    command with two bytes and their checksum is read as the temperature or humidity
    of those bytes, a wrong checksum and a missing acknowledge at any point are
    errors, and in every case the bus is idle afterwards. *)
Theorem measurement_over_bus fuel uninit q x (b : bus) :
  idle (stat := stat) b -> (8 < fuel)%nat ->
  let r := transfer sl (dev (ctl b)) 0x80 [command q] [0; 0; 0] in
  Forall is_byte r.1.2 ->
  exists b', dev (ctl b') = r.2 /\ idle (stat := stat) b' /\
    (forall st buf, r.1 = (st, buf) -> st <> STATUS_OK -> measure (bus_transfer fuel) uninit q x b = Ok (-1, None) b') /\
    (forall r0 r1 r2, r.1 = (STATUS_OK, [r0; r1; r2]) ->
       measure (bus_transfer fuel) uninit q x b =
       Ok (if crc8_maxim [r0; r1] =? r2 then (STATUS_OK, Some (scale q * value14 r0 r1 / 65536 + origin q)) else (STATUS_ERR 0, None)) b').
Proof.
  intros Hb Hf r Hbytes. destruct (bus_transfer_runs fuel 0x80 [command q] 3 b Hb) as (b' & E & Hd & Hi); [done|done|simpl; lia|lia|simpl; lia|].
  change (replicate (Z.to_nat 3) 0) with [0; 0; 0] in *. fold r in E, Hd. exists b'. split; [done|]. split; [done|]. split.
  - intros st buf Er Hst. rewrite Er in E. destruct q; unfold measure, sht2x_get_temp, sht2x_get_humidity, sht2x_measure;
      rewrite (bind_ok _ _ _ _ _ E), (proj2 (Z.eqb_neq _ _) Hst); done.
  - intros r0 r1 r2 Er. rewrite Er in E, Hbytes. cbn [snd] in Hbytes. apply Forall_cons in Hbytes as [H0 [H1 _]%Forall_cons].
    rewrite (measure_run _ uninit q x b b' r0 r1 r2 E H0 H1). by destruct (_ =? _).
Qed.
End Sensor.

(** ** A controller and a sensor *)

(** What the next cleared interrupt flag starts. *)
Inductive request := NoRequest | Byte (b : Z) | Start | Stop | Ack | Nack.

Section Controller.
Context {D : Type} (sl : slave D).
Record controller := mk_controller { xstat : Z; xdat : Z; xreq : request; xdev : D }.

Definition proceed (c : controller) : controller :=
  let acked (r : bool * D) (yes no : Z) := mk_controller (if r.1 then yes else no) (xdat c) NoRequest r.2 in
  match xreq c with
  | NoRequest => c
  | Stop => mk_controller 0xF8 (xdat c) NoRequest (sl_stop sl (xdev c))
  | Start => mk_controller 0x10 (xdat c) NoRequest (xdev c)
  | Byte b =>
      if (xstat c =? 0x08) || (xstat c =? 0x10) then
        if Z.odd b then acked (sl_address sl (xdev c) b) 0x40 0x48 else acked (sl_address sl (xdev c) b) 0x18 0x20
      else acked (sl_write sl (xdev c) b) 0x28 0x30
  | Ack => mk_controller 0x50 (sl_read sl (xdev c)).1 NoRequest (sl_read sl (xdev c)).2
  | Nack => mk_controller 0x58 (sl_read sl (xdev c)).1 NoRequest (sl_read sl (xdev c)).2
  end.

Definition set_req (r : request) (c : controller) : controller := mk_controller (xstat c) (xdat c) r (xdev c).

Definition controller_wr (w : reg_write) (c : controller) : controller :=
  match w with
  | DAT b => set_req (Byte b) c
  | CONSET x =>
      if x =? kCONSET_STA then if xstat c =? 0xF8 then mk_controller 0x08 (xdat c) NoRequest (xdev c) else set_req Start c
      else if x =? kCONSET_STO then set_req Stop c
      else if x =? kCONSET_AA then set_req Ack c else c
  | CONCLR x => if Z.testbit x 3 then proceed c else set_req Nack c
  end.

#[export] Instance controller_laws : Controller controller D sl xstat xdat controller_wr xdev.
Proof.
  split; intros [st da rq d]; cbn [xstat xdev].
  - by intros ->.
  - intros a [-> | ->]; cbn; destruct (Z.odd a); done.
  - intros b [-> | ->]; done.
  - by intros ->.
  - intros [] [-> | ->]; done.
  - done.
Qed.
End Controller.

(** A sensor that answers the command 0xE3 with the value 0x6320. *)
Record ex_slave := mk_ex_slave { got : list Z; answer : list Z }.
Definition ex_sensor : slave ex_slave :=
  mk_slave (fun d a => (Z.land a 0xFE =? 0x80, d)) (fun d b => (true, mk_ex_slave (got d ++ [b]) (answer d)))
    (fun d => (hd_or 0xFF (answer d), mk_ex_slave (got d) (tail (answer d)))) (fun d => d).

Definition ex_bus : bus (C := controller (D := ex_slave)) :=
  mk_bus (mk_i2c_dev 1 0 0 0 [] 0 [] 0) (mk_controller 0xF8 0 NoRequest (mk_ex_slave [] [0x63; 0x20; crc8_maxim [0x63; 0x20] ])).

Lemma i2c_transfer_runs_witness :
  exists b', i2c_dev_transfer xstat xdat (controller_wr ex_sensor) 20 0x80 [0xE3] [0; 0; 0] ex_bus = Ok STATUS_OK b' /\
    readBuffer (global_dev b') = [0x63; 0x20; crc8_maxim [0x63; 0x20] ] /\ got (xdev (ctl b')) = [0xE3].
Proof.
  destruct (i2c_transfer_runs (sl := ex_sensor) (dev := xdev) 20 0x80 [0xE3] [0; 0; 0] ex_bus) as (b' & E1 & E2 & E3 & _);
    [done|done|done|simpl; lia|simpl; lia|simpl; lia|].
  exists b'. split; [exact E1|]. split; [exact E2|]. by rewrite E3.
Defined.

Lemma measurement_over_bus_witness :
  exists b', measure (bus_transfer (stat := xstat) (dat := xdat) (wr := controller_wr ex_sensor) 20) 0 Temperature 7 ex_bus =
    Ok (STATUS_OK, Some 21190) b' /\ idle (stat := xstat) b'.
Proof.
  destruct (measurement_over_bus (sl := ex_sensor) (dev := xdev) 20 0 Temperature 7 ex_bus) as (b' & _ & Hi & _ & Hm);
    [done|lia|repeat constructor; unfold in_u; vm_compute; intuition congruence|].
  exists b'. split; [|exact Hi]. rewrite (Hm 0x63 0x20 (crc8_maxim [0x63; 0x20]) eq_refl). reflexivity.
Defined.
