(* ===== verification/CanRom.v ===== *)
(** * CanRom: the CAN driver

    [platform/lpc11xx/net/can/can_rom.c] on the driver in the controller's ROM: what
    the ROM is asked to do is the trace, what it reports is an argument.  The two
    semaphores are those of [Semaphore] in the kernel's state.  [can_send] is given
    as the steps between its waits, so that interrupts and other threads can come
    there.  Error messages are left out. *)
From S2P Require Import Prelude ListApi Fw Sched Semaphore Eeprom CanNode.

Record can_rom_msg := mk_msg { mode_id : Z; mask : Z; msg_data : list Z; dlc : Z; msgobj : Z }.

(** An entry of [receive_conf]: callback and context. *)
Record receive_conf := mk_conf { callback : Z; context : Z }.

Definition LPC11_CAN_EXT_FLAG : Z := 0x20000000.
Definition CAN_FLAG_NOWAIT : Z := Z.shiftl 1 0.
Definition NUM_RECEIVE : nat := 31.

Record can_speed_table_entry := mk_speed { clock : Z; can_speed : Z; divider : Z; btr : Z }.
Definition can_speed_table : list can_speed_table_entry :=
  [mk_speed 12000000 50000 2 0x1c0e; mk_speed 12000000 125000 2 0x1c02; mk_speed 16000000 125000 (8 - 7) 0x1c07].

Inductive can_event :=
| EvRomInit (div btr : Z)
| EvConfigure (m : can_rom_msg)
| EvTransmit (m : can_rom_msg)
| EvCallback (callback : Z) (f : can_frame) (context : Z).

(** What is sent for a frame. *)
Definition msg_of_frame (f : can_frame) : can_rom_msg :=
  mk_msg (if truth (Z.land (flags f) CAN_FRAME_FLAG_EXT) then Z.lor (id f) LPC11_CAN_EXT_FLAG else id f) 0
    (data f) (data_length f) 0.

(** The frame a callback gets; bytes and flags that are not written are [uninit]. *)
Definition frame_of_msg (uninit : Z) (m : can_rom_msg) : can_frame :=
  let ext := truth (Z.land (mode_id m) LPC11_CAN_EXT_FLAG) in
  mk_frame (if ext then Z.land (mode_id m) (u32 (Z.lnot LPC11_CAN_EXT_FLAG)) else mode_id m)
    (if ext then CAN_FRAME_FLAG_EXT else uninit) (dlc m)
    (take (Z.to_nat (dlc m)) (msg_data m) ++ replicate (8 - Z.to_nat (dlc m)) uninit).

Section CanRom.
Context {S L : Type} `{LA : ListApi S L} (queue_off send_lock send_done uninit : Z).
Abbreviation sys := (Sched.sys (S := S) (L := L)).

Record csys := mk_csys { table : list receive_conf; send_async : bool; kern : sys; ctrace : list can_event }.

Definition set_table (v : list receive_conf) s := mk_csys v (send_async s) (kern s) (ctrace s).
Definition set_async (v : bool) s := mk_csys (table s) v (kern s) (ctrace s).
Definition set_kern (v : sys) s := mk_csys (table s) (send_async s) v (ctrace s).
Definition rom (e : can_event) : M csys unit := modify (fun s => mk_csys (table s) (send_async s) (kern s) (ctrace s ++ [e])).
Definition on_kern {A} (c : M sys A) : M csys A := fun s =>
  match c (kern s) with Ok a k => Ok a (set_kern k s) | Fault f => Fault f end.

(** [m] is what [can_receive] stores. *)
Definition can_rom_callback_rx (msg_obj_num : Z) (m : can_rom_msg) : M csys unit :=
  let! c := deref (fun s => table s !! Z.to_nat (msg_obj_num - 1)) in
  if truth (callback c) then
    if dlc m >? 8 then fail WildAccess else rom (EvCallback (callback c) (frame_of_msg uninit m) (context c))
  else ret tt.

Definition can_rom_callback_tx (msg_obj_num : Z) : M csys unit :=
  run! assert_ (msg_obj_num =? 0) in
  run! on_kern (semaphore_signal queue_off send_done) in
  let! async := gets send_async in
  if (async : bool) then on_kern (semaphore_signal queue_off send_lock) else ret tt.

Definition speed_entry (clock_speed speed : Z) : option can_speed_table_entry :=
  find (fun e => (clock e =? clock_speed) && (can_speed e =? speed)) can_speed_table.

(** [registered] is what [irq_register] returns, [clock_speed] the main clock. *)
Definition can_init (registered : bool) (clock_speed speed : Z) : M csys Z :=
  run! assert_ registered in
  match speed_entry clock_speed speed with
  | None => fail AssertFail
  | Some e =>
      run! rom (EvRomInit (divider e - 1) (btr e)) in
      run! on_kern (semaphore_init send_lock 1) in
      run! on_kern (semaphore_init send_done 0) in
      ret STATUS_OK
  end.

(** *** [can_send]

    [Called] is the entry, [Locked] after the wait for [send_lock], [Waiting] and
    [Sent] before and after the wait for [send_done]. *)
Inductive send_pc := Called (f : can_frame) (flags : Z) | Locked (f : can_frame) (flags : Z) | Waiting | Sent | Returned.

Definition send_step (w : Z) (pc : send_pc) : M csys send_pc :=
  match pc with
  | Called f flags =>
      let! in_isr := on_kern scheduler_in_isr in
      run! on_kern (semaphore_wait queue_off send_lock w) in
      ret (Locked f (if (in_isr : bool) then Z.lor flags CAN_FLAG_NOWAIT else flags))
  | Locked f flags =>
      let async := truth (Z.land flags CAN_FLAG_NOWAIT) in
      run! modify (set_async async) in
      run! rom (EvTransmit (msg_of_frame f)) in
      ret (if async then Returned else Waiting)
  | Waiting => run! on_kern (semaphore_wait queue_off send_done w) in ret Sent
  | Sent => run! on_kern (semaphore_signal queue_off send_lock) in ret Returned
  | Returned => ret Returned
  end.

(** A call that nothing comes between. *)
Definition can_send (w : Z) (f : can_frame) (flags : Z) : M csys send_pc :=
  let! pc := send_step w (Called f flags) in
  let! pc := send_step w pc in
  let! pc := send_step w pc in
  send_step w pc.

(** *** The callbacks *)

(** The first entry that [p] accepts, as [idx] of the loops. *)
Definition find_conf (p : receive_conf -> bool) (cs : list receive_conf) : option nat := fst <$> list_find p cs.

Definition can_set_receive_callback (id id_mask flags callback_ context_ : Z) : M csys Z :=
  let! cs := gets table in
  match find_conf (fun c => callback c =? NULL) cs with
  | None => ret (STATUS_ERR 0)
  | Some idx =>
      run! modify (set_table (<[idx := mk_conf callback_ context_]> cs)) in
      run! rom (EvConfigure (mk_msg (if truth (Z.land flags CAN_FRAME_FLAG_EXT) then Z.lor id LPC11_CAN_EXT_FLAG else id)
                               id_mask (replicate 8 uninit) uninit (Z.of_nat idx + 1))) in
      ret STATUS_OK
  end.

Definition can_unset_receive_callback (id id_mask flags callback_ context_ : Z) : M csys Z :=
  let! cs := gets table in
  match find_conf (fun c => (callback c =? callback_) && (context c =? context_)) cs with
  | None => ret (STATUS_ERR 0)
  | Some idx => run! modify (set_table (<[idx := mk_conf NULL NULL]> cs)) in ret STATUS_OK
  end.
End CanRom.
