(* ===== verification/Lock.v ===== *)
(** * Lock: a semaphore as a lock

    What the drivers' locks have in common: a semaphore that is 1 when free, taken with
    [semaphore_wait] and given back with [semaphore_signal].  [inside] are the threads
    beyond their wait: they sleep in its queue, but for the holder. *)
From S2P Require Import Prelude ListApi DList Fw Sched Semaphore SchedSpec SchedRun.

(** ** The semaphores in the kernel *)

Lemma wait_sems q w k v ws q' : k_sems k !! q = Some (v, ws) ->
  k_sems (spec_event k (KWait q w)) !! q' =
  if decide (q = q') then Some (v - 1, if v >? 0 then ws else ws ++ [(w, k_cur k)]) else k_sems k !! q'.
Proof.
  intros Hq. simpl. unfold sem_of. rewrite Hq. simpl. unfold a_wait. destruct (v >? 0); simpl; destruct (decide (q = q')) as [<-|];
    by rewrite ?lookup_insert_eq, ?lookup_insert_ne.
Qed.

Lemma signal_sems q k v ws q' : k_sems k !! q = Some (v, ws) ->
  k_sems (spec_event k (KSignal q)) !! q' = if decide (q = q') then Some (v + 1, tail ws) else k_sems k !! q'.
Proof.
  intros Hq. simpl. unfold sem_of. rewrite Hq. simpl. unfold a_signal. destruct ws as [|[w t] ws]; simpl; destruct (decide (q = q')) as [<-|];
    by rewrite ?lookup_insert_eq, ?lookup_insert_ne.
Qed.

Section Mutex.
Context (queue_off : Z).
Abbreviation wf_kernel := (wf_kernel queue_off).

(** A thread that runs waits nowhere. *)
Lemma runs_not_queued k q v ws w t : wf_kernel k -> k_state k !! t = Some THREAD_STATE_RUNNING ->
  k_sems k !! q = Some (v, ws) -> (w, t) ∉ ws.
Proof. intros Hw Hrun Hq Hin. by destruct (wk_waiting _ k Hw q v ws w t Hq Hin). Qed.

Lemma wait_queue k v ws q : wf_kernel k -> k_sems k !! q = Some (v, ws) -> 0 <= v -> ws = [].
Proof. intros Hw Hq Hv. pose proof (wk_count _ k Hw q v ws Hq). destruct ws; [done|simpl in *; lia]. Qed.

Context (lock : Z).

Record mutex_at (k : kernel) (inside : Z -> Prop) (h : option Z) (v : Z) (ws : list (Z * Z)) : Prop := {
  mx_sem : k_sems k !! lock = Some (v, ws);
  mx_queued w t : (w, t) ∈ ws -> inside t;
  mx_inside t : inside t -> (exists w, (w, t) ∈ ws) \/ h = Some t;
  mx_holder : match h with None => v = 1 | Some t => -128 <= v <= 0 /\ inside t /\ forall w, (w, t) ∉ ws end }.

Definition mutex (k : kernel) (inside : Z -> Prop) (h : option Z) : Prop := exists v ws, mutex_at k inside h v ws.

Lemma mutex_ext k inside inside' h : (forall t, inside t <-> inside' t) -> mutex k inside h -> mutex k inside' h.
Proof.
  intros He (v & ws & [Hs Hq Hi Hh]). exists v, ws. split; [done|intros; by eapply He, Hq|intros t Ht; apply Hi; by apply He|].
  destruct h; [|done]. by rewrite <-He.
Qed.

Lemma mutex_kept k k' inside h : k_sems k' !! lock = k_sems k !! lock -> mutex k inside h -> mutex k' inside h.
Proof. intros E (v & ws & [Hs Hq Hi Hh]). exists v, ws. by split; [congruence|..]. Qed.

(** A thread beyond its wait that runs holds the lock. *)
Lemma mutex_holds k inside h t : mutex k inside h -> wf_kernel k -> inside t -> k_state k !! t = Some THREAD_STATE_RUNNING -> h = Some t.
Proof.
  intros (v & ws & [Hs Hq Hi _]) Hw Ht Hrun. destruct (Hi t Ht) as [ [w Hin]|]; [|done].
  by destruct (runs_not_queued k lock v ws w t Hw Hrun Hs).
Qed.

Lemma mutex_free k inside t : mutex k inside None -> wf_kernel k -> ~ inside t.
Proof.
  intros (v & ws & [Hs Hq Hi Hv]) Hw Ht. destruct (Hi t Ht) as [ [w Hin]|]; [|done].
  rewrite (wait_queue k v ws lock Hw Hs ltac:(lia)) in Hin. by apply not_elem_of_nil in Hin.
Qed.

Lemma mutex_take k inside h w : mutex k inside h -> wf_kernel k -> ~ inside (k_cur k) ->
  (exists v ws, k_sems k !! lock = Some (v, ws) /\ -128 < v < 128) ->
  mutex (spec_event k (KWait lock w)) (fun t => t = k_cur k \/ inside t) (Some (default (k_cur k) h)).
Proof.
  intros (v & ws & [Hs Hq Hi Hh]) Hw Hnin (v' & ws' & Hs' & Hv). rewrite Hs in Hs'. injection Hs' as <- <-.
  pose proof (wait_sems lock w k v ws lock Hs) as Q. rewrite decide_True in Q by done.
  eexists _, _. split; [exact Q| | |].
  - intros w' t Hin. destruct (v >? 0); [right; by eapply Hq|].
    apply elem_of_app in Hin as [Hin|Hin]; [right; by eapply Hq|]. apply list_elem_of_singleton in Hin as [= _ ->]. by left.
  - destruct h as [h|]; simpl.
    + destruct Hh as (Hv' & _ & _). rewrite Z.gtb_ltb, (proj2 (Z.ltb_ge 0 v)) by lia. intros t [->|Ht].
      * left. exists w. apply elem_of_app. right. by apply list_elem_of_singleton.
      * destruct (Hi t Ht) as [ [w' Hin]|]; [left; exists w'; apply elem_of_app; by left|by right].
    + intros t [->|Ht]; [by right|]. destruct (mutex_free k inside t ltac:(by exists v, ws) Hw Ht).
  - destruct h as [h|]; simpl.
    + destruct Hh as (Hv' & Hin & Hnq). rewrite Z.gtb_ltb, (proj2 (Z.ltb_ge 0 v)) by lia. split; [lia|]. split; [by right|].
      intros w' [Hin'|Hin']%elem_of_app; [by eapply Hnq|]. apply list_elem_of_singleton in Hin' as [= _ ->]. done.
    + subst v. rewrite (wait_queue k 1 ws lock Hw Hs ltac:(lia)). simpl. split; [lia|]. split; [by left|]. by intros w' ?%not_elem_of_nil.
Qed.

(** The next holder is the first of the queue. *)
Lemma mutex_give k inside t : mutex k inside (Some t) -> wf_kernel k ->
  (exists v ws, k_sems k !! lock = Some (v, ws) /\ -128 <= v < 127) /\
  exists h', mutex (spec_event k (KSignal lock)) (fun x => x <> t /\ inside x) h' /\ (forall t', h' = Some t' -> t' <> t /\ inside t').
Proof.
  intros (v & ws & [Hs Hq Hi (Hv & Hin & Hnq)]) Hw. split; [exists v, ws; split; [done|lia]|].
  pose proof (signal_sems lock k v ws lock Hs) as Q. rewrite decide_True in Q by done. pose proof (wk_count _ k Hw lock v ws Hs) as Hc.
  assert (forall w x, (w, x) ∈ ws -> x <> t /\ inside x) as Hws.
  { intros w x Hx. split; [intros ->; by eapply Hnq|by eapply Hq]. }
  destruct ws as [|[w0 t0] ws]; simpl in Q, Hc.
  - exists None. split; [|done]. exists (v + 1), []. split; [done|by intros w x ?%not_elem_of_nil| |simpl; lia].
    intros x [Hne Hx]. destruct (Hi x Hx) as [ [w Hw']|]; [by apply not_elem_of_nil in Hw'|congruence].
  - exists (Some t0). pose proof (Hws w0 t0 ltac:(by left)) as H0. split; [|by intros t' [= <-]]. exists (v + 1), ws. split; [done| | |].
    + intros w x Hx. apply (Hws w). by right.
    + intros x [Hne Hx]. destruct (Hi x Hx) as [ [w Hin']|]; [|congruence].
      apply elem_of_cons in Hin' as [ [= -> ->]|Hin']; [by right|left; by exists w].
    + split; [lia|]. split; [done|]. intros w Hin'.
      pose proof (wk_once _ k Hw _ _ _ _ _ _ w w0 t0 Hs Hs ltac:(by right) ltac:(by left)) as ->.
      pose proof (wk_distinct _ k Hw _ _ _ Hs) as Hnd. simpl in Hnd. apply NoDup_cons in Hnd as [Hnin _]. apply Hnin.
      apply list_elem_of_fmap. by exists (w0, t0).
Qed.
End Mutex.
Arguments runs_not_queued {queue_off}. Arguments wait_queue {queue_off}. Arguments mutex_holds {queue_off}. Arguments mutex_free {queue_off}.
Arguments mutex_take {queue_off}. Arguments mutex_give {queue_off}.
