(* ===== verification/CanRomSpec.v ===== *)
(** * CanRomSpec: senders take turns, and receivers get their frames

    Any number of threads in [can_send], the transmit interrupt and the rest of the
    kernel as a step relation, with the history of what the bus carried; and the
    table of receive callbacks. *)
From S2P Require Import Prelude ListApi DList Fw Sched Semaphore SchedSpec SchedRun Lock Delay Eeprom CanNode CanRom.

(** ** The history of the bus *)

Inductive happened := Began (t : Z) (m : can_rom_msg) | Done (m : can_rom_msg) | Back (t : Z).

(** Nobody holds the bus; [t] sends [m]; the message of [t] is out. *)
Inductive phase := Free | Busy (t : Z) (m : can_rom_msg) | Out (t : Z).

#[export] Instance msg_eq_dec : EqDecision can_rom_msg.
Proof. solve_decision. Defined.

Definition replay1 (p : option phase) (h : happened) : option phase :=
  match p, h with
  | Some Free, Began t m => Some (Busy t m)
  | Some (Busy t m), Done m' => if decide (m = m') then Some (Out t) else None
  | Some (Out t), Back t' => if decide (t = t') then Some Free else None
  | _, _ => None
  end.

(** The history is a sequence of sends one after the other: a transmission begins,
    the same message is done, the same sender returns. *)
Definition replay (hs : list happened) : option phase := foldl replay1 (Some Free) hs.

Lemma replay_snoc hs h : replay (hs ++ [h]) = replay1 (replay hs) h.
Proof. unfold replay. by rewrite foldl_app. Qed.

Section Spec.
Context {S L : Type} `{LA : ListApi S L} (queue_off send_lock send_done : Z) (Hne : send_lock <> send_done).
Abbreviation sys := (Sched.sys (S := S) (L := L)).
Abbreviation csys := (CanRom.csys (S := S) (L := L)).
Abbreviation rep := (rep queue_off).
Abbreviation wf_kernel := (wf_kernel queue_off).
Abbreviation ok_event := (ok_event queue_off).
Abbreviation send_step := (send_step queue_off send_lock send_done).
Abbreviation tx := (can_rom_callback_tx queue_off send_lock send_done 0).

(** The senders, the driver, the message on the bus, and the history. *)
Record world := mk_world { pcs : Z -> option send_pc; drv : csys; flight : option can_rom_msg; hist : list happened }.

Definition set_pc (t : Z) (p : option send_pc) (pcs : Z -> option send_pc) : Z -> option send_pc := upd pcs t p.

(** What a step of [t] from [pc] to [pc'] adds to the history and puts on the bus. *)
Definition log_step (t : Z) (pc : send_pc) : list happened :=
  match pc with Locked f _ => [Began t (msg_of_frame f)] | Sent => [Back t] | _ => [] end.
Definition flight_step (pc : send_pc) (m : option can_rom_msg) : option can_rom_msg :=
  match pc with Locked f _ => Some (msg_of_frame f) | _ => m end.

(** The semaphore operation of a step may happen. *)
Definition step_ok (w : Z) (pc : send_pc) (ks : sys) (k : kernel) : Prop :=
  match pc with
  | Called _ _ => ok_event (KWait send_lock w) ks k
  | Waiting => ok_event (KWait send_done w) ks k
  | _ => True
  end.

(** What the rest of the system does to the kernel: not to these semaphores. *)
Definition elsewhere (e : kevent) : Prop :=
  match e with
  | KInit _ _ => False
  | KWait q _ | KSignal q => q <> send_lock /\ q <> send_done
  | _ => True
  end.

Inductive can_step : world -> world -> Prop :=
| cs_call c t f :
    pcs c t = None -> can_step c (mk_world (set_pc t (Some (Called f 0)) (pcs c)) (drv c) (flight c) (hist c))
| cs_run c t w pc pc' s' k :
    pcs c t = Some pc -> rep (kern (drv c)) k -> k_cur k = t -> k_state k !! t = Some THREAD_STATE_RUNNING ->
    in_isr_count (kern (drv c)) = 0 -> step_ok w pc (kern (drv c)) k -> send_step w pc (drv c) = Ok pc' s' ->
    can_step c (mk_world (set_pc t (match pc' with Returned => None | p => Some p end) (pcs c)) s'
                 (flight_step pc (flight c)) (hist c ++ log_step t pc))
| cs_tx c m s' :
    flight c = Some m -> tx (drv c) = Ok tt s' -> can_step c (mk_world (pcs c) s' None (hist c ++ [Done m]))
| cs_other c e k ks' :
    rep (kern (drv c)) k -> ok_event e (kern (drv c)) k -> elsewhere e -> run_event queue_off e (kern (drv c)) = Ok tt ks' ->
    can_step c (mk_world (pcs c) (set_kern ks' (drv c)) (flight c) (hist c)).

(** ** The invariant *)

(** Where the holder [h] of the lock is, what is on the bus, and [send_done]. *)
Inductive holding (c : world) (h v2 : Z) (ws2 : list (Z * Z)) : Prop :=
| hd_locked f : pcs c h = Some (Locked f 0) -> flight c = None -> v2 = 0 -> ws2 = [] -> replay (hist c) = Some Free -> holding c h v2 ws2
| hd_busy m : pcs c h = Some Waiting -> flight c = Some m -> send_async (drv c) = false -> v2 = 0 -> ws2 = [] ->
    replay (hist c) = Some (Busy h m) -> holding c h v2 ws2
| hd_out : pcs c h = Some Waiting -> flight c = None -> v2 = 1 -> ws2 = [] -> replay (hist c) = Some (Out h) -> holding c h v2 ws2
| hd_sleeps m w : pcs c h = Some Sent -> flight c = Some m -> send_async (drv c) = false -> v2 = -1 -> ws2 = [(w, h)] ->
    replay (hist c) = Some (Busy h m) -> holding c h v2 ws2
| hd_woken : pcs c h = Some Sent -> flight c = None -> v2 = 0 -> ws2 = [] -> replay (hist c) = Some (Out h) -> holding c h v2 ws2.

Record turns (c : world) (k : kernel) (v1 : Z) (ws1 : list (Z * Z)) (v2 : Z) (ws2 : list (Z * Z)) (h : option Z) : Prop := {
  tu_lock : k_sems k !! send_lock = Some (v1, ws1);
  tu_done : k_sems k !! send_done = Some (v2, ws2);
  tu_queued w t : (w, t) ∈ ws1 -> exists f, pcs c t = Some (Locked f 0);
  tu_locked t f fl : pcs c t = Some (Locked f fl) -> fl = 0 /\ ((exists w, (w, t) ∈ ws1) \/ h = Some t);
  tu_called t f fl : pcs c t = Some (Called f fl) -> fl = 0;
  tu_returned t : pcs c t <> Some Returned;
  tu_past t : pcs c t = Some Waiting \/ pcs c t = Some Sent -> h = Some t;
  tu_holder : match h with
              | None => v1 = 1 /\ v2 = 0 /\ ws2 = [] /\ flight c = None /\ replay (hist c) = Some Free
              | Some t => -128 <= v1 <= 0 /\ (forall w, (w, t) ∉ ws1) /\ holding c t v2 ws2
              end }.

Definition can_inv (c : world) : Prop :=
  exists k v1 ws1 v2 ws2 h, rep (kern (drv c)) k /\ wf_kernel k /\ irqs_off (kern (drv c)) = false /\
    turns c k v1 ws1 v2 ws2 h.

(** ** The semaphores in the kernel *)

Lemma elsewhere_sems e ks k q : elsewhere e -> ok_event e ks k -> q = send_lock \/ q = send_done -> is_Some (k_sems k !! q) ->
  k_sems (spec_event k e) !! q = k_sems k !! q.
Proof.
  intros He Hok Hq [x Hx]. destruct e; simpl in *; try done.
  - destruct Hok as [Hnew _]. rewrite lookup_insert_ne; [done|]. intros ->. congruence.
  - destruct Hok as ((v & ws & Hs & _) & _). pose proof (wait_sems q0 w k v ws q Hs) as E. simpl in E. rewrite E.
    rewrite decide_False; [done|]. intros ->. destruct He, Hq; congruence.
  - destruct Hok as (v & ws & Hs & _). pose proof (signal_sems q0 k v ws q Hs) as E. simpl in E. rewrite E.
    rewrite decide_False; [done|]. intros ->. destruct He, Hq; congruence.
Qed.

(** A kernel call of the driver. *)
Lemma kern_run (s : csys) k e : rep (kern s) k -> wf_kernel k -> irqs_off (kern s) = false -> ok_event e (kern s) k ->
  exists ks, on_kern (run_event queue_off e) s = Ok tt (set_kern ks s) /\ rep ks (spec_event k e) /\
    wf_kernel (spec_event k e) /\ irqs_off ks = false.
Proof.
  intros Hr Hw Hi Hok. destruct (event_refines queue_off (kern s) k e Hr Hw Hi Hok) as (ks & E & H).
  exists ks. split; [|exact H]. unfold on_kern. by rewrite E.
Qed.

Lemma set_pc_same t p ps : set_pc t p ps t = p.
Proof. unfold set_pc, upd. by rewrite Z.eqb_refl. Qed.
Lemma set_pc_other t p ps t' : t' <> t -> set_pc t p ps t' = ps t'.
Proof. intros H. unfold set_pc, upd. by rewrite (proj2 (Z.eqb_neq t' t) H). Qed.

(** What holds of the holder does not depend on the other senders. *)
Lemma holding_other c c' h v2 ws2 : holding c h v2 ws2 -> pcs c' h = pcs c h -> flight c' = flight c ->
  send_async (drv c') = send_async (drv c) -> hist c' = hist c -> holding c' h v2 ws2.
Proof.
  intros H E1 E2 E3 E4. destruct H; [eapply hd_locked|eapply hd_busy|eapply hd_out|eapply hd_sleeps|eapply hd_woken];
    rewrite ?E1, ?E2, ?E3, ?E4; eauto.
Qed.

Lemma inv_call c t f : can_inv c -> pcs c t = None ->
  can_inv (mk_world (set_pc t (Some (Called f 0)) (pcs c)) (drv c) (flight c) (hist c)).
Proof.
  intros (k & v1 & ws1 & v2 & ws2 & h & Hr & Hw & Hi & [T1 T2 T3 T4 T5 T6 T7 T8]) Ht.
  exists k, v1, ws1, v2, ws2, h. split; [done|]. split; [done|]. split; [done|]. split; simpl; try done.
  - intros w t' Hin. destruct (T3 w t' Hin) as [f' Hf]. exists f'. rewrite set_pc_other; congruence.
  - intros t' f' fl. destruct (decide (t' = t)) as [->|]; [by rewrite set_pc_same|rewrite set_pc_other by done; apply T4].
  - intros t' f' fl. destruct (decide (t' = t)) as [->|]; [rewrite set_pc_same; by intros [= _ <-]|rewrite set_pc_other by done; apply T5].
  - intros t'. destruct (decide (t' = t)) as [->|]; [by rewrite set_pc_same|rewrite set_pc_other by done; apply T6].
  - intros t'. destruct (decide (t' = t)) as [->|]; [rewrite set_pc_same; by intros [|]|rewrite set_pc_other by done; apply T7].
  - destruct h as [h|]; [|done]. destruct T8 as (Hv & Hnq & Hh). split; [done|]. split; [done|].
    assert (h <> t) as Hht by (intros ->; destruct Hh; congruence). eapply holding_other; [exact Hh|by apply set_pc_other|done..].
Qed.

(** *** The steps of a sender *)

Definition moved (c : world) (t : Z) (pc pc' : send_pc) (s' : csys) : world :=
  mk_world (set_pc t (match pc' with Returned => None | p => Some p end) (pcs c)) s' (flight_step pc (flight c)) (hist c ++ log_step t pc).

(** The conditions on the program counters after [t] moved to [p]. *)
Ltac split_pc t t' := destruct (decide (t' = t)) as [->|]; [rewrite ?set_pc_same|rewrite ?set_pc_other by done].

Lemma run_called c t w f fl k : can_inv c -> pcs c t = Some (Called f fl) -> rep (kern (drv c)) k -> k_cur k = t ->
  k_state k !! t = Some THREAD_STATE_RUNNING -> in_isr_count (kern (drv c)) = 0 -> ok_event (KWait send_lock w) (kern (drv c)) k ->
  exists s', send_step w (Called f fl) (drv c) = Ok (Locked f 0) s' /\ can_inv (moved c t (Called f fl) (Locked f 0) s').
Proof.
  intros (k0 & v1 & ws1 & v2 & ws2 & h & Hr & Hw & Hi & [T1 T2 T3 T4 T5 T6 T7 T8]) Hpc Hrk Hcur Hrun Hisr Hok.
  rewrite (rep_inj _ _ _ _ Hr Hrk) in *. pose proof (T5 t f fl Hpc) as ->.
  destruct (kern_run (drv c) k (KWait send_lock w) Hrk Hw Hi Hok) as (ks & E & Hrep & Hwf & Hirq).
  exists (set_kern ks (drv c)). split.
  { unfold CanRom.send_step. rewrite (bind_ok _ _ (drv c) false (drv c)).
    - simpl in E. by rewrite (bind_ok _ _ _ _ _ E).
    - unfold on_kern, scheduler_in_isr, gets. rewrite Hisr. by destruct (drv c). }
  destruct Hok as ((v0 & ws0 & Hq0 & Hv0) & _). rewrite T1 in Hq0. injection Hq0 as <- <-.
  assert (h <> Some t) as Hht by (intros ->; destruct T8 as (_ & _ & []); congruence).
  pose proof (wait_sems send_lock w k v1 ws1 send_lock T1) as Q1. rewrite decide_True in Q1 by done.
  pose proof (wait_sems send_lock w k v1 ws1 send_done T1) as Q2. rewrite decide_False, T2 in Q2 by done.
  destruct h as [h|].
  - destruct T8 as (Hv & Hnq & Hh). rewrite Z.gtb_ltb, (proj2 (Z.ltb_ge 0 v1)), Hcur in Q1 by lia.
    exists (spec_event k (KWait send_lock w)), (v1 - 1), (ws1 ++ [(w, t)]), v2, ws2, (Some h).
    split; [done|]. split; [done|]. split; [done|]. split; simpl; try done.
    + intros w' t' [Hin|Hin]%elem_of_app; [destruct (T3 w' t' Hin) as [f' Hf]; exists f'; rewrite set_pc_other; congruence|].
      apply list_elem_of_singleton in Hin as [= -> ->]. exists f. by rewrite set_pc_same.
    + intros t' f' fl. split_pc t t'; [intros [= <- <-]; split; [done|]; left; exists w; set_solver|].
      intros Hx. destruct (T4 _ _ _ Hx) as [-> [ [w' Hin]|] ]; (split; [done|]); [left; exists w'; set_solver|by right].
    + intros t' f' fl. split_pc t t'; [done|apply T5].
    + intros t'. split_pc t t'; [done|apply T6].
    + intros t'. split_pc t t'; [by intros [|]|apply T7].
    + split; [lia|]. split.
      * intros w' [Hin|Hin]%elem_of_app; [by eapply Hnq|]. apply list_elem_of_singleton in Hin as [= _ ->]. done.
      * eapply holding_other; [exact Hh|apply set_pc_other; congruence|done|done|simpl; by rewrite app_nil_r].
  - destruct T8 as (-> & -> & -> & Hfl & Hh). pose proof (wait_queue k 1 ws1 send_lock Hw T1 ltac:(lia)) as ->. simpl in Q1.
    exists (spec_event k (KWait send_lock w)), 0, [], 0, [], (Some t).
    split; [done|]. split; [done|]. split; [done|]. split; simpl; try done.
    + by intros w' t' ?%not_elem_of_nil.
    + intros t' f' fl. split_pc t t'; [intros [= <- <-]; split; [done|]; by right|].
      intros Hx. destruct (T4 _ _ _ Hx) as [_ [ [w' Hin]|] ]; [by apply not_elem_of_nil in Hin|done].
    + intros t' f' fl. split_pc t t'; [done|apply T5].
    + intros t'. split_pc t t'; [done|apply T6].
    + intros t'. split_pc t t'; [by intros [|]|]. intros Hx. by apply T7 in Hx.
    + split; [lia|]. split; [by intros w' ?%not_elem_of_nil|]. by eapply hd_locked; simpl; [rewrite set_pc_same|..|rewrite app_nil_r].
Qed.

(** A sender in the middle of [can_send] holds the lock. *)
Lemma turns_hold c k v1 ws1 v2 ws2 h t pc : turns c k v1 ws1 v2 ws2 h -> wf_kernel k -> pcs c t = Some pc ->
  k_state k !! t = Some THREAD_STATE_RUNNING -> (forall f fl, pc <> Called f fl) -> h = Some t /\ holding c t v2 ws2.
Proof.
  intros [T1 T2 T3 T4 T5 T6 T7 T8] Hw Hpc Hrun Hnc.
  assert (h = Some t) as ->; [|split; [done|apply T8] ].
  destruct pc as [f fl|f fl| | |]; [by destruct (Hnc f fl)| |apply T7; auto|apply T7; auto|by destruct (T6 t)].
  destruct (T4 t f fl Hpc) as [_ [ [w Hin]|] ]; [|done].
  destruct (runs_not_queued k send_lock v1 ws1 w t Hw Hrun T1 Hin).
Qed.

(** Moving the holder, with the lock as it is. *)
Lemma turns_move c c' k k' v1 ws1 v2 ws2 v2' ws2' t pc' : turns c k v1 ws1 v2 ws2 (Some t) ->
  k_sems k' !! send_lock = Some (v1, ws1) -> k_sems k' !! send_done = Some (v2', ws2') ->
  (pc' = Waiting \/ pc' = Sent) -> pcs c' = set_pc t (Some pc') (pcs c) -> holding c' t v2' ws2' ->
  turns c' k' v1 ws1 v2' ws2' (Some t).
Proof.
  intros [T1 T2 T3 T4 T5 T6 T7 T8] Q1 Q2 Hpc Ec Hh. destruct T8 as (Hv & Hnq & _).
  split; try done; rewrite ?Ec.
  - intros w t' Hin. destruct (T3 w t' Hin) as [f Hf]. exists f. rewrite set_pc_other; [done|]. intros ->. by apply (Hnq w).
  - intros t' f fl. split_pc t t'; [by destruct Hpc as [-> | ->]|apply T4].
  - intros t' f fl. split_pc t t'; [by destruct Hpc as [-> | ->]|apply T5].
  - intros t'. split_pc t t'; [by destruct Hpc as [-> | ->]|apply T6].
  - intros t'. split_pc t t'; [done|apply T7].
Qed.

Lemma run_locked c t w f fl k : can_inv c -> pcs c t = Some (Locked f fl) -> rep (kern (drv c)) k ->
  k_state k !! t = Some THREAD_STATE_RUNNING ->
  exists s', send_step w (Locked f fl) (drv c) = Ok Waiting s' /\ can_inv (moved c t (Locked f fl) Waiting s').
Proof.
  intros (k0 & v1 & ws1 & v2 & ws2 & h & Hr & Hw & Hi & HT) Hpc Hrk Hrun.
  rewrite (rep_inj _ _ _ _ Hr Hrk) in *. destruct (turns_hold _ _ _ _ _ _ _ _ _ HT Hw Hpc Hrun ltac:(done)) as [-> Hh].
  destruct (tu_locked _ _ _ _ _ _ _ HT t f fl Hpc) as [-> _].
  eexists. split; [reflexivity|]. exists k, v1, ws1, v2, ws2, (Some t). split; [done|]. split; [done|]. split; [done|].
  eapply turns_move; [exact HT|apply HT|apply HT|by left|done|].
  destruct Hh as [f' Hp Hfl -> -> Hp'|m Hp|Hp|m w' Hp|Hp]; try congruence.
  eapply hd_busy; simpl; [by rewrite set_pc_same|done|done|done|done|by rewrite replay_snoc, Hp'].
Qed.

Lemma run_waiting c t w k : can_inv c -> pcs c t = Some Waiting -> rep (kern (drv c)) k -> k_cur k = t ->
  k_state k !! t = Some THREAD_STATE_RUNNING -> ok_event (KWait send_done w) (kern (drv c)) k ->
  exists s', send_step w Waiting (drv c) = Ok Sent s' /\ can_inv (moved c t Waiting Sent s').
Proof.
  intros (k0 & v1 & ws1 & v2 & ws2 & h & Hr & Hw & Hi & HT) Hpc Hrk Hcur Hrun Hok.
  rewrite (rep_inj _ _ _ _ Hr Hrk) in *. destruct (turns_hold _ _ _ _ _ _ _ _ _ HT Hw Hpc Hrun ltac:(done)) as [-> Hh].
  destruct (kern_run (drv c) k (KWait send_done w) Hrk Hw Hi Hok) as (ks & E & Hrep & Hwf & Hirq).
  exists (set_kern ks (drv c)). split; [simpl in E |- *; by rewrite (bind_ok _ _ _ _ _ E)|].
  pose proof (wait_sems send_done w k v2 ws2 send_lock (tu_done _ _ _ _ _ _ _ HT)) as Q1.
  rewrite decide_False, (tu_lock _ _ _ _ _ _ _ HT) in Q1 by congruence.
  pose proof (wait_sems send_done w k v2 ws2 send_done (tu_done _ _ _ _ _ _ _ HT)) as Q2. rewrite decide_True, Hcur in Q2 by done.
  exists (spec_event k (KWait send_done w)), v1, ws1, (v2 - 1), (if v2 >? 0 then ws2 else ws2 ++ [(w, t)]), (Some t).
  split; [done|]. split; [done|]. split; [done|]. eapply turns_move; [exact HT|exact Q1|exact Q2|by right|done|].
  destruct Hh as [f' Hp|m Hp Hfl Ha -> -> Hp'|Hp Hfl -> -> Hp'|m w' Hp|Hp]; try congruence.
  - by eapply hd_sleeps; simpl; [rewrite set_pc_same|..|rewrite app_nil_r].
  - by eapply hd_woken; simpl; [rewrite set_pc_same|..|rewrite app_nil_r].
Qed.

Lemma run_sent c t w k : can_inv c -> pcs c t = Some Sent -> rep (kern (drv c)) k ->
  k_state k !! t = Some THREAD_STATE_RUNNING ->
  exists s', send_step w Sent (drv c) = Ok Returned s' /\ can_inv (moved c t Sent Returned s').
Proof.
  intros (k0 & v1 & ws1 & v2 & ws2 & h & Hr & Hw & Hi & HT) Hpc Hrk Hrun.
  rewrite (rep_inj _ _ _ _ Hr Hrk) in *. destruct (turns_hold _ _ _ _ _ _ _ _ _ HT Hw Hpc Hrun ltac:(done)) as [-> Hh].
  destruct HT as [T1 T2 T3 T4 T5 T6 T7 (Hv & Hnq & _)].
  destruct (kern_run (drv c) k (KSignal send_lock) Hrk Hw Hi) as (ks & E & Hrep & Hwf & Hirq); [exists v1, ws1; split; [done|lia]|].
  exists (set_kern ks (drv c)). split; [simpl in E |- *; by rewrite (bind_ok _ _ _ _ _ E)|].
  pose proof (signal_sems send_lock k v1 ws1 send_lock T1) as Q1. rewrite decide_True in Q1 by done.
  pose proof (signal_sems send_lock k v1 ws1 send_done T1) as Q2. rewrite decide_False, T2 in Q2 by done.
  assert (flight c = None /\ v2 = 0 /\ ws2 = [] /\ replay (hist c) = Some (Out t)) as (Hfl & -> & -> & Hrp).
  { destruct Hh as [f' Hp|m Hp|Hp|m w' Hp Hfl Ha -> -> Hp'|Hp]; try congruence; [|done].
    destruct (runs_not_queued k send_done _ _ w' t Hw Hrun T2). by left. }
  pose proof (wk_count _ k Hw send_lock v1 ws1 T1) as Hc.
  exists (spec_event k (KSignal send_lock)), (v1 + 1), (tail ws1), 0, [], (snd <$> hd_error ws1).
  split; [done|]. split; [done|]. split; [done|]. split; simpl; try done.
  - intros w' t' Hin. destruct (T3 w' t') as [f Hf]; [destruct ws1; [done|by right]|]. exists f.
    rewrite set_pc_other; [done|]. intros ->. congruence.
  - intros t' f fl. split_pc t t'; [done|]. intros Hx. destruct (T4 _ _ _ Hx) as [-> [ [w' Hin]|Hx'] ]; [|congruence].
    split; [done|]. destruct ws1 as [|[w0 t0] ws1]; [by apply not_elem_of_nil in Hin|]. simpl.
    apply elem_of_cons in Hin as [ [= -> ->]|Hin]; [by right|left; by exists w'].
  - intros t' f fl. split_pc t t'; [done|apply T5].
  - intros t'. split_pc t t'; [done|apply T6].
  - intros t'. split_pc t t'; [by intros [|]|]. intros Hx. apply T7 in Hx. congruence.
  - rewrite replay_snoc, Hrp. simpl. rewrite decide_True by done. destruct ws1 as [|[w0 t0] ws1]; simpl in *; [split; [lia|done]|].
    split; [lia|]. split.
    + intros w' Hin. pose proof (wk_once _ k Hw _ _ _ _ _ _ w' w0 t0 T1 T1 ltac:(by right) ltac:(by left)) as ->.
      pose proof (wk_distinct _ k Hw _ _ _ T1) as Hnd. simpl in Hnd. apply NoDup_cons in Hnd as [Hnin _]. apply Hnin.
      apply list_elem_of_fmap. by exists (w0, t0).
    + destruct (T3 w0 t0) as [f Hf]; [by left|]. eapply hd_locked; simpl; [|done|done|done|].
      * rewrite set_pc_other; [done|]. intros ->. congruence.
      * rewrite replay_snoc, Hrp. simpl. by rewrite decide_True.
Qed.

(** *** The interrupt and the rest of the system *)

(** The counters and program counters of the senders do not change; the holder's
    part does. *)
Lemma turns_done c c' k k' v1 ws1 v2 ws2 v2' ws2' t : turns c k v1 ws1 v2 ws2 (Some t) ->
  k_sems k' !! send_lock = Some (v1, ws1) -> k_sems k' !! send_done = Some (v2', ws2') -> pcs c' = pcs c ->
  holding c' t v2' ws2' -> turns c' k' v1 ws1 v2' ws2' (Some t).
Proof.
  intros [T1 T2 T3 T4 T5 T6 T7 (Hv & Hnq & _)] Q1 Q2 Ec Hh. split; rewrite ?Ec; try done.
Qed.

Lemma run_tx c m : can_inv c -> flight c = Some m ->
  exists s', tx (drv c) = Ok tt s' /\ can_inv (mk_world (pcs c) s' None (hist c ++ [Done m])).
Proof.
  intros (k & v1 & ws1 & v2 & ws2 & h & Hr & Hw & Hi & HT) Hfl. destruct h as [t|].
  2:{ destruct HT as [_ _ _ _ _ _ _ (_ & _ & _ & Hn & _)]. congruence. }
  pose proof HT as [T1 T2 T3 T4 T5 T6 T7 (Hv & Hnq & Hh)].
  assert (send_async (drv c) = false /\ replay (hist c) = Some (Busy t m) /\ -1 <= v2 <= 0) as (Ha & Hrp & Hv2).
  { destruct Hh as [f' Hp Hn|m' Hp Hf Ha -> -> Hp'|Hp Hn|m' w Hp Hf Ha -> -> Hp'|Hp Hn]; try congruence;
      rewrite Hf in Hfl; injection Hfl as ->; split; [done|split; [done|lia]|done|split; [done|lia] ]. }
  destruct (kern_run (drv c) k (KSignal send_done) Hr Hw Hi) as (ks & E & Hrep & Hwf & Hirq); [exists v2, ws2; split; [done|lia]|].
  exists (set_kern ks (drv c)). split.
  { unfold can_rom_callback_tx. rewrite (bind_ok _ _ (drv c) tt (drv c)) by done. simpl in E. rewrite (bind_ok _ _ _ _ _ E).
    rewrite (bind_ok _ _ (set_kern ks (drv c)) false (set_kern ks (drv c))) by (unfold gets; simpl; by rewrite Ha). done. }
  pose proof (signal_sems send_done k v2 ws2 send_lock T2) as Q1. rewrite decide_False, T1 in Q1 by congruence.
  pose proof (signal_sems send_done k v2 ws2 send_done T2) as Q2. rewrite decide_True in Q2 by done.
  exists (spec_event k (KSignal send_done)), v1, ws1, (v2 + 1), (tail ws2), (Some t).
  split; [done|]. split; [done|]. split; [done|]. eapply turns_done; [exact HT|exact Q1|exact Q2|done|].
  assert (replay (hist c ++ [Done m]) = Some (Out t)) as Hrp' by (rewrite replay_snoc, Hrp; simpl; by rewrite decide_True).
  destruct Hh as [f' Hp Hn|m' Hp Hf _ -> -> _|Hp Hn|m' w Hp Hf _ -> -> _|Hp Hn]; try congruence.
  - by eapply hd_out.
  - by eapply hd_woken.
Qed.

Lemma run_other c e k ks : can_inv c -> rep (kern (drv c)) k -> ok_event e (kern (drv c)) k -> elsewhere e ->
  run_event queue_off e (kern (drv c)) = Ok tt ks -> can_inv (mk_world (pcs c) (set_kern ks (drv c)) (flight c) (hist c)).
Proof.
  intros (k0 & v1 & ws1 & v2 & ws2 & h & Hr & Hw & Hi & [T1 T2 T3 T4 T5 T6 T7 T8]) Hrk Hok He E.
  rewrite (rep_inj _ _ _ _ Hr Hrk) in *.
  destruct (event_refines queue_off (kern (drv c)) k e Hrk Hw Hi Hok) as (ks' & E' & Hrep & Hwf & Hirq).
  rewrite E in E'. injection E' as <-. exists (spec_event k e), v1, ws1, v2, ws2, h.
  split; [done|]. split; [done|]. split; [done|]. split; simpl; try done.
  - by rewrite (elsewhere_sems e (kern (drv c)) k send_lock He Hok ltac:(by left) ltac:(by rewrite T1)).
  - by rewrite (elsewhere_sems e (kern (drv c)) k send_done He Hok ltac:(by right) ltac:(by rewrite T2)).
  - destruct h as [h|]; [|done]. destruct T8 as (Hv & Hnq & Hh). split; [done|]. split; [done|]. by eapply holding_other.
Qed.

(** A step of a sender whose thread runs. *)
Lemma run_sender c t w pc k : can_inv c -> pcs c t = Some pc -> rep (kern (drv c)) k -> k_cur k = t ->
  k_state k !! t = Some THREAD_STATE_RUNNING -> in_isr_count (kern (drv c)) = 0 -> step_ok w pc (kern (drv c)) k ->
  exists pc' s', send_step w pc (drv c) = Ok pc' s' /\ can_inv (moved c t pc pc' s').
Proof.
  intros Hinv Hpc Hr Hcur Hrun Hisr Hok. destruct pc as [f fl|f fl| | |].
  - destruct (run_called c t w f fl k Hinv Hpc Hr Hcur Hrun Hisr Hok) as (s' & ? & ?). eauto.
  - destruct (run_locked c t w f fl k Hinv Hpc Hr Hrun) as (s' & ? & ?). eauto.
  - destruct (run_waiting c t w k Hinv Hpc Hr Hcur Hrun Hok) as (s' & ? & ?). eauto.
  - destruct (run_sent c t w k Hinv Hpc Hr Hrun) as (s' & ? & ?). eauto.
  - destruct Hinv as (k0 & v1 & ws1 & v2 & ws2 & h & _ & _ & _ & HT). by destruct (tu_returned _ _ _ _ _ _ _ HT t).
Qed.

Lemma can_inv_step c c' : can_step c c' -> can_inv c -> can_inv c'.
Proof.
  intros [c0 t f Ht|c0 t w pc pc' s' k Hpc Hr Hcur Hrun Hisr Hok E|c0 m s' Hf E|c0 e k ks' Hr Hok He E] Hinv.
  - by apply inv_call.
  - destruct (run_sender c0 t w pc k Hinv Hpc Hr Hcur Hrun Hisr Hok) as (pc1 & s1 & E1 & H1). rewrite E in E1. by injection E1 as <- <-.
  - destruct (run_tx c0 m Hinv Hf) as (s1 & E1 & H1). rewrite E in E1. by injection E1 as <-.
  - by eapply run_other.
Qed.

(** After [can_init]: the lock is free, nothing is on the bus, nobody sends. *)
Record can_start (c : world) (k : kernel) : Prop := {
  sta_pcs t : pcs c t = None;
  sta_rep : rep (kern (drv c)) k;
  sta_wf : wf_kernel k;
  sta_irqs : irqs_off (kern (drv c)) = false;
  sta_lock : k_sems k !! send_lock = Some (1, []);
  sta_done : k_sems k !! send_done = Some (0, []);
  sta_flight : flight c = None;
  sta_hist : hist c = [] }.

Lemma start_can_inv c k : can_start c k -> can_inv c.
Proof.
  intros [H1 H2 H3 H4 H5 H6 H7 H8]. exists k, 1, [], 0, [], None. split; [done|]. split; [done|]. split; [done|].
  split; try done; try (intros; by rewrite H1 in *).
  - by intros w t ?%not_elem_of_nil.
  - intros t. rewrite H1. by intros [|].
  - by rewrite H8.
Qed.

(** *** Sending without waiting *)

(** A wait that finds a unit, and a signal that nobody waits for. *)
Lemma wait_free (s : sys) q v l w : sems s !! q = Some (mk_sem v l) -> 0 < v < 128 -> l_entry (entries s) w ->
  exists s', semaphore_wait queue_off q w s = Ok tt s' /\ sems s' = <[q := mk_sem (v - 1) l]> (sems s) /\
    in_isr_count s' = in_isr_count s /\ l_frame [w] (entries s) (entries s') /\ l_entry (entries s') w.
Proof.
  intros Hq Hv He. destruct (l_entry_init_spec _ _ He) as (st & E & Hd & Hf). pose proof (i8_small (v - 1) ltac:(lia)) as Hi.
  eexists. split.
  { unfold semaphore_wait, scheduler_current_thread, on_entries, scheduler_lock, scheduler_unlock, get_sem, put_sem, bind, gets, modify, deref.
    cbn. rewrite E. cbn. rewrite Hq. cbn. rewrite Hi, Z.geb_leb, (proj2 (Z.leb_le 0 (v - 1))) by lia. reflexivity. }
  split; [reflexivity|]. split; [reflexivity|]. split; [exact Hf|by apply l_detached_entry].
Qed.

Lemma signal_free (s : sys) q v l : sems s !! q = Some (mk_sem v l) -> 0 <= v < 127 -> l_rep (entries s) l [] ->
  semaphore_signal queue_off q s = Ok tt (set_sems s (<[q := mk_sem (v + 1) l]> (sems s))).
Proof.
  intros Hq Hv Hl. unfold semaphore_signal, signal_count, signal_first, signal_wake, get_sem, put_sem, bind, deref, modify, ret. rewrite Hq. cbn.
  rewrite lookup_insert_eq. cbn. rewrite (l_first_spec _ _ _ Hl), (i8_small (v + 1)) by lia. reflexivity.
Qed.

(** Nobody holds the lock or waits. *)
Record idle (s : sys) (l1 l2 : L) (n : Z) : Prop := {
  id_lock : sems s !! send_lock = Some (mk_sem 1 l1);
  id_done : sems s !! send_done = Some (mk_sem n l2);
  id_empty1 : l_rep (entries s) l1 [];
  id_empty2 : l_rep (entries s) l2 [] }.

Lemma idle_frame st st' l dom : l_frame dom st st' -> l_rep st l [] -> l_rep st' l [].
Proof. intros Hf. apply (l_frame_rep _ _ _ _ _ Hf). by intros a ?%not_elem_of_nil. Qed.

Lemma async_sent (s : csys) l1 l2 w f flags : idle (kern s) l1 l2 0 -> l_entry (entries (kern s)) w ->
  truth (Z.land flags CAN_FLAG_NOWAIT) = true -> in_isr_count (kern s) = 0 ->
  exists s1 s2, can_send queue_off send_lock send_done w f flags s = Ok Returned s1 /\ tx s1 = Ok tt s2 /\
    ctrace s2 = ctrace s ++ [EvTransmit (msg_of_frame f)] /\ idle (kern s2) l1 l2 1 /\ in_isr_count (kern s2) = 0 /\ l_entry (entries (kern s2)) w.
Proof.
  intros [H1 H2 H3 H4] He Hfl Hisr. destruct (wait_free (kern s) send_lock 1 l1 w H1 ltac:(lia) He) as (k1 & E1 & Q1 & I1 & F1 & N1).
  pose proof (idle_frame _ _ _ _ F1 H3) as R1. pose proof (idle_frame _ _ _ _ F1 H4) as R2.
  assert (sems k1 !! send_done = Some (mk_sem 0 l2)) as Q2 by (rewrite Q1, lookup_insert_ne by done; exact H2).
  pose proof (signal_free k1 send_done 0 l2 Q2 ltac:(lia) R2) as E2. set (k2 := set_sems _ _) in E2.
  assert (sems k2 !! send_lock = Some (mk_sem 0 l1)) as Q3 by (cbn; rewrite lookup_insert_ne, Q1 by done; apply lookup_insert_eq).
  pose proof (signal_free k2 send_lock 0 l1 Q3 ltac:(lia) R1) as E3. set (k3 := set_sems _ _) in E3.
  exists (mk_csys (table s) true k1 (ctrace s ++ [EvTransmit (msg_of_frame f)])), (mk_csys (table s) true k3 (ctrace s ++ [EvTransmit (msg_of_frame f)])).
  split; [|split; [|split; [done|split; [|split; [by cbn; rewrite I1|exact N1] ] ] ] ].
  - unfold can_send, CanRom.send_step, on_kern, scheduler_in_isr, bind, gets, modify, ret. rewrite Hisr. cbn -[semaphore_wait semaphore_signal]. rewrite E1. cbn -[semaphore_wait semaphore_signal]. by rewrite Hfl.
  - unfold can_rom_callback_tx, on_kern, bind, gets. cbn -[semaphore_wait semaphore_signal]. rewrite E2. cbn -[semaphore_wait semaphore_signal]. by rewrite E3.
  - split; cbn; try done; [apply lookup_insert_eq|]. rewrite lookup_insert_ne by done. apply lookup_insert_eq.
Qed.

Lemma sync_returns (s : csys) l1 l2 w f : idle (kern s) l1 l2 1 -> l_entry (entries (kern s)) w -> in_isr_count (kern s) = 0 ->
  exists s1, can_send queue_off send_lock send_done w f 0 s = Ok Returned s1 /\
    ctrace s1 = ctrace s ++ [EvTransmit (msg_of_frame f)] /\ idle (kern s1) l1 l2 0.
Proof.
  intros [H1 H2 H3 H4] He Hisr. destruct (wait_free (kern s) send_lock 1 l1 w H1 ltac:(lia) He) as (k1 & E1 & Q1 & I1 & F1 & N1).
  assert (sems k1 !! send_done = Some (mk_sem 1 l2)) as Q2 by (rewrite Q1, lookup_insert_ne by done; exact H2).
  destruct (wait_free k1 send_done 1 l2 w Q2 ltac:(lia) N1) as (k2 & E2 & Q3 & I2 & F2 & N2).
  assert (sems k2 !! send_lock = Some (mk_sem 0 l1)) as Q4 by (rewrite Q3, lookup_insert_ne, Q1 by done; apply lookup_insert_eq).
  pose proof (idle_frame _ _ _ _ F2 (idle_frame _ _ _ _ F1 H3)) as R1. pose proof (idle_frame _ _ _ _ F2 (idle_frame _ _ _ _ F1 H4)) as R2.
  pose proof (signal_free k2 send_lock 0 l1 Q4 ltac:(lia) R1) as E3. set (k3 := set_sems _ _) in E3.
  exists (mk_csys (table s) false k3 (ctrace s ++ [EvTransmit (msg_of_frame f)])). split; [|split; [done|] ].
  - unfold can_send, CanRom.send_step, on_kern, scheduler_in_isr, bind, gets, modify, ret. rewrite Hisr. cbn -[semaphore_wait semaphore_signal]. rewrite E1. cbn -[semaphore_wait semaphore_signal]. change (truth (Z.land 0 CAN_FLAG_NOWAIT)) with false. cbn -[semaphore_wait semaphore_signal]. rewrite E2. cbn -[semaphore_wait semaphore_signal]. by rewrite E3.
  - split; cbn; try done; [apply lookup_insert_eq|]. rewrite lookup_insert_ne, Q3 by done. apply lookup_insert_eq.
Qed.

(** C6: Any number of threads may send at the same time, as long as each waits for its
    message (no [CAN_FLAG_NOWAIT], no sender in an interrupt handler): on the kernel's
    semaphores, whatever the interleaving with the transmit interrupt, with reschedules
    and with the other calls of the kernel, the bus carries one message after the other:
    a transmission begins only when the one before is done and its sender has got the bus
    back, the message that is done is the one that was begun, and [can_send] returns to a
    sender only when its own message is out.  No step of a sender and no transmit
    interrupt fails.  A send that does not wait breaks this: its transmit interrupt
    signals [send_done] as well, so that the next sender's call returns, its lock
    released for the one behind it, with no transmit interrupt for its own message. *)
Theorem can_send_turns :
  (forall c0 k0 c, can_start c0 k0 -> rtc can_step c0 c ->
    is_Some (replay (hist c)) /\
    (forall m, flight c = Some m -> (exists t, replay (hist c) = Some (Busy t m)) /\ exists s', tx (drv c) = Ok tt s') /\
    exists k, rep (kern (drv c)) k /\ wf_kernel k /\
      forall t w pc, pcs c t = Some pc -> k_cur k = t -> k_state k !! t = Some THREAD_STATE_RUNNING ->
        in_isr_count (kern (drv c)) = 0 -> step_ok w pc (kern (drv c)) k ->
        exists pc' s', send_step w pc (drv c) = Ok pc' s') /\
  (forall (s : csys) l1 l2 w f f' flags, idle (kern s) l1 l2 0 -> l_entry (entries (kern s)) w -> in_isr_count (kern s) = 0 ->
    truth (Z.land flags CAN_FLAG_NOWAIT) = true ->
    exists s1 s2 s3, can_send queue_off send_lock send_done w f flags s = Ok Returned s1 /\ tx s1 = Ok tt s2 /\
      can_send queue_off send_lock send_done w f' 0 s2 = Ok Returned s3 /\
      ctrace s3 = ctrace s ++ [EvTransmit (msg_of_frame f); EvTransmit (msg_of_frame f')] /\ idle (kern s3) l1 l2 0).
Proof.
  split.
  2:{ intros s l1 l2 w f f' flags Hid He Hisr Hfl. destruct (async_sent s l1 l2 w f flags Hid He Hfl Hisr) as (s1 & s2 & E1 & E2 & T2 & Hid2 & I2 & N2).
      destruct (sync_returns s2 l1 l2 w f' Hid2 N2 I2) as (s3 & E3 & T3 & Hid3). exists s1, s2, s3.
      split; [done|]. split; [done|]. split; [done|]. split; [|done]. rewrite T3, T2, <-app_assoc. done. }
  intros c0 k0 c Hst Hsteps. assert (can_inv c) as Hinv.
  { apply start_can_inv in Hst. induction Hsteps as [|c1 c2 c3 H12 _ IH]; [done|]. by apply IH, (can_inv_step c1). }
  pose proof Hinv as (k & v1 & ws1 & v2 & ws2 & h & Hr & Hw & _ & [_ _ _ _ _ _ _ T8]). split; [|split].
  - destruct h as [t|]; [destruct T8 as (_ & _ & Hh); by destruct Hh; eexists|destruct T8 as (_ & _ & _ & _ & Hp); by eexists].
  - intros m Hf. split; [|destruct (run_tx c m Hinv Hf) as (s' & E & _); eauto].
    destruct h as [t|]; [|destruct T8 as (_ & _ & _ & Hn & _); congruence]. exists t. destruct T8 as (_ & _ & Hh).
    destruct Hh as [f' Hp Hn|m' Hp Hf' _ _ _ Hp'|Hp Hn|m' w Hp Hf' _ _ _ Hp'|Hp Hn]; congruence.
  - exists k. split; [done|]. split; [done|]. intros t w pc Hpc Hcur Hrun Hisr Hok.
    destruct (run_sender c t w pc k Hinv Hpc Hr Hcur Hrun Hisr Hok) as (pc' & s' & E & _). eauto.
Qed.

(** ** Following a concrete run *)

Definition after_send (w : Z) (pc : send_pc) (k : kernel) : kernel :=
  match pc with
  | Called _ _ => spec_event k (KWait send_lock w)
  | Waiting => spec_event k (KWait send_done w)
  | Sent => spec_event k (KSignal send_lock)
  | _ => k
  end.

Definition can_reach (c0 c : world) (k : kernel) : Prop := rtc can_step c0 c /\ can_inv c /\ rep (kern (drv c)) k.

Lemma reach_call c0 c k t f : can_reach c0 c k -> pcs c t = None ->
  can_reach c0 (mk_world (set_pc t (Some (Called f 0)) (pcs c)) (drv c) (flight c) (hist c)) k.
Proof.
  intros (Hrtc & Hinv & Hr) Ht. split; [eapply rtc_r; [exact Hrtc|by apply cs_call]|]. split; [by apply inv_call|done].
Qed.

Lemma kern_rep (s s' : csys) k e : rep (kern s) k -> wf_kernel k -> irqs_off (kern s) = false -> ok_event e (kern s) k ->
  on_kern (run_event queue_off e) s = Ok tt s' -> rep (kern s') (spec_event k e).
Proof.
  intros Hr Hw Hi Hok E. destruct (kern_run s k e Hr Hw Hi Hok) as (ks & E' & Hrep & _). rewrite E in E'. by injection E' as ->.
Qed.

Lemma reach_run c0 c k t w pc pc' s' : can_reach c0 c k -> pcs c t = Some pc -> k_cur k = t ->
  k_state k !! t = Some THREAD_STATE_RUNNING -> in_isr_count (kern (drv c)) = 0 -> step_ok w pc (kern (drv c)) k ->
  send_step w pc (drv c) = Ok pc' s' -> can_reach c0 (moved c t pc pc' s') (after_send w pc k).
Proof.
  intros (Hrtc & Hinv & Hr) Hpc Hcur Hrun Hisr Hok E.
  assert (can_step c (moved c t pc pc' s')) as Hstep by (by eapply cs_run).
  split; [by eapply rtc_r|]. split; [by eapply can_inv_step|]. simpl.
  destruct Hinv as (k0 & v1 & ws1 & v2 & ws2 & h & Hr0 & Hw & Hi & HT). rewrite (rep_inj _ _ _ _ Hr0 Hr) in *.
  destruct pc as [f fl|f fl| | |]; simpl in E.
  - apply bind_inv in E as (b & s1 & E1 & E). unfold on_kern, scheduler_in_isr, gets in E1. injection E1 as <- <-.
    apply bind_inv in E as ([] & s2 & E2 & [= <- <-]). replace (set_kern (kern (drv c)) (drv c)) with (drv c) in E2 by (by destruct (drv c)).
    by eapply (kern_rep (drv c) s2 k (KWait send_lock w)).
  - by injection E as <- <-.
  - apply bind_inv in E as ([] & s2 & E2 & [= <- <-]). by eapply (kern_rep (drv c) s2 k (KWait send_done w)).
  - apply bind_inv in E as ([] & s2 & E2 & [= <- <-]). eapply (kern_rep (drv c) s2 k (KSignal send_lock)); try done.
    destruct (turns_hold _ _ _ _ _ _ _ _ _ HT Hw Hpc Hrun ltac:(done)) as [-> _].
    destruct HT as [T1 _ _ _ _ _ _ (Hv & _)]. exists v1, ws1. split; [done|lia].
  - by destruct (tu_returned _ _ _ _ _ _ _ HT t).
Qed.

Lemma reach_tx c0 c k m s' : can_reach c0 c k -> flight c = Some m -> tx (drv c) = Ok tt s' -> send_async (drv c) = false ->
  ok_event (KSignal send_done) (kern (drv c)) k ->
  can_reach c0 (mk_world (pcs c) s' None (hist c ++ [Done m])) (spec_event k (KSignal send_done)).
Proof.
  intros (Hrtc & Hinv & Hr) Hf E Ha Hok. assert (can_step c (mk_world (pcs c) s' None (hist c ++ [Done m]))) as Hstep by (by eapply cs_tx).
  split; [by eapply rtc_r|]. split; [by eapply can_inv_step|]. simpl.
  destruct Hinv as (k0 & v1 & ws1 & v2 & ws2 & h & Hr0 & Hw & Hi & HT). rewrite (rep_inj _ _ _ _ Hr0 Hr) in *.
  unfold can_rom_callback_tx in E. apply bind_inv in E as ([] & s1 & [= <-] & E). apply bind_inv in E as ([] & s2 & E2 & E).
  assert (send_async s2 = false) as Ha2.
  { destruct (kern_run (drv c) k (KSignal send_done) Hr Hw Hi Hok) as (ks & E' & _). simpl in E'. rewrite E2 in E'. by injection E' as ->. }
  unfold bind, gets in E. rewrite Ha2 in E. injection E as <-. by eapply (kern_rep (drv c) s2 k (KSignal send_done)).
Qed.
End Spec.

(** ** Frames and callbacks *)

(** A frame with an extended identifier comes out of its message again: all but the
    bytes beyond its length. *)
Lemma frame_msg_roundtrip uninit f : in_u 29 (id f) -> flags f = CAN_FRAME_FLAG_EXT -> 0 <= data_length f <= 8 -> length (data f) = 8%nat ->
  let g := frame_of_msg uninit (msg_of_frame f) in
  id g = id f /\ flags g = flags f /\ data_length g = data_length f /\
  take (Z.to_nat (data_length f)) (data g) = take (Z.to_nat (data_length f)) (data f) /\ length (data g) = 8%nat.
Proof.
  intros Hid Hfl Hlen Hd. cbv zeta. unfold msg_of_frame. rewrite Hfl. change (truth (Z.land CAN_FRAME_FLAG_EXT CAN_FRAME_FLAG_EXT)) with true. cbv iota.
  set (x := Z.lor (id f) LPC11_CAN_EXT_FLAG).
  assert (forall n, 0 <= n -> Z.testbit x n = ((n <? 29) && Z.testbit (id f) n) || (n =? 29)) as Hx.
  { intros n Hn. unfold x. rewrite Z.lor_spec. change LPC11_CAN_EXT_FLAG with (2 ^ 29). rewrite Z.pow2_bits_eqb by lia.
    rewrite (Z.eqb_sym 29 n). destruct (Z.ltb_spec n 29); [done|]. by rewrite (in_u_testbit_high 29 (id f) n) by (done || lia). }
  assert (truth (Z.land x LPC11_CAN_EXT_FLAG) = true) as Hext.
  { unfold truth. apply negb_true_iff, Z.eqb_neq. intros E. assert (Z.testbit (Z.land x LPC11_CAN_EXT_FLAG) 29 = true) as H; [|by rewrite E in H].
    rewrite Z.land_spec, Hx by lia. reflexivity. }
  unfold frame_of_msg. cbn [mode_id dlc msg_data]. rewrite Hext. cbn [id flags data_length data].
  split; [|split; [done|split; [done|split] ] ].
  - apply Z.bits_inj'. intros n Hn. rewrite Z.land_spec, Hx by done. unfold wrap. rewrite <-Z.land_ones, Z.land_spec, Z.testbit_ones_nonneg, Z.lnot_spec by lia.
    change LPC11_CAN_EXT_FLAG with (2 ^ 29). rewrite Z.pow2_bits_eqb by lia. rewrite (Z.eqb_sym 29 n).
    destruct (Z.ltb_spec n 29).
    + rewrite (proj2 (Z.eqb_neq n 29)), (proj2 (Z.ltb_lt n 32)) by lia. simpl. by rewrite orb_false_r, andb_true_r.
    + rewrite (in_u_testbit_high 29 (id f) n) by (done || lia). simpl. by destruct (n =? 29).
  - rewrite take_app_le by (rewrite length_take; lia). by rewrite take_take, Nat.min_id.
  - rewrite length_app, length_take, length_replicate. lia.
Qed.

Section Receive.
Context {S L : Type} `{LA : ListApi S L} (queue_off send_lock send_done uninit : Z).
Abbreviation csys := (CanRom.csys (S := S) (L := L)).
Abbreviation rx := (can_rom_callback_rx uninit).

(** What the object [n] of the controller does with the messages it reports. *)
Definition calls (s : csys) (n : Z) (cb ctx : Z) : Prop :=
  forall m (s' : csys), table s' = table s -> dlc m <= 8 ->
    rx n m s' = Ok tt (mk_csys (table s') (send_async s') (kern s') (ctrace s' ++ [EvCallback cb (frame_of_msg uninit m) ctx])).
Definition silent (s : csys) (n : Z) : Prop := forall m (s' : csys), table s' = table s -> rx n m s' = Ok tt s'.

Lemma calls_entry s n c : table s !! Z.to_nat (n - 1) = Some c -> callback c <> NULL -> calls s n (callback c) (context c).
Proof.
  intros Hc Hn m s' Ht Hd. unfold can_rom_callback_rx. rewrite (bind_ok _ _ s' c s') by (unfold deref; by rewrite Ht, Hc).
  unfold truth. rewrite (proj2 (Z.eqb_neq (callback c) 0) Hn). cbn [negb]. rewrite Z.gtb_ltb, (proj2 (Z.ltb_ge 8 (dlc m))) by lia. done.
Qed.

Lemma silent_entry s n c : table s !! Z.to_nat (n - 1) = Some c -> callback c = NULL -> silent s n.
Proof.
  intros Hc Hn m s' Ht. unfold can_rom_callback_rx. rewrite (bind_ok _ _ s' c s') by (unfold deref; by rewrite Ht, Hc). by rewrite Hn.
Qed.

Lemma find_conf_some p cs i : find_conf p cs = Some i <->
  exists c, cs !! i = Some c /\ p c = true /\ forall j d, cs !! j = Some d -> (j < i)%nat -> p d = false.
Proof.
  unfold find_conf. split.
  - intros H. apply fmap_Some in H as ([i' c] & H & ->). apply list_find_Some in H as (Hc & Hp & Hj). exists c. split; [done|].
    split; [by apply Is_true_true|]. intros j d Hd Hlt. destruct (p d) eqn:E; [|done]. destruct (Hj j d Hd Hlt). by rewrite E.
  - intros (c & Hc & Hp & Hj). apply fmap_Some. exists (i, c). split; [|done]. apply list_find_Some. split; [done|].
    split; [by apply Is_true_true|]. intros j d Hd Hlt. rewrite (Hj j d Hd Hlt). by intros [].
Qed.

Lemma find_conf_none p cs : find_conf p cs = None -> forall i c, cs !! i = Some c -> p c = false.
Proof.
  unfold find_conf. intros H%fmap_None i c Hc. destruct (p c) eqn:E; [|done].
  apply list_find_None in H. destruct (Forall_lookup_1 _ _ _ _ H Hc). by rewrite E.
Qed.

(** A callback that is set takes the first free message object: the controller
    is told its filter, from then on every message the object reports is given to the
    callback as a frame, and no other object changes; when all objects are in use the
    call fails and changes nothing.  Removing the callback again makes the object
    silent and the table what it was; removing one that is not set is an error.  And
    a frame that another driver sends is the frame the callback gets. *)
Theorem receive_dispatch id0 mask0 cb ctx (s : csys) : cb <> NULL ->
  (find_conf (fun c => callback c =? NULL) (table s) = None ->
     can_set_receive_callback uninit id0 mask0 CAN_FRAME_FLAG_EXT cb ctx s = Ok (STATUS_ERR 0) s) /\
  (forall i, find_conf (fun c => callback c =? NULL) (table s) = Some i ->
     find_conf (fun c => (callback c =? cb) && (context c =? ctx)) (table s) = None ->
     exists s1 s2, can_set_receive_callback uninit id0 mask0 CAN_FRAME_FLAG_EXT cb ctx s = Ok STATUS_OK s1 /\
       ctrace s1 = ctrace s ++ [EvConfigure (mk_msg (Z.lor id0 LPC11_CAN_EXT_FLAG) mask0 (replicate 8 uninit) uninit (Z.of_nat i + 1))] /\
       silent s (Z.of_nat i + 1) /\ calls s1 (Z.of_nat i + 1) cb ctx /\
       (forall j, j <> i -> table s1 !! j = table s !! j) /\
       can_unset_receive_callback id0 mask0 CAN_FRAME_FLAG_EXT cb ctx s1 = Ok STATUS_OK s2 /\ silent s2 (Z.of_nat i + 1) /\
       (forall j, j <> i -> table s2 !! j = table s !! j)) /\
  (find_conf (fun c => (callback c =? cb) && (context c =? ctx)) (table s) = None ->
     can_unset_receive_callback id0 mask0 CAN_FRAME_FLAG_EXT cb ctx s = Ok (STATUS_ERR 0) s) /\
  (forall f, in_u 29 (id f) -> flags f = CAN_FRAME_FLAG_EXT -> 0 <= data_length f <= 8 -> length (data f) = 8%nat ->
     let g := frame_of_msg uninit (msg_of_frame f) in
     id g = id f /\ flags g = flags f /\ data_length g = data_length f /\
     take (Z.to_nat (data_length f)) (data g) = take (Z.to_nat (data_length f)) (data f)).
Proof.
  intros Hcb. split; [|split; [|split] ].
  - intros E. unfold can_set_receive_callback, bind, gets. by rewrite E.
  - intros i Ei Enone. pose proof (proj1 (find_conf_some _ _ _) Ei) as (c & Hc & Hfree & _). pose proof (lookup_lt_Some _ _ _ Hc) as Hlt.
    set (tb := <[i := mk_conf cb ctx]> (table s)).
    set (ev := EvConfigure (mk_msg (Z.lor id0 LPC11_CAN_EXT_FLAG) mask0 (replicate 8 uninit) uninit (Z.of_nat i + 1))).
    exists (mk_csys tb (send_async s) (kern s) (ctrace s ++ [ev])), (mk_csys (<[i := mk_conf NULL NULL]> tb) (send_async s) (kern s) (ctrace s ++ [ev])).
    assert (Z.to_nat (Z.of_nat i + 1 - 1) = i) as Hi by lia.
    split; [|split; [done|split; [|split; [|split; [|split; [|split] ] ] ] ] ].
    + unfold can_set_receive_callback, bind, gets. rewrite Ei. reflexivity.
    + eapply silent_entry; [by rewrite Hi|by apply Z.eqb_eq].
    + eapply (calls_entry _ _ (mk_conf cb ctx)); [rewrite Hi; apply list_lookup_insert_eq, Hlt|done].
    + intros j Hj. simpl. unfold tb. by rewrite list_lookup_insert_ne.
    + unfold can_unset_receive_callback, bind, gets. cbn [table].
      replace (find_conf _ tb) with (Some i); [done|]. symmetry. apply find_conf_some. exists (mk_conf cb ctx).
      split; [by apply list_lookup_insert_eq|]. split; [simpl; by rewrite !Z.eqb_refl|]. intros j d Hd Hlt'.
      unfold tb in Hd. rewrite list_lookup_insert_ne in Hd by lia. exact (find_conf_none _ _ Enone j d Hd).
    + eapply (silent_entry _ _ (mk_conf NULL NULL)); [|done]. rewrite Hi. apply list_lookup_insert_eq. unfold tb. by rewrite length_insert.
    + intros j Hj. simpl. unfold tb. by rewrite !list_lookup_insert_ne.
  - intros E. unfold can_unset_receive_callback, bind, gets. by rewrite E.
  - intros f H1 H2 H3 H4. destruct (frame_msg_roundtrip uninit f H1 H2 H3 H4) as (? & ? & ? & ? & _). done.
Qed.
End Receive.

(** ** Runs on the lists of [core/list.c] *)

Abbreviation ex_csys := (CanRom.csys (S := store) (L := list_t)).
Definition ex_can_setup : list kevent := [KInit 100 0; KSemInit 400 1; KSemInit 420 0].
Definition ex_can_k : kernel := foldl spec_event kernel_start ex_can_setup.
Definition ex_can_kern : Sched.sys (S := store) (L := list_t) :=
  match run_events 20 ex_can_setup ex_start with Ok _ s => s | Fault _ => ex_start end.
Definition ex_can_drv : ex_csys := mk_csys (replicate NUM_RECEIVE (mk_conf NULL NULL)) false ex_can_kern [].
Definition ex_can_frame : can_frame := mk_frame 0x200 CAN_FRAME_FLAG_EXT 4 [84; 101; 115; 116; 0; 0; 0; 0].
Definition ex_can_world : world (S := store) (L := list_t) := mk_world (fun _ => None) ex_can_drv None [].

Lemma ex_can_start : can_start 20 400 420 ex_can_world ex_can_k.
Proof.
  assert (ok_events 20 ex_can_setup ex_start kernel_start) as Hok by (apply ok_events_b_ok; vm_compute; reflexivity).
  destruct (events_refine 20 ex_start kernel_start ex_can_setup) as (e & He & Hr & Hw & Hi);
    [apply (start_rep (L := list_t))|apply (start_rep (S := store) (L := list_t) 20 ex_store)|done|exact Hok|].
  assert (kern (drv ex_can_world) = e) as Hk by (simpl; unfold ex_can_kern; by rewrite He).
  split; rewrite ?Hk; try done.
Qed.

Abbreviation ex_send := (send_step (S := store) (L := list_t) 20 400 420).
Abbreviation ex_tx := (can_rom_callback_tx (S := store) (L := list_t) 20 400 420 0).

(** The driver after the sender's step, or the interrupt. *)
Definition sent_by (w : Z) (pc : send_pc) (s : ex_csys) : ex_csys := match ex_send w pc s with Ok _ s' => s' | Fault _ => s end.
Definition ex_sending : ex_csys :=
  sent_by 300 (Locked ex_can_frame 0) (sent_by 300 (Called ex_can_frame 0) ex_can_drv).

Lemma can_send_turns_witness :
  exists c, can_start 20 400 420 ex_can_world ex_can_k /\ rtc (can_step 20 400 420) ex_can_world c /\
    flight c = Some (msg_of_frame ex_can_frame) /\ (exists t, replay (hist c) = Some (Busy t (msg_of_frame ex_can_frame))) /\
    (exists s', ex_tx (drv c) = Ok tt s') /\
    exists s1 s2 s3, can_send 20 400 420 300 ex_can_frame CAN_FLAG_NOWAIT ex_can_drv = Ok Returned s1 /\ ex_tx s1 = Ok tt s2 /\
      can_send 20 400 420 300 ex_can_frame 0 s2 = Ok Returned s3.
Proof.
  assert (400 <> 420) as Hne by lia. pose proof (start_can_inv 20 400 420 ex_can_world ex_can_k ex_can_start) as Hinv.
  assert (can_reach 20 400 420 ex_can_world ex_can_world ex_can_k) as R0 by (split; [done|split; [done|apply ex_can_start] ]).
  apply (reach_call _ _ _ _ _ _ 100 ex_can_frame) in R0; [|done].
  eapply (reach_run 20 400 420 Hne _ _ _ 100 300) in R0;
    [|reflexivity|vm_compute; reflexivity|vm_compute; reflexivity|vm_compute; reflexivity|apply ok_event_b_ok; vm_compute; reflexivity
     |vm_compute; reflexivity].
  eapply (reach_run 20 400 420 Hne _ _ _ 100 300) in R0;
    [|reflexivity|vm_compute; reflexivity|vm_compute; reflexivity|vm_compute; reflexivity|exact I|vm_compute; reflexivity].
  destruct R0 as (Hrtc & _ & _).
  destruct (can_send_turns 20 400 420 Hne) as [Hturns Hasync]. destruct (Hturns ex_can_world ex_can_k _ ex_can_start Hrtc) as (_ & Hf & _).
  destruct (Hf _ eq_refl) as [Hb Ht]. destruct (Hasync ex_can_drv list_init list_init 300 ex_can_frame ex_can_frame CAN_FLAG_NOWAIT)
    as (s1 & s2 & s3 & E1 & E2 & E3 & _); [split; [vm_compute; reflexivity..|apply list_init_rep|apply list_init_rep]| |reflexivity|reflexivity|].
  { apply (bool_decide_unpack _). vm_compute. exact I. }
  eexists. split; [exact ex_can_start|]. split; [exact Hrtc|]. split; [reflexivity|]. split; [exact Hb|]. split; [exact Ht|].
  exists s1, s2, s3. done.
Defined.

(** An interrupt handler sends: the transmit interrupt signals [send_done] although
    nobody waits for it, and the next [can_send] of a thread returns while its message
    is still on its way: no transmit interrupt follows. *)
Definition async_run : M ex_csys (send_pc * send_pc) :=
  run! on_kern scheduler_enter_isr in
  let! p1 := ex_send 300 (Called ex_can_frame 0) in
  let! p1 := ex_send 300 p1 in
  run! on_kern scheduler_leave_isr in
  run! ex_tx in
  let! p2 := ex_send 300 (Called ex_can_frame 0) in
  let! p2 := ex_send 300 p2 in
  let! p2 := ex_send 300 p2 in
  let! p2 := ex_send 300 p2 in
  ret (p1, p2).

Lemma async_send_breaks :
  match async_run ex_can_drv with
  | Ok (p1, p2) s => p1 = Returned /\ p2 = Returned /\ length (ctrace s) = 2%nat /\ current_thread (kern s) = 100 /\
      (tstate <$> threads (kern s) !! 100 = Some THREAD_STATE_RUNNING)
  | Fault _ => False
  end.
Proof. vm_compute. repeat split. Qed.

Lemma receive_dispatch_witness :
  exists s1 s2, can_set_receive_callback 0 0x7FF 0x3FF CAN_FRAME_FLAG_EXT 1000 7 ex_can_drv = Ok STATUS_OK s1 /\
    calls 0 s1 1 1000 7 /\ can_unset_receive_callback 0x7FF 0x3FF CAN_FRAME_FLAG_EXT 1000 7 s1 = Ok STATUS_OK s2 /\ silent 0 s2 1.
Proof.
  destruct (receive_dispatch 0 0x7FF 0x3FF 1000 7 ex_can_drv) as (_ & H & _); [done|].
  destruct (H 0%nat eq_refl eq_refl) as (s1 & s2 & E1 & _ & _ & Hc & _ & E2 & Hs & _).
  exists s1, s2. split; [exact E1|]. split; [exact Hc|]. split; [exact E2|exact Hs].
Defined.
