(* ===== verification/Uart.v ===== *)
(** * Uart: the serial line of the LPC11xx

    [platform/lpc11xx/printk.c]: the file [debug_serial].  Its two operations are given
    as the steps between the accesses to what the interrupt handler and other threads
    share - the register IER and the semaphores; [IER |= x] is a load and a store.
    What the registers IIR, LSR and RBR deliver is given; the stores to THR are the
    trace. *)
From S2P Require Import Prelude ListApi Fw Sched Semaphore.

Definition IER_RBR : Z := Z.shiftl 1 0.
Definition IER_THRE : Z := Z.shiftl 1 1.
Definition IIR_RBR : Z := 0x4.
Definition IIR_THRE : Z := 0x2.
Definition LSR_RDR : Z := Z.shiftl 1 0.
Definition LSR_THRE : Z := Z.shiftl 1 5.
Definition LSR_TEMT : Z := Z.shiftl 1 6.

(** [fdiv] of [printk_init], which goes to DLM and DLL. *)
Definition baud_divisor (SystemCoreClock UARTCLKDIV baud : Z) : Z := SystemCoreClock / UARTCLKDIV / 16 / baud.

(** The stores of [printk_init] to the registers of the UART. *)
Inductive uart_reg := LCR | DLM | DLL | FDR | FCR.

Section Uart.
Context {S L : Type} `{LA : ListApi S L} (queue_off read_sem read_lock write_sem write_lock : Z).
Abbreviation sys := (Sched.sys (S := S) (L := L)).

(** IER and the trace of THR, [uart.read_buf], the kernel with the semaphores of
    [uart], and the set-up. *)
Record usys := mk_usys { ier : Z; thr : list Z; read_buf : Z; ukern : sys; setup : list (uart_reg * Z) }.

Definition set_ier (v : Z) : M usys unit := modify (fun s => mk_usys v (thr s) (read_buf s) (ukern s) (setup s)).
Definition put_thr (c : Z) : M usys unit := modify (fun s => mk_usys (ier s) (thr s ++ [c]) (read_buf s) (ukern s) (setup s)).
Definition set_read_buf (c : Z) : M usys unit := modify (fun s => mk_usys (ier s) (thr s) (u8 c) (ukern s) (setup s)).
Definition put_reg (r : uart_reg) (v : Z) : M usys unit := modify (fun s => mk_usys (ier s) (thr s) (read_buf s) (ukern s) (setup s ++ [(r, v)])).
Definition with_kern (k : sys) (s : usys) : usys := mk_usys (ier s) (thr s) (read_buf s) k (setup s).
Definition on_kern {A} (c : M sys A) : M usys A := fun s =>
  match c (ukern s) with Ok a k => Ok a (with_kern k s) | Fault f => Fault f end.

(** [status] is what IIR delivers, [rbr] the character in RBR. *)
Definition uart_isr (status rbr : Z) : M usys unit :=
  run! (if Z.land status IIR_RBR =? IIR_RBR then
          let! v := gets ier in
          run! set_ier (Z.land v (u32 (Z.lnot IER_RBR))) in
          run! set_read_buf rbr in
          on_kern (semaphore_signal queue_off read_sem)
        else ret tt) in
  if Z.land status IIR_THRE =? IIR_THRE then on_kern (semaphore_signal queue_off write_sem) else ret tt.

(** The values LSR delivers one after the other; [wait_lsr mask] is a loop until the
    bits of [mask] are set, [drain] the one that empties the receiver. *)
Fixpoint wait_lsr (lsr : list Z) (mask : Z) : M usys (list Z) :=
  match lsr with
  | [] => fail Diverges
  | v :: lsr => if Z.land v mask =? mask then ret lsr else wait_lsr lsr mask
  end.
Fixpoint drain (lsr : list Z) : M usys unit :=
  match lsr with
  | [] => fail Diverges
  | v :: lsr => if truth (Z.land v LSR_RDR) then drain lsr else ret tt
  end.

(** [printk_init] without the set-up of clock and pins; LSR is read once before the
    loops; [registered] is what
    [irq_register] returns.  [irq_enable] is modelled in [Irq]. *)
Definition printk_init (SystemCoreClock UARTCLKDIV baud : Z) (lsr : list Z) (registered : bool) : M usys unit :=
  run! put_reg LCR 0x83 in
  let fdiv := baud_divisor SystemCoreClock UARTCLKDIV baud in
  run! put_reg DLM (fdiv / 256) in
  run! put_reg DLL (fdiv mod 256) in
  run! put_reg FDR 0x10 in
  run! put_reg LCR 0x03 in
  run! put_reg FCR 0x07 in
  let! lsr := wait_lsr (tail lsr) (Z.lor LSR_THRE LSR_TEMT) in
  run! drain lsr in
  run! on_kern (semaphore_init read_sem 0) in
  run! on_kern (semaphore_init write_sem 0) in
  run! on_kern (semaphore_init read_lock 1) in
  run! on_kern (semaphore_init write_lock 1) in
  assert_ registered.

(** *** In an interrupt handler: polling *)

Fixpoint poll_write (lsr : list Z) (buf : list Z) : M usys unit :=
  match buf with
  | [] => ret tt
  | c :: buf => let! lsr := wait_lsr lsr LSR_THRE in run! put_thr c in poll_write lsr buf
  end.

(** [rbrs] is what RBR delivers. *)
Fixpoint poll_read (lsr rbrs : list Z) (n : nat) : M usys (list Z) :=
  match n, rbrs with
  | O, _ => ret []
  | Datatypes.S n, c :: rbrs => let! lsr := wait_lsr lsr LSR_RDR in let! cs := poll_read lsr rbrs n in ret (u8 c :: cs)
  | Datatypes.S _, [] => fail Diverges
  end.

(** *** In a thread

    [W] are the places of [write_op], [R] those of [read_op]: the entry, the head of the
    loop with the lock taken, the store to IER with what was loaded, the wait, what
    follows it.  A writer has its buffer, the current byte and those behind it; a
    reader the bytes it has got and [nbytes]. *)
Inductive upc :=
| WCalled (buf : list Z)
| WLoop (buf rest : list Z)
| WEnable (buf : list Z) (c : Z) (rest : list Z) (v : Z)
| WWait (buf : list Z) (c : Z) (rest : list Z)
| WStore (buf : list Z) (c : Z) (rest : list Z)
| WClear (buf rest : list Z)
| WDisable (buf rest : list Z) (v : Z)
| RCalled (nbytes : nat)
| RLoop (got : list Z) (nbytes : nat)
| REnable (got : list Z) (nbytes : nat) (v : Z)
| RWait (got : list Z) (nbytes : nat)
| RTake (got : list Z) (nbytes : nat)
| UReturned (r : Z).

(** [lsr] and [rbrs] are what the registers deliver when the call polls. *)
Definition uart_step (lsr rbrs : list Z) (w : Z) (pc : upc) : M usys upc :=
  match pc with
  | WCalled buf =>
      let! in_isr := on_kern scheduler_in_isr in
      if (in_isr : bool) then run! poll_write lsr buf in ret (UReturned (Z.of_nat (length buf)))
      else run! on_kern (semaphore_wait queue_off write_lock w) in ret (WLoop buf buf)
  | WLoop buf [] => run! on_kern (semaphore_signal queue_off write_lock) in ret (UReturned (Z.of_nat (length buf)))
  | WLoop buf (c :: rest) => let! v := gets ier in ret (WEnable buf c rest v)
  | WEnable buf c rest v => run! set_ier (Z.lor v IER_THRE) in ret (WWait buf c rest)
  | WWait buf c rest => run! on_kern (semaphore_wait queue_off write_sem w) in ret (WStore buf c rest)
  | WStore buf c rest => run! put_thr c in ret (WClear buf rest)
  | WClear buf rest => let! v := gets ier in ret (WDisable buf rest v)
  | WDisable buf rest v => run! set_ier (Z.land v (u32 (Z.lnot IER_THRE))) in ret (WLoop buf rest)
  | RCalled nbytes =>
      let! in_isr := on_kern scheduler_in_isr in
      if (in_isr : bool) then let! _ := poll_read lsr rbrs nbytes in ret (UReturned (Z.of_nat nbytes))
      else run! on_kern (semaphore_wait queue_off read_lock w) in ret (RLoop [] nbytes)
  | RLoop got nbytes =>
      if (length got <? nbytes)%nat then let! v := gets ier in ret (REnable got nbytes v)
      else run! on_kern (semaphore_signal queue_off read_lock) in ret (UReturned (Z.of_nat (length got)))
  | REnable got nbytes v => run! set_ier (Z.lor v IER_RBR) in ret (RWait got nbytes)
  | RWait got nbytes => run! on_kern (semaphore_wait queue_off read_sem w) in ret (RTake got nbytes)
  | RTake got nbytes => let! c := gets read_buf in ret (RLoop (got ++ [c]) nbytes)
  | UReturned r => ret (UReturned r)
  end.
End Uart.
