(* ===== verification/UartSpec.v ===== *)
(** * UartSpec: whole writes, and characters in order

    Any number of threads in [write_op] and [read_op], the interrupt handler and the
    rest of the kernel as a step relation, with the history of the calls. *)
From S2P Require Import Prelude ListApi DList Fw Sched Semaphore SchedSpec SchedRun Lock Delay Uart.

Create HintDb wire.

(** ** Program counters *)

(** The buffer of a writer beyond its lock, and what is left of it. *)
Definition w_buf (pc : upc) : option (list Z * list Z) :=
  match pc with
  | WLoop buf rest | WClear buf rest | WDisable buf rest _ => Some (buf, rest)
  | WEnable buf c rest _ | WWait buf c rest | WStore buf c rest => Some (buf, c :: rest)
  | _ => None
  end.

(** What a reader beyond its lock has got, and how much it wants. *)
Definition r_got (pc : upc) : option (list Z * nat) :=
  match pc with
  | RLoop got n | REnable got n _ | RWait got n | RTake got n => Some (got, n)
  | _ => None
  end.

(** The value of IER in hand. *)
Definition in_hand (pc : upc) : option Z :=
  match pc with WEnable _ _ _ v | WDisable _ _ v | REnable _ _ v => Some v | _ => None end.

Section Spec.
Context {S L : Type} `{LA : ListApi S L} (queue_off read_sem read_lock write_sem write_lock : Z).
Context (Hnd : NoDup [read_sem; read_lock; write_sem; write_lock]).
Abbreviation sys := (Sched.sys (S := S) (L := L)).
Abbreviation usys := (Uart.usys (S := S) (L := L)).
Abbreviation rep := (rep queue_off).
Abbreviation wf_kernel := (wf_kernel queue_off).
Abbreviation ok_event := (ok_event queue_off).
Abbreviation ustep := (uart_step queue_off read_sem read_lock write_sem write_lock [] []).
Abbreviation isr := (uart_isr queue_off read_sem write_sem).

(** The callers, the driver, the buffers written and read by the calls that have
    returned, and the characters the handler took from RBR. *)
Record world := mk_world { pcs : Z -> option upc; drv : usys; written : list (list Z); reads : list (list Z); arrived : list Z }.

(** The semaphore operation of a step may happen. *)
Definition step_ok (w : Z) (pc : upc) (ks : sys) (k : kernel) : Prop :=
  match pc with
  | WCalled _ => ok_event (KWait write_lock w) ks k
  | WWait _ _ _ => ok_event (KWait write_sem w) ks k
  | RCalled _ => ok_event (KWait read_lock w) ks k
  | RWait _ _ => ok_event (KWait read_sem w) ks k
  | _ => True
  end.

Definition ours (q : Z) : Prop := q ∈ [read_sem; read_lock; write_sem; write_lock].
Definition elsewhere (e : kevent) : Prop :=
  match e with KInit _ _ => False | KWait q _ | KSignal q => ~ ours q | _ => True end.

(** The calls that return with a step. *)
Definition wrote_by (pc : upc) : list (list Z) := match pc with WLoop buf [] => [buf] | _ => [] end.
Definition read_by (pc : upc) : list (list Z) := match pc with RLoop got n => if (length got <? n)%nat then [] else [got] | _ => [] end.
Definition next_pc (pc' : upc) : option upc := match pc' with UReturned _ => None | p => Some p end.

Definition moved (c : world) (t : Z) (pc pc' : upc) (s' : usys) : world :=
  mk_world (upd (pcs c) t (next_pc pc')) s' (written c ++ wrote_by pc) (reads c ++ read_by pc) (arrived c).

(** The handler may signal: the counters stay within their eight bits. *)
Definition room (k : kernel) (q : Z) : Prop := exists v ws, k_sems k !! q = Some (v, ws) /\ -128 <= v < 127.
Definition receives (status : Z) : bool := Z.land status IIR_RBR =? IIR_RBR.
Definition transmits (status : Z) : bool := Z.land status IIR_THRE =? IIR_THRE.

Inductive uart_run : world -> world -> Prop :=
| us_write c t buf : pcs c t = None -> uart_run c (mk_world (upd (pcs c) t (Some (WCalled buf))) (drv c) (written c) (reads c) (arrived c))
| us_read c t n : pcs c t = None -> uart_run c (mk_world (upd (pcs c) t (Some (RCalled n))) (drv c) (written c) (reads c) (arrived c))
| us_run c t w pc pc' s' k :
    pcs c t = Some pc -> rep (ukern (drv c)) k -> k_cur k = t -> k_state k !! t = Some THREAD_STATE_RUNNING ->
    in_isr_count (ukern (drv c)) = 0 -> step_ok w pc (ukern (drv c)) k -> ustep w pc (drv c) = Ok pc' s' ->
    uart_run c (moved c t pc pc' s')
| us_isr c status rbr k s' :
    rep (ukern (drv c)) k -> (receives status = true -> room k read_sem) -> (transmits status = true -> room k write_sem) ->
    isr status rbr (drv c) = Ok tt s' ->
    uart_run c (mk_world (pcs c) s' (written c) (reads c) (arrived c ++ if receives status then [u8 rbr] else []))
| us_other c e k ks' :
    rep (ukern (drv c)) k -> ok_event e (ukern (drv c)) k -> elsewhere e -> run_event queue_off e (ukern (drv c)) = Ok tt ks' ->
    uart_run c (mk_world (pcs c) (with_kern ks' (drv c)) (written c) (reads c) (arrived c)).

(** ** The invariant *)

Definition writer (c : world) (t : Z) : Prop := exists pc, pcs c t = Some pc /\ is_Some (w_buf pc).
Definition reader (c : world) (t : Z) : Prop := exists pc, pcs c t = Some pc /\ is_Some (r_got pc).

(** A caller that is not the holder sleeps at the head of its loop, with everything
    before it; the holder has done a part of its call. *)
Record uart_inv_at (c : world) (k : kernel) (hw hr : option Z) : Prop := {
  ui_rep : rep (ukern (drv c)) k;
  ui_wf : wf_kernel k;
  ui_irqs : irqs_off (ukern (drv c)) = false;
  ui_write : mutex write_lock k (writer c) hw;
  ui_read : mutex read_lock k (reader c) hr;
  ui_wsem : is_Some (k_sems k !! write_sem);
  ui_rsem : is_Some (k_sems k !! read_sem);
  ui_returned t r : pcs c t <> Some (UReturned r);
  ui_writers t pc buf rest : pcs c t = Some pc -> w_buf pc = Some (buf, rest) -> hw <> Some t -> pc = WLoop buf buf;
  ui_readers t pc got n : pcs c t = Some pc -> r_got pc = Some (got, n) -> hr <> Some t -> pc = RLoop [] n;
  ui_wire : exists done, thr (drv c) = concat (written c) ++ done /\
    match hw with
    | None => done = []
    | Some t => exists pc buf rest, pcs c t = Some pc /\ w_buf pc = Some (buf, rest) /\ buf = done ++ rest
    end }.

Definition uart_inv (c : world) : Prop := exists k hw hr, uart_inv_at c k hw hr.

(** ** Kernel calls *)

Lemma uart_kern_run (s : usys) k e : rep (ukern s) k -> wf_kernel k -> irqs_off (ukern s) = false -> ok_event e (ukern s) k ->
  exists ks, on_kern (run_event queue_off e) s = Ok tt (with_kern ks s) /\ rep ks (spec_event k e) /\
    wf_kernel (spec_event k e) /\ irqs_off ks = false.
Proof.
  intros Hr Hw Hi Hok. destruct (event_refines queue_off (ukern s) k e Hr Hw Hi Hok) as (ks & E & H).
  exists ks. split; [|exact H]. unfold on_kern. by rewrite E.
Qed.

Lemma distinct_sems : read_sem <> read_lock /\ read_sem <> write_sem /\ read_sem <> write_lock /\
  read_lock <> write_sem /\ (read_lock <> write_lock /\ write_lock <> read_lock) /\ write_sem <> write_lock /\ write_sem <> read_lock.
Proof.
  pose proof Hnd as H. rewrite !NoDup_cons, !not_elem_of_cons in H. naive_solver.
Qed.

(** The semaphores of a wait and a signal on another one. *)
Lemma wait_other q w ks k q' : ok_event (KWait q w) ks k -> q <> q' -> k_sems (spec_event k (KWait q w)) !! q' = k_sems k !! q'.
Proof. intros ((v & ws & Hs & _) & _) Hne. by rewrite (wait_sems q w k v ws q' Hs), decide_False. Qed.
Lemma signal_other q k q' : room k q -> q <> q' -> k_sems (spec_event k (KSignal q)) !! q' = k_sems k !! q'.
Proof. intros (v & ws & Hs & _) Hne. by rewrite (signal_sems q k v ws q' Hs), decide_False. Qed.
Lemma wait_some q w ks k q' : ok_event (KWait q w) ks k -> is_Some (k_sems k !! q') -> is_Some (k_sems (spec_event k (KWait q w)) !! q').
Proof. intros ((v & ws & Hs & _) & _) H. rewrite (wait_sems q w k v ws q' Hs). by destruct (decide (q = q')). Qed.
Lemma signal_some q k q' : room k q -> is_Some (k_sems k !! q') -> is_Some (k_sems (spec_event k (KSignal q)) !! q').
Proof. intros (v & ws & Hs & _) H. rewrite (signal_sems q k v ws q' Hs). by destruct (decide (q = q')). Qed.

Lemma uart_elsewhere_sems e ks k q : elsewhere e -> ok_event e ks k -> ours q -> is_Some (k_sems k !! q) ->
  k_sems (spec_event k e) !! q = k_sems k !! q.
Proof.
  intros He Hok Hq [x Hx]. destruct e; simpl in He, Hok; try done.
  - destruct Hok as [Hnew _]. simpl. rewrite lookup_insert_ne; [done|]. intros ->. congruence.
  - eapply (wait_other q0 w); [exact Hok|]. by intros ->.
  - eapply (signal_other q0); [exact Hok|]. by intros ->.
Qed.

(** ** Moves *)

Lemma moved_pc c t pc pc' s' t' : pcs (moved c t pc pc' s') t' = if decide (t' = t) then next_pc pc' else pcs c t'.
Proof. unfold moved, upd. cbn. destruct (decide (t' = t)) as [->|]; [by rewrite Z.eqb_refl|by rewrite (proj2 (Z.eqb_neq t' t))]. Qed.

(** [f] is what is looked for in a program counter: the part of a writer or a reader. *)
Lemma moved_in {A} (f : upc -> option A) c t pc pc' s' t' : (forall r, f (UReturned r) = None) ->
  (exists p, pcs (moved c t pc pc' s') t' = Some p /\ is_Some (f p)) <->
  if decide (t' = t) then is_Some (f pc') else exists p, pcs c t' = Some p /\ is_Some (f p).
Proof.
  intros Hf. rewrite moved_pc. destruct (decide (t' = t)); [|done]. split.
  - intros (p & Hp & H). destruct pc'; by simplify_eq/=.
  - intros H. destruct pc'; try (eexists; split; [reflexivity|exact H]). rewrite Hf in H. by destruct H.
Qed.

Lemma moved_same {A} (f : upc -> option A) c t pc pc' s' t' : (forall r, f (UReturned r) = None) -> pcs c t = Some pc ->
  (is_Some (f pc) <-> is_Some (f pc')) ->
  (exists p, pcs c t' = Some p /\ is_Some (f p)) <-> (exists p, pcs (moved c t pc pc' s') t' = Some p /\ is_Some (f p)).
Proof.
  intros Hf Hpc Hsame. rewrite (moved_in f) by done. destruct (decide (t' = t)) as [->|]; [|done]. rewrite <-Hsame.
  split; [by intros (p & Hp & H); simplify_eq|by exists pc].
Qed.

Lemma w_none r : w_buf (UReturned r) = None. Proof. done. Qed.
Lemma r_none r : r_got (UReturned r) = None. Proof. done. Qed.

(** The parts of a move that do not depend on the step. *)
Lemma inv_moved c k hw hr t pc pc' s' k' hw' hr' :
  uart_inv_at c k hw hr -> pcs c t = Some pc ->
  rep (ukern s') k' -> wf_kernel k' -> irqs_off (ukern s') = false ->
  mutex write_lock k' (writer (moved c t pc pc' s')) hw' -> mutex read_lock k' (reader (moved c t pc pc' s')) hr' ->
  (forall q, is_Some (k_sems k !! q) -> is_Some (k_sems k' !! q)) ->
  (forall t', t' <> t -> hw = Some t' -> hw' = Some t') -> (forall t', t' <> t -> hr = Some t' -> hr' = Some t') ->
  (forall buf rest, w_buf pc' = Some (buf, rest) -> hw' <> Some t -> pc' = WLoop buf buf) ->
  (forall got n, r_got pc' = Some (got, n) -> hr' <> Some t -> pc' = RLoop [] n) ->
  (exists done, thr s' = concat (written c ++ wrote_by pc) ++ done /\
    match hw' with
    | None => done = []
    | Some h => exists pc1 buf rest, pcs (moved c t pc pc' s') h = Some pc1 /\ w_buf pc1 = Some (buf, rest) /\ buf = done ++ rest
    end) ->
  uart_inv (moved c t pc pc' s').
Proof.
  intros [I1 I2 I3 I4 I5 I6 I7 I8 I9 I10 I11] Hpc Hr Hw Hi Hmw Hmr Hsem Hhw Hhr Hpw Hpr Hwire.
  exists k', hw', hr'. split; try done; [by apply Hsem|by apply Hsem|..].
  - intros t' r. rewrite moved_pc. destruct (decide (t' = t)); [by destruct pc'|apply I8].
  - intros t' p buf rest. rewrite moved_pc. destruct (decide (t' = t)) as [->|Hne].
    + intros Hp Hb Hh. assert (pc' = p) as -> by (destruct pc'; by simplify_eq/=). by eapply Hpw.
    + intros Hp Hb Hh. apply (I9 t' p buf rest Hp Hb). intros Hx. by apply Hh, Hhw.
  - intros t' p got n. rewrite moved_pc. destruct (decide (t' = t)) as [->|Hne].
    + intros Hp Hb Hh. assert (pc' = p) as -> by (destruct pc'; by simplify_eq/=). by eapply Hpr.
    + intros Hp Hb Hh. apply (I10 t' p got n Hp Hb). intros Hx. by apply Hh, Hhr.
Qed.

(** A step inside a call: the locks stay with their holders, the writer stores [out]. *)
Lemma inv_inner c k hw hr t pc pc' s' k' out :
  uart_inv_at c k hw hr -> pcs c t = Some pc ->
  rep (ukern s') k' -> wf_kernel k' -> irqs_off (ukern s') = false ->
  k_sems k' !! write_lock = k_sems k !! write_lock -> k_sems k' !! read_lock = k_sems k !! read_lock ->
  (forall q, is_Some (k_sems k !! q) -> is_Some (k_sems k' !! q)) ->
  thr s' = thr (drv c) ++ out -> wrote_by pc = [] ->
  match w_buf pc with
  | Some (buf, rest) => hw = Some t /\ exists rest', rest = out ++ rest' /\ w_buf pc' = Some (buf, rest')
  | None => out = [] /\ w_buf pc' = None
  end ->
  match r_got pc with Some _ => hr = Some t /\ is_Some (r_got pc') | None => r_got pc' = None end ->
  uart_inv (moved c t pc pc' s').
Proof.
  intros Hinv Hpc Hr Hw Hi Hwl Hrl Hsem Hout Hnw Hb Hg.
  assert (is_Some (w_buf pc) <-> is_Some (w_buf pc')) as Ew.
  { destruct (w_buf pc) as [ [buf rest]|]; [destruct Hb as (_ & r' & _ & ->)|destruct Hb as [_ ->]]; split; eauto; by intros []. }
  assert (is_Some (r_got pc) <-> is_Some (r_got pc')) as Er.
  { destruct (r_got pc); [destruct Hg as [_ Hg]|rewrite Hg]; split; eauto; by intros []. }
  eapply (inv_moved c k hw hr t pc pc' s' k' hw hr); try done.
  - eapply mutex_ext; [|eapply mutex_kept; [exact Hwl|apply Hinv] ]. intros t'. by apply moved_same.
  - eapply mutex_ext; [|eapply mutex_kept; [exact Hrl|apply Hinv] ]. intros t'. by apply moved_same.
  - intros buf rest Hb' Hh. destruct (w_buf pc) as [ [b r]|]; [by destruct Hb|]. destruct Hb as [_ Hb]. congruence.
  - intros got n Hg' Hh. destruct (r_got pc) as [ [b r]|]; [by destruct Hg|congruence].
  - destruct (ui_wire _ _ _ _ Hinv) as (done & Hth & Hd). rewrite Hnw, app_nil_r. exists (done ++ out).
    split; [by rewrite Hout, Hth, app_assoc|]. destruct hw as [h|].
    + destruct Hd as (pc1 & buf & rest & Hp1 & Hb1 & Ebuf). destruct (decide (h = t)) as [->|Hne].
      * rewrite Hpc in Hp1. injection Hp1 as <-. rewrite Hb1 in Hb. destruct Hb as (_ & rest' & -> & Hb').
        exists pc', buf, rest'. rewrite moved_pc, decide_True by done. split; [by destruct pc'|]. by rewrite <-app_assoc.
      * exists pc1, buf, rest. rewrite moved_pc, decide_False by done. split; [done|]. split; [done|].
        destruct (w_buf pc) as [ [b r]|]; [destruct Hb; congruence|]. destruct Hb as [-> _]. by rewrite app_nil_r.
    + subst done. destruct (w_buf pc) as [ [b r]|]; [by destruct Hb|]. by destruct Hb as [-> _].
Qed.

(** Who holds a lock where. *)
Lemma writer_holds c k hw hr t pc : uart_inv_at c k hw hr -> pcs c t = Some pc -> is_Some (w_buf pc) ->
  k_state k !! t = Some THREAD_STATE_RUNNING -> hw = Some t.
Proof. intros Hinv Hpc Hb Hrun. eapply mutex_holds; [apply Hinv|apply Hinv|by exists pc|done]. Qed.
Lemma reader_holds c k hw hr t pc : uart_inv_at c k hw hr -> pcs c t = Some pc -> is_Some (r_got pc) ->
  k_state k !! t = Some THREAD_STATE_RUNNING -> hr = Some t.
Proof. intros Hinv Hpc Hb Hrun. eapply mutex_holds; [apply Hinv|apply Hinv|by exists pc|done]. Qed.

(** The step of [t] goes well, and the invariant holds behind it. *)
Definition goes (c : world) (t w : Z) (pc : upc) : Prop :=
  exists pc' s', ustep w pc (drv c) = Ok pc' s' /\ uart_inv (moved c t pc pc' s').

Lemma goes_store c k hw hr t w pc pc' s' out :
  uart_inv_at c k hw hr -> pcs c t = Some pc -> k_state k !! t = Some THREAD_STATE_RUNNING ->
  ustep w pc (drv c) = Ok pc' s' -> ukern s' = ukern (drv c) -> thr s' = thr (drv c) ++ out -> wrote_by pc = [] ->
  match w_buf pc with
  | Some (buf, rest) => exists rest', rest = out ++ rest' /\ w_buf pc' = Some (buf, rest')
  | None => out = [] /\ w_buf pc' = None
  end ->
  match r_got pc with Some _ => is_Some (r_got pc') | None => r_got pc' = None end ->
  goes c t w pc.
Proof.
  intros Hinv Hpc Hrun E Hk Hth Hnw Hb Hg. exists pc', s'. split; [exact E|].
  eapply (inv_inner c k hw hr t pc pc' s' k out); try done; rewrite ?Hk; try apply Hinv.
  - destruct (w_buf pc) as [ [buf rest]|] eqn:Eb; [|done]. split; [|done]. eapply writer_holds; [exact Hinv|exact Hpc|by rewrite Eb|done].
  - destruct (r_got pc) as [x|] eqn:Eg; [|done]. split; [|done]. eapply reader_holds; [exact Hinv|exact Hpc|by rewrite Eg|done].
Qed.

(** A wait for the interrupt. *)
Lemma goes_wait c k hw hr t w pc pc' q :
  uart_inv_at c k hw hr -> pcs c t = Some pc -> k_state k !! t = Some THREAD_STATE_RUNNING ->
  ok_event (KWait q w) (ukern (drv c)) k -> q <> write_lock -> q <> read_lock ->
  (forall ks, on_kern (semaphore_wait queue_off q w) (drv c) = Ok tt (with_kern ks (drv c)) -> ustep w pc (drv c) = Ok pc' (with_kern ks (drv c))) ->
  wrote_by pc = [] -> w_buf pc' = w_buf pc -> r_got pc' = r_got pc -> goes c t w pc.
Proof.
  intros Hinv Hpc Hrun Hok Hq1 Hq2 E Hnw Hb Hg. pose proof Hinv as [I1 I2 I3 _ _ _ _ _ _ _ _].
  destruct (uart_kern_run (drv c) k (KWait q w) I1 I2 I3 Hok) as (ks & Ek & Hr & Hw & Hi).
  exists pc', (with_kern ks (drv c)). split; [by apply E|].
  eapply (inv_inner c k hw hr t pc pc' _ (spec_event k (KWait q w)) []); try done.
  - by eapply wait_other.
  - by eapply wait_other.
  - intros q'. by eapply wait_some.
  - by rewrite app_nil_r.
  - rewrite Hb. destruct (w_buf pc) as [ [buf rest]|] eqn:Eb; [|done]. split; [eapply writer_holds; [exact Hinv|exact Hpc|by rewrite Eb|done]|by exists rest].
  - rewrite Hg. destruct (r_got pc) as [x|] eqn:Eg; [|done]. split; [eapply reader_holds; [exact Hinv|exact Hpc|by rewrite Eg|done]|by eexists].
Qed.

Lemma in_isr_run (s : usys) : in_isr_count (ukern s) = 0 -> on_kern scheduler_in_isr s = Ok false s.
Proof. intros H. unfold on_kern, scheduler_in_isr, gets. rewrite H. by destruct s. Qed.

(** The wire does not depend on a step of another thread than the writer's. *)
Lemma wire_kept c k hw hr t pc pc' s' : uart_inv_at c k hw hr -> pcs c t = Some pc -> w_buf pc = None -> wrote_by pc = [] ->
  thr s' = thr (drv c) ->
  exists done, thr s' = concat (written c ++ wrote_by pc) ++ done /\
    match hw with
    | None => done = []
    | Some h => exists pc1 buf rest, pcs (moved c t pc pc' s') h = Some pc1 /\ w_buf pc1 = Some (buf, rest) /\ buf = done ++ rest
    end.
Proof.
  intros Hinv Hpc Hb Hnw ->. destruct (ui_wire _ _ _ _ Hinv) as (done & Hth & Hd). exists done. rewrite Hnw, app_nil_r. split; [done|].
  destruct hw as [h|]; [|done]. destruct Hd as (pc1 & buf & rest & Hp1 & Hb1 & E). exists pc1, buf, rest.
  rewrite moved_pc, decide_False; [done|]. intros ->. congruence.
Qed.

Lemma goes_wcalled c k hw hr t w buf : uart_inv_at c k hw hr -> pcs c t = Some (WCalled buf) -> k_cur k = t ->
  in_isr_count (ukern (drv c)) = 0 -> ok_event (KWait write_lock w) (ukern (drv c)) k -> goes c t w (WCalled buf).
Proof.
  intros Hinv Hpc Hcur Hisr Hok. pose proof Hinv as [I1 I2 I3 I4 I5 _ _ _ _ _ I11].
  destruct (uart_kern_run (drv c) k (KWait write_lock w) I1 I2 I3 Hok) as (ks & Ek & Hr & Hw & Hi).
  assert (~ writer c (k_cur k)) as Hnw by (rewrite Hcur; intros (p & Hp & [x Hx]); by simplify_eq).
  exists (WLoop buf buf), (with_kern ks (drv c)). split.
  { unfold uart_step. rewrite (bind_ok _ _ _ _ _ (in_isr_run _ Hisr)). simpl in Ek. by rewrite (bind_ok _ _ _ _ _ Ek). }
  eapply (inv_moved c k hw hr t _ _ _ (spec_event k (KWait write_lock w)) (Some (default t hw)) hr); try done.
  - eapply mutex_ext; [|rewrite <-Hcur; apply (mutex_take write_lock k (writer c) hw w I4 I2 Hnw); destruct Hok as [ (v & ws & H) _]; by exists v, ws].
    intros t'. unfold writer. rewrite (moved_in w_buf), Hcur by done. destruct (decide (t' = t)) as [->|]; simpl; [|tauto].
    split; [intros _; by eexists|by left].
  - eapply mutex_ext; [|eapply mutex_kept; [|exact I5] ].
    + intros t'. by apply (moved_same r_got).
    + eapply wait_other; [exact Hok|apply distinct_sems].
  - intros q. by eapply wait_some.
  - intros t' _ ->. done.
  - by intros b r [= <- <-].
  - destruct I11 as (done & Hth & Hd). exists done. cbn [wrote_by]. rewrite app_nil_r. split; [done|].
    destruct hw as [h|]; cbn [default from_option id].
    + destruct Hd as (pc1 & b & r & Hp1 & Hb1 & E). exists pc1, b, r. rewrite moved_pc, decide_False; [done|]. intros ->. by simplify_eq.
    + subst done. exists (WLoop buf buf), buf, buf. rewrite moved_pc, decide_True by done. done.
Qed.

Lemma goes_wdone c k hw hr t w buf : uart_inv_at c k hw hr -> pcs c t = Some (WLoop buf []) ->
  k_state k !! t = Some THREAD_STATE_RUNNING -> goes c t w (WLoop buf []).
Proof.
  intros Hinv Hpc Hrun. pose proof (writer_holds _ _ _ _ _ _ Hinv Hpc ltac:(by eexists) Hrun) as ->.
  pose proof Hinv as [I1 I2 I3 I4 I5 _ _ _ I9 _ I11]. destruct (mutex_give write_lock k (writer c) t I4 I2) as (Hroom & h' & Hm & Hh').
  destruct (uart_kern_run (drv c) k (KSignal write_lock) I1 I2 I3 Hroom) as (ks & Ek & Hr & Hw & Hi).
  exists (UReturned (Z.of_nat (length buf))), (with_kern ks (drv c)). split.
  { unfold uart_step. simpl in Ek. by rewrite (bind_ok _ _ _ _ _ Ek). }
  eapply (inv_moved c k (Some t) hr t _ _ _ (spec_event k (KSignal write_lock)) h' hr); try done.
  - eapply mutex_ext; [|exact Hm]. intros t'. unfold writer. rewrite (moved_in w_buf) by done.
    destruct (decide (t' = t)) as [->|]; simpl; [split; [by intros []|by intros []]|tauto].
  - eapply mutex_ext; [|eapply mutex_kept; [|exact I5] ].
    + intros t'. by apply (moved_same r_got).
    + eapply signal_other; [exact Hroom|apply distinct_sems].
  - intros q. by apply signal_some.
  - intros t' Hne [= ->]. done.
  - destruct I11 as (done & Hth & pc1 & b & r & Hp1 & Hb1 & E). rewrite Hpc in Hp1. injection Hp1 as <-. injection Hb1 as <- <-.
    rewrite app_nil_r in E. subst done. exists []. cbn [wrote_by]. rewrite concat_app. cbn [concat]. rewrite !app_nil_r. split; [done|].
    destruct h' as [h'|]; [|done]. destruct (Hh' h' eq_refl) as [Hne (p & Hp & [ [b r] Hb])].
    pose proof (I9 h' p b r Hp Hb ltac:(congruence)) as ->. injection Hb as ->. exists (WLoop r r), r, r.
    by rewrite moved_pc, decide_False.
Qed.

Lemma goes_rcalled c k hw hr t w n : uart_inv_at c k hw hr -> pcs c t = Some (RCalled n) -> k_cur k = t ->
  in_isr_count (ukern (drv c)) = 0 -> ok_event (KWait read_lock w) (ukern (drv c)) k -> goes c t w (RCalled n).
Proof.
  intros Hinv Hpc Hcur Hisr Hok. pose proof Hinv as [I1 I2 I3 I4 I5 _ _ _ _ _ _].
  destruct (uart_kern_run (drv c) k (KWait read_lock w) I1 I2 I3 Hok) as (ks & Ek & Hr & Hw & Hi).
  assert (~ reader c (k_cur k)) as Hnw by (rewrite Hcur; intros (p & Hp & [x Hx]); by simplify_eq).
  exists (RLoop [] n), (with_kern ks (drv c)). split.
  { unfold uart_step. rewrite (bind_ok _ _ _ _ _ (in_isr_run _ Hisr)). simpl in Ek. by rewrite (bind_ok _ _ _ _ _ Ek). }
  eapply (inv_moved c k hw hr t _ _ _ (spec_event k (KWait read_lock w)) hw (Some (default t hr))); try done.
  - eapply mutex_ext; [|eapply mutex_kept; [|exact I4] ].
    + intros t'. by apply (moved_same w_buf).
    + eapply wait_other; [exact Hok|apply distinct_sems].
  - eapply mutex_ext; [|rewrite <-Hcur; apply (mutex_take read_lock k (reader c) hr w I5 I2 Hnw); destruct Hok as [ (v & ws & H) _]; by exists v, ws].
    intros t'. unfold reader. rewrite (moved_in r_got), Hcur by done. destruct (decide (t' = t)) as [->|]; simpl; [|tauto].
    split; [intros _; by eexists|by left].
  - intros q. by eapply wait_some.
  - intros t' _ ->. done.
  - by intros b r [= <- <-].
  - by eapply wire_kept.
Qed.

Lemma goes_rdone c k hw hr t w got n : uart_inv_at c k hw hr -> pcs c t = Some (RLoop got n) -> (length got <? n)%nat = false ->
  k_state k !! t = Some THREAD_STATE_RUNNING -> goes c t w (RLoop got n).
Proof.
  intros Hinv Hpc Hfull Hrun. pose proof (reader_holds _ _ _ _ _ _ Hinv Hpc ltac:(by eexists) Hrun) as ->.
  pose proof Hinv as [I1 I2 I3 I4 I5 _ _ _ _ _ _]. destruct (mutex_give read_lock k (reader c) t I5 I2) as (Hroom & h' & Hm & Hh').
  destruct (uart_kern_run (drv c) k (KSignal read_lock) I1 I2 I3 Hroom) as (ks & Ek & Hr & Hw & Hi).
  exists (UReturned (Z.of_nat (length got))), (with_kern ks (drv c)). split.
  { unfold uart_step. rewrite Hfull. simpl in Ek. by rewrite (bind_ok _ _ _ _ _ Ek). }
  eapply (inv_moved c k hw (Some t) t _ _ _ (spec_event k (KSignal read_lock)) hw h'); try done.
  - eapply mutex_ext; [|eapply mutex_kept; [|exact I4] ].
    + intros t'. by apply (moved_same w_buf).
    + eapply signal_other; [exact Hroom|apply distinct_sems].
  - eapply mutex_ext; [|exact Hm]. intros t'. unfold reader. rewrite (moved_in r_got) by done.
    destruct (decide (t' = t)) as [->|]; simpl; [split; [by intros []|by intros []]|tauto].
  - intros q. by apply signal_some.
  - intros t' Hne [= ->]. done.
  - by eapply wire_kept.
Qed.

(** Every step of a caller whose thread runs. *)
Lemma run_caller c t w pc k : uart_inv c -> pcs c t = Some pc -> rep (ukern (drv c)) k -> k_cur k = t ->
  k_state k !! t = Some THREAD_STATE_RUNNING -> in_isr_count (ukern (drv c)) = 0 -> step_ok w pc (ukern (drv c)) k -> goes c t w pc.
Proof.
  intros (k0 & hw & hr & Hinv) Hpc Hr Hcur Hrun Hisr Hok. pose proof (rep_inj _ _ _ _ (ui_rep _ _ _ _ Hinv) Hr) as ->.
  destruct pc as [buf|buf [|ch rest]|buf ch rest v|buf ch rest|buf ch rest|buf rest|buf rest v|n|got n|got n v|got n|got n|r].
  - by eapply goes_wcalled.
  - by eapply goes_wdone.
  - eapply (goes_store c k hw hr t w _ _ _ []); try done; [by rewrite app_nil_r|by eexists].
  - eapply (goes_store c k hw hr t w _ _ _ []); try done; [by rewrite app_nil_r|by eexists].
  - eapply (goes_wait c k hw hr t w _ (WStore buf ch rest) write_sem); try done; [apply distinct_sems..|].
    intros ks E. unfold uart_step. by rewrite (bind_ok _ _ _ _ _ E).
  - eapply (goes_store c k hw hr t w _ _ _ [ch]); try done. by eexists.
  - eapply (goes_store c k hw hr t w _ _ _ []); try done; [by rewrite app_nil_r|by eexists].
  - eapply (goes_store c k hw hr t w _ _ _ []); try done; [by rewrite app_nil_r|by eexists].
  - by eapply goes_rcalled.
  - destruct (length got <? n)%nat eqn:E; [|by eapply goes_rdone].
    eapply (goes_store c k hw hr t w _ (REnable got n (ier (drv c))) (drv c) []); try done; try (by rewrite app_nil_r); try (by eexists). cbn [uart_step]. by rewrite E.
  - eapply (goes_store c k hw hr t w _ _ _ []); try done; try (by rewrite app_nil_r); by eexists.
  - eapply (goes_wait c k hw hr t w _ (RTake got n) read_sem); try done; [apply distinct_sems..|].
    intros ks E. unfold uart_step. by rewrite (bind_ok _ _ _ _ _ E).
  - eapply (goes_store c k hw hr t w _ _ _ []); try done; try (by rewrite app_nil_r); by eexists.
  - by destruct (ui_returned _ _ _ _ Hinv t r).
Qed.

(** A change of the driver that is none of the callers'. *)
Lemma inv_around c k hw hr s' k' arr : uart_inv_at c k hw hr -> rep (ukern s') k' -> wf_kernel k' -> irqs_off (ukern s') = false ->
  k_sems k' !! write_lock = k_sems k !! write_lock -> k_sems k' !! read_lock = k_sems k !! read_lock ->
  is_Some (k_sems k' !! write_sem) -> is_Some (k_sems k' !! read_sem) -> thr s' = thr (drv c) ->
  uart_inv_at (mk_world (pcs c) s' (written c) (reads c) arr) k' hw hr.
Proof.
  intros [I1 I2 I3 I4 I5 I6 I7 I8 I9 I10 I11] Hr Hw Hi Hl1 Hl2 Hs1 Hs2 Hth. split; try done; cbn [pcs drv written].
  - by eapply mutex_kept.
  - by eapply mutex_kept.
  - by rewrite Hth.
Qed.

Lemma uart_signal_run (s : usys) k q : rep (ukern s) k -> wf_kernel k -> irqs_off (ukern s) = false -> room k q ->
  exists ks, on_kern (semaphore_signal queue_off q) s = Ok tt (with_kern ks s) /\ rep ks (spec_event k (KSignal q)) /\
    wf_kernel (spec_event k (KSignal q)) /\ irqs_off ks = false.
Proof. intros Hr Hw Hi Hroom. exact (uart_kern_run s k (KSignal q) Hr Hw Hi Hroom). Qed.

(** The kernel behind the interrupt handler. *)
Definition after_isr (status : Z) (k : kernel) : kernel :=
  let k := if receives status then spec_event k (KSignal read_sem) else k in
  if transmits status then spec_event k (KSignal write_sem) else k.

Lemma isr_run (s : usys) k status rbr : rep (ukern s) k -> wf_kernel k -> irqs_off (ukern s) = false ->
  (receives status = true -> room k read_sem) -> (transmits status = true -> room k write_sem) ->
  exists s', isr status rbr s = Ok tt s' /\ rep (ukern s') (after_isr status k) /\ wf_kernel (after_isr status k) /\
    irqs_off (ukern s') = false /\ thr s' = thr s /\
    (if receives status then ier s' = Z.land (ier s) (u32 (Z.lnot IER_RBR)) /\ read_buf s' = u8 rbr else ier s' = ier s /\ read_buf s' = read_buf s).
Proof.
  intros Hr Hw Hi Hrr Hrt. unfold uart_isr, after_isr. fold (receives status) (transmits status).
  set (s0 := if receives status then mk_usys (Z.land (ier s) (u32 (Z.lnot IER_RBR))) (thr s) (u8 rbr) (ukern s) (setup s) else s).
  set (k1 := if receives status then spec_event k (KSignal read_sem) else k).
  assert (exists ks, (if receives status then
            let! v := gets ier in run! set_ier (Z.land v (u32 (Z.lnot IER_RBR))) in run! set_read_buf rbr in on_kern (semaphore_signal queue_off read_sem)
          else ret tt) s = Ok tt (with_kern ks s0) /\ rep ks k1 /\ wf_kernel k1 /\ irqs_off ks = false) as (ks & E1 & Hr1 & Hw1 & Hi1).
  { unfold s0, k1. destruct (receives status); [|exists (ukern s); split; [by destruct s|done] ].
    destruct (uart_signal_run (mk_usys (Z.land (ier s) (u32 (Z.lnot IER_RBR))) (thr s) (u8 rbr) (ukern s) (setup s)) k read_sem Hr Hw Hi (Hrr eq_refl))
      as (ks & E & H). exists ks. split; [exact E|exact H]. }
  rewrite (bind_ok _ _ _ _ _ E1).
  assert (thr s0 = thr s /\ (if receives status then ier s0 = Z.land (ier s) (u32 (Z.lnot IER_RBR)) /\ read_buf s0 = u8 rbr
    else ier s0 = ier s /\ read_buf s0 = read_buf s)) as [Ht0 H0] by (unfold s0; by destruct (receives status)).
  destruct (transmits status) eqn:Et; [|by exists (with_kern ks s0)].
  assert (room k1 write_sem) as Hroom.
  { unfold k1. destruct (receives status) eqn:Er; [|by apply Hrt]. destruct (Hrt eq_refl) as (v & ws & Hs & Hv). exists v, ws.
    split; [|done]. rewrite signal_other; [done|by apply Hrr|apply distinct_sems]. }
  destruct (uart_signal_run (with_kern ks s0) k1 write_sem Hr1 Hw1 Hi1 Hroom) as (ks2 & E2 & Hr2 & Hw2 & Hi2).
  exists (with_kern ks2 s0). split; [exact E2|]. done.
Qed.

Lemma after_isr_other status k q : (receives status = true -> room k read_sem) -> (transmits status = true -> room k write_sem) ->
  q <> read_sem -> q <> write_sem -> k_sems (after_isr status k) !! q = k_sems k !! q.
Proof.
  intros Hr Ht Hq1 Hq2. unfold after_isr. destruct (receives status) eqn:Er.
  - destruct (transmits status) eqn:Et; [rewrite signal_other; [|destruct (Ht eq_refl) as (v & ws & Hs & Hv); exists v, ws; split; [|done]; rewrite signal_other; [done|by apply Hr|apply distinct_sems]|done]|];
      (rewrite signal_other; [done|by apply Hr|done]).
  - destruct (transmits status); [|done]. rewrite signal_other; [done|by apply Ht|done].
Qed.

Lemma after_isr_some status k q : (receives status = true -> room k read_sem) -> (transmits status = true -> room k write_sem) ->
  is_Some (k_sems k !! q) -> is_Some (k_sems (after_isr status k) !! q).
Proof.
  intros Hr Ht H. unfold after_isr. destruct (receives status) eqn:Er.
  - destruct (transmits status) eqn:Et; [|by apply signal_some; [apply Hr|] ]. apply signal_some; [|by apply signal_some; [apply Hr|] ].
    destruct (Ht eq_refl) as (v & ws & Hs & Hv). exists v, ws. split; [|done]. rewrite signal_other; [done|by apply Hr|apply distinct_sems].
  - destruct (transmits status); [|done]. by apply signal_some; [apply Ht|].
Qed.

(** A call begins. *)
Lemma uart_inv_call c t p : uart_inv c -> pcs c t = None -> w_buf p = None -> r_got p = None -> (forall r, p <> UReturned r) ->
  uart_inv (mk_world (upd (pcs c) t (Some p)) (drv c) (written c) (reads c) (arrived c)).
Proof.
  intros (k & hw & hr & [I1 I2 I3 I4 I5 I6 I7 I8 I9 I10 I11]) Ht Hb Hg Hn.
  assert (forall t', upd (pcs c) t (Some p) t' = if decide (t' = t) then Some p else pcs c t') as Hupd.
  { intros t'. unfold upd. destruct (decide (t' = t)) as [->|]; [by rewrite Z.eqb_refl|by rewrite (proj2 (Z.eqb_neq t' t))]. }
  exists k, hw, hr. split; try done; cbn [pcs drv written].
  - eapply mutex_ext; [|exact I4]. intros t'. unfold writer. cbn [pcs]. rewrite Hupd. destruct (decide (t' = t)) as [->|]; [|done].
    rewrite Ht. split; intros (p' & ? & [x ?]); by simplify_eq.
  - eapply mutex_ext; [|exact I5]. intros t'. unfold reader. cbn [pcs]. rewrite Hupd. destruct (decide (t' = t)) as [->|]; [|done].
    rewrite Ht. split; intros (p' & ? & [x ?]); by simplify_eq.
  - intros t' r. rewrite Hupd. destruct (decide (t' = t)); [|apply I8]. by intros [= ->]; apply (Hn r).
  - intros t' pc buf rest. rewrite Hupd. destruct (decide (t' = t)); [intros [= <-]; congruence|apply I9].
  - intros t' pc got n. rewrite Hupd. destruct (decide (t' = t)); [intros [= <-]; congruence|apply I10].
  - destruct I11 as (part & Hth & Hd). exists part. split; [done|]. destruct hw as [h|]; [|done].
    destruct Hd as (pc1 & b & r & Hp1 & Hb1 & Eb). exists pc1, b, r. rewrite Hupd, decide_False; [done|]. intros ->. congruence.
Qed.

Lemma uart_inv_step c c' : uart_run c c' -> uart_inv c -> uart_inv c'.
Proof.
  intros Hs Hinv. pose proof Hinv as (k0 & hw & hr & H0).
  destruct Hs as [c t buf Ht|c t n Ht|c t w pc pc' s' k Hpc Hr Hcur Hrun Hisr Hok E|c status rbr k s' Hr Hrr Hrt E|c e k ks' Hr Hok He E].
  3:{ destruct (run_caller c t w pc k Hinv Hpc Hr Hcur Hrun Hisr Hok) as (pc1 & s1 & E1 & H1). rewrite E in E1. by injection E1 as <- <-. }
  1,2: by apply uart_inv_call.
  - pose proof (rep_inj _ _ _ _ Hr (ui_rep _ _ _ _ H0)) as ->. destruct H0 as [I1 I2 I3 I4 I5 I6 I7 I8 I9 I10 I11] eqn:EH. clear EH.
    destruct (isr_run (drv c) k0 status rbr I1 I2 I3 Hrr Hrt) as (s1 & E1 & Hr1 & Hw1 & Hi1 & Hth & _). rewrite E in E1. injection E1 as <-.
    exists (after_isr status k0), hw, hr. apply (inv_around c k0); try done; try (apply after_isr_other; (done || apply distinct_sems || (apply not_eq_sym, distinct_sems)));
      by apply after_isr_some.
  - pose proof (rep_inj _ _ _ _ Hr (ui_rep _ _ _ _ H0)) as ->. pose proof H0 as [I1 I2 I3 I4 I5 I6 I7 I8 I9 I10 I11].
    destruct (event_refines queue_off (ukern (drv c)) k0 e I1 I2 I3 Hok) as (ks & E' & Hrep & Hwf & Hirq). rewrite E in E'. injection E' as <-.
    assert (forall q, ours q -> is_Some (k_sems k0 !! q) -> k_sems (spec_event k0 e) !! q = k_sems k0 !! q) as Hq by (intros; by eapply uart_elsewhere_sems).
    destruct I4 as (v4 & ws4 & [S4 _ _ _]). destruct I5 as (v5 & ws5 & [S5 _ _ _]).
    exists (spec_event k0 e), hw, hr. apply (inv_around c k0); try done; rewrite ?Hq; try done; unfold ours; try set_solver; by rewrite ?S4, ?S5.
Qed.

(** After [printk_init]: the line is free, nobody reads or writes. *)
Record uart_start (c : world) (k : kernel) : Prop := {
  st_pcs t : pcs c t = None;
  st_rep : rep (ukern (drv c)) k;
  st_wf : wf_kernel k;
  st_irqs : irqs_off (ukern (drv c)) = false;
  st_sems : k_sems k !! read_sem = Some (0, []) /\ k_sems k !! write_sem = Some (0, []) /\
    k_sems k !! read_lock = Some (1, []) /\ k_sems k !! write_lock = Some (1, []);
  st_trace : thr (drv c) = [] /\ written c = [] /\ reads c = [] /\ arrived c = [];
  st_ier : Z.testbit (ier (drv c)) 0 = false }.

Lemma free_mutex k q inside : k_sems k !! q = Some (1, []) -> (forall t, ~ inside t) -> mutex q k inside None.
Proof. intros Hs Hi. exists 1, []. split; [done|by intros w t ?%not_elem_of_nil|by intros t ?%Hi|done]. Qed.

Lemma start_inv_at c k : uart_start c k -> uart_inv_at c k None None.
Proof.
  intros [S1 S2 S3 S4 (S5 & S6 & S7 & S8) (S9 & S10 & S11 & S12) _]. split; try done; rewrite ?S5, ?S6; try by eexists.
  - apply free_mutex; [done|]. intros t (p & Hp & _). congruence.
  - apply free_mutex; [done|]. intros t (p & Hp & _). congruence.
  - intros t r. by rewrite S1.
  - intros t pc b r Hp. congruence.
  - intros t pc b r Hp. congruence.
  - exists []. by rewrite S9, S10.
Qed.

Lemma inv_writes_whole c : uart_inv c ->
  (exists part, thr (drv c) = concat (written c) ++ part /\
    (part = [] \/ exists t pc buf rest, pcs c t = Some pc /\ w_buf pc = Some (buf, rest) /\ buf = part ++ rest)) /\
  exists k, rep (ukern (drv c)) k /\ wf_kernel k /\
    (forall t w pc, pcs c t = Some pc -> k_cur k = t -> k_state k !! t = Some THREAD_STATE_RUNNING ->
       in_isr_count (ukern (drv c)) = 0 -> step_ok w pc (ukern (drv c)) k -> exists pc' s', ustep w pc (drv c) = Ok pc' s') /\
    (forall status rbr, (receives status = true -> room k read_sem) -> (transmits status = true -> room k write_sem) ->
       exists s', isr status rbr (drv c) = Ok tt s').
Proof.
  intros Hinv. pose proof Hinv as (k & hw & hr & [I1 I2 I3 I4 I5 I6 I7 I8 I9 I10 I11]).
  split; [|exists k; split; [done|split; [done|split] ] ].
  - destruct I11 as (part & Hth & Hd). exists part. split; [done|].
    destruct hw as [h|]; [right|by left]. destruct Hd as (pc & b & r & ? & ? & ?). by exists h, pc, b, r.
  - intros t w pc Hpc Hcur Hrun Hisr Hok. destruct (run_caller c t w pc k Hinv Hpc I1 Hcur Hrun Hisr Hok) as (pc' & s' & E & _). eauto.
  - intros status rbr Hrr Hrt. destruct (isr_run (drv c) k status rbr I1 I2 I3 Hrr Hrt) as (s' & E & _). eauto.
Qed.

(** *** Handlers that write *)

Definition with_thr (out : list Z) (s : usys) : usys := mk_usys (ier s) out (read_buf s) (ukern s) (setup s).
Definition seen (c : world) (out : list Z) : world := mk_world (pcs c) (with_thr out (drv c)) (written c) (reads c) (arrived c).

(** [c] appends to the trace of THR and does not look at it. *)
Definition appends {A} (c : M usys A) : Prop := forall s a s', c s = Ok a s' ->
  exists new, thr s' = thr s ++ new /\ forall out, c (with_thr out s) = Ok a (with_thr (out ++ new) s').

Lemma appends_ret {A} (a : A) : appends (ret a).
Proof. intros s b s' [= <- <-]. exists []. split; [by rewrite app_nil_r|]. intros out. by rewrite app_nil_r. Qed.
Lemma appends_gets {A} (f : usys -> A) : (forall out s, f (with_thr out s) = f s) -> appends (gets f).
Proof. intros Hf s b s' [= <- <-]. exists []. split; [by rewrite app_nil_r|]. intros out. unfold gets. by rewrite app_nil_r, Hf. Qed.
Lemma appends_bind {A B} (c : M usys A) (f : A -> M usys B) : appends c -> (forall a, appends (f a)) -> appends (bind c f).
Proof.
  intros Hc Hf s b s' E. apply bind_inv in E as (a & s1 & E1 & E2). destruct (Hc _ _ _ E1) as (n1 & T1 & H1), (Hf _ _ _ _ E2) as (n2 & T2 & H2).
  exists (n1 ++ n2). split; [by rewrite T2, T1, app_assoc|]. intros out. rewrite (bind_ok _ _ _ _ _ (H1 out)), H2. by rewrite app_assoc.
Qed.
Lemma appends_if {A} (b : bool) (c d : M usys A) : appends c -> appends d -> appends (if b then c else d).
Proof. by destruct b. Qed.
Lemma appends_put c : appends (put_thr c).
Proof. intros s a s' [= <- <-]. by exists [c]. Qed.
Lemma appends_ier v : appends (set_ier v).
Proof. intros s a s' [= <- <-]. exists []. split; [by rewrite app_nil_r|]. intros out. by rewrite app_nil_r. Qed.
Lemma appends_buf v : appends (set_read_buf v).
Proof. intros s a s' [= <- <-]. exists []. split; [by rewrite app_nil_r|]. intros out. by rewrite app_nil_r. Qed.
Lemma appends_kern {A} (c : M sys A) : appends (on_kern c).
Proof.
  intros s a s'. unfold on_kern. destruct (c (ukern s)) as [b ks|] eqn:E; [|done]. intros [= <- <-]. exists []. split; [by rewrite app_nil_r|].
  intros out. cbn. by rewrite E, app_nil_r.
Qed.
Hint Resolve appends_ret appends_bind appends_if appends_put appends_ier appends_buf appends_kern : wire.
Hint Extern 1 (appends (gets _)) => (apply appends_gets; intros ? ?; reflexivity) : wire.

Lemma appends_fail {A} f : appends (fail f : M usys A). Proof. by intros s a s'. Qed.
Lemma appends_wait lsr mask : appends (wait_lsr lsr mask).
Proof. induction lsr as [|v lsr IH]; cbn [wait_lsr]; [apply appends_fail|by auto with wire]. Qed.
Lemma appends_poll lsr buf : appends (poll_write lsr buf).
Proof. revert lsr. induction buf as [|c buf IH]; intros lsr; cbn [poll_write]; auto using appends_wait with wire. Qed.
Lemma appends_read lsr rbrs n : appends (poll_read lsr rbrs n).
Proof. revert lsr rbrs. induction n as [|n IH]; intros lsr [|c rbrs]; cbn [poll_read]; auto using appends_wait, appends_fail with wire. Qed.
Lemma step_appends lsr rbrs w pc : appends (uart_step queue_off read_sem read_lock write_sem write_lock lsr rbrs w pc).
Proof.
  destruct pc as [buf|buf [|ch rest]|buf ch rest v|buf ch rest|buf ch rest|buf rest|buf rest v|n|got n|got n v|got n|got n|r]; cbn [uart_step];
    auto 10 using appends_poll, appends_read with wire.
Qed.
Lemma isr_appends status rbr : appends (isr status rbr).
Proof. unfold uart_isr. auto 10 with wire. Qed.

(** What was written to THR does not matter for a step. *)
Lemma run_seen c c' : uart_run c c' -> exists new, thr (drv c') = thr (drv c) ++ new /\ forall out, uart_run (seen c out) (seen c' (out ++ new)).
Proof.
  intros [d t buf Ht|d t n Ht|d t w pc pc' s' k Hpc Hr Hcur Hrun Hisr Hok E|d status rbr k s' Hr Hrr Hrt E|d e k ks' Hr Hok He E]; cbn [drv].
  - exists []. split; [by rewrite app_nil_r|]. intros out. rewrite app_nil_r. by apply (us_write (seen d out)).
  - exists []. split; [by rewrite app_nil_r|]. intros out. rewrite app_nil_r. by apply (us_read (seen d out)).
  - destruct (step_appends _ _ _ _ _ _ _ E) as (new & T & H). exists new. split; [exact T|]. intros out.
    apply (us_run (seen d out) t w pc pc' (with_thr (out ++ new) s') k); try done. exact (H out).
  - destruct (isr_appends _ _ _ _ _ E) as (new & T & H). exists new. split; [exact T|]. intros out.
    apply (us_isr (seen d out) status rbr k (with_thr (out ++ new) s')); try done. exact (H out).
  - exists []. split; [by rewrite app_nil_r|]. intros out. rewrite app_nil_r. by apply (us_other (seen d out) e k ks').
Qed.

(** The wire: a character of a thread, or the buffer of an interrupt handler. *)
Inductive chunk := Thread (c : Z) | Handler (buf : list Z).
Definition all_chars (w : list chunk) : list Z := concat ((fun x => match x with Thread c => [c] | Handler buf => buf end) <$> w).
Definition thread_chars (w : list chunk) : list Z := concat ((fun x => match x with Thread c => [c] | Handler _ => [] end) <$> w).

(** [write_op] in an interrupt handler, where [arch_handle_irq] has counted it. *)
Definition handler_write (lsr buf : list Z) : M usys upc :=
  run! on_kern scheduler_enter_isr in
  let! r := uart_step queue_off read_sem read_lock write_sem write_lock lsr [] 0 (WCalled buf) in
  run! on_kern scheduler_leave_isr in
  ret r.

Lemma poll_run (s : usys) lsr buf : (forall s', poll_write lsr buf s = Ok tt s' -> s' = with_thr (thr s ++ buf) s).
Proof.
  assert (forall m l (s : usys) r s', wait_lsr l m s = Ok r s' -> s' = s) as Hw.
  { intros m l. induction l as [|v l IH]; intros s1 r s'; cbn [wait_lsr]; [done|]. destruct (_ =? _); [by intros [= _ <-]|apply IH]. }
  revert s lsr. induction buf as [|c buf IH]; intros s lsr s'; cbn [poll_write].
  - intros [= <-]. rewrite app_nil_r. by destruct s.
  - intros E. apply bind_inv in E as (l & s1 & E1 & E). apply Hw in E1 as ->. apply bind_inv in E as ([] & s2 & [= <-] & E).
    apply IH in E as ->. unfold with_thr. cbn. by rewrite <-app_assoc.
Qed.

Lemma poll_ready (s : usys) lsr buf : (length buf <= length (filter (fun v => Z.land v LSR_THRE = LSR_THRE) lsr))%nat ->
  exists s', poll_write lsr buf s = Ok tt s'.
Proof.
  revert s buf. induction lsr as [|v lsr IH]; intros s [|c buf] Hlen; [by eexists|cbn in Hlen; lia|by eexists|].
  cbn [poll_write wait_lsr]. unfold bind. rewrite filter_cons in Hlen. destruct (decide _) as [E|E].
  - rewrite (proj2 (Z.eqb_eq _ _) E). cbn [length] in Hlen. destruct (IH (with_thr (thr s ++ [c]) s) buf ltac:(lia)) as (s' & H). exists s'. exact H.
  - rewrite (proj2 (Z.eqb_neq _ _) E). destruct (IH s (c :: buf) Hlen) as (s' & H). exists s'. exact H.
Qed.

Lemma isr_back (ks : sys) : 0 <= in_isr_count ks < 255 -> set_isr (set_isr ks (in_isr_count ks + 1)) (u8 (in_isr_count ks + 1 - 1)) = ks.
Proof. intros H. replace (in_isr_count ks + 1 - 1) with (in_isr_count ks) by lia. rewrite wrap_id by (unfold in_u; lia). by destruct ks. Qed.

Lemma handler_polls (s : usys) lsr buf : 0 <= in_isr_count (ukern s) < 255 ->
  handler_write lsr buf s = match poll_write lsr buf (with_kern (set_isr (ukern s) (in_isr_count (ukern s) + 1)) s) with
                            | Ok _ s' => (run! on_kern scheduler_leave_isr in ret (UReturned (Z.of_nat (length buf)))) s'
                            | Fault f => Fault f
                            end.
Proof.
  intros H. unfold handler_write, uart_step, scheduler_enter_isr, bind, modify, scheduler_in_isr, gets. unfold on_kern at 1. cbn.
  rewrite wrap_id by (unfold in_u; lia). rewrite Z.gtb_ltb, (proj2 (Z.ltb_lt 0 _)) by lia. cbn. by destruct (poll_write _ _ _).
Qed.

Lemma line_handler_run (s : usys) lsr buf r s' : 0 <= in_isr_count (ukern s) < 255 -> handler_write lsr buf s = Ok r s' ->
  s' = with_thr (thr s ++ buf) s.
Proof.
  intros H. rewrite handler_polls by done. destruct (poll_write _ _ _) as [ [] s1|] eqn:E; [|done]. apply poll_run in E as ->.
  intros [= _ <-]. unfold with_thr, with_kern. cbn. f_equal. exact (isr_back (ukern s) H).
Qed.

Lemma handler_ready (s : usys) lsr buf : 0 <= in_isr_count (ukern s) < 255 ->
  (length buf <= length (filter (fun v => Z.land v LSR_THRE = LSR_THRE) lsr))%nat -> exists r s', handler_write lsr buf s = Ok r s'.
Proof.
  intros H Hlen. rewrite handler_polls by done. destruct (poll_ready (with_kern (set_isr (ukern s) (in_isr_count (ukern s) + 1)) s) lsr buf Hlen) as (s' & ->).
  eexists _, _. reflexivity.
Qed.

(** A step of the system, and what it puts on the wire. *)
Inductive line_run : world * list chunk -> world * list chunk -> Prop :=
| ln_run c c' w new : uart_run c c' -> thr (drv c') = thr (drv c) ++ new -> line_run (c, w) (c', w ++ (Thread <$> new))
| ln_handler c w lsr buf r s' : 0 <= in_isr_count (ukern (drv c)) < 255 -> handler_write lsr buf (drv c) = Ok r s' ->
    line_run (c, w) (mk_world (pcs c) s' (written c) (reads c) (arrived c), w ++ [Handler buf]).

Lemma chars_new w new : all_chars (w ++ (Thread <$> new)) = all_chars w ++ new /\ thread_chars (w ++ (Thread <$> new)) = thread_chars w ++ new.
Proof.
  unfold all_chars, thread_chars. rewrite !fmap_app, !concat_app, <-!list_fmap_compose.
  assert (forall f : Z -> list Z, (forall c, f c = [c]) -> concat (f <$> new) = new) as H by (intros f Hf; induction new as [|c n IH]; [done|]; cbn; by rewrite Hf, IH).
  by rewrite !H.
Qed.

Definition line_inv (x : world * list chunk) : Prop :=
  thr (drv x.1) = all_chars x.2 /\ uart_inv (seen x.1 (thread_chars x.2)).

Lemma line_inv_step x y : line_run x y -> line_inv x -> line_inv y.
Proof.
  intros [c c' w new Hs Hth|c w lsr buf r s' Hn E] [H1 H2]; unfold line_inv; cbn [fst snd] in *.
  - destruct (chars_new w new) as [-> ->]. split; [by rewrite Hth, H1|]. destruct (run_seen c c' Hs) as (n & T & H).
    rewrite Hth in T. apply app_inv_head in T as ->. eapply uart_inv_step; [apply H|exact H2].
  - apply line_handler_run in E as ->; [|done]. unfold all_chars, thread_chars. rewrite !fmap_app, !concat_app. cbn. rewrite !app_nil_r.
    fold (all_chars w) (thread_chars w). by rewrite H1.
Qed.

Lemma line_start c k : uart_start c k -> line_inv (c, []).
Proof.
  intros H. destruct (st_trace _ _ H) as (Ht & _). split; [exact Ht|]. exists k, None, None.
  assert (seen c (thread_chars []) = c) as E by (destruct c as [p [i out b ks u] wr rd ar]; cbn in Ht; by subst out).
  cbn [fst snd]. rewrite E. by apply start_inv_at.
Qed.

Lemma seen_back c out : with_thr (thr (drv c)) (with_thr out (drv c)) = drv c.
Proof. by destruct (drv c). Qed.

Lemma unseen {A} (m : M usys A) c out a s' : appends m -> m (drv (seen c out)) = Ok a s' -> exists s, m (drv c) = Ok a s.
Proof. intros Ha E. destruct (Ha _ _ _ E) as (new & _ & H). specialize (H (thr (drv c))). change (drv (seen c out)) with (with_thr out (drv c)) in H. rewrite seen_back in H. by eexists. Qed.

(** Every step of [uart_run] is one here. *)
Lemma line_follows c0 c : rtc uart_run c0 c -> exists w, rtc line_run (c0, []) (c, w).
Proof.
  intros H. enough (forall w0, exists w, rtc line_run (c0, w0) (c, w)) as G by apply G.
  induction H as [c|c1 c2 c3 H12 _ IH]; intros w0; [by exists w0|]. destruct (run_seen _ _ H12) as (new & T & _).
  destruct (IH (w0 ++ (Thread <$> new))) as (w & Hw). exists w. eapply rtc_l; [by apply ln_run|exact Hw].
Qed.

(** C7: What threads write stays whole.  However many threads write and read, whatever
    the interrupts, reschedules and other calls between their steps - also between the
    load and the store of an [IER |= x] -, what threads sent to THR is the buffers of the
    calls that have returned, one after the other in the order of their returning, and
    then a beginning of the buffer of one call that is under way.  An interrupt handler
    that writes takes no lock: it polls, and its buffer goes out in one piece, but where
    the interrupt came, also inside the buffer of a thread; without the handlers' buffers
    the wire is as said.  No step of a caller faults, no interrupt of the UART either as
    long as the semaphores it signals have room in their eight bits, and a handler's write
    ends when LSR announces an empty THR once for each of its characters. *)
Theorem uart_writes_whole c0 k0 c w : uart_start c0 k0 -> rtc line_run (c0, []) (c, w) ->
  thr (drv c) = all_chars w /\
  (exists part, thread_chars w = concat (written c) ++ part /\
    (part = [] \/ exists t pc buf rest, pcs c t = Some pc /\ w_buf pc = Some (buf, rest) /\ buf = part ++ rest)) /\
  exists k, rep (ukern (drv c)) k /\ wf_kernel k /\
    (forall t w pc, pcs c t = Some pc -> k_cur k = t -> k_state k !! t = Some THREAD_STATE_RUNNING ->
       in_isr_count (ukern (drv c)) = 0 -> step_ok w pc (ukern (drv c)) k -> exists pc' s', ustep w pc (drv c) = Ok pc' s') /\
    (forall status rbr, (receives status = true -> room k read_sem) -> (transmits status = true -> room k write_sem) ->
       exists s', isr status rbr (drv c) = Ok tt s') /\
    (forall lsr buf, 0 <= in_isr_count (ukern (drv c)) < 255 -> (length buf <= length (filter (fun v => Z.land v LSR_THRE = LSR_THRE) lsr))%nat ->
       exists r s', handler_write lsr buf (drv c) = Ok r s').
Proof.
  intros Hst Hs. assert (line_inv (c, w)) as [Hall Hinv].
  { pose proof (line_start c0 k0 Hst) as H0. clear Hst. induction Hs as [|x y z Hxy _ IH]; [done|]. by apply IH, (line_inv_step x). }
  cbn [fst snd] in *. destruct (inv_writes_whole _ Hinv) as ((part & Hp & Hpart) & k & Hr & Hw & Hsteps & Hisr).
  split; [exact Hall|]. split; [by exists part|]. exists k. split; [exact Hr|]. split; [exact Hw|]. split; [|split].
  - intros t w' pc Hpc Hcur Hrun Hn Hok. destruct (Hsteps t w' pc Hpc Hcur Hrun Hn Hok) as (pc' & s' & E).
    apply (unseen _ _ _ _ _ (step_appends _ _ _ _)) in E as (s & E). eauto.
  - intros status rbr H1 H2. destruct (Hisr status rbr H1 H2) as (s' & E). by apply (unseen _ _ _ _ _ (isr_appends _ _)) in E.
  - intros lsr buf. apply handler_ready.
Qed.

(** ** Characters in order *)

(** A step that does not come between the load and the store of an update of IER, and
    in which the UART announces a character only if IER says so. *)
Record orderly (c c' : world) : Prop := {
  od_run : uart_run c c';
  od_quiet t pc v : pcs c t = Some pc -> in_hand pc = Some v -> pcs c' t <> Some pc;
  od_enabled : arrived c' <> arrived c -> Z.testbit (ier (drv c)) 0 = true }.

Abbreviation armed s := (Z.testbit (ier s) 0).

(** The reader at [pc]: the characters that wait for it, the semaphore and the enable
    bit go together. *)
Definition reader_at (s : usys) (v : Z) (ws : list (Z * Z)) (pend : list Z) (t : Z) (pc : upc) : Prop :=
  match pc with
  | RWait _ _ => pend = [] /\ v = 0 /\ ws = [] /\ armed s = true \/ pend = [read_buf s] /\ v = 1 /\ ws = [] /\ armed s = false
  | RTake _ _ => pend = [] /\ v = -1 /\ (exists w, ws = [(w, t)]) /\ armed s = true \/ pend = [read_buf s] /\ v = 0 /\ ws = [] /\ armed s = false
  | _ => pend = [] /\ v = 0 /\ ws = [] /\ armed s = false
  end.

Record reads_at (c : world) (k : kernel) (hr : option Z) : Prop := {
  ra_hand t pc v : pcs c t = Some pc -> in_hand pc = Some v -> v = ier (drv c);
  ra_phase : exists got pend v ws, arrived c = concat (reads c) ++ got ++ pend /\ k_sems k !! read_sem = Some (v, ws) /\
    match hr with
    | None => got = [] /\ pend = [] /\ v = 0 /\ ws = [] /\ armed (drv c) = false
    | Some t => exists pc n, pcs c t = Some pc /\ r_got pc = Some (got, n) /\ reader_at (drv c) v ws pend t pc
    end }.

Lemma mutex_unique q k inside h h' : mutex q k inside h -> mutex q k inside h' -> h = h'.
Proof.
  intros (v & ws & [S1 Q1 N1 H1]) (v' & ws' & [S2 Q2 N2 H2]). rewrite S1 in S2. injection S2 as <- <-.
  destruct h as [t|], h' as [t'|]; try done; [|lia|lia]. destruct H1 as (_ & Hin & Hnq).
  destruct (N2 t Hin) as [ [w Hw]|]; [by destruct (Hnq w)|done].
Qed.

Lemma same_reader c c' k k' hw hr hw' hr' : uart_inv_at c k hw hr -> uart_inv_at c' k' hw' hr' ->
  k_sems k' !! read_lock = k_sems k !! read_lock -> (forall t, reader c t <-> reader c' t) -> hr' = hr.
Proof.
  intros H H' Hs Hr. symmetry. eapply (mutex_unique read_lock k'); [|apply H'].
  eapply mutex_ext; [exact Hr|]. eapply mutex_kept; [exact Hs|apply H].
Qed.

(** A step that is none of the reader's. *)
Lemma reads_kept c c' k k' hr : reads_at c k hr ->
  (forall t pc v, pcs c' t = Some pc -> in_hand pc = Some v -> v = ier (drv c')) ->
  k_sems k' !! read_sem = k_sems k !! read_sem -> arrived c' = arrived c -> reads c' = reads c ->
  armed (drv c') = armed (drv c) -> read_buf (drv c') = read_buf (drv c) ->
  (forall t pc, hr = Some t -> pcs c t = Some pc -> is_Some (r_got pc) -> pcs c' t = Some pc) -> reads_at c' k' hr.
Proof.
  intros [_ (got & pend & v & ws & Ha & Hs & Hd)] Hh Es Ea Er Eb Ebuf Hp. split; [exact Hh|].
  exists got, pend, v, ws. rewrite Ea, Er, Es. split; [done|]. split; [done|]. destruct hr as [t|]; [|by rewrite Eb].
  destruct Hd as (pc & n & Hpc & Hg & Hat). exists pc, n. split; [by eapply Hp|]. split; [done|].
  destruct pc; cbn [reader_at] in *; by rewrite ?Eb, ?Ebuf.
Qed.

Definition reads_inv (c : world) : Prop := exists k hw hr, uart_inv_at c k hw hr /\ reads_at c k hr.

Lemma event_det (s s1 : usys) k e : rep (ukern s) k -> wf_kernel k -> irqs_off (ukern s) = false -> ok_event e (ukern s) k ->
  on_kern (run_event queue_off e) s = Ok tt s1 -> exists ks, s1 = with_kern ks s /\ rep ks (spec_event k e).
Proof.
  intros Hr Hw Hi Hok E. destruct (uart_kern_run s k e Hr Hw Hi Hok) as (ks & E' & Hrep & _). rewrite E in E'. injection E' as ->. by exists ks.
Qed.

(** Behind a step of [t], nobody else has IER in hand. *)
Lemma hand_moved c t pc pc' s' : orderly c (moved c t pc pc' s') -> (forall v, in_hand pc' = Some v -> v = ier s') ->
  forall t' p v, pcs (moved c t pc pc' s') t' = Some p -> in_hand p = Some v -> v = ier (drv (moved c t pc pc' s')).
Proof.
  intros Ho Hv t' p v. pose proof (od_quiet _ _ Ho t' p v) as Hq. rewrite moved_pc in *. destruct (decide (t' = t)) as [->|].
  - intros Hp Hh. apply Hv. destruct pc'; by simplify_eq/=.
  - intros Hp Hh. by destruct (Hq Hp Hh).
Qed.

(** A step of a writer. *)
Lemma reads_writer c t pc pc' s' k hw hr k' : uart_inv_at c k hw hr -> reads_at c k hr -> orderly c (moved c t pc pc' s') ->
  pcs c t = Some pc -> r_got pc = None -> r_got pc' = None -> read_by pc = [] -> rep (ukern s') k' ->
  k_sems k' !! read_lock = k_sems k !! read_lock -> k_sems k' !! read_sem = k_sems k !! read_sem ->
  armed s' = armed (drv c) -> read_buf s' = read_buf (drv c) -> (forall v, in_hand pc' = Some v -> v = ier s') ->
  reads_inv (moved c t pc pc' s').
Proof.
  intros Hinv Hra Ho Hpc Hg Hg' Hrb Hr Hl Hs Hb Hbuf Hv.
  destruct (uart_inv_step _ _ (od_run _ _ Ho) ltac:(by exists k, hw, hr)) as (k1 & hw1 & hr1 & H1).
  pose proof (rep_inj _ _ _ _ (ui_rep _ _ _ _ H1) Hr) as ->.
  assert (hr1 = hr) as ->.
  { eapply same_reader; [exact Hinv|exact H1|exact Hl|]. intros t'. apply moved_same; [done|done|]. rewrite Hg, Hg'. done. }
  exists k', hw1, hr. split; [exact H1|]. eapply (reads_kept c); [exact Hra|by apply hand_moved|done|done| |done|done|].
  - cbn. by rewrite Hrb, app_nil_r.
  - intros t' p _ Hp [x Hx]. rewrite moved_pc, decide_False; [done|]. intros ->. congruence.
Qed.

(** A step of the reader that holds the lock, inside its call. *)
Lemma reads_reader c t pc pc' s' k hw hr k' got n : uart_inv_at c k hw hr -> reads_at c k hr -> orderly c (moved c t pc pc' s') ->
  pcs c t = Some pc -> k_state k !! t = Some THREAD_STATE_RUNNING -> r_got pc = Some (got, n) -> is_Some (r_got pc') -> read_by pc = [] -> rep (ukern s') k' ->
  k_sems k' !! read_lock = k_sems k !! read_lock -> (forall v, in_hand pc' = Some v -> v = ier s') ->
  (forall pend v ws, k_sems k !! read_sem = Some (v, ws) -> reader_at (drv c) v ws pend t pc ->
     exists got' pend' v' ws', got ++ pend = got' ++ pend' /\ r_got pc' = Some (got', n) /\
       k_sems k' !! read_sem = Some (v', ws') /\ reader_at s' v' ws' pend' t pc') ->
  reads_inv (moved c t pc pc' s').
Proof.
  intros Hinv Hra Ho Hpc Hrun Hg Hg' Hrb Hr Hl Hv Hph.
  pose proof (reader_holds _ _ _ _ _ _ Hinv Hpc ltac:(by rewrite Hg) Hrun) as ->.
  destruct (uart_inv_step _ _ (od_run _ _ Ho) ltac:(by exists k, hw, (Some t))) as (k1 & hw1 & hr1 & H1).
  pose proof (rep_inj _ _ _ _ (ui_rep _ _ _ _ H1) Hr) as ->.
  assert (hr1 = Some t) as ->.
  { eapply same_reader; [exact Hinv|exact H1|exact Hl|]. intros t'. apply moved_same; [done|done|]. rewrite Hg. split; [done|by eexists]. }
  exists k', hw1, (Some t). split; [exact H1|]. split; [by apply hand_moved|].
  destruct Hra as [_ (got0 & pend & v & ws & Ha & Hs & p & m & Hp & Hg0 & Hat)]. rewrite Hpc in Hp. injection Hp as <-.
  rewrite Hg in Hg0. injection Hg0 as <- <-. destruct (Hph pend v ws Hs Hat) as (got' & pend' & v' & ws' & Eg & Hgot & Hs' & Hat').
  exists got', pend', v', ws'. split; [|split; [exact Hs'|] ].
  - cbn. by rewrite Hrb, app_nil_r, Ha, Eg.
  - exists pc', n. rewrite moved_pc, decide_True by done. split; [by destruct pc'|done].
Qed.

(** What a wait leaves. *)
Lemma wait_det c w k (p : upc) pc' s' q : uart_inv c -> rep (ukern (drv c)) k -> ok_event (KWait q w) (ukern (drv c)) k ->
  (let! _ := on_kern (semaphore_wait queue_off q w) in ret p) (drv c) = Ok pc' s' ->
  pc' = p /\ exists ks, s' = with_kern ks (drv c) /\ rep ks (spec_event k (KWait q w)).
Proof.
  intros (k0 & hw & hr & Hinv) Hr Hok E. pose proof (rep_inj _ _ _ _ (ui_rep _ _ _ _ Hinv) Hr) as ->.
  destruct (uart_kern_run (drv c) k (KWait q w) Hr (ui_wf _ _ _ _ Hinv) (ui_irqs _ _ _ _ Hinv) Hok) as (ks & Ek & Hrep & _).
  simpl in Ek. rewrite (bind_ok _ _ _ _ _ Ek) in E. injection E as <- <-. split; [done|]. by exists ks.
Qed.

Lemma signal_det c k (p : upc) pc' s' q : uart_inv c -> rep (ukern (drv c)) k -> room k q ->
  (let! _ := on_kern (semaphore_signal queue_off q) in ret p) (drv c) = Ok pc' s' ->
  pc' = p /\ exists ks, s' = with_kern ks (drv c) /\ rep ks (spec_event k (KSignal q)).
Proof.
  intros (k0 & hw & hr & Hinv) Hr Hok E. pose proof (rep_inj _ _ _ _ (ui_rep _ _ _ _ Hinv) Hr) as ->.
  destruct (uart_signal_run (drv c) k q Hr (ui_wf _ _ _ _ Hinv) (ui_irqs _ _ _ _ Hinv) Hok) as (ks & Ek & Hrep & _).
  rewrite (bind_ok _ _ _ _ _ Ek) in E. injection E as <- <-. split; [done|]. by exists ks.
Qed.

(** A reader comes to the lock, and the last step of a read. *)
Lemma reads_called c t n w ks k hw hr : uart_inv_at c k hw hr -> reads_at c k hr -> orderly c (moved c t (RCalled n) (RLoop [] n) (with_kern ks (drv c))) ->
  pcs c t = Some (RCalled n) -> k_cur k = t -> ok_event (KWait read_lock w) (ukern (drv c)) k -> rep ks (spec_event k (KWait read_lock w)) ->
  reads_inv (moved c t (RCalled n) (RLoop [] n) (with_kern ks (drv c))).
Proof.
  intros Hinv Hra Ho Hpc Hcur Hok Hr.
  destruct (uart_inv_step _ _ (od_run _ _ Ho) ltac:(by exists k, hw, hr)) as (k1 & hw1 & hr1 & H1).
  pose proof (rep_inj _ _ _ _ (ui_rep _ _ _ _ H1) Hr) as ->.
  assert (~ reader c (k_cur k)) as Hnr by (rewrite Hcur; intros (p & Hp & [x Hx]); by simplify_eq).
  assert (hr1 = Some (default t hr)) as ->.
  { rewrite <-Hcur. eapply mutex_unique; [apply H1|].
    eapply mutex_ext; [|apply (mutex_take read_lock k (reader c) hr w (ui_read _ _ _ _ Hinv) (ui_wf _ _ _ _ Hinv) Hnr);
      destruct Hok as [ (v & ws & H) _]; by exists v, ws].
    intros t'. unfold reader. rewrite (moved_in r_got), Hcur by done. destruct (decide (t' = t)) as [->|]; simpl; [|tauto].
    split; [intros _; by eexists|by left]. }
  exists (spec_event k (KWait read_lock w)), hw1, (Some (default t hr)). split; [exact H1|]. split; [by apply hand_moved|].
  destruct Hra as [_ (got & pend & v & ws & Ha & Hs & Hat)]. exists got, pend, v, ws. cbn [reads arrived moved read_by drv]. rewrite app_nil_r.
  split; [done|]. split; [erewrite wait_other; [exact Hs|exact Hok|apply not_eq_sym, distinct_sems]|].
  destruct hr as [h|]; cbn [default from_option id].
  - destruct Hat as (p & m & Hp & Hg & Hat). exists p, m. rewrite moved_pc, decide_False by (intros ->; by simplify_eq). done.
  - destruct Hat as (-> & -> & -> & -> & Hb). exists (RLoop [] n), n. rewrite moved_pc, decide_True by done. done.
Qed.

Lemma reads_returns c t got n ks k hw hr : uart_inv_at c k hw hr -> reads_at c k hr -> (length got <? n)%nat = false ->
  orderly c (moved c t (RLoop got n) (UReturned (Z.of_nat (length got))) (with_kern ks (drv c))) ->
  pcs c t = Some (RLoop got n) -> k_state k !! t = Some THREAD_STATE_RUNNING -> rep ks (spec_event k (KSignal read_lock)) ->
  reads_inv (moved c t (RLoop got n) (UReturned (Z.of_nat (length got))) (with_kern ks (drv c))).
Proof.
  intros Hinv Hra Hfull Ho Hpc Hrun Hr. pose proof (reader_holds _ _ _ _ _ _ Hinv Hpc ltac:(by eexists) Hrun) as ->.
  destruct (uart_inv_step _ _ (od_run _ _ Ho) ltac:(by exists k, hw, (Some t))) as (k1 & hw1 & hr1 & H1).
  pose proof (rep_inj _ _ _ _ (ui_rep _ _ _ _ H1) Hr) as ->.
  destruct (mutex_give read_lock k (reader c) t (ui_read _ _ _ _ Hinv) (ui_wf _ _ _ _ Hinv)) as (Hroom & h' & Hm & Hh').
  assert (hr1 = h') as ->.
  { eapply mutex_unique; [apply H1|]. eapply mutex_ext; [|exact Hm]. intros t'. unfold reader. rewrite (moved_in r_got) by done.
    destruct (decide (t' = t)) as [->|]; simpl; [split; [by intros []|by intros []]|tauto]. }
  exists (spec_event k (KSignal read_lock)), hw1, h'. split; [exact H1|]. split; [by apply hand_moved|].
  destruct Hra as [_ (got0 & pend & v & ws & Ha & Hs & p & m & Hp & Hg & Hat)]. rewrite Hpc in Hp. injection Hp as <-. injection Hg as <- <-.
  destruct Hat as (-> & -> & -> & Hb). exists [], [], 0, []. cbn [reads arrived moved read_by drv]. rewrite Hfull, concat_app. cbn [concat].
  rewrite !app_nil_r in *. split; [done|]. split; [rewrite signal_other; [exact Hs|exact Hroom|apply not_eq_sym, distinct_sems]|].
  destruct h' as [h|]; [|done]. destruct (Hh' h eq_refl) as [Hne (p & Hp & [ [g l] Hg])].
  pose proof (ui_readers _ _ _ _ Hinv h p g l Hp Hg ltac:(congruence)) as ->. injection Hg as <-. exists (RLoop [] l), l.
  by rewrite moved_pc, decide_False.
Qed.

Lemma bit0_or v x : Z.testbit (Z.lor v x) 0 = Z.testbit v 0 || Z.testbit x 0. Proof. apply Z.lor_spec. Qed.
Lemma bit0_and v x : Z.testbit (Z.land v x) 0 = Z.testbit v 0 && Z.testbit x 0. Proof. apply Z.land_spec. Qed.

Lemma reads_run c t w pc pc' s' k : reads_inv c -> orderly c (moved c t pc pc' s') ->
  pcs c t = Some pc -> rep (ukern (drv c)) k -> k_cur k = t -> k_state k !! t = Some THREAD_STATE_RUNNING ->
  in_isr_count (ukern (drv c)) = 0 -> step_ok w pc (ukern (drv c)) k -> ustep w pc (drv c) = Ok pc' s' ->
  reads_inv (moved c t pc pc' s').
Proof.
  intros (k0 & hw & hr & Hinv & Hra) Ho Hpc Hr Hcur Hrun Hisr Hok E.
  pose proof (rep_inj _ _ _ _ (ui_rep _ _ _ _ Hinv) Hr) as ->.
  pose proof (fun v => ra_hand _ _ _ Hra t pc v Hpc) as Hhand. pose proof distinct_sems as D.
  assert (uart_inv c) as Hui by (by exists k, hw, hr).
  destruct pc as [buf|buf [|ch rest]|buf ch rest v|buf ch rest|buf ch rest|buf rest|buf rest v|n|got n|got n v|got n|got n|r]; cbn [uart_step step_ok] in *.
  - rewrite (bind_ok _ _ _ _ _ (in_isr_run _ Hisr)) in E. cbn in E.
    apply (wait_det c w k _ _ _ _ Hui Hr Hok) in E as (-> & ks & -> & Hrep).
    eapply (reads_writer c t _ _ _ k hw hr _ Hinv Hra Ho Hpc); try done; eapply wait_other; [exact Hok|apply D|exact Hok|apply not_eq_sym, D].
  - pose proof (writer_holds _ _ _ _ _ _ Hinv Hpc ltac:(by eexists) Hrun) as ->.
    destruct (mutex_give write_lock k (writer c) t (ui_write _ _ _ _ Hinv) (ui_wf _ _ _ _ Hinv)) as (Hroom & _).
    apply (signal_det c k _ _ _ _ Hui Hr Hroom) in E as (-> & ks & -> & Hrep).
    eapply (reads_writer c t _ _ _ k (Some t) hr _ Hinv Hra Ho Hpc); try done; apply signal_other; try done; [apply D|apply not_eq_sym, D].
  - injection E as <- <-. eapply (reads_writer c t _ _ _ k hw hr k Hinv Hra Ho Hpc); try done. by intros v [= <-].
  - injection E as <- <-. eapply (reads_writer c t _ _ _ k hw hr k Hinv Hra Ho Hpc); try done.
    cbn [ier]. by rewrite bit0_or, (Hhand v eq_refl), orb_false_r.
  - apply (wait_det c w k _ _ _ _ Hui Hr Hok) in E as (-> & ks & -> & Hrep).
    eapply (reads_writer c t _ _ _ k hw hr _ Hinv Hra Ho Hpc); try done; eapply wait_other; try exact Hok; [apply D|apply not_eq_sym, D].
  - injection E as <- <-. by eapply (reads_writer c t _ _ _ k hw hr k Hinv Hra Ho Hpc).
  - injection E as <- <-. eapply (reads_writer c t _ _ _ k hw hr k Hinv Hra Ho Hpc); try done. by intros v [= <-].
  - injection E as <- <-. eapply (reads_writer c t _ _ _ k hw hr k Hinv Hra Ho Hpc); try done.
    cbn [ier]. by rewrite bit0_and, (Hhand v eq_refl), andb_true_r.
  - rewrite (bind_ok _ _ _ _ _ (in_isr_run _ Hisr)) in E. cbn in E.
    apply (wait_det c w k _ _ _ _ Hui Hr Hok) in E as (-> & ks & -> & Hrep). by eapply reads_called.
  - destruct (length got <? n)%nat eqn:Efull.
    + injection E as <- <-. eapply (reads_reader c t _ _ _ k hw hr k got n Hinv Hra Ho Hpc Hrun); try done; [unfold read_by; by rewrite Efull|by intros v [= <-]|].
      intros pend v ws Hs Hat. by exists got, pend, v, ws.
    + pose proof (reader_holds _ _ _ _ _ _ Hinv Hpc ltac:(by eexists) Hrun) as ->.
      destruct (mutex_give read_lock k (reader c) t (ui_read _ _ _ _ Hinv) (ui_wf _ _ _ _ Hinv)) as (Hroom & _).
      apply (signal_det c k _ _ _ _ Hui Hr Hroom) in E as (-> & ks & -> & Hrep). by eapply reads_returns.
  - injection E as <- <-. eapply (reads_reader c t _ _ _ k hw hr k got n Hinv Hra Ho Hpc Hrun); try done.
    intros pend v' ws Hs (-> & -> & -> & Hb). exists got, [], 0, []. repeat (split; [done|]). left. cbn [ier]. by rewrite bit0_or, orb_true_r.
  - apply (wait_det c w k _ _ _ _ Hui Hr Hok) in E as (-> & ks & -> & Hrep).
    eapply (reads_reader c t _ _ _ k hw hr _ got n Hinv Hra Ho Hpc Hrun); try done; [eapply wait_other; [exact Hok|apply D]|].
    intros pend v ws Hs Hat. pose proof (wait_sems read_sem w k v ws read_sem Hs) as Q. rewrite decide_True in Q by done.
    destruct Hat as [ (-> & -> & -> & Hb)|(-> & -> & -> & Hb)]; simpl in Q; eexists got, _, _, _; (split; [reflexivity|split; [done|split; [exact Q|] ] ]).
    + left. split; [done|]. split; [done|]. rewrite Hcur. split; [by exists w|done].
    + by right.
  - injection E as <- <-. eapply (reads_reader c t _ _ _ k hw hr k got n Hinv Hra Ho Hpc Hrun); try done.
    intros pend v ws Hs [ (_ & _ & (w' & ->) & _)|(-> & -> & -> & Hb)].
    + destruct (runs_not_queued k read_sem _ _ w' t (ui_wf _ _ _ _ Hinv) Hrun Hs). by left.
    + exists (got ++ [read_buf (drv c)]), [], 0, []. by rewrite app_nil_r.
  - by destruct (ui_returned _ _ _ _ Hinv t r).
Qed.

(** The interrupt: a character for the reader that waits for it. *)
Lemma after_isr_read status k v ws : (receives status = true -> room k read_sem) -> (transmits status = true -> room k write_sem) ->
  k_sems k !! read_sem = Some (v, ws) ->
  k_sems (after_isr status k) !! read_sem = if receives status then Some (v + 1, tail ws) else Some (v, ws).
Proof.
  intros Hr Ht Hs. unfold after_isr. pose proof distinct_sems as D.
  assert (forall k', room k' write_sem -> k_sems (spec_event k' (KSignal write_sem)) !! read_sem = k_sems k' !! read_sem) as Hother.
  { intros k' Hk. apply signal_other; [done|apply not_eq_sym, D]. }
  pose proof (signal_sems read_sem k v ws read_sem Hs) as Q. rewrite decide_True in Q by done.
  destruct (receives status), (transmits status); rewrite ?Hother; try done; [|by apply Ht].
  destruct (Ht eq_refl) as (u & us & Hu & Hv). exists u, us. split; [|done]. rewrite signal_other; [done|by apply Hr|apply D].
Qed.

Lemma reads_isr c status rbr k s' : reads_inv c -> rep (ukern (drv c)) k ->
  (receives status = true -> room k read_sem) -> (transmits status = true -> room k write_sem) -> isr status rbr (drv c) = Ok tt s' ->
  let c' := mk_world (pcs c) s' (written c) (reads c) (arrived c ++ if receives status then [u8 rbr] else []) in
  orderly c c' -> reads_inv c'.
Proof.
  intros (k0 & hw & hr & Hinv & Hra) Hr Hrr Hrt E c' Ho. pose proof (rep_inj _ _ _ _ (ui_rep _ _ _ _ Hinv) Hr) as ->.
  destruct (uart_inv_step _ _ (od_run _ _ Ho) ltac:(by exists k, hw, hr)) as (k1 & hw1 & hr1 & H1).
  destruct (isr_run (drv c) k status rbr (ui_rep _ _ _ _ Hinv) (ui_wf _ _ _ _ Hinv) (ui_irqs _ _ _ _ Hinv) Hrr Hrt) as (s1 & E1 & Hr1 & Hw1 & Hi1 & Hth & Hst).
  rewrite E in E1. injection E1 as <-. pose proof (rep_inj _ _ _ _ (ui_rep _ _ _ _ H1) Hr1) as ->. pose proof distinct_sems as D.
  assert (hr1 = hr) as ->.
  { eapply same_reader; [exact Hinv|exact H1| |done]. apply after_isr_other; [done|done|apply not_eq_sym, D|apply not_eq_sym, D]. }
  assert (forall t pc v, pcs c' t = Some pc -> in_hand pc = Some v -> v = ier (drv c')) as Hhand.
  { intros t pc v Hp Hh. by destruct (od_quiet _ _ Ho t pc v Hp Hh). }
  destruct Hra as [_ (got & pend & v & ws & Ha & Hs & Hat)]. pose proof (after_isr_read status k v ws Hrr Hrt Hs) as Hs1.
  exists (after_isr status k), hw1, hr. split; [exact H1|]. split; [exact Hhand|]. subst c'. cbn [arrived reads pcs drv] in *.
  destruct (receives status) eqn:Er.
  - assert (armed (drv c) = true) as Harm.
    { apply (od_enabled _ _ Ho). cbn. rewrite <-(app_nil_r (arrived c)) at 2. by intros ?%app_inv_head. }
    destruct Hst as [Hier Hbuf]. assert (armed s' = false) as Hoff by (by rewrite Hier, bit0_and, andb_false_r).
    destruct hr as [t|]; [|by destruct Hat as (_ & _ & _ & _ & Hb); congruence].
    destruct Hat as (pc & n & Hp & Hg & Hat). exists got, [u8 rbr], (v + 1), (tail ws).
    assert (pend = [] /\ reader_at s' (v + 1) (tail ws) [u8 rbr] t pc) as [-> Hat'].
    { destruct pc as [| | | | | | | | | |g m|g m|]; cbn [reader_at] in *; try (by destruct Hat as (_ & _ & _ & Hb); congruence);
        destruct Hat as [ (-> & -> & Hws & _)|(_ & _ & _ & Hb)]; try congruence; split; try done; right; rewrite Hbuf.
      - by subst ws.
      - by destruct Hws as [w ->]. }
    rewrite Ha, app_nil_r, <-app_assoc. split; [done|]. split; [done|]. by exists pc, n.
  - destruct Hst as [Hier Hbuf]. exists got, pend, v, ws. rewrite app_nil_r. split; [done|]. split; [done|].
    destruct hr as [t|]; [|by rewrite Hier]. destruct Hat as (pc & n & Hp & Hg & Hat). exists pc, n. split; [done|]. split; [done|].
    destruct pc; cbn [reader_at] in *; by rewrite ?Hier, ?Hbuf.
Qed.

Lemma reads_call c t p : reads_inv c -> pcs c t = None -> w_buf p = None -> r_got p = None -> (forall r, p <> UReturned r) ->
  let c' := mk_world (upd (pcs c) t (Some p)) (drv c) (written c) (reads c) (arrived c) in orderly c c' -> reads_inv c'.
Proof.
  intros (k & hw & hr & Hinv & Hra) Ht Hb Hg Hn c' Ho.
  destruct (uart_inv_step _ _ (od_run _ _ Ho) ltac:(by exists k, hw, hr)) as (k1 & hw1 & hr1 & H1).
  pose proof (rep_inj _ _ _ _ (ui_rep _ _ _ _ H1) (ui_rep _ _ _ _ Hinv)) as ->.
  assert (forall t', pcs c' t' = if decide (t' = t) then Some p else pcs c t') as Hupd.
  { intros t'. subst c'. unfold upd. cbn. destruct (decide (t' = t)) as [->|]; [by rewrite Z.eqb_refl|by rewrite (proj2 (Z.eqb_neq t' t))]. }
  assert (hr1 = hr) as ->.
  { eapply same_reader; [exact Hinv|exact H1|done|]. intros t'. unfold reader. rewrite Hupd. destruct (decide (t' = t)) as [->|]; [|done].
    rewrite Ht. split; intros (p' & ? & [x ?]); by simplify_eq. }
  exists k, hw1, hr. split; [exact H1|]. eapply (reads_kept c); [exact Hra| |done..|].
  - intros t' pc v Hp Hh. pose proof (od_quiet _ _ Ho t' pc v) as Hq. rewrite Hupd in *. destruct (decide (t' = t)) as [->|]; [|by destruct (Hq Hp Hh)].
    injection Hp as <-. destruct p; by simplify_eq/=.
  - intros t' pc _ Hp [x Hx]. rewrite Hupd, decide_False; [done|]. intros ->. congruence.
Qed.

Lemma reads_inv_step c c' : orderly c c' -> reads_inv c -> reads_inv c'.
Proof.
  intros Ho Hinv. pose proof Hinv as (k0 & hw & hr & H0 & Hra). pose proof (od_run _ _ Ho) as Hs.
  destruct Hs as [c t buf Ht|c t n Ht|c t w pc pc' s' k Hpc Hr Hcur Hrun Hisr Hok E|c status rbr k s' Hr Hrr Hrt E|c e k ks' Hr Hok He E].
  - by eapply reads_call.
  - by eapply reads_call.
  - by eapply (reads_run c t w pc pc' s' k).
  - by eapply reads_isr.
  - pose proof (rep_inj _ _ _ _ Hr (ui_rep _ _ _ _ H0)) as ->.
    destruct (uart_inv_step _ _ (od_run _ _ Ho) ltac:(by exists k0, hw, hr)) as (k1 & hw1 & hr1 & H1).
    pose proof H0 as [I1 I2 I3 I4 I5 I6 I7 I8 I9 I10 I11].
    destruct (event_refines queue_off (ukern (drv c)) k0 e I1 I2 I3 Hok) as (ks & E' & Hrep & Hwf & Hirq). rewrite E in E'. injection E' as <-.
    pose proof (rep_inj _ _ _ _ (ui_rep _ _ _ _ H1) Hrep) as ->.
    destruct I5 as (v5 & ws5 & [S5 _ _ _]).
    assert (hr1 = hr) as ->.
    { eapply same_reader; [exact H0|exact H1| |done]. eapply uart_elsewhere_sems; [done|exact Hok|unfold ours; set_solver|by rewrite S5]. }
    exists (spec_event k0 e), hw1, hr. split; [exact H1|]. eapply (reads_kept c); [exact Hra| |..]; try done.
    + intros t pc v Hp Hh. by destruct (od_quiet _ _ Ho t pc v Hp Hh).
    + eapply uart_elsewhere_sems; [done|exact Hok|unfold ours; set_solver|done].
Qed.

Lemma reads_start c k : uart_start c k -> reads_inv c.
Proof.
  intros H. exists k, None, None. split; [by apply start_inv_at|]. destruct H as [S1 _ _ _ (S5 & _) (_ & _ & S11 & S12) S13]. split.
  - intros t pc v Hp. congruence.
  - exists [], [], 0, []. by rewrite S11, S12.
Qed.

Lemma orderly_inv c0 k0 c : uart_start c0 k0 -> rtc orderly c0 c -> reads_inv c.
Proof. intros Hst Hs. pose proof (reads_start c0 k0 Hst) as H0. clear Hst. induction Hs; [done|]. by apply IHHs, (reads_inv_step x). Qed.

(** C8: Readers get every character, once and in order.  Where no interrupt and no
    other step comes between the load and the store of an update of IER, and the UART
    announces characters only when enabled: what the handler took from RBR is the
    buffers of the reads that have returned, one after the other in the order of their
    returning, then what the read under way has got, and then at most one character,
    which is in [uart.read_buf] with the receive interrupt disabled - none is lost,
    overwritten or delivered twice -; and the receive interrupt is enabled only while a
    read waits for its next character. *)
Theorem uart_reads_in_order c0 k0 c : uart_start c0 k0 -> rtc orderly c0 c ->
  exists got pend, arrived c = concat (reads c) ++ got ++ pend /\
    (pend = [] \/ pend = [read_buf (drv c)] /\ armed (drv c) = false) /\
    (got = [] /\ pend = [] \/ exists t pc n, pcs c t = Some pc /\ r_got pc = Some (got, n)) /\
    (armed (drv c) = true -> pend = [] /\ exists t n, pcs c t = Some (RWait got n) \/ pcs c t = Some (RTake got n)).
Proof.
  intros Hst Hs. destruct (orderly_inv c0 k0 c Hst Hs) as (k & hw & hr & Hinv & [_ (got & pend & v & ws & Ha & Hsem & Hat)]).
  exists got, pend. split; [done|]. destruct hr as [t|].
  - destruct Hat as (pc & n & Hp & Hg & Hat). split; [|split; [right; by exists t, pc, n|] ].
    + destruct pc; cbn [reader_at] in Hat; naive_solver.
    + intros Harm. destruct pc; cbn [reader_at] in Hat; try (destruct Hat as (_ & _ & _ & Hb); congruence);
        (destruct Hat as [ (-> & _)|(_ & _ & _ & Hb)]; [|congruence]); split; try done; simplify_eq/=; eauto.
  - destruct Hat as (-> & -> & -> & -> & Hb). split; [by left|]. split; [by left|]. congruence.
Qed.

(** ** Following the run of one caller *)

Definition after_step (w : Z) (pc : upc) (k : kernel) : kernel :=
  match pc with
  | WCalled _ => spec_event k (KWait write_lock w)
  | WWait _ _ _ => spec_event k (KWait write_sem w)
  | WLoop _ [] => spec_event k (KSignal write_lock)
  | RCalled _ => spec_event k (KWait read_lock w)
  | RWait _ _ => spec_event k (KWait read_sem w)
  | RLoop got n => if (length got <? n)%nat then k else spec_event k (KSignal read_lock)
  | _ => k
  end.

Record reach (t : Z) (c0 c : world) (k : kernel) : Prop := {
  re_run : rtc orderly c0 c;
  re_inv : uart_inv c;
  re_rep : rep (ukern (drv c)) k;
  re_alone t' : t' <> t -> pcs c t' = None }.

Lemma uart_reach_start t c k : uart_start c k -> reach t c c k.
Proof. intros H. split; [done|exists k, None, None; by apply start_inv_at|apply H|intros t' _; apply H]. Qed.

Lemma step_rep c t w pc pc' s' k : uart_inv c -> rep (ukern (drv c)) k -> pcs c t = Some pc -> k_state k !! t = Some THREAD_STATE_RUNNING ->
  in_isr_count (ukern (drv c)) = 0 -> step_ok w pc (ukern (drv c)) k -> ustep w pc (drv c) = Ok pc' s' -> rep (ukern s') (after_step w pc k).
Proof.
  intros Hui Hr Hpc Hrun Hisr Hok E. pose proof Hui as (k0 & hw & hr & Hinv). pose proof (rep_inj _ _ _ _ (ui_rep _ _ _ _ Hinv) Hr) as ->.
  destruct pc as [buf|buf [|ch rest]|buf ch rest v|buf ch rest|buf ch rest|buf rest|buf rest v|n|got n|got n v|got n|got n|r]; cbn [uart_step step_ok after_step] in *;
    try (by injection E as <- <-).
  - rewrite (bind_ok _ _ _ _ _ (in_isr_run _ Hisr)) in E. cbn in E. by apply (wait_det c w k _ _ _ _ Hui Hr Hok) in E as (_ & ks & -> & Hrep).
  - pose proof (writer_holds _ _ _ _ _ _ Hinv Hpc ltac:(by eexists) Hrun) as ->.
    destruct (mutex_give write_lock k (writer c) t (ui_write _ _ _ _ Hinv) (ui_wf _ _ _ _ Hinv)) as (Hroom & _).
    by apply (signal_det c k _ _ _ _ Hui Hr Hroom) in E as (_ & ks & -> & Hrep).
  - by apply (wait_det c w k _ _ _ _ Hui Hr Hok) in E as (_ & ks & -> & Hrep).
  - rewrite (bind_ok _ _ _ _ _ (in_isr_run _ Hisr)) in E. cbn in E. by apply (wait_det c w k _ _ _ _ Hui Hr Hok) in E as (_ & ks & -> & Hrep).
  - destruct (length got <? n)%nat; [by injection E as <- <-|].
    pose proof (reader_holds _ _ _ _ _ _ Hinv Hpc ltac:(by eexists) Hrun) as ->.
    destruct (mutex_give read_lock k (reader c) t (ui_read _ _ _ _ Hinv) (ui_wf _ _ _ _ Hinv)) as (Hroom & _).
    by apply (signal_det c k _ _ _ _ Hui Hr Hroom) in E as (_ & ks & -> & Hrep).
  - by apply (wait_det c w k _ _ _ _ Hui Hr Hok) in E as (_ & ks & -> & Hrep).
Qed.

Lemma step_leaves w pc pc' s s' : ustep w pc s = Ok pc' s' -> next_pc pc' <> Some pc.
Proof.
  destruct pc as [buf|buf [|ch rest]|buf ch rest v|buf ch rest|buf ch rest|buf rest|buf rest v|n|got n|got n v|got n|got n|r]; cbn [uart_step]; intros E.
  all: repeat match goal with
    | E : bind _ _ _ = Ok _ _ |- _ => let H := fresh in apply bind_inv in E as (? & ? & H & E); clear H
    | E : (if ?b then _ else _) _ = Ok _ _ |- _ => destruct b
    end; injection E as <- <-; by intros [=].
Qed.

Lemma uart_reach_run t c0 c k w pc pc' s' : reach t c0 c k -> pcs c t = Some pc -> k_cur k = t -> k_state k !! t = Some THREAD_STATE_RUNNING ->
  in_isr_count (ukern (drv c)) = 0 -> step_ok w pc (ukern (drv c)) k -> ustep w pc (drv c) = Ok pc' s' ->
  reach t c0 (moved c t pc pc' s') (after_step w pc k).
Proof.
  intros [R1 R2 R3 R4] Hpc Hcur Hrun Hisr Hok E. pose proof (step_leaves _ _ _ _ _ E) as Hne. assert (uart_run c (moved c t pc pc' s')) as Hs by (by eapply us_run).
  split; [| |by eapply step_rep|].
  - eapply rtc_r; [exact R1|]. split; [exact Hs| |by intros []]. intros t' p v Hp Hh.
    destruct (decide (t' = t)) as [->|Hd]; [|rewrite R4 in Hp by done; done]. rewrite moved_pc, decide_True by done. congruence.
  - by eapply uart_inv_step.
  - intros t' Hd. rewrite moved_pc, decide_False by done. by apply R4.
Qed.

Lemma uart_reach_call t c0 c k p : reach t c0 c k -> pcs c t = None -> (exists buf, p = WCalled buf) \/ (exists n, p = RCalled n) ->
  reach t c0 (mk_world (upd (pcs c) t (Some p)) (drv c) (written c) (reads c) (arrived c)) k.
Proof.
  intros [R1 R2 R3 R4] Ht Hp. set (c' := mk_world _ _ _ _ _).
  assert (uart_run c c') as Hs by (destruct Hp as [ [b ->]|[n ->] ]; [by apply us_write|by apply us_read]). split; [| |done|].
  - eapply rtc_r; [exact R1|]. split; [exact Hs| |by intros []]. intros t' q v Hq. destruct (decide (t' = t)) as [->|Hd]; [congruence|by rewrite R4 in Hq].
  - by eapply uart_inv_step.
  - intros t' Hd. cbn. unfold upd. rewrite (proj2 (Z.eqb_neq t' t)) by done. by apply R4.
Qed.

Lemma reach_isr t c0 c k status rbr s' : reach t c0 c k -> (receives status = true -> room k read_sem) -> (transmits status = true -> room k write_sem) ->
  isr status rbr (drv c) = Ok tt s' -> (forall pc, pcs c t = Some pc -> in_hand pc = None) -> (receives status = true -> armed (drv c) = true) ->
  reach t c0 (mk_world (pcs c) s' (written c) (reads c) (arrived c ++ if receives status then [u8 rbr] else [])) (after_isr status k).
Proof.
  intros [R1 R2 R3 R4] Hrr Hrt E Hq Ha. set (c' := mk_world _ _ _ _ _). assert (uart_run c c') as Hs by (by eapply us_isr).
  split; [| | |done].
  - eapply rtc_r; [exact R1|]. split; [exact Hs| |].
    + intros t' p v Hp Hh. destruct (decide (t' = t)) as [->|Hd]; [by rewrite (Hq p Hp) in Hh|by rewrite R4 in Hp].
    + intros Hne. apply Ha. destruct (receives status); [done|]. cbn in Hne. by rewrite app_nil_r in Hne.
  - by eapply uart_inv_step.
  - destruct R2 as (k0 & hw & hr & [I1 I2 I3 _ _ _ _ _ _ _ _]). pose proof (rep_inj _ _ _ _ I1 R3) as ->.
    destruct (isr_run (drv c) k status rbr I1 I2 I3 Hrr Hrt) as (s1 & E1 & Hr1 & _). rewrite E in E1. by injection E1 as <-.
Qed.
End Spec.

(** ** Runs on the lists of [core/list.c] *)

Abbreviation ex_usys := (Uart.usys (S := store) (L := list_t)).
Definition ex_uart_setup : list kevent := [KInit 100 0; KSemInit 400 0; KSemInit 420 0; KSemInit 440 1; KSemInit 460 1].
Definition ex_uart_k : kernel := foldl spec_event kernel_start ex_uart_setup.

(** The kernel with its first thread, and the driver behind [printk_init]. *)
Definition ex_uart_drv : ex_usys :=
  let s := match run_events 20 [KInit 100 0] ex_start with Ok _ k => mk_usys 0 [] 0 k [] | Fault _ => mk_usys 0 [] 0 ex_start [] end in
  match printk_init 400 440 420 460 48000000 1 115200 [0x60; 0x20; 0x61; 0x60; 0x61; 0x60] true s with Ok _ s' => s' | Fault _ => s end.
Definition ex_uart_world : world (S := store) (L := list_t) := mk_world (fun _ => None) ex_uart_drv [] [] [].

Lemma ex_uart_sems : NoDup [400; 440; 420; 460]. Proof. apply (bool_decide_unpack _). vm_compute. exact I. Qed.

Lemma ex_uart_start : uart_start 20 400 440 420 460 ex_uart_world ex_uart_k.
Proof.
  assert (ok_events 20 ex_uart_setup ex_start kernel_start) as Hok by (apply ok_events_b_ok; vm_compute; reflexivity).
  destruct (events_refine 20 ex_start kernel_start ex_uart_setup) as (e & He & Hr & Hw & Hi);
    [apply (start_rep (L := list_t))|apply (start_rep (S := store) (L := list_t) 20 ex_store)|done|exact Hok|].
  assert (run_events 20 ex_uart_setup ex_start = Ok tt (ukern ex_uart_drv)) as E by (vm_compute; reflexivity).
  rewrite E in He. apply (f_equal (fun r => match r with Ok _ s => s | Fault _ => ex_start end)) in He. cbv beta iota in He.
  rewrite <-He in Hr, Hi. clear He E Hok. split; cbn [drv ex_uart_world pcs written reads arrived]; try exact Hr; try exact Hw; try exact Hi; try done;
    by vm_compute.
Qed.

Abbreviation ex_ustep := (uart_step (S := store) (L := list_t) 20 400 440 420 460 [] []).
Abbreviation ex_uisr := (uart_isr (S := store) (L := list_t) 20 400 420).

(** What thread 100 and the UART do, checked on the way. *)
Inductive act := ACall (p : upc) | AStep | AIrq (status rbr : Z).
Abbreviation ex_world := (world (S := store) (L := list_t)).

Definition room_b (k : kernel) (q : Z) : bool := match k_sems k !! q with Some (v, _) => (-128 <=? v) && (v <? 127) | None => false end.
Definition step_b (pc : upc) (s : ex_usys) (k : kernel) : bool :=
  match pc with
  | WCalled _ => ok_event_b 20 (KWait 460 300) (ukern s) k
  | WWait _ _ _ => ok_event_b 20 (KWait 420 300) (ukern s) k
  | RCalled _ => ok_event_b 20 (KWait 440 300) (ukern s) k
  | RWait _ _ => ok_event_b 20 (KWait 400 300) (ukern s) k
  | _ => true
  end.

Definition run_act (a : act) (ck : ex_world * kernel) : ex_world * kernel :=
  let (c, k) := ck in
  match a, pcs c 100 with
  | ACall ((WCalled _ | RCalled _) as p), None => (mk_world (upd (pcs c) 100 (Some p)) (drv c) (written c) (reads c) (arrived c), k)
  | AStep, Some pc =>
      if (k_cur k =? 100) && bool_decide (k_state k !! 100 = Some THREAD_STATE_RUNNING) && (in_isr_count (ukern (drv c)) =? 0) && step_b pc (drv c) k then
        match ex_ustep 300 pc (drv c) with Ok pc' s' => (moved c 100 pc pc' s', after_step 400 440 420 460 300 pc k) | Fault _ => ck end
      else ck
  | AIrq status rbr, Some pc =>
      if room_b k 400 && room_b k 420 && (match in_hand pc with None => true | Some _ => false end) && (negb (receives status) || Z.testbit (ier (drv c)) 0) then
        match ex_uisr status rbr (drv c) with
        | Ok _ s' => (mk_world (pcs c) s' (written c) (reads c) (arrived c ++ if receives status then [u8 rbr] else []), after_isr 400 420 status k)
        | Fault _ => ck
        end
      else ck
  | _, _ => ck
  end.

Lemma room_b_ok k q : room_b k q = true -> room k q.
Proof. unfold room_b. destruct (k_sems k !! q) as [ [v ws]|] eqn:E; [|done]. rewrite andb_true_iff, Z.leb_le, Z.ltb_lt. by exists v, ws. Qed.

Lemma step_b_ok pc s k : step_b pc s k = true -> step_ok 20 400 440 420 460 300 pc (ukern s) k.
Proof. destruct pc; try done; apply ok_event_b_ok. Qed.

Abbreviation ex_reach := (reach (S := store) (L := list_t) 20 400 440 420 460 100 ex_uart_world).
Lemma run_act_reach a c k : ex_reach c k -> ex_reach (run_act a (c, k)).1 (run_act a (c, k)).2.
Proof.
  intros H. unfold run_act. destruct a as [p| |status rbr].
  - destruct p as [buf| | | | | | |n| | | | |]; try done; destruct (pcs c 100) eqn:Ep; try done; apply (uart_reach_call 20 400 440 420 460 ex_uart_sems); eauto.
  - destruct (pcs c 100) as [pc|] eqn:Ep; [|done]. destruct (_ && _) eqn:Eg; [|done]. rewrite !andb_true_iff in Eg.
    destruct Eg as (((Hc & Hs) & Hi) & Hok). destruct (ex_ustep 300 pc (drv c)) as [pc' s'|] eqn:E; [|done].
    apply (uart_reach_run 20 400 440 420 460 ex_uart_sems); try done; [by apply Z.eqb_eq|by apply bool_decide_eq_true in Hs|by apply Z.eqb_eq|by apply step_b_ok].
  - destruct (pcs c 100) as [pc|] eqn:Ep; [|done]. destruct (_ && _) eqn:Eg; [|done]. rewrite !andb_true_iff in Eg.
    destruct Eg as (((H1 & H2) & H3) & H4). destruct (ex_uisr status rbr (drv c)) as [ [] s'|] eqn:E; [|done].
    apply (reach_isr 20 400 440 420 460 ex_uart_sems); try done; [intros _; by apply room_b_ok..| |].
    + intros q Hq. rewrite Ep in Hq. injection Hq as <-. by destruct (in_hand pc).
    + intros Hr. by rewrite Hr in H4.
Qed.

Definition run_acts (l : list act) : ex_world * kernel := foldl (fun ck a => run_act a ck) (ex_uart_world, ex_uart_k) l.
Lemma run_acts_reach l : ex_reach (run_acts l).1 (run_acts l).2.
Proof.
  unfold run_acts. assert (ex_reach (ex_uart_world, ex_uart_k).1 (ex_uart_world, ex_uart_k).2) as H by (apply uart_reach_start, ex_uart_start).
  revert H. generalize (ex_uart_world, ex_uart_k). induction l as [|a l IH]; intros [c k] H; [done|]. by apply IH, run_act_reach.
Qed.

(** "Hi" on its way, and the first of two characters read. *)
Definition ex_writing : list act := [ACall (WCalled [72; 105]); AStep; AStep; AStep; AIrq 2 0; AStep; AStep].
Definition ex_reading : list act := [ACall (RCalled 2); AStep; AStep; AStep; AIrq 4 65; AStep; AStep].

(** A handler writes "!" behind the first character. *)
Lemma uart_writes_whole_witness :
  let c := (run_acts ex_writing).1 in
  uart_start 20 400 440 420 460 ex_uart_world ex_uart_k /\
  exists w s' part, rtc (line_run 20 400 440 420 460) (ex_uart_world, []) (mk_world (pcs c) s' (written c) (reads c) (arrived c), w ++ [Handler [33] ]) /\
    thr s' = [72; 33] /\ all_chars (w ++ [Handler [33] ]) = [72; 33] /\ thread_chars (w ++ [Handler [33] ]) = concat (written c) ++ part.
Proof.
  intros c. assert (rtc (uart_run 20 400 440 420 460) ex_uart_world c) as Hrtc.
  { eapply (rtc_subrel _ _ _ _ (od_run 20 400 440 420 460)), re_run, run_acts_reach. }
  destruct (line_follows 20 400 440 420 460 _ _ Hrtc) as (w & Hw).
  assert (0 <= in_isr_count (ukern (drv c)) < 255) as Hn by (assert (in_isr_count (ukern (drv c)) = 0) as -> by (vm_compute; reflexivity); lia).
  destruct (handler_ready 20 400 440 420 460 (drv c) [0; LSR_THRE] [33] Hn) as (r & s' & E); [vm_compute; lia|].
  pose proof (line_handler_run 20 400 440 420 460 _ _ _ _ _ Hn E) as Es.
  assert (rtc (line_run 20 400 440 420 460) (ex_uart_world, []) (mk_world (pcs c) s' (written c) (reads c) (arrived c), w ++ [Handler [33] ])) as Hline.
  { eapply rtc_r; [exact Hw|]. eapply ln_handler; [exact Hn|exact E]. }
  destruct (uart_writes_whole 20 400 440 420 460 ex_uart_sems _ ex_uart_k _ _ ex_uart_start Hline) as (Hall & (part & Hp & _) & _).
  split; [exact ex_uart_start|]. exists w, s', part. split; [exact Hline|]. assert (thr s' = [72; 33]) as Ht by (rewrite Es; by vm_compute).
  split; [exact Ht|]. split; [|exact Hp]. by rewrite <-Hall.
Defined.

Lemma uart_reads_in_order_witness :
  let c := (run_acts ex_reading).1 in
  uart_start 20 400 440 420 460 ex_uart_world ex_uart_k /\ rtc (orderly 20 400 440 420 460) ex_uart_world c /\
    (exists got pend, arrived c = concat (reads c) ++ got ++ pend) /\ arrived c = [65] /\ pcs c 100 = Some (RLoop [65] 2).
Proof.
  intros c. pose proof (re_run _ _ _ _ _ _ _ _ _ (run_acts_reach ex_reading)) as Hrtc. fold c in Hrtc.
  destruct (uart_reads_in_order 20 400 440 420 460 ex_uart_sems ex_uart_world ex_uart_k c ex_uart_start Hrtc) as (got & pend & Hp & _).
  split; [exact ex_uart_start|]. split; [exact Hrtc|]. split; [by exists got, pend|]. by vm_compute.
Defined.

(** What an interrupt inside [IER |= x] does.  A reader waits for a character; a writer
    loads IER, the character comes - the handler disables the receive interrupt -, and
    the writer's store enables it again: the second character overwrites the first, and
    the reader's semaphore counts two. *)
Definition uart_race : M ex_usys (upc * upc) :=
  let! r := ex_ustep 300 (RCalled 2) in let! r := ex_ustep 300 r in let! r := ex_ustep 300 r in
  let! w := ex_ustep 300 (WCalled [72]) in let! w := ex_ustep 300 w in
  run! ex_uisr 4 65 in
  let! w := ex_ustep 300 w in
  run! ex_uisr 4 66 in
  let! r := ex_ustep 300 r in let! r := ex_ustep 300 r in
  let! r := ex_ustep 300 r in let! r := ex_ustep 300 r in let! r := ex_ustep 300 r in let! r := ex_ustep 300 r in
  ret (r, w).
Lemma uart_race_loses :
  match uart_race ex_uart_drv with Ok (r, _) s => r = RLoop [66; 66] 2 | Fault _ => False end.
Proof. by vm_compute. Qed.
