(* ===== verification/ConfigCmd.v ===== *)
(** * ConfigCmd: the configuration command

    [lib/config/config_cmd.c], the console command that shows and sets the fields of
    the configuration, and the description of the configuration of the CAN node in
    [lib/can_node/can_node.c].  Names, arguments and the configuration lie in the
    byte memory of [CString]; what is printed goes through [Printf]; [save] and
    [load] are those of [Config] on the bytes at [&config]. *)
From stdpp Require Import strings.
From S2P Require Import Prelude Fw File CString Printf Eeprom Crc Config.

(** ** Descriptions *)

Definition kConfigValTypeStruct : Z := 0.
Definition kConfigValTypeArray : Z := 1.
Definition kConfigValTypeUInt8 : Z := 2.
Definition kConfigValTypeUInt16 : Z := 3.
Definition kConfigValTypeUInt32 : Z := 4.

Definition kConfigValFlagConsoleHex : Z := 1.

(** [struct config_val_desc].  [u] is the word of the union; [subdescs] is the array
    that the pointer points to, which an entry without a name ends. *)
Inductive config_val_desc := mk_desc
  { name : Z; idx : Z; offset : Z; type : Z; u : Z; subdescs : list config_val_desc }.

(** The members of the union. *)
Definition flags (d : config_val_desc) : Z := u d.
Definition element_size (d : config_val_desc) : Z := bits (u d) 0 8.
Definition element_count (d : config_val_desc) : Z := bits (u d) 8 8.

(** An initialiser of the second member. *)
Definition elements (size count : Z) : Z := Z.lor (u8 size) (Z.shiftl (u8 count) 8).

(** [struct config_val_desc d = ...] for element [i] of an array. *)
Definition element (desc : config_val_desc) (i : Z) : config_val_desc :=
  mk_desc NULL i (i * element_size desc) kConfigValTypeStruct 0 (subdescs desc).

Definition OFFSET_PTR (ptr off : Z) : Z := u32 (ptr + off).

(** How deep a description is nested; the bound of the recursion over it, in which
    an array takes two calls. *)
Fixpoint height (d : config_val_desc) : nat :=
  S ((fix go (ds : list config_val_desc) : nat :=
        match ds with [] => O | d :: ds => Nat.max (height d) (go ds) end) (subdescs d)).
Definition calls (d : config_val_desc) : nat := S (2 * height d + 1).

(** ** Scalars in memory *)

Fixpoint load_le (w : nat) (p : Z) : M bytes Z :=
  match w with
  | O => ret 0
  | S w => let! c := get_byte p in let! r := load_le w (p + 1) in ret (c + 256 * r)
  end.

Fixpoint store_le (w : nat) (p v : Z) : M bytes unit :=
  match w with
  | O => ret tt
  | S w => run! put_byte p (u8 v) in store_le w (p + 1) (Z.shiftr v 8)
  end.

(** Scalars behind a cast pointer, little endian: the processor has no unaligned
    accesses. *)
Definition load_scalar (w : nat) (p : Z) : M bytes Z :=
  if p mod Z.of_nat w =? 0 then load_le w p else fail WildAccess.
Definition store_scalar (w : nat) (p v : Z) : M bytes unit :=
  if p mod Z.of_nat w =? 0 then store_le w p v else fail WildAccess.

(** ** The command *)

(** The string constants. *)
Record literals := mk_literals {
  lit_ident : Z; lit_name : Z; lit_idx : Z; lit_dec : Z; lit_hex : Z; lit_open_struct : Z; lit_close_struct : Z;
  lit_open_array : Z; lit_close_array : Z; lit_unkown_type : Z; lit_newline : Z; lit_unkown : Z; lit_expected : Z;
  lit_not_settable : Z; lit_save : Z; lit_load : Z }.

(** The characters of a literal. *)
Fixpoint codes (s : string) : list Z :=
  match s with EmptyString => [] | String c s => Z.of_N (Ascii.N_of_ascii c) :: codes s end.

Definition literal_texts (l : literals) : list (Z * list Z) :=
  [(lit_ident l, codes "  "); (lit_name l, codes "%s = "); (lit_idx l, codes "%i = "); (lit_dec l, codes "%d");
   (lit_hex l, codes "%x"); (lit_open_struct l, codes "{" ++ CRLF); (lit_close_struct l, codes "}");
   (lit_open_array l, codes "[" ++ CRLF); (lit_close_array l, codes "]"); (lit_unkown_type l, codes "<unkown>");
   (lit_newline l, CRLF); (lit_unkown l, codes "%s is unkown" ++ CRLF);
   (lit_expected l, codes "Expected an int not %s"); (lit_not_settable l, codes "%s is not a settable type" ++ CRLF);
   (lit_save l, codes "save"); (lit_load l, codes "load")].

Section Command.
Context {F W : Type} (ops : file_operations F) (config_eeprom : eeprom W).
Context (sizeof_config : nat) (have_can_node : bool) (uninitialised : Z).
Context (lits : literals) (config_addr : Z) (decls : list config_val_desc).
Abbreviation io := (CString.io (F := F)).

(** The memory and the console, the EEPROM, and what was logged. *)
Record cstate := mk_cstate { cio : io; cworld : W; clogged : list config_log }.

Definition on_io {A} (c : M io A) : M cstate A := fun s =>
  match c (cio s) with Ok a i => Ok a (mk_cstate i (cworld s) (clogged s)) | Fault f => Fault f end.
Definition on_mem {A} (c : M bytes A) : M cstate A := on_io (on_bytes c).

Definition printf (format : Z) (args : list Z) : M cstate unit :=
  run! on_io (fprintf ops format args) in ret tt.

(** A function of [config.c], on the bytes of [config]. *)
Fixpoint read_bytes (n : nat) (p : Z) : M bytes (list Z) :=
  match n with
  | O => ret []
  | S n => let! c := get_byte p in let! cs := read_bytes n (p + 1) in ret (c :: cs)
  end.

Fixpoint write_bytes (p : Z) (bs : list Z) : M bytes unit :=
  match bs with [] => ret tt | b :: bs => run! put_byte p b in write_bytes (p + 1) bs end.

Definition on_config (c : M (Config.store (W := W)) unit) : M cstate unit := fun s =>
  (let! conf := on_mem (read_bytes sizeof_config config_addr) in
   fun s =>
     match c (mk_store conf (cworld s) (clogged s)) with
     | Ok _ st => on_mem (write_bytes config_addr (config st)) (mk_cstate (cio s) (world st) (logged st))
     | Fault f => Fault f
     end) s.

(** [PRINT_IDENT()] *)
Fixpoint indent_loop (n : nat) : M cstate unit :=
  match n with O => ret tt | S n => run! printf (lit_ident lits) [] in indent_loop n end.
Definition print_ident (ident : Z) : M cstate unit := indent_loop (Z.to_nat ident).

(** [for (d = desc->subdescs; d->name != NULL; d++)] with a body that may end it. *)
Fixpoint for_subdescs (ds : list config_val_desc) (body : config_val_desc -> M cstate unit -> M cstate unit)
    (after : M cstate unit) : M cstate unit :=
  match ds with
  | [] => fail WildAccess
  | d :: ds => if name d =? NULL then after else body d (for_subdescs ds body after)
  end.

(** [for (uint8_t i = 0; i < n; i++)] *)
Fixpoint for_elements (n : nat) (i : Z) (body : Z -> M cstate unit) : M cstate unit :=
  match n with O => ret tt | S n => run! body i in for_elements n (i + 1) body end.

Fixpoint config_cmd_print_tree (fuel : nat) (desc : config_val_desc) (ident conf : Z) : M cstate unit :=
  match fuel with
  | O => fail Diverges
  | S fuel =>
      run! print_ident ident in
      run! (if truth (name desc) then printf (lit_name lits) [name desc] else printf (lit_idx lits) [idx desc]) in
      let fmt := if truth (Z.land (flags desc) kConfigValFlagConsoleHex) then lit_hex lits else lit_dec lits in
      let scalar w := let! v := on_mem (load_scalar w conf) in printf fmt [v] in
      run! (if type desc =? kConfigValTypeStruct then
              run! printf (lit_open_struct lits) [] in
              run! for_subdescs (subdescs desc)
                     (fun d next => run! config_cmd_print_tree fuel d (u8 (ident + 1)) (OFFSET_PTR conf (offset d)) in next)
                     (ret tt) in
              run! print_ident ident in
              printf (lit_close_struct lits) []
            else if type desc =? kConfigValTypeArray then
              run! printf (lit_open_array lits) [] in
              let inner := u8 (ident + 1) in
              run! for_elements (Z.to_nat (element_count desc)) 0 (fun i =>
                     let d := element desc i in
                     config_cmd_print_tree fuel d (u8 (inner + 1)) (OFFSET_PTR conf (offset d))) in
              run! print_ident (u8 (inner - 1)) in
              printf (lit_close_array lits) []
            else if type desc =? kConfigValTypeUInt8 then scalar 1%nat
            else if type desc =? kConfigValTypeUInt16 then scalar 2%nat
            else if type desc =? kConfigValTypeUInt32 then scalar 4%nat
            else printf (lit_unkown_type lits) []) in
      printf (lit_newline lits) []
  end.

(** [strtol(arg, NULL, 0)] into a scalar, when there is an argument. *)
Definition set_scalar (w : nat) (arg conf : Z) : M cstate unit :=
  if truth arg then
    let! r := on_mem (strtol arg 0) in
    let (v, _) := (r : Z * Z) in
    on_mem (store_scalar w conf v)
  else ret tt.

(** The first component of a path and what follows its dot. *)
Definition next_component (remaining : Z) : M cstate (Z * Z) :=
  let! next := on_mem (strchr remaining 46) in
  let! len := (if next =? NULL then on_mem (strlen remaining) else ret (next - remaining)) in
  ret (len, if truth next then next + 1 else next).

(** The end of a path: set a scalar, show what is there. *)
Definition set_get_here (desc : config_val_desc) (full arg conf : Z) : M cstate unit :=
  run! (if type desc =? kConfigValTypeUInt8 then set_scalar 1 arg conf
        else if type desc =? kConfigValTypeUInt16 then set_scalar 2 arg conf
        else if type desc =? kConfigValTypeUInt32 then set_scalar 4 arg conf
        else if truth arg then printf (lit_not_settable lits) [full] else ret tt) in
  config_cmd_print_tree (calls desc) desc 0 conf.

Fixpoint config_cmd_set_get (fuel : nat) (desc : config_val_desc) (remaining full arg conf : Z) : M cstate unit :=
  match fuel with
  | O => fail Diverges
  | S fuel =>
      if truth remaining then
        if type desc =? kConfigValTypeStruct then
          let! r := next_component remaining in
          let (len, next) := (r : Z * Z) in
          for_subdescs (subdescs desc)
            (fun d continue =>
               let! c := on_mem (strncmp (name d) remaining len) in
               if c =? 0 then config_cmd_set_get fuel d next full arg (OFFSET_PTR conf (offset d)) else continue)
            (printf (lit_unkown lits) [remaining])
        else if type desc =? kConfigValTypeArray then
          let! r := on_mem (strtol remaining 0) in
          let (n, next) := (r : Z * Z) in
          let idx := u8 n in
          let! x := on_mem (get_byte next) in
          if negb (negb (x =? 46) || negb (x =? 0)) then printf (lit_expected lits) [remaining]
          else
            let next := if x =? 0 then NULL else next + 1 in
            for_elements (Z.to_nat (element_count desc)) 0 (fun i =>
              if i =? idx then
                let d := element desc i in
                config_cmd_set_get fuel d next full arg (OFFSET_PTR conf (offset d))
              else ret tt)
        else printf (lit_unkown lits) [remaining]
      else set_get_here desc full arg conf
  end.

(** The loop over [config_val_decls_begin] to [config_val_decls_end]. *)
Fixpoint print_decls (ds : list config_val_desc) : M cstate unit :=
  match ds with
  | [] => ret tt
  | d :: ds => run! config_cmd_print_tree (calls d) d 0 (OFFSET_PTR config_addr (offset d)) in print_decls ds
  end.

Fixpoint find_decl (ds : list config_val_desc) (path len : Z) : M cstate (option config_val_desc) :=
  match ds with
  | [] => ret None
  | d :: ds => let! c := on_mem (strncmp (name d) path len) in if c =? 0 then ret (Some d) else find_decl ds path len
  end.

Definition config_cmd (argc : Z) (argv : list Z) : M cstate Z :=
  if argc <? 2 then run! print_decls decls in ret 0
  else
    let! path := deref (fun _ => argv !! 1%nat) in
    let! c := on_mem (strcmp (lit_save lits) path) in
    if c =? 0 then run! on_config (config_save config_eeprom sizeof_config) in ret 0
    else
      let! c := on_mem (strcmp (lit_load lits) path) in
      if c =? 0 then run! on_config (config_load config_eeprom sizeof_config have_can_node uninitialised) in ret 0
      else
        let! r := next_component path in
        let (len, next) := (r : Z * Z) in
        let! found := find_decl decls path len in
        match (found : option config_val_desc) with
        | None => run! printf (lit_unkown lits) [path] in ret (-1)
        | Some desc =>
            let! arg := (if argc =? 3 then deref (fun _ => argv !! 2%nat) else ret NULL) in
            run! config_cmd_set_get (calls desc) desc next path arg (OFFSET_PTR config_addr (offset desc)) in
            ret 0
        end.
End Command.
Arguments mk_cstate {F W}. Arguments cio {F W}. Arguments cworld {F W}. Arguments clogged {F W}.

(** ** The configuration of the CAN node *)

(** The layout of the structs of [config/can_node.h]; [config_t] has [sn] before it. *)
Section CanDesc.
Context (CAN_NODE_NUM_OUTPUT CAN_NODE_NUM_OUTPUT_SOURCE : Z).

Definition sizeof_src_config : Z := 12.
Definition sizeof_output_config : Z :=
  if CAN_NODE_NUM_OUTPUT_SOURCE >? 0 then 4 + CAN_NODE_NUM_OUTPUT_SOURCE * sizeof_src_config else 1.

(** The addresses of the names. *)
Record can_names := mk_names {
  s_node_id : Z; s_sensor_type : Z; s_sensor_idx : Z; s_off_value : Z; s_on_value : Z; s_mode : Z; s_sources : Z;
  s_speed : Z; s_sensor_interval : Z; s_output : Z; s_can : Z }.
Context (n : can_names).

Definition end_desc : config_val_desc := mk_desc NULL 0 0 0 0 [].

Definition can_config_desc_3 : list config_val_desc :=
  [mk_desc (s_node_id n) 1 0 kConfigValTypeUInt16 kConfigValFlagConsoleHex [];
   mk_desc (s_sensor_type n) 2 2 kConfigValTypeUInt8 0 [];
   mk_desc (s_sensor_idx n) 2 3 kConfigValTypeUInt8 0 [];
   mk_desc (s_off_value n) 3 4 kConfigValTypeUInt32 0 [];
   mk_desc (s_on_value n) 4 8 kConfigValTypeUInt32 0 [];
   end_desc].

Definition can_config_desc_2 : list config_val_desc :=
  [mk_desc (s_mode n) 1 0 kConfigValTypeUInt8 kConfigValFlagConsoleHex []] ++
  (if CAN_NODE_NUM_OUTPUT_SOURCE >? 0 then
     [mk_desc (s_sources n) 2 4 kConfigValTypeArray (elements sizeof_src_config CAN_NODE_NUM_OUTPUT_SOURCE) can_config_desc_3]
   else []) ++
  [end_desc].

Definition can_config_desc_1 : list config_val_desc :=
  [mk_desc (s_node_id n) 1 0 kConfigValTypeUInt16 kConfigValFlagConsoleHex [];
   mk_desc (s_speed n) 2 4 kConfigValTypeUInt32 0 [];
   mk_desc (s_sensor_interval n) 3 8 kConfigValTypeUInt32 0 []] ++
  (if CAN_NODE_NUM_OUTPUT >? 0 then
     [mk_desc (s_output n) 4 12 kConfigValTypeArray (elements sizeof_output_config CAN_NODE_NUM_OUTPUT) can_config_desc_2]
   else []) ++
  [end_desc].

Definition can_root_desc : config_val_desc := mk_desc (s_can n) 10 4 kConfigValTypeStruct 0 can_config_desc_1.
End CanDesc.
