(* ===== verification/ConfigCmdSpec.v ===== *)
(** * ConfigCmdSpec: paths, fields and what the command shows

    A path is resolved over the descriptions alone, without memory and pointers
    ([resolve]); the command sets exactly the bytes of the field a path resolves to
    and shows the tree below it ([config_command]).  For the configuration of the CAN
    node every field has a path of its own and bytes of its own. *)
From stdpp Require Import strings.
From S2P Require Import Prelude Fw File CString CStringSpec Printf PrintfSpec Eeprom Crc Config ConfigSpec ConsoleSpec ConfigCmd.

(** ** Numbers in any base *)

(** The base and the length of its prefix. *)
Definition base_of (s : list Z) : Z * nat :=
  match s with
  | x :: y :: _ =>
      if x =? 48 then
        if (y =? 120) || (y =? 88) then (16, 2%nat) else if (y =? 98) || (y =? 66) then (2, 2%nat) else (10, O)
      else (10, O)
  | _ => (10, O)
  end.

Fixpoint digits_of (b : Z) (s : list Z) : list Z :=
  match s with
  | c :: s => match digit_value c with Some i => if i <=? b then c :: digits_of b s else [] | None => [] end
  | [] => []
  end.

(** What [strtol(s, &end, 0)] makes of a string: the number and the characters used. *)
Definition number (s : list Z) : Z * nat :=
  let (b, k) := base_of s in
  let ds := digits_of b (drop k s) in
  (u32 (num_value b ds), (k + length ds)%nat).

Lemma digits_of_spec b s : Forall is_char s ->
  exists rest, s = digits_of b s ++ rest /\ Forall (taken b) (digits_of b s) /\
    (rest = [] \/ exists c r, rest = c :: r /\ (digit_value c = None \/ exists i, digit_value c = Some i /\ b < i)).
Proof.
  induction s as [|c s IH]; intros Hs; cbn [digits_of]; [exists []; auto|].
  apply Forall_cons in Hs as [Hc Hs]. destruct (IH Hs) as (rest & E & Ht & Hr).
  destruct (digit_value c) as [i|] eqn:Ec; [destruct (Z.leb_spec i b)|].
  - exists rest. split; [cbn; by f_equal|]. split; [|done]. constructor; [|done]. split; [done|]. exists i. split; [done|].
    unfold digit_value in Ec. repeat case_match; try done; injection Ec as <-; lia.
  - exists (c :: s). split; [done|]. split; [done|]. right. exists c, s. split; [done|]. right. by exists i.
  - exists (c :: s). split; [done|]. split; [done|]. right. exists c, s. split; [done|]. by left.
Qed.

Lemma base_of_range s : 2 <= fst (base_of s) <= 16 /\ (snd (base_of s) <= length s)%nat.
Proof. unfold base_of. repeat case_match; simpl; lia. Qed.

Lemma strtol_base_run m p s : cstr m p s -> strtol_base p 0 m = Ok (fst (base_of s), p + Z.of_nat (snd (base_of s))) m.
Proof.
  intros [Hs H]. unfold strtol_base. change (0 =? 0) with true. cbv iota.
  destruct s as [|x s]; destruct H as [E H]; step_get E; [simpl; by rewrite Z.add_0_r|].
  destruct s as [|y s]; destruct H as [E2 H]; cbn [base_of]; destruct (x =? 48);
    try (step_get E2); repeat case_match; cbn [fst snd]; rewrite ?Z.add_0_r; try done; discriminate.
Qed.

Lemma number_length s : Forall is_char s -> (snd (number s) <= length s)%nat.
Proof.
  intros Hs. unfold number. destruct (base_of s) as [b k] eqn:Eb. cbn [snd].
  pose proof (base_of_range s) as [_ Hk]. rewrite Eb in Hk. simpl in Hk.
  destruct (digits_of_spec b (drop k s)) as (rest & E & _); [by apply Forall_drop|].
  apply (f_equal length) in E. rewrite length_app, length_drop in E. lia.
Qed.

Lemma strtol0_run m p s : cstr m p s -> strtol p 0 m = Ok (fst (number s), p + Z.of_nat (snd (number s))) m.
Proof.
  intros H. unfold strtol. rewrite (bind_ok _ _ _ _ _ (strtol_base_run _ _ _ H)).
  pose proof (base_of_range s) as [Hb Hk]. unfold number. destruct (base_of s) as [b k]. cbn [fst snd] in *.
  unfold fuel_mem. rewrite (bind_ok _ _ m (S (size m)) m) by done.
  pose proof (cstr_drop _ _ _ k H ltac:(lia)) as [Hc Hh].
  destruct (digits_of_spec b (drop k s) Hc) as (rest & E & Ht & Hr).
  rewrite E, <-app_assoc in Hh.
  pose proof (strtol_loop_run m (p + Z.of_nat k) b _ (rest ++ [0]) 0 (S (size m)) ltac:(lia) Hh Ht) as R.
  rewrite Z.mul_0_l in R. change (u32 0) with 0 in R. rewrite R.
  - f_equal. f_equal. lia.
  - apply holds_fuel in Hh. rewrite length_app in Hh. lia.
  - destruct Hr as [->|(c & r & -> & Hr)]; simpl; [by left|by right].
Qed.

(** ** Scalars in memory *)

Fixpoint value_at (m : bytes) (w : nat) (p : Z) : Z :=
  match w with O => 0 | S w => default 0 (m !! p) + 256 * value_at m w (p + 1) end.

(** [v] stored in the [w] bytes from [p] on. *)
Fixpoint stored (w : nat) (p v : Z) (m : bytes) : bytes :=
  match w with O => m | S w => stored w (p + 1) (Z.shiftr v 8) (<[p := u8 v]> m) end.

Definition byte_memory (m : bytes) : Prop := map_Forall (fun _ v => 0 <= v < 256) m.

Lemma load_le_run m w p : there m p (Z.of_nat w) -> load_le w p m = Ok (value_at m w p) m.
Proof.
  revert p. induction w as [|w IH]; intros p H; [done|]. cbn [load_le value_at].
  destruct (H 0 ltac:(lia)) as [c Hc]. rewrite Z.add_0_r in Hc. step_get Hc.
  assert (there m (p + 1) (Z.of_nat w)) as H1.
  { intros i Hi. replace (p + 1 + i) with (p + (i + 1)) by lia. apply H. lia. }
  rewrite (bind_ok _ _ _ _ _ (IH _ H1)). by rewrite Hc.
Qed.

Lemma store_le_run m w p v : there m p (Z.of_nat w) -> store_le w p v m = Ok tt (stored w p v m).
Proof.
  revert p v m. induction w as [|w IH]; intros p v m H; [done|]. cbn [store_le stored].
  rewrite (bind_ok _ _ m tt (<[p := u8 v]> m)).
  - apply IH. intros i Hi. replace (p + 1 + i) with (p + (i + 1)) by lia. apply (there_insert _ _ _ p (u8 v) H). lia.
  - apply put_run. rewrite <-(Z.add_0_r p). apply H. lia.
Qed.

Lemma stored_outside w p v m a : ~ (p <= a < p + Z.of_nat w) -> stored w p v m !! a = m !! a.
Proof.
  revert p v m. induction w as [|w IH]; intros p v m H; [done|]. cbn [stored]. rewrite IH by lia.
  apply lookup_insert_ne. lia.
Qed.

Lemma stored_there w p v m q n : there m q n -> there (stored w p v m) q n.
Proof. revert p v m. induction w as [|w IH]; intros p v m H; [done|]. cbn [stored]. apply IH. by apply there_insert. Qed.

Lemma stored_bytes w p v m : byte_memory m -> byte_memory (stored w p v m).
Proof.
  revert p v m. induction w as [|w IH]; intros p v m H; [done|]. cbn [stored]. apply IH.
  apply map_Forall_insert_2; [|done]. pose proof (wrap_range 8 v ltac:(lia)) as R. unfold in_u in R. lia.
Qed.

Lemma value_at_ext m m' w p : (forall a, p <= a < p + Z.of_nat w -> m' !! a = m !! a) -> value_at m' w p = value_at m w p.
Proof.
  revert p. induction w as [|w IH]; intros p H; [done|]. cbn [value_at]. rewrite H by lia. rewrite IH; [done|].
  intros a Ha. apply H. lia.
Qed.

Lemma value_at_stored w p v m : value_at (stored w p v m) w p = v mod 256 ^ Z.of_nat w.
Proof.
  revert p v m. induction w as [|w IH]; intros p v m; [simpl; by rewrite Z.mod_1_r|]. cbn [value_at stored].
  rewrite IH, stored_outside, lookup_insert_eq by lia. cbn [default].
  rewrite Z.shiftr_div_pow2 by lia. rewrite Nat2Z.inj_succ, Z.pow_succ_r by lia.
  unfold wrap. rewrite Z.rem_mul_r by lia. done.
Qed.

Lemma value_at_range m w p : byte_memory m -> 0 <= value_at m w p < 256 ^ Z.of_nat w.
Proof.
  intros Hm. revert p. induction w as [|w IH]; intros p; [simpl; lia|]. cbn [value_at]. rewrite Nat2Z.inj_succ, Z.pow_succ_r by lia.
  specialize (IH (p + 1)). destruct (m !! p) as [c|] eqn:E; simpl; [|lia]. apply Hm in E. lia.
Qed.

(** ** Descriptions and paths *)

(** The entries before the one without a name. *)
Fixpoint entries (ds : list config_val_desc) : list config_val_desc :=
  match ds with [] => [] | d :: ds => if name d =? NULL then [] else d :: entries ds end.

Definition terminated (ds : list config_val_desc) : Prop := exists d, d ∈ ds /\ name d = NULL.

Lemma for_subdescs_entries {F W} ds (body : _ -> M (cstate (F := F) (W := W)) unit -> M cstate unit) after :
  terminated ds -> for_subdescs ds body after = foldr body after (entries ds).
Proof.
  intros (d & Hin & Hd). induction ds as [|x ds IH]; [by apply elem_of_nil in Hin|]. cbn [for_subdescs entries].
  destruct (Z.eqb_spec (name x) NULL) as [E|E]; [done|]. cbn [foldr]. rewrite IH; [done|].
  apply elem_of_cons in Hin as [->|Hin]; [done|done].
Qed.

Lemma entries_in ds d : d ∈ entries ds -> d ∈ ds /\ name d <> NULL.
Proof.
  induction ds as [|x ds IH]; cbn [entries]; [by intros ?%elem_of_nil|].
  destruct (Z.eqb_spec (name x) NULL) as [E|E]; [by intros ?%elem_of_nil|].
  rewrite !elem_of_cons. intros [->|H]; [auto|]. destruct (IH H). auto.
Qed.

Lemma height_sub d d' : d' ∈ subdescs d -> (height d' < height d)%nat.
Proof.
  destruct d as [nm i o t u ds]. cbn [subdescs height]. induction ds as [|x ds IH]; [by intros ?%elem_of_nil|].
  intros [->|H]%elem_of_cons; [lia|]. specialize (IH H). lia.
Qed.

(** The calls the recursion on a description needs. *)
Definition need (d : config_val_desc) : nat := (2 * height d + (if (type d =? kConfigValTypeArray)%Z then 1 else 0))%nat.

Lemma need_calls d : (need d < calls d)%nat.
Proof. unfold need, calls. case_match; lia. Qed.
Lemma need_sub d d' : d' ∈ entries (subdescs d) -> (need d' < need d)%nat.
Proof. intros [H _]%entries_in. apply height_sub in H. unfold need. repeat case_match; lia. Qed.
Lemma need_element d i : type d = kConfigValTypeArray -> (need (element d i) < need d)%nat.
Proof.
  intros E. unfold need. rewrite E. cbn [element type]. change (kConfigValTypeStruct =? kConfigValTypeArray) with false.
  change (kConfigValTypeArray =? kConfigValTypeArray) with true. cbv iota.
  assert (height (element d i) = height d) as -> by (by destruct d). lia.
Qed.

(** The component before the first dot, and what follows it. *)
Definition split_dot (s : list Z) : list Z * option (list Z) :=
  match list_find (eq 46) s with Some (i, _) => (take i s, Some (drop (S i) s)) | None => (s, None) end.

(** What a path leads to: a description and where it lies, or the rest of the path
    at which nothing is known, or an element that is not there. *)
Inductive resolved := Found (d : config_val_desc) (conf : Z) | Unknown (rest : list Z) | Skipped.

Section Paths.
(** The names at their addresses. *)
Context (nm : Z -> list Z).

(** The first entry whose name begins with [seg]. *)
Fixpoint find_field (seg : list Z) (ds : list config_val_desc) : option config_val_desc :=
  match ds with
  | [] => None
  | d :: ds => if decide (take (length seg) (nm (name d)) = seg) then Some d else find_field seg ds
  end.

Fixpoint resolve (fuel : nat) (d : config_val_desc) (path : option (list Z)) (conf : Z) : resolved :=
  match fuel, path with
  | O, _ => Skipped
  | _, None => Found d conf
  | S fuel, Some s =>
      if type d =? kConfigValTypeStruct then
        let (seg, next) := split_dot s in
        match find_field seg (entries (subdescs d)) with
        | Some d' => resolve fuel d' next (OFFSET_PTR conf (offset d'))
        | None => Unknown s
        end
      else if type d =? kConfigValTypeArray then
        let (n, k) := number s in
        if u8 n <? element_count d then
          let e := element d (u8 n) in
          resolve fuel e (match drop k s with [] => None | _ :: next => Some next end) (OFFSET_PTR conf (offset e))
        else Skipped
      else Unknown s
  end.

(** The text of the tree below a description. *)
Definition indentation (ident : Z) : list Z := concat (replicate (Z.to_nat ident) [32; 32]).

Definition scalar_text (d : config_val_desc) (v : Z) : list Z :=
  if truth (Z.land (flags d) kConfigValFlagConsoleHex) then [48; 120] ++ padded 16 0 false v else signed_text 0 false v.

Fixpoint tree_text (fuel : nat) (m : bytes) (d : config_val_desc) (ident conf : Z) : list Z :=
  match fuel with
  | O => []
  | S fuel =>
      indentation ident ++ (if truth (name d) then nm (name d) else signed_text 0 false (idx d)) ++ codes " = " ++
      (if type d =? kConfigValTypeStruct then
         codes "{" ++ CRLF ++
         flat_map (fun d' => tree_text fuel m d' (u8 (ident + 1)) (OFFSET_PTR conf (offset d'))) (entries (subdescs d)) ++
         indentation ident ++ codes "}"
       else if type d =? kConfigValTypeArray then
         codes "[" ++ CRLF ++
         flat_map (fun i => tree_text fuel m (element d i) (u8 (ident + 2)) (OFFSET_PTR conf (offset (element d i))))
           (seqZ 0 (element_count d)) ++
         indentation ident ++ codes "]"
       else if type d =? kConfigValTypeUInt8 then scalar_text d (value_at m 1 conf)
       else if type d =? kConfigValTypeUInt16 then scalar_text d (value_at m 2 conf)
       else if type d =? kConfigValTypeUInt32 then scalar_text d (value_at m 4 conf)
       else codes "<unkown>") ++ CRLF
  end.
End Paths.

(** ** Printing *)

Section Runs.
Context {F W : Type} (ops : file_operations F) (log : F -> list Z) (Hacc : accepts ops log).
Context (lits : literals) (nm : Z -> list Z) (lo : Z) (n : nat).
Abbreviation cstate := (ConfigCmd.cstate (F := F) (W := W)).
Abbreviation memory s := (iomem (cio s)).
Abbreviation resolve := (resolve nm).
Abbreviation tree_text := (tree_text nm).

(** [t] was printed, and nothing else happened. *)
Definition said (t : list Z) (s s' : cstate) : Prop :=
  wrote log t (cio s) (cio s') /\ cworld s' = cworld s /\ clogged s' = clogged s.

(** With memory [m] the computation prints [t] and returns. *)
Definition runs_in (m : bytes) (c : M cstate unit) (t : list Z) : Prop :=
  forall s, memory s = m -> exists s', c s = Ok tt s' /\ said t s s'.

Lemma said_trans t t' s1 s2 s3 : said t s1 s2 -> said t' s2 s3 -> said (t ++ t') s1 s3.
Proof. intros (H1 & H2 & H3) (H4 & H5 & H6). split; [by eapply wrote_trans|split; congruence]. Qed.

Lemma runs_ret m : runs_in m (ret tt) [].
Proof. intros s _. exists s. split; [done|]. split; [apply wrote_refl|done]. Qed.

Lemma runs_bind m c k t t' : runs_in m c t -> runs_in m k t' -> runs_in m (run! c in k) (t ++ t').
Proof.
  intros Hc Hk s Hs. destruct (Hc s Hs) as (s1 & E1 & H1). destruct (Hk s1) as (s2 & E2 & H2).
  - destruct H1 as ((E & _) & _). congruence.
  - exists s2. rewrite (bind_ok _ _ _ _ _ E1). split; [done|by eapply said_trans].
Qed.

Lemma cmd_mem_run {A} (c : M bytes A) (s : cstate) a m :
  c (memory s) = Ok a m -> on_mem c s = Ok a (mk_cstate (mk_io m (iofile (cio s))) (cworld s) (clogged s)).
Proof. intros E. unfold on_mem, on_io, on_bytes. by rewrite E. Qed.

Lemma cmd_mem_same {A} (c : M bytes A) (s : cstate) a : c (memory s) = Ok a (memory s) -> on_mem c s = Ok a s.
Proof. intros E. rewrite (cmd_mem_run _ _ _ _ E). by destruct s as [ [] ]. Qed.

Lemma runs_mem {A} m (c : M bytes A) (k : A -> M cstate unit) a t :
  c m = Ok a m -> runs_in m (k a) t -> runs_in m (let! x := on_mem c in k x) t.
Proof.
  intros E Hk s Hs. rewrite (bind_ok _ _ s a s); [by apply Hk|]. apply cmd_mem_same. by rewrite Hs.
Qed.

Lemma runs_foldr {A} m (f : A -> M cstate unit) (t : A -> list Z) xs : (forall x, x ∈ xs -> runs_in m (f x) (t x)) ->
  runs_in m (foldr (fun x next => run! f x in next) (ret tt) xs) (flat_map t xs).
Proof.
  induction xs as [|x xs IH]; intros H; [apply runs_ret|]. cbn. apply runs_bind; [apply H; by left|].
  apply IH. intros y Hy. apply H. by right.
Qed.

Lemma runs_elements m k i (body : Z -> M cstate unit) t : (forall j, i <= j < i + Z.of_nat k -> runs_in m (body j) (t j)) ->
  runs_in m (for_elements k i body) (flat_map t (seqZ i (Z.of_nat k))).
Proof.
  revert i. induction k as [|k IH]; intros i H; [apply runs_ret|]. rewrite seqZ_cons by lia. cbn [for_elements flat_map].
  apply runs_bind; [apply H; lia|]. replace (Z.pred (Z.of_nat (S k))) with (Z.of_nat k) by lia. rewrite <-Z.add_1_r.
  apply IH. intros j Hj. apply H. lia.
Qed.

Lemma printf_runs m p pcs : p <> NULL -> Forall (wf_piece m) pcs -> holds m p (flat_map piece_text pcs ++ [0]) ->
  runs_in m (printf ops p (flat_map piece_args pcs)) (flat_map rendered pcs).
Proof.
  intros Hp Hwf Hh s Hs. rewrite <-Hs in Hwf, Hh.
  destruct (vfprintf_loop_run ops log Hacc pcs (cio s) p [] 0 (size (memory s)) Hwf Hh) as (i & E & H).
  - apply holds_fuel in Hh. rewrite length_app in Hh. simpl in Hh. lia.
  - unfold in_u. lia.
  - exists (mk_cstate i (cworld s) (clogged s)). split; [|by split]. rewrite app_nil_r in E.
    assert (fprintf ops p (flat_map piece_args pcs) (cio s) = Ok (u32 (0 + Z.of_nat (length (flat_map rendered pcs)))) i) as Ef.
    { unfold fprintf, vfprintf, truth. rewrite (proj2 (Z.eqb_neq p 0)) by done. exact E. }
    unfold printf, on_io, bind. by rewrite Ef.
Qed.

(** *** The constants *)

Definition in_config (a : Z) : Prop := lo <= a < lo + Z.of_nat n.

(** A string that lies outside the configuration. *)
Definition text_at (m : bytes) (p : Z) (t : list Z) : Prop :=
  0 < p /\ cstr m p t /\ Z.of_nat (length t) < 2 ^ 31 /\ (forall a, p <= a <= p + Z.of_nat (length t) -> ~ in_config a).

Definition lits_ok (m : bytes) : Prop := Forall (fun l => text_at m l.1 l.2) (literal_texts lits).

(** Memory [m'] is [m] but for the configuration. *)
Definition config_only (m m' : bytes) : Prop := forall a, ~ in_config a -> m' !! a = m !! a.

Lemma text_kept m m' p t : config_only m m' -> text_at m p t -> text_at m' p t.
Proof.
  intros H (Hp & Hc & Hl & Ha). split; [done|]. split; [|done]. eapply cstr_outside; [|exact Hc]. intros a Hin. by apply H, Ha.
Qed.

Lemma literal_runs m p t pcs : lits_ok m -> (p, t) ∈ literal_texts lits -> flat_map piece_text pcs = t ->
  Forall (wf_piece m) pcs -> runs_in m (printf ops p (flat_map piece_args pcs)) (flat_map rendered pcs).
Proof.
  intros Hl Hin Ht Hwf. unfold lits_ok in Hl. rewrite Forall_forall in Hl. destruct (Hl _ Hin) as (Hp & [_ Hh] & _). simpl in *.
  apply printf_runs; [unfold NULL; lia|done|by rewrite Ht].
Qed.

(** A literal without directives. *)
Lemma plain_runs m p t : lits_ok m -> (p, t) ∈ literal_texts lits -> forallb (fun c => (0 <? c) && (c <? 256) && negb (c =? 37)) t = true ->
  runs_in m (printf ops p []) t.
Proof.
  intros Hl Hin Ht. pose proof (literal_runs m p t (Plain <$> t) Hl Hin (plain_pieces_text t)) as R.
  rewrite plain_pieces_args, plain_pieces_rendered in R. apply R. apply Forall_fmap, Forall_forall. intros c Hc.
  rewrite forallb_forall in Ht. apply list_elem_of_In, Ht in Hc. simpl. unfold is_char. lia.
Qed.

(** *** Descriptions in memory *)

(** The name of a description, or its index. *)
Definition named (m : bytes) (d : config_val_desc) : Prop :=
  if name d =? NULL then in_u 32 (idx d) else text_at m (name d) (nm (name d)).

Definition width (d : config_val_desc) : option nat :=
  if type d =? kConfigValTypeUInt8 then Some 1%nat
  else if type d =? kConfigValTypeUInt16 then Some 2%nat
  else if type d =? kConfigValTypeUInt32 then Some 4%nat
  else None.

Definition nested (d : config_val_desc) : Prop := type d = kConfigValTypeStruct \/ type d = kConfigValTypeArray.

(** The description [d] of what lies at [conf]: tables end, and scalars are aligned
    and inside the configuration. *)
Inductive placed (m : bytes) : config_val_desc -> Z -> Prop :=
| placed_intro d conf :
    named m d ->
    (nested d -> terminated (subdescs d)) ->
    (type d = kConfigValTypeStruct -> forall d', d' ∈ entries (subdescs d) -> placed m d' (OFFSET_PTR conf (offset d'))) ->
    (type d = kConfigValTypeArray -> forall i, 0 <= i < element_count d ->
       placed m (element d i) (OFFSET_PTR conf (offset (element d i)))) ->
    (forall w, width d = Some w -> conf mod Z.of_nat w = 0 /\ lo <= conf /\ conf + Z.of_nat w <= lo + Z.of_nat n) ->
    placed m d conf.

Lemma placed_kept m m' d conf : config_only m m' -> placed m d conf -> placed m' d conf.
Proof.
  intros H. induction 1 as [d conf Hn Ht _ IHs _ IHa Hw]. constructor; auto.
  unfold named in *. case_match; [done|by eapply text_kept].
Qed.

Lemma lits_kept m m' : config_only m m' -> lits_ok m -> lits_ok m'.
Proof. intros H Hl. eapply Forall_impl; [exact Hl|]. intros l. by apply text_kept. Qed.

(** The memory the command runs in. *)
Definition sane (m : bytes) : Prop := lits_ok m /\ byte_memory m /\ there m lo (Z.of_nat n).

Ltac in_list := repeat (first [by left|right]).

Lemma ident_runs m ident : lits_ok m -> runs_in m (print_ident ops lits ident) (indentation ident).
Proof.
  intros Hl. unfold print_ident, indentation. induction (Z.to_nat ident) as [|k IH]; [apply runs_ret|]. cbn [indent_loop replicate concat].
  apply runs_bind; [|exact IH]. by apply (plain_runs m (lit_ident lits) [32; 32] Hl); [in_list|].
Qed.

Lemma wf_num m conv v : (conv = 100 \/ conv = 105 \/ conv = 120) -> in_u 32 v -> wf_piece m (Num no_options conv v).
Proof.
  intros Hc Hv. split; [done|]. split; [done|]. split; [vm_compute; congruence|]. split; [|done].
  destruct Hc as [->|[->| ->] ]; in_list.
Qed.

Lemma wf_plain m t : forallb (fun c => (0 <? c) && (c <? 256) && negb (c =? 37)) t = true -> Forall (wf_piece m) (Plain <$> t).
Proof.
  intros Ht. apply Forall_fmap, Forall_forall. intros c Hc. rewrite forallb_forall in Ht. apply list_elem_of_In, Ht in Hc.
  simpl. unfold is_char. lia.
Qed.

(** What [%d], [%i] and [%x] show. *)
Definition num_text (conv v : Z) : list Z :=
  if conv =? 120 then [48; 120] ++ padded 16 0 false v else signed_text 0 false v.

Lemma num_rendered conv v : (conv = 100 \/ conv = 105 \/ conv = 120) -> rendered (Num no_options conv v) = num_text conv v.
Proof. by intros [->|[->| ->] ]. Qed.

Lemma head_runs m d : lits_ok m -> named m d ->
  runs_in m (if truth (name d) then printf ops (lit_name lits) [name d] else printf ops (lit_idx lits) [idx d])
    ((if truth (name d) then nm (name d) else signed_text 0 false (idx d)) ++ codes " = ").
Proof.
  intros Hl Hn. unfold named, truth in *. destruct (Z.eqb_spec (name d) 0) as [E|E]; change (name d =? NULL) with (name d =? 0) in Hn;
    cbn [negb].
  - rewrite E in Hn. change (0 =? 0) with true in Hn.
    pose proof (literal_runs m (lit_idx lits) (codes "%i = ") (Num no_options 105 (idx d) :: (Plain <$> codes " = ")) Hl
                  ltac:(in_list) eq_refl) as R.
    cbn [flat_map piece_args app] in R. rewrite plain_pieces_args, plain_pieces_rendered, num_rendered in R by auto.
    apply R. constructor; [apply wf_num; auto|by apply wf_plain].
  - rewrite (proj2 (Z.eqb_neq _ _) E) in Hn. destruct Hn as (Hp & Hc & Hlen & _).
    pose proof (literal_runs m (lit_name lits) (codes "%s = ") (Str (name d) (nm (name d)) :: (Plain <$> codes " = ")) Hl
                  ltac:(in_list) eq_refl) as R.
    cbn [flat_map piece_args app rendered] in R. rewrite plain_pieces_args, plain_pieces_rendered in R.
    apply R. constructor; [by split|by apply wf_plain].
Qed.

Lemma scalar_runs m d w conf : sane m -> width d = Some w -> 
  conf mod Z.of_nat w = 0 -> lo <= conf -> conf + Z.of_nat w <= lo + Z.of_nat n ->
  runs_in m (let! v := on_mem (load_scalar w conf) in
             printf ops (if truth (Z.land (flags d) kConfigValFlagConsoleHex) then lit_hex lits else lit_dec lits) [v])
    (scalar_text d (value_at m w conf)).
Proof.
  intros (Hl & Hb & Hth) Hw Hal Hlo Hhi. eapply runs_mem.
  - unfold load_scalar. rewrite Hal. change (0 =? 0) with true. apply load_le_run. intros i Hi.
    replace (conf + i) with (lo + (conf - lo + i)) by lia. apply Hth. lia.
  - assert (in_u 32 (value_at m w conf)) as Hv.
    { pose proof (value_at_range m w conf Hb) as R. assert (256 ^ Z.of_nat w <= 2 ^ 32) as Hp; [|unfold in_u; lia].
      unfold width in Hw. repeat case_match; try done; injection Hw as <-; vm_compute; congruence. }
    assert (forall p t c, (p, t) ∈ literal_texts lits -> t = [37; c] -> c = 100 \/ c = 105 \/ c = 120 ->
      runs_in m (printf ops p [value_at m w conf]) (num_text c (value_at m w conf))) as R.
    { intros p t c Hin -> Hc. pose proof (literal_runs m p _ [Num no_options c (value_at m w conf)] Hl Hin eq_refl) as R.
      cbn [flat_map piece_args app] in R. rewrite app_nil_r, num_rendered in R by done. apply R, Forall_singleton. by apply wf_num. }
    unfold scalar_text. destruct (truth _); [apply (R (lit_hex lits) (codes "%x") 120)|apply (R (lit_dec lits) (codes "%d") 100)]; solve [in_list|auto].
Qed.

Lemma print_tree_runs fuel m d ident conf : sane m -> (need d < fuel)%nat -> in_u 8 ident -> placed m d conf ->
  runs_in m (config_cmd_print_tree ops lits fuel d ident conf) (tree_text fuel m d ident conf).
Proof.
  intros Hs. revert d ident conf. induction fuel as [|fuel IH]; intros d ident conf Hf Hi Hp; [lia|].
  pose proof Hs as (Hl & _). destruct Hp as [d conf Hn Ht Hst Har Hw]. cbn [config_cmd_print_tree ConfigCmdSpec.tree_text].
  apply runs_bind; [by apply ident_runs|]. rewrite (app_assoc _ (codes " = ")). apply runs_bind; [by apply head_runs|].
  cbv zeta. apply runs_bind; [|by apply (plain_runs m (lit_newline lits) CRLF Hl); [in_list|] ].
  pose proof (fun w Ew => match Hw w Ew with conj Ha (conj Hlo Hhi) => scalar_runs m d w conf Hs Ew Ha Hlo Hhi end) as Hsc.
  destruct (Z.eqb_spec (type d) kConfigValTypeStruct) as [E|E].
  - rewrite app_assoc. apply runs_bind; [by apply (plain_runs m (lit_open_struct lits) (codes "{" ++ CRLF) Hl); [in_list|]|].
    rewrite for_subdescs_entries by (apply Ht; by left). apply runs_bind.
    + apply runs_foldr. intros d' Hin. apply IH; [pose proof (need_sub _ _ Hin); lia|apply wrap_range; lia|by apply Hst].
    + apply runs_bind; [by apply ident_runs|by apply (plain_runs m (lit_close_struct lits) (codes "}") Hl); [in_list|] ].
  - destruct (Z.eqb_spec (type d) kConfigValTypeArray) as [Ea|Ea].
    + rewrite app_assoc. apply runs_bind; [by apply (plain_runs m (lit_open_array lits) (codes "[" ++ CRLF) Hl); [in_list|]|].
      assert (in_u 8 (element_count d)) as Hc by (apply bits_range; lia). unfold in_u in Hc. apply runs_bind.
      * pose proof (runs_elements m (Z.to_nat (element_count d)) 0
          (fun i => config_cmd_print_tree ops lits fuel (element d i) (u8 (u8 (ident + 1) + 1)) (OFFSET_PTR conf (offset (element d i))))
          (fun i => tree_text fuel m (element d i) (u8 (ident + 2)) (OFFSET_PTR conf (offset (element d i))))) as R.
        rewrite Z2Nat.id in R by lia. apply R. intros j Hj. rewrite wrap_add_l. replace (ident + 1 + 1) with (ident + 2) by lia.
        apply IH; [pose proof (need_element d j Ea); lia|apply wrap_range; lia|apply Har; [done|lia] ].
      * replace (u8 (u8 (ident + 1) - 1)) with ident.
        2: { rewrite <-Z.add_opp_r, wrap_add_l. replace (ident + 1 + - (1)) with ident by lia. symmetry. by apply wrap_id. }
        apply runs_bind; [by apply ident_runs|by apply (plain_runs m (lit_close_array lits) (codes "]") Hl); [in_list|] ].
    + destruct (type d =? kConfigValTypeUInt8) eqn:E1; [apply Hsc; unfold width; by rewrite E1|].
      destruct (type d =? kConfigValTypeUInt16) eqn:E2; [apply Hsc; unfold width; by rewrite E1, E2|].
      destruct (type d =? kConfigValTypeUInt32) eqn:E3; [apply Hsc; unfold width; by rewrite E1, E2, E3|].
      by apply (plain_runs m (lit_unkown_type lits) (codes "<unkown>") Hl); [in_list|].
Qed.

(** *** Paths in memory *)

(** The pointer [p] to what is left of a path, NULL at its end. *)
Definition path_at (m : bytes) (p : Z) (path : option (list Z)) : Prop :=
  match path with Some t => text_at m p t | None => p = NULL end.

Lemma text_drop m p t k : text_at m p t -> (k <= length t)%nat -> text_at m (p + Z.of_nat k) (drop k t).
Proof.
  intros (Hp & Hc & Hl & Ha) Hk. split; [lia|]. split; [by apply cstr_drop|]. rewrite length_drop. split; [lia|].
  intros a Hin. apply Ha. lia.
Qed.

Lemma text_truth m p t : text_at m p t -> truth p = true.
Proof. intros [Hp _]. by apply truth_pos. Qed.

Lemma next_component_run m p t (s : cstate) : memory s = m -> text_at m p t ->
  exists next, next_component p s = Ok (Z.of_nat (length (split_dot t).1), next) s /\
    path_at m next (split_dot t).2 /\ take (length (split_dot t).1) t = (split_dot t).1.
Proof.
  intros Hs Ht. pose proof Ht as (Hp & Hc & Hl & _). unfold next_component, split_dot.
  pose proof (strchr_run m p t 46 Hc) as E. rewrite <-Hs in E. rewrite (bind_ok _ _ _ _ _ (cmd_mem_same _ _ _ E)).
  destruct (list_find (eq 46) t) as [[i x]|] eqn:Ef.
  - apply list_find_Some in Ef as (Hi & _ & _). pose proof (lookup_lt_Some _ _ _ Hi) as Hlt.
    rewrite (proj2 (Z.eqb_neq _ NULL)) by (unfold NULL; lia). rewrite truth_pos by lia. cbn [fst snd].
    exists (p + Z.of_nat i + 1). split; [|split].
    + unfold bind, ret. rewrite length_take. do 2 f_equal. lia.
    + replace (p + Z.of_nat i + 1) with (p + Z.of_nat (S i)) by lia. apply text_drop; [done|lia].
    + by rewrite length_take, Nat.min_l by lia.
  - change (NULL =? NULL) with true. cbv iota. pose proof (strlen_run m p t Hc) as El. rewrite <-Hs in El.
    rewrite (bind_ok _ _ _ _ _ (cmd_mem_same _ _ _ El)). exists NULL. split; [done|]. split; [done|]. cbn [fst]. by rewrite firstn_all.
Qed.

Lemma search_run m p t seg ds (k : config_val_desc -> M cstate unit) after (s : cstate) : memory s = m -> cstr m p t ->
  take (length seg) t = seg -> Forall (fun d => cstr m (name d) (nm (name d))) ds ->
  foldr (fun d continue => let! c := on_mem (strncmp (name d) p (Z.of_nat (length seg))) in if c =? 0 then k d else continue) after ds s =
  match find_field nm seg ds with Some d => k d s | None => after s end.
Proof.
  intros Hs Hp Hseg. induction 1 as [|d ds Hd _ IH]; [done|]. cbn [foldr find_field].
  pose proof (strncmp_run m (name d) p _ _ (Z.of_nat (length seg)) Hd Hp ltac:(lia)) as E. rewrite Nat2Z.id, Hseg in E. rewrite <-Hs in E.
  rewrite (bind_ok _ _ _ _ _ (cmd_mem_same _ _ _ E)). pose proof (lex_eq (take (length seg) (nm (name d))) seg) as Hlex.
  destruct (Z.eqb_spec (lex (take (length seg) (nm (name d))) seg) 0); case_decide; tauto.
Qed.

Lemma find_field_in seg ds d : find_field nm seg ds = Some d -> d ∈ ds /\ take (length seg) (nm (name d)) = seg.
Proof.
  induction ds as [|x ds IH]; [done|]. cbn [find_field]. case_decide; [intros [= ->]; split; [by left|done]|].
  intros H'. destruct (IH H'). split; [by right|done].
Qed.

Lemma elements_miss (s : cstate) k i x (body : Z -> M cstate unit) : ~ (i <= x < i + Z.of_nat k) ->
  (forall j, j <> x -> body j = ret tt) -> for_elements k i body s = Ok tt s.
Proof.
  intros Hx Hb. revert i Hx. induction k as [|k IH]; intros i Hx; [done|]. cbn [for_elements]. rewrite (Hb i) by lia.
  rewrite (bind_ok _ _ s tt s) by done. apply IH. lia.
Qed.

Lemma elements_hit (s s' : cstate) k i x (body : Z -> M cstate unit) : i <= x < i + Z.of_nat k ->
  (forall j, j <> x -> body j = ret tt) -> body x s = Ok tt s' -> for_elements k i body s = Ok tt s'.
Proof.
  intros Hx Hb E. revert i Hx. induction k as [|k IH]; intros i Hx; [lia|]. cbn [for_elements].
  destruct (decide (i = x)) as [->|Hne].
  - rewrite (bind_ok _ _ _ _ _ E). apply (elements_miss _ _ _ x); [lia|done].
  - rewrite (Hb i) by done. rewrite (bind_ok _ _ s tt s) by done. apply IH. lia.
Qed.

(** *** What a command does *)

(** The memory and the text after the command, with an argument or without. *)
Definition new_memory (arg : option (list Z)) (r : resolved) (m : bytes) : bytes :=
  match r, arg with
  | Found d conf, Some a => match width d with Some w => stored w conf (number a).1 m | None => m end
  | _, _ => m
  end.

Definition shown (full : list Z) (arg : option (list Z)) (r : resolved) (m : bytes) : list Z :=
  match r with
  | Found d conf =>
      (match arg, width d with Some _, None => full ++ codes " is not a settable type" ++ CRLF | _, _ => [] end) ++
      tree_text (calls d) (new_memory arg r m) d 0 conf
  | Unknown rest => rest ++ codes " is unkown" ++ CRLF
  | Skipped => []
  end.

(** Memory and console changed, and nothing else. *)
Definition did (m' : bytes) (t : list Z) (s s' : cstate) : Prop :=
  memory s' = m' /\ log (iofile (cio s')) = log (iofile (cio s)) ++ t /\ cworld s' = cworld s /\ clogged s' = clogged s.

Lemma runs_did m c t s : runs_in m c t -> memory s = m -> exists s', c s = Ok tt s' /\ did m t s s'.
Proof.
  intros H Hs. destruct (H s Hs) as (s' & E & ((Hm & Hl) & Hw & Hg)). exists s'. split; [done|]. split; [congruence|done].
Qed.

Lemma message_runs m p msg q t : lits_ok m -> (p, codes "%s" ++ msg) ∈ literal_texts lits ->
  forallb (fun c => (0 <? c) && (c <? 256) && negb (c =? 37)) msg = true -> text_at m q t ->
  runs_in m (printf ops p [q]) (t ++ msg).
Proof.
  intros Hl Hin Hmsg (Hq & Hc & Hlen & _).
  pose proof (literal_runs m p _ (Str q t :: (Plain <$> msg)) Hl Hin) as R.
  cbn [flat_map piece_args piece_text app rendered] in R. rewrite plain_pieces_args, plain_pieces_rendered, plain_pieces_text in R.
  apply R; [done|]. constructor; [split; [lia|by split]|by apply wf_plain].
Qed.

Lemma new_memory_sane m arg d conf : sane m -> placed m d conf ->
  sane (new_memory arg (Found d conf) m) /\ config_only m (new_memory arg (Found d conf) m).
Proof.
  intros (Hl & Hb & Ht) [d' conf' _ _ _ _ Hw]. cbn [new_memory]. destruct arg as [a|]; [|done].
  destruct (width d') as [w|] eqn:Ew; [|done]. destruct (Hw w eq_refl) as (_ & Hlo & Hhi).
  assert (config_only m (stored w conf' (number a).1 m)) as Hk.
  { intros x Hx. apply stored_outside. unfold in_config in Hx. lia. }
  split; [|done]. split; [by eapply lits_kept|]. split; [by apply stored_bytes|by apply stored_there].
Qed.

Lemma set_scalar_run m w arg at_ conf (s : cstate) : memory s = m -> there m lo (Z.of_nat n) -> path_at m arg at_ ->
  conf mod Z.of_nat w = 0 -> lo <= conf -> conf + Z.of_nat w <= lo + Z.of_nat n ->
  exists s', set_scalar w arg conf s = Ok tt s' /\
    did (match at_ with Some a => stored w conf (number a).1 m | None => m end) [] s s'.
Proof.
  intros Hs Hth Ha Hal Hlo Hhi. unfold set_scalar. destruct at_ as [a|]; cbn [path_at] in Ha.
  - rewrite (text_truth _ _ _ Ha). destruct Ha as (_ & Hc & _). pose proof (strtol0_run m arg a Hc) as E. rewrite <-Hs in E.
    rewrite (bind_ok _ _ _ _ _ (cmd_mem_same _ _ _ E)). unfold load_scalar, store_scalar. rewrite Hal. change (0 =? 0) with true. cbv iota.
    assert (there m conf (Z.of_nat w)) as Hw.
    { intros i Hi. replace (conf + i) with (lo + (conf - lo + i)) by lia. apply Hth. lia. }
    pose proof (store_le_run m w conf (number a).1 Hw) as E2. rewrite <-Hs in E2 at 1.
    rewrite (cmd_mem_run _ _ _ _ E2). eexists. split; [reflexivity|]. split; [done|]. split; [by rewrite app_nil_r|done].
  - subst arg. exists s. split; [done|]. split; [done|]. split; [by rewrite app_nil_r|done].
Qed.

Lemma set_get_here_run m d conf full ft arg at_ (s : cstate) : sane m -> placed m d conf -> memory s = m ->
  text_at m full ft -> path_at m arg at_ ->
  exists s', set_get_here ops lits d full arg conf s = Ok tt s' /\
    did (new_memory at_ (Found d conf) m) (shown ft at_ (Found d conf) m) s s'.
Proof.
  intros Hsane Hp Hs Hf Ha. destruct (new_memory_sane m at_ d conf Hsane Hp) as [Hsane' Hk].
  set (m' := new_memory at_ (Found d conf) m) in *.
  assert (runs_in m' (config_cmd_print_tree ops lits (calls d) d 0 conf) (tree_text (calls d) m' d 0 conf)) as R.
  { apply print_tree_runs; [done|apply need_calls|unfold in_u; lia|by eapply placed_kept]. }
  unfold set_get_here.
  match goal with |- exists s', bind ?c _ s = _ /\ _ =>
    cut (exists s1, c s = Ok tt s1 /\ did m' (match at_, width d with Some _, None => ft ++ codes " is not a settable type" ++ CRLF | _, _ => [] end) s s1) end.
  - intros (s1 & E1 & Hm1 & Hl1 & Hw1 & Hg1). destruct (runs_did _ _ _ s1 R Hm1) as (s2 & E2 & Hm2 & Hl2 & Hw2 & Hg2).
    exists s2. rewrite (bind_ok _ _ _ _ _ E1). split; [exact E2|]. split; [done|]. split; [|split; congruence].
    rewrite Hl2, Hl1. cbn [shown]. by rewrite <-app_assoc.
  - clear R. subst m'. cbn [new_memory]. destruct Hp as [d conf _ _ _ _ Hw]. destruct Hsane as (Hl & _ & Hth).
    pose proof (fun w Ew => match Hw w Ew with conj Hal (conj Hlo Hhi) =>
      set_scalar_run m w arg at_ conf s Hs Hth Ha Hal Hlo Hhi end) as Hset. clear Hw. unfold width in *.
    repeat (case_match; [by destruct (Hset _ eq_refl) as (s' & E & H'); exists s'; split; [exact E|]; destruct at_|]).
    clear Hset. destruct at_ as [a|]; cbn [path_at] in Ha.
    + rewrite (text_truth _ _ _ Ha). apply (runs_did m); [|done]. by apply message_runs; [|in_list| |].
    + subst arg. apply (runs_did m _ [] s (runs_ret m) Hs).
Qed.

Lemma set_get_run fuel m d path p full ft arg at_ conf (s : cstate) : sane m -> placed m d conf -> memory s = m ->
  (need d < fuel)%nat -> path_at m p path -> text_at m full ft -> path_at m arg at_ ->
  exists s', config_cmd_set_get ops lits fuel d p full arg conf s = Ok tt s' /\
    did (new_memory at_ (resolve fuel d path conf) m) (shown ft at_ (resolve fuel d path conf) m) s s'.
Proof.
  intros Hsane Hp Hs Hfuel Hpath Hfull Harg. revert d path p conf Hp Hfuel Hpath.
  induction fuel as [|fuel IH]; intros d path p conf Hp Hfuel Hpath; [lia|]. cbn [config_cmd_set_get ConfigCmdSpec.resolve].
  destruct path as [t|]; cbn [path_at] in Hpath; [|subst p; by apply set_get_here_run].
  rewrite (text_truth _ _ _ Hpath).
  assert (forall m', m' = m -> exists s', printf ops (lit_unkown lits) [p] s = Ok tt s' /\ did m' (t ++ codes " is unkown" ++ CRLF) s s') as Hunk.
  { intros m' ->. apply (runs_did m); [|done]. destruct Hsane as (Hl & _). by apply message_runs; [|in_list| |]. }
  inversion Hp as [d0 conf0 Hn Ht Hst Har Hw]; subst d0 conf0.
  destruct (Z.eqb_spec (type d) kConfigValTypeStruct) as [E|E].
  - destruct (next_component_run m p t s Hs Hpath) as (next & En & Hnext & Hseg). rewrite (bind_ok _ _ _ _ _ En).
    rewrite for_subdescs_entries by (apply Ht; by left). destruct (split_dot t) as [seg rest]. cbn [fst snd] in *.
    rewrite (search_run m p t seg); [|done|by destruct Hpath as (_ & ? & _)|done|].
    + destruct (find_field nm seg (entries (subdescs d))) as [d'|] eqn:Ef; [|by apply Hunk].
      apply find_field_in in Ef as [Hin _]. apply IH; [by apply Hst|pose proof (need_sub _ _ Hin); lia|done].
    + apply Forall_forall. intros d' Hin. specialize (Hst E d' Hin). inversion Hst as [d0 conf0 Hn' _ _ _ _]; subst d0 conf0.
      apply entries_in in Hin as [_ Hne]. unfold named in Hn'. rewrite (proj2 (Z.eqb_neq _ _) Hne) in Hn'. by destruct Hn' as (_ & ? & _).
  - destruct (Z.eqb_spec (type d) kConfigValTypeArray) as [Ea|Ea]; [|by apply Hunk].
    pose proof Hpath as (Hpp & Hc & _). pose proof (strtol0_run m p t Hc) as Est. rewrite <-Hs in Est.
    rewrite (bind_ok _ _ _ _ _ (cmd_mem_same _ _ _ Est)). pose proof (number_length t (proj1 Hc)) as Hk.
    destruct (number t) as [v k]. cbn [fst snd] in *. pose proof (text_drop m p t k Hpath Hk) as Hd.
    pose proof (cstr_head _ _ _ (proj1 (proj2 Hd))) as Eg. rewrite <-Hs in Eg.
    rewrite (bind_ok _ _ _ _ _ (cmd_mem_same _ _ _ (get_run _ _ _ Eg))).
    replace (negb (negb (hd_or 0 (drop k t) =? 46) || negb (hd_or 0 (drop k t) =? 0))) with false.
    2: { symmetry. apply negb_false_iff, orb_true_iff. destruct (Z.eqb_spec (hd_or 0 (drop k t)) 46) as [->|]; [by right|by left]. }
    assert (in_u 8 (element_count d)) as Hcnt by (apply bits_range; lia). unfold in_u in Hcnt.
    pose proof (wrap_range 8 v ltac:(lia)) as Hv. unfold in_u in Hv.
    destruct (Z.ltb_spec (u8 v) (element_count d)) as [Hlt|Hge].
    + edestruct (IH (element d (u8 v))) as (s' & E' & H'); [apply Har; [done|lia]|pose proof (need_element d (u8 v) Ea); lia| |].
      2: { exists s'. split; [|exact H']. eapply (elements_hit s s' _ _ (u8 v)); [lia| |].
           - intros j Hj. by rewrite (proj2 (Z.eqb_neq _ _) Hj).
           - rewrite Z.eqb_refl. exact E'. }
      destruct (drop k t) as [|c rest] eqn:Ed; [done|]. cbn [hd_or]. destruct Hd as (Hdp & (Hch & Hh) & Hdl & Hda).
      assert (is_char c) as Hc0 by (by apply Forall_cons in Hch as [? _]). unfold is_char in Hc0.
      rewrite (proj2 (Z.eqb_neq c 0)) by lia. cbn [path_at].
      apply (text_drop m _ (c :: rest) 1); [done|simpl; lia].
    + exists s. split; [|split; [done|]; split; [by rewrite app_nil_r|done] ].
      apply (elements_miss _ _ _ (u8 v)); [lia|]. intros j Hj. by rewrite (proj2 (Z.eqb_neq _ _) Hj).
Qed.

(** *** The command *)

Context (config_eeprom : eeprom W) (have_can_node : bool) (uninitialised : Z) (decls : list config_val_desc).
Abbreviation config_cmd := (config_cmd ops config_eeprom n have_can_node uninitialised lits lo decls).

(** A path from the root, and the result of the command. *)
Definition resolve_root (path : list Z) : resolved :=
  let (seg, next) := split_dot path in
  match find_field nm seg decls with
  | Some d => resolve (calls d) d next (OFFSET_PTR lo (offset d))
  | None => Unknown path
  end.

Definition root_code (path : list Z) : Z :=
  match find_field nm (split_dot path).1 decls with Some _ => 0 | None => -1 end.

(** The memory the command runs in, with its tables. *)
Definition ready_memory (m : bytes) : Prop :=
  sane m /\ Forall (fun d => name d <> NULL /\ placed m d (OFFSET_PTR lo (offset d))) decls.

Lemma find_decl_run m p t seg ds (s : cstate) : memory s = m -> cstr m p t -> take (length seg) t = seg ->
  Forall (fun d => cstr m (name d) (nm (name d))) ds ->
  find_decl ds p (Z.of_nat (length seg)) s = Ok (find_field nm seg ds) s.
Proof.
  intros Hs Hp Hseg. induction 1 as [|d ds Hd _ IH]; [done|]. cbn [find_decl find_field].
  pose proof (strncmp_run m (name d) p _ _ (Z.of_nat (length seg)) Hd Hp ltac:(lia)) as E. rewrite Nat2Z.id, Hseg in E. rewrite <-Hs in E.
  rewrite (bind_ok _ _ _ _ _ (cmd_mem_same _ _ _ E)). pose proof (lex_eq (take (length seg) (nm (name d))) seg) as Hlex.
  destruct (Z.eqb_spec (lex (take (length seg) (nm (name d))) seg) 0); case_decide; tauto.
Qed.

Lemma placed_name m d conf : placed m d conf -> name d <> NULL -> cstr m (name d) (nm (name d)).
Proof.
  intros [d' conf' Hn _ _ _ _] Hne. unfold named in Hn. rewrite (proj2 (Z.eqb_neq _ _) Hne) in Hn. by destruct Hn as (_ & ? & _).
Qed.

Lemma literal_compare_run m p t q path (s : cstate) : memory s = m -> lits_ok m -> (p, t) ∈ literal_texts lits -> text_at m q path ->
  exists c, on_mem (strcmp p q) s = Ok c s /\ (c =? 0) = bool_decide (t = path).
Proof.
  intros Hs Hl Hin (_ & Hq & Hlq & _). unfold lits_ok in Hl. rewrite Forall_forall in Hl.
  destruct (Hl _ Hin) as (_ & Hp & Hlp & _). simpl in *.
  exists (lex t path). split.
  - apply cmd_mem_same. rewrite Hs. apply strcmp_run; (done || lia).
  - pose proof (lex_eq t path). destruct (Z.eqb_spec (lex t path) 0); symmetry; [apply bool_decide_eq_true_2|apply bool_decide_eq_false_2]; tauto.
Qed.

Lemma command_run m c0 p rest path at_ (s : cstate) : ready_memory m -> memory s = m -> text_at m p path ->
  path <> codes "save" -> path <> codes "load" ->
  path_at m (if decide (length rest = 1%nat) then nth 0 rest 0 else NULL) at_ ->
  exists s', config_cmd (Z.of_nat (length (c0 :: p :: rest))) (c0 :: p :: rest) s = Ok (root_code path) s' /\
    did (new_memory at_ (resolve_root path) m) (shown path at_ (resolve_root path) m) s s'.
Proof.
  intros [Hsane Hdecls] Hs Hp Hsave Hload Harg. pose proof Hsane as (Hl & _). unfold ConfigCmd.config_cmd.
  rewrite (proj2 (Z.ltb_ge _ _)) by (simpl; lia). rewrite (bind_ok _ _ s p s) by done.
  destruct (literal_compare_run m (lit_save lits) (codes "save") p path s Hs Hl ltac:(in_list) Hp) as (c1 & E1 & B1).
  rewrite (bind_ok _ _ _ _ _ E1), B1, bool_decide_eq_false_2 by congruence.
  destruct (literal_compare_run m (lit_load lits) (codes "load") p path s Hs Hl ltac:(in_list) Hp) as (c2 & E2 & B2).
  rewrite (bind_ok _ _ _ _ _ E2), B2, bool_decide_eq_false_2 by congruence.
  destruct (next_component_run m p path s Hs Hp) as (next & En & Hnext & Hseg). rewrite (bind_ok _ _ _ _ _ En).
  unfold resolve_root, root_code. destruct (split_dot path) as [seg tail]. cbn [fst snd] in *.
  assert (Forall (fun d => cstr m (name d) (nm (name d))) decls) as Hnames.
  { eapply Forall_impl; [exact Hdecls|]. intros d [Hne Hpl]. by eapply placed_name. }
  rewrite (bind_ok _ _ _ _ _ (find_decl_run m p path seg decls s Hs (proj1 (proj2 Hp)) Hseg Hnames)).
  destruct (find_field nm seg decls) as [d|] eqn:Ef.
  - apply find_field_in in Ef as [Hin _]. rewrite Forall_forall in Hdecls. destruct (Hdecls d Hin) as [_ Hpl].
    set (arg := if decide (length rest = 1%nat) then nth 0 rest 0 else NULL) in *.
    rewrite (bind_ok _ _ s arg s).
    + destruct (set_get_run (calls d) m d tail next p path arg at_ (OFFSET_PTR lo (offset d)) s Hsane Hpl Hs (need_calls d) Hnext Hp Harg)
        as (s' & E' & H'). exists s'. rewrite (bind_ok _ _ _ _ _ E'). done.
    + unfold arg. destruct rest as [|a [|b rest] ]; [done|done|]. rewrite decide_False by (simpl; lia).
      by rewrite (proj2 (Z.eqb_neq (Z.of_nat (length (c0 :: p :: a :: b :: rest))) 3)) by (simpl; lia).
  - destruct (runs_did m _ _ s (message_runs m (lit_unkown lits) (codes " is unkown" ++ CRLF) p path Hl ltac:(in_list) eq_refl Hp) Hs)
      as (s' & E' & H'). exists s'. rewrite (bind_ok _ _ _ _ _ E'). by split; [|destruct at_].
Qed.

Lemma decls_run m (s : cstate) ds : sane m -> Forall (fun d => name d <> NULL /\ placed m d (OFFSET_PTR lo (offset d))) ds ->
  runs_in m (print_decls ops lits lo ds) (flat_map (fun d => tree_text (calls d) m d 0 (OFFSET_PTR lo (offset d))) ds).
Proof.
  intros Hsane. induction 1 as [|d ds [_ Hd] _ IH]; [apply runs_ret|]. cbn [print_decls flat_map].
  apply runs_bind; [|done]. apply print_tree_runs; [done|apply need_calls|unfold in_u; lia|done].
Qed.

(** *** Saving and loading *)

(** The [k] bytes from [p] on, and [bs] in their place. *)
Fixpoint content (m : bytes) (p : Z) (k : nat) : list Z :=
  match k with O => [] | S k => default 0 (m !! p) :: content m (p + 1) k end.
Fixpoint written (p : Z) (bs : list Z) (m : bytes) : bytes :=
  match bs with [] => m | b :: bs => written (p + 1) bs (<[p := b]> m) end.

Lemma content_length m p k : length (content m p k) = k.
Proof. revert p. induction k as [|k IH]; intros p; simpl; [done|by rewrite IH]. Qed.

Lemma there_next m p k : there m p (Z.of_nat (S k)) -> is_Some (m !! p) /\ there m (p + 1) (Z.of_nat k).
Proof.
  intros H. split; [rewrite <-(Z.add_0_r p); apply H; lia|]. intros i Hi. replace (p + 1 + i) with (p + (i + 1)) by lia. apply H. lia.
Qed.

Lemma read_bytes_run m p k : there m p (Z.of_nat k) -> read_bytes k p m = Ok (content m p k) m.
Proof.
  revert p. induction k as [|k IH]; intros p H; [done|]. apply there_next in H as [ [c Hc] H]. cbn [read_bytes content].
  step_get Hc. rewrite (bind_ok _ _ _ _ _ (IH _ H)). by rewrite Hc.
Qed.

Lemma write_bytes_run bs m p : there m p (Z.of_nat (length bs)) -> write_bytes p bs m = Ok tt (written p bs m).
Proof.
  revert m p. induction bs as [|b bs IH]; intros m p H; [done|]. apply there_next in H as [Hp H]. cbn [write_bytes written].
  rewrite (bind_ok _ _ _ _ _ (put_run _ _ _ Hp)). by apply IH, there_insert.
Qed.

Lemma written_outside bs p m a : ~ (p <= a < p + Z.of_nat (length bs)) -> written p bs m !! a = m !! a.
Proof.
  revert p m. induction bs as [|b bs IH]; intros p m H; [done|]. cbn [written length] in *. rewrite IH by lia.
  apply lookup_insert_ne. lia.
Qed.

Lemma content_written bs p m : content (written p bs m) p (length bs) = bs.
Proof.
  revert p m. induction bs as [|b bs IH]; intros p m; [done|]. cbn [written length content]. rewrite IH. f_equal.
  by rewrite written_outside, lookup_insert_eq by lia.
Qed.

Lemma written_content k p m : there m p (Z.of_nat k) -> written p (content m p k) m = m.
Proof.
  revert p. induction k as [|k IH]; intros p H; [done|]. apply there_next in H as [ [c Hc] H]. cbn [written content].
  rewrite Hc. cbn [default]. rewrite insert_id by done. by apply IH.
Qed.

Lemma on_config_run c (s : cstate) st : there (memory s) lo (Z.of_nat n) ->
  c (mk_store (content (memory s) lo n) (cworld s) (clogged s)) = Ok tt st -> length (config st) = n ->
  on_config n lo c s = Ok tt (mk_cstate (mk_io (written lo (config st) (memory s)) (iofile (cio s))) (world st) (logged st)).
Proof.
  intros Hth E Hl. unfold on_config. rewrite (bind_ok _ _ _ _ _ (cmd_mem_same _ s _ (read_bytes_run _ _ _ Hth))). rewrite E.
  assert (there (memory s) lo (Z.of_nat (length (config st)))) as Hth' by (by rewrite Hl).
  by rewrite (cmd_mem_run _ (mk_cstate (cio s) (world st) (logged st)) _ _ (write_bytes_run (config st) (memory s) lo Hth')).
Qed.

Context (cells : W -> Z -> Z) (ready : W -> Prop) (capacity : Z) (fits : Z -> Z -> Prop).
Context `{API : !EepromApi config_eeprom cells ready capacity fits} (Hn : (0 < n)%nat) (Hcap : Z.of_nat n + 1 <= capacity).

Lemma save_command_run c0 p (s : cstate) : ready_memory (memory s) -> text_at (memory s) p (codes "save") ->
  exists s', config_cmd 2 [c0; p] s = Ok 0 s' /\ cio s' = cio s /\
    cells_at (cells (cworld s')) 0 (S n) = image (content (memory s) lo n).
Proof.
  intros [ (Hl & _ & Hth) _] Hp. unfold ConfigCmd.config_cmd. change (2 <? 2) with false. cbv iota. rewrite (bind_ok _ _ s p s) by done.
  destruct (literal_compare_run _ (lit_save lits) (codes "save") p _ s eq_refl Hl ltac:(in_list) Hp) as (c1 & E1 & B1).
  rewrite (bind_ok _ _ _ _ _ E1), B1, bool_decide_eq_true_2 by done.
  destruct (save_run config_eeprom cells ready capacity fits n Hn Hcap
              (mk_store (content (memory s) lo n) (cworld s) (clogged s)) (content_length _ _ _)) as (st & E & Him & Hc & _).
  simpl in Him, Hc. assert (length (config st) = n) as Hlen by (rewrite Hc; apply content_length).
  rewrite (bind_ok _ _ _ _ _ (on_config_run _ _ _ Hth E Hlen)). eexists. split; [reflexivity|]. split; [|exact Him]. cbn [cio].
  rewrite Hc, written_content by done. by destruct (cio s).
Qed.

Lemma load_command_run c0 p (s : cstate) saved : ready_memory (memory s) -> text_at (memory s) p (codes "load") -> ready (cworld s) ->
  length saved = n -> cells_at (cells (cworld s)) 0 (S n) = image saved ->
  exists s', config_cmd 2 [c0; p] s = Ok 0 s' /\ memory s' = written lo saved (memory s) /\ iofile (cio s') = iofile (cio s) /\
    clogged s' = clogged s.
Proof.
  intros [ (Hl & _ & Hth) _] Hp Hr Hls Him. unfold ConfigCmd.config_cmd. change (2 <? 2) with false. cbv iota. rewrite (bind_ok _ _ s p s) by done.
  destruct (literal_compare_run _ (lit_save lits) (codes "save") p _ s eq_refl Hl ltac:(in_list) Hp) as (c1 & E1 & B1).
  rewrite (bind_ok _ _ _ _ _ E1), B1, bool_decide_eq_false_2 by done.
  destruct (literal_compare_run _ (lit_load lits) (codes "load") p _ s eq_refl Hl ltac:(in_list) Hp) as (c2 & E2 & B2).
  rewrite (bind_ok _ _ _ _ _ E2), B2, bool_decide_eq_true_2 by done.
  destruct (config_load_run config_eeprom cells ready capacity fits n have_can_node Hn Hcap uninitialised
              (mk_store (content (memory s) lo n) (cworld s) (clogged s)) Hr (content_length _ _ _)) as (st & E & H).
  rewrite image_split in Him. unfold image in Him. apply app_inj_2 in Him as [Ec Ex]; [|done]. injection Ex as Ex.
  cbv zeta in H. cbn [world] in H. rewrite Ec, Ex, Z.eqb_refl in H. destruct H as [Hc Hlog].
  assert (length (config st) = n) as Hlen by (by rewrite Hc).
  rewrite (bind_ok _ _ _ _ _ (on_config_run _ _ _ Hth E Hlen)). eexists. split; [reflexivity|]. cbn. by rewrite Hc.
Qed.
End Runs.
