(* ===== verification/ConfigFields.v ===== *)
(** * ConfigFields: the fields of the CAN node's configuration

    Every field that [config/can_node.h] declares has a path over the descriptions of
    [can_node.c], which the command resolves to the bytes of this field. *)
From stdpp Require Import strings.
From S2P Require Import Prelude Fw File CString CStringSpec Printf PrintfSpec Eeprom EepromSpec Crc Config ConfigSpec ConsoleSpec ConfigCmd ConfigCmdSpec.

(** ** Paths of concrete components *)

Lemma split_dot_seg seg r : forallb (fun c => negb (c =? 46)) seg = true -> split_dot (seg ++ 46 :: r) = (seg, Some r).
Proof.
  intros H. unfold split_dot. assert (list_find (eq 46) (seg ++ 46 :: r) = Some (length seg, 46)) as ->.
  { apply list_find_Some. split; [by rewrite list_lookup_middle|]. split; [done|]. intros j y Hj Hlt <-.
    rewrite lookup_app_l in Hj by done. apply list_elem_of_lookup_2 in Hj. rewrite forallb_forall in H.
    apply list_elem_of_In, H in Hj. lia. }
  replace (drop (S (length seg)) (seg ++ 46 :: r)) with r; [by rewrite take_app_length|].
  change (46 :: r) with ([46] ++ r). rewrite app_assoc. symmetry. apply drop_app_length'. rewrite length_app. simpl. lia.
Qed.

Lemma split_dot_last seg : forallb (fun c => negb (c =? 46)) seg = true -> split_dot seg = (seg, None).
Proof.
  intros H. unfold split_dot. destruct (list_find (eq 46) seg) as [[i y]|] eqn:E; [|done].
  apply list_find_Some in E as (Hi & <- & _). apply list_elem_of_lookup_2 in Hi. rewrite forallb_forall in H.
  apply list_elem_of_In, H in Hi. lia.
Qed.

Lemma digits_of_all b ds r : Forall (is_digit b) ds -> digits_of b (ds ++ 46 :: r) = ds.
Proof.
  induction 1 as [|d ds (Hd & i & Hi & Hb) _ IH]; [done|]. cbn [app digits_of]. rewrite Hi, (proj2 (Z.leb_le _ _)) by lia. by rewrite IH.
Qed.

(** A decimal index in a path is read back. *)
Lemma number_index i r : 0 <= i < 2 ^ 32 -> number (numeral 10 i ++ 46 :: r) = (i, length (numeral 10 i)).
Proof.
  intros Hi. destruct (numeral_spec 10 i ltac:(lia) ltac:(lia)) as (Hv & Hd & Hne & _ & H0). unfold number.
  assert (base_of (numeral 10 i ++ 46 :: r) = (10, O)) as ->.
  { destruct (numeral 10 i) as [|x [|y l] ]; [done|..]; cbn [app base_of].
    - by destruct (x =? 48).
    - destruct (Z.eqb_spec x 48) as [->|]; [|done]. by specialize (H0 eq_refl). }
  rewrite drop_0, digits_of_all by done. by rewrite Hv, wrap_id.
Qed.

Lemma elements_bits size count : in_u 8 size -> in_u 8 count ->
  bits (elements size count) 0 8 = size /\ bits (elements size count) 8 8 = count.
Proof.
  intros Hs Hc. rewrite <-(wrap_id 8 size Hs) at 2. rewrite <-(wrap_id 8 count Hc) at 3. unfold elements, bits.
  split; bitwise; rewrite Z.testbit_ones by lia; rewrite (proj2 (Z.leb_le 0 i)) by lia.
  - rewrite Z.add_0_r. destruct (Z.ltb_spec i 8); [|by rewrite andb_false_r].
    rewrite (Z.testbit_neg_r _ (i - 8)) by lia. by rewrite andb_false_r, orb_false_r, andb_true_r.
  - replace (i + 8 - 8) with i by lia. replace (i + 8 <? 8) with false by lia. by destruct (i <? 8), (Z.testbit count i).
Qed.

Section Steps.
Context (nm : Z -> list Z).
Abbreviation resolve := (resolve nm).
Abbreviation no_dot seg := (forallb (fun c => negb (c =? 46)) seg = true).

Lemma resolve_field fuel d seg r d' conf : type d = kConfigValTypeStruct -> no_dot seg ->
  find_field nm seg (entries (subdescs d)) = Some d' ->
  resolve (S fuel) d (Some (seg ++ 46 :: r)) conf = resolve fuel d' (Some r) (OFFSET_PTR conf (offset d')).
Proof. intros E Hs Hf. cbn [ConfigCmdSpec.resolve]. by rewrite E, Z.eqb_refl, split_dot_seg, Hf. Qed.

Lemma resolve_last fuel d seg d' conf : type d = kConfigValTypeStruct -> no_dot seg ->
  find_field nm seg (entries (subdescs d)) = Some d' ->
  resolve (S (S fuel)) d (Some seg) conf = Found d' (OFFSET_PTR conf (offset d')).
Proof. intros E Hs Hf. cbn [ConfigCmdSpec.resolve]. by rewrite E, Z.eqb_refl, split_dot_last, Hf. Qed.

Lemma resolve_index fuel d i r conf : type d = kConfigValTypeArray -> 0 <= i < element_count d ->
  resolve (S fuel) d (Some (numeral 10 i ++ 46 :: r)) conf =
  resolve fuel (element d i) (Some r) (OFFSET_PTR conf (i * element_size d)).
Proof.
  intros E Hi. assert (in_u 8 (element_count d)) as Hc by (apply bits_range; lia). unfold in_u in Hc.
  cbn [ConfigCmdSpec.resolve]. rewrite E. change (kConfigValTypeArray =? kConfigValTypeStruct) with false. rewrite Z.eqb_refl. cbv iota.
  rewrite number_index by lia. rewrite (wrap_id 8 i), (proj2 (Z.ltb_lt _ _)) by (unfold in_u; lia).
  by rewrite drop_app_length.
Qed.

(** Any index: cut to 8 bits, and 0 where there is no number. *)
Lemma resolve_number fuel d i r conf : type d = kConfigValTypeArray -> 0 <= i < 2 ^ 32 ->
  resolve (S fuel) d (Some (numeral 10 i ++ 46 :: r)) conf =
  if i mod 256 <? element_count d then resolve fuel (element d (i mod 256)) (Some r) (OFFSET_PTR conf (i mod 256 * element_size d)) else Skipped.
Proof.
  intros E Hi. cbn [ConfigCmdSpec.resolve]. rewrite E. change (kConfigValTypeArray =? kConfigValTypeStruct) with false. rewrite Z.eqb_refl. cbv iota.
  rewrite number_index by done. by rewrite drop_app_length.
Qed.

Lemma resolve_no_number fuel d c r conf : type d = kConfigValTypeArray -> number (c :: r) = (0, O) ->
  resolve (S fuel) d (Some (c :: r)) conf =
  if 0 <? element_count d then resolve fuel (element d 0) (Some r) (OFFSET_PTR conf (0 * element_size d)) else Skipped.
Proof.
  intros E Hn. cbn [ConfigCmdSpec.resolve]. rewrite E. change (kConfigValTypeArray =? kConfigValTypeStruct) with false. rewrite Z.eqb_refl. cbv iota.
  by rewrite Hn.
Qed.

Lemma find_hit seg d ds : take (length seg) (nm (name d)) = seg -> find_field nm seg (d :: ds) = Some d.
Proof. intros H. cbn [find_field]. by rewrite decide_True. Qed.
Lemma find_skip seg d ds : take (length seg) (nm (name d)) <> seg -> find_field nm seg (d :: ds) = find_field nm seg ds.
Proof. intros H. cbn [find_field]. by rewrite decide_False. Qed.
Lemma entries_cons d ds : name d <> NULL -> entries (d :: ds) = d :: entries ds.
Proof. intros H. cbn [entries]. by rewrite (proj2 (Z.eqb_neq _ _) H). Qed.
End Steps.

(** ** The fields *)

Inductive can_field :=
| FNodeId | FSpeed | FSensorInterval | FMode (i : Z)
| FSrcNodeId (i j : Z) | FSrcType (i j : Z) | FSrcIdx (i j : Z) | FSrcOff (i j : Z) | FSrcOn (i j : Z).

#[export] Instance can_field_eq_dec : EqDecision can_field.
Proof. solve_decision. Defined.

Section Fields.
Context (N NS : Z) (names : can_names) (nm : Z -> list Z).

Definition field_exists (f : can_field) : Prop :=
  match f with
  | FNodeId | FSpeed | FSensorInterval => True
  | FMode i => 0 <= i < N
  | FSrcNodeId i j | FSrcType i j | FSrcIdx i j | FSrcOff i j | FSrcOn i j => 0 <= i < N /\ 0 <= j < NS
  end.

(** "can.output.i.sources.j." and so on. *)
Definition output_path (i : Z) (rest : list Z) : list Z :=
  codes "can" ++ 46 :: codes "output" ++ 46 :: numeral 10 i ++ 46 :: rest.
Definition source_path (i j : Z) (rest : list Z) : list Z :=
  output_path i (codes "sources" ++ 46 :: numeral 10 j ++ 46 :: rest).

Definition field_path (f : can_field) : list Z :=
  match f with
  | FNodeId => codes "can" ++ 46 :: codes "node_id"
  | FSpeed => codes "can" ++ 46 :: codes "speed"
  | FSensorInterval => codes "can" ++ 46 :: codes "sensor_interval"
  | FMode i => output_path i (codes "mode")
  | FSrcNodeId i j => source_path i j (codes "node_id")
  | FSrcType i j => source_path i j (codes "sensor_type")
  | FSrcIdx i j => source_path i j (codes "sensor_idx")
  | FSrcOff i j => source_path i j (codes "off_value")
  | FSrcOn i j => source_path i j (codes "on_value")
  end.

(** Where the compiler puts the fields of [config], after [sn]. *)
Definition output_off (i : Z) : Z := 16 + i * sizeof_output_config NS.
Definition source_off (i j : Z) : Z := output_off i + 4 + j * sizeof_src_config.

Definition field_off (f : can_field) : Z :=
  match f with
  | FNodeId => 4 | FSpeed => 8 | FSensorInterval => 12
  | FMode i => output_off i
  | FSrcNodeId i j => source_off i j
  | FSrcType i j => source_off i j + 2
  | FSrcIdx i j => source_off i j + 3
  | FSrcOff i j => source_off i j + 4
  | FSrcOn i j => source_off i j + 8
  end.

Definition field_width (f : can_field) : nat :=
  match f with
  | FNodeId | FSrcNodeId _ _ => 2%nat
  | FMode _ | FSrcType _ _ | FSrcIdx _ _ => 1%nat
  | _ => 4%nat
  end.

Definition field_desc (f : can_field) : config_val_desc :=
  match f with
  | FNodeId => nth 0 (can_config_desc_1 N NS names) end_desc
  | FSpeed => nth 1 (can_config_desc_1 N NS names) end_desc
  | FSensorInterval => nth 2 (can_config_desc_1 N NS names) end_desc
  | FMode _ => nth 0 (can_config_desc_2 NS names) end_desc
  | FSrcNodeId _ _ => nth 0 (can_config_desc_3 names) end_desc
  | FSrcType _ _ => nth 1 (can_config_desc_3 names) end_desc
  | FSrcIdx _ _ => nth 2 (can_config_desc_3 names) end_desc
  | FSrcOff _ _ => nth 3 (can_config_desc_3 names) end_desc
  | FSrcOn _ _ => nth 4 (can_config_desc_3 names) end_desc
  end.

(** The output a field belongs to, and its place there. *)
Definition field_place (f : can_field) : option (Z * Z) :=
  match f with
  | FNodeId | FSpeed | FSensorInterval => None
  | FMode i => Some (i, 0)
  | FSrcNodeId i j => Some (i, 4 + j * 12)
  | FSrcType i j => Some (i, 4 + j * 12 + 2)
  | FSrcIdx i j => Some (i, 4 + j * 12 + 3)
  | FSrcOff i j => Some (i, 4 + j * 12 + 4)
  | FSrcOn i j => Some (i, 4 + j * 12 + 8)
  end.

Lemma field_off_place f r c : field_place f = Some (r, c) -> field_off f = 16 + r * sizeof_output_config NS + c.
Proof. unfold field_off, source_off, output_off, sizeof_src_config. destruct f; intros [= <- <-]; lia. Qed.

Lemma field_place_in f r c : field_exists f -> field_place f = Some (r, c) ->
  0 <= r < N /\ 0 <= c /\ c + Z.of_nat (field_width f) <= sizeof_output_config NS.
Proof.
  unfold sizeof_output_config, sizeof_src_config. intros Hf.
  destruct f; intros [= <- <-]; cbn [field_exists field_width] in *; destruct (Z.gtb_spec NS 0); lia.
Qed.

Lemma field_place_none f : field_place f = None -> 4 <= field_off f /\ field_off f + Z.of_nat (field_width f) <= 16.
Proof. destruct f; intros [=]; simpl; lia. Qed.

Lemma field_cols f g r c c' : f <> g -> field_place f = Some (r, c) -> field_place g = Some (r, c') ->
  field_exists f -> field_exists g ->
  c + Z.of_nat (field_width f) <= c' \/ c' + Z.of_nat (field_width g) <= c.
Proof.
  intros Hne Hf Hg Ef Eg.
  destruct f as [| | |i|i j|i j|i j|i j|i j]; try discriminate Hf; injection Hf as <- <-;
    destruct g as [| | |i'|i' j'|i' j'|i' j'|i' j'|i' j']; try discriminate Hg; injection Hg as -> <-; cbn [field_width field_exists] in *;
    (done || (destruct (decide (j = j')) as [->|]; [done|lia]) || lia).
Qed.

(** Different fields have different bytes, inside the configuration. *)
Lemma fields_apart f g : f <> g -> field_exists f -> field_exists g ->
  field_off f + Z.of_nat (field_width f) <= field_off g \/ field_off g + Z.of_nat (field_width g) <= field_off f.
Proof.
  intros Hne Hf Hg.
  destruct (field_place f) as [[r c]|] eqn:Pf; [pose proof (field_off_place _ _ _ Pf); pose proof (field_place_in _ _ _ Hf Pf)
    |pose proof (field_place_none _ Pf)];
  (destruct (field_place g) as [[r' c']|] eqn:Pg; [pose proof (field_off_place _ _ _ Pg); pose proof (field_place_in _ _ _ Hg Pg)
    |pose proof (field_place_none _ Pg)]).
  - destruct (Z.lt_trichotomy r r') as [Hlt|[<-|Hlt] ].
    + assert (r * sizeof_output_config NS + sizeof_output_config NS <= r' * sizeof_output_config NS) by nia. lia.
    + pose proof (field_cols _ _ _ _ _ Hne Pf Pg Hf Hg). lia.
    + assert (r' * sizeof_output_config NS + sizeof_output_config NS <= r * sizeof_output_config NS) by nia. lia.
  - assert (0 <= r * sizeof_output_config NS) by nia. lia.
  - assert (0 <= r' * sizeof_output_config NS) by nia. lia.
  - clear Hf Hg H H0. destruct f, g; try done; simpl; lia.
Qed.

Lemma field_inside f : field_exists f -> 0 <= N -> 4 <= field_off f /\
  field_off f + Z.of_nat (field_width f) <= 16 + N * sizeof_output_config NS.
Proof.
  intros Hf HN. destruct (field_place f) as [[r c]|] eqn:Pf.
  - pose proof (field_off_place _ _ _ Pf). pose proof (field_place_in _ _ _ Hf Pf).
    assert (0 <= r * sizeof_output_config NS) by nia.
    assert (r * sizeof_output_config NS + sizeof_output_config NS <= N * sizeof_output_config NS) by nia. lia.
  - pose proof (field_place_none _ Pf). assert (0 <= N * sizeof_output_config NS); [|lia].
    unfold sizeof_output_config, sizeof_src_config. destruct (Z.gtb_spec NS 0); nia.
Qed.
End Fields.

Section Can.
Context (lits : literals) (nm : Z -> list Z) (lo : Z) (n : nat) (N NS : Z) (names : can_names).
Abbreviation text_at := (text_at lo n).
Abbreviation placed := (placed nm lo n).
Abbreviation R := (sizeof_output_config NS).

Definition name_table : list (Z * string) :=
  [(s_node_id names, "node_id"); (s_sensor_type names, "sensor_type"); (s_sensor_idx names, "sensor_idx");
   (s_off_value names, "off_value"); (s_on_value names, "on_value"); (s_mode names, "mode"); (s_sources names, "sources");
   (s_speed names, "speed"); (s_sensor_interval names, "sensor_interval"); (s_output names, "output"); (s_can names, "can")].

(** The build: the numbers of outputs and sources fit the bytes of the descriptions,
    [config] is aligned, and the names are where the descriptions say. *)
Record can_setup (m : bytes) : Prop := {
  cs_outputs : 0 <= N <= 255;
  cs_sources : 0 <= NS;
  cs_size : R <= 255;
  cs_align : lo mod 4 = 0;
  cs_low : 0 <= lo;
  cs_fit : 16 + N * R <= Z.of_nat n;
  cs_top : lo + Z.of_nat n <= 2 ^ 32;
  cs_names : Forall (fun pt => text_at m pt.1 (codes pt.2) /\ nm pt.1 = codes pt.2) name_table }.

Context (m : bytes) (H : can_setup m).

Lemma setup_name p t : (p, t) ∈ name_table -> text_at m p (codes t) /\ nm p = codes t /\ p <> NULL.
Proof.
  intros Hin. pose proof (cs_names m H) as Hn. rewrite Forall_forall in Hn. destruct (Hn _ Hin) as [Ht Hp]. simpl in *.
  split; [done|]. split; [done|]. destruct Ht as [Hpos _]. unfold NULL. lia.
Qed.

Ltac in_table := repeat (first [by left|right]).
Ltac name_of p t := destruct (setup_name p t ltac:(in_table)) as (?Ht & ?Hn & ?H0).

Lemma all_names : 
  (nm (s_node_id names) = codes "node_id" /\ nm (s_sensor_type names) = codes "sensor_type" /\
   nm (s_sensor_idx names) = codes "sensor_idx" /\ nm (s_off_value names) = codes "off_value" /\
   nm (s_on_value names) = codes "on_value" /\ nm (s_mode names) = codes "mode" /\ nm (s_sources names) = codes "sources" /\
   nm (s_speed names) = codes "speed" /\ nm (s_sensor_interval names) = codes "sensor_interval" /\
   nm (s_output names) = codes "output" /\ nm (s_can names) = codes "can").
Proof. repeat split; by apply setup_name; in_table. Qed.

Lemma size_range : 1 <= R /\ (0 < NS -> R = 4 + NS * 12) /\ 0 <= N * R.
Proof.
  destruct H as [HN HNS HR _ _ _ _ _]. unfold sizeof_output_config, sizeof_src_config in *.
  destruct (Z.gtb_spec NS 0); repeat split; nia.
Qed.

Lemma entries_3 : entries (can_config_desc_3 names) =
  [mk_desc (s_node_id names) 1 0 kConfigValTypeUInt16 kConfigValFlagConsoleHex [];
   mk_desc (s_sensor_type names) 2 2 kConfigValTypeUInt8 0 [];
   mk_desc (s_sensor_idx names) 2 3 kConfigValTypeUInt8 0 [];
   mk_desc (s_off_value names) 3 4 kConfigValTypeUInt32 0 [];
   mk_desc (s_on_value names) 4 8 kConfigValTypeUInt32 0 [] ].
Proof.
  unfold can_config_desc_3. name_of (s_node_id names) "node_id". name_of (s_sensor_type names) "sensor_type".
  name_of (s_sensor_idx names) "sensor_idx". name_of (s_off_value names) "off_value". name_of (s_on_value names) "on_value".
  by rewrite !entries_cons by done.
Qed.

Lemma entries_2 : entries (can_config_desc_2 NS names) =
  mk_desc (s_mode names) 1 0 kConfigValTypeUInt8 kConfigValFlagConsoleHex [] ::
  (if NS >? 0 then [mk_desc (s_sources names) 2 4 kConfigValTypeArray (elements sizeof_src_config NS) (can_config_desc_3 names)] else []).
Proof.
  unfold can_config_desc_2. name_of (s_mode names) "mode". name_of (s_sources names) "sources".
  destruct (NS >? 0); cbn [app]; by rewrite !entries_cons by done.
Qed.

Lemma entries_1 : entries (can_config_desc_1 N NS names) =
  [mk_desc (s_node_id names) 1 0 kConfigValTypeUInt16 kConfigValFlagConsoleHex [];
   mk_desc (s_speed names) 2 4 kConfigValTypeUInt32 0 [];
   mk_desc (s_sensor_interval names) 3 8 kConfigValTypeUInt32 0 [] ] ++
  (if N >? 0 then [mk_desc (s_output names) 4 12 kConfigValTypeArray (elements R N) (can_config_desc_2 NS names)] else []).
Proof.
  unfold can_config_desc_1. name_of (s_node_id names) "node_id". name_of (s_speed names) "speed".
  name_of (s_sensor_interval names) "sensor_interval". name_of (s_output names) "output".
  destruct (N >? 0); cbn [app]; by rewrite !entries_cons by done.
Qed.

Lemma calls_root : (4 <= calls (can_root_desc N NS names))%nat /\ (0 < N -> (8 <= calls (can_root_desc N NS names))%nat).
Proof.
  split; [unfold calls; cbn [height can_root_desc]; lia|]. intros HN.
  assert (exists d, d ∈ subdescs (can_root_desc N NS names) /\ subdescs d = can_config_desc_2 NS names) as (d & Hin & Hd).
  { eexists. cbn [can_root_desc subdescs]. unfold can_config_desc_1. rewrite (proj2 (Z.gtb_lt N 0)) by lia. split.
    - do 3 right. by left.
    - done. }
  apply height_sub in Hin. assert (exists d', d' ∈ subdescs d) as (d' & Hin').
  { rewrite Hd. eexists. by left. }
  apply height_sub in Hin'. assert (1 <= height d')%nat by (destruct d'; simpl; lia). unfold calls. lia.
Qed.

Lemma offset_ptr a o : 0 <= a + o < 2 ^ 32 -> OFFSET_PTR a o = a + o.
Proof. intros Ho. unfold OFFSET_PTR. by rewrite wrap_id. Qed.

Lemma offset_ptr_wrap a o p : OFFSET_PTR (OFFSET_PTR a o) p = OFFSET_PTR a (o + p).
Proof. unfold OFFSET_PTR. rewrite wrap_add_l. f_equal. lia. Qed.

Definition output_desc : config_val_desc := mk_desc (s_output names) 4 12 kConfigValTypeArray (elements R N) (can_config_desc_2 NS names).
Definition sources_desc : config_val_desc :=
  mk_desc (s_sources names) 2 4 kConfigValTypeArray (elements sizeof_src_config NS) (can_config_desc_3 names).

(** The components of the paths are found. *)
Ltac find_component :=
  destruct all_names as (Na & Nb & Nc & Nd & Ne & Nf & Ng & Nh & Ni & Nj & Nk);
  repeat (rewrite find_skip by (cbn [name can_root_desc output_desc sources_desc]; rewrite ?Na, ?Nb, ?Nc, ?Nd, ?Ne, ?Nf, ?Ng, ?Nh, ?Ni, ?Nj, ?Nk; vm_compute; congruence));
  rewrite find_hit by (cbn [name can_root_desc output_desc sources_desc]; rewrite ?Na, ?Nb, ?Nc, ?Nd, ?Ne, ?Nf, ?Ng, ?Nh, ?Ni, ?Nj, ?Nk; reflexivity).

Lemma resolve_can fuel r : calls (can_root_desc N NS names) = fuel ->
  resolve_root nm lo [can_root_desc N NS names] (codes "can" ++ 46 :: r) =
  resolve nm fuel (can_root_desc N NS names) (Some r) (OFFSET_PTR lo 4).
Proof.
  intros <-. unfold resolve_root. rewrite split_dot_seg by reflexivity. find_component. reflexivity.
Qed.

Lemma output_elements : element_size output_desc = R /\ element_count output_desc = N.
Proof.
  destruct size_range as [HR _]. destruct H as [HN HNS HR' _ _ _ _ _].
  apply elements_bits; unfold in_u; lia.
Qed.

Lemma sources_elements : 0 < NS -> element_size sources_desc = sizeof_src_config /\ element_count sources_desc = NS.
Proof.
  intros HNS. destruct size_range as (_ & HR & _). specialize (HR HNS). destruct H as [_ _ HR' _ _ _ _ _].
  apply elements_bits; unfold in_u, sizeof_src_config; lia.
Qed.

Lemma resolve_output fuel i r : calls (can_root_desc N NS names) = S (S fuel) -> 0 <= i < N ->
  resolve_root nm lo [can_root_desc N NS names] (output_path i r) =
  resolve nm fuel (element output_desc i) (Some r) (OFFSET_PTR lo (16 + i * R)).
Proof.
  intros Hc Hi. unfold output_path. rewrite (resolve_can (S (S fuel)) _ Hc). destruct output_elements as [Hs Hn].
  rewrite (resolve_field _ _ _ _ _ output_desc); [|done|done|].
  - rewrite resolve_index by (rewrite ?Hn; done). rewrite Hs. cbn [output_desc offset]. rewrite !offset_ptr_wrap.
    by replace (4 + (12 + i * R)) with (16 + i * R) by lia.
  - cbn [can_root_desc subdescs]. rewrite entries_1, (proj2 (Z.gtb_lt N 0)) by lia. cbn [app]. find_component.
    reflexivity.
Qed.

Lemma resolve_source fuel i j r : calls (can_root_desc N NS names) = S (S (S (S fuel))) -> 0 <= i < N -> 0 <= j < NS ->
  resolve_root nm lo [can_root_desc N NS names] (source_path i j r) =
  resolve nm fuel (element sources_desc j) (Some r) (OFFSET_PTR lo (source_off NS i j)).
Proof.
  intros Hc Hi Hj. unfold source_path. rewrite (resolve_output (S (S fuel)) _ _ Hc Hi). destruct (sources_elements ltac:(lia)) as [Hs Hn].
  rewrite (resolve_field _ _ _ _ _ sources_desc); [|done|done|].
  - rewrite resolve_index by (rewrite ?Hn; done). rewrite Hs. cbn [sources_desc offset]. rewrite !offset_ptr_wrap.
    unfold source_off, output_off. by rewrite Z.add_assoc.
  - cbn [element output_desc subdescs]. rewrite entries_2, (proj2 (Z.gtb_lt NS 0)) by lia. find_component. reflexivity.
Qed.

Ltac leaf :=
  match goal with |- _ = Found ?d (OFFSET_PTR _ ?off) =>
    rewrite (resolve_last _ _ _ _ d); [rewrite offset_ptr_wrap; do 2 f_equal; cbn; unfold output_off; lia|done|done|] end.

(** Every field's path leads to its description and its bytes. *)
Lemma field_resolves f : field_exists N NS f ->
  resolve_root nm lo [can_root_desc N NS names] (field_path f) = Found (field_desc N NS names f) (lo + field_off NS f).
Proof.
  intros Hf. rewrite <-(offset_ptr lo (field_off NS f)).
  2: { destruct H as [HN _ _ _ Hlo Hfit Htop _]. pose proof (field_inside N NS f Hf ltac:(lia)) as Hin.
       assert (0 < field_width f)%nat by (destruct f; simpl; lia). lia. }
  destruct calls_root as [Hc4 Hc8]. destruct (calls (can_root_desc N NS names)) as [|[|[|[|k] ] ] ] eqn:Ek; [lia..|].
  assert (0 < N -> exists j, k = S (S j)) as Hk by (intros HN; specialize (Hc8 HN); exists (k - 2)%nat; lia).
  destruct f as [| | |i|i j|i j|i j|i j|i j]; cbn [field_exists field_path] in *.
  1-3: rewrite (resolve_can _ _ Ek); leaf; cbn [can_root_desc subdescs]; rewrite entries_1; cbn [app]; find_component; reflexivity.
  1: rewrite (resolve_output _ _ _ Ek Hf); leaf; cbn [element output_desc subdescs]; rewrite entries_2; find_component; reflexivity.
  all: destruct Hf as [Hi Hj]; destruct Hk as [k' ->]; [lia|]; rewrite (resolve_source _ _ _ _ Ek Hi Hj); leaf;
    cbn [element sources_desc subdescs]; rewrite entries_3; find_component; reflexivity.
Qed.

(** *** The tables describe the configuration *)

Lemma placed_leaf d conf w : named nm lo n m d -> width d = Some w -> conf mod Z.of_nat w = 0 -> lo <= conf ->
  conf + Z.of_nat w <= lo + Z.of_nat n -> placed m d conf.
Proof.
  intros Hn Hw Ha Hl Hh. assert (~ nested d) as Hnest.
  { unfold nested, width in *. intros [E|E]; by rewrite E in Hw. }
  constructor; [done|tauto|intros E; exfalso; apply Hnest; by left|intros E; exfalso; apply Hnest; by right|].
  intros w' Hw'. rewrite Hw in Hw'. injection Hw' as <-. done.
Qed.

Lemma named_at p t i o ty u ds : (p, t) ∈ name_table -> named nm lo n m (mk_desc p i o ty u ds).
Proof.
  intros Hin. destruct (setup_name p t Hin) as (Ht & Hn & H0). unfold named. cbn [name].
  by rewrite (proj2 (Z.eqb_neq _ _) H0), Hn.
Qed.

Lemma terminated_end ds : terminated (ds ++ [end_desc]).
Proof. exists end_desc. split; [apply elem_of_app; right; by left|done]. Qed.

(** An element, or a field, that is a struct. *)
Lemma placed_struct d conf : type d = kConfigValTypeStruct -> named nm lo n m d -> terminated (subdescs d) ->
  (forall d', d' ∈ entries (subdescs d) -> placed m d' (OFFSET_PTR conf (offset d'))) -> placed m d conf.
Proof.
  intros E Hn Ht Hd. constructor; [done|done|done|intros E'; rewrite E in E'; discriminate|].
  intros w Hw. unfold width in Hw. by rewrite E in Hw.
Qed.

Lemma placed_array d conf : type d = kConfigValTypeArray -> named nm lo n m d -> terminated (subdescs d) ->
  (forall i, 0 <= i < element_count d -> placed m (element d i) (OFFSET_PTR conf (offset (element d i)))) -> placed m d conf.
Proof.
  intros E Hn Ht Hd. constructor; [done|done|intros E'; rewrite E in E'; discriminate|done|].
  intros w Hw. unfold width in Hw. by rewrite E in Hw.
Qed.

Lemma named_element d i : in_u 32 i -> named nm lo n m (element d i).
Proof. done. Qed.

Ltac each_entry := intros d' Hin; repeat (apply elem_of_cons in Hin as [->|Hin]); [..|by apply elem_of_nil in Hin].
Ltac a_leaf w p t :=
  eapply (placed_leaf _ _ w); [apply (named_at p t); in_table|done|rewrite offset_ptr by (cbn [offset]; lia); cbn [offset];
    simpl Z.of_nat; Z.div_mod_to_equations; lia|rewrite offset_ptr by (cbn [offset]; lia); cbn [offset]; lia
    |rewrite offset_ptr by (cbn [offset]; lia); cbn [offset]; lia].

Lemma placed_source j conf : in_u 32 j -> conf mod 4 = 0 -> lo <= conf -> conf + 12 <= lo + Z.of_nat n -> placed m (element sources_desc j) conf.
Proof.
  intros Hj Ha Hl Hh. destruct H as [_ _ _ _ Hlo _ Htop _].
  apply placed_struct; [done|by apply named_element|by apply (terminated_end (take 5 (can_config_desc_3 names)))|].
  cbn [element sources_desc subdescs]. rewrite entries_3. each_entry.
  - a_leaf 2%nat (s_node_id names) "node_id".
  - a_leaf 1%nat (s_sensor_type names) "sensor_type".
  - a_leaf 1%nat (s_sensor_idx names) "sensor_idx".
  - a_leaf 4%nat (s_off_value names) "off_value".
  - a_leaf 4%nat (s_on_value names) "on_value".
Qed.

Lemma placed_output i conf : in_u 32 i -> (0 < NS -> conf mod 4 = 0) -> lo <= conf -> conf + R <= lo + Z.of_nat n -> placed m (element output_desc i) conf.
Proof.
  intros Hi Ha Hl Hh. destruct size_range as (HR0 & HR & _). pose proof H as [_ HNS HR' _ Hlo _ Htop _].
  apply placed_struct; [done|by apply named_element|unfold output_desc, can_config_desc_2; cbn [element subdescs]; rewrite app_assoc; apply terminated_end|].
  cbn [element output_desc subdescs]. rewrite entries_2. intros d' [->|Hin]%elem_of_cons.
  - a_leaf 1%nat (s_mode names) "mode".
  - destruct (Z.gtb_spec NS 0) as [Hpos|]; [|by apply elem_of_nil in Hin]. apply list_elem_of_singleton in Hin as ->.
    specialize (HR Hpos). specialize (Ha Hpos). fold sources_desc. destruct (sources_elements Hpos) as [Hs Hn].
    rewrite offset_ptr by (cbn [sources_desc offset]; lia).
    apply placed_array; [done|apply (named_at (s_sources names) "sources"); in_table|by apply (terminated_end (take 5 (can_config_desc_3 names)))|].
    rewrite Hn. intros j Hj. assert (offset (element sources_desc j) = j * 12) as -> by (cbn [element offset]; by rewrite Hs).
    cbn [sources_desc offset]. rewrite offset_ptr by lia.
    apply placed_source; [unfold in_u; lia|Z.div_mod_to_equations; lia|lia|lia].
Qed.

Lemma placed_root : placed m (can_root_desc N NS names) (OFFSET_PTR lo 4).
Proof.
  destruct size_range as (HR0 & HR & HNR). pose proof H as [HN HNS HR' Ha Hlo Hfit Htop _].
  rewrite offset_ptr by lia.
  apply placed_struct; [done|apply (named_at (s_can names) "can"); in_table|unfold can_root_desc, can_config_desc_1; cbn [subdescs]; rewrite app_assoc; apply terminated_end|].
  cbn [can_root_desc subdescs]. rewrite entries_1. intros d' [Hin|Hin]%elem_of_app.
  - revert d' Hin. each_entry.
    + a_leaf 2%nat (s_node_id names) "node_id".
    + a_leaf 4%nat (s_speed names) "speed".
    + a_leaf 4%nat (s_sensor_interval names) "sensor_interval".
  - destruct (Z.gtb_spec N 0) as [Hpos|]; [|by apply elem_of_nil in Hin]. apply list_elem_of_singleton in Hin as ->.
    fold output_desc. destruct output_elements as [Hs Hn]. assert (1 <= N * R) by nia. rewrite offset_ptr by (cbn [output_desc offset]; lia).
    apply placed_array; [done|apply (named_at (s_output names) "output"); in_table
      |unfold output_desc, can_config_desc_2; cbn [subdescs]; rewrite app_assoc; apply terminated_end|].
    rewrite Hn. intros i Hi. assert (offset (element output_desc i) = i * R) as -> by (cbn [element offset]; by rewrite Hs).
    cbn [output_desc offset]. assert (0 <= i * R) by nia. assert (i * R + R <= N * R) by nia. rewrite offset_ptr by lia.
    apply placed_output; [unfold in_u; lia| |lia|lia].
    intros Hpos'. rewrite (HR Hpos'). replace (lo + 4 + 12 + i * (4 + NS * 12)) with (lo + (4 + i * (1 + NS * 3)) * 4) by lia.
    by rewrite Z.mod_add.
Qed.
End Can.

(** ** Fields through the command *)

Definition field_label (f : can_field) : list Z :=
  match f with
  | FNodeId | FSrcNodeId _ _ => codes "node_id"
  | FSpeed => codes "speed"
  | FSensorInterval => codes "sensor_interval"
  | FMode _ => codes "mode"
  | FSrcType _ _ => codes "sensor_type"
  | FSrcIdx _ _ => codes "sensor_idx"
  | FSrcOff _ _ => codes "off_value"
  | FSrcOn _ _ => codes "on_value"
  end.

Lemma field_desc_width N NS names f : width (field_desc N NS names f) = Some (field_width f).
Proof. by destruct f. Qed.

Lemma field_desc_label nm lo n N NS names m f : can_setup nm lo n N NS names m ->
  truth (name (field_desc N NS names f)) = true /\ nm (name (field_desc N NS names f)) = field_label f.
Proof.
  intros H. unfold truth.
  assert (forall p t, (p, t) ∈ name_table names -> negb (p =? 0) = true /\ nm p = codes t) as Hp.
  { intros p t Hin. destruct (setup_name nm lo n N NS names m H p t Hin) as (_ & E & H0). split; [|done].
    by rewrite (proj2 (Z.eqb_neq p 0)). }
  destruct f; apply Hp; repeat (first [by left|right]).
Qed.

Lemma setup_kept nm lo n N NS names m m' : config_only lo n m m' -> can_setup nm lo n N NS names m -> can_setup nm lo n N NS names m'.
Proof.
  intros Hk [? ? ? ? ? ? ? Hn]. constructor; try done. eapply Forall_impl; [exact Hn|]. intros pt [Ht E].
  split; [by eapply text_kept|done].
Qed.

(** The line that shows a field. *)
Definition field_line N NS names (f : can_field) (v : Z) : list Z :=
  field_label f ++ codes " = " ++ scalar_text (field_desc N NS names f) v ++ CRLF.

Lemma field_text nm lo n N NS names m f conf : can_setup nm lo n N NS names m ->
  tree_text nm (calls (field_desc N NS names f)) m (field_desc N NS names f) 0 conf =
  field_line N NS names f (value_at m (field_width f) conf).
Proof.
  intros H. destruct (field_desc_label nm lo n N NS names m f H) as [Ht Hn]. unfold calls. cbn [tree_text]. rewrite Ht, Hn.
  unfold field_line. by destruct f.
Qed.

Section Commands.
Context {F W : Type} (ops : file_operations F) (log : F -> list Z) (Hacc : accepts ops log) (ee : eeprom W).
Context (have_can : bool) (uninit : Z) (lits : literals) (nm : Z -> list Z) (lo : Z) (n : nat) (N NS : Z) (names : can_names).
Abbreviation cstate := (ConfigCmd.cstate (F := F) (W := W)).
Abbreviation memory s := (iomem (cio s)).
Abbreviation decls := [can_root_desc N NS names].
Abbreviation can_setup := (can_setup nm lo n N NS names).
Abbreviation address f := (lo + field_off NS f).

Lemma can_ready m : sane lits lo n m -> can_setup m -> ready_memory lits nm lo n decls m.
Proof.
  intros Hs H. split; [done|]. apply Forall_singleton. split; [|by apply placed_root].
  apply (setup_name nm lo n N NS names m H _ "can"). repeat (first [by left|right]).
Qed.

Lemma field_command m c0 p rest f at_ (s : cstate) : sane lits lo n m -> can_setup m -> memory s = m -> field_exists N NS f ->
  text_at lo n m p (field_path f) -> path_at lo n m (if decide (length rest = 1%nat) then nth 0 rest 0 else NULL) at_ ->
  exists s', config_cmd ops ee n have_can uninit lits lo decls (Z.of_nat (length (c0 :: p :: rest))) (c0 :: p :: rest) s = Ok 0 s' /\
    let m' := match at_ with Some a => stored (field_width f) (address f) (number a).1 m | None => m end in
    did log m' (field_line N NS names f (value_at m' (field_width f) (address f))) s s'.
Proof.
  intros Hs H Hm Hf Hp Ha.
  destruct (command_run ops log Hacc lits nm lo n ee have_can uninit decls m c0 p rest (field_path f) at_ s (can_ready m Hs H) Hm Hp)
    as (s' & E & Hd); [by destruct f|by destruct f|done|].
  exists s'. rewrite (field_resolves nm lo n N NS names m H f Hf) in Hd. split.
  - rewrite E. f_equal. unfold root_code. rewrite (surjective_pairing (split_dot (field_path f))).
    assert (exists r, field_path f = codes "can" ++ 46 :: r) as [r ->] by (destruct f; eexists; reflexivity).
    rewrite split_dot_seg by done. cbn [fst]. rewrite find_hit; [done|].
    assert (nm (s_can names) = codes "can") as Hn by (apply (all_names nm lo n N NS names m H)). cbn [name can_root_desc]. by rewrite Hn.
  - cbn zeta. cbn [shown new_memory] in Hd. rewrite field_desc_width in Hd. set (m' := match at_ with Some _ => _ | None => _ end) in *.
    assert (can_setup m') as H'.
    { destruct at_ as [a|]; [|done]. eapply setup_kept; [|exact H]. intros x Hx. apply stored_outside.
      pose proof (field_inside N NS f Hf ltac:(destruct H; lia)). destruct H as [_ _ _ _ _ Hfit _ _]. unfold in_config in Hx. lia. }
    rewrite (field_text nm lo n N NS names m' f _ H') in Hd. by destruct at_.
Qed.
End Commands.

(** C16: [config path value] sets one field.  Take a build whose descriptions hold its
    numbers: at most 255 outputs, and an output's configuration of at most 255 bytes,
    that is at most 20 sources, as [element_count] and [element_size] are single bytes
    (with 21 sources the paths of all outputs lead to the first); [config] is packed,
    on a word boundary and below the end of memory.  For every field of the
    configuration of the CAN node, the command with the path of the field and a number
    (decimal, [0x] or [0b]) writes the number, cut to the width of the field, to the
    bytes of this field: every other field keeps its value and every other byte its
    content.  The command shows the field, returns 0, and [config path] shows the same
    line again and changes nothing. *)
Theorem config_sets_field {F W : Type} (ops : file_operations F) log (ee : eeprom W) have_can uninit lits nm lo n N NS names
    (s : ConfigCmd.cstate (F := F) (W := W)) c0 p a value f :
  let m := iomem (cio s) in
  accepts ops log -> sane lits lo n m -> can_setup nm lo n N NS names m -> field_exists N NS f ->
  text_at lo n m p (field_path f) -> text_at lo n m a value ->
  let command := config_cmd ops ee n have_can uninit lits lo [can_root_desc N NS names] in
  let at_field (g : can_field) (m : bytes) := value_at m (field_width g) (lo + field_off NS g) in
  let v := (number value).1 mod 256 ^ Z.of_nat (field_width f) in
  exists s', command 3 [c0; p; a] s = Ok 0 s' /\
    (forall g, field_exists N NS g -> at_field g (iomem (cio s')) = if decide (g = f) then v else at_field g m) /\
    (forall x, ~ (lo + field_off NS f <= x < lo + field_off NS f + Z.of_nat (field_width f)) -> iomem (cio s') !! x = m !! x) /\
    log (iofile (cio s')) = log (iofile (cio s)) ++ field_line N NS names f v /\
    cworld s' = cworld s /\ clogged s' = clogged s /\
    exists s'', command 2 [c0; p] s' = Ok 0 s'' /\ iomem (cio s'') = iomem (cio s') /\
      log (iofile (cio s'')) = log (iofile (cio s')) ++ field_line N NS names f v.
Proof.
  intros m Hacc Hs H Hf Hp Ha command at_field v.
  destruct (field_command ops log Hacc ee have_can uninit lits nm lo n N NS names m c0 p [a] f (Some value) s Hs H eq_refl Hf Hp Ha)
    as (s' & E & Hm & Hl & Hw & Hg). cbn zeta in *. set (m' := stored _ _ _ m) in *.
  pose proof (field_inside N NS f Hf ltac:(destruct H; lia)) as Hin. pose proof (cs_fit _ _ _ _ _ _ _ H) as Hfit.
  assert (config_only lo n m m') as Hk.
  { intros x Hx. apply stored_outside. unfold in_config in Hx. lia. }
  assert (sane lits lo n m') as Hs'.
  { destruct Hs as (Hs1 & Hs2 & Hs3). split; [by eapply lits_kept|]. split; [by apply stored_bytes|by apply stored_there]. }
  assert (value_at m' (field_width f) (lo + field_off NS f) = v) as Hv by apply value_at_stored. rewrite Hv in Hl.
  destruct (field_command ops log Hacc ee have_can uninit lits nm lo n N NS names m' c0 p [] f None s' Hs') as (s'' & E2 & Hm2 & Hl2 & _);
    [by eapply setup_kept|done|done|by eapply text_kept|done|].
  cbn zeta in *. rewrite Hv in Hl2.
  exists s'. split; [exact E|]. rewrite Hm. split; [|split; [|split; [done|split; [done|split; [done|by exists s''] ] ] ] ].
  - intros g Hg'. unfold at_field. destruct (decide (g = f)) as [->|Hne]; [done|].
    apply value_at_ext. intros x Hx. apply stored_outside. destruct (fields_apart N NS g f Hne Hg' Hf); lia.
  - intros x Hx. by apply stored_outside.
Qed.

(** C20: What [config] does on every path.  Without arguments it shows the tree of every
    root.  With a path that is not "save" or "load" it follows the first component to
    the first root whose name begins with it, and on through structs by names and
    arrays by numbers: a scalar at the end takes the number of a second argument, cut
    to its width, in its own bytes; what lies there is shown; a struct or array
    reports that it cannot be set.  A name that matches nothing is reported without a
    change to memory.  An index is what [strtol] reads, cut to 8 bits: 256 is element
    0, and so is what is no number, whose first character is skipped, without a
    complaint; only a cut index beyond the end is passed over without a change.  The
    EEPROM is not touched, and the result is 0, or -1 for an unknown root. *)
Theorem config_command {F W : Type} (ops : file_operations F) log (ee : eeprom W) have_can uninit lits nm lo n decls
    (s : ConfigCmd.cstate (F := F) (W := W)) c0 :
  let m := iomem (cio s) in
  let command argv := config_cmd ops ee n have_can uninit lits lo decls (Z.of_nat (length argv)) argv in
  accepts ops log -> ready_memory lits nm lo n decls m ->
  (exists s', command [c0] s = Ok 0 s' /\
     did log m (flat_map (fun d => tree_text nm (calls d) m d 0 (OFFSET_PTR lo (offset d))) decls) s s') /\
  (forall p path rest arg, text_at lo n m p path -> path <> codes "save" -> path <> codes "load" ->
     path_at lo n m (if decide (length rest = 1%nat) then nth 0 rest 0 else NULL) arg ->
     let target := resolve_root nm lo decls path in
     exists s', command (c0 :: p :: rest) s = Ok (root_code nm decls path) s' /\
       did log (new_memory arg target m) (shown nm path arg target m) s s') /\
  (forall fuel d conf, type d = kConfigValTypeArray ->
     let at_index i next := if i <? element_count d
       then resolve nm fuel (element d i) (Some next) (OFFSET_PTR conf (i * element_size d)) else Skipped in
     (forall i next, 0 <= i < 2 ^ 32 -> resolve nm (S fuel) d (Some (numeral 10 i ++ 46 :: next)) conf = at_index (i mod 256) next) /\
     (forall c next, number (c :: next) = (0, O) -> resolve nm (S fuel) d (Some (c :: next)) conf = at_index 0 next)).
Proof.
  intros m command Hacc Hr. split; [|split; [|intros; split; intros; [by apply resolve_number|by apply resolve_no_number] ] ].
  - destruct (runs_did log m _ _ s (decls_run ops log Hacc lits nm lo n m s decls (proj1 Hr) (proj2 Hr)) eq_refl) as (s' & E & H).
    exists s'. split; [|exact H]. unfold command, config_cmd. rewrite (proj2 (Z.ltb_lt _ _)) by (simpl; lia).
    by rewrite (bind_ok _ _ _ _ _ E).
  - intros p path rest arg Hp Hsave Hload Ha. by apply command_run.
Qed.

(** [config save] and [config load] carry the configuration over a restart: after
    a save, on any EEPROM that keeps its promises, whatever the memory held in the
    meantime, a load puts the saved bytes back in place of the configuration, says
    nothing, and changes no other byte. *)
Theorem config_persists {F W : Type} (ops : file_operations F) (ee : eeprom W) have_can uninit lits nm lo n decls
    cells ready capacity fits `{API : !EepromApi ee cells ready capacity fits} (s : ConfigCmd.cstate (F := F) (W := W)) c0 p :
  let command := config_cmd ops ee n have_can uninit lits lo decls in
  (0 < n)%nat -> Z.of_nat n + 1 <= capacity -> ready_memory lits nm lo n decls (iomem (cio s)) ->
  text_at lo n (iomem (cio s)) p (codes "save") ->
  exists s1, command 2 [c0; p] s = Ok 0 s1 /\ cio s1 = cio s /\
    forall s2 c1 q, ready_memory lits nm lo n decls (iomem (cio s2)) -> text_at lo n (iomem (cio s2)) q (codes "load") ->
      ready (cworld s2) -> (forall x, cells (cworld s2) x = cells (cworld s1) x) ->
      exists s3, command 2 [c1; q] s2 = Ok 0 s3 /\ content (iomem (cio s3)) lo n = content (iomem (cio s)) lo n /\
        config_only lo n (iomem (cio s2)) (iomem (cio s3)) /\ iofile (cio s3) = iofile (cio s2) /\ clogged s3 = clogged s2.
Proof.
  intros command Hn Hcap Hr Hp.
  destruct (save_command_run ops lits nm lo n ee have_can uninit decls cells ready capacity fits Hn Hcap c0 p s Hr Hp)
    as (s1 & E1 & Hio & Him). exists s1. split; [exact E1|]. split; [done|]. intros s2 c1 q Hr2 Hq Hrd Hc.
  destruct (load_command_run ops lits nm lo n ee have_can uninit decls cells ready capacity fits Hn Hcap c1 q s2
              (content (iomem (cio s)) lo n) Hr2 Hq Hrd (content_length _ _ _)) as (s3 & E3 & Hm & Hf & Hl).
  { rewrite <-Him. apply cells_at_ext. intros x _. apply Hc. }
  exists s3. split; [exact E3|]. rewrite Hm. split; [|split; [|done] ].
  - rewrite <-(content_length (iomem (cio s)) lo n) at 2. by rewrite content_written.
  - intros x Hx. apply written_outside. unfold in_config in Hx. by rewrite content_length.
Qed.

(** ** Witnesses *)

(** Deciding what the memory holds. *)
Definition text_check (lo : Z) (n : nat) (m : bytes) (p : Z) (t : list Z) : bool :=
  (0 <? p) && forallb (fun c => (0 <? c) && (c <? 256)) t &&
  forallb (fun ic => bool_decide (m !! (p + ic.1) = Some ic.2)) (zip (seqZ 0 (Z.of_nat (S (length t)))) (t ++ [0])) &&
  (Z.of_nat (length t) <? 2 ^ 31) && ((p + Z.of_nat (length t) <? lo) || (lo + Z.of_nat n <=? p)).

Lemma holds_check m p bs : forallb (fun ic => bool_decide (m !! (p + ic.1) = Some ic.2)) (zip (seqZ 0 (Z.of_nat (length bs))) bs) = true ->
  holds m p bs.
Proof.
  assert (forall i, forallb (fun ic => bool_decide (m !! (p + ic.1) = Some ic.2)) (zip (seqZ i (Z.of_nat (length bs))) bs) = true ->
    holds m (p + i) bs) as G; [|intros E0; rewrite <-(Z.add_0_r p); by apply G].
  induction bs as [|b bs IH]; intros i E; [done|].
  cbn [length] in E. rewrite seqZ_cons in E by lia. cbn [zip_with forallb fst snd] in E. apply andb_true_iff in E as [E1 E2].
  split; [by apply bool_decide_eq_true_1 in E1|]. replace (p + i + 1) with (p + (i + 1)) by lia. apply IH.
  replace (Z.of_nat (length bs)) with (Z.pred (Z.of_nat (S (length bs)))) by lia. by rewrite Z.add_1_r.
Qed.

Lemma text_check_sound lo n m p t : text_check lo n m p t = true -> text_at lo n m p t.
Proof.
  unfold text_check. intros [ [ [ [H1 H2]%andb_true_iff H3]%andb_true_iff H4]%andb_true_iff H5]%andb_true_iff.
  split; [lia|]. split; [split|split; [lia|] ].
  - apply Forall_forall. intros c Hc. rewrite forallb_forall in H2. apply list_elem_of_In, H2 in Hc. unfold is_char. lia.
  - apply holds_check. by replace (length (t ++ [0])) with (S (length t)) by (rewrite length_app; simpl; lia).
  - intros a Ha. unfold in_config. apply orb_true_iff in H5. lia.
Qed.

Lemma texts_check_sound lo n m ts : forallb (fun pt => text_check lo n m pt.1 pt.2) ts = true -> Forall (fun pt => text_at lo n m pt.1 pt.2) ts.
Proof.
  intros H. apply Forall_forall. intros pt Hin. rewrite forallb_forall in H. by apply text_check_sound, H, list_elem_of_In.
Qed.

Lemma names_check_sound lo n m nm ts :
  forallb (fun pt => text_check lo n m pt.1 (codes pt.2) && bool_decide (nm pt.1 = codes pt.2)) ts = true ->
  Forall (fun pt => text_at lo n m pt.1 (codes pt.2) /\ nm pt.1 = codes pt.2) ts.
Proof.
  intros H. apply Forall_forall. intros pt Hin. rewrite forallb_forall in H. apply list_elem_of_In, H in Hin.
  apply andb_true_iff in Hin as [H1 H2]. split; [by apply text_check_sound|by apply bool_decide_eq_true_1 in H2].
Qed.

Lemma poke_bytes p bs m : byte_memory m -> Forall (fun c => 0 <= c < 256) bs -> byte_memory (poke p bs m).
Proof. intros Hm Hb. revert p. induction Hb as [|b bs H _ IH]; intros p; [done|]. simpl. apply map_Forall_insert_2; [done|apply IH]. Qed.

(** A memory with strings in it. *)
Definition with_strings (ts : list (Z * list Z)) (m : bytes) : bytes := foldr (fun pt m => poke pt.1 (pt.2 ++ [0]) m) m ts.

Lemma with_strings_bytes ts m : byte_memory m -> forallb (fun pt => forallb (fun c => (0 <=? c) && (c <? 256)) (pt.2 ++ [0])) ts = true ->
  byte_memory (with_strings ts m).
Proof.
  intros Hm. induction ts as [|t ts IH]; [done|]. cbn [forallb]. intros [H1 H2]%andb_true_iff. apply poke_bytes; [by apply IH|].
  apply Forall_forall. intros c Hc. rewrite forallb_forall in H1. apply list_elem_of_In, H1 in Hc. lia.
Qed.

Definition example_literals : literals := mk_literals 1000 1040 1080 1120 1160 1200 1240 1280 1320 1360 1400 1440 1480 1520 1560 1600.

Definition example_names : can_names := mk_names 2000 2020 2040 2060 2080 2100 2120 2140 2160 2180 2200.
Definition example_nm (p : Z) : list Z :=
  match list_find (fun pt => pt.1 = p) (name_table example_names) with Some (_, (_, t)) => codes t | None => [] end.

(** One output with one source: 32 bytes of configuration at 4096, a path and a number. *)
Definition example_config_memory : bytes :=
  with_strings
    ((3000, field_path (FSrcOn 0 0)) :: (3100, codes "0x1F4") ::
     (3200, codes "c.out.1") :: (3220, codes "can.mode") :: (3240, codes "save") :: (3260, codes "load") ::
     (prod_map id codes <$> name_table example_names) ++ literal_texts example_literals)
    (poke 4096 (replicate 32 0) empty).

Definition example_cstate : ConfigCmd.cstate (F := terminal) (W := unit) := mk_cstate (mk_io example_config_memory (mk_term [] [])) tt [].

Lemma example_sane : sane example_literals 4096 32 example_config_memory.
Proof.
  split; [|split].
  - apply texts_check_sound. vm_compute. reflexivity.
  - apply with_strings_bytes; [|vm_compute; reflexivity]. apply poke_bytes; [apply map_Forall_empty|]. apply Forall_replicate. lia.
  - apply there_dec; [lia|vm_compute; reflexivity].
Qed.

Lemma example_setup : can_setup example_nm 4096 32 1 1 example_names example_config_memory.
Proof.
  constructor; [lia|lia|vm_compute; congruence|reflexivity|lia|vm_compute; congruence|lia|].
  apply names_check_sound. vm_compute. reflexivity.
Qed.

Lemma example_ready : ready_memory example_literals example_nm 4096 32 [can_root_desc 1 1 example_names] example_config_memory.
Proof. apply can_ready; [apply example_sane|apply example_setup]. Qed.

Lemma config_sets_field_witness :
  exists s', config_cmd term_ops (mk_eeprom (fun _ _ => ret (0, [])) (fun _ _ => ret 0)) 32 true 0 example_literals 4096
               [can_root_desc 1 1 example_names] 3 [2000; 3000; 3100] example_cstate = Ok 0 s' /\
    value_at (iomem (cio s')) 4 (4096 + 28) = 500 /\ value_at (iomem (cio s')) 2 (4096 + 20) = 0 /\
    screen (iofile (cio s')) = codes "on_value = 500" ++ CRLF.
Proof.
  destruct (config_sets_field term_ops screen (mk_eeprom (fun _ _ => ret (0, [])) (fun _ _ => ret 0) : eeprom unit) true 0
              example_literals example_nm 4096 32 1 1 example_names example_cstate 2000 3000 3100 (codes "0x1F4") (FSrcOn 0 0))
    as (s' & E & Hv & _ & Hl & _).
  - apply term_accepts.
  - exact example_sane.
  - exact example_setup.
  - simpl. lia.
  - apply text_check_sound. vm_compute. reflexivity.
  - apply text_check_sound. vm_compute. reflexivity.
  - exists s'. split; [exact E|]. split; [exact (Hv (FSrcOn 0 0) ltac:(simpl; lia))|].
    split; [exact (Hv (FSrcNodeId 0 0) ltac:(simpl; lia))|exact Hl].
Defined.

(** "can.mode" is unknown; "c.out.1" is the second of one output: nothing happens. *)
Lemma config_command_witness :
  exists s', config_cmd term_ops (mk_eeprom (fun _ _ => ret (0, [])) (fun _ _ => ret 0)) 32 true 0 example_literals 4096
               [can_root_desc 1 1 example_names] 2 [2000; 3220] example_cstate = Ok 0 s' /\
    did screen example_config_memory (codes "mode is unkown" ++ CRLF) example_cstate s' /\
  exists s'', config_cmd term_ops (mk_eeprom (fun _ _ => ret (0, [])) (fun _ _ => ret 0)) 32 true 0 example_literals 4096
               [can_root_desc 1 1 example_names] 2 [2000; 3200] example_cstate = Ok 0 s'' /\
    did screen example_config_memory [] example_cstate s''.
Proof.
  destruct (config_command term_ops screen (mk_eeprom (fun _ _ => ret (0, [])) (fun _ _ => ret 0) : eeprom unit) true 0
              example_literals example_nm 4096 32 [can_root_desc 1 1 example_names] example_cstate 2000) as [_ C];
    [apply term_accepts|exact example_ready|]. destruct C as [C _].
  destruct (C 3220 (codes "can.mode") [] None) as (s' & E & H); [apply text_check_sound; vm_compute; reflexivity|done|done|done|].
  exists s'. split; [exact E|]. split; [exact H|].
  destruct (C 3200 (codes "c.out.1") [] None) as (s'' & E2 & H2); [apply text_check_sound; vm_compute; reflexivity|done|done|done|].
  exists s''. split; [exact E2|exact H2].
Defined.

Lemma config_persists_witness :
  let command := config_cmd term_ops (mcp24xx64_create device_transfer 2) 32 true 0 example_literals 4096 [can_root_desc 1 1 example_names] in
  exists s1, command 2 [2000; 3240] (mk_cstate (cio example_cstate) (mk_device (fun _ => 255) false) []) = Ok 0 s1 /\
    exists s3, command 2 [2000; 3260] (mk_cstate (mk_io example_config_memory (mk_term [] [])) (mk_device (dcells (cworld s1)) false) []) = Ok 0 s3 /\
      content (iomem (cio s3)) 4096 32 = replicate 32 0.
Proof.
  pose proof (mcp24xx64_api device_transfer dcells device_busy 2 device_chip) as API.
  destruct (config_persists term_ops (mcp24xx64_create device_transfer 2) true 0 example_literals example_nm 4096 32
              [can_root_desc 1 1 example_names] dcells (fun d => device_busy d = O) kCapacity fits (API := API)
              (mk_cstate (cio example_cstate) (mk_device (fun _ => 255) false) []) 2000 3240) as (s1 & E & _ & H);
    [lia|unfold kCapacity; lia|exact example_ready|apply text_check_sound; vm_compute; reflexivity|].
  exists s1. split; [exact E|].
  destruct (H (mk_cstate (mk_io example_config_memory (mk_term [] [])) (mk_device (dcells (cworld s1)) false) []) 2000 3260)
    as (s3 & E3 & Hc & _); [exact example_ready|apply text_check_sound; vm_compute; reflexivity|done|done|].
  exists s3. split; [exact E3|]. rewrite Hc. vm_compute. reflexivity.
Defined.

(** A component is compared with the beginning of a name, an index is cut to 8 bits, and
    what follows a number is skipped: "c.s" is [can.speed], a path that ends with a
    dot is the first field of the struct, and "256" and "x" are element 0. *)
Lemma loose_paths :
  let resolve path := resolve_root example_nm 4096 [can_root_desc 1 1 example_names] (codes path) in
  resolve "c.s"%string = resolve "can.speed"%string /\ resolve "can."%string = resolve "can.node_id"%string /\
  resolve "can.output.256.mode"%string = resolve "can.output.0.mode"%string /\
  resolve "can.output.xmode"%string = resolve "can.output.0.mode"%string /\
  resolve "can.speed"%string = Found (field_desc 1 1 example_names FSpeed) 4104.
Proof. vm_compute. repeat split. Qed.

(** Twenty sources are the limit of [element_size]: with 21 an output takes 256 bytes,
    which the description cuts to 0, and every output is the first. *)
Lemma sources_alias :
  let resolve ns path := resolve_root example_nm 4096 [can_root_desc 2 ns example_names] (codes path) in
  resolve 21 "can.output.1.mode"%string = resolve 21 "can.output.0.mode"%string /\
  resolve 20 "can.output.1.mode"%string <> resolve 20 "can.output.0.mode"%string.
Proof. vm_compute. split; congruence. Qed.
