(* ===== verification/Words.v ===== *)
(** * Words: words in memory

    Consecutive words of a memory, a map from addresses to 32-bit words: what lies
    there, and storing them. *)
From S2P Require Import Prelude.

(** The words [vs] from [a] on, and storing them. *)
Fixpoint words_at (ws : gmap Z Z) (a : Z) (vs : list Z) : Prop :=
  match vs with [] => True | v :: vs => ws !! a = Some v /\ words_at ws (a + 4) vs end.
Fixpoint stores (a : Z) (vs : list Z) (ws : gmap Z Z) : gmap Z Z :=
  match vs with [] => ws | v :: vs => stores (a + 4) vs (<[a := v]> ws) end.

Lemma stores_outside vs a ws x : x < a \/ a + 4 * Z.of_nat (length vs) <= x -> stores a vs ws !! x = ws !! x.
Proof.
  revert a ws. induction vs as [|v vs IH]; intros a ws H; [done|]. cbn [stores length] in *. rewrite IH by lia.
  apply lookup_insert_ne. lia.
Qed.

Lemma words_at_ext ws ws' a vs : (forall x, a <= x < a + 4 * Z.of_nat (length vs) -> ws' !! x = ws !! x) ->
  words_at ws a vs -> words_at ws' a vs.
Proof.
  revert a. induction vs as [|v vs IH]; intros a H; [done|]. cbn [words_at length] in *. intros [E Hw].
  split; [by rewrite H by lia|]. apply IH; [|done]. intros x Hx. apply H. lia.
Qed.

Lemma stores_at vs a ws : words_at (stores a vs ws) a vs.
Proof.
  revert a ws. induction vs as [|v vs IH]; intros a ws; [done|]. cbn [stores words_at]. split; [|apply IH].
  rewrite stores_outside by lia. apply lookup_insert_eq.
Qed.

Lemma words_at_lookup ws a vs : (forall i v, vs !! i = Some v -> ws !! (a + 4 * Z.of_nat i) = Some v) -> words_at ws a vs.
Proof.
  revert a. induction vs as [|v vs IH]; intros a H; [done|]. split; [rewrite <-(Z.add_0_r a); by apply (H 0%nat)|].
  apply IH. intros i u Hu. replace (a + 4 + 4 * Z.of_nat i) with (a + 4 * Z.of_nat (S i)) by lia. by apply H.
Qed.

Lemma words_at_app ws a vs us : words_at ws a (vs ++ us) <-> words_at ws a vs /\ words_at ws (a + 4 * Z.of_nat (length vs)) us.
Proof.
  revert a. induction vs as [|v vs IH]; intros a; [simpl; rewrite Z.add_0_r; tauto|]. cbn [app words_at length].
  rewrite IH. replace (a + 4 + 4 * Z.of_nat (length vs)) with (a + 4 * Z.of_nat (S (length vs))) by lia. tauto.
Qed.

Lemma stores_app vs us a ws : stores a (vs ++ us) ws = stores (a + 4 * Z.of_nat (length vs)) us (stores a vs ws).
Proof.
  revert a ws. induction vs as [|v vs IH]; intros a ws; [simpl; by rewrite Z.add_0_r|]. cbn [app stores length].
  rewrite IH. f_equal. lia.
Qed.

Lemma stores_kept vs a ws b us : words_at ws b us -> b + 4 * Z.of_nat (length us) <= a \/ a + 4 * Z.of_nat (length vs) <= b ->
  words_at (stores a vs ws) b us.
Proof. intros H Hd. eapply words_at_ext; [|exact H]. intros x Hx. apply stores_outside. lia. Qed.

(** Storing where words are already keeps the memory's extent. *)
Lemma stores_some vs a ws x : is_Some (ws !! x) -> is_Some (stores a vs ws !! x).
Proof.
  revert a ws. induction vs as [|v vs IH]; intros a ws H; [done|]. apply IH.
  destruct (decide (a = x)) as [->|]; [by rewrite lookup_insert_eq|by rewrite lookup_insert_ne].
Qed.

Lemma words_at_nth ws a vs i v : words_at ws a vs -> vs !! i = Some v -> ws !! (a + 4 * Z.of_nat i) = Some v.
Proof.
  revert a i. induction vs as [|u vs IH]; intros a i Hw Hi; [done|]. destruct Hw as [Hu Hw]. destruct i as [|i]; simplify_eq/=.
  - by rewrite Z.add_0_r.
  - replace (a + 4 * Z.of_nat (S i)) with (a + 4 + 4 * Z.of_nat i) by lia. by apply IH.
Qed.
