(* ===== verification/Switch.v ===== *)
(** * Switch: the context switch

    The exception handlers of [arch/arm-m/arch.c], instruction by instruction, on the
    registers of the processor and the kernel of [Sched], whose [words] are the memory
    of the stacks.  The processor itself saves eight words of a thread at the process
    stack pointer when it takes an exception, and loads them when the handler returns
    (the exception frame of ARMv6-M: r0 to r3, r12, lr, pc, xPSR); the handlers save
    r4 to r11 in the eight words below. *)
From S2P Require Import Prelude ListApi Fw Sched.

Section Handlers.
Context {S L : Type} `{LA : ListApi S L} (queue_off : Z).
Abbreviation sys := (Sched.sys (S := S) (L := L)).

(** The registers r0 to r12, the process stack pointer, the words pushed on the main
    stack (the last one first), and the kernel. *)
Record cpu := mk_cpu { reg : Z -> Z; psp : Z; msp : list Z; kern : sys }.

Definition on_kern {A} (c : M sys A) : M cpu A := fun s =>
  match c (kern s) with Ok a k => Ok a (mk_cpu (reg s) (psp s) (msp s) k) | Fault f => Fault f end.

Definition get_reg (r : Z) : M cpu Z := gets (fun s => reg s r).
Definition set_reg (r v : Z) : M cpu unit := modify (fun s => mk_cpu (upd (reg s) r (u32 v)) (psp s) (msp s) (kern s)).
Definition read_word (a : Z) : M sys Z := deref (fun s => words s !! a).

(** *** Instructions *)

(** PUSH {lr}, POP {pc}: the value is EXC_RETURN, with which the exception returns. *)
Definition PUSH (lr : Z) : M cpu unit := modify (fun s => mk_cpu (reg s) (psp s) (lr :: msp s) (kern s)).
Definition POP : M cpu Z :=
  let! v := deref (fun s => hd_error (msp s)) in
  run! modify (fun s => mk_cpu (reg s) (psp s) (tl (msp s)) (kern s)) in ret v.

Definition MRS_PSP (rd : Z) : M cpu unit := let! v := gets psp in set_reg rd v.
Definition MSR_PSP (rs : Z) : M cpu unit := let! v := get_reg rs in modify (fun s => mk_cpu (reg s) v (msp s) (kern s)).
Definition SUBS (rd n : Z) : M cpu unit := let! v := get_reg rd in set_reg rd (v - n).
Definition ADDS (rd n : Z) : M cpu unit := let! v := get_reg rd in set_reg rd (v + n).
Definition MOV (rd rs : Z) : M cpu unit := let! v := get_reg rs in set_reg rd v.

(** STMIA rn!, {rs} and LDMIA rn!, {rs}, the lowest register at the lowest address. *)
Fixpoint STMIA (rn : Z) (rs : list Z) : M cpu unit :=
  match rs with
  | [] => ret tt
  | r :: rs =>
      let! a := get_reg rn in
      let! v := get_reg r in
      run! on_kern (write_word a v) in
      run! set_reg rn (a + 4) in
      STMIA rn rs
  end.

Fixpoint LDMIA (rn : Z) (rs : list Z) : M cpu unit :=
  match rs with
  | [] => ret tt
  | r :: rs =>
      let! a := get_reg rn in
      let! v := on_kern (read_word a) in
      run! set_reg r v in
      run! set_reg rn (a + 4) in
      LDMIA rn rs
  end.

Definition CPSIE : M cpu unit := on_kern scheduler_unlock.

(** A call of a C function of one argument: the result is in r0, and the registers a
    function need not keep hold what [clobbered] says. *)
Definition BL (clobbered : Z -> Z) (f : Z -> M sys Z) : M cpu unit :=
  let! a := get_reg 0 in
  let! v := on_kern (f a) in
  run! set_reg 0 v in
  run! set_reg 1 (clobbered 1) in
  run! set_reg 2 (clobbered 2) in
  run! set_reg 3 (clobbered 3) in
  set_reg 12 (clobbered 12).

(** *** The handlers *)

(** "Save state": r4 to r11 below the frame of the processor; r0 is the argument of
    the call. *)
Definition save_state (lr : Z) : M cpu unit :=
  run! PUSH lr in
  run! MRS_PSP 3 in
  run! SUBS 3 32 in
  run! MOV 0 3 in
  run! STMIA 3 [4; 5; 6; 7] in
  run! MOV 4 8 in
  run! MOV 5 9 in
  run! MOV 6 10 in
  run! MOV 7 11 in
  STMIA 3 [4; 5; 6; 7].

(** "Restore state" and "Exit": the stack to go on with is in r0. *)
Definition restore_state : M cpu Z :=
  run! ADDS 0 16 in
  run! LDMIA 0 [4; 5; 6; 7] in
  run! MOV 8 4 in
  run! MOV 9 5 in
  run! MOV 10 6 in
  run! MOV 11 7 in
  run! SUBS 0 32 in
  run! LDMIA 0 [4; 5; 6; 7] in
  run! ADDS 0 16 in
  run! MSR_PSP 0 in
  run! CPSIE in
  POP.

(** The processor has cleared the request when the handler starts. *)
Definition arch_handle_pendsv (lr : Z) (clobbered : Z -> Z) : M cpu Z :=
  run! on_kern (modify (fun s => set_pendsv s false)) in
  run! save_state lr in
  run! BL clobbered (schedule queue_off) in
  restore_state.

(** [dispatch] is [arch_dispatch_irq] ([Irq]), which returns its argument. *)
Definition arch_handle_irq (lr : Z) (clobbered : Z -> Z) (dispatch : Z -> M sys Z) : M cpu Z :=
  run! save_state lr in
  run! BL clobbered dispatch in
  restore_state.

(** [arch_init_idle_thread], less the registration of the hard fault handler:
    [idle_stack] has 68 bytes. *)
Definition arch_init_idle_thread (idle_thread idle_name idle_stack arch_idle_thread : Z) : M sys unit :=
  run! thread_struct_init queue_off NULL idle_thread idle_name 68 idle_stack in
  run! thread_set_function idle_thread arch_idle_thread 0 0 in
  scheduler_set_idle_thread idle_thread.
End Handlers.
Arguments mk_cpu {S L}. Arguments reg {S L}. Arguments psp {S L}. Arguments msp {S L}. Arguments kern {S L}.
