(* ===== verification/SwitchSpec.v ===== *)
(** * SwitchSpec: every thread gets its registers back

    What the handlers save and restore ([save_state_run], [restore_run]), the context a new
    thread starts with, and the runs in which threads and reschedules take turns. *)
From S2P Require Import Prelude ListApi DList Fw Sched Semaphore SchedSpec SchedRun SchedProps Words Switch.

Section Spec.
Context {S L : Type} `{LA : ListApi S L} (queue_off : Z).
Abbreviation sys := (Sched.sys (S := S) (L := L)).
Abbreviation cpu := (Switch.cpu (S := S) (L := L)).

(** ** Instructions *)

(** The registers of [m] are those of [g], and the rest. *)
Record is_cpu (m : cpu) (g : Z -> Z) (p : Z) (ms : list Z) (k : sys) : Prop := {
  ic_reg r : reg m r = g r;
  ic_psp : psp m = p;
  ic_msp : msp m = ms;
  ic_kern : kern m = k }.

(** [c] returns [a] from every such state, in a state of the given form. *)
Definition takes {A} (c : M cpu A) g p ms k (a : A) g' p' ms' k' : Prop :=
  forall m, is_cpu m g p ms k -> exists m', c m = Ok a m' /\ is_cpu m' g' p' ms' k'.

Lemma takes_bind {A B} (c : M cpu A) (f : A -> M cpu B) g p ms k a g1 p1 ms1 k1 b g2 p2 ms2 k2 :
  takes c g p ms k a g1 p1 ms1 k1 -> takes (f a) g1 p1 ms1 k1 b g2 p2 ms2 k2 ->
  takes (bind c f) g p ms k b g2 p2 ms2 k2.
Proof.
  intros Hc Hf m Hm. destruct (Hc m Hm) as (m1 & E1 & H1). destruct (Hf m1 H1) as (m2 & E2 & H2).
  exists m2. split; [|done]. by rewrite (bind_ok _ _ _ _ _ E1).
Qed.

Lemma takes_gets {A} (f : cpu -> A) g p ms k a : (forall m, is_cpu m g p ms k -> f m = a) -> takes (gets f) g p ms k a g p ms k.
Proof. intros H m Hm. exists m. split; [|done]. unfold gets. by rewrite (H m Hm). Qed.

Lemma takes_set r v g p ms k : in_u 32 v -> takes (set_reg r v) g p ms k tt (upd g r v) p ms k.
Proof.
  intros Hv m []. eexists. split; [reflexivity|]. split; simpl; [|done..]. intros x. unfold upd. rewrite (wrap_id 32 v) by done.
  by destruct (x =? r).
Qed.

Lemma takes_get r g p ms k : takes (get_reg r) g p ms k (g r) g p ms k.
Proof. apply takes_gets. intros m []. done. Qed.

Lemma takes_kern {A} (c : M sys A) g p ms k a k' : c k = Ok a k' -> takes (on_kern c) g p ms k a g p ms k'.
Proof.
  intros E m [Hr Hp Hm Hk]. unfold on_kern. rewrite Hk, E. eexists. split; [reflexivity|]. by split.
Qed.

Lemma takes_MOV rd rs g p ms k : in_u 32 (g rs) -> takes (MOV rd rs) g p ms k tt (upd g rd (g rs)) p ms k.
Proof. intros H. eapply takes_bind; [apply takes_get|by apply takes_set]. Qed.

Lemma takes_ADDS rd n g p ms k v : g rd + n = v -> in_u 32 v -> takes (ADDS rd n) g p ms k tt (upd g rd v) p ms k.
Proof. intros <- H. eapply takes_bind; [apply takes_get|by apply takes_set]. Qed.

Lemma takes_SUBS rd n g p ms k v : g rd - n = v -> in_u 32 v -> takes (SUBS rd n) g p ms k tt (upd g rd v) p ms k.
Proof. intros <- H. eapply takes_bind; [apply takes_get|by apply takes_set]. Qed.

Lemma takes_MSR rs g p ms k : takes (MSR_PSP rs) g p ms k tt g (g rs) ms k.
Proof.
  eapply takes_bind; [apply takes_get|]. intros m [Hr Hp Hm Hk]. eexists. split; [reflexivity|]. by split.
Qed.

(** The registers of an STMIA and LDMIA. *)
Lemma takes_STMIA rn rs g p ms k a : rn ∉ rs -> g rn = a -> 0 < a -> a + 4 * Z.of_nat (length rs) < 2 ^ 32 ->
  Forall (fun r => in_u 32 (g r)) rs ->
  exists g', takes (STMIA rn rs) g p ms k tt g' p ms (set_words k (stores a (g <$> rs) (words k))) /\
    g' rn = a + 4 * Z.of_nat (length rs) /\ forall r, r <> rn -> g' r = g r.
Proof.
  revert g k a. induction rs as [|r rs IH]; intros g k a Hn Ha Hpos Hlim Hr.
  - exists g. split; [|split; [simpl; lia|done] ]. intros m Hm. exists m. split; [done|]. destruct Hm. split; try done. by destruct k.
  - apply not_elem_of_cons in Hn as [Hne Hn]. apply Forall_cons in Hr as [Hr Hrs]. cbn [length] in Hlim.
    destruct (IH (upd g rn (a + 4)) (set_words k (<[a := g r]> (words k))) (a + 4)) as (g' & H1 & H2 & H3);
      [done|apply upd_eq|lia|lia| |].
    { rewrite Forall_forall in Hrs |- *. intros x Hx. rewrite upd_ne by (intros ->; done). by apply Hrs. }
    exists g'. split; [|split; [rewrite H2; simpl; lia|intros x Hx; rewrite H3, upd_ne by done; done] ].
    cbn [STMIA]. eapply takes_bind; [apply takes_get|]. eapply takes_bind; [apply takes_get|].
    eapply takes_bind; [|eapply takes_bind].
    + apply takes_kern. unfold write_word. rewrite Ha. rewrite (proj2 (Z.eqb_neq a NULL)) by (unfold NULL; lia).
      rewrite (wrap_id 32 (g r)) by done. reflexivity.
    + rewrite Ha. apply takes_set. unfold in_u. lia.
    + replace (g <$> r :: rs) with (g r :: (upd g rn (a + 4) <$> rs)); [exact H1|]. cbn [fmap list_fmap]. f_equal.
      apply list_fmap_ext. intros i x Hx. apply list_elem_of_lookup_2 in Hx. apply upd_ne. by intros ->.
Qed.

Lemma takes_LDMIA rn rs g p ms k a vs : rn ∉ rs -> NoDup rs -> g rn = a -> 0 < a -> a + 4 * Z.of_nat (length rs) < 2 ^ 32 ->
  length vs = length rs -> Forall (in_u 32) vs -> words_at (words k) a vs ->
  exists g', takes (LDMIA rn rs) g p ms k tt g' p ms k /\
    g' rn = a + 4 * Z.of_nat (length rs) /\ g' <$> rs = vs /\ forall r, r <> rn -> r ∉ rs -> g' r = g r.
Proof.
  revert g a vs. induction rs as [|r rs IH]; intros g a vs Hn Hd Ha Hpos Hlim Hl Hv Hw.
  - destruct vs; [|done]. exists g. split; [|split; [simpl; lia|done] ]. intros m Hm. by exists m.
  - destruct vs as [|v vs]; [done|]. apply not_elem_of_cons in Hn as [Hne Hn]. apply NoDup_cons in Hd as [Hr Hd].
    apply Forall_cons in Hv as [Hv Hvs]. destruct Hw as [E Hw]. cbn [length] in *.
    destruct (IH (upd (upd g r v) rn (a + 4)) (a + 4) vs) as (g' & H1 & H2 & H3 & H4); [done|done|apply upd_eq|lia|lia|lia|done|done|].
    exists g'. split; [|split; [rewrite H2; simpl; lia|split] ].
    + cbn [LDMIA]. eapply takes_bind; [apply takes_get|]. rewrite Ha. eapply takes_bind; [|eapply takes_bind; [|eapply takes_bind] ].
      * apply takes_kern. unfold read_word. apply (deref_ok (fun s : sys => words s !! a)). exact E.
      * by apply takes_set.
      * apply takes_set. unfold in_u. lia.
      * exact H1.
    + cbn [fmap list_fmap]. f_equal; [|exact H3]. rewrite H4 by done. rewrite upd_ne by done. apply upd_eq.
    + intros x Hx Hnx. apply not_elem_of_cons in Hnx as [Hx' Hnx]. rewrite H4 by done. by rewrite !upd_ne by done.
Qed.

(** ** Saving and restoring *)

Ltac not_in := rewrite ?not_elem_of_cons; repeat split; (done || apply not_elem_of_nil).

Lemma four_regs : NoDup [4; 5; 6; 7].
Proof. repeat (apply NoDup_cons; split; [not_in|]). constructor. Qed.

(** The registers a handler saves. *)
Definition kept : list Z := [4; 5; 6; 7; 8; 9; 10; 11].

Lemma save_state_run lr g p ms k : (forall r, in_u 32 (g r)) -> 32 < p < 2 ^ 32 ->
  exists g', takes (save_state lr) g p ms k tt g' p (lr :: ms) (set_words k (stores (p - 32) (g <$> kept) (words k))) /\
    g' 0 = p - 32.
Proof.
  intros Hg Hp. set (g1 := upd (upd g 3 p) 3 (p - 32)). set (g2 := upd g1 0 (p - 32)).
  assert (forall r, in_u 32 (g2 r)) as Hg2.
  { intros r. unfold g2, g1, upd. repeat case_match; try apply Hg; unfold in_u; lia. }
  destruct (takes_STMIA 3 [4; 5; 6; 7] g2 p (lr :: ms) k (p - 32)) as (g3 & H3 & E3 & K3);
    [not_in|done|lia|simpl; lia|by apply Forall_forall|].
  set (g4 := upd g3 4 (g3 8)). set (g5 := upd g4 5 (g4 9)). set (g6 := upd g5 6 (g5 10)). set (g7 := upd g6 7 (g6 11)).
  assert (forall r, r <> 3 -> in_u 32 (g3 r)) as Hg3 by (intros r Hr; rewrite K3; auto).
  assert (g7 <$> [4; 5; 6; 7] = g <$> [8; 9; 10; 11]) as E7.
  { unfold g7, g6, g5, g4. cbn. rewrite !K3 by done. done. }
  set (k1 := set_words k (stores (p - 32) (g2 <$> [4; 5; 6; 7]) (words k))) in *.
  destruct (takes_STMIA 3 [4; 5; 6; 7] g7 p (lr :: ms) k1 (p - 16)) as (g8 & H8 & _ & K8); [not_in| |lia|simpl; lia| |].
  { transitivity (g3 3); [done|]. rewrite E3. simpl. lia. }
  { repeat constructor; apply Hg3; done. }
  exists g8. split.
  - unfold save_state. eapply takes_bind.
    { intros m [? ? Hm ?]. eexists. split; [reflexivity|]. split; simpl; try done. by rewrite Hm. }
    eapply takes_bind; [eapply takes_bind; [by apply takes_gets; intros m []|apply takes_set; unfold in_u; lia]|].
    eapply takes_bind; [apply (takes_SUBS _ _ _ _ _ _ (p - 32)); [apply f_equal2; [apply upd_eq|done]|unfold in_u; lia]|].
    eapply takes_bind; [apply takes_MOV; rewrite upd_eq; unfold in_u; lia|].
    rewrite upd_eq. fold g1. fold g2. eapply takes_bind; [exact H3|].
    eapply takes_bind; [apply takes_MOV, Hg3; done|]. fold g4.
    eapply takes_bind; [apply takes_MOV; apply Hg3; done|]. fold g5.
    eapply takes_bind; [apply takes_MOV; apply Hg3; done|]. fold g6.
    eapply takes_bind; [apply takes_MOV; apply Hg3; done|]. fold g7.
    replace (set_words k (stores (p - 32) (g <$> kept) (words k))) with (set_words k1 (stores (p - 16) (g7 <$> [4; 5; 6; 7]) (words k1))); [exact H8|].
    rewrite E7. unfold k1. change (words (set_words k ?w)) with w. replace (p - 16) with (p - 32 + 4 * 4) by lia.
    change (g2 <$> [4; 5; 6; 7]) with (g <$> [4; 5; 6; 7]). change (g <$> kept) with ((g <$> [4; 5; 6; 7]) ++ (g <$> [8; 9; 10; 11])).
    by rewrite stores_app.
  - rewrite K8 by done. transitivity (g3 0); [done|]. by rewrite K3.
Qed.

Lemma restore_run lr g sp p ms k vs : g 0 = sp -> 0 < sp -> sp + 32 < 2 ^ 32 -> length vs = 8%nat -> Forall (in_u 32) vs ->
  words_at (words k) sp vs ->
  exists g', takes restore_state g p (lr :: ms) k lr g' (sp + 32) ms (set_irqs_off k false) /\ g' <$> kept = vs.
Proof.
  intros H0 Hpos Hlim Hl Hv Hw. destruct vs as [|v4 [|v5 [|v6 [|v7 vs] ] ] ]; try done.
  change (v4 :: v5 :: v6 :: v7 :: vs) with ([v4; v5; v6; v7] ++ vs) in Hw, Hv. apply words_at_app in Hw as [Hw1 Hw2].
  apply Forall_app in Hv as [Hv1 Hv2]. change (sp + 4 * Z.of_nat (length [v4; v5; v6; v7])) with (sp + 16) in Hw2.
  destruct (takes_LDMIA 0 [4; 5; 6; 7] (upd g 0 (sp + 16)) p (lr :: ms) k (sp + 16) vs) as (g1 & H1 & E1 & L1 & K1);
    [not_in|exact four_regs|apply upd_eq|lia|simpl; lia|simpl in *; lia|done|done|].
  destruct vs as [|v8 [|v9 [|v10 [|v11 [|] ] ] ] ]; try done. cbn in L1. injection L1 as L4 L5 L6 L7.
  set (g2 := upd (upd (upd (upd g1 8 (g1 4)) 9 (g1 5)) 10 (g1 6)) 11 (g1 7)).
  destruct (takes_LDMIA 0 [4; 5; 6; 7] (upd g2 0 sp) p (lr :: ms) k sp [v4; v5; v6; v7]) as (g3 & H3 & E3 & L3 & K3);
    [not_in|exact four_regs|apply upd_eq|lia|simpl; lia|done|done|done|].
  cbn in L3. injection L3 as M4 M5 M6 M7. rewrite !Forall_cons in Hv1, Hv2.
  exists (upd g3 0 (sp + 32)). split.
  - unfold restore_state. eapply takes_bind; [apply (takes_ADDS _ _ _ _ _ _ (sp + 16)); [by rewrite H0|unfold in_u; lia]|].
    eapply takes_bind; [exact H1|].
    eapply takes_bind; [apply takes_MOV; rewrite L4; tauto|]. eapply takes_bind; [apply takes_MOV; unfold upd; cbn; rewrite L5; tauto|].
    eapply takes_bind; [apply takes_MOV; unfold upd; cbn; rewrite L6; tauto|]. eapply takes_bind; [apply takes_MOV; unfold upd; cbn; rewrite L7; tauto|].
    change (takes _ ?h) with (takes (run! SUBS 0 32 in run! LDMIA 0 [4; 5; 6; 7] in run! ADDS 0 16 in run! MSR_PSP 0 in run! CPSIE in POP) g2).
    eapply takes_bind; [apply (takes_SUBS _ _ _ _ _ _ sp); [transitivity (g1 0 - 32); [done|]; rewrite E1; simpl; lia|unfold in_u; lia]|].
    eapply takes_bind; [exact H3|].
    eapply takes_bind; [apply (takes_ADDS _ _ _ _ _ _ (sp + 32)); [rewrite E3; simpl; lia|unfold in_u; lia]|].
    eapply takes_bind; [apply takes_MSR|]. rewrite upd_eq.
    eapply takes_bind; [by apply takes_kern|].
    eapply takes_bind; [|eapply takes_bind; [|by intros m Hm; exists m] ].
    + intros m Hm. exists m. split; [|exact Hm]. apply (deref_ok (fun s => hd_error (msp s))). destruct Hm as [_ _ -> _]. done.
    + intros m [? ? Hm ?]. eexists. split; [reflexivity|]. split; simpl; try done. by rewrite Hm.
  - unfold kept, upd. cbn. rewrite M4, M5, M6, M7. rewrite !K3 by (done || not_in).
    unfold g2, upd. cbn. by rewrite L4, L5, L6, L7.
Qed.

(** ** Kernel calls leave the stacks alone *)

(** [c] writes no word and moves no stack pointer. *)
Definition calm {A} (c : M sys A) : Prop := forall s a s', c s = Ok a s' ->
  words s' = words s /\ forall t, stack <$> threads s' !! t = stack <$> threads s !! t.

Lemma calm_ret {A} (a : A) : calm (ret a).
Proof. by intros s a' s' [= _ <-]. Qed.
Lemma calm_fail {A} f : calm (fail f : M sys A).
Proof. by intros s a' s'. Qed.
Lemma calm_gets {A} (f : sys -> A) : calm (gets f).
Proof. by intros s a' s' [= _ <-]. Qed.
Lemma calm_deref {A} (f : sys -> option A) : calm (deref f).
Proof. intros s a' s'. unfold deref. case_match; [by intros [= _ <-]|done]. Qed.
Lemma calm_modify (f : sys -> sys) : (forall s, words (f s) = words s /\ threads (f s) = threads s) -> calm (modify f).
Proof. intros H s a' s' [= _ <-]. destruct (H s) as [-> ->]. done. Qed.
Lemma calm_bind {A B} (c : M sys A) (k : A -> M sys B) : calm c -> (forall a, calm (k a)) -> calm (bind c k).
Proof.
  intros Hc Hk s b s'. unfold bind. destruct (c s) as [a s1|] eqn:E; [|done]. intros E2.
  destruct (Hc _ _ _ E) as [W1 T1]. destruct (Hk _ _ _ _ E2) as [W2 T2]. split; [congruence|]. intros t. by rewrite T2.
Qed.
Lemma calm_if {A} (b : bool) (c d : M sys A) : calm c -> calm d -> calm (if b then c else d).
Proof. by destruct b. Qed.
End Spec.

Create HintDb calm.
#[export] Hint Resolve calm_ret calm_fail calm_gets calm_deref calm_bind calm_if : calm.
#[export] Hint Extern 1 (calm (modify _)) => (apply calm_modify; by intros []) : calm.

Section Calls.
Context {S L : Type} `{LA : ListApi S L} (queue_off : Z).
Abbreviation sys := (Sched.sys (S := S) (L := L)).

Lemma calm_on_list proj put op : (forall s l, words (put s l) = words s /\ threads (put s l) = threads s) ->
  calm (on_list proj put op : M sys unit).
Proof.
  intros H. unfold on_list. apply calm_bind; [auto with calm|]. intros r. apply calm_modify. intros s. apply (H s r.1).
Qed.

Lemma calm_on_entries op : calm (on_entries op : M sys unit).
Proof. unfold on_entries. auto with calm. Qed.
#[local] Hint Resolve calm_on_entries : calm.
#[local] Hint Extern 1 (calm (on_list _ _ _)) => (apply calm_on_list; by intros []) : calm.

Lemma calm_changed_state t o n : calm (scheduler_thread_changed_state queue_off t o n : M sys unit).
Proof.
  unfold scheduler_thread_changed_state, scheduler_lock, scheduler_unlock, yield. auto 10 with calm.
Qed.
#[local] Hint Resolve calm_changed_state : calm.

Lemma calm_set_state t n : calm (thread_set_state queue_off t n : M sys unit).
Proof.
  unfold thread_set_state. intros s a s'. unfold get_thread, bind at 1, deref. destruct (threads s !! t) as [th|] eqn:Et; [|done].
  unfold bind at 1, put_thread, modify. intros E. apply calm_changed_state in E as [Ew Es]. simpl in *.
  split; [done|]. intros t'. rewrite Es. destruct (decide (t' = t)) as [->|]; [by rewrite lookup_insert_eq, Et|by rewrite lookup_insert_ne].
Qed.
#[local] Hint Resolve calm_set_state : calm.

(** The calls a thread or a handler makes. *)
Definition is_call (e : kevent) : bool :=
  match e with KInit _ _ | KCreate _ _ _ _ _ | KPendSV _ => false | _ => true end.

Lemma calm_call e : is_call e = true -> calm (run_event queue_off e : M sys unit).
Proof.
  destruct e; try done; intros _; cbn [run_event];
    unfold scheduler_set_idle_thread, semaphore_init, semaphore_wait, semaphore_signal, signal_count, signal_first, signal_wake,
      on_queue, get_sem, put_sem, thread_wakeup, thread_stop, thread_block, scheduler_lock, scheduler_unlock, yield,
      scheduler_current_thread;
    auto 15 with calm.
Qed.

Lemma calm_calls es : Forall (fun e => is_call e = true) es -> calm (run_events queue_off es : M sys unit).
Proof. induction 1 as [|e es He _ IH]; cbn [run_events]; [apply calm_ret|]. apply calm_bind; [by apply calm_call|done]. Qed.
End Calls.

(** ** Registers are words *)

Section Words.
Context {S L : Type} `{LA : ListApi S L} (queue_off : Z).
Abbreviation sys := (Sched.sys (S := S) (L := L)).
Abbreviation cpu := (Switch.cpu (S := S) (L := L)).

Definition word_regs (m : cpu) : Prop := forall r, in_u 32 (reg m r).
Definition keeps_words {A} (c : M cpu A) : Prop := forall m a m', c m = Ok a m' -> word_regs m -> word_regs m'.

Lemma kw_ret {A} (a : A) : keeps_words (ret a).
Proof. by intros m a' m' [= _ <-]. Qed.
Lemma kw_gets {A} (f : cpu -> A) : keeps_words (gets f).
Proof. by intros m a' m' [= _ <-]. Qed.
Lemma kw_deref {A} (f : cpu -> option A) : keeps_words (deref f).
Proof. intros m a' m'. unfold deref. case_match; [by intros [= _ <-]|done]. Qed.
Lemma kw_bind {A B} (c : M cpu A) (k : A -> M cpu B) : keeps_words c -> (forall a, keeps_words (k a)) -> keeps_words (bind c k).
Proof.
  intros Hc Hk m b m'. unfold bind. destruct (c m) as [a m1|] eqn:E; [|done]. intros E2 Hm.
  eapply Hk; [exact E2|]. by eapply Hc.
Qed.
Lemma kw_kern {A} (c : M sys A) : keeps_words (on_kern c).
Proof. intros m a m'. unfold on_kern. case_match; [|done]. by intros [= _ <-]. Qed.
Lemma kw_set r v : keeps_words (set_reg r v).
Proof.
  intros m a m' [= _ <-] Hm x. simpl. unfold upd. case_match; [|apply Hm]. apply wrap_range. lia.
Qed.
Lemma kw_same (f : cpu -> cpu) : (forall m, reg (f m) = reg m) -> keeps_words (modify f).
Proof. intros H m a m' [= _ <-] Hm r. rewrite H. apply Hm. Qed.
End Words.

#[export] Hint Resolve kw_ret kw_gets kw_deref kw_bind kw_kern kw_set : calm.
#[export] Hint Extern 1 (keeps_words (modify _)) => (apply kw_same; by intros []) : calm.

Section Handlers.
Context {S L : Type} `{LA : ListApi S L} (queue_off : Z).
Abbreviation sys := (Sched.sys (S := S) (L := L)).
Abbreviation cpu := (Switch.cpu (S := S) (L := L)).

Lemma kw_STMIA rn rs : keeps_words (STMIA rn rs : M cpu unit).
Proof. induction rs; cbn [STMIA]; unfold get_reg; auto 10 with calm. Qed.
Lemma kw_LDMIA rn rs : keeps_words (LDMIA rn rs : M cpu unit).
Proof. induction rs; cbn [LDMIA]; unfold get_reg; auto 10 with calm. Qed.
#[local] Hint Resolve kw_STMIA kw_LDMIA : calm.

Lemma kw_pendsv lr clob : keeps_words (arch_handle_pendsv queue_off lr clob : M cpu Z).
Proof.
  unfold arch_handle_pendsv, save_state, restore_state, BL, PUSH, POP, MRS_PSP, MSR_PSP, SUBS, ADDS, MOV, CPSIE, get_reg.
  auto 40 with calm.
Qed.

Lemma kw_irq lr clob dispatch : keeps_words (arch_handle_irq lr clob dispatch : M cpu Z).
Proof.
  unfold arch_handle_irq, save_state, restore_state, BL, PUSH, POP, MRS_PSP, MSR_PSP, SUBS, ADDS, MOV, CPSIE, get_reg.
  auto 40 with calm.
Qed.

(** A call, with whatever it leaves in r1 to r3 and r12. *)
Lemma takes_BL clob (f : Z -> M sys Z) g p ms k (v : Z) k' : f (g 0) k = Ok v k' -> in_u 32 v ->
  exists g', takes (BL clob f) g p ms k tt g' p ms k' /\ g' 0 = v /\ forall r, r ∉ [0; 1; 2; 3; 12] -> g' r = g r.
Proof.
  intros E Hv. exists (upd (upd (upd (upd (upd g 0 v) 1 (u32 (clob 1))) 2 (u32 (clob 2))) 3 (u32 (clob 3))) 12 (u32 (clob 12))).
  assert (forall r g, takes (set_reg r (clob r) : M cpu unit) g p ms k' tt (upd g r (u32 (clob r))) p ms k') as Hset.
  { intros r h m [Hr Hp Hm Hk]. eexists. split; [reflexivity|]. split; simpl; try done. intros x. unfold upd. by case_match. }
  split; [|split; [done|] ].
  - unfold BL. eapply takes_bind; [apply takes_get|]. eapply takes_bind; [apply takes_kern, E|].
    eapply takes_bind; [by apply takes_set|]. eapply takes_bind; [apply Hset|]. eapply takes_bind; [apply Hset|].
    eapply takes_bind; [apply Hset|]. apply Hset.
  - intros r Hr. rewrite !not_elem_of_cons in Hr. rewrite !upd_ne by tauto. done.
Qed.

(** The words of a handler: the stack it is on, the function it calls, the stack it goes
    on with. *)
Lemma handler_run (c : Z -> M sys Z) lr clob (m : cpu) k1 sp k2 vs :
  let p := psp m in
  let regs := reg m <$> kept in
  word_regs m -> 32 < p < 2 ^ 32 ->
  k1 = set_words (kern m) (stores (p - 32) regs (words (kern m))) ->
  c (p - 32) k1 = Ok sp k2 -> 0 < sp -> sp + 32 < 2 ^ 32 -> length vs = 8%nat -> Forall (in_u 32) vs -> words_at (words k2) sp vs ->
  exists m', (run! save_state lr in run! BL clob c in restore_state) m = Ok lr m' /\ psp m' = sp + 32 /\ msp m' = msp m /\
    kern m' = set_irqs_off k2 false /\ reg m' <$> kept = vs.
Proof.
  intros p regs Hm Hp -> Ec Hsp Hlim Hl Hv Hw.
  destruct (save_state_run lr (reg m) p (msp m) (kern m) Hm Hp) as (g1 & T1 & E1).
  destruct (takes_BL clob c g1 p (lr :: msp m) _ sp k2 ltac:(rewrite E1; exact Ec) ltac:(unfold in_u; lia)) as (g2 & T2 & E2 & _).
  destruct (restore_run lr g2 sp p (msp m) k2 vs E2 Hsp Hlim Hl Hv Hw) as (g3 & T3 & E3).
  assert (takes (run! save_state lr in run! BL clob c in restore_state) (reg m) p (msp m) (kern m) lr g3 (sp + 32) (msp m) (set_irqs_off k2 false)) as T.
  { eapply takes_bind; [exact T1|]. eapply takes_bind; [exact T2|exact T3]. }
  destruct (T m) as (m' & E & [Hr Hp' Hms Hk]); [by split|].
  exists m'. split; [exact E|]. split; [done|]. split; [done|]. split; [done|]. rewrite <-E3. apply list_fmap_ext. intros i x _. apply Hr.
Qed.
End Handlers.

(** ** Runs of threads *)

Section World.
Context {S L : Type} `{LA : ListApi S L} (queue_off : Z).
Abbreviation sys := (Sched.sys (S := S) (L := L)).
Abbreviation cpu := (Switch.cpu (S := S) (L := L)).
Abbreviation rep := (rep queue_off).
Abbreviation wf_kernel := (wf_kernel queue_off).
Abbreviation ok_event := (ok_event queue_off).

(** The processor, the abstract kernel it represents, and the context of each thread
    that does not run: its stack pointer and the 16 words there, r4 to r11 and the
    frame of the processor. *)
Record world := mk_world { wcpu : cpu; wker : kernel; ctxs : gmap Z (Z * list Z) }.
Abbreviation wsys w := (kern (wcpu w)).

Definition with_kern (m : cpu) (s : sys) : cpu := mk_cpu (reg m) (psp m) (msp m) s.

(** The context is in memory. *)
Record holds_ctx (s : sys) (t sp : Z) (ctx : list Z) : Prop := {
  hc_stack : stack <$> threads s !! t = Some sp;
  hc_words : words_at (words s) sp ctx;
  hc_length : length ctx = 16%nat;
  hc_range : Forall (in_u 32) ctx;
  hc_sp : 0 < sp /\ sp + 64 < 2 ^ 32 }.

Record inv (w : world) : Prop := {
  inv_rep : rep (wsys w) (wker w);
  inv_wf : wf_kernel (wker w);
  inv_irq : irqs_off (wsys w) = false;
  inv_regs : word_regs (wcpu w);
  inv_ctxs t sp ctx : ctxs w !! t = Some (sp, ctx) -> t <> k_cur (wker w) -> holds_ctx (wsys w) t sp ctx }.

(** The memory from [a] up to [b] holds no context of a thread that does not run. *)
Definition clear_of (w : world) (a b : Z) : Prop :=
  forall t sp ctx, ctxs w !! t = Some (sp, ctx) -> t <> k_cur (wker w) -> sp + 64 <= a \/ b <= sp.

(** What PendSV finds: the frame the processor has stored, on a stack of its own. *)
Record switch_ready (w : world) (frame : list Z) : Prop := {
  sr_psp : 32 < psp (wcpu w) < 2 ^ 32 - 64;
  sr_frame : words_at (words (wsys w)) (psp (wcpu w)) frame;
  sr_length : length frame = 8%nat;
  sr_range : Forall (in_u 32) frame;
  sr_clear : clear_of w (psp (wcpu w) - 32) (psp (wcpu w) + 32);
  sr_ok : ok_event (KPendSV (psp (wcpu w) - 32)) (wsys w) (wker w) }.

(** The contexts when the current thread is suspended. *)
Definition suspended (w : world) (frame : list Z) : gmap Z (Z * list Z) :=
  <[k_cur (wker w) := (psp (wcpu w) - 32, (reg (wcpu w) <$> kept) ++ frame)]> (ctxs w).

(** The context [thread_create] and [thread_set_function] prepare: the processor loads
    the argument into r0 and goes on at the function. *)
Definition initial_context (func arg : Z) : list Z :=
  replicate 8 kStackProtector ++
  [arg; kStackProtector; kStackProtector; kStackProtector; kStackProtector; 0xFFFFFFFE; func; 0x01000000].

Definition create_thread (t memory nm size func arg : Z) : M sys unit :=
  run! thread_create queue_off t memory nm size NULL in thread_set_function t func 1 arg.

(** The function an interrupt handler calls: a device's handler makes calls. *)
Definition dispatch (es : list kevent) (st : Z) : M sys Z :=
  run! scheduler_enter_isr in
  run! run_events queue_off es in
  run! scheduler_leave_isr in
  ret st.

Inductive wstep (w : world) : world -> Prop :=
| ws_run g p ws : word_regs (mk_cpu g p (msp (wcpu w)) (wsys w)) ->
    (forall t sp ctx x, ctxs w !! t = Some (sp, ctx) -> t <> k_cur (wker w) -> sp <= x < sp + 64 -> ws !! x = words (wsys w) !! x) ->
    wstep w (mk_world (mk_cpu g p (msp (wcpu w)) (set_words (wsys w) ws)) (wker w) (ctxs w))
| ws_call e s' : is_call e = true -> ok_event e (wsys w) (wker w) -> run_event queue_off e (wsys w) = Ok tt s' ->
    wstep w (mk_world (with_kern (wcpu w) s') (spec_event (wker w) e) (ctxs w))
| ws_irq lr clob es m' : Forall (fun e => is_call e = true) es ->
    (forall ws c, ok_events queue_off es (set_isr (set_words (wsys w) ws) c) (wker w)) ->
    32 < psp (wcpu w) < 2 ^ 32 -> clear_of w (psp (wcpu w) - 32) (psp (wcpu w)) ->
    arch_handle_irq lr clob (dispatch es) (wcpu w) = Ok lr m' ->
    wstep w (mk_world m' (foldl spec_event (wker w) es) (ctxs w))
| ws_create t memory nm size func arg s' :
    ok_event (KCreate t memory nm size NULL) (wsys w) (wker w) -> t <> k_cur (wker w) ->
    68 <= size -> size mod 4 = 0 -> memory + size + 4 < 2 ^ 32 -> clear_of w memory (memory + size + 4) ->
    in_u 32 func -> in_u 32 arg -> create_thread t memory nm size func arg (wsys w) = Ok tt s' ->
    wstep w (mk_world (with_kern (wcpu w) s') (a_create t (wker w)) (<[t := (memory + size - 60, initial_context func arg)]> (ctxs w)))
| ws_switch lr clob frame m' : switch_ready w frame ->
    is_Some (suspended w frame !! k_cur (a_schedule (wker w))) ->
    arch_handle_pendsv queue_off lr clob (wcpu w) = Ok lr m' ->
    wstep w (mk_world m' (a_schedule (a_pend false (wker w))) (suspended w frame)).

Lemma rep_words s ws k : rep s k -> rep (set_words s ws) k.
Proof. intros []. by split. Qed.
Lemma rep_set_irqs s b k : rep s k -> rep (set_irqs_off s b) k.
Proof. intros []. by split. Qed.
Lemma rep_isr s n k : rep s k -> rep (set_isr s n) k.
Proof. intros []. by split. Qed.

Lemma holds_kept s s' t sp ctx : holds_ctx s t sp ctx -> stack <$> threads s' !! t = stack <$> threads s !! t ->
  (forall x, sp <= x < sp + 64 -> words s' !! x = words s !! x) -> holds_ctx s' t sp ctx.
Proof.
  intros [H1 H2 H3 H4 H5] Et Ew. split; try done; [congruence|]. eapply words_at_ext; [|exact H2]. intros x Hx. apply Ew. lia.
Qed.

Lemma run_switch w frame lr clob sp ctx : inv w -> switch_ready w frame ->
  suspended w frame !! k_cur (a_schedule (wker w)) = Some (sp, ctx) ->
  exists m', arch_handle_pendsv queue_off lr clob (wcpu w) = Ok lr m' /\ psp m' = sp + 32 /\ msp m' = msp (wcpu w) /\
    reg m' <$> kept = take 8 ctx /\ words_at (words (kern m')) (sp + 32) (drop 8 ctx) /\
    inv (mk_world m' (a_schedule (a_pend false (wker w))) (suspended w frame)).
Proof.
  intros [Hr Hw Hi Hg Hc] [Hp Hf Hfl Hfr Hcl Hok] Hnext. destruct w as [m k cs]. cbn [wcpu wker ctxs] in *.
  set (p := psp m) in *. set (regs := reg m <$> kept) in *. set (s := kern m) in *.
  destruct Hok as (Hsp & (th & Hth & Hlt & Hint) & Hin).
  set (ws := stores (p - 32) regs (words s)).
  set (s1 := set_words (set_pendsv s false) ws).
  assert (length regs = 8%nat) as Hrl by done.
  assert (stack_intact s1 th) as Hint1.
  { destruct Hint as [Hz|Hint]; [by left|]. right. change (words s1) with (stores (p - 32) regs (words s)). rewrite stores_outside by lia. exact Hint. }
  assert (wf_kernel (a_pend false k)) as Hwp by (by eapply wf_same; [..|exact Hw]).
  destruct (schedule_refines queue_off s1 (a_pend false k) (p - 32) th _ (rep_words _ ws _ (rep_pend_set queue_off s k false Hr))
              (wk_threads _ _ Hwp) Hsp Hth Hlt Hint1 eq_refl) as (s2 & Erun & Hr2 & Hi2 & Et2 & _ & Ew2).
  { by apply (wk_dom _ k (wk_threads _ _ Hw)). }
  set (next := k_cur (a_schedule (a_pend false k))) in *. change (k_cur (a_schedule k)) with next in Hnext.
  change (k_cur (a_pend false k)) with (k_cur k) in Et2. change (words s1) with ws in Ew2.
  (* every saved context is in the new memory *)
  assert (forall t sp ctx, suspended (mk_world m k cs) frame !! t = Some (sp, ctx) -> holds_ctx s2 t sp ctx) as Hall.
  { intros t sp' ctx'. unfold suspended. cbn [wker wcpu ctxs]. fold p regs.
    intros [ [<- E]|[Hne Ht] ]%lookup_insert_Some.
    - apply (pair_equal_spec (p - 32) sp' (regs ++ frame) ctx') in E as [<- <-]. split; [by rewrite Et2, lookup_insert_eq| |by rewrite length_app, Hrl, Hfl|apply Forall_app; split; [|done]|lia].
      + rewrite Ew2. apply words_at_app. split; [apply stores_at|]. rewrite Hrl. replace (p - 32 + 4 * Z.of_nat 8) with p by lia.
        apply stores_kept; [exact Hf|]. rewrite Hfl, Hrl. lia.
      + apply Forall_fmap, Forall_forall. intros r _. apply Hg.
    - pose proof (Hc t sp' ctx' Ht (not_eq_sym Hne)) as Hh. destruct (Hcl t sp' ctx' Ht (not_eq_sym Hne)) as [Hd|Hd];
        (apply (holds_kept s); [exact Hh|rewrite Et2, lookup_insert_ne by done; done|]);
        intros x Hx; rewrite Ew2; apply stores_outside; rewrite Hrl; lia. }
  destruct (Hall _ _ _ Hnext) as [Hst Hws Hlen Hrange Hlim].
  assert (words_at (words s2) sp (take 8 ctx) /\ words_at (words s2) (sp + 32) (drop 8 ctx)) as [Hw1 Hw2].
  { rewrite <-(take_drop 8 ctx) in Hws. apply words_at_app in Hws as [H1 H2]. split; [exact H1|].
    rewrite length_take, Nat.min_l in H2 by lia. exact H2. }
  assert (schedule queue_off (p - 32) s1 = Ok sp s2) as Erun'.
  { rewrite Erun. f_equal. by rewrite Hst. }
  destruct (handler_run (schedule queue_off) lr clob (with_kern m (set_pendsv s false)) s1 sp s2 (take 8 ctx)) as (m' & E & Ep & Em & Ek & Er);
    [exact Hg|cbn; lia|done|exact Erun'|lia|lia|rewrite length_take; lia|by apply Forall_take|done|].
  assert (arch_handle_pendsv queue_off lr clob m = Ok lr m') as Eh.
  { unfold arch_handle_pendsv. rewrite <-E. by rewrite (bind_ok _ _ m tt (with_kern m (set_pendsv s false))). }
  exists m'. split; [exact Eh|]. split; [exact Ep|]. split; [exact Em|]. split; [exact Er|]. rewrite Ek. split; [exact Hw2|]. split; cbn [wcpu wker ctxs].
  - rewrite Ek. by apply rep_set_irqs.
  - by apply wf_schedule.
  - by rewrite Ek.
  - eapply kw_pendsv; [exact Eh|exact Hg].
  - intros t sp' ctx' Ht _. rewrite Ek. by apply (holds_kept s2); [apply Hall|..].
Qed.

Lemma struct_init_others memory t nm size stk (s : sys) a s1 : (allocates size stk = true -> 0 < memory) ->
  thread_struct_init queue_off memory t nm size stk s = Ok a s1 ->
  forall t', t' <> t -> stack <$> threads s1 !! t' = stack <$> threads s !! t'.
Proof.
  intros Hm. unfold thread_struct_init. rewrite (bind_ok _ _ s (next_tid s) s) by done.
  set (s0 := set_next_tid s (u8 (next_tid s + 1))). rewrite (bind_ok _ _ s tt s0) by done.
  rewrite (bind_ok _ _ _ _ _ (stack_init_run s0 (next_tid s) t memory nm size stk Hm)).
  match goal with |- ?c ?s2 = _ -> _ => assert (calm c) as Hc; [|intros E; apply Hc in E as [_ E]] end.
  { unfold scheduler_thread_data_init. apply calm_bind; [apply calm_on_entries|]. intros _.
    apply calm_bind; [apply calm_on_list; by intros []|]. intros _. apply calm_on_entries. }
  intros t' Ht'. rewrite E. cbn [threads set_words set_threads]. by rewrite lookup_insert_ne.
Qed.

(** The memory of a new thread holds its initial context. *)
Lemma create_run (s : sys) k t memory nm size func arg :
  rep s k -> wf_kernel k -> irqs_off s = false -> ok_event (KCreate t memory nm size NULL) s k -> t <> k_cur k ->
  68 <= size -> size mod 4 = 0 -> memory + size + 4 < 2 ^ 32 -> in_u 32 func -> in_u 32 arg ->
  exists s', create_thread t memory nm size func arg s = Ok tt s' /\ rep s' (a_create t k) /\ wf_kernel (a_create t k) /\ irqs_off s' = false /\
    holds_ctx s' t (memory + size - 60) (initial_context func arg) /\
    (forall t', t' <> t -> stack <$> threads s' !! t' = stack <$> threads s !! t') /\
    (forall x, x < memory \/ memory + size < x -> words s' !! x = words s !! x).
Proof.
  intros Hr Hw Hi Hok Hcur Hsize Hmod Hlim Hf Ha. pose proof Hok as (Hmem & Hfr & He1 & He2).
  assert (allocates size NULL = true) as Hal by (unfold allocates; cbn; lia). specialize (Hmem Hal).
  destruct (create_refines queue_off s k memory t nm size NULL ltac:(done) Hr (wk_threads _ _ Hw) Hfr He1 He2)
    as (s1 & E1 & Hr1 & Hi1 & _ & Ht1 & Hw1).
  unfold created in Ht1. rewrite Hal in Ht1, Hw1. rewrite (rep_cur _ _ _ Hr) in Hw1.
  set (th := mk_thread (next_tid s) THREAD_STATE_STOPPED (memory + size) memory size nm) in *.
  pose proof (set_function_run s1 t th func 1 arg Ht1 ltac:(cbn; lia) Hf Ha) as E2.
  set (s2 := set_threads _ _) in E2. exists s2.
  assert (exists q, size = 4 * q /\ 17 <= q) as (q & Hq & Hq17).
  { exists (size / 4). pose proof (Z.div_mod size 4). lia. }
  assert (forall i, 0 <= i < q -> words s1 !! (memory + 4 * i) = Some kStackProtector) as Hpaint.
  { intros i Hin. rewrite Hw1. apply initial_words_painted; [lia|lia|done]. }
  split; [|split; [|split; [|split; [|split; [|split] ] ] ] ].
  - unfold create_thread, thread_create. destruct Hfr as (_ & H0 & _). rewrite (proj2 (Z.eqb_neq t NULL) H0).
    rewrite (bind_ok _ _ s t s1); [exact E2|]. by rewrite (bind_ok _ _ _ _ _ E1).
  - assert (tstate <$> threads s2 !! t = tstate <$> threads s1 !! t) as Hst by (cbn; by rewrite lookup_insert_eq, Ht1).
    destruct Hr1 as [Hs ? ? ? ? ? ? ?]. split; try done. intros t'. rewrite <-Hs. destruct (decide (t' = t)) as [->|]; [done|].
    cbn. by rewrite lookup_insert_ne.
  - by apply wf_create.
  - cbn. congruence.
  - split; [cbn; rewrite lookup_insert_eq; cbn; f_equal; lia| |done| |lia].
    + apply words_at_lookup. intros i v Hv.
      do 16 (destruct i as [|i]; [injection Hv as <-; cbn; unfold frame_words; cbn; rewrite !lookup_insert;
        repeat (case_decide; [first [lia|f_equal; lia]|]); try lia;
        match goal with |- words s1 !! ?x = _ => replace x with (memory + 4 * ((x - memory) / 4)) by (subst size; Z.div_mod_to_equations; lia) end;
        apply Hpaint; subst size; Z.div_mod_to_equations; lia|]). done.
    + unfold initial_context. repeat (apply Forall_cons; split; [first [done|by vm_compute]|]). by apply Forall_nil.
  - intros t' Ht'. cbn. rewrite lookup_insert_ne by done. eapply (struct_init_others memory t nm size NULL s tt s1); done.
  - intros x Hx. cbn. unfold frame_words. cbn. rewrite !lookup_insert_ne by lia. rewrite Hw1. unfold initial_words.
    rewrite (proj2 (Z.eqb_neq _ _) Hcur). rewrite paint_lookup by lia.
    replace ((memory + 4 <=? x) && (x <? memory + size)) with false by lia. cbn. by rewrite lookup_insert_ne by lia.
Qed.

Lemma call_cur e k : is_call e = true -> k_cur (spec_event k e) = k_cur k.
Proof.
  destruct e; try done; intros _; cbn [spec_event]; try done; unfold a_wait, a_signal; repeat case_match; done.
Qed.

Lemma calls_cur es k : Forall (fun e => is_call e = true) es -> k_cur (foldl spec_event k es) = k_cur k.
Proof. intros H. revert k. induction H as [|e es He _ IH]; intros k; [done|]. cbn [foldl]. by rewrite IH, call_cur. Qed.

(** An interrupt, whatever calls its handler makes, gives the thread its registers, its
    stack pointer and its stack back. *)
Lemma irq_run w lr clob es : inv w -> Forall (fun e => is_call e = true) es ->
  (forall ws c, ok_events queue_off es (set_isr (set_words (wsys w) ws) c) (wker w)) ->
  32 < psp (wcpu w) < 2 ^ 32 -> clear_of w (psp (wcpu w) - 32) (psp (wcpu w)) ->
  exists m', arch_handle_irq lr clob (dispatch es) (wcpu w) = Ok lr m' /\ psp m' = psp (wcpu w) /\ msp m' = msp (wcpu w) /\
    reg m' <$> kept = reg (wcpu w) <$> kept /\
    (forall x, x < psp (wcpu w) - 32 \/ psp (wcpu w) <= x -> words (kern m') !! x = words (wsys w) !! x) /\
    inv (mk_world m' (foldl spec_event (wker w) es) (ctxs w)).
Proof.
  intros [Hr Hw Hi Hg Hc] Hcalls Hok Hp Hcl. destruct w as [m k cs]. cbn [wcpu wker ctxs] in *. set (s := kern m) in *. set (p := psp m) in *.
  set (regs := reg m <$> kept). set (s1 := set_words s (stores (p - 32) regs (words s))).
  set (s2 := set_isr s1 (u8 (in_isr_count s1 + 1))).
  destruct (events_refine queue_off s2 k es) as (s3 & E3 & Hr3 & Hw3 & Hi3);
    [by apply rep_isr, rep_words|done|done|apply Hok|].
  set (s4 := set_isr s3 (u8 (in_isr_count s3 - 1))).
  assert (dispatch es (p - 32) s1 = Ok (p - 32) s4) as Ed.
  { unfold dispatch. rewrite (bind_ok _ _ s1 tt s2) by done. rewrite (bind_ok _ _ _ _ _ E3). done. }
  destruct (calm_calls queue_off es Hcalls _ _ _ E3) as [Ew Est].
  assert (words s4 = stores (p - 32) regs (words s)) as Ew4 by exact Ew.
  destruct (handler_run (dispatch es) lr clob m s1 (p - 32) s4 regs Hg Hp eq_refl Ed) as (m' & E & Ep & Em & Ek & Er);
    [lia|lia|done|apply Forall_fmap, Forall_forall; intros r _; apply Hg|rewrite Ew4; apply stores_at|].
  exists m'. split; [exact E|]. split; [rewrite Ep; fold p; lia|]. split; [exact Em|]. split; [exact Er|].
  assert (forall x, x < p - 32 \/ p <= x -> words (kern m') !! x = words s !! x) as Hout.
  { intros x Hx. rewrite Ek. change (words (set_irqs_off s4 false)) with (words s4). rewrite Ew4.
    apply stores_outside. change (length regs) with 8%nat. lia. }
  split; [exact Hout|]. split; cbn [wcpu wker ctxs].
  - rewrite Ek. by apply rep_set_irqs, rep_isr.
  - done.
  - by rewrite Ek.
  - eapply kw_irq; [exact E|exact Hg].
  - intros t sp ctx Ht Hne. rewrite calls_cur in Hne by done. apply (holds_kept s); [by apply Hc|rewrite Ek; exact (Est t)|].
    intros x Hx. apply Hout. destruct (Hcl t sp ctx Ht Hne); cbn [wcpu psp] in *; unfold p in *; lia.
Qed.

Lemma switch_inv_step w w' : inv w -> wstep w w' -> inv w'.
Proof.
  intros H Hs. pose proof H as [Hr Hw Hi Hg Hc].
  destruct Hs as [g p ws Hg' Hws|e s' He Hok E|lr clob es m' Hcalls Hok Hp Hcl E|t memory nm size func arg s' Hok Hcur Hsize Hmod Hlim Hcl Hf Ha E
    |lr clob frame m' Hready [ [sp ctx] Hnext] E].
  - split; cbn [wcpu wker ctxs kern]; [by apply rep_words|done|done|done|]. intros t sp ctx Ht Hne.
    apply (holds_kept (wsys w)); [by apply Hc|done|]. intros x Hx. by eapply Hws.
  - destruct (event_refines queue_off (wsys w) (wker w) e Hr Hw Hi Hok) as (s1 & E1 & Hr1 & Hw1 & Hi1).
    rewrite E in E1. injection E1 as <-. destruct (calm_call queue_off e He _ _ _ E) as [Ew Est].
    split; cbn [wcpu wker ctxs with_kern kern]; try done. intros t sp ctx Ht Hne. rewrite call_cur in Hne by done.
    apply (holds_kept (wsys w)); [by apply Hc|apply Est|by rewrite Ew].
  - destruct (irq_run w lr clob es H Hcalls Hok Hp Hcl) as (m1 & E1 & _ & _ & _ & _ & H1). rewrite E in E1. by injection E1 as <-.
  - destruct (create_run (wsys w) (wker w) t memory nm size func arg Hr Hw Hi Hok Hcur Hsize Hmod Hlim Hf Ha)
      as (s1 & E1 & Hr1 & Hw1 & Hi1 & Hh & Hst & Hwd). rewrite E in E1. injection E1 as <-.
    split; cbn [wcpu wker ctxs with_kern kern]; try done. intros t' sp ctx Ht Hne. cbn in Hne.
    apply lookup_insert_Some in Ht as [ [<- [= <- <-] ]|[Hne' Ht] ]; [exact Hh|].
    apply (holds_kept (wsys w)); [by apply Hc|apply Hst; congruence|]. intros x Hx. apply Hwd.
    destruct (Hcl t' sp ctx Ht Hne); lia.
  - destruct (run_switch w frame lr clob sp ctx H Hready Hnext) as (m1 & E1 & _ & _ & _ & _ & H1). rewrite E in E1. by injection E1 as <-.
Qed.
End World.

(** C2: Every thread gets its registers back.  Threads run, call the kernel, are
    interrupted and create threads in any order, and leave the stacks of threads that
    do not run alone; PendSV comes between.  Whenever it does, the handler of
    [arch.c] returns with the thread the scheduler has chosen: r4 to r11, the process
    stack pointer and the eight words there that the processor loads (r0 to r3, r12,
    lr, pc, xPSR) are those with which this thread was suspended - or, the first
    time, those [thread_set_function] has prepared: the thread starts at its function
    with its argument in r0 and the Thumb bit set. *)
Theorem threads_resume {S L : Type} `{LA : ListApi S L} queue_off (w0 w : world (S := S) (L := L)) frame lr clob sp ctx :
  inv queue_off w0 -> steps (wstep queue_off) w0 w -> switch_ready queue_off w frame ->
  suspended w frame !! k_cur (a_schedule (wker w)) = Some (sp, ctx) ->
  exists m', arch_handle_pendsv queue_off lr clob (wcpu w) = Ok lr m' /\
    current_thread (kern m') = k_cur (a_schedule (wker w)) /\
    psp m' = sp + 32 /\ reg m' <$> kept = take 8 ctx /\ words_at (words (kern m')) (psp m') (drop 8 ctx) /\
    msp m' = msp (wcpu w) /\
    inv queue_off (mk_world m' (a_schedule (a_pend false (wker w))) (suspended w frame)).
Proof.
  intros H0 Hs Hready Hnext.
  assert (inv queue_off w) as H by (eapply steps_invariant; [|exact H0|exact Hs]; intros; by eapply switch_inv_step).
  destruct (run_switch queue_off w frame lr clob sp ctx H Hready Hnext) as (m' & E & Ep & Em & Er & Ew & Hi).
  exists m'. split; [exact E|]. split; [apply (rep_cur _ _ _ (inv_rep _ _ Hi))|]. split; [exact Ep|]. split; [exact Er|].
  rewrite Ep. split; [exact Ew|]. by split.
Qed.

(** ** Witness *)

(** The main thread, on a stack at 4096; a thread at 200 with a stack at 1000 is created
    and woken, and PendSV switches to it. *)
Definition sw_result {A} (d : csys) (r : out csys A) : csys := match r with Ok _ s => s | Fault _ => d end.
Definition sw_frame : list Z := [1; 2; 3; 4; 12; 0xFFFFFFFE; 0x800; 0x01000000].
Definition sw_s0 : csys := sw_result ex_start (run_events 20 [KInit 100 0] ex_start).
Definition sw_s1 : csys := sw_result sw_s0 (create_thread 20 200 1000 0 68 0x200 5 sw_s0).
Definition sw_s2 : csys := sw_result sw_s1 (run_event 20 (KWakeup 200) sw_s1).
Definition sw_k0 : kernel := spec_event kernel_start (KInit 100 0).
Definition sw_w0 : world (S := store) (L := list_t) := mk_world (mk_cpu (fun _ => 7) 4096 [] sw_s0) sw_k0 ∅.
Definition sw_ctxs : gmap Z (Z * list Z) := {[200 := (1008, initial_context 0x200 5)]}.
Definition sw_w2 : world (S := store) (L := list_t) :=
  mk_world (mk_cpu (fun _ => 7) 4096 [] sw_s2) (spec_event (a_create 200 sw_k0) (KWakeup 200)) sw_ctxs.
Definition sw_w3 : world (S := store) (L := list_t) :=
  mk_world (mk_cpu (fun _ => 9) 4096 [] (set_words sw_s2 (stores 4096 sw_frame (words sw_s2)))) (wker sw_w2) sw_ctxs.

Lemma sw_inv : inv 20 sw_w0.
Proof.
  destruct (events_reach 20 ex_store [KInit 100 0]) as (s & E & Hr & Hw).
  { apply ok_events_b_ok. vm_compute. reflexivity. }
  assert (s = sw_s0) as -> by (unfold sw_s0; unfold ex_start in *; by rewrite E).
  split; [exact Hr|exact Hw|vm_compute; reflexivity|intros r; unfold in_u; cbn; lia|]. intros t sp ctx Ht. done.
Qed.

Lemma sw_created : create_thread 20 200 1000 0 68 0x200 5 sw_s0 = Ok tt sw_s1.
Proof. vm_compute. reflexivity. Qed.

Lemma sw_woken : run_event 20 (KWakeup 200) sw_s1 = Ok tt sw_s2.
Proof. vm_compute. reflexivity. Qed.

Lemma sw_steps : steps (wstep 20) sw_w0 sw_w3.
Proof.
  pose proof (ws_create 20 sw_w0 200 1000 0 68 0x200 5 sw_s1) as H1.
  assert (ok_event 20 (KCreate 200 1000 0 68 NULL) sw_s0 sw_k0) as Hok by (apply ok_event_b_ok; vm_compute; reflexivity).
  specialize (H1 Hok ltac:(done) ltac:(done) eq_refl eq_refl ltac:(by intros ???) ltac:(done) ltac:(done) sw_created).
  set (w1 := mk_world _ _ _) in H1.
  assert (ok_event 20 (KWakeup 200) sw_s1 (a_create 200 sw_k0)) as Hok2 by (apply ok_event_b_ok; vm_compute; reflexivity).
  pose proof (ws_call 20 w1 (KWakeup 200) sw_s2 eq_refl Hok2 sw_woken) as H2.
  pose proof (ws_run 20 sw_w2 (fun _ => 9) 4096 (stores 4096 sw_frame (words sw_s2))) as H3.
  do 2 (eapply steps_more; [eassumption|]). eapply steps_more; [|apply steps_refl]. apply H3; [by intros r|].
  intros t sp ctx x Ht _ Hx. change (({[200 := (1008, initial_context 0x200 5)]} : gmap Z (Z * list Z)) !! t = Some (sp, ctx)) in Ht. apply lookup_singleton_Some in Ht as [_ [= <- <-] ]. apply stores_outside. lia.
Qed.

Lemma sw_ready : switch_ready 20 sw_w3 sw_frame.
Proof.
  split; cbn [wcpu psp sw_w3]; [done|apply stores_at|done| | |].
  - repeat constructor; done.
  - intros t sp ctx Ht _. change (({[200 := (1008, initial_context 0x200 5)]} : gmap Z (Z * list Z)) !! t = Some (sp, ctx)) in Ht. apply lookup_singleton_Some in Ht as [_ [= <- <-] ]. cbn. lia.
  - apply ok_event_b_ok. vm_compute. reflexivity.
Qed.

Lemma threads_resume_witness :
  exists m', arch_handle_pendsv 20 0xFFFFFFFD (fun _ => 0) (wcpu sw_w3) = Ok 0xFFFFFFFD m' /\
    current_thread (kern m') = 200 /\ psp m' = 1040 /\
    words_at (words (kern m')) 1040 [5; kStackProtector; kStackProtector; kStackProtector; kStackProtector; 0xFFFFFFFE; 0x200; 0x01000000].
Proof.
  destruct (threads_resume 20 sw_w0 sw_w3 sw_frame 0xFFFFFFFD (fun _ => 0) 1008 (initial_context 0x200 5) sw_inv sw_steps sw_ready)
    as (m' & E & Hc & Hp & _ & Hw & _); [vm_compute; reflexivity|].
  exists m'. split; [exact E|]. split; [rewrite Hc; vm_compute; reflexivity|]. split; [exact Hp|]. rewrite Hp in Hw. exact Hw.
Defined.
