(* ===== verification/Boot.v ===== *)
(** * Boot: from reset to firmware_main

    The vector table and the reset handler of [arch/arm-m/arch.c]: the initialised
    sections are copied from flash, the others cleared, as the section table of the
    linker script ([system-twosegment.ld]) says, and [firmware_main] is called. *)
From S2P Require Import Prelude Fw Words.

(** ** The vector table *)

(** [g_pfnVectors], an entry [IRQk] for each [ARM_M_NUMBER_OF_IRQS] of at least
    [7 + k], 32 at most. *)
Definition g_pfnVectors (MainStackTop do_irq_reset arch_handle_irq arch_handle_pendsv : Z) (number_of_irqs : Z) : list Z :=
  [ MainStackTop; do_irq_reset;
    arch_handle_irq; (* NMI *)
    arch_handle_irq; (* HardFault *)
    0; 0; 0; 0; 0; 0; 0;
    arch_handle_irq; (* SVCall *)
    0; 0;
    arch_handle_pendsv; (* PendSV *)
    arch_handle_irq (* SysTick *) ] ++
  replicate (Z.to_nat (Z.min 32 (number_of_irqs - 6))) arch_handle_irq.

(** ** The reset handler *)

(** The words of flash and SRAM. *)
Abbreviation mem := (gmap Z Z).

Definition load_word (a : Z) : M mem Z := deref (fun m => m !! a).
Definition store_word (a v : Z) : M mem unit :=
  run! load_word a in modify (fun m => <[a := u32 v]> m).

(** The loops [for (loop = 0; loop < len; loop = loop + 4)]. *)
Fixpoint data_loop (fuel : nat) (loop len pulDest pulSrc : Z) : M mem unit :=
  match fuel with
  | O => fail Diverges
  | S fuel =>
      if loop <? len then
        let! v := load_word pulSrc in
        run! store_word pulDest v in
        data_loop fuel (u32 (loop + 4)) len (pulDest + 4) (pulSrc + 4)
      else ret tt
  end.

Definition data_init (romstart start len : Z) : M mem unit :=
  data_loop (Z.to_nat (len / 4 + 2)) 0 len start romstart.

Fixpoint bss_loop (fuel : nat) (loop len pulDest : Z) : M mem unit :=
  match fuel with
  | O => fail Diverges
  | S fuel =>
      if loop <? len then
        run! store_word pulDest 0 in
        bss_loop fuel (u32 (loop + 4)) len (pulDest + 4)
      else ret tt
  end.

Definition bss_init (start len : Z) : M mem unit := bss_loop (Z.to_nat (len / 4 + 2)) 0 len start.

Section Reset.
Context (firmware_main : M mem unit).
Context (data_section_table data_section_table_end bss_section_table_end : Z).

(** [while (SectionTableAddr < &__data_section_table_end)]: where the table goes on. *)
Fixpoint data_sections (fuel : nat) (SectionTableAddr : Z) : M mem Z :=
  match fuel with
  | O => fail Diverges
  | S fuel =>
      if SectionTableAddr <? data_section_table_end then
        let! LoadAddr := load_word SectionTableAddr in
        let! ExeAddr := load_word (SectionTableAddr + 4) in
        let! SectionLen := load_word (SectionTableAddr + 8) in
        run! data_init LoadAddr ExeAddr SectionLen in
        data_sections fuel (SectionTableAddr + 12)
      else ret SectionTableAddr
  end.

Fixpoint bss_sections (fuel : nat) (SectionTableAddr : Z) : M mem Z :=
  match fuel with
  | O => fail Diverges
  | S fuel =>
      if SectionTableAddr <? bss_section_table_end then
        let! ExeAddr := load_word SectionTableAddr in
        let! SectionLen := load_word (SectionTableAddr + 4) in
        run! bss_init ExeAddr SectionLen in
        bss_sections fuel (SectionTableAddr + 8)
      else ret SectionTableAddr
  end.

Definition do_irq_reset : M mem unit :=
  let fuel := Z.to_nat (bss_section_table_end - data_section_table + 1) in
  let! SectionTableAddr := data_sections fuel data_section_table in
  let! _ := bss_sections fuel SectionTableAddr in
  firmware_main.
End Reset.
