(* ===== verification/BootSpec.v ===== *)
(** * BootSpec: the memory [firmware_main] finds

    The section table as a list of sections, what the reset handler makes of memory,
    and that every exception has its vector. *)
From S2P Require Import Prelude Fw Words Irq Boot.

(** ** Loops *)

Definition words_of (len : Z) : nat := Z.to_nat ((len + 3) / 4).

(** The words of a region are there. *)
Definition has_words (m : mem) (a : Z) (n : nat) : Prop := forall i, 0 <= i < Z.of_nat n -> is_Some (m !! (a + 4 * i)).
Definition apart (a : Z) (n : nat) (b : Z) (k : nat) : Prop := a + 4 * Z.of_nat n <= b \/ b + 4 * Z.of_nat k <= a.

Lemma store_word_run a v m : in_u 32 v -> is_Some (m !! a) -> store_word a v m = Ok tt (<[a := v]> m).
Proof. intros Hv [u Hu]. unfold store_word, load_word. rewrite (bind_ok _ _ m u m) by (by apply deref_ok). unfold modify. by rewrite (wrap_id 32 v). Qed.

Lemma load_word_run a v m : m !! a = Some v -> load_word a m = Ok v m.
Proof. intros H. by apply deref_ok. Qed.

Lemma has_words_tail m a n v : has_words m a (S n) -> has_words (<[a := v]> m) (a + 4) n.
Proof.
  intros H i Hi. rewrite lookup_insert_ne by lia. replace (a + 4 + 4 * i) with (a + 4 * (i + 1)) by lia. apply H. lia.
Qed.

Lemma has_words_head m a n : has_words m a (S n) -> is_Some (m !! a).
Proof. intros H. rewrite <-(Z.add_0_r a). apply (H 0). lia. Qed.

Lemma words_of_step len loop n : words_of (len - loop) = S n -> loop < len /\ words_of (len - (loop + 4)) = n.
Proof.
  unfold words_of. intros H. assert ((len - (loop + 4) + 3) / 4 = (len - loop + 3) / 4 - 1) as ->.
  { replace (len - (loop + 4) + 3) with (len - loop + 3 + (-1) * 4) by lia. rewrite Z.div_add by lia. lia. }
  split; [|lia]. assert (1 <= (len - loop + 3) / 4) by lia. Z.div_mod_to_equations. lia.
Qed.

Lemma words_of_none len loop : 0 <= loop -> words_of (len - loop) = 0%nat -> (loop <? len) = false.
Proof.
  unfold words_of. intros Hl H. assert ((len - loop + 3) / 4 <= 0) by lia. Z.div_mod_to_equations. lia.
Qed.

Lemma data_loop_run vs fuel loop len dst src m :
  words_at m src vs -> has_words m dst (length vs) -> apart dst (length vs) src (length vs) -> Forall (in_u 32) vs ->
  words_of (len - loop) = length vs -> 0 <= loop -> loop + 4 * Z.of_nat (length vs) < 2 ^ 32 -> (length vs < fuel)%nat ->
  data_loop fuel loop len dst src m = Ok tt (stores dst vs m).
Proof.
  revert fuel loop dst src m. induction vs as [|v vs IH]; intros fuel loop dst src m Hs Hd Ha Hr Hn Hl Hlim Hf;
    (destruct fuel as [|fuel]; [cbn in Hf; lia|]); cbn [data_loop length stores] in *.
  - by rewrite (words_of_none len loop).
  - destruct Hs as [Hv Hs]. apply Forall_cons in Hr as [Hrv Hr]. destruct (words_of_step _ _ _ Hn) as [Hlt Hn'].
    rewrite (proj2 (Z.ltb_lt _ _) Hlt).
    rewrite (bind_ok _ _ _ _ _ (load_word_run _ _ _ Hv)).
    rewrite (bind_ok _ _ _ _ _ (store_word_run dst v m Hrv (has_words_head _ _ _ Hd))).
    rewrite (wrap_id 32 (loop + 4)) by (unfold in_u; lia).
    apply IH; try done; try lia; [|by apply has_words_tail|unfold apart in *; lia].
    eapply words_at_ext; [|exact Hs]. intros x Hx. rewrite lookup_insert_ne; [done|]. unfold apart in *. lia.
Qed.

Lemma bss_loop_run n fuel loop len dst m :
  has_words m dst n -> words_of (len - loop) = n -> 0 <= loop -> loop + 4 * Z.of_nat n < 2 ^ 32 -> (n < fuel)%nat ->
  bss_loop fuel loop len dst m = Ok tt (stores dst (replicate n 0) m).
Proof.
  revert fuel loop dst m. induction n as [|n IH]; intros fuel loop dst m Hd Hn Hl Hlim Hf;
    (destruct fuel as [|fuel]; [lia|]); cbn [bss_loop replicate stores].
  - by rewrite (words_of_none len loop).
  - destruct (words_of_step _ _ _ Hn) as [Hlt Hn']. rewrite (proj2 (Z.ltb_lt _ _) Hlt).
    rewrite (bind_ok _ _ _ _ _ (store_word_run dst 0 m ltac:(done) (has_words_head _ _ _ Hd))).
    rewrite (wrap_id 32 (loop + 4)) by (unfold in_u; lia). apply IH; try done; try lia. by apply has_words_tail.
Qed.

Lemma words_of_bound len : 0 <= len <= 2 ^ 32 - 4 -> 4 * Z.of_nat (words_of len) < 2 ^ 32 /\ (words_of len < Z.to_nat (len / 4 + 2))%nat.
Proof. unfold words_of. intros H. pose proof (Z.div_pos len 4). pose proof (Z.div_pos (len + 3) 4). Z.div_mod_to_equations. lia. Qed.

Lemma data_init_run vs src dst len m :
  words_at m src vs -> has_words m dst (length vs) -> apart dst (length vs) src (length vs) -> Forall (in_u 32) vs ->
  length vs = words_of len -> 0 <= len <= 2 ^ 32 - 4 -> data_init src dst len m = Ok tt (stores dst vs m).
Proof.
  intros Hs Hd Ha Hr Hn Hlen. destruct (words_of_bound len Hlen). apply data_loop_run; try done; try lia.
  by rewrite Z.sub_0_r.
Qed.

Lemma bss_init_run dst len m : has_words m dst (words_of len) -> 0 <= len <= 2 ^ 32 - 4 ->
  bss_init dst len m = Ok tt (stores dst (replicate (words_of len) 0) m).
Proof.
  intros Hd Hlen. destruct (words_of_bound len Hlen). apply bss_loop_run; try done; try lia. by rewrite Z.sub_0_r.
Qed.

(** ** Filling memory *)

(** What is stored where, and the memory after it. *)
Abbreviation pieces := (list (Z * list Z)).
Definition fill (ps : pieces) (m : mem) : mem := foldl (fun m p => stores p.1 p.2 m) m ps.
Definition outside (ps : pieces) (x : Z) : Prop := Forall (fun p => x < p.1 \/ p.1 + 4 * Z.of_nat (length p.2) <= x) ps.
Definition clear_of (ps : pieces) (a : Z) (n : nat) : Prop := Forall (fun p => apart a n p.1 (length p.2)) ps.

(** The pieces lie apart from one another. *)
Fixpoint separate (ps : pieces) : Prop :=
  match ps with [] => True | p :: ps => clear_of ps p.1 (length p.2) /\ separate ps end.

#[export] Instance apart_dec a n b k : Decision (apart a n b k).
Proof. unfold apart. apply _. Defined.
#[export] Instance clear_of_dec ps a n : Decision (clear_of ps a n).
Proof. unfold clear_of. apply _. Defined.
#[export] Instance outside_dec ps x : Decision (outside ps x).
Proof. unfold outside. apply _. Defined.
#[export] Instance separate_dec ps : Decision (separate ps).
Proof. induction ps as [|p ps IH]; [by left|]. cbn. apply _. Defined.

Lemma fill_outside ps m x : outside ps x -> fill ps m !! x = m !! x.
Proof.
  revert m. induction ps as [|p ps IH]; intros m H; [done|]. apply Forall_cons in H as [Hp H].
  etrans; [exact (IH (stores p.1 p.2 m) H)|]. by apply stores_outside.
Qed.

Lemma fill_some ps m x : is_Some (m !! x) -> is_Some (fill ps m !! x).
Proof. revert m. induction ps as [|p ps IH]; intros m H; [done|]. apply (IH (stores p.1 p.2 m)). by apply stores_some. Qed.

Lemma fill_keeps ps m a vs : clear_of ps a (length vs) -> words_at m a vs -> words_at (fill ps m) a vs.
Proof.
  intros Hc. apply words_at_ext. intros x Hx. apply fill_outside. eapply Forall_impl; [exact Hc|].
  intros p [H|H]; lia.
Qed.

Lemma fill_at ps m a vs : separate ps -> (a, vs) ∈ ps -> words_at (fill ps m) a vs.
Proof.
  revert m. induction ps as [|p ps IH]; intros m Hs Hin; [by apply not_elem_of_nil in Hin|]. destruct Hs as [Hc Hs].
  apply elem_of_cons in Hin as [<-|Hin]; [|by apply (IH (stores p.1 p.2 m))].
  apply (fill_keeps ps (stores a vs m)); [done|]. apply stores_at.
Qed.

Lemma fill_app ps qs m : fill (ps ++ qs) m = fill qs (fill ps m).
Proof. apply foldl_app. Qed.

(** ** The section table *)

(** An initialised section with the words of its image, and a cleared one. *)
Record section := mk_section { s_load : Z; s_exe : Z; s_len : Z; s_image : list Z }.
Record cleared := mk_cleared { c_exe : Z; c_len : Z }.

Definition data_row (s : section) : list Z := [s_load s; s_exe s; s_len s].
Definition bss_row (c : cleared) : list Z := [c_exe c; c_len c].
Definition data_piece (s : section) : Z * list Z := (s_exe s, s_image s).
Definition bss_piece (c : cleared) : Z * list Z := (c_exe c, replicate (words_of (c_len c)) 0).
Definition pieces_of (ds : list section) (bs : list cleared) : pieces := (data_piece <$> ds) ++ (bss_piece <$> bs).

(** What the linker script promises of the memory at reset: the table, the images in
    flash, and sections in SRAM that lie apart from one another and from these. *)
Record linked (table : Z) (ds : list section) (bs : list cleared) (m : mem) : Prop := {
  lk_table : words_at m table (mjoin (data_row <$> ds) ++ mjoin (bss_row <$> bs));
  lk_clear : clear_of (pieces_of ds bs) table (3 * length ds + 2 * length bs);
  lk_data s : s ∈ ds -> words_at m (s_load s) (s_image s) /\ Forall (in_u 32) (s_image s) /\
    length (s_image s) = words_of (s_len s) /\ 0 <= s_len s <= 2 ^ 32 - 4 /\
    has_words m (s_exe s) (length (s_image s)) /\ clear_of (pieces_of ds bs) (s_load s) (length (s_image s));
  lk_bss c : c ∈ bs -> 0 <= c_len c <= 2 ^ 32 - 4 /\ has_words m (c_exe c) (words_of (c_len c));
  lk_separate : separate (pieces_of ds bs) }.

Section Run.
Context (table : Z) (ds : list section) (bs : list cleared) (m0 : mem).
Context (Hlk : linked table ds bs m0).
Abbreviation ps := (pieces_of ds bs).

(** Memory as at reset, but for the sections. *)
Definition later (m : mem) : Prop :=
  (forall x, outside ps x -> m !! x = m0 !! x) /\ (forall x, is_Some (m0 !! x) -> is_Some (m !! x)).

Lemma later_words m a vs : later m -> clear_of ps a (length vs) -> words_at m0 a vs -> words_at m a vs.
Proof.
  intros [Ho _] Hc. apply words_at_ext. intros x Hx. apply Ho. eapply Forall_impl; [exact Hc|]. intros p [H|H]; lia.
Qed.

Lemma later_has m a n : later m -> has_words m0 a n -> has_words m a n.
Proof. intros [_ Hs] H i Hi. by apply Hs, H. Qed.

Lemma later_stores m a vs : (a, vs) ∈ ps -> later m -> later (stores a vs m).
Proof.
  intros Hin [Ho Hs]. split.
  - intros x Hx. pose proof (proj1 (Forall_forall _ _) Hx _ Hin) as Hp. rewrite stores_outside by exact Hp. by apply Ho.
  - intros x Hx. by apply stores_some, Hs.
Qed.

(** A part of the table lies outside the sections. *)
Lemma clear_part (qs : pieces) a n b k : clear_of qs a n -> a <= b -> b + 4 * Z.of_nat k <= a + 4 * Z.of_nat n -> clear_of qs b k.
Proof. intros Hc H1 H2. eapply Forall_impl; [exact Hc|]. intros p. unfold apart. lia. Qed.

Lemma data_sections_run xs fuel T m :
  (forall s, s ∈ xs -> s ∈ ds) -> words_at m0 T (mjoin (data_row <$> xs)) -> clear_of ps T (3 * length xs) ->
  later m -> (length xs < fuel)%nat ->
  data_sections (T + 12 * Z.of_nat (length xs)) fuel T m = Ok (T + 12 * Z.of_nat (length xs)) (fill (data_piece <$> xs) m) /\
  later (fill (data_piece <$> xs) m).
Proof.
  revert fuel T m. induction xs as [|s xs IH]; intros fuel T m Hin Hw Hc Hl Hf; (destruct fuel as [|fuel]; [cbn in Hf; lia|]); cbn [data_sections length].
  - rewrite Z.add_0_r, Z.ltb_irrefl. done.
  - rewrite (proj2 (Z.ltb_lt _ _)) by lia.
    destruct (lk_data _ _ _ _ Hlk s (Hin s ltac:(left))) as (Himg & Hr & Hn & Hlen & Hd & Hcl).
    pose proof (later_words m T (data_row s) Hl ltac:(eapply clear_part; [exact Hc|lia|cbn; lia])
      ltac:(cbn in Hw |- *; tauto)) as (E1 & E2 & E3 & _).
    replace (T + 4 + 4) with (T + 8) in E3 by lia.
    rewrite (bind_ok _ _ _ _ _ (load_word_run _ _ _ E1)), (bind_ok _ _ _ _ _ (load_word_run _ _ _ E2)),
      (bind_ok _ _ _ _ _ (load_word_run _ _ _ E3)).
    assert (data_piece s ∈ ps) as Hp by (apply elem_of_app; left; apply list_elem_of_fmap_2, Hin; left).
    assert (apart (s_exe s) (length (s_image s)) (s_load s) (length (s_image s))) as Ha.
    { pose proof (proj1 (Forall_forall _ _) Hcl _ Hp) as H. unfold apart in *. cbn in H. lia. }
    rewrite (bind_ok _ _ _ _ _ (data_init_run (s_image s) _ _ _ m (later_words _ _ _ Hl Hcl Himg) (later_has _ _ _ Hl Hd) Ha Hr Hn Hlen)).
    replace (T + 12 * Z.of_nat (S (length xs))) with (T + 12 + 12 * Z.of_nat (length xs)) by lia.
    apply (IH fuel (T + 12) (stores (s_exe s) (s_image s) m)).
    + intros u Hu. apply Hin. by right.
    + cbn in Hw. replace (T + 4 + 4 + 4) with (T + 12) in Hw by lia. tauto.
    + eapply clear_part; [exact Hc|lia|cbn; lia].
    + by apply later_stores.
    + cbn in Hf. lia.
Qed.

Lemma bss_sections_run xs fuel T m :
  (forall c, c ∈ xs -> c ∈ bs) -> words_at m0 T (mjoin (bss_row <$> xs)) -> clear_of ps T (2 * length xs) ->
  later m -> (length xs < fuel)%nat ->
  bss_sections (T + 8 * Z.of_nat (length xs)) fuel T m = Ok (T + 8 * Z.of_nat (length xs)) (fill (bss_piece <$> xs) m).
Proof.
  revert fuel T m. induction xs as [|c xs IH]; intros fuel T m Hin Hw Hc Hl Hf; (destruct fuel as [|fuel]; [cbn in Hf; lia|]); cbn [bss_sections length].
  - rewrite Z.add_0_r, Z.ltb_irrefl. done.
  - rewrite (proj2 (Z.ltb_lt _ _)) by lia.
    destruct (lk_bss _ _ _ _ Hlk c (Hin c ltac:(left))) as (Hlen & Hd).
    pose proof (later_words m T (bss_row c) Hl ltac:(eapply clear_part; [exact Hc|lia|cbn; lia])
      ltac:(cbn in Hw |- *; tauto)) as (E1 & E2 & _).
    rewrite (bind_ok _ _ _ _ _ (load_word_run _ _ _ E1)), (bind_ok _ _ _ _ _ (load_word_run _ _ _ E2)).
    assert (bss_piece c ∈ ps) as Hp by (apply elem_of_app; right; apply list_elem_of_fmap_2, Hin; left).
    rewrite (bind_ok _ _ _ _ _ (bss_init_run _ _ m (later_has _ _ _ Hl Hd) Hlen)).
    replace (T + 8 * Z.of_nat (S (length xs))) with (T + 8 + 8 * Z.of_nat (length xs)) by lia.
    apply (IH fuel (T + 8) (stores (c_exe c) (replicate (words_of (c_len c)) 0) m)).
    + intros u Hu. apply Hin. by right.
    + cbn in Hw. replace (T + 4 + 4) with (T + 8) in Hw by lia. tauto.
    + eapply clear_part; [exact Hc|lia|cbn; lia].
    + by apply later_stores.
    + cbn in Hf. lia.
Qed.
End Run.

Lemma rows_length ds : length (mjoin (data_row <$> ds)) = (3 * length ds)%nat.
Proof. induction ds as [|s ds IH]; [done|]. cbn. change (mjoin _) with (mjoin (data_row <$> ds)). rewrite IH. lia. Qed.

(** C17: The reset handler sets memory up as C requires.  It copies the image of every
    initialised section from flash to its place, clears every uninitialised one, changes
    no other word, and calls [firmware_main] on this memory - for any number of sections
    of any length, also none, and although the table it reads and the images lie in the
    memory it writes. *)
Theorem reset_initialises (firmware_main : M mem unit) table ds bs m :
  linked table ds bs m ->
  exists m', do_irq_reset firmware_main table (table + 12 * Z.of_nat (length ds))
      (table + 12 * Z.of_nat (length ds) + 8 * Z.of_nat (length bs)) m = firmware_main m' /\
    (forall s, s ∈ ds -> words_at m' (s_exe s) (s_image s)) /\
    (forall c i, c ∈ bs -> (i < words_of (c_len c))%nat -> m' !! (c_exe c + 4 * Z.of_nat i) = Some 0) /\
    (forall x, outside (pieces_of ds bs) x -> m' !! x = m !! x).
Proof.
  intros Hlk. pose proof (lk_table _ _ _ _ Hlk) as Ht. apply words_at_app in Ht as [Ht Hb]. rewrite rows_length in Hb.
  pose proof (lk_clear _ _ _ _ Hlk) as Hc.
  destruct (data_sections_run table ds bs m Hlk ds (Z.to_nat (12 * Z.of_nat (length ds) + 8 * Z.of_nat (length bs) + 1)) table m)
    as [E1 Hl]; [done|done|eapply clear_part; [exact Hc|lia|lia]|by split|lia|].
  pose proof (bss_sections_run table ds bs m Hlk bs (Z.to_nat (12 * Z.of_nat (length ds) + 8 * Z.of_nat (length bs) + 1))
    (table + 12 * Z.of_nat (length ds)) (fill (data_piece <$> ds) m)) as E2.
  exists (fill (pieces_of ds bs) m). split; [|split; [|split] ].
  - unfold do_irq_reset. replace (_ - table + 1) with (12 * Z.of_nat (length ds) + 8 * Z.of_nat (length bs) + 1) by lia.
    rewrite (bind_ok _ _ _ _ _ E1). rewrite (bind_ok _ _ _ _ _ (E2 ltac:(done) ltac:(replace (table + 12 * Z.of_nat (length ds)) with (table + 4 * Z.of_nat (3 * length ds)) by lia; exact Hb)
      ltac:(eapply clear_part; [exact Hc|lia|lia]) Hl ltac:(lia))).
    unfold pieces_of. by rewrite fill_app.
  - intros s Hs. apply fill_at; [apply (lk_separate _ _ _ _ Hlk)|]. apply elem_of_app. left. by apply (list_elem_of_fmap_2 data_piece).
  - intros c i Hc' Hi. eapply words_at_nth; [apply (fill_at _ m _ _ (lk_separate _ _ _ _ Hlk))|].
    + apply elem_of_app. right. by apply (list_elem_of_fmap_2 bss_piece).
    + by apply lookup_replicate_2.
  - intros x Hx. by apply fill_outside.
Qed.

Ltac by_decision := refine (bool_decide_unpack _ _); vm_compute; exact I.

(** *** Witness: six bytes of initialised data and one cleared word *)

Definition ex_section : section := mk_section 0x200 0x10000000 6 [7; 9].
Definition ex_cleared : cleared := mk_cleared 0x10000008 4.
Definition ex_flash : mem :=
  stores 0x100 [0x200; 0x10000000; 6; 0x10000008; 4] (stores 0x200 [7; 9] (stores 0x10000000 [1; 2; 3; 4] ∅)).

Lemma ex_linked : linked 0x100 [ex_section] [ex_cleared] ex_flash.
Proof.
  split.
  - vm_compute. repeat split.
  - by_decision.
  - intros s ->%list_elem_of_singleton. split; [by vm_compute|]. split; [repeat constructor; done|]. split; [done|]. split; [done|].
    split; [|by_decision].
    intros i Hi. cbn in Hi. assert (i = 0 \/ i = 1) as [-> | ->] by lia; by eexists.
  - intros c ->%list_elem_of_singleton. split; [done|]. intros i Hi. assert (words_of (c_len ex_cleared) = 1%nat) as E by done.
    rewrite E in Hi. assert (i = 0) as -> by lia. by eexists.
  - by_decision.
Qed.

Lemma reset_initialises_witness :
  exists m', do_irq_reset (ret tt) 0x100 0x10c 0x114 ex_flash = Ok tt m' /\ words_at m' 0x10000000 [7; 9] /\
    m' !! 0x10000008 = Some 0 /\ m' !! 0x1000000c = Some 4.
Proof.
  destruct (reset_initialises (ret tt) 0x100 [ex_section] [ex_cleared] ex_flash ex_linked) as (m' & E & Hd & Hb & Ho).
  exists m'. split; [exact E|]. split; [apply (Hd ex_section), list_elem_of_singleton; done|].
  split; [apply (Hb ex_cleared 0%nat); [by apply list_elem_of_singleton|vm_compute; lia]|].
  rewrite Ho; [done|]. by_decision.
Defined.

(** ** Vectors *)

(** The exception of every interrupt the table of [Irq] has an entry for has the
    handler that dispatches it. *)
Lemma vectors_dispatch sp reset irq pendsv n x k : exception_irq x = Some k -> k < n -> 7 <= n ->
  g_pfnVectors sp reset irq pendsv n !! Z.to_nat x = Some irq.
Proof.
  unfold exception_irq, IRQ_NMI, IRQ_HARDFAULT, IRQ_SV, IRQ_SYSTICK, IRQ0. intros H Hk Hn.
  repeat case_match; simplify_eq; try (assert (x = 2 \/ x = 3 \/ x = 11 \/ x = 15) as [-> |[-> |[-> | ->] ] ] by lia; done).
  unfold g_pfnVectors. rewrite lookup_app_r by (cbn; lia). apply lookup_replicate_2. cbn. lia.
Qed.

(** PendSV has the vector of its own, the reset vector leads to the reset handler. *)
Lemma vectors_fixed sp reset irq pendsv n :
  g_pfnVectors sp reset irq pendsv n !! 0%nat = Some sp /\ g_pfnVectors sp reset irq pendsv n !! 1%nat = Some reset /\
  g_pfnVectors sp reset irq pendsv n !! 14%nat = Some pendsv.
Proof. done. Qed.
