(* ===== verification/Log.v ===== *)
(** * Log: messages and failed assertions

    [lib/log/log.c] and the assertion handler of [core/runtime.c], on [Printf].  A
    string constant is its address. *)
From S2P Require Import Prelude Fw File CString CStringSpec Printf PrintfSpec.

Inductive log_level_t := LOG_LEVEL_DEBUG | LOG_LEVEL_VERBOSE | LOG_LEVEL_INFO | LOG_LEVEL_WARN | LOG_LEVEL_ERROR.

Definition level_value (l : log_level_t) : Z :=
  match l with
  | LOG_LEVEL_DEBUG => 0
  | LOG_LEVEL_VERBOSE => 1
  | LOG_LEVEL_INFO => 2
  | LOG_LEVEL_WARN => 3
  | LOG_LEVEL_ERROR => 4
  end.

Section Logging.
Context {F : Type} (ops : file_operations F).
Abbreviation io := (CString.io (F := F)).

(** [log_file], and memory with the file it points to. *)
Record logger := mk_logger { log_file : Z; log_io : io }.

Definition on_io {A} (c : M io A) : M logger A := fun s =>
  match c (log_io s) with Ok a i => Ok a (mk_logger (log_file s) i) | Fault f => Fault f end.

Definition min_log_level : log_level_t := LOG_LEVEL_DEBUG.

Definition log_set_file (f : Z) : M logger unit := modify (fun s => mk_logger f (log_io s)).

(** The string constants: the levels, "%s:%d %s " and "%s ". *)
Context (str_D str_V str_I str_W str_E fmt_source fmt_plain : Z).

Definition level_str (l : log_level_t) : Z :=
  match l with
  | LOG_LEVEL_DEBUG => str_D
  | LOG_LEVEL_VERBOSE => str_V
  | LOG_LEVEL_INFO => str_I
  | LOG_LEVEL_WARN => str_W
  | LOG_LEVEL_ERROR => str_E
  end.

Definition _logv (file line : Z) (log_level : log_level_t) (message : Z) (args : list Z) : M logger unit :=
  let! f := gets log_file in
  if negb (truth f) then ret tt
  else
    run! (if truth file then on_io (fprintf ops fmt_source [file; u32 line; level_str log_level])
          else on_io (fprintf ops fmt_plain [level_str log_level])) in
    run! on_io (vfprintf ops message args) in
    run! on_io (file_write ops [13; 10]) in
    ret tt.

Definition _log (file line : Z) (log_level : log_level_t) (message : Z) (args : list Z) : M logger unit :=
  if level_value log_level >=? level_value min_log_level then _logv file line log_level message args else ret tt.

(** With HAVE_LOG: the message "assertion '%s' failed: %s", then a breakpoint and an
    endless loop. *)
Context (fmt_assertion : Z).
Definition _assert_handler (function file line expr msg : Z) : M logger unit :=
  run! _log file line LOG_LEVEL_ERROR fmt_assertion [expr; msg] in
  fail AssertFail.
End Logging.
Arguments mk_logger {F}. Arguments log_file {F}. Arguments log_io {F}.

(** ** What a message looks like *)

Definition level_text (l : log_level_t) : list Z :=
  [91; match l with LOG_LEVEL_DEBUG => 68 | LOG_LEVEL_VERBOSE => 86 | LOG_LEVEL_INFO => 73 | LOG_LEVEL_WARN => 87 | LOG_LEVEL_ERROR => 69 end; 93].

(** Where a message comes from: a file, its name and the line. *)
Definition source_text (src : option (Z * list Z * Z)) : list Z :=
  match src with Some (_, name, line) => name ++ [58] ++ signed_text 0 false line ++ [32] | None => [] end.

Definition line_text (src : option (Z * list Z * Z)) (l : log_level_t) (message : list Z) : list Z :=
  source_text src ++ level_text l ++ [32] ++ message ++ [13; 10].

(** The constants of the module are in memory. *)
Record log_constants (m : bytes) (D V I W E fmt_source fmt_plain : Z) : Prop := {
  lc_level l : let a := level_str D V I W E l in a <> NULL /\ cstr m a (level_text l);
  lc_source : fmt_source <> NULL /\ cstr m fmt_source [37; 115; 58; 37; 100; 32; 37; 115; 32];
  lc_plain : fmt_plain <> NULL /\ cstr m fmt_plain [37; 115; 32] }.

Section Spec.
Context {F : Type} (ops : file_operations F) (log : F -> list Z) (Hacc : accepts ops log).
Context (D V I W E fmt_source fmt_plain : Z).
Abbreviation logv := (_logv ops D V I W E fmt_source fmt_plain).

Definition in_source (m : bytes) (src : option (Z * list Z * Z)) : Prop :=
  match src with
  | Some (file, name, line) => file <> NULL /\ cstr m file name /\ Z.of_nat (length name) < 2 ^ 31 /\ in_u 32 line
  | None => True
  end.
Definition src_file (src : option (Z * list Z * Z)) : Z := match src with Some (file, _, _) => file | None => NULL end.
Definition src_line (src : option (Z * list Z * Z)) : Z := match src with Some (_, _, line) => line | None => 0 end.

Lemma on_io_run {A} (c : M (CString.io (F := F)) A) s a i : c (log_io s) = Ok a i -> on_io c s = Ok a (mk_logger (log_file s) i).
Proof. intros H. unfold on_io. by rewrite H. Qed.

Lemma header_run (s : logger (F := F)) src l : log_constants (iomem (log_io s)) D V I W E fmt_source fmt_plain -> in_source (iomem (log_io s)) src ->
  exists n i, (if truth (src_file src) then fprintf ops fmt_source [src_file src; u32 (src_line src); level_str D V I W E l]
            else fprintf ops fmt_plain [level_str D V I W E l]) (log_io s) = Ok n i /\
    wrote log (source_text src ++ level_text l ++ [32]) (log_io s) i.
Proof.
  intros [Hl [Hs0 Hs] [Hp0 Hp] ] Hin. destruct (Hl l) as [Hl0 Hlt].
  assert (Z.of_nat (length (level_text l)) < 2 ^ 31) as Hll by done.
  destruct src as [ [ [file name] line] |]; cbn [src_file src_line in_source] in *.
  - destruct Hin as (Hf0 & Hf & Hln & Hline). unfold truth. rewrite (proj2 (Z.eqb_neq file 0)) by done. cbn [negb].
    rewrite (wrap_id 32 line) by done.
    destruct (fprintf_run ops log Hacc (log_io s) fmt_source
      [Str file name; Plain 58; Num no_options 100 line; Plain 32; Str (level_str D V I W E l) (level_text l); Plain 32] [])
      as (i & Ei & Wi); [done| |by destruct Hs|eexists _, i; split; [exact Ei|] ].
    + repeat (apply Forall_cons; split; [first [done|by split; [unfold is_char; lia|]|idtac]|]); [|by apply Forall_nil].
      split; [by apply Forall_nil|]. split; [done|]. split; [done|]. split; [set_solver|done].
    + cbn [flat_map rendered app] in Wi. unfold source_text. rewrite <-!app_assoc. cbn [app]. exact Wi.
  - change (truth NULL) with false. cbv iota.
    destruct (fprintf_run ops log Hacc (log_io s) fmt_plain [Str (level_str D V I W E l) (level_text l); Plain 32] [])
      as (i & Ei & Wi); [done| |by destruct Hp|by eexists _, i].
    repeat (apply Forall_cons; split; [first [done|by split; [unfold is_char; lia|]]|]). by apply Forall_nil.
Qed.

Lemma logv_run (s : logger (F := F)) src l message pcs :
  log_constants (iomem (log_io s)) D V I W E fmt_source fmt_plain -> in_source (iomem (log_io s)) src ->
  message <> NULL -> Forall (wf_piece (iomem (log_io s))) pcs -> holds (iomem (log_io s)) message (flat_map piece_text pcs ++ [0]) ->
  log_file s <> NULL ->
  exists i, _log ops D V I W E fmt_source fmt_plain (src_file src) (src_line src) l message (flat_map piece_args pcs) s =
      Ok tt (mk_logger (log_file s) i) /\
    wrote log (line_text src l (flat_map rendered pcs)) (log_io s) i.
Proof.
  intros Hk Hin Hm Hp Hh Hf. destruct (header_run s src l Hk Hin) as (n1 & i1 & E1 & W1).
  destruct (fprintf_run ops log Hacc i1 message pcs []) as (i2 & E2 & W2); [done|by rewrite (proj1 W1)|by rewrite (proj1 W1)|].
  rewrite app_nil_r in E2. destruct (file_write_run ops log Hacc [13; 10] i2) as (i3 & E3 & W3).
  exists i3. split.
  - unfold _log. assert (level_value l >=? level_value min_log_level = true) as -> by (by destruct l).
    unfold _logv. rewrite (bind_ok _ _ s (log_file s) s) by done. unfold truth at 1. rewrite (proj2 (Z.eqb_neq (log_file s) 0)) by done.
    cbn [negb]. rewrite (bind_ok _ _ s n1 (mk_logger (log_file s) i1)) by (destruct (truth (src_file src)); by apply on_io_run).
    rewrite (bind_ok _ _ _ _ _ (on_io_run _ (mk_logger (log_file s) i1) _ _ E2)).
    by rewrite (bind_ok _ _ _ _ _ (on_io_run _ (mk_logger (log_file s) i2) _ _ E3)).
  - unfold line_text. pose proof (wrote_trans log _ _ _ _ _ (wrote_trans log _ _ _ _ _ W1 W2) W3) as H.
    rewrite <-!app_assoc in H. exact H.
Qed.

(** Without a file nothing is written. *)
Lemma log_silent file line l message args (s : logger (F := F)) : log_file s = NULL ->
  _log ops D V I W E fmt_source fmt_plain file line l message args s = Ok tt s.
Proof.
  intros H. unfold _log. destruct (_ >=? _); [|done]. unfold _logv. rewrite (bind_ok _ _ s (log_file s) s) by done. by rewrite H.
Qed.

(** A failed assertion is reported and stops the firmware: what [assert_] stands for. *)
Lemma assert_handler_stops fmt_assertion function src expr et msg mt (s : logger (F := F)) :
  log_constants (iomem (log_io s)) D V I W E fmt_source fmt_plain -> in_source (iomem (log_io s)) src ->
  fmt_assertion <> NULL ->
  holds (iomem (log_io s)) fmt_assertion ([97; 115; 115; 101; 114; 116; 105; 111; 110; 32; 39; 37; 115; 39; 32; 102; 97; 105; 108; 101; 100; 58; 32; 37; 115] ++ [0]) ->
  expr <> NULL -> cstr (iomem (log_io s)) expr et -> Z.of_nat (length et) < 2 ^ 31 ->
  (msg = NULL \/ cstr (iomem (log_io s)) msg mt /\ Z.of_nat (length mt) < 2 ^ 31) ->
  _assert_handler ops D V I W E fmt_source fmt_plain fmt_assertion function (src_file src) (src_line src) expr msg s = Fault AssertFail.
Proof.
  intros Hk Hin Hf0 Hf He0 He Hel Hm. unfold _assert_handler.
  destruct (decide (log_file s = NULL)) as [H0|Hf1].
  { by rewrite (bind_ok _ _ _ _ _ (log_silent _ _ _ _ _ s H0)). }
  set (pm := if msg =? 0 then Null else Str msg mt).
  destruct (logv_run s src LOG_LEVEL_ERROR fmt_assertion
    ((Plain <$> [97; 115; 115; 101; 114; 116; 105; 111; 110; 32; 39]) ++ [Str expr et] ++ (Plain <$> [39; 32; 102; 97; 105; 108; 101; 100; 58; 32]) ++ [pm]))
    as (i & E1 & _); try done.
  - rewrite !Forall_app. split; [|split; [|split] ].
    1,3: apply Forall_fmap; repeat (apply Forall_cons; split; [by split; [unfold is_char; lia|]|]); by apply Forall_nil.
    + by apply Forall_singleton.
    + apply Forall_singleton. unfold pm. destruct (Z.eqb_spec msg 0) as [->|Hn]; [done|]. by destruct Hm as [->|[Hm Hl] ].
  - assert (piece_text pm = [37; 115]) as Et by (unfold pm; by destruct (msg =? 0)).
    rewrite !flat_map_app. cbn [flat_map]. by rewrite Et.
  - assert (piece_args pm = [msg]) as Ea by (unfold pm; destruct (Z.eqb_spec msg 0) as [->|]; done).
    rewrite !flat_map_app in E1. cbn [flat_map] in E1. rewrite Ea in E1. by rewrite (bind_ok _ _ _ _ _ E1).
Qed.
End Spec.

(** C27: A log message is one line: with a log file set, [_log] writes the source - the
    name of the file, a colon and the line number, when there is one -, the level in
    brackets, a space, the message with its arguments rendered as [vfprintf] does, and
    the line end, in this order and nothing else; memory stays as it is. *)
Theorem log_line {F : Type} (ops : file_operations F) log (D V I W E fmt_source fmt_plain : Z) (s : logger (F := F)) src l message pcs :
  accepts ops log ->
  log_constants (iomem (log_io s)) D V I W E fmt_source fmt_plain -> in_source (iomem (log_io s)) src ->
  message <> NULL -> Forall (wf_piece (iomem (log_io s))) pcs -> holds (iomem (log_io s)) message (flat_map piece_text pcs ++ [0]) ->
  log_file s <> NULL ->
  exists s', _log ops D V I W E fmt_source fmt_plain (src_file src) (src_line src) l message (flat_map piece_args pcs) s = Ok tt s' /\
    log (iofile (log_io s')) = log (iofile (log_io s)) ++ line_text src l (flat_map rendered pcs) /\
    iomem (log_io s') = iomem (log_io s) /\ log_file s' = log_file s.
Proof.
  intros Hacc Hk Hin Hm Hp Hh Hf.
  destruct (logv_run ops log Hacc D V I W E fmt_source fmt_plain s src l message pcs Hk Hin Hm Hp Hh Hf) as (i & E1 & Em & Ef).
  eexists. split; [exact E1|]. done.
Qed.

(** *** Witness: "m.c:7 [W] low 42" *)

Definition log_memory : bytes :=
  poke 10 (level_text LOG_LEVEL_DEBUG ++ [0]) (poke 20 (level_text LOG_LEVEL_VERBOSE ++ [0]) (poke 30 (level_text LOG_LEVEL_INFO ++ [0])
  (poke 40 (level_text LOG_LEVEL_WARN ++ [0]) (poke 50 (level_text LOG_LEVEL_ERROR ++ [0])
  (poke 60 [37; 115; 58; 37; 100; 32; 37; 115; 32; 0] (poke 80 [37; 115; 32; 0]
  (poke 90 [109; 46; 99; 0] (poke 100 [108; 111; 119; 32; 37; 117; 0] empty)))))))).

Lemma log_line_witness :
  exists s', _log term_ops 10 20 30 40 50 60 80 90 7 LOG_LEVEL_WARN 100 [42] (mk_logger 1 (mk_io log_memory (mk_term [] []))) = Ok tt s' /\
    screen (iofile (log_io s')) = [109; 46; 99; 58; 55; 32; 91; 87; 93; 32; 108; 111; 119; 32; 52; 50; 13; 10].
Proof.
  destruct (log_line term_ops screen 10 20 30 40 50 60 80 (mk_logger 1 (mk_io log_memory (mk_term [] []))) (Some (90, [109; 46; 99], 7))
    LOG_LEVEL_WARN 100 [Plain 108; Plain 111; Plain 119; Plain 32; Num no_options 117 42]) as (s' & E & H & _); [apply term_accepts| | |by unfold NULL| | |by unfold NULL|].
  - split; [intros l; destruct l; (split; [done|concrete_cstr])|split; [done|concrete_cstr]..].
  - split; [done|]. split; [concrete_cstr|]. done.
  - repeat (apply Forall_cons; split; [first [done|by split; [unfold is_char; lia|]|idtac]|]); [|by apply Forall_nil].
    split; [by apply Forall_nil|]. split; [done|]. split; [done|]. split; [set_solver|done].
  - vm_compute. repeat split.
  - exists s'. split; [exact E|]. rewrite H. vm_compute. reflexivity.
Defined.
