(* ===== verification/Spawn.v ===== *)
(** * Spawn: the console's thread

    [console_spawn] and [printf] of [lib/console/console.c]: the console object, its
    thread and the file it prints to. *)
From S2P Require Import Prelude ListApi DList Fw File CString Printf Sched Semaphore SchedSpec SchedRun SchedProps Words Switch SwitchSpec.

Definition STACK_SIZE_CONSOLE : Z := 2048.

(** [struct console] *)
Record console := mk_console { console_file : Z; console_thread : Z }.

Section Console.
Context {S L F : Type} `{LA : ListApi S L} (queue_off : Z) (ops_of : Z -> file_operations F).
Abbreviation sys := (Sched.sys (S := S) (L := L)).
Abbreviation io := (CString.io (F := F)).

(** The console objects, [global_console], the kernel, and memory with the files. *)
Record consoles := mk_consoles { objects : gmap Z console; global_console : Z; ckern : sys; cio : io }.

Definition on_kern {A} (c : M sys A) : M consoles A := fun s =>
  match c (ckern s) with Ok a k => Ok a (mk_consoles (objects s) (global_console s) k (cio s)) | Fault f => Fault f end.
Definition on_io {A} (c : M io A) : M consoles A := fun s =>
  match c (cio s) with Ok a i => Ok a (mk_consoles (objects s) (global_console s) (ckern s) i) | Fault f => Fault f end.
Definition get_console (p : Z) : M consoles console := deref (fun s => objects s !! p).
Definition put_console (p : Z) (c : console) : M consoles unit :=
  modify (fun s => mk_consoles (<[p := c]> (objects s)) (global_console s) (ckern s) (cio s)).
Definition set_global (p : Z) : M consoles unit := modify (fun s => mk_consoles (objects s) p (ckern s) (cio s)).

(** [console] is what [malloc_raw] returns, with what it holds; [t] and [memory] are
    what [thread_create] gets. *)
Definition console_spawn (file console : Z) (garbage : Spawn.console) (t memory nm console_main : Z) : M consoles Z :=
  run! assert_ (negb (file =? NULL)) in
  if negb (truth console) then ret NULL
  else
    run! put_console console (mk_console file (console_thread garbage)) in
    let! thread := on_kern (thread_create queue_off t memory nm STACK_SIZE_CONSOLE NULL) in
    run! put_console console (mk_console file thread) in
    if negb (truth thread) then ret NULL
    else
      run! on_kern (thread_set_function thread console_main 1 console) in
      run! on_kern (thread_wakeup queue_off thread) in
      run! set_global console in
      ret console.

Definition printf (format : Z) (args : list Z) : M consoles Z :=
  let! p := gets global_console in
  let! c := get_console p in
  on_io (vfprintf (ops_of (console_file c)) format args).
End Console.
Arguments mk_consoles {S L F}. Arguments objects {S L F}. Arguments global_console {S L F}. Arguments ckern {S L F}. Arguments cio {S L F}.

Section Spec.
Context {S L F : Type} `{LA : ListApi S L} (queue_off : Z) (ops_of : Z -> file_operations F).
Abbreviation sys := (Sched.sys (S := S) (L := L)).

Lemma on_kern_run {A} (c : M sys A) o g k (i : CString.io (F := F)) a k' : c k = Ok a k' ->
  on_kern c (mk_consoles o g k i) = Ok a (mk_consoles o g k' i).
Proof. intros E. unfold on_kern. cbn. by rewrite E. Qed.

Lemma create_parts t memory nm size func arg (s s' : sys) : t <> NULL ->
  create_thread queue_off t memory nm size func arg s = Ok tt s' ->
  exists s1, thread_create queue_off t memory nm size NULL s = Ok t s1 /\ thread_set_function t func 1 arg s1 = Ok tt s'.
Proof.
  intros Ht. unfold create_thread, thread_create. rewrite (proj2 (Z.eqb_neq t NULL)) by done. unfold bind.
  destruct (thread_struct_init _ _ _ _ _ _ s) as [? s1|] eqn:E; [|done]. intros E1. by exists s1.
Qed.

(** What a console that runs is: its object and its thread. *)
Record spawned (s : consoles (S := S) (L := L) (F := F)) (file console t : Z) : Prop := {
  sp_global : global_console s = console;
  sp_object : objects s !! console = Some (mk_console file t) }.

Lemma spawn_run (s : consoles (F := F)) k file console garbage t memory nm console_main :
  rep queue_off (ckern s) k -> wf_kernel queue_off k -> irqs_off (ckern s) = false ->
  ok_event queue_off (KCreate t memory nm STACK_SIZE_CONSOLE NULL) (ckern s) k -> t <> k_cur k ->
  memory + STACK_SIZE_CONSOLE + 4 < 2 ^ 32 -> in_u 32 console_main -> in_u 32 console ->
  file <> NULL -> console <> NULL ->
  exists s', console_spawn queue_off file console garbage t memory nm console_main s = Ok console s' /\
    spawned s' file console t /\ cio s' = cio s /\
    (forall p, p <> console -> objects s' !! p = objects s !! p) /\
    (let k' := spec_event (a_create t k) (KWakeup t) in
     rep queue_off (ckern s') k' /\ wf_kernel queue_off k' /\ k_rq k' = k_rq k ++ [t]) /\
    holds_ctx (ckern s') t (memory + STACK_SIZE_CONSOLE - 60) (initial_context console_main console) /\
    irqs_off (ckern s') = false /\
    exists s1 s2, thread_create queue_off t memory nm STACK_SIZE_CONSOLE NULL (ckern s) = Ok t s1 /\
      thread_set_function t console_main 1 console s1 = Ok tt s2 /\ thread_wakeup queue_off t s2 = Ok tt (ckern s').
Proof.
  intros Hr Hw Hi Hok Hcur Hlim Hm Hc Hf0 Hc0.
  destruct (create_run queue_off (ckern s) k t memory nm STACK_SIZE_CONSOLE console_main console Hr Hw Hi Hok Hcur ltac:(done) ltac:(done) Hlim Hm Hc)
    as (s2 & E2 & Hr2 & Hw2 & Hi2 & Hh2 & _ & _).
  assert (fresh_thread queue_off k t) as Hfr by apply Hok. assert (t <> NULL) as Ht0 by apply Hfr.
  destruct (create_parts _ _ _ _ _ _ _ _ Ht0 E2) as (s1 & E1 & E1').
  assert (ok_event queue_off (KWakeup t) s2 (a_create t k)) as Hok2.
  { split; [cbn; apply elem_of_app; right; by apply list_elem_of_singleton|by eapply fresh_not_waiting]. }
  destruct (event_refines queue_off s2 (a_create t k) (KWakeup t) Hr2 Hw2 Hi2 Hok2) as (s3 & E3 & Hr3 & Hw3 & Hi3).
  destruct (calm_call queue_off (KWakeup t) eq_refl _ _ _ E3) as [Ew Est].
  destruct s as [o g k0 i]. cbn [ckern objects cio] in *.
  exists (mk_consoles (<[console := mk_console file t]> o) console s3 i). split.
  - unfold console_spawn. rewrite (proj2 (Z.eqb_neq file NULL)) by done. unfold truth.
    rewrite (proj2 (Z.eqb_neq console 0)) by done.
    cbn [negb]. rewrite (bind_ok _ _ _ tt (mk_consoles o g k0 i)) by done.
    erewrite (bind_ok (put_console _ _)) by reflexivity.
    erewrite (bind_ok _ _ _ _ _ (on_kern_run _ _ _ _ _ _ _ E1)). erewrite (bind_ok (put_console _ _)) by reflexivity.
    rewrite (proj2 (Z.eqb_neq t 0)) by done. cbn [negb].
    erewrite (bind_ok _ _ _ _ _ (on_kern_run _ _ _ _ _ _ _ E1')). erewrite (bind_ok _ _ _ _ _ (on_kern_run _ _ _ _ _ _ _ E3)).
    cbn. by rewrite insert_insert_eq.
  - split; [by split; [|apply lookup_insert_eq]|]. split; [done|]. split; [intros p Hp; cbn; by rewrite lookup_insert_ne|].
    split; [|split; [apply (holds_kept s2); [exact Hh2|apply Est|intros x _; cbn; congruence]|split; [exact Hi3|by exists s1, s2] ] ].
    split; [done|]. split; [done|]. cbn. unfold running. cbn. by rewrite lookup_insert_eq.
Qed.

Lemma printf_run (s : consoles (S := S) (L := L)) file console t format args : spawned s file console t ->
  printf ops_of format args s = on_io (vfprintf (ops_of file) format args) s.
Proof.
  intros [Hg Ho]. unfold printf. rewrite (bind_ok _ _ s console s) by (unfold gets; by rewrite Hg).
  by rewrite (bind_ok _ _ s (mk_console file t) s) by (by apply deref_ok).
Qed.
End Spec.

(** C18: [console_spawn] starts one thread that serves the console.  With memory for the
    object, the thread and its stack it returns the console; the kernel then is the one
    with a new thread at the end of the queue of running threads, and the stack of this
    thread holds the context that starts [console_main] with the console as its argument
    ([threads_resume]: what a switch to it loads); the object has the file and the
    thread, no other object changes, and [printf] from then on is [vfprintf] on that
    file.  Without memory for the object nothing happens, and without memory for the
    thread [printf] goes where it went; both return NULL. *)
Theorem console_spawned {S L F : Type} `{LA : ListApi S L} queue_off (ops_of : Z -> file_operations F)
    (s : consoles (S := S) (L := L) (F := F)) k file console garbage t memory nm console_main :
  rep queue_off (ckern s) k -> wf_kernel queue_off k -> irqs_off (ckern s) = false ->
  ok_event queue_off (KCreate t memory nm STACK_SIZE_CONSOLE NULL) (ckern s) k -> t <> k_cur k ->
  memory + STACK_SIZE_CONSOLE + 4 < 2 ^ 32 -> in_u 32 console_main -> in_u 32 console ->
  file <> NULL -> console <> NULL ->
  (exists s', console_spawn queue_off file console garbage t memory nm console_main s = Ok console s' /\
    (let k' := spec_event (a_create t k) (KWakeup t) in
     rep queue_off (ckern s') k' /\ wf_kernel queue_off k' /\ k_rq k' = k_rq k ++ [t]) /\
    holds_ctx (ckern s') t (memory + STACK_SIZE_CONSOLE - 60) (initial_context console_main console) /\
    objects s' !! console = Some (mk_console file t) /\ (forall p, p <> console -> objects s' !! p = objects s !! p) /\
    (forall format args, printf ops_of format args s' = on_io (vfprintf (ops_of file) format args) s')) /\
  console_spawn queue_off file NULL garbage t memory nm console_main s = Ok NULL s /\
  (exists s', console_spawn queue_off file console garbage NULL memory nm console_main s = Ok NULL s' /\
    ckern s' = ckern s /\ global_console s' = global_console s).
Proof.
  intros Hr Hw Hi Hok Hcur Hlim Hm Hc Hf0 Hc0. split; [|split].
  - destruct (spawn_run queue_off s k file console garbage t memory nm console_main Hr Hw Hi Hok Hcur Hlim Hm Hc Hf0 Hc0)
      as (s' & E & Hsp & _ & Ho & Hk & Hctx & _).
    exists s'. split; [exact E|]. split; [exact Hk|]. split; [exact Hctx|]. split; [apply Hsp|]. split; [exact Ho|].
    intros format args. by eapply printf_run.
  - unfold console_spawn. rewrite (proj2 (Z.eqb_neq file NULL)) by done. done.
  - unfold console_spawn. rewrite (proj2 (Z.eqb_neq file NULL)) by done. unfold truth.
    rewrite (proj2 (Z.eqb_neq console 0)) by done. eexists. split; [reflexivity|done].
Qed.

Lemma console_spawned_witness :
  exists s', console_spawn 20 1 300 (mk_console 0 0) 200 1000 0 0x400 (mk_consoles ∅ 0 sw_s0 (mk_io ∅ tt)) = Ok 300 s' /\
    objects s' !! 300 = Some (mk_console 1 200) /\ holds_ctx (ckern s') 200 2988 (initial_context 0x400 300).
Proof.
  destruct sw_inv as [Hr Hw Hi _ _].
  destruct (console_spawned 20 (fun _ => mk_ops None None None) (mk_consoles ∅ 0 sw_s0 (mk_io ∅ tt)) sw_k0 1 300 (mk_console 0 0) 200 1000 0 0x400 Hr Hw Hi)
    as [ (s' & E & _ & Hctx & Ho & _) _];
    [apply ok_event_b_ok; vm_compute; reflexivity|done..|].
  exists s'. split; [exact E|]. by split.
Defined.
