(* ===== verification/Gpio.v ===== *)
(** * Gpio: pins and the valve they drive

    [platform/lpc11xx/gpio.c] and [target/valve-controller/valve.c], with the converter
    of [Sht2x] ([platform/lpc11xx/adc.c]).  The registers
    are given: a class of their accesses with what the chip's manual says of them.
    A pin is the word [PIN] makes: port, bit and number of the package's pin. *)
From S2P Require Import Prelude Fw Sht2x.

Definition PIN (port pin number : Z) : Z := Z.lor (Z.lor (Z.shiftl port 24) (Z.shiftl pin 8)) number.

(** The masked data registers of the ports, their directions, and the words of the
    I/O configuration block. *)
Class GpioRegs (W : Type) := {
  masked_read : Z -> Z -> W -> Z;
  masked_write : Z -> Z -> Z -> W -> W;
  dir_read : Z -> W -> Z;
  dir_write : Z -> Z -> W -> W;
  iocon_read : Z -> W -> Z;
  iocon_write : Z -> Z -> W -> W }.

Inductive gpio_direction_t := GPIO_DIRECTION_IN | GPIO_DIRECTION_OUT.
Inductive gpio_pull_t := GPIO_PULL_NONE | GPIO_PULL_UP | GPIO_PULL_DOWN.

Definition pin_get_port (pin : Z) : Z := u8 (Z.shiftr pin 24).
Definition pin_get_pin (pin : Z) : Z := u8 (Z.land (Z.shiftr pin 8) 0xFFFF).
Definition pin_get_number (pin : Z) : Z := u8 (Z.land pin 0xFF).

(** The offset [gpio_set_pull] computes from the number of a pin. *)
Definition pull_offset (number : Z) : Z :=
  let offset := number in
  let offset := if offset >=? 4 then offset + 4 else offset in
  if offset >=? 6 * 4 then offset + 4 else offset.

Section Pins.
Context {W : Type} `{GR : GpioRegs W} (delay : Z -> M W unit).

(** [LPC_GPIO[port]]: there are four ports; a port has twelve pins. *)
Definition check_pin (port pin : Z) : M W unit :=
  if (port <? 4) && (Z.shiftl 1 pin <? 4096) then ret tt else fail WildAccess.

Definition gpio_set_direction (pin : Z) (direction : gpio_direction_t) : M W unit :=
  let port := pin_get_port pin in
  let pin := pin_get_pin pin in
  if negb (port <? 4) then fail WildAccess
  else
    let! dir := gets (dir_read port) in
    match direction with
    | GPIO_DIRECTION_OUT => modify (dir_write port (Z.lor dir (u32 (Z.shiftl 1 pin))))
    | GPIO_DIRECTION_IN => modify (dir_write port (Z.land dir (u32 (Z.lnot (Z.shiftl 1 pin)))))
    end.

(** The processor does not access words that are not aligned. *)
Definition gpio_set_pull (pin : Z) (pull : gpio_pull_t) : M W unit :=
  let offset := pull_offset (pin_get_number pin) in
  if negb (offset mod 4 =? 0) then fail WildAccess
  else
    let! conf := gets (iocon_read offset) in
    modify (iocon_write offset
      match pull with
      | GPIO_PULL_NONE => Z.land conf 0xFFFFFFE7
      | GPIO_PULL_DOWN => Z.lor (Z.land conf 0xFFFFFFE7) 0x8
      | GPIO_PULL_UP => Z.lor (Z.land conf 0xFFFFFFE7) 0x10
      end).

Definition gpio_set (pin : Z) (on : bool) : M W unit :=
  let port := pin_get_port pin in
  let pin := pin_get_pin pin in
  run! check_pin port pin in
  modify (masked_write port (Z.shiftl 1 pin) (Z.shiftl (Z.b2z on) pin)).

Definition gpio_get (pin : Z) : M W bool :=
  let port := pin_get_port pin in
  let pin := pin_get_pin pin in
  run! check_pin port pin in
  let! v := gets (masked_read port (Z.shiftl 1 pin)) in
  ret (truth (Z.shiftr v pin)).

Definition gpio_strobe (pin : Z) (on : bool) (time : Z) : M W unit :=
  run! gpio_set pin on in
  run! delay time in
  gpio_set pin (negb on).

(** *** The valve *)

Definition VALVE_GARDENA_9V_TYPE : Z := 1.

(** [struct valve]; [open] is written by nobody. *)
Record valve := mk_valve {
  v_open : Z; v_polarity : Z; v_open_power : Z; v_close_power : Z; v_pin_a : Z; v_pin_b : Z;
  v_min_voltage : Z; v_max_voltage : Z; v_adc : Z }.

(** What the converter reads, and a division by zero. *)
Context (adc_read : Z -> M W Z) (div0 : M W Z).

Definition divide (a b : Z) : M W Z := if b =? 0 then div0 else ret (a / b).

(** [volt] is unsigned, so the bounds are compared as unsigned values. *)
Definition drive (power : Z) (v : valve) : M W bool :=
  let! volt := adc_read (v_adc v) in
  if (volt <? u32 (v_min_voltage v)) || (volt >? u32 (v_max_voltage v)) then ret false
  else
    let! duration := divide power volt in
    let pin := if truth (v_polarity v) then v_pin_a v else v_pin_b v in
    run! gpio_strobe pin true duration in
    ret true.

Definition valve_close (v : valve) : M W bool := drive (v_close_power v) v.
Definition valve_open (v : valve) : M W bool := drive (v_open_power v) v.

Definition set_polarity (p : Z) (v : valve) : valve :=
  mk_valve (v_open v) p (v_open_power v) (v_close_power v) (v_pin_a v) (v_pin_b v) (v_min_voltage v) (v_max_voltage v) (v_adc v).

(** The structure as [memset] and the branch on the type leave it. *)
Definition valve_fields (valve_type adc : Z) : valve :=
  if valve_type =? VALVE_GARDENA_9V_TYPE then mk_valve 0 0 200000 55000 0 0 7000 14000 adc
  else mk_valve 0 0 0 0 0 0 0 0 adc.

(** [memory] is what [malloc_raw] returns; the valve is the object there. *)
Definition valve_create (memory pin_a pin_b valve_type adc : Z) : M W (option valve) :=
  if negb (truth memory) then ret None
  else
    let v := valve_fields valve_type adc in
    run! gpio_set_direction (v_pin_a v) GPIO_DIRECTION_OUT in
    run! gpio_set_direction (v_pin_b v) GPIO_DIRECTION_OUT in
    run! valve_close v in
    let v := set_polarity (Z.b2z (negb (truth (v_polarity v)))) v in
    run! valve_close v in
    let v := set_polarity (Z.b2z (negb (truth (v_polarity v)))) v in
    ret (Some v).
End Pins.

(** ** What the manual says of the registers *)

(** [level w p b]: the level to which the data register drives bit [b] of port [p]. *)
Class GpioLaws (W : Type) `{GpioRegs W} := {
  level : W -> Z -> Z -> bool;
  level_write w p m v q b : level (masked_write p m v w) q b = if (q =? p) && Z.testbit m b then Z.testbit v b else level w q b;
  level_dir w p v q b : level (dir_write p v w) q b = level w q b;
  dir_after w p v q b : 0 <= b < 12 ->
    Z.testbit (dir_read q (dir_write p v w)) b = if q =? p then Z.testbit v b else Z.testbit (dir_read q w) b;
  dir_masked w p m v q : dir_read q (masked_write p m v w) = dir_read q w;
  read_mask w p m b : Z.testbit m b = false -> Z.testbit (masked_read p m w) b = false;
  read_output w p m b : 0 <= b < 12 -> Z.testbit (dir_read p w) b = true -> Z.testbit m b = true ->
    Z.testbit (masked_read p m w) b = level w p b }.

Lemma bit_of_shift p b : 0 <= p -> Z.testbit (Z.shiftl 1 p) b = (b =? p).
Proof.
  intros Hp. destruct (Z.ltb_spec b 0); [rewrite Z.testbit_neg_r by done; lia|]. rewrite Z.shiftl_spec by done.
  destruct (Z.eqb_spec b p) as [->|]; [by rewrite Z.sub_diag|]. destruct (Z.ltb_spec (b - p) 0); [by rewrite Z.testbit_neg_r|].
  apply Z.bits_above_log2; [done|]. cbn. lia.
Qed.

(** The fields of a pin. *)
Definition is_pin (pin port bit : Z) : Prop := pin_get_port pin = port /\ pin_get_pin pin = bit /\ 0 <= port < 4 /\ 0 <= bit < 12.

Lemma pin_fields port bit number : 0 <= port < 4 -> 0 <= bit < 12 -> in_u 8 number ->
  is_pin (PIN port bit number) port bit /\ pin_get_number (PIN port bit number) = number.
Proof.
  intros Hp Hb Hn. unfold is_pin, pin_get_port, pin_get_pin, pin_get_number, PIN.
  assert (forall i, 8 <= i -> Z.testbit number i = false) as Hn8 by (intros; by eapply in_u_testbit_high).
  assert (in_u 8 bit) as Hb8 by (unfold in_u; lia). assert (in_u 8 port) as Hp8 by (unfold in_u; lia).
  change 0xFFFF with (Z.ones 16). change 0xFF with (Z.ones 8).
  split; [split; [|split; [|done] ]|]; bitwise; rewrite ?Z.testbit_ones by lia.
  - destruct (Z.ltb_spec i 8); [|by rewrite (in_u_testbit_high 8 port i)].
    rewrite (in_u_testbit_high 8 bit) by (done || lia). rewrite Hn8 by lia. replace (i + 24 - 24) with i by lia. cbn. by rewrite !orb_false_r.
  - destruct (Z.ltb_spec i 8); [|by rewrite (in_u_testbit_high 8 bit i)].
    rewrite Hn8 by lia. rewrite (Z.testbit_neg_r port) by lia. replace (i + 8 - 8) with i by lia. rewrite orb_false_r. cbn.
    replace ((0 <=? i) && (i <? 16)) with true by lia. apply andb_true_r.
  - destruct (Z.ltb_spec i 8); [|by rewrite (in_u_testbit_high 8 number i)].
    rewrite (Z.testbit_neg_r port), (Z.testbit_neg_r bit) by lia. cbn.
    rewrite (proj2 (Z.leb_le 0 i)) by lia. apply andb_true_r.
Qed.

Section Spec.
Context {W : Type} `{GL : GpioLaws W} (delay : Z -> M W unit).

Lemma check_run port bit (w : W) : 0 <= port < 4 -> 0 <= bit < 12 -> check_pin port bit w = Ok tt w.
Proof.
  intros Hp Hb. unfold check_pin. rewrite (proj2 (Z.ltb_lt port 4)) by lia.
  rewrite Z.shiftl_1_l. assert (2 ^ bit < 4096) by (apply (Z.pow_lt_mono_r 2 bit 12); lia). by rewrite (proj2 (Z.ltb_lt (2 ^ bit) 4096)).
Qed.

(** The only pin whose level changes is the one that is set. *)
Lemma gpio_set_run pin port bit on (w : W) : is_pin pin port bit ->
  exists w', gpio_set pin on w = Ok tt w' /\ (forall q, dir_read q w' = dir_read q w) /\
    forall q b, level w' q b = if (q =? port) && (b =? bit) then on else level w q b.
Proof.
  intros (Ep & Eb & Hp & Hb). unfold gpio_set. rewrite Ep, Eb. rewrite (bind_ok _ _ _ _ _ (check_run port bit w Hp Hb)).
  eexists. split; [reflexivity|]. split; [intros q; apply dir_masked|]. intros q b. rewrite level_write, bit_of_shift by lia.
  destruct (Z.eqb_spec b bit) as [->|]; [|by rewrite !andb_false_r]. destruct (q =? port); [|done]. cbn. rewrite Z.shiftl_spec by lia.
  rewrite Z.sub_diag. by destruct on.
Qed.

Lemma gpio_get_run pin port bit (w : W) : is_pin pin port bit -> Z.testbit (dir_read port w) bit = true ->
  gpio_get pin w = Ok (level w port bit) w.
Proof.
  intros (Ep & Eb & Hp & Hb) Ho. unfold gpio_get. rewrite Ep, Eb. rewrite (bind_ok _ _ _ _ _ (check_run port bit w Hp Hb)).
  unfold gets, bind, ret. f_equal. set (v := masked_read port (Z.shiftl 1 bit) w).
  assert (forall b, Z.testbit v b = (b =? bit) && level w port bit) as Hv.
  { intros b. destruct (Z.eqb_spec b bit) as [->|Hne]; cbn.
    - apply read_output; [done|done|]. rewrite bit_of_shift by lia. apply Z.eqb_refl.
    - apply read_mask. rewrite bit_of_shift by lia. lia. }
  assert (Z.shiftr v bit = Z.b2z (level w port bit)) as ->; [|by destruct (level w port bit)].
  apply Z.bits_inj'. intros i Hi. rewrite Z.shiftr_spec, Hv by done.
  destruct (Z.eqb_spec (i + bit) bit) as [E|E].
  - assert (i = 0) as -> by lia. by destruct (level w port bit).
  - destruct (level w port bit); cbn; [|by rewrite Z.testbit_0_l]. symmetry. apply Z.bits_above_log2; [done|]. cbn. lia.
Qed.

Lemma gpio_direction_run pin port bit dir (w : W) : is_pin pin port bit ->
  exists w', gpio_set_direction pin dir w = Ok tt w' /\ (forall q b, level w' q b = level w q b) /\
    forall q b, 0 <= b < 12 -> Z.testbit (dir_read q w') b =
      if (q =? port) && (b =? bit) then (match dir with GPIO_DIRECTION_OUT => true | _ => false end) else Z.testbit (dir_read q w) b.
Proof.
  intros (Ep & Eb & Hp & Hb). unfold gpio_set_direction. rewrite Ep, Eb. rewrite (proj2 (Z.ltb_lt port 4)) by lia. cbn [negb].
  rewrite (bind_ok _ _ w (dir_read port w) w) by done.
  destruct dir; (eexists; split; [reflexivity|]; split; [intros q b; apply level_dir|]; intros q b Hbb; rewrite dir_after by done;
    (destruct (Z.eqb_spec q port) as [->|]; [|done]); cbn; rewrite ?Z.land_spec, ?Z.lor_spec, wrap_testbit, (proj2 (Z.ltb_lt b 32)) by lia; cbn;
    rewrite ?Z.lnot_spec, bit_of_shift by lia; destruct (b =? bit); cbn; rewrite ?andb_true_r, ?andb_false_r, ?orb_true_r, ?orb_false_r; done).
Qed.

(** The delay comes back, and nobody else drives the pin meanwhile. *)
Definition leaves (port bit : Z) : Prop :=
  forall t w, exists w', delay t w = Ok tt w' /\ level w' port bit = level w port bit.

(** A pulse: from [w] to [w'] the pin is on for [t], and off in the end. *)
Definition pulse (port bit t : Z) (w w' : W) : Prop :=
  exists w1 w2, (forall q b, level w1 q b = if (q =? port) && (b =? bit) then true else level w q b) /\
    delay t w1 = Ok tt w2 /\ forall q b, level w' q b = if (q =? port) && (b =? bit) then false else level w2 q b.

Lemma strobe_run pin port bit t (w : W) : is_pin pin port bit -> leaves port bit ->
  exists w', gpio_strobe delay pin true t w = Ok tt w' /\ pulse port bit t w w'.
Proof.
  intros Hpin Hd. destruct (gpio_set_run pin port bit true w Hpin) as (w1 & E1 & _ & H1).
  destruct (Hd t w1) as (w2 & E2 & _). destruct (gpio_set_run pin port bit false w2 Hpin) as (w3 & E3 & _ & H3).
  exists w3. split; [|by exists w1, w2]. unfold gpio_strobe. by rewrite (bind_ok _ _ _ _ _ E1), (bind_ok _ _ _ _ _ E2).
Qed.

Context (adc_read : Z -> M W Z) (div0 : M W Z).

Lemma drive_run power v volt port bit (w w0 : W) :
  adc_read (v_adc v) w = Ok volt w0 -> in_u 32 volt -> 0 < v_min_voltage v -> v_max_voltage v < 2 ^ 31 -> 0 <= power ->
  is_pin (if truth (v_polarity v) then v_pin_a v else v_pin_b v) port bit -> leaves port bit ->
  if (v_min_voltage v <=? volt) && (volt <=? v_max_voltage v) then
    exists w', drive delay adc_read div0 power v w = Ok true w' /\ pulse port bit (power / volt) w0 w' /\
      power / v_max_voltage v <= power / volt <= power / v_min_voltage v
  else v_min_voltage v <= v_max_voltage v -> drive delay adc_read div0 power v w = Ok false w0.
Proof.
  intros Ea Hv Hmin Hmax Hpow Hpin Hd. unfold drive. rewrite (bind_ok _ _ _ _ _ Ea).
  destruct ((v_min_voltage v <=? volt) && (volt <=? v_max_voltage v)) eqn:E.
  - rewrite !wrap_id by (unfold in_u; lia). replace ((volt <? v_min_voltage v) || (volt >? v_max_voltage v)) with false by lia.
    unfold divide. rewrite (proj2 (Z.eqb_neq volt 0)) by lia. rewrite (bind_ok _ _ w0 (power / volt) w0) by done.
    destruct (strobe_run _ port bit (power / volt) w0 Hpin Hd) as (w' & E' & Hp). exists w'.
    rewrite (bind_ok _ _ _ _ _ E'). split; [done|]. split; [done|]. split; apply Z.div_le_compat_l; lia.
  - intros Hle. rewrite !wrap_id by (unfold in_u; lia).
    by replace ((volt <? v_min_voltage v) || (volt >? v_max_voltage v)) with true by lia.
Qed.
End Spec.

(** What the converter of the chip reads has ten bits. *)
Lemma adc_read_range {W} (cr_and cr_or : Z -> M W unit) read_gdr rounds w volt w0 :
  Sht2x.adc_read cr_and cr_or read_gdr rounds w = Ok volt w0 -> 0 <= volt < 2 ^ 10.
Proof.
  unfold Sht2x.adc_read, bind. repeat (case_match; [|done]). intros [= <- _].
  change 0x3FF with (Z.ones 10). rewrite Z.land_ones by lia. by apply Z.mod_pos_bound.
Qed.

(** C34: The valve is driven by what the converter reads.  For any converter: a reading
    between 7000 and 14000, meant as millivolts, makes valve_open and valve_close
    switch their pin on, wait for the energy of the type divided by the reading - 14
    to 28 ms to open, 3 to 7 ms to close - and switch it off, with no other pin
    touched, provided that delay comes back and nobody else drives the pin meanwhile;
    any other reading makes them drive nothing and return false.  With the converter
    of the firmware, adc_read, the second is always the case: its raw value has ten
    bits, so whatever the supply is, neither function ever drives a pin, and both
    return false. *)
Theorem valve_pulses {W : Type} `{GL : GpioLaws W} delay div0 (v : valve) p port bit (w : W) :
  v_open_power v = 200000 -> v_close_power v = 55000 -> v_min_voltage v = 7000 -> v_max_voltage v = 14000 ->
  p = (if truth (v_polarity v) then v_pin_a v else v_pin_b v) -> is_pin p port bit -> leaves delay port bit ->
  (forall adc_read volt w0, adc_read (v_adc v) w = Ok volt w0 -> in_u 32 volt ->
   if (7000 <=? volt) && (volt <=? 14000) then
     (exists w', valve_open delay adc_read div0 v w = Ok true w' /\ pulse delay port bit (200000 / volt) w0 w' /\ 14 <= 200000 / volt <= 28) /\
     (exists w', valve_close delay adc_read div0 v w = Ok true w' /\ pulse delay port bit (55000 / volt) w0 w' /\ 3 <= 55000 / volt <= 7)
   else valve_open delay adc_read div0 v w = Ok false w0 /\ valve_close delay adc_read div0 v w = Ok false w0) /\
  (forall cr_and cr_or read_gdr rounds volt w0, Sht2x.adc_read cr_and cr_or read_gdr rounds w = Ok volt w0 ->
   let adc_read := fun _ => Sht2x.adc_read cr_and cr_or read_gdr rounds in
   valve_open delay adc_read div0 v w = Ok false w0 /\ valve_close delay adc_read div0 v w = Ok false w0).
Proof.
  intros Eo Ec Emin Emax -> Hpin Hd.
  assert (forall adc_read volt w0, adc_read (v_adc v) w = Ok volt w0 -> in_u 32 volt ->
    let open := 200000 / volt in let close := 55000 / volt in
    if (7000 <=? volt) && (volt <=? 14000) then
      (exists w', valve_open delay adc_read div0 v w = Ok true w' /\ pulse delay port bit open w0 w' /\ 14 <= open <= 28) /\
      (exists w', valve_close delay adc_read div0 v w = Ok true w' /\ pulse delay port bit close w0 w' /\ 3 <= close <= 7)
    else valve_open delay adc_read div0 v w = Ok false w0 /\ valve_close delay adc_read div0 v w = Ok false w0) as Hdrive.
  { intros adc_read volt w0 Hadc Hv. unfold valve_open, valve_close. rewrite Eo, Ec.
    pose proof (drive_run delay adc_read div0 200000 v volt port bit w w0 Hadc Hv ltac:(lia) ltac:(lia) ltac:(done) Hpin Hd) as Ho.
    pose proof (drive_run delay adc_read div0 55000 v volt port bit w w0 Hadc Hv ltac:(lia) ltac:(lia) ltac:(done) Hpin Hd) as Hc.
    rewrite Emin, Emax in *. destruct ((7000 <=? volt) && (volt <=? 14000)); [by split|]. split; [by apply Ho|by apply Hc]. }
  split; [exact Hdrive|]. intros cr_and cr_or read_gdr rounds volt w0 E adc_read.
  pose proof (adc_read_range _ _ _ _ _ _ _ E) as Hr. specialize (Hdrive adc_read volt w0 E ltac:(unfold in_u; lia)).
  cbv zeta in Hdrive. by replace ((7000 <=? volt) && (volt <=? 14000)) with false in Hdrive by lia.
Qed.

(** The valve [valve_create] makes has neither of the pins it is given: both fields
    stay 0, which is pin 0 of port 0, and the pins are not made outputs. *)
Lemma valve_pins_ignored {W : Type} `{GpioRegs W} delay adc_read div0 memory ty adc a b a' b' (w : W) :
  valve_create delay adc_read div0 memory a b ty adc w = valve_create delay adc_read div0 memory a' b' ty adc w /\
  (forall v w', valve_create delay adc_read div0 memory a b ty adc w = Ok (Some v) w' -> v_pin_a v = 0 /\ v_pin_b v = 0).
Proof.
  split; [done|]. intros v w'. unfold valve_create. destruct (negb (truth memory)); [done|]. unfold bind.
  repeat (case_match; [|done]). intros [= <- _]. unfold set_polarity, valve_fields. by destruct (ty =? _).
Qed.

(** ** Pulls *)

(** The pins of the package: the number [platform/gpio.h] gives each, and the offset of
    its configuration register in [LPC11xx.h]. *)
Definition package_pins : list (Z * Z) := [
   (1, 0x00); (2, 0x08); (3, 0x0c); (4, 0x10); (9, 0x14); (10, 0x1c); (11, 0x20); (12, 0x24); (13, 0x28); (14,
   0x2c); (15, 0x30); (16, 0x34); (17, 0x38); (18, 0x40); (21, 0x44); (22, 0x4c); (23, 0x50); (24, 0x54); (25,
   0x58); (26, 0x5c); (27, 0x60); (28, 0x64); (29, 0x68); (30, 0x6c); (31, 0x70); (32, 0x74); (33, 0x78); (34,
   0x7c); (35, 0x80); (36, 0x84); (37, 0x88); (38, 0x8c); (39, 0x90); (40, 0x94); (42, 0x98); (43, 0x9c); (45,
   0xa0); (46, 0xa4); (47, 0xa8); (48, 0xac) ].

(** [gpio_set_pull] takes the number of the pin in the package for the place of its
    register: it faults, or changes the register of another pin. *)
Lemma pull_misdirected {W : Type} `{GpioRegs W} n o pull (w : W) : (n, o) ∈ package_pins ->
  gpio_set_pull n pull w = Fault WildAccess \/ pull_offset n <> o.
Proof.
  intros Hin. assert (Forall (fun x => pull_offset (pin_get_number x.1) = pull_offset x.1 /\
    (pull_offset x.1 mod 4 <> 0 \/ pull_offset x.1 <> x.2)) package_pins) as Hall.
  { refine (bool_decide_unpack _ _). vm_compute. exact I. }
  rewrite Forall_forall in Hall. destruct (Hall _ Hin) as [E [Hm|Hne] ]; [left|by right]. cbn in E, Hm.
  unfold gpio_set_pull. by rewrite E, (proj2 (Z.eqb_neq _ _) Hm).
Qed.

(** ** Witness: a chip *)

Record chip := mk_chip { data : Z -> Z; dirs : Z -> Z; confs : Z -> Z }.
#[export] Instance chip_regs : GpioRegs chip := {
  masked_read p m w := Z.land m (data w p);
  masked_write p m v w := mk_chip (upd (data w) p (Z.lor (Z.land v m) (Z.ldiff (data w p) m))) (dirs w) (confs w);
  dir_read p w := dirs w p;
  dir_write p v w := mk_chip (data w) (upd (dirs w) p v) (confs w);
  iocon_read o w := confs w o;
  iocon_write o v w := mk_chip (data w) (dirs w) (upd (confs w) o v) }.

#[export] Program Instance chip_laws : GpioLaws chip := { level w p b := Z.testbit (data w p) b }.
Next Obligation.
  intros w p m v q b. cbn. unfold upd. destruct (Z.eqb_spec q p) as [->|]; [|done].
  rewrite Z.lor_spec, Z.land_spec, Z.ldiff_spec. destruct (Z.testbit m b); cbn; by rewrite ?andb_true_r, ?andb_false_r, ?orb_false_r.
Qed.
Next Obligation. done. Qed.
Next Obligation. intros w p v q b Hb. cbn. unfold upd. by destruct (q =? p). Qed.
Next Obligation. done. Qed.
Next Obligation. intros w p m b Hm. cbn. by rewrite Z.land_spec, Hm. Qed.
Next Obligation. intros w p m b Hb Ho Hm. cbn. by rewrite Z.land_spec, Hm. Qed.

Definition chip0 : chip := mk_chip (fun _ => 0) (fun _ => 0xFFF) (fun _ => 0).
Definition wait_ms (t : Z) : M chip unit := ret tt.

Definition ex_valve : valve := mk_valve 0 1 200000 55000 (PIN 2 7 11) (PIN 2 8 12) 7000 14000 0.

(** Ten volts as a reading of 10000, and the highest reading of the converter. *)
Lemma valve_pulses_witness :
  (exists w', valve_open wait_ms (fun _ => ret 10000) (fail WildAccess) ex_valve chip0 = Ok true w' /\ pulse wait_ms 2 7 20 chip0 w') /\
  valve_open wait_ms (fun _ => Sht2x.adc_read (fun _ => ret tt) (fun _ => ret tt) (ret 0xFFFFFFFF) 1) (fail WildAccess) ex_valve chip0 = Ok false chip0.
Proof.
  destruct (valve_pulses wait_ms (fail WildAccess) ex_valve (PIN 2 7 11) 2 7 chip0 eq_refl eq_refl eq_refl eq_refl eq_refl
    ltac:(by vm_compute) ltac:(intros t w; by exists w)) as [Hany Hadc]. split.
  - destruct (proj1 (Hany (fun _ => ret 10000) 10000 chip0 eq_refl ltac:(done))) as (w' & E & Hp & _). by exists w'.
  - exact (proj1 (Hadc (fun _ => ret tt) (fun _ => ret tt) (ret 0xFFFFFFFF) 1%nat 1023 chip0 eq_refl)).
Defined.
