(* ===== verification/Samd20.v ===== *)
(** * Samd20: the drivers of the SAMD20

    [platform/samd20]: [clock.c], [printk.c], [pinmux.c], [gpio.c].  What the registers
    deliver is given, in the order of the loads; the loads and stores are the trace.  An
    assignment to a bit field is a load and a store. *)
From S2P Require Import Prelude Fw.

(** ** Registers *)

(** [PORT o]: at the offset [o] from the base of the ports. *)
Inductive reg :=
| GCLK_STATUS | GCLK_CLKCTRL | GCLK_GENCTRL | GCLK_GENDIV | SYSCTRL_OSC8M | PM_CPUSEL | PM_APBCMASK
| CTRLA | CTRLB | BAUD | INTFLAG | STATUS | DATA | PORT (o : Z).
#[export] Instance reg_eq_dec : EqDecision reg.
Proof. solve_decision. Defined.

(** [Wr8]: a store to the lowest byte. *)
Inductive access := Rd (r : reg) (v : Z) | Wr (r : reg) (v : Z) | Wr8 (r : reg) (v : Z).

Record bus := mk_bus { feed : list Z; accesses : list access }.

Definition load (r : reg) : M bus Z := fun s =>
  match feed s with [] => Fault Diverges | v :: f => Ok v (mk_bus f (accesses s ++ [Rd r v])) end.
Definition store (r : reg) (v : Z) : M bus unit := modify (fun s => mk_bus (feed s) (accesses s ++ [Wr r v])).
Definition store8 (r : reg) (v : Z) : M bus unit := modify (fun s => mk_bus (feed s) (accesses s ++ [Wr8 r (u8 v)])).

(** The bit field of [w] bits at [pos]. *)
Definition field (v pos w : Z) : Z := Z.land (Z.shiftr v pos) (Z.ones w).
Definition put_field (v pos w x : Z) : Z :=
  Z.lor (Z.land v (u32 (Z.lnot (Z.shiftl (Z.ones w) pos)))) (Z.shiftl (Z.land x (Z.ones w)) pos).
Definition store_field (r : reg) (pos w x : Z) : M bus unit := let! v := load r in store r (put_field v pos w x).
Definition store_or (r : reg) (x : Z) : M bus unit := let! v := load r in store r (Z.lor v x).

(** [while (c(r)) ;] *)
Fixpoint spin_on (r : reg) (c : Z -> bool) (f : list Z) (a : list access) : out bus unit :=
  match f with
  | [] => Fault Diverges
  | v :: f => if c v then spin_on r c f (a ++ [Rd r v]) else Ok tt (mk_bus f (a ++ [Rd r v]))
  end.
Definition spin (r : reg) (c : Z -> bool) : M bus unit := fun s => spin_on r c (feed s) (accesses s).

(** ** clock.c *)

Inductive clock_source_t := CLOCK_SOURCE_XOSC | CLOCK_SOURCE_ULP32K | CLOCK_SOURCE_OSC32K | CLOCK_SOURCE_XOSC32K | CLOCK_SOURCE_OSC8M | CLOCK_SOURCE_DFLL.
Definition clock_source_of (v : Z) : option clock_source_t :=
  match v with
  | 0 => Some CLOCK_SOURCE_XOSC | 3 => Some CLOCK_SOURCE_ULP32K | 4 => Some CLOCK_SOURCE_OSC32K
  | 5 => Some CLOCK_SOURCE_XOSC32K | 6 => Some CLOCK_SOURCE_OSC8M | 7 => Some CLOCK_SOURCE_DFLL | _ => None
  end.

(** [unimplemented()] is a failing assertion. *)
Definition clock_get_source (source : Z) : M bus Z :=
  match clock_source_of source with
  | Some CLOCK_SOURCE_OSC8M => let! v := load SYSCTRL_OSC8M in ret (Z.shiftr 8000000 (field v 8 2))
  | Some CLOCK_SOURCE_OSC32K => ret 32768
  | Some CLOCK_SOURCE_ULP32K => ret 32768
  | _ => fail AssertFail
  end.

Definition GCLK_STATUS_SYNCBUSY : Z := Z.shiftl 1 7.
Definition _gclock_sync : M bus unit := spin GCLK_STATUS (fun v => truth (Z.land v GCLK_STATUS_SYNCBUSY)).

(** A shift by 32 and more is undefined: no access follows it. *)
Definition gclock_get_generator (gen : Z) : M bus Z :=
  run! _gclock_sync in
  run! store8 GCLK_GENCTRL gen in
  run! _gclock_sync in
  let! v := load GCLK_GENCTRL in
  let! input := clock_get_source (field v 8 5) in
  run! store8 GCLK_GENCTRL gen in
  run! _gclock_sync in
  let! v := load GCLK_GENCTRL in
  let divsel := field v 20 1 in
  run! store8 GCLK_GENCTRL gen in
  run! _gclock_sync in
  let! v := load GCLK_GENDIV in
  let divider := field v 8 16 in
  if negb (truth divsel) && (divider >? 1) then ret (input / divider)
  else if truth divsel then
    if divider + 1 <? 32 then ret (Z.shiftr input (divider + 1)) else fail WildAccess
  else ret input.

Definition GCLOCK_GENERATOR_0 : Z := 0.
Definition clock_get_main : M bus Z :=
  let! hz := gclock_get_generator GCLOCK_GENERATOR_0 in let! v := load PM_CPUSEL in ret (Z.shiftr hz (u8 v)).
Definition clock_systick_reference : M bus Z := clock_get_main.

(** ** printk.c: the clock of the serial line *)

Definition GCLK_CLKCTRL_CLKEN : Z := Z.shiftl 1 14.
Definition GCLK_CLKCTRL_WRTLOCK : Z := Z.shiftl 1 15.

Record system_gclk_chan_config := mk_chan_config { source_generator : Z; write_lock : bool }.
Definition system_gclk_chan_get_config_defaults : system_gclk_chan_config := mk_chan_config GCLOCK_GENERATOR_0 false.

Definition system_gclk_chan_disable (channel : Z) : M bus unit :=
  run! store8 GCLK_CLKCTRL channel in
  let! v := load GCLK_CLKCTRL in
  let prev_gen_id := field v 8 4 in
  run! store_field GCLK_CLKCTRL 8 4 0 in
  let! v := load GCLK_CLKCTRL in
  run! store GCLK_CLKCTRL (Z.land v (u16 (Z.lnot GCLK_CLKCTRL_CLKEN))) in
  run! spin GCLK_CLKCTRL (fun v => truth (Z.land v GCLK_CLKCTRL_CLKEN)) in
  store_field GCLK_CLKCTRL 8 4 prev_gen_id.

Definition system_gclk_chan_enable (channel : Z) : M bus unit :=
  run! store8 GCLK_CLKCTRL channel in store_or GCLK_CLKCTRL GCLK_CLKCTRL_CLKEN.

Definition system_gclk_chan_set_config (channel : Z) (config : system_gclk_chan_config) : M bus unit :=
  let new := Z.shiftl channel 0 in
  let new := Z.lor new (Z.shiftl (source_generator config) 8) in
  let new := if write_lock config then Z.lor new GCLK_CLKCTRL_WRTLOCK else new in
  run! system_gclk_chan_disable channel in
  store GCLK_CLKCTRL (u16 new).

Definition system_gclk_chan_get_hz (channel : Z) : M bus Z :=
  run! store8 GCLK_CLKCTRL channel in
  let! v := load GCLK_CLKCTRL in
  gclock_get_generator (field v 8 4).

(** The result 1 of the C function is [None]. *)
Definition SHIFT : Z := 32.
Definition _sercom_get_async_baud_val (baudrate peripheral_clock : Z) : option Z :=
  if u32 (baudrate * 16) >=? peripheral_clock then None
  else
    let ratio := wrap 64 (Z.shiftl (16 * baudrate) SHIFT) / peripheral_clock in
    let scale := wrap 64 (Z.shiftl 1 SHIFT - ratio) in
    Some (u16 (Z.shiftr (wrap 64 (65536 * scale)) SHIFT)).

Record _sercom_conf := mk_sercom_conf { generator_is_set : bool; generator_source : Z }.
Definition SERCOM_GCLK_ID : Z := 12.

Definition sercom_set_gclk_generator (_sercom_config : _sercom_conf) (source : Z) (force_change : bool) : M bus (Z * _sercom_conf) :=
  if negb (generator_is_set _sercom_config) || force_change then
    run! system_gclk_chan_set_config SERCOM_GCLK_ID (mk_chan_config source (write_lock system_gclk_chan_get_config_defaults)) in
    run! system_gclk_chan_enable SERCOM_GCLK_ID in
    ret (0, mk_sercom_conf true source)
  else if source =? generator_source _sercom_config then ret (0, _sercom_config)
  else ret (1, _sercom_config).

(** ** pinmux.c *)

Definition SYSTEM_PINMUX_GPIO : Z := Z.shiftl 1 7.
Inductive system_pinmux_pin_dir := SYSTEM_PINMUX_PIN_DIR_INPUT | SYSTEM_PINMUX_PIN_DIR_OUTPUT | SYSTEM_PINMUX_PIN_DIR_OUTPUT_WITH_READBACK.
Inductive system_pinmux_pin_pull := SYSTEM_PINMUX_PIN_PULL_NONE | SYSTEM_PINMUX_PIN_PULL_UP | SYSTEM_PINMUX_PIN_PULL_DOWN.
Record system_pinmux_config := mk_pinmux {
  mux_position : Z; direction : system_pinmux_pin_dir; input_pull : system_pinmux_pin_pull; powersave : bool }.

Definition PORT_WRCONFIG_PMUXEN : Z := Z.shiftl 1 16.
Definition PORT_WRCONFIG_INEN : Z := Z.shiftl 1 17.
Definition PORT_WRCONFIG_PULLEN : Z := Z.shiftl 1 18.
Definition PORT_WRCONFIG_PMUX_Pos : Z := 24.
Definition PORT_WRCONFIG_WRPMUX : Z := Z.shiftl 1 28.
Definition PORT_WRCONFIG_WRPINCFG : Z := Z.shiftl 1 30.
Definition PORT_WRCONFIG_HWSEL : Z := Z.shiftl 1 31.

(** Offsets within a group of 0x80 bytes. *)
Definition DIRCLR : Z := 0x04.
Definition DIRSET : Z := 0x08.
Definition OUTCLR : Z := 0x14.
Definition OUTSET : Z := 0x18.
Definition WRCONFIG : Z := 0x28.

Definition is_input (d : system_pinmux_pin_dir) : bool := match d with SYSTEM_PINMUX_PIN_DIR_OUTPUT => false | _ => true end.
Definition is_output (d : system_pinmux_pin_dir) : bool := match d with SYSTEM_PINMUX_PIN_DIR_INPUT => false | _ => true end.

(** There is one instance of ports, of groups 0x80 bytes apart; else the result is a
    null pointer. *)
Definition system_pinmux_get_group_from_gpio_pin (gpio_pin : Z) : option Z :=
  let port_index := gpio_pin / 128 in
  let group_index := gpio_pin / 32 in
  if port_index <? 1 then Some (0x80 * group_index) else None.

(** [pin_cfg] as it goes to WRCONFIG; the pull-up and the output buffer exclude each other. *)
Definition pin_cfg_of (config : system_pinmux_config) : Z :=
  if powersave config then 0
  else
    let pin_cfg := if negb (mux_position config =? SYSTEM_PINMUX_GPIO)
                   then Z.lor PORT_WRCONFIG_PMUXEN (u32 (Z.shiftl (mux_position config) PORT_WRCONFIG_PMUX_Pos)) else 0 in
    let pin_cfg := if is_input (direction config) then
                     let pin_cfg := Z.lor pin_cfg PORT_WRCONFIG_INEN in
                     match input_pull config with SYSTEM_PINMUX_PIN_PULL_NONE => pin_cfg | _ => Z.lor pin_cfg PORT_WRCONFIG_PULLEN end
                   else pin_cfg in
    if is_output (direction config) then Z.land pin_cfg (u32 (Z.lnot PORT_WRCONFIG_PULLEN)) else pin_cfg.

Definition _system_pinmux_config (port pin_mask : Z) (config : system_pinmux_config) : M bus unit :=
  let pin_cfg := pin_cfg_of config in
  run! (if negb (powersave config) && is_input (direction config) then store (PORT (port + DIRCLR)) pin_mask else ret tt) in
  let lower := Z.land pin_mask 0xFFFF in
  let upper := Z.shiftr pin_mask 16 in
  run! store (PORT (port + WRCONFIG)) (Z.lor (Z.lor (Z.lor (Z.shiftl lower 0) pin_cfg) PORT_WRCONFIG_WRPMUX) PORT_WRCONFIG_WRPINCFG) in
  run! store (PORT (port + WRCONFIG))
    (Z.lor (Z.lor (Z.lor (Z.lor (Z.shiftl upper 0) pin_cfg) PORT_WRCONFIG_WRPMUX) PORT_WRCONFIG_WRPINCFG) PORT_WRCONFIG_HWSEL) in
  if negb (powersave config) then
    run! (if truth (Z.land pin_cfg PORT_WRCONFIG_PULLEN) then
            match input_pull config with
            | SYSTEM_PINMUX_PIN_PULL_UP => store (PORT (port + OUTSET)) pin_mask
            | _ => store (PORT (port + OUTCLR)) pin_mask
            end
          else ret tt) in
    if is_output (direction config) then store (PORT (port + DIRSET)) pin_mask else ret tt
  else ret tt.

Definition pinmux_set_mux (mux : Z) : M bus unit :=
  let pin := Z.shiftr mux 16 in
  let pin_mask := Z.shiftl 1 (pin mod 32) in
  let config := mk_pinmux (u8 (Z.land mux 0xFFFF)) SYSTEM_PINMUX_PIN_DIR_INPUT SYSTEM_PINMUX_PIN_PULL_NONE false in
  match system_pinmux_get_group_from_gpio_pin (u8 pin) with
  | Some port => _system_pinmux_config port pin_mask config
  | None => fail WildAccess
  end.

Definition PINMUX_PA24C_SERCOM3_PAD2 : Z := Z.lor (Z.shiftl 24 16) 2.
Definition PINMUX_PA25C_SERCOM3_PAD3 : Z := Z.lor (Z.shiftl 25 16) 2.

(** ** gpio.c *)

Definition kGPIORegDirClr : Z := 0x04.
Definition kGPIORegDirSet : Z := 0x08.
Definition kGPIORegDataClr : Z := 0x14.
Definition kGPIORegDataSet : Z := 0x18.

Inductive gpio_direction_t := GPIO_DIRECTION_IN | GPIO_DIRECTION_OUT.

Definition gpio_reg (pin reg_offset : Z) : reg := PORT (0x80 * u8 (Z.shiftr pin 24) + reg_offset).
Definition pin_get_bit (pin : Z) : Z := Z.land pin 0x1F.

Definition gpio_set_direction (pin : Z) (direction : gpio_direction_t) : M bus unit :=
  match direction with
  | GPIO_DIRECTION_IN => store (gpio_reg pin kGPIORegDirClr) (Z.shiftl 1 (pin_get_bit pin))
  | GPIO_DIRECTION_OUT => store (gpio_reg pin kGPIORegDirSet) (Z.shiftl 1 (pin_get_bit pin))
  end.

Definition gpio_set (pin : Z) (on : bool) : M bus unit :=
  if on then store (gpio_reg pin kGPIORegDataSet) (Z.shiftl 1 (pin_get_bit pin))
  else store (gpio_reg pin kGPIORegDataClr) (Z.shiftl 1 (pin_get_bit pin)).

Definition gpio_set_pull (pin pull : Z) : M bus unit := fail AssertFail.
Definition gpio_get (pin : Z) : M bus bool := fail AssertFail.
Definition gpio_strobe (pin : Z) (on : bool) (time : Z) : M bus unit := fail AssertFail.

(** ** printk.c: the serial line *)

Definition SERCOM_USART_STATUS_PERR : Z := Z.shiftl 1 0.
Definition SERCOM_USART_STATUS_FERR : Z := Z.shiftl 1 1.
Definition SERCOM_USART_STATUS_BUFOVF : Z := Z.shiftl 1 2.
Definition SERCOM_USART_STATUS_SYNCBUSY : Z := Z.shiftl 1 15.
Definition SERCOM_USART_STATUS_MASK : Z := 0x8007.
Definition SERCOM_USART_INTFLAG_TXC : Z := Z.shiftl 1 1.
Definition SERCOM_USART_INTFLAG_RXC : Z := Z.shiftl 1 2.
Definition SERCOM_USART_CTRLA_DORD : Z := Z.shiftl 1 30.

(** [_sercom_config] is a variable of the file: its value, and its new value. *)
Definition printk_init (sercom_config : _sercom_conf) (baud : Z) : M bus _sercom_conf :=
  let pm_index := 3 + 2 in
  let gclk_index := 3 + 13 in
  run! store_or PM_APBCMASK (Z.shiftl 1 pm_index) in
  run! pinmux_set_mux PINMUX_PA24C_SERCOM3_PAD2 in
  run! pinmux_set_mux PINMUX_PA25C_SERCOM3_PAD3 in
  run! system_gclk_chan_set_config gclk_index (mk_chan_config GCLOCK_GENERATOR_0 (write_lock system_gclk_chan_get_config_defaults)) in
  run! system_gclk_chan_enable gclk_index in
  let! r := sercom_set_gclk_generator sercom_config GCLOCK_GENERATOR_0 false in
  run! store_field CTRLA 2 3 0x1 in
  run! store_field CTRLA 20 2 0x3 in
  run! store_field CTRLA 16 1 0x1 in
  run! store_or CTRLB 0 in
  run! store_or CTRLA SERCOM_USART_CTRLA_DORD in
  run! store_or CTRLA 0 in
  let! hz := system_gclk_chan_get_hz gclk_index in
  run! store BAUD (default 0 (_sercom_get_async_baud_val baud hz)) in
  run! store_field CTRLB 17 1 1 in
  run! store_field CTRLB 16 1 1 in
  run! store_field CTRLA 1 1 1 in
  ret (snd r).

Definition sync : M bus unit := spin STATUS (fun v => truth (Z.land v SERCOM_USART_STATUS_SYNCBUSY)).

(** The character, or [None] for the result -1. *)
Definition getchar : M bus (option Z) :=
  run! spin INTFLAG (fun v => negb (truth (Z.land v SERCOM_USART_INTFLAG_RXC))) in
  run! sync in
  let! v := load STATUS in
  let error_code := u8 (Z.land v SERCOM_USART_STATUS_MASK) in
  if truth error_code && truth (Z.land error_code SERCOM_USART_STATUS_FERR) then
    run! store STATUS SERCOM_USART_STATUS_FERR in ret None
  else if truth error_code && truth (Z.land error_code SERCOM_USART_STATUS_BUFOVF) then
    run! store STATUS SERCOM_USART_STATUS_BUFOVF in ret None
  else if truth error_code && truth (Z.land error_code SERCOM_USART_STATUS_PERR) then
    run! store STATUS SERCOM_USART_STATUS_PERR in ret None
  else let! c := load DATA in ret (Some (u8 c)).

Definition putchar (c : Z) : M bus unit :=
  run! sync in
  run! store DATA c in
  spin INTFLAG (fun v => negb (truth (Z.land v SERCOM_USART_INTFLAG_TXC))).

(** The characters stored; their number is the result. *)
Fixpoint read_op (nbytes : nat) : M bus (list Z) :=
  match nbytes with
  | O => ret []
  | S nbytes => let! c := getchar in
                match c with None => ret [] | Some c => let! cs := read_op nbytes in ret (c :: cs) end
  end.

Fixpoint write_op (buf : list Z) : M bus unit :=
  match buf with [] => ret tt | c :: buf => run! putchar c in write_op buf end.
