(* ===== verification/Samd20Spec.v ===== *)
(** * Samd20Spec: the serial line and the pins of the SAMD20

    The baud rate, the characters received and sent for every sequence of values the
    registers deliver, the pins that are configured, and the clock of a generator. *)
From S2P Require Import Prelude Fw Delay Samd20.

(** ** The baud rate *)

(** C36: The baud rate is met.  For a rate of at least 1 whose sixteenfold is below the
    frequency [f] of the clock, the value for BAUD fits its sixteen bits, and the rate it
    stands for, [f / 16 * (1 - BAUD / 65536)], is above the wanted one by less than
    [f / 2^20], one step of BAUD, and below it by less than [f / 2^36].  Other rates
    below 2^28 are refused. *)
Theorem baud_met b f : 0 < b < 2 ^ 28 -> 0 <= f < 2 ^ 32 ->
  match _sercom_get_async_baud_val b f with
  | Some v => 16 * b < f /\ in_u 16 v /\ 2 ^ 36 * b - f < 2 ^ 16 * (f * (65536 - v)) < 2 ^ 36 * b + 2 ^ 16 * f
  | None => f <= 16 * b
  end.
Proof.
  intros Hb Hf. unfold _sercom_get_async_baud_val. rewrite (wrap_id 32) by (unfold in_u; lia).
  rewrite Z.geb_leb. destruct (Z.leb_spec f (b * 16)) as [|Hlt]; [lia|]. change SHIFT with 32.
  rewrite !Z.shiftl_mul_pow2, Z.shiftr_div_pow2 by lia. rewrite (wrap_id 64 (16 * b * 2 ^ 32)) by (unfold in_u; lia).
  set (ratio := 16 * b * 2 ^ 32 / f).
  pose proof (Z.div_mod (16 * b * 2 ^ 32) f ltac:(lia)) as Hd. fold ratio in Hd.
  pose proof (Z.mod_pos_bound (16 * b * 2 ^ 32) f ltac:(lia)) as Hm.
  assert (0 < ratio < 2 ^ 32) as Hr by nia.
  rewrite (wrap_id 64 (1 * 2 ^ 32 - ratio)), (wrap_id 64 (65536 * _)) by (unfold in_u; lia).
  set (v := 65536 * (1 * 2 ^ 32 - ratio) / 2 ^ 32).
  pose proof (Z.div_mod (65536 * (1 * 2 ^ 32 - ratio)) (2 ^ 32) ltac:(lia)) as Hv. fold v in Hv.
  pose proof (Z.mod_pos_bound (65536 * (1 * 2 ^ 32 - ratio)) (2 ^ 32) ltac:(lia)) as Hvm.
  assert (0 <= v < 2 ^ 16) as Hrange by lia. rewrite wrap_id by done. split; [lia|]. split; [done|].
  assert (ratio <= 2 ^ 16 * (65536 - v) < ratio + 2 ^ 16) as [H1 H2] by lia.
  replace (2 ^ 16 * (f * (65536 - v))) with (f * (2 ^ 16 * (65536 - v))) by lia. nia.
Qed.

Lemma baud_met_witness : 0 < 57600 < 2 ^ 28 /\ _sercom_get_async_baud_val 57600 8000000 = Some 57986 /\ 16 * 57600 < 8000000.
Proof.
  pose proof (baud_met 57600 8000000 ltac:(lia) ltac:(lia)) as H. split; [lia|]. split; [vm_compute; reflexivity|].
  assert (_sercom_get_async_baud_val 57600 8000000 = Some 57986) as E by (vm_compute; reflexivity). rewrite E in H. exact (proj1 H).
Defined.

(** ** Receiving *)

(** What the registers deliver for one character: INTFLAG until it announces it, STATUS
    while the bus is busy and when it is not, STATUS again, DATA. *)
Record rx := mk_rx { rx_polls : list Z; rx_flag : Z; rx_busy : list Z; rx_ready : Z; rx_status : Z; rx_data : Z }.

Definition announces (v : Z) : bool := truth (Z.land v SERCOM_USART_INTFLAG_RXC).
Definition busy (v : Z) : bool := truth (Z.land v SERCOM_USART_STATUS_SYNCBUSY).
Record rx_ok (e : rx) : Prop := {
  rx_waits : forallb (fun v => negb (announces v)) (rx_polls e) = true;
  rx_comes : announces (rx_flag e) = true;
  rx_syncs : forallb busy (rx_busy e) = true;
  rx_synced : busy (rx_ready e) = false }.

(** The error a status shows: framing before overflow before parity. *)
Definition rx_error (status : Z) : option Z :=
  if Z.testbit status 1 then Some SERCOM_USART_STATUS_FERR
  else if Z.testbit status 2 then Some SERCOM_USART_STATUS_BUFOVF
  else if Z.testbit status 0 then Some SERCOM_USART_STATUS_PERR else None.

(** DATA is not read for a character in error. *)
Definition rx_feed (e : rx) : list Z :=
  rx_polls e ++ rx_flag e :: rx_busy e ++ rx_ready e :: rx_status e :: match rx_error (rx_status e) with None => [rx_data e] | Some _ => [] end.
Definition rx_accesses (e : rx) : list access :=
  (Rd INTFLAG <$> rx_polls e ++ [rx_flag e]) ++ (Rd STATUS <$> rx_busy e ++ [rx_ready e; rx_status e]) ++
  match rx_error (rx_status e) with None => [Rd DATA (rx_data e)] | Some flag => [Wr STATUS flag] end.

Lemma spin_run r c polls v rest a : forallb c polls = true -> c v = false ->
  spin r c (mk_bus (polls ++ v :: rest) a) = Ok tt (mk_bus rest (a ++ (Rd r <$> polls ++ [v]))).
Proof.
  intros Hp Hv. unfold spin. cbn [Samd20.feed Samd20.accesses]. revert a Hp.
  induction polls as [|p polls IH]; intros a Hp; cbn [app spin_on fmap list_fmap]; [by rewrite Hv|].
  cbn [forallb] in Hp. apply andb_true_iff in Hp as [-> Hp]. rewrite IH by done. by rewrite <-app_assoc.
Qed.

Lemma truth_and_bit x k : 0 <= k -> truth x && truth (Z.land x (Z.shiftl 1 k)) = Z.testbit x k.
Proof.
  intros Hk. rewrite truth_land_bit by done. unfold truth. destruct (Z.eqb_spec x 0) as [->|]; [by rewrite Z.bits_0|done].
Qed.

Lemma error_bit v k : 0 <= k < 3 -> Z.testbit (u8 (Z.land v SERCOM_USART_STATUS_MASK)) k = Z.testbit v k.
Proof.
  intros Hk. rewrite wrap_testbit, Z.land_spec by lia. assert (k = 0 \/ k = 1 \/ k = 2) as [->|[->| ->] ] by lia; apply andb_true_r.
Qed.

Lemma getchar_run e rest a : rx_ok e ->
  getchar (mk_bus (rx_feed e ++ rest) a) =
  Ok (match rx_error (rx_status e) with None => Some (u8 (rx_data e)) | Some _ => None end) (mk_bus rest (a ++ rx_accesses e)).
Proof.
  intros [H1 H2 H3 H4]. unfold getchar, rx_feed, rx_accesses. rewrite <-app_assoc. cbn [app].
  erewrite bind_ok by (apply spin_run; [exact H1|unfold announces in H2; by rewrite H2]). rewrite <-app_assoc. cbn [app].
  unfold sync. erewrite bind_ok by (apply spin_run; [exact H3|exact H4]). unfold bind at 1, load. cbn [feed accesses app].
  cbv zeta. rewrite (truth_and_bit _ 1), (truth_and_bit _ 2), (truth_and_bit _ 0), !error_bit by lia. unfold rx_error. rewrite !fmap_app. cbn [fmap list_fmap].
  assert (forall x y, (((a ++ (Rd INTFLAG <$> rx_polls e) ++ [Rd INTFLAG (rx_flag e)]) ++ (Rd STATUS <$> rx_busy e) ++ [Rd STATUS (rx_ready e)]) ++ [x]) ++ [y] =
    a ++ ((Rd INTFLAG <$> rx_polls e) ++ [Rd INTFLAG (rx_flag e)]) ++ ((Rd STATUS <$> rx_busy e) ++ [Rd STATUS (rx_ready e); x]) ++ [y]) as Ha.
  { intros x y. by rewrite <-!app_assoc. }
  destruct (Z.testbit (rx_status e) 1); [unfold bind, store, modify, ret; cbn [feed accesses]; by rewrite Ha|].
  destruct (Z.testbit (rx_status e) 2); [unfold bind, store, modify, ret; cbn [feed accesses]; by rewrite Ha|].
  destruct (Z.testbit (rx_status e) 0); [unfold bind, store, modify, ret; cbn [feed accesses]; by rewrite Ha|].
  unfold bind, ret. cbn [feed accesses app]. by rewrite Ha.
Qed.

(** The characters up to the first one in error, which is not delivered, and at most [n]. *)
Fixpoint received (n : nat) (es : list rx) : list Z * list rx :=
  match n, es with
  | S n, e :: es => match rx_error (rx_status e) with
                    | None => let (cs, used) := received n es in (u8 (rx_data e) :: cs, e :: used)
                    | Some _ => ([], [e])
                    end
  | _, _ => ([], [])
  end.

Lemma read_op_run n es rest a : Forall rx_ok es -> (n <= length es)%nat -> exists rest',
  read_op n (mk_bus (concat (rx_feed <$> es) ++ rest) a) =
  Ok (received n es).1 (mk_bus rest' (a ++ concat (rx_accesses <$> (received n es).2))).
Proof.
  intros Hes. revert n a. induction Hes as [|e es He _ IH]; intros [|n] a Hn; cbn [length] in Hn; try lia;
    cbn [received read_op fst snd fmap list_fmap concat]; try (by eexists; rewrite app_nil_r).
  rewrite <-app_assoc. erewrite bind_ok by (by apply getchar_run). destruct (rx_error (rx_status e)) eqn:Ee.
  - cbn [fst snd fmap list_fmap concat]. eexists. by rewrite app_nil_r.
  - destruct (IH n (a ++ rx_accesses e) ltac:(lia)) as (rest' & E). exists rest'. rewrite (bind_ok _ _ _ _ _ E).
    destruct (received n es) as [cs used]. cbn [fst snd fmap list_fmap concat]. unfold ret. by rewrite <-app_assoc.
Qed.

(** C35: What is read from the line.  However long INTFLAG and STATUS keep [read_op]
    waiting, its result are the characters up to the first one in error and at most
    [n], in order; every character takes one load of DATA; and an error - framing before
    overflow before parity - ends the read with a store that clears just its flag, with
    the character left in the receiver. *)
Theorem serial_read n es rest a : Forall rx_ok es -> (n <= length es)%nat ->
  exists cs good rest', read_op n (mk_bus (concat (rx_feed <$> es) ++ rest) a) = Ok cs rest' /\
    cs = (fun e => u8 (rx_data e)) <$> good /\ Forall (fun e => rx_error (rx_status e) = None) good /\
    (good = take n es /\ accesses rest' = a ++ concat (rx_accesses <$> good) \/
     exists bad flag, (good ++ [bad]) `prefix_of` es /\ (length good < n)%nat /\ rx_error (rx_status bad) = Some flag /\
       accesses rest' = a ++ concat (rx_accesses <$> good ++ [bad]) /\ last (accesses rest') = Some (Wr STATUS flag)).
Proof.
  intros Hes Hn. destruct (read_op_run n es rest a Hes Hn) as (rest' & ->).
  assert (exists good, (received n es).1 = (fun e => u8 (rx_data e)) <$> good /\ Forall (fun e => rx_error (rx_status e) = None) good /\
    (good = take n es /\ (received n es).2 = good \/
     exists bad flag, (good ++ [bad]) `prefix_of` es /\ (length good < n)%nat /\ rx_error (rx_status bad) = Some flag /\ (received n es).2 = good ++ [bad]))
    as (good & H1 & H2 & H3).
  { clear Hes. revert n Hn. induction es as [|e es IH]; intros [|n] Hn; cbn [length] in Hn; try lia; try (by exists []; split; [|split; [|left] ]).
    cbn [received take]. destruct (rx_error (rx_status e)) as [flag|] eqn:Ee.
    - exists []. split; [done|]. split; [done|]. right. exists e, flag. cbn. split; [by exists es|]. split; [lia|done].
    - destruct (IH n ltac:(lia)) as (good & G1 & G2 & G3). destruct (received n es) as [cs used]. cbn [fst snd] in *. exists (e :: good).
      split; [cbn; by rewrite G1|]. split; [by constructor|]. destruct G3 as [ [-> ->]|(bad & flag & B1 & B2 & B3 & ->)]; [by left|right].
      exists bad, flag. cbn. split; [by apply prefix_cons|]. split; [lia|done]. }
  eexists _, good, _. split; [reflexivity|]. split; [exact H1|]. split; [exact H2|]. cbn [accesses].
  destruct H3 as [ [-> ->]|(bad & flag & B1 & B2 & B3 & ->)]; [left; done|right; exists bad, flag].
  repeat (split; [done|]). rewrite fmap_app, concat_app. cbn [fmap list_fmap concat]. unfold rx_accesses at 2. rewrite B3, app_nil_r, !app_assoc. apply last_snoc.
Qed.

Definition ex_rx : list rx := [mk_rx [0] 4 [0x8000] 0 0 65; mk_rx [] 4 [] 0 6 66; mk_rx [] 4 [] 0 0 67].
Lemma serial_read_witness : exists cs rest', read_op 3 (mk_bus (concat (rx_feed <$> ex_rx) ++ []) []) = Ok cs rest' /\ cs = [65] /\
  last (accesses rest') = Some (Wr STATUS SERCOM_USART_STATUS_FERR).
Proof.
  destruct (serial_read 3 ex_rx [] []) as (cs & good & rest' & E & _).
  - repeat constructor.
  - cbn. lia.
  - exists cs, rest'. split; [exact E|]. vm_compute in E. injection E as <- <-. split; reflexivity.
Defined.

(** ** Sending *)

(** For one character: STATUS while the bus is busy and when it is not, INTFLAG until it
    announces the end. *)
Record tx := mk_tx { tx_char : Z; tx_busy : list Z; tx_ready : Z; tx_polls : list Z; tx_done : Z }.
Definition completes (v : Z) : bool := truth (Z.land v SERCOM_USART_INTFLAG_TXC).
Record tx_ok (e : tx) : Prop := {
  tx_syncs : forallb busy (tx_busy e) = true;
  tx_synced : busy (tx_ready e) = false;
  tx_waits : forallb (fun v => negb (completes v)) (tx_polls e) = true;
  tx_ends : completes (tx_done e) = true }.
Definition tx_feed (e : tx) : list Z := tx_busy e ++ tx_ready e :: tx_polls e ++ [tx_done e].
Definition tx_accesses (e : tx) : list access :=
  (Rd STATUS <$> tx_busy e ++ [tx_ready e]) ++ Wr DATA (tx_char e) :: (Rd INTFLAG <$> tx_polls e ++ [tx_done e]).

Lemma putchar_run e rest a : tx_ok e -> putchar (tx_char e) (mk_bus (tx_feed e ++ rest) a) = Ok tt (mk_bus rest (a ++ tx_accesses e)).
Proof.
  intros [T1 T2 T3 T4]. unfold putchar, sync, tx_feed, tx_accesses. rewrite <-app_assoc. cbn [app].
  erewrite bind_ok by (apply spin_run; [exact T1|exact T2]). unfold bind, store, modify. cbn [feed accesses]. rewrite <-app_assoc. cbn [app].
  erewrite spin_run; [by rewrite <-!app_assoc|exact T3|unfold completes in T4; by rewrite T4].
Qed.

(** Every character is stored once, in order, when the bus is not busy, and the next one
    only after the end of its transmission. *)
Lemma serial_write es rest a : Forall tx_ok es ->
  write_op (tx_char <$> es) (mk_bus (concat (tx_feed <$> es) ++ rest) a) = Ok tt (mk_bus rest (a ++ concat (tx_accesses <$> es))).
Proof.
  intros Hes. revert a. induction Hes as [|e es He _ IH]; intros a; cbn [write_op fmap list_fmap concat]; [by rewrite app_nil_r|].
  rewrite <-app_assoc. erewrite bind_ok by (by apply putchar_run). by rewrite IH, <-app_assoc.
Qed.

(** ** Pins *)

(** The pins of a group a word of WRCONFIG is for. *)
Definition selects (w q : Z) : bool := Z.testbit w (q mod 16) && Bool.eqb (Z.testbit w 31) (16 <=? q).
Definition muxes (m w : Z) : bool :=
  (field w 24 4 =? m) && Z.testbit w 16 && Z.testbit w 17 && negb (Z.testbit w 18) && Z.testbit w 28 && Z.testbit w 30.

Definition wr_lo (p m : Z) : Z :=
  Z.lor (Z.lor (Z.lor (Z.shiftl (Z.land (Z.shiftl 1 p) 0xFFFF) 0) (pin_cfg_of (mk_pinmux m SYSTEM_PINMUX_PIN_DIR_INPUT SYSTEM_PINMUX_PIN_PULL_NONE false)))
    PORT_WRCONFIG_WRPMUX) PORT_WRCONFIG_WRPINCFG.
Definition wr_hi (p m : Z) : Z :=
  Z.lor (Z.lor (Z.lor (Z.lor (Z.shiftl (Z.shiftr (Z.shiftl 1 p) 16) 0) (pin_cfg_of (mk_pinmux m SYSTEM_PINMUX_PIN_DIR_INPUT SYSTEM_PINMUX_PIN_PULL_NONE false)))
    PORT_WRCONFIG_WRPMUX) PORT_WRCONFIG_WRPINCFG) PORT_WRCONFIG_HWSEL.

Lemma words_ok :
  forallb (fun p => forallb (fun m => muxes m (wr_lo p m) && muxes m (wr_hi p m) &&
    forallb (fun q => Bool.eqb (selects (wr_lo p m) q || selects (wr_hi p m) q) (q =? p)) (seqZ 0 32)) (seqZ 0 16)) (seqZ 0 32) = true.
Proof. vm_compute. reflexivity. Qed.

Lemma words_use p m : 0 <= p < 32 -> 0 <= m < 16 ->
  muxes m (wr_lo p m) = true /\ muxes m (wr_hi p m) = true /\
  forall q, 0 <= q < 32 -> selects (wr_lo p m) q || selects (wr_hi p m) q = (q =? p).
Proof.
  intros Hp Hm. pose proof words_ok as H. rewrite forallb_forall in H.
  specialize (H p ltac:(apply list_elem_of_In, elem_of_seqZ; lia)). rewrite forallb_forall in H.
  specialize (H m ltac:(apply list_elem_of_In, elem_of_seqZ; lia)). rewrite !andb_true_iff in H. destruct H as [ [H1 H2] H3].
  split; [done|]. split; [done|]. intros q Hq. rewrite forallb_forall in H3. apply eqb_prop, H3, list_elem_of_In, elem_of_seqZ. lia.
Qed.

(** C37: A pin goes to its peripheral alone.  [pinmux_set_mux] for the pins of the one
    port and a multiplexer position makes the pin an input and stores to WRCONFIG of its
    group: the two words are for this pin of the group and no other, and give it the
    position, with the multiplexer and the input buffer enabled and no pull-up. *)
Theorem pin_muxed pin m f a : 0 <= pin < 128 -> 0 <= m < 16 ->
  exists lo hi, pinmux_set_mux (Z.lor (Z.shiftl pin 16) m) (mk_bus f a) =
      Ok tt (mk_bus f (a ++ [Wr (PORT (0x80 * (pin / 32) + DIRCLR)) (2 ^ (pin mod 32));
                             Wr (PORT (0x80 * (pin / 32) + WRCONFIG)) lo; Wr (PORT (0x80 * (pin / 32) + WRCONFIG)) hi])) /\
    muxes m lo = true /\ muxes m hi = true /\
    forall q, 0 <= q < 32 -> selects lo q || selects hi q = (q =? pin mod 32).
Proof.
  intros Hp Hm. exists (wr_lo (pin mod 32) m), (wr_hi (pin mod 32) m).
  split; [|apply words_use; [apply Z.mod_pos_bound; lia|done] ].
  assert (Z.shiftr (Z.lor (Z.shiftl pin 16) m) 16 = pin) as Epin.
  { rewrite Z.shiftr_lor, Z.shiftr_shiftl_l, Z.sub_diag, Z.shiftl_0_r by lia.
    rewrite (Z.shiftr_div_pow2 m) by lia. rewrite (Z.div_small m) by lia. apply Z.lor_0_r. }
  assert (u8 (Z.land (Z.lor (Z.shiftl pin 16) m) 0xFFFF) = m) as Em.
  { transitivity (u8 m); [|apply wrap_id; unfold in_u; lia]. change 0xFFFF with (Z.ones 16). apply Z.bits_inj'. intros i Hi.
    rewrite !wrap_testbit, Z.land_spec, Z.lor_spec, Z.shiftl_spec, Z.testbit_ones_nonneg by lia.
    destruct (Z.ltb_spec i 8); [|done]. rewrite (Z.testbit_neg_r pin), (proj2 (Z.ltb_lt i 16)) by lia. cbn. apply andb_true_r. }
  unfold pinmux_set_mux, system_pinmux_get_group_from_gpio_pin. rewrite Epin, Em, (wrap_id 8 pin) by (unfold in_u; lia).
  rewrite (Z.div_small pin 128) by lia. change (0 <? 1) with true. cbv iota.
  unfold _system_pinmux_config. cbn [powersave direction input_pull negb andb is_input is_output].
  assert (Z.land (pin_cfg_of (mk_pinmux m SYSTEM_PINMUX_PIN_DIR_INPUT SYSTEM_PINMUX_PIN_PULL_NONE false)) PORT_WRCONFIG_PULLEN = 0) as ->.
  { assert (forallb (fun m => Z.land (pin_cfg_of (mk_pinmux m SYSTEM_PINMUX_PIN_DIR_INPUT SYSTEM_PINMUX_PIN_PULL_NONE false)) PORT_WRCONFIG_PULLEN =? 0) (seqZ 0 16) = true) as H
      by (vm_compute; reflexivity).
    rewrite forallb_forall in H. apply Z.eqb_eq, H, list_elem_of_In, elem_of_seqZ. lia. }
  unfold bind, store, modify, ret. cbn [feed accesses truth Z.eqb negb]. rewrite <-!app_assoc. cbn [app].
  rewrite (Z.shiftl_1_l (pin mod 32)) at 1. done.
Qed.

Lemma pin_muxed_witness : exists lo hi, pinmux_set_mux PINMUX_PA24C_SERCOM3_PAD2 (mk_bus [] []) =
  Ok tt (mk_bus [] [Wr (PORT DIRCLR) (2 ^ 24); Wr (PORT WRCONFIG) lo; Wr (PORT WRCONFIG) hi]) /\ muxes 2 hi = true.
Proof.
  destruct (pin_muxed 24 2 [] [] ltac:(lia) ltac:(lia)) as (lo & hi & E & _ & H & _). exists lo, hi. split; [exact E|exact H].
Defined.

(** *** The pins of [gpio.c] *)

Definition pin_port (pin : Z) : Z := u8 (Z.shiftr pin 24).

(** Two stores are the same only for the same pin and the same operation. *)
Lemma gpio_apart pin pin' o o' : (o = kGPIORegDirClr \/ o = kGPIORegDirSet \/ o = kGPIORegDataClr \/ o = kGPIORegDataSet) ->
  (o' = kGPIORegDirClr \/ o' = kGPIORegDirSet \/ o' = kGPIORegDataClr \/ o' = kGPIORegDataSet) ->
  gpio_reg pin o = gpio_reg pin' o' -> Z.shiftl 1 (pin_get_bit pin) = Z.shiftl 1 (pin_get_bit pin') ->
  pin_port pin = pin_port pin' /\ pin_get_bit pin = pin_get_bit pin' /\ o = o'.
Proof.
  unfold gpio_reg, pin_port. intros Ho Ho' [= Hr] Hb.
  assert (0 <= pin_get_bit pin /\ 0 <= pin_get_bit pin') as [H1 H2] by (split; apply Z.land_nonneg; by right).
  rewrite !Z.shiftl_1_l in Hb. apply Z.pow_inj_r in Hb; [|lia..]. unfold kGPIORegDirClr, kGPIORegDirSet, kGPIORegDataClr, kGPIORegDataSet in *.
  split; [|split; [done|] ]; lia.
Qed.

(** ** The clock of a generator *)

Record synced := mk_synced { sy_busy : list Z; sy_ready : Z }.
Definition sync_busy (v : Z) : bool := truth (Z.land v GCLK_STATUS_SYNCBUSY).
Definition synced_ok (y : synced) : Prop := forallb sync_busy (sy_busy y) = true /\ sync_busy (sy_ready y) = false.
Definition sync_feed (y : synced) (f : list Z) : list Z := sy_busy y ++ sy_ready y :: f.

Lemma sync_run y f a : synced_ok y -> exists a', _gclock_sync (mk_bus (sync_feed y f) a) = Ok tt (mk_bus f a').
Proof. intros [H1 H2]. eexists. by apply spin_run. Qed.

Definition source_hz (src presc : Z) : option Z :=
  match clock_source_of (field src 8 5) with
  | Some CLOCK_SOURCE_OSC8M => Some (Z.shiftr 8000000 (field presc 8 2))
  | Some CLOCK_SOURCE_OSC32K | Some CLOCK_SOURCE_ULP32K => Some 32768
  | _ => None
  end.
Definition source_feed (src presc : Z) (f : list Z) : list Z :=
  match clock_source_of (field src 8 5) with Some CLOCK_SOURCE_OSC8M => presc :: f | _ => f end.

Lemma source_run src presc hz f a : source_hz src presc = Some hz ->
  exists a', clock_get_source (field src 8 5) (mk_bus (source_feed src presc f) a) = Ok hz (mk_bus f a').
Proof.
  unfold source_hz, source_feed, clock_get_source. destruct (clock_source_of (field src 8 5)) as [ []|]; intros [= <-]; eexists; reflexivity.
Qed.

(** The source by the divider, or by the power of two after it, that GENDIV shows. *)
Lemma generator_hz gen y1 y2 y3 y4 src presc dsel div hz rest a : Forall synced_ok [y1; y2; y3; y4] -> source_hz src presc = Some hz ->
  (Z.testbit dsel 20 = true -> field div 8 16 < 31) ->
  exists a', gclock_get_generator gen
    (mk_bus (sync_feed y1 (sync_feed y2 (src :: source_feed src presc (sync_feed y3 (dsel :: sync_feed y4 (div :: rest)))))) a) =
    Ok (if Z.testbit dsel 20 then hz / 2 ^ (field div 8 16 + 1) else if field div 8 16 >? 1 then hz / field div 8 16 else hz) (mk_bus rest a').
Proof.
  rewrite !Forall_cons. intros (H1 & H2 & H3 & H4 & _) Hhz Hdiv. unfold gclock_get_generator.
  destruct (sync_run y1 (sync_feed y2 (src :: source_feed src presc (sync_feed y3 (dsel :: sync_feed y4 (div :: rest))))) a H1) as (a1 & E1).
  rewrite (bind_ok _ _ _ _ _ E1). unfold bind at 1, store8, modify. cbn [feed accesses].
  edestruct (sync_run y2) as (a2 & E2); [exact H2|]. rewrite (bind_ok _ _ _ _ _ E2). unfold bind at 1, load at 1. cbn [feed accesses].
  edestruct (source_run src presc) as (a3 & E3); [exact Hhz|]. rewrite (bind_ok _ _ _ _ _ E3). unfold bind at 1. cbn [feed accesses].
  edestruct (sync_run y3) as (a4 & E4); [exact H3|]. rewrite (bind_ok _ _ _ _ _ E4). unfold bind at 1, load at 1. cbn [feed accesses]. cbv zeta.
  unfold bind at 1. cbn [feed accesses].
  edestruct (sync_run y4) as (a5 & E5); [exact H4|]. rewrite (bind_ok _ _ _ _ _ E5). unfold bind, load. cbn [feed accesses].
  assert (truth (field dsel 20 1) = Z.testbit dsel 20) as ->.
  { unfold field. change (Z.ones 1) with (Z.shiftl 1 0). rewrite truth_land_bit, Z.shiftr_spec by lia. done. }
  assert (0 <= field div 8 16) as Hd by (apply Z.land_nonneg; right; by vm_compute).
  destruct (Z.testbit dsel 20); cbn [negb andb].
  - rewrite (proj2 (Z.ltb_lt _ _)) by (specialize (Hdiv eq_refl); lia). eexists. by rewrite Z.shiftr_div_pow2 by lia.
  - destruct (field div 8 16 >? 1); by eexists.
Qed.

(** No access selects the generator in GENDIV before its divider is read. *)
Definition stores_to (r : reg) (x : access) : bool := match x with Wr r' _ | Wr8 r' _ => bool_decide (r' = r) | Rd _ _ => false end.
Definition spares {A} (r : reg) (c : M bus A) : Prop := forall s v s', c s = Ok v s' ->
  exists l, accesses s' = accesses s ++ l /\ forallb (fun x => negb (stores_to r x)) l = true.

Lemma spares_bind {A B} r (c : M bus A) (k : A -> M bus B) : spares r c -> (forall x, spares r (k x)) -> spares r (bind c k).
Proof.
  intros Hc Hk s v s' E. apply bind_inv in E as (x & s1 & E1 & E2). destruct (Hc _ _ _ E1) as (l1 & A1 & L1). destruct (Hk x _ _ _ E2) as (l2 & A2 & L2). exists (l1 ++ l2). rewrite A2, A1, app_assoc, forallb_app, L1, L2. done.
Qed.
Lemma spares_load r r' : spares r (load r').
Proof. intros [ [|v f] a] x s' E; [done|]. injection E as <- <-. by exists [Rd r' v]. Qed.
Lemma spares_store8 r r' v : r' <> r -> spares r (store8 r' v).
Proof. intros Hne s x s' [= <- <-]. exists [Wr8 r' (u8 v)]. split; [done|]. cbn. by rewrite bool_decide_false. Qed.
Lemma spares_ret {A} r (x : A) : spares r (ret x).
Proof. intros s y s' [= <- <-]. exists []. by rewrite app_nil_r. Qed.
Lemma spares_fail {A} r f : spares r (@fail bus A f).
Proof. by intros s y s'. Qed.
Lemma spares_spin r r' c : spares r (spin r' c).
Proof.
  intros [f a]. unfold spin. cbn [feed accesses]. revert a. induction f as [|v f IH]; intros a x s' E; [done|]. cbn [spin_on] in E.
  destruct (c v).
  - destruct (IH _ _ _ E) as (l & -> & L). exists (Rd r' v :: l). cbn [feed accesses]. by rewrite <-app_assoc.
  - injection E as <- <-. by exists [Rd r' v].
Qed.

Lemma gendiv_not_selected gen : spares GCLK_GENDIV (gclock_get_generator gen).
Proof.
  unfold gclock_get_generator, _gclock_sync, clock_get_source.
  repeat first [ apply spares_bind; [|intros ?] | apply spares_load | by apply spares_store8 | apply spares_ret | apply spares_fail | apply spares_spin
               | match goal with |- spares _ (match ?x with _ => _ end) => destruct x end | progress cbv zeta ].
Qed.
