(* ===== verification/Startup.v ===== *)
(** * Startup: from the reset handler to the first thread

    [firmware_main] of [top/main.c] with the hook of the idle thread in
    [arch/arm-m/arch.c]: the kernel on the lists of [core/list.c], the console and the
    initialisation hooks, in the order of the code.  What the processor port, the
    platform, the target and [log] do is given: it may set up semaphores. *)
From S2P Require Import Prelude ListApi DList Fw Init File CString Sched Semaphore SchedSpec SchedRun SchedProps Words Switch SwitchSpec Spawn.

Create HintDb steady.

Section Startup.
Context {F : Type} (queue_off : Z).
Abbreviation sys := (Sched.sys (S := store) (L := list_t)).
Abbreviation consoles := (Spawn.consoles (S := store) (L := list_t) (F := F)).
Abbreviation on_kern := (Spawn.on_kern (S := store) (L := list_t) (F := F)).

(** What [firmware_main] calls of the port, the platform and the target. *)
Record board := mk_board {
  arch_early_init : M consoles unit; platform_early_init : M consoles unit; target_early_init : M consoles unit;
  log_startup : M consoles unit;
  arch_init : M consoles unit; platform_init : M consoles unit; target_init : M consoles unit; target_main : M consoles unit }.

(** The memory [malloc_raw] delivers: for the main thread, the console, its thread and
    its stack; the names of the threads; the static idle thread with its stack. *)
Record memory := mk_memory {
  main : Z; main_name : Z; console_obj : Z; garbage : Spawn.console; console_thr : Z; console_mem : Z; console_name : Z;
  idle : Z; idle_name : Z; idle_stack : Z }.

(** The hooks of the firmware: the idle thread ([Switch]). *)
Definition hooks (mem : memory) (arch_idle_thread : Z) : list (fw_init_hook (E := consoles)) :=
  [mk_hook kFWInitLevelThreading (fun _ => on_kern (arch_init_idle_thread queue_off (idle mem) (idle_name mem) (idle_stack mem) arch_idle_thread))].

(** [firmware_main] up to its call of [target_main]. *)
Definition firmware_main_start (b : board) (mem : memory) (arch_idle_thread console_main debug_serial : Z) : M (init_state (E := consoles)) unit :=
  let hooks := hooks mem arch_idle_thread in
  run! on_rest (on_kern scheduler_enter_isr) in
  run! fw_init_run hooks kFWInitLevelEarliest in
  run! on_rest (on_kern thread_early_init) in
  run! on_rest (arch_early_init b) in
  run! on_rest (platform_early_init b) in
  run! on_rest (target_early_init b) in
  run! on_rest (log_startup b) in
  run! on_rest (on_kern (scheduler_init queue_off (main mem) (main_name mem))) in
  run! fw_init_run hooks kFWInitLevelThreading in
  run! on_rest (on_kern scheduler_leave_isr) in
  run! on_rest (arch_init b) in
  run! on_rest (platform_init b) in
  run! on_rest (target_init b) in
  run! on_rest (let! _ := console_spawn queue_off debug_serial (console_obj mem) (garbage mem) (console_thr mem) (console_mem mem)
                                        (console_name mem) console_main in ret tt) in
  fw_init_run hooks kFWInitLevelLast.

(** Up to the [for (;;)] behind [thread_block]. *)
Definition firmware_main (b : board) (mem : memory) (arch_idle_thread console_main debug_serial : Z) : M (init_state (E := consoles)) unit :=
  run! firmware_main_start b mem arch_idle_thread console_main debug_serial in
  run! on_rest (target_main b) in
  on_rest (on_kern (thread_block queue_off)).

(** ** What does not change *)

(** The entries stay in memory, the nesting of interrupts as it is. *)
Definition steady {A} (c : M sys A) : Prop := forall s a s', c s = Ok a s' ->
  (forall e, is_Some (entries s !! e) -> is_Some (entries s' !! e)) /\ in_isr_count s' = in_isr_count s.

Lemma steady_ret {A} (a : A) : steady (ret a).
Proof. by intros s x s' [= _ <-]. Qed.
Lemma steady_fail {A} f : steady (fail f : M sys A).
Proof. by intros s x s'. Qed.
Lemma steady_gets {A} (f : sys -> A) : steady (gets f).
Proof. by intros s x s' [= _ <-]. Qed.
Lemma steady_deref {A} (f : sys -> option A) : steady (deref f).
Proof. intros s x s'. unfold deref. case_match; [by intros [= _ <-]|done]. Qed.
Lemma steady_modify (f : sys -> sys) : (forall s, entries (f s) = entries s /\ in_isr_count (f s) = in_isr_count s) -> steady (modify f).
Proof. intros H s x s' [= _ <-]. destruct (H s) as [-> ->]. done. Qed.
Lemma steady_bind {A B} (c : M sys A) (k : A -> M sys B) : steady c -> (forall a, steady (k a)) -> steady (bind c k).
Proof.
  intros Hc Hk s b s'. unfold bind. destruct (c s) as [a s1|] eqn:E; [|done]. intros E'.
  destruct (Hc _ _ _ E) as [H1 H2], (Hk a _ _ _ E') as [H3 H4]. split; [intros e He; by apply H3, H1|congruence].
Qed.
Lemma steady_if {A} (b : bool) (c d : M sys A) : steady c -> steady d -> steady (if b then c else d).
Proof. by destruct b. Qed.

(** The operations of [core/list.c] keep the entries. *)
Definition grows (st st' : store) : Prop := forall e, is_Some (st !! e) -> is_Some (st' !! e).
Lemma set_next_grows st e v st' : set_next st e v = Some st' -> grows st st'.
Proof. unfold set_next. destruct (st !! e); [|done]. intros [= <-] x Hx. destruct (decide (e = x)) as [->|]; [by rewrite lookup_insert_eq|by rewrite lookup_insert_ne]. Qed.
Lemma set_prev_grows st e v st' : set_prev st e v = Some st' -> grows st st'.
Proof. unfold set_prev. destruct (st !! e); [|done]. intros [= <-] x Hx. destruct (decide (e = x)) as [->|]; [by rewrite lookup_insert_eq|by rewrite lookup_insert_ne]. Qed.
Lemma grows_trans st1 st2 st3 : grows st1 st2 -> grows st2 st3 -> grows st1 st3.
Proof. intros H1 H2 e He. by apply H2, H1. Qed.

Ltac list_grows := repeat match goal with
  | H : mbind _ _ = Some _ |- _ => apply bind_Some in H as (? & ? & H)
  | H : (if _ then _ else _) = Some _ |- _ => case_match
  | H : set_next _ _ _ = Some _ |- _ => apply set_next_grows in H
  | H : set_prev _ _ _ = Some _ |- _ => apply set_prev_grows in H
  | H : Some _ = Some _ |- _ => injection H as ?; subst
  | x : (_ * _)%type |- _ => destruct x
  end; cbn in *; eauto using grows_trans.

Lemma insert_before_grows st y e st' : list_insert_before st y e = Some st' -> grows st st'.
Proof. unfold list_insert_before. intros H. list_grows. Qed.
Lemma delete_grows l st e l' st' : list_delete l st e = Some (l', st') -> grows st st'.
Proof. unfold list_delete. intros H. list_grows; by intros ?. Qed.
Lemma append_grows l st e l' st' : list_append l st e = Some (l', st') -> grows st st'.
Proof.
  unfold list_append. intros H. apply bind_Some in H as ([l1 st1] & H1%delete_grows & H). case_match.
  - apply bind_Some in H as (st2 & H2%insert_before_grows & [= <- <-]). by eapply grows_trans.
  - list_grows.
Qed.
Lemma entry_init_grows st e st' : list_entry_init st e = Some st' -> grows st st'.
Proof. unfold list_entry_init. intros H. list_grows. Qed.

Lemma steady_on_list proj put (op : list_t -> store -> option (list_t * store)) :
  (forall s l, entries (put s l) = entries s /\ in_isr_count (put s l) = in_isr_count s) ->
  (forall l st l' st', op l st = Some (l', st') -> grows st st') -> steady (on_list proj put op : M sys unit).
Proof.
  intros Hp Ho s x s'. unfold on_list, bind, deref, modify. destruct (op (proj s) (entries s)) as [ [l' st']|] eqn:E; [|done].
  intros [= _ <-]. split; [by eapply Ho|]. by destruct (Hp s l').
Qed.
Lemma steady_on_entries (op : store -> option store) : (forall st st', op st = Some st' -> grows st st') -> steady (on_entries op : M sys unit).
Proof.
  intros Ho s x s'. unfold on_entries, bind, deref, modify. destruct (op (entries s)) eqn:E; [|done]. intros [= _ <-]. split; [by eapply Ho|done].
Qed.

Hint Resolve steady_ret steady_fail steady_gets steady_deref steady_bind steady_if : steady.
Hint Extern 1 (steady (modify _)) => (apply steady_modify; intros ?; done) : steady.
Hint Extern 1 (steady (on_list _ _ _)) => (apply steady_on_list; [done|cbn; eauto using append_grows, delete_grows]) : steady.
Hint Extern 1 (steady (on_entries _)) => (apply steady_on_entries; cbn; eauto using entry_init_grows) : steady.
Hint Unfold get_thread put_thread write_word assert_ scheduler_lock scheduler_unlock yield scheduler_current_thread push_word stack_down : steady.

Lemma steady_write a v : steady (write_word a v : M sys unit).
Proof. unfold write_word. auto with steady. Qed.
Lemma steady_paint fuel p top : steady (paint_stack fuel p top : M sys unit).
Proof. revert p. induction fuel as [|fuel IH]; intros p; cbn [paint_stack]; [auto with steady|]. auto using steady_write with steady. Qed.
Lemma steady_struct_init memory t nm size stk : steady (thread_struct_init queue_off memory t nm size stk : M sys unit).
Proof.
  unfold thread_struct_init, thread_stack_utilisation_reset, scheduler_thread_data_init, scheduler_current_thread, put_thread, get_thread.
  auto 12 using steady_write, steady_paint with steady.
Qed.
Lemma steady_set_function t func argc arg : steady (thread_set_function t func argc arg : M sys unit).
Proof. unfold thread_set_function, thread_set_function_v, push_word, stack_down, get_thread, put_thread. auto 20 using steady_write with steady. Qed.
Lemma steady_set_state t st : steady (thread_set_state queue_off t st : M sys unit).
Proof.
  unfold thread_set_state, scheduler_thread_changed_state, get_thread, put_thread, scheduler_lock, scheduler_unlock, yield. auto 20 with steady.
Qed.
Lemma steady_create t memory nm size stk : steady (thread_create queue_off t memory nm size stk : M sys Z).
Proof. unfold thread_create. auto using steady_struct_init with steady. Qed.
Lemma steady_init t nm : steady (scheduler_init queue_off t nm : M sys unit).
Proof. unfold scheduler_init, thread_wakeup, yield. auto 10 using steady_create, steady_set_state with steady. Qed.

(** ** The stages of the start *)

Section Stages.
Context (mem : memory).

(** The entries of the three threads. *)
Definition thread_entries : list Z :=
  [main mem; main mem + queue_off; console_thr mem; console_thr mem + queue_off; idle mem; idle mem + queue_off].

(** [free]: where semaphores are still to come. *)
Record at_stage (s : sys) (k : kernel) (n : Z) (free : list Z) : Prop := {
  as_rep : rep queue_off s k;
  as_wf : wf_kernel queue_off k;
  as_irqs : irqs_off s = false;
  as_isr : in_isr_count s = n;
  as_mem : Forall (fun e => is_Some (entries s !! e)) thread_entries;
  as_sems q v ws : k_sems k !! q = Some (v, ws) -> ws = [];
  as_free : Forall (fun q => k_sems k !! q = None) free }.

Definition with_sems (f : gmap Z (Z * list (Z * Z))) (k : kernel) : kernel :=
  mk_kernel (k_all k) (k_state k) (k_rq k) f (k_cur k) (k_idle k) (k_pend k).

(** What the functions of the board may do: create the semaphores [qs], and anything
    outside the kernel and the consoles. *)
Definition sets_up (qs : list Z) (c : M consoles unit) : Prop := forall s k n free, NoDup (qs ++ free) -> at_stage (ckern s) k n (qs ++ free) ->
  exists s' f, c s = Ok tt s' /\ at_stage (ckern s') (with_sems f k) n free /\
    threads (ckern s') = threads (ckern s) /\ words (ckern s') = words (ckern s) /\
    objects s' = objects s /\ global_console s' = global_console s.

Lemma sets_up_ret : sets_up [] (ret tt).
Proof. intros s k n free _ H. exists s, (k_sems k). split; [done|]. split; [by destruct k|done]. Qed.

(** A step of the kernel. *)
Lemma stage_step (c : M sys unit) s k n free s' k' : at_stage s k n free -> steady c -> c s = Ok tt s' ->
  rep queue_off s' k' -> wf_kernel queue_off k' -> irqs_off s' = false -> k_sems k' = k_sems k -> at_stage s' k' n free.
Proof.
  intros [S1 S2 S3 S4 S5 S6 S7] Hc E Hr Hw Hi Hs. destruct (Hc _ _ _ E) as [He Hn]. split; try done.
  - by rewrite Hn.
  - eapply Forall_impl; [exact S5|]. cbn. intros e H. by apply He.
  - rewrite Hs. apply S6.
  - by rewrite Hs.
Qed.

Lemma sets_up_sem q v : 0 <= v < 128 -> sets_up [q] (on_kern (semaphore_init q v)).
Proof.
  intros Hv s k n free Hnd H. pose proof H as [S1 S2 S3 S4 S5 S6 S7]. apply Forall_cons in S7 as [Hq Hfree]. cbn [app] in *.
  destruct (event_refines queue_off (ckern s) k (KSemInit q v) S1 S2 S3) as (k1 & E & Hr & Hw & Hi); [by split|].
  exists (mk_consoles (objects s) (global_console s) k1 (cio s)), (k_sems (spec_event k (KSemInit q v))).
  split; [unfold Spawn.on_kern; cbn [run_event] in E; by rewrite E|]. cbn in E. unfold semaphore_init, modify in E. injection E as <-. cbn [ckern].
  split; [|done]. split; try done.
  - intros q' v' ws Hl. cbn in Hl. apply lookup_insert_Some in Hl as [ [<- [= <- <-] ]|[_ Hl] ]; [done|by eapply S6].
  - apply Forall_forall. intros q' Hin. cbn. apply NoDup_cons in Hnd as [Hnin _].
    rewrite lookup_insert_ne by (intros ->; done). rewrite Forall_forall in Hfree. by apply Hfree.
Qed.

Lemma sets_up_seq qs qs' c d : sets_up qs c -> sets_up qs' d -> sets_up (qs ++ qs') (run! c in d).
Proof.
  intros Hc Hd s k n free Hnd H. rewrite <-app_assoc in *.
  destruct (Hc s k n (qs' ++ free) Hnd H) as (s1 & f1 & E1 & H1 & T1 & W1 & O1 & G1).
  apply NoDup_app in Hnd as (_ & _ & Hnd). destruct (Hd s1 _ n free Hnd H1) as (s2 & f2 & E2 & H2 & T2 & W2 & O2 & G2).
  exists s2, f2. split; [by rewrite (bind_ok _ _ _ _ _ E1)|]. split; [exact H2|]. repeat split; congruence.
Qed.

(** No memory is used twice. *)
Record good_memory : Prop := {
  gm_apart : NoDup thread_entries;
  gm_null : NULL ∉ thread_entries;
  gm_idle : 0 <= idle_stack mem /\ idle_stack mem <> NULL /\ idle_stack mem + 68 < 2 ^ 32;
  gm_console : console_obj mem <> NULL /\ in_u 32 (console_obj mem) /\ 0 < console_mem mem /\ console_mem mem + STACK_SIZE_CONSOLE + 4 < 2 ^ 32 }.
Context (Hmem : good_memory).

Lemma apart : main mem <> console_thr mem /\ main mem <> idle mem /\ console_thr mem <> idle mem.
Proof.
  pose proof (gm_apart Hmem) as Hnd. unfold thread_entries in Hnd. rewrite !NoDup_cons, !not_elem_of_cons in Hnd.
  by destruct Hnd as ((_ & H1 & _ & H2 & _) & _ & (_ & H3 & _) & _).
Qed.

Lemma entries_apart t t' : t ∈ [main mem; console_thr mem; idle mem] -> t' ∈ [main mem; console_thr mem; idle mem] -> t <> t' ->
  NoDup [t; t + queue_off; t'; t' + queue_off].
Proof.
  intros Ht Ht' Hne. pose proof (gm_apart Hmem) as Hnd. unfold thread_entries in Hnd.
  rewrite !NoDup_cons, !not_elem_of_cons in Hnd. rewrite !NoDup_cons, !not_elem_of_cons. rewrite !elem_of_cons, elem_of_nil in Ht, Ht'.
  destruct Hnd as ((?&?&?&?&?&?) & (?&?&?&?&?) & (?&?&?&?) & (?&?&?) & (?&?) & ?).
  destruct Ht as [->|[->|[->|?] ] ], Ht' as [->|[->|[->|?] ] ]; try done; repeat split; first [congruence|apply not_elem_of_nil|apply NoDup_nil_2].
Qed.

Lemma fresh_for k t : (forall q v ws, k_sems k !! q = Some (v, ws) -> ws = []) ->
  t ∈ [main mem; console_thr mem; idle mem] -> Forall (fun x => x ∈ [main mem; console_thr mem; idle mem] /\ x <> t) (k_all k) ->
  fresh_thread queue_off k t.
Proof.
  intros Hs Ht Hall. rewrite Forall_forall in Hall. pose proof (gm_null Hmem) as Hnull.
  assert (t <> NULL /\ t + queue_off <> NULL) as [? ?] by (unfold thread_entries in Hnull; set_solver).
  assert (t <> t + queue_off) as Hself.
  { pose proof (gm_apart Hmem) as Hnd. unfold thread_entries in Hnd. rewrite !NoDup_cons, !not_elem_of_cons in Hnd.
    destruct Hnd as ((?&_) & _ & (?&_) & _ & (?&_) & _). rewrite !elem_of_cons, elem_of_nil in Ht. by destruct Ht as [->|[->|[->|?] ] ]. }
  split; [intros Hin; by destruct (Hall t Hin)|]. split; [done|]. split; [done|]. split; [done|]. split.
  - intros t' Hin. destruct (Hall t' Hin) as [Hx Hne]. pose proof (entries_apart t t' Ht Hx (not_eq_sym Hne)) as Hnd.
    rewrite !NoDup_cons, !not_elem_of_cons in Hnd. destruct Hnd as ((?&?&?&_) & (?&?&_) & _). unfold queue_entry. by repeat split.
  - intros q v ws w t' Hq Hin. rewrite (Hs q v ws Hq) in Hin. by apply not_elem_of_nil in Hin.
Qed.

(** The kernel behind each of the parts. *)
Definition k_main (f : gmap Z (Z * list (Z * Z))) : kernel := spec_event (with_sems f kernel_start) (KInit (main mem) (main_name mem)).
Definition k_idle_set (k : kernel) : kernel := a_idle (idle mem) (a_create (idle mem) k).
Definition k_console (k : kernel) : kernel := spec_event (a_create (console_thr mem) k) (KWakeup (console_thr mem)).

Lemma entries_of t s k n free : at_stage s k n free -> t ∈ [main mem; console_thr mem; idle mem] ->
  l_entry (entries s) t /\ l_entry (entries s) (queue_entry queue_off t).
Proof.
  intros H Ht. pose proof (as_mem _ _ _ _ H) as Hm. rewrite Forall_forall in Hm. unfold queue_entry.
  split; apply Hm; unfold thread_entries; set_solver.
Qed.

Lemma thread_stage s k free : at_stage s k 0 free -> k = kernel_start ->
  exists s1, scheduler_enter_isr s = Ok tt s1 /\ at_stage s1 k 1 free.
Proof.
  intros [S1 S2 S3 S4 S5 S6 S7] ->. eexists. split; [reflexivity|]. split; try done; [by apply rep_isr|]. cbn. by rewrite S4.
Qed.

Lemma leave_stage s k free : at_stage s k 1 free -> exists s1, scheduler_leave_isr s = Ok tt s1 /\ at_stage s1 k 0 free.
Proof. intros [S1 S2 S3 S4 S5 S6 S7]. eexists. split; [reflexivity|]. split; try done; [by apply rep_isr|]. cbn. by rewrite S4. Qed.

Lemma early_stage s n free : at_stage s kernel_start n free ->
  exists s1, thread_early_init s = Ok tt s1 /\ at_stage s1 kernel_start n free.
Proof.
  intros [S1 S2 S3 S4 S5 S6 S7]. eexists. split; [reflexivity|]. split; try done. destruct S1. split; try done. apply l_init_rep.
Qed.

Lemma init_stage s f n free : at_stage s (with_sems f kernel_start) n free ->
  exists s1, scheduler_init queue_off (main mem) (main_name mem) s = Ok tt s1 /\ at_stage s1 (k_main f) n free.
Proof.
  intros H. pose proof H as [S1 S2 S3 S4 S5 S6 S7].
  destruct (event_refines queue_off s _ (KInit (main mem) (main_name mem)) S1 S2 S3) as (s1 & E & Hr & Hw & Hi).
  { split; [done|]. split; [apply fresh_for; [exact S6|set_solver|by constructor]|]. eapply entries_of; [exact H|set_solver]. }
  exists s1. split; [exact E|]. eapply stage_step; [exact H|apply steady_init|exact E|done..].
Qed.

Lemma idle_stage s k n free f0 : at_stage s k n free -> k_all k = [main mem] -> in_u 32 f0 ->
  exists s1, arch_init_idle_thread queue_off (idle mem) (idle_name mem) (idle_stack mem) f0 s = Ok tt s1 /\ at_stage s1 (k_idle_set k) n free.
Proof.
  intros H Hall Hf. pose proof H as [S1 S2 S3 S4 S5 S6 S7]. destruct (gm_idle Hmem) as (I1 & I2 & I3). destruct apart as (A1 & A2 & A3).
  assert (idle_stack mem =? NULL = false) as Hstk by (by apply Z.eqb_neq).
  assert (fresh_thread queue_off k (idle mem)) as Hfr.
  { apply fresh_for; [exact S6|set_solver|]. rewrite Hall. constructor; [|by constructor]. split; [set_solver|done]. }
  destruct (entries_of (idle mem) _ _ _ _ H ltac:(set_solver)) as [He1 He2].
  destruct (create_refines queue_off s k NULL (idle mem) (idle_name mem) 68 (idle_stack mem)) as (k1 & E1 & Hr1 & Hi1 & _ & Ht1 & Hw1); try done.
  { unfold allocates. by rewrite Hstk. }
  { apply S2. }
  assert (at_stage k1 (a_create (idle mem) k) n free) as H1.
  { eapply stage_step; [exact H|apply steady_struct_init|exact E1|done|by apply wf_create|congruence|done]. }
  unfold created, allocates in Ht1. rewrite Hstk in Ht1. cbn [andb] in Ht1. change (68 >? 0) with true in Ht1. cbv iota in Ht1.
  pose proof (set_function_run k1 (idle mem) _ f0 0 0 Ht1 ltac:(cbn; lia) Hf ltac:(unfold in_u; lia)) as E2.
  set (k2 := set_threads _ _) in E2.
  assert (at_stage k2 (a_create (idle mem) k) n free) as H2.
  { eapply stage_step; [exact H1|apply steady_set_function|exact E2| |apply H1|apply H1|done].
    destruct (as_rep _ _ _ _ H1) as [R ? ? ? ? ? ? ?]. split; try done. intros t. rewrite <-R. cbn. destruct (decide (t = idle mem)) as [->|].
    - by rewrite lookup_insert_eq, Ht1.
    - by rewrite lookup_insert_ne. }
  exists (set_idle k2 (idle mem)). split.
  - unfold arch_init_idle_thread. by rewrite (bind_ok _ _ _ _ _ E1), (bind_ok _ _ _ _ _ E2).
  - destruct H2 as [[] T2 T3 T4 T5 T6 T7]. split; try done; first [by split|eapply wf_same; [..|exact T2]; done].
Qed.

Lemma console_stage (s : consoles) k n free file console_main : at_stage (ckern s) k n free -> k_all k = [main mem; idle mem] -> k_cur k = main mem ->
  file <> NULL -> in_u 32 console_main ->
  exists s1, console_spawn queue_off file (console_obj mem) (garbage mem) (console_thr mem) (console_mem mem) (console_name mem) console_main s = Ok (console_obj mem) s1 /\
    at_stage (ckern s1) (k_console k) n free /\ spawned s1 file (console_obj mem) (console_thr mem) /\
    k_rq (k_console k) = k_rq k ++ [console_thr mem] /\
    holds_ctx (ckern s1) (console_thr mem) (console_mem mem + STACK_SIZE_CONSOLE - 60) (initial_context console_main (console_obj mem)).
Proof.
  intros H Hall Hcur Hfile Hmain. pose proof H as [S1 S2 S3 S4 S5 S6 S7]. pose proof (gm_console Hmem) as (G1 & G2 & G3 & G4).
  destruct apart as (A1 & A2 & A3). destruct (entries_of (console_thr mem) _ _ _ _ H ltac:(set_solver)) as [He1 He2].
  assert (fresh_thread queue_off k (console_thr mem)) as Hfr.
  { apply fresh_for; [exact S6|set_solver|]. rewrite Hall. repeat constructor; first [set_solver|done]. }
  destruct (spawn_run queue_off s k file (console_obj mem) (garbage mem) (console_thr mem) (console_mem mem) (console_name mem) console_main S1 S2 S3)
    as (s1 & E & Hsp & _ & _ & (Hr & Hw & Hrq) & Hctx & Hi & k1 & k2 & E1 & E2 & E3); try done.
  { by rewrite Hcur. }
  exists s1. split; [exact E|]. split; [|done].
  destruct (steady_create _ _ _ _ _ _ _ _ E1) as [M1 N1]. destruct (steady_set_function _ _ _ _ _ _ _ E2) as [M2 N2].
  destruct (steady_set_state _ _ _ _ _ E3) as [M3 N3]. split; try done.
  - congruence.
  - eapply Forall_impl; [exact S5|]. cbn. intros e He. by apply M3, M2, M1.
Qed.

Definition k_blocked (k : kernel) : kernel := spec_event k KBlock.

Lemma block_stage s k n free : at_stage s k n free -> k_cur k ∈ k_all k ->
  exists s1, thread_block queue_off s = Ok tt s1 /\ at_stage s1 (k_blocked k) n free /\
    words s1 = words s /\ forall t, stack <$> threads s1 !! t = stack <$> threads s !! t.
Proof.
  intros H Hin. pose proof H as [S1 S2 S3 S4 S5 S6 S7].
  destruct (event_refines queue_off s k KBlock S1 S2 S3 Hin) as (s1 & E & Hr & Hw & Hi).
  destruct (calm_call queue_off KBlock eq_refl _ _ _ E) as [Ew Est]. exists s1. split; [exact E|]. split; [|done].
  eapply stage_step; [exact H| |exact E|done..]. cbn [run_event]. unfold thread_block, scheduler_current_thread.
  apply steady_bind; [apply steady_gets|intros t; apply steady_set_state].
Qed.

Lemma rest_run (c : M consoles unit) l e e' : c e = Ok tt e' -> on_rest c (mk_init l e) = Ok tt (mk_init l e').
Proof. intros E. unfold on_rest. cbn. by rewrite E. Qed.

(** The hooks of the levels: none, the idle thread, none. *)
Lemma hooks_earliest f0 e : fw_init_run (hooks mem f0) kFWInitLevelEarliest (mk_init 0 e) = Ok tt (mk_init kFWInitLevelEarliest e).
Proof. reflexivity. Qed.
Lemma hooks_threading f0 e e' : on_kern (arch_init_idle_thread queue_off (idle mem) (idle_name mem) (idle_stack mem) f0) e = Ok tt e' ->
  fw_init_run (hooks mem f0) kFWInitLevelThreading (mk_init kFWInitLevelEarliest e) = Ok tt (mk_init kFWInitLevelThreading e').
Proof.
  unfold hooks. generalize (on_kern (arch_init_idle_thread queue_off (idle mem) (idle_name mem) (idle_stack mem) f0)). intros h E. cbv. by rewrite E.
Qed.
Lemma hooks_last f0 e : fw_init_run (hooks mem f0) kFWInitLevelLast (mk_init kFWInitLevelThreading e) = Ok tt (mk_init kFWInitLevelLast e).
Proof. reflexivity. Qed.

(** The seven initialisation functions set up semaphores, each once; [free] is left. *)
Record board_ok (b : board) (qs : list (list Z)) (free : list Z) : Prop := {
  bo_list : exists q1 q2 q3 q4 q5 q6 q7, qs = [q1; q2; q3; q4; q5; q6; q7] /\
    sets_up q1 (arch_early_init b) /\ sets_up q2 (platform_early_init b) /\ sets_up q3 (target_early_init b) /\ sets_up q4 (log_startup b) /\
    sets_up q5 (arch_init b) /\ sets_up q6 (platform_init b) /\ sets_up q7 (target_init b);
  bo_once : NoDup (concat qs ++ free) }.

Lemma NoDup_tail (q r : list Z) : NoDup (q ++ r) -> NoDup r.
Proof. by intros (_ & _ & H)%NoDup_app. Qed.

(** The kernel when [target_main] is called, and when the main thread blocks behind it. *)
Definition k_called (f g : gmap Z (Z * list (Z * Z))) : kernel := k_console (with_sems g (k_idle_set (k_main f))).
Definition k_started (f g h : gmap Z (Z * list (Z * Z))) : kernel := k_blocked (with_sems h (k_called f g)).

Record started (s : consoles) (k : kernel) (free : list Z) (file console_main : Z) : Prop := {
  sd_stage : at_stage (ckern s) k 0 free;
  sd_console : spawned s file (console_obj mem) (console_thr mem);
  sd_context : holds_ctx (ckern s) (console_thr mem) (console_mem mem + STACK_SIZE_CONSOLE - 60) (initial_context console_main (console_obj mem)) }.

Lemma main_running f g : k_state (k_console (with_sems g (k_idle_set (k_main f)))) !! main mem = Some THREAD_STATE_RUNNING.
Proof.
  destruct apart as (A1 & A2 & A3). change (k_state _) with (<[console_thr mem := THREAD_STATE_RUNNING]> (<[console_thr mem := THREAD_STATE_STOPPED]> (<[idle mem := THREAD_STATE_STOPPED]>
    (<[main mem := THREAD_STATE_RUNNING]> (<[main mem := THREAD_STATE_STOPPED]> (∅ : gmap Z thread_state)))))).
  rewrite !lookup_insert_ne by congruence. apply lookup_insert_eq.
Qed.

Lemma start_run b qs free e f0 console_main file : board_ok b qs free -> at_stage (ckern e) kernel_start 0 (concat qs ++ free) ->
  in_u 32 f0 -> in_u 32 console_main -> file <> NULL ->
  exists e' f g, firmware_main_start b mem f0 console_main file (mk_init 0 e) = Ok tt (mk_init kFWInitLevelLast e') /\
    started e' (k_called f g) free file console_main.
Proof.
  intros [ (q1 & q2 & q3 & q4 & q5 & q6 & q7 & -> & B1 & B2 & B3 & B4 & B5 & B6 & B7) Hnd] S0 Hf0 Hcm Hfile.
  cbn [concat] in *. rewrite app_nil_r, <-!app_assoc in *.
  pose proof (NoDup_tail _ _ Hnd) as N2. pose proof (NoDup_tail _ _ N2) as N3. pose proof (NoDup_tail _ _ N3) as N4. pose proof (NoDup_tail _ _ N4) as N5.
  pose proof (NoDup_tail _ _ N5) as N6. pose proof (NoDup_tail _ _ N6) as N7.
  unfold firmware_main_start. destruct e as [o g k i].
  destruct (thread_stage k _ _ S0 eq_refl) as (k1 & E1 & S1).
  rewrite (bind_ok _ _ _ _ _ (rest_run (on_kern scheduler_enter_isr) 0 _ _ (on_kern_run scheduler_enter_isr o g k i tt k1 E1))).
  rewrite (bind_ok _ _ _ _ _ (hooks_earliest f0 _)).
  destruct (early_stage k1 _ _ S1) as (k2 & E2 & S2). rewrite (bind_ok _ _ _ _ _ (rest_run _ _ _ _ (on_kern_run _ o g k1 i _ _ E2))).
  destruct (B1 (mk_consoles o g k2 i) _ _ _ Hnd S2) as (e1 & f1 & R1 & T1 & _). rewrite (bind_ok _ _ _ _ _ (rest_run _ _ _ _ R1)).
  destruct (B2 e1 _ _ _ N2 T1) as (e2 & f2 & R2 & T2 & _). rewrite (bind_ok _ _ _ _ _ (rest_run _ _ _ _ R2)).
  destruct (B3 e2 _ _ _ N3 T2) as (e3 & f3 & R3 & T3 & _). rewrite (bind_ok _ _ _ _ _ (rest_run _ _ _ _ R3)).
  destruct (B4 e3 _ _ _ N4 T3) as (e4 & f & R4 & T4 & _). rewrite (bind_ok _ _ _ _ _ (rest_run _ _ _ _ R4)).
  change (with_sems f _) with (with_sems f kernel_start) in T4. destruct e4 as [o4 g4 k4 i4]. cbn [ckern] in T4.
  destruct (init_stage k4 f _ _ T4) as (k5 & E5 & S5). rewrite (bind_ok _ _ _ _ _ (rest_run _ _ _ _ (on_kern_run _ o4 g4 k4 i4 _ _ E5))).
  destruct (idle_stage k5 _ _ _ f0 S5 eq_refl Hf0) as (k6 & R6 & S6).
  rewrite (bind_ok _ _ _ _ _ (hooks_threading f0 _ _ (on_kern_run _ o4 g4 k5 i4 _ _ R6))).
  destruct (leave_stage k6 _ _ S6) as (k7 & E7 & S7). rewrite (bind_ok _ _ _ _ _ (rest_run _ _ _ _ (on_kern_run _ o4 g4 k6 i4 _ _ E7))).
  destruct (B5 (mk_consoles o4 g4 k7 i4) _ _ _ N5 S7) as (e8 & f8 & R8 & T8 & _). rewrite (bind_ok _ _ _ _ _ (rest_run _ _ _ _ R8)).
  destruct (B6 e8 _ _ _ N6 T8) as (e9 & f9 & R9 & T9 & _). rewrite (bind_ok _ _ _ _ _ (rest_run _ _ _ _ R9)).
  destruct (B7 e9 _ _ _ N7 T9) as (e10 & gg & R10 & T10 & _). rewrite (bind_ok _ _ _ _ _ (rest_run _ _ _ _ R10)).
  change (with_sems gg _) with (with_sems gg (k_idle_set (k_main f))) in T10.
  destruct (console_stage e10 _ _ _ file console_main T10 eq_refl eq_refl Hfile Hcm) as (e11 & R11 & T11 & Hsp & _ & Hctx).
  rewrite (bind_ok _ _ _ _ _ (rest_run (let! _ := _ in ret tt) _ _ _ (bind_ok _ (fun _ => ret tt) _ _ _ R11))).
  destruct e11 as [o11 g11 k11 i11]. exists (mk_consoles o11 g11 k11 i11), f, gg. split; [exact (hooks_last f0 _)|]. by split.
Qed.

(** A [target_main] that returns. *)
Lemma main_returns b mem' f0 console_main file e0 e f g q8 free : sets_up q8 (target_main b) -> NoDup (q8 ++ free) ->
  firmware_main_start b mem' f0 console_main file (mk_init 0 e0) = Ok tt (mk_init kFWInitLevelLast e) ->
  started e (k_called f g) (q8 ++ free) file console_main ->
  exists e' h, firmware_main b mem' f0 console_main file (mk_init 0 e0) = Ok tt (mk_init kFWInitLevelLast e') /\
    started e' (k_started f g h) free file console_main.
Proof.
  intros B8 N8 E [T11 Hsp Hctx]. unfold firmware_main. rewrite (bind_ok _ _ _ _ _ E).
  destruct (B8 e _ _ _ N8 T11) as (e12 & h & R12 & T12 & Et & Ew & Eo & Eg). rewrite (bind_ok _ _ _ _ _ (rest_run _ _ _ _ R12)).
  destruct e12 as [o12 g12 k12 i12]. cbn [ckern objects global_console] in *.
  destruct (block_stage k12 _ _ _ T12) as (k13 & E13 & S13 & Ew13 & Et13); [cbn; by left|].
  exists (mk_consoles o12 g12 k13 i12), h. split; [exact (rest_run _ _ _ _ (on_kern_run _ o12 g12 k12 i12 _ _ E13))|].
  destruct Hsp as [Hg Ho]. split; cbn [ckern]; [exact S13|by split; cbn; congruence|].
  apply (holds_kept (ckern e)); [exact Hctx|by rewrite Et13, Et|]. intros x _. by rewrite Ew13, Ew.
Qed.

Lemma wake_rq t k : k_rq (a_set_state t THREAD_STATE_RUNNING (a_create t k)) = k_rq k ++ [t].
Proof. unfold a_set_state, running, a_create. cbn [k_state k_rq]. by rewrite lookup_insert_eq. Qed.

Lemma blocked_kernel k0 t : k_rq k0 = [k_cur k0; t] -> t <> k_cur k0 -> k_state k0 !! k_cur k0 = Some THREAD_STATE_RUNNING ->
  let k := k_blocked k0 in
  k_cur k = k_cur k0 /\ k_state k !! k_cur k0 = Some THREAD_STATE_BLOCKED /\ k_rq k = [t] /\ k_idle k = k_idle k0 /\ k_pend k = true /\
  k_cur (a_schedule k) = t.
Proof.
  intros Hrq Hne Hst k. assert (running k0 (k_cur k0) = true) as Hrun by (by apply bool_decide_eq_true).
  assert (k_rq k = [t]) as Ek.
  { unfold k, k_blocked. cbn [spec_event a_set_state k_rq]. rewrite Hrun, Hrq. cbn [andb is_running negb].
    unfold remove. by rewrite filter_cons_False, filter_cons_True by tauto. }
  split; [done|]. split; [apply lookup_insert_eq|]. split; [exact Ek|]. split; [done|]. split.
  - unfold k, k_blocked. cbn [spec_event a_set_state k_pend]. rewrite Hrun, Z.eqb_refl. cbn. by rewrite orb_true_r.
  - unfold a_schedule. cbn [k_cur]. by rewrite Ek.
Qed.

Lemma called_kernel f g : let k0 := k_called f g in
  k_rq k0 = [main mem; console_thr mem] /\ k_cur k0 = main mem /\ k_idle k0 = idle mem /\ k_cur (a_schedule k0) = console_thr mem.
Proof.
  enough (k_rq (k_called f g) = [main mem; console_thr mem]) as E by (split; [exact E|]; split; [done|]; split; [done|]; unfold a_schedule; cbn [k_cur]; by rewrite E).
  unfold k_called, k_console. cbn [spec_event]. rewrite wake_rq. change (k_rq (k_main f) ++ [console_thr mem] = [main mem; console_thr mem]).
  assert (k_rq (k_main f) = [main mem]) as ->; [|done]. unfold k_main. cbn [spec_event].
  exact (wake_rq (main mem) (a_current (main mem) (with_sems f kernel_start))).
Qed.

Lemma started_kernel f g h : let k := k_started f g h in
  k_cur k = main mem /\ k_state k !! main mem = Some THREAD_STATE_BLOCKED /\ k_rq k = [console_thr mem] /\ k_idle k = idle mem /\ k_pend k = true /\
  k_cur (a_schedule k) = console_thr mem.
Proof.
  intros k. pose proof (main_running f g) as Hrun. destruct (called_kernel f g) as (Hrq & Hcur & Hidle & _). unfold k, k_started.
  change (k_state (with_sems h (k_called f g)) !! main mem = Some THREAD_STATE_RUNNING) in Hrun.
  change (k_rq (with_sems h (k_called f g)) = [main mem; console_thr mem]) in Hrq. change (k_cur (with_sems h (k_called f g)) = main mem) in Hcur.
  change (k_idle (with_sems h (k_called f g)) = idle mem) in Hidle.
  set (k0 := with_sems h _) in *. clearbody k0. rewrite <-Hcur in Hrq, Hrun |- *. rewrite <-Hidle. apply blocked_kernel; [done| |done].
  rewrite Hcur. apply not_eq_sym, apart.
Qed.

(** The processor with the kernel as [firmware_main] leaves it; the main thread may use
    its own stack. *)
Record runs_on (m : Switch.cpu) (s : consoles) : Prop := {
  ro_regs : word_regs m;
  ro_kern : exists ws, kern m = set_words (ckern s) ws /\
    forall x, console_mem mem + STACK_SIZE_CONSOLE - 60 <= x < console_mem mem + STACK_SIZE_CONSOLE + 4 -> ws !! x = words (ckern s) !! x }.

Definition console_ctx (console_main : Z) : gmap Z (Z * list Z) :=
  {[console_thr mem := (console_mem mem + STACK_SIZE_CONSOLE - 60, initial_context console_main (console_obj mem))]}.

Lemma console_ctx_at console_main :
  console_ctx console_main !! console_thr mem = Some (console_mem mem + STACK_SIZE_CONSOLE - 60, initial_context console_main (console_obj mem)).
Proof. apply lookup_singleton_eq. Qed.

Lemma suspended_other (m : Switch.cpu (S := store) (L := list_t)) k cs frame t v : t <> k_cur k -> cs !! t = Some v ->
  suspended (mk_world m k cs) frame !! t = Some v.
Proof. intros Hne H. unfold suspended. cbn [wker wcpu ctxs]. by rewrite lookup_insert_ne. Qed.

Lemma started_inv e k free file console_main m : started e k free file console_main -> runs_on m e ->
  inv queue_off (mk_world m k (console_ctx console_main)).
Proof.
  intros [S1 S2 S3] [R1 (ws & R2 & R3)]. pose proof S1 as [T1 T2 T3 _ _ _ _].
  split; cbn [wcpu wker ctxs]; rewrite ?R2; [by apply rep_words|done|done|done|].
  intros t sp ctx Ht _. unfold console_ctx in Ht. apply lookup_singleton_Some in Ht as [<- [= <- <-] ]. apply (holds_kept (ckern e)); [exact S3|done|].
  intros x Hx. apply R3. lia.
Qed.
(** The reschedule loads the console's context. *)
Lemma console_loaded k (cs : gmap Z (Z * list Z)) m frame lr clob sp ctx :
  inv queue_off (mk_world m k cs) -> switch_ready queue_off (mk_world m k cs) frame ->
  console_thr mem <> k_cur k -> k_cur (a_schedule k) = console_thr mem -> cs !! console_thr mem = Some (sp, ctx) ->
  exists m', arch_handle_pendsv queue_off lr clob m = Ok lr m' /\ current_thread (kern m') = console_thr mem /\
    psp m' = sp + 32 /\ words_at (words (kern m')) (sp + 32) (drop 8 ctx).
Proof.
  intros Hinv Hready Hne Hto Hctx.
  destruct (run_switch queue_off _ frame lr clob sp ctx Hinv Hready) as (m' & Em & Ep & _ & _ & Ew & Hi').
  { change (wker (mk_world m k cs)) with k. rewrite Hto. by apply suspended_other. }
  exists m'. split; [exact Em|]. split; [|by split].
  rewrite <-Hto. exact (rep_cur _ _ _ (inv_rep _ _ Hi')).
Qed.

(** A reschedule with the kernel of [e], wherever on its own stack the thread that runs
    has come to, loads the context in which [console_main] starts. *)
Definition loads_console (e : consoles) (k : kernel) (console_main : Z) : Prop :=
  forall m frame lr clob, runs_on m e -> switch_ready queue_off (mk_world m k (console_ctx console_main)) frame ->
    exists m', arch_handle_pendsv queue_off lr clob m = Ok lr m' /\ current_thread (kern m') = console_thr mem /\
      psp m' = console_mem mem + STACK_SIZE_CONSOLE - 60 + 32 /\
      words_at (words (kern m')) (console_mem mem + STACK_SIZE_CONSOLE - 60 + 32) (drop 8 (initial_context console_main (console_obj mem))).

Lemma started_loads e k free file console_main : started e k free file console_main ->
  console_thr mem <> k_cur k -> k_cur (a_schedule k) = console_thr mem -> loads_console e k console_main.
Proof.
  intros Hs Hne Hto m frame lr clob Hon Hready.
  apply (console_loaded k _ _ _ _ _ _ _ (started_inv e k free file console_main m Hs Hon) Hready Hne Hto). apply console_ctx_at.
Qed.
End Stages.

(** C3: The firmware starts.  Assume memory for the console and the three threads, apart
    from each other, and a board whose seven initialisation functions (of the port, the
    platform, the target and [log]) return and do no more in the kernel than create
    distinct semaphores.  Then [firmware_main] runs the hooks of its levels and comes to
    the call of [target_main], whatever that does: the main thread runs, the console's
    thread is behind it in the running queue, the idle thread is set and no interrupt is
    being handled.  So the console starts even if [target_main] never returns, as the bus
    controller's with a node id: a reschedule at the call, wherever on its own stack the
    main thread is, loads the context in which [console_main] starts with the console as
    its argument.  If [target_main] returns, having at most created semaphores,
    [firmware_main] comes to its end: the main thread is blocked, only the console's
    thread runs, a reschedule is requested, and it loads that context. *)
Theorem firmware_starts (b : board) (mem : memory) qs free e f0 console_main file :
  good_memory mem -> board_ok mem b qs free -> at_stage mem (ckern e) kernel_start 0 (concat qs ++ free) ->
  in_u 32 f0 -> in_u 32 console_main -> file <> NULL ->
  (exists e1 k1, firmware_main_start b mem f0 console_main file (mk_init 0 e) = Ok tt (mk_init kFWInitLevelLast e1) /\
    firmware_main b mem f0 console_main file (mk_init 0 e) =
      (run! on_rest (target_main b) in on_rest (on_kern (thread_block queue_off))) (mk_init kFWInitLevelLast e1) /\
    rep queue_off (ckern e1) k1 /\ wf_kernel queue_off k1 /\ in_isr_count (ckern e1) = 0 /\
    k_cur k1 = main mem /\ k_state k1 !! main mem = Some THREAD_STATE_RUNNING /\ k_rq k1 = [main mem; console_thr mem] /\
    k_idle k1 = idle mem /\ spawned e1 file (console_obj mem) (console_thr mem) /\ loads_console mem e1 k1 console_main) /\
  (sets_up mem free (target_main b) ->
   exists e' k, firmware_main b mem f0 console_main file (mk_init 0 e) = Ok tt (mk_init kFWInitLevelLast e') /\
    rep queue_off (ckern e') k /\ wf_kernel queue_off k /\ in_isr_count (ckern e') = 0 /\
    k_cur k = main mem /\ k_state k !! main mem = Some THREAD_STATE_BLOCKED /\ k_rq k = [console_thr mem] /\
    k_idle k = idle mem /\ k_pend k = true /\ spawned e' file (console_obj mem) (console_thr mem) /\ loads_console mem e' k console_main).
Proof.
  intros Hmem Hb Hst Hf Hc Hfile. destruct (start_run mem Hmem b qs free e f0 console_main file Hb Hst Hf Hc Hfile) as (e1 & f & g & E & Hs).
  pose proof (apart mem Hmem) as Hne%proj1. destruct (called_kernel mem f g) as (C1 & C2 & C3 & C4). split.
  - exists e1, (k_called mem f g). pose proof Hs as [ [S1 S2 _ S4 _ _ _] S5 _]. pose proof (main_running mem Hmem f g) as Hrun.
    pose proof (started_loads mem e1 _ _ _ _ Hs ltac:(rewrite C2; by apply not_eq_sym) C4) as Hl.
    repeat (split; [by first [assumption|unfold firmware_main; rewrite (bind_ok _ _ _ _ _ E)]|]). exact Hl.
  - intros B8. pose proof (bo_once _ _ _ _ Hb) as Hnd%NoDup_tail.
    destruct (main_returns mem b mem f0 console_main file e e1 f g free [] ltac:(done) ltac:(by rewrite app_nil_r) E ltac:(by rewrite app_nil_r)) as (e' & h & E' & Hs').
    destruct (started_kernel mem Hmem f g h) as (K1 & K2 & K3 & K4 & K5 & K6). pose proof Hs' as [ [S1 S2 _ S4 _ _ _] S5 _].
    exists e', (k_started mem f g h). repeat (split; [assumption|]).
    apply (started_loads mem e' _ _ _ _ Hs'); [|exact K6]. rewrite K1. by apply not_eq_sym.
Qed.
End Startup.

(** The board of the LPC11xx: [platform_early_init] starts the serial line with its four
    semaphores ([Uart]), [platform_init] the I2C master with its two ([I2c]). *)
Definition st_board : board (F := unit) :=
  mk_board (ret tt)
    (run! on_kern (semaphore_init 800 0) in run! on_kern (semaphore_init 810 0) in
     run! on_kern (semaphore_init 820 1) in on_kern (semaphore_init 830 1))
    (ret tt) (ret tt) (ret tt)
    (run! on_kern (semaphore_init 840 1) in on_kern (semaphore_init 850 0)) (ret tt) (ret tt).
Definition st_mem : memory := mk_memory 100 500 600 (mk_console 0 0) 200 1000 700 300 701 4000.
Definition st_start : Spawn.consoles (S := store) (L := list_t) (F := unit) :=
  mk_consoles ∅ 0 (sys_start (fresh_store [100; 120; 200; 220; 300; 320])) (mk_io ∅ tt).
Definition st_state (r : out (init_state (E := Spawn.consoles (S := store) (L := list_t) (F := unit))) unit) :=
  match r with Ok _ s => rest s | Fault _ => st_start end.
Lemma st_state_ok r l e : r = Ok tt (mk_init l e) -> e = st_state r.
Proof. by intros ->. Qed.
Definition st_called := st_state (firmware_main_start 20 st_board st_mem 0x300 0x400 1 (mk_init 0 st_start)).
Definition st_end := st_state (firmware_main 20 st_board st_mem 0x300 0x400 1 (mk_init 0 st_start)).
Lemma st_called_ok l e : firmware_main_start 20 st_board st_mem 0x300 0x400 1 (mk_init 0 st_start) = Ok tt (mk_init l e) -> e = st_called.
Proof. unfold st_called. exact (st_state_ok _ l e). Qed.
Lemma st_end_ok l e : firmware_main 20 st_board st_mem 0x300 0x400 1 (mk_init 0 st_start) = Ok tt (mk_init l e) -> e = st_end.
Proof. unfold st_end. exact (st_state_ok _ l e). Qed.

(** The main thread on a stack at 8192. *)
Definition st_cpu (e : Spawn.consoles (S := store) (L := list_t) (F := unit)) : Switch.cpu (S := store) (L := list_t) :=
  mk_cpu (fun _ => 9) 8192 [] (set_words (ckern e) (stores 8192 sw_frame (words (ckern e)))).

Lemma st_good : good_memory 20 st_mem.
Proof.
  split; cbn; [by apply (bool_decide_unpack _); vm_compute|by apply (bool_decide_unpack _); vm_compute|done|].
  split; [done|]. split; [by unfold in_u|done].
Qed.

Lemma st_ok : board_ok 20 st_mem st_board [ []; [800; 810; 820; 830]; []; []; []; [840; 850]; [] ] [].
Proof.
  split; [|by apply (bool_decide_unpack _); vm_compute].
  eexists _, _, _, _, _, _, _. split; [reflexivity|]. split; [apply sets_up_ret|].
  split; [by do 3 (apply (sets_up_seq _ _ [_]); [by apply sets_up_sem|]); apply sets_up_sem|]. do 3 (split; [apply sets_up_ret|]).
  split; [apply (sets_up_seq _ _ [_] [_]); by apply sets_up_sem|]. apply sets_up_ret.
Qed.

Lemma st_stage : at_stage 20 st_mem (ckern st_start) kernel_start 0 [800; 810; 820; 830; 840; 850].
Proof.
  split; [apply (start_rep (L := list_t))|apply (start_rep (S := store) (L := list_t) 20 (fresh_store []))|done|done| |by intros ???|by repeat constructor].
  repeat constructor; apply (bool_decide_unpack _); vm_compute; exact I.
Qed.

Lemma st_runs e : runs_on st_mem (st_cpu e) e.
Proof.
  split; [intros r; unfold in_u; cbn; lia|]. exists (stores 8192 sw_frame (words (ckern e))). split; [reflexivity|]. intros x Hx. apply stores_outside.
  cbn [console_mem st_mem] in Hx. unfold STACK_SIZE_CONSOLE in Hx. lia.
Qed.

Lemma st_ready e k th : wf_kernel 20 k -> k_cur k = 100 -> k_rq k = [200] \/ k_rq k = [100; 200] ->
  threads (ckern e) !! 100 = Some th -> stack_protector th = NULL ->
  switch_ready 20 (mk_world (st_cpu e) k (console_ctx st_mem 0x400)) sw_frame.
Proof.
  intros Hw Hcur Hrq Hth Hp. split; cbn [wcpu psp wker ctxs st_cpu]; [done|apply stores_at|done|repeat constructor; done| |].
  - intros t sp ctx Ht _. change (console_ctx st_mem 0x400 !! t = Some (sp, ctx)) in Ht. unfold console_ctx in Ht.
    apply lookup_singleton_Some in Ht as [_ [= <- _] ]. cbn [console_mem st_mem]. unfold STACK_SIZE_CONSOLE. lia.
  - split; [done|]. rewrite Hcur. split; [exists th; split; [exact Hth|]; rewrite Hp; split; [done|by left]|].
    assert (200 ∈ k_rq k) as Hin by (destruct Hrq as [->| ->]; set_solver).
    destruct Hw as [ [_ Hd _ Hr] _ _ _ _].
    assert (hd_or (k_idle k) (rotate (k_rq k)) = 200) as -> by (by destruct Hrq as [->| ->]).
    apply Hd. exists THREAD_STATE_RUNNING. by apply Hr.
Qed.

Lemma st_main : stack_protector <$> threads (ckern st_called) !! 100 = Some NULL /\ stack_protector <$> threads (ckern st_end) !! 100 = Some NULL.
Proof. vm_compute. by split. Qed.

(** The console's thread is loaded: at 3020 the registers with which it starts. *)
Definition console_starts (e : Spawn.consoles (S := store) (L := list_t) (F := unit)) : Prop :=
  exists m', arch_handle_pendsv 20 0xFFFFFFFD (fun _ => 0) (st_cpu e) = Ok 0xFFFFFFFD m' /\ current_thread (kern m') = 200 /\ psp m' = 3020 /\
    words_at (words (kern m')) 3020 [600; kStackProtector; kStackProtector; kStackProtector; kStackProtector; 0xFFFFFFFE; 0x400; 0x01000000].

Lemma st_loads e k : loads_console 20 st_mem e k 0x400 -> wf_kernel 20 k -> k_cur k = 100 -> k_rq k = [200] \/ k_rq k = [100; 200] ->
  stack_protector <$> threads (ckern e) !! 100 = Some NULL -> console_starts e.
Proof.
  intros Hl Hw Hcur Hrq Hm. destruct (threads (ckern e) !! 100) as [th|] eqn:Eth; [|done]. injection Hm as Hm.
  apply (Hl (st_cpu e) sw_frame 0xFFFFFFFD (fun _ => 0)); [apply st_runs|by eapply st_ready].
Qed.

Lemma firmware_starts_witness :
  (firmware_main_start 20 st_board st_mem 0x300 0x400 1 (mk_init 0 st_start) = Ok tt (mk_init kFWInitLevelLast st_called) /\ console_starts st_called) /\
  firmware_main 20 st_board st_mem 0x300 0x400 1 (mk_init 0 st_start) = Ok tt (mk_init kFWInitLevelLast st_end) /\ console_starts st_end.
Proof.
  destruct (firmware_starts 20 st_board st_mem [ []; [800; 810; 820; 830]; []; []; []; [840; 850]; [] ] [] st_start 0x300 0x400 1)
    as [ (e1 & k1 & E1 & _ & _ & W1 & _ & Hcur1 & _ & Hrq1 & _ & _ & Hsw1) (e' & k & E & Hr & Hw & _ & Hcur & _ & Hrq & _ & _ & _ & Hsw) ];
    [exact st_good|exact st_ok|exact st_stage|done|done|done|apply sets_up_ret|].
  pose proof (st_called_ok _ _ E1) as H1. pose proof (st_end_ok _ _ E) as H. subst e1 e'.
  destruct st_main as [M1 M2]. split; split.
  - exact E1.
  - exact (st_loads _ _ Hsw1 W1 Hcur1 (or_intror Hrq1) M1).
  - exact E.
  - exact (st_loads _ _ Hsw Hw Hcur (or_introl Hrq) M2).
Defined.
