(* ===== verification/BusController.v ===== *)
(** * BusController: the target of the project

    [target/buscontroller/init.c]: the configuration from the EEPROM ([Config]), the
    sensors ([Sensor], [Sht2x]), the pin of the fan ([Gpio]) and the CAN node
    ([CanNode]).  [config] is one struct in memory: [Config] has its bytes and [CanNode]
    the fields it uses, so that whatever changes the bytes sets the fields. *)
From S2P Require Import Prelude ListApi DList Fw Sched Semaphore SchedSpec SchedRun Eeprom EepromSpec Crc Config ConfigSpec Gpio Sensor Sht2x CanNode CanNodeSpec.

(** ** The fields of [struct config_t]

    A field is little-endian; [sn] is followed by [struct can_node_config]. *)
Definition field (c : list Z) (off n : nat) : Z := foldr (fun b acc => b + 2 ^ 8 * acc) 0 (take n (drop off c)).

Definition config_node_id (c : list Z) : Z := field c 4 2.
Definition config_speed (c : list Z) : Z := field c 8 4.

Definition source_fields (c : list Z) (off : nat) : can_node_output_src_config :=
  mk_src (field c off 2) (field c (off + 2) 1) (field c (off + 3) 1) (i32 (field c (off + 4) 4)) (i32 (field c (off + 8) 4)).
Definition output_fields (NS : nat) (c : list Z) (off : nat) : can_node_output_config :=
  mk_oconf (field c off 1) ((fun j => source_fields c (off + 4 + 12 * j)) <$> seq 0 NS).
Definition node_fields (NS : nat) (c : list Z) : can_node_config := mk_nconf (field c 0 4) [output_fields NS c 16].

(** The registers [adc_create] sets up; SYSAHBCLKDIV is not 0. *)
Record adc_regs (W : Type) := mk_adc_regs {
  PDRUNCFG_and : Z -> M W unit; SYSAHBCLKCTRL_or : Z -> M W unit; CR_set : Z -> M W unit; PIO1_11_set : Z -> M W unit;
  SystemCoreClock : Z; SYSAHBCLKDIV : Z }.
Arguments mk_adc_regs {W}. Arguments PDRUNCFG_and {W}. Arguments SYSAHBCLKCTRL_or {W}. Arguments CR_set {W}. Arguments PIO1_11_set {W}.
Arguments SystemCoreClock {W}. Arguments SYSAHBCLKDIV {W}.

(** [pin] is not looked at. *)
Definition adc_create {W} (r : adc_regs W) (memory pin : Z) : M W Z :=
  if memory =? NULL then ret NULL
  else
    run! PDRUNCFG_and r (u32 (Z.lnot (Z.shiftl 1 4))) in
    run! SYSAHBCLKCTRL_or r (Z.shiftl 1 13) in
    run! CR_set r (u32 (Z.shiftl (u32 (SystemCoreClock r / SYSAHBCLKDIV r / 4500000 - 1)) 8)) in
    run! PIO1_11_set r 1 in
    ret memory.

Definition regs_return {W} (r : adc_regs W) : Prop := forall v w,
  (exists w', PDRUNCFG_and r v w = Ok tt w') /\ (exists w', SYSAHBCLKCTRL_or r v w = Ok tt w') /\
  (exists w', CR_set r v w = Ok tt w') /\ exists w', PIO1_11_set r v w = Ok tt w'.

Lemma adc_create_run {W} (r : adc_regs W) memory pin w : regs_return r -> exists w', adc_create r memory pin w = Ok memory w'.
Proof.
  intros H. unfold adc_create. destruct (Z.eqb_spec memory NULL) as [->|]; [by eexists|].
  destruct (H (u32 (Z.lnot (Z.shiftl 1 4))) w) as ((w1 & E1) & _). rewrite (bind_ok _ _ _ _ _ E1).
  destruct (H (Z.shiftl 1 13) w1) as (_ & (w2 & E2) & _). rewrite (bind_ok _ _ _ _ _ E2).
  destruct (H (u32 (Z.shiftl (u32 (SystemCoreClock r / SYSAHBCLKDIV r / 4500000 - 1)) 8)) w2) as (_ & _ & (w3 & E3) & _). rewrite (bind_ok _ _ _ _ _ E3).
  destruct (H 1 w3) as (_ & _ & _ & (w4 & E4)). rewrite (bind_ok _ _ _ _ _ E4). by eexists.
Qed.

Section BusController.
Context {S L W E G : Type} `{LA : ListApi S L} `{GR : GpioRegs G}.
Context (queue_off sem uninit : Z) (NS sizeof_config : nat) (HAVE_FAN_OUTPUT WITH_DEVICE_SHT2X : bool).
Context (ee : eeprom E) (i2c_dev_transfer : Z -> list Z -> Z -> M W (Z * list Z)).
Context (cr_and cr_or : Z -> M W unit) (read_gdr : M W Z) (rounds : nat) (adc_regs : adc_regs W).
(** The status of [can_init] for a speed, and [can_send] ([CanNode]). *)
Context (can_init : Z -> Z) (can_send : can_frame -> Z -> M W Z).
Abbreviation nsys := (CanNode.nsys (S := S) (L := L) (W := W)).

(** [CAN_NODE_NUM_OUTPUT] of the project. *)
Definition NUM_OUTPUT : nat := 1.
Definition FAN_PIN : Z := PIN 2 7 11.

Record tstate := mk_tstate { t_config : Config.store (W := E); t_gpio : G; t_node : nsys; no_node_id : bool }.

Definition on_config (c : M (Config.store (W := E)) unit) : M tstate unit := fun s =>
  match c (t_config s) with
  | Ok a st => Ok a (mk_tstate st (t_gpio s) (set_conf (node_fields NS (config st)) (t_node s)) (no_node_id s))
  | Fault f => Fault f
  end.
Definition on_gpio (c : M G unit) : M tstate unit := fun s =>
  match c (t_gpio s) with Ok a g => Ok a (mk_tstate (t_config s) g (t_node s) (no_node_id s)) | Fault f => Fault f end.
Definition on_node {A} (c : M nsys A) : M tstate A := fun s =>
  match c (t_node s) with Ok a n => Ok a (mk_tstate (t_config s) (t_gpio s) n (no_node_id s)) | Fault f => Fault f end.

(** What the driver of a sensor at an address stores to its [ops]. *)
Definition set_ops (sensor : Z) (o : sensor_ops W) : M nsys unit :=
  modify (fun s => set_regy (mk_sensors (s_list (regy s)) (s_entries (regy s)) (<[sensor := o]> (s_ops (regy s)))) s).

(** [memory] is what [malloc_raw] returns; the bus is part of the transfer. *)
Definition sht2x_create (memory : Z) : M nsys Z :=
  if memory =? NULL then ret NULL
  else
    let! st := deref (fun s => l_entry_init (s_entries (regy s)) memory) in
    run! modify (fun s => set_regy (mk_sensors (s_list (regy s)) st (s_ops (regy s))) s) in
    run! set_ops memory (Sht2x.ops i2c_dev_transfer uninit) in
    ret memory.

Definition sensor_from_adc (memory mult div ref : Z) : M nsys Z :=
  if memory =? NULL then ret NULL
  else run! set_ops memory (adc_sensor_ops cr_and cr_or read_gdr rounds (Sht2x.sensor_from_adc mult div ref)) in ret memory.

Definition target_init (sht2x_memory adc_object adc_memory : Z) : M tstate unit :=
  run! on_config (config_load ee sizeof_config true uninit) in
  run! (if WITH_DEVICE_SHT2X then
          let! sht2x := on_node (sht2x_create sht2x_memory) in on_node (sensors_register regy set_regy sht2x)
        else ret tt) in
  run! (if HAVE_FAN_OUTPUT then
          run! on_gpio (gpio_set_direction FAN_PIN GPIO_DIRECTION_OUT) in
          run! on_gpio (gpio_set FAN_PIN false) in
          let! st := on_node (can_node_set_output_pin NUM_OUTPUT 0 FAN_PIN) in ret tt
        else ret tt) in
  let! adc := on_node (on_world CanNode.world set_world (adc_create adc_regs adc_object 0)) in
  let! sensor := on_node (sensor_from_adc adc_memory 16 1 3300) in
  on_node (sensors_register regy set_regy sensor).

(** Whether [target_main] has come to its endless loop of [can_node_loop], or has
    returned. *)
Inductive main_end := Looping | Returned.

Definition target_main : M tstate main_end :=
  let! c := gets (fun s => config (t_config s)) in
  if can_node_valid_id (config_node_id c) && negb (config_node_id c =? 0) then
    let! st := on_node (can_node_init sem uninit can_send NUM_OUTPUT (config_node_id c) (can_init (config_speed c))) in
    ret Looping
  else run! modify (fun s => mk_tstate (t_config s) (t_gpio s) (t_node s) true) in ret Returned.

(** ** What the start leaves *)

Abbreviation rep := (rep queue_off).
Abbreviation wf_kernel := (wf_kernel queue_off).
Abbreviation sht2x_ops := (Sht2x.ops i2c_dev_transfer uninit).
Abbreviation adc_ops := (adc_sensor_ops cr_and cr_or read_gdr rounds (Sht2x.sensor_from_adc 16 1 3300)).

(** Registering appends the sensor and touches no other entry. *)
Lemma register_run (n : nsys) xs x : registered (regy n) xs -> l_detached (s_entries (regy n)) x -> x <> NULL -> x ∉ xs ->
  is_Some (s_ops (regy n) !! x) ->
  exists r, sensors_register regy set_regy x n = Ok tt (set_regy r n) /\ registered r (xs ++ [x]) /\ s_ops r = s_ops (regy n) /\
    l_frame (x :: xs) (s_entries (regy n)) (s_entries r).
Proof.
  intros Hr Hd Hx Hin Ho. pose proof Hr as [Hl Hos]. destruct (l_append_spec _ _ _ _ Hl Hd Hx Hin) as (l' & st' & Eq & Hl' & Hf).
  exists (mk_sensors l' st' (s_ops (regy n))). unfold sensors_register, bind, deref. rewrite Eq. split; [reflexivity|].
  split; [|by split]. split; [exact Hl'|]. intros y Hy. apply elem_of_app in Hy as [Hy|Hy]; [by apply Hos|]. by apply list_elem_of_singleton in Hy as ->.
Qed.

(** The sensors of the target, and the registry that has them. *)
Definition target_sensors (sht2x adc : Z) : list Z := (if WITH_DEVICE_SHT2X then [sht2x] else []) ++ [adc].

Record sensor_memory (r : Sensor.sensors (S := S) (L := L) (W := W)) (sht2x adc : Z) : Prop := {
  sm_none : registered r [];
  sm_sht2x : sht2x <> NULL /\ l_entry (s_entries r) sht2x;
  sm_adc : adc <> NULL;
  sm_apart : sht2x <> adc }.

(** [sensor_from_adc] leaves the list entry of its sensor as [malloc] delivered it.  It may
    be clear; or its links lead to no entry, and appending it to any list is a wild access,
    whatever happens to the entry of the other sensor. *)
Definition clear_entry (n : nsys) (adc : Z) : Prop := l_detached (s_entries (regy n)) adc.
Definition wild_entry (n : nsys) (sht2x adc : Z) : Prop :=
  forall l st, l_frame [sht2x] (s_entries (regy n)) st -> l_append l st adc = None.

Definition registers (c : M tstate unit) (t : tstate) (xs : list Z) : Prop :=
  exists r, c t = Ok tt (mk_tstate (t_config t) (t_gpio t) (set_regy r (t_node t)) (no_node_id t)) /\
    registered r xs /\ forall x, x ∈ xs -> s_ops r !! x = Some sht2x_ops \/ s_ops r !! x = Some adc_ops.

Lemma sht2x_run (t : tstate) sht2x adc : sensor_memory (regy (t_node t)) sht2x adc ->
  let c := if WITH_DEVICE_SHT2X then
      let! s := on_node (sht2x_create sht2x) in on_node (sensors_register regy set_regy s) else ret tt in
  exists r, c t = Ok tt (mk_tstate (t_config t) (t_gpio t) (set_regy r (t_node t)) (no_node_id t)) /\
    registered r (if WITH_DEVICE_SHT2X then [sht2x] else []) /\
    (WITH_DEVICE_SHT2X = true -> s_ops r !! sht2x = Some sht2x_ops) /\ l_frame [sht2x] (s_entries (regy (t_node t))) (s_entries r).
Proof.
  intros [Hn [Hs0 Hs] Ha0 Hsa] c. unfold c. destruct WITH_DEVICE_SHT2X.
  2:{ exists (regy (t_node t)). split; [|split; [done|split; [done|apply l_frame_refl] ] ]. unfold ret. f_equal. destruct t as [cf g n w]. cbn. by destruct n. }
  destruct (l_entry_init_spec _ _ Hs) as (st & Eq & Hd & Hf).
  set (n1 := set_regy (mk_sensors (s_list (regy (t_node t))) st (<[sht2x := sht2x_ops]> (s_ops (regy (t_node t))))) (t_node t)).
  assert (sht2x_create sht2x (t_node t) = Ok sht2x n1) as E1.
  { unfold sht2x_create. rewrite (proj2 (Z.eqb_neq _ _) Hs0). unfold bind, deref. by rewrite Eq. }
  destruct (register_run n1 [] sht2x) as (r & E2 & Hr & Ho & Hfr).
  { destruct Hn as [Hl _]. split; [|by intros x ?%not_elem_of_nil]. cbn. eapply l_frame_rep; [exact Hf| |exact Hl]. by intros a ?%not_elem_of_nil. }
  { exact Hd. } { done. } { apply not_elem_of_nil. } { cbn. rewrite lookup_insert_eq. by eexists. }
  exists r. split; [|split; [exact Hr|split] ].
  - unfold bind, on_node at 1. rewrite E1. unfold on_node. cbn [t_node]. by rewrite E2.
  - intros _. rewrite Ho. apply lookup_insert_eq.
  - by eapply l_frame_trans.
Qed.

Lemma adc_run (t : tstate) xs adc : registered (regy (t_node t)) xs -> adc <> NULL -> l_detached (s_entries (regy (t_node t))) adc -> adc ∉ xs ->
  (forall x, x ∈ xs -> s_ops (regy (t_node t)) !! x = Some sht2x_ops) ->
  registers (let! sensor := on_node (sensor_from_adc adc 16 1 3300) in on_node (sensors_register regy set_regy sensor)) t (xs ++ [adc]).
Proof.
  intros Hr H0 Hd Hin Hx. unfold registers.
  set (n1 := set_regy (mk_sensors (s_list (regy (t_node t))) (s_entries (regy (t_node t))) (<[adc := adc_ops]> (s_ops (regy (t_node t))))) (t_node t)).
  destruct (register_run n1 xs adc) as (r & E2 & Hr2 & Ho & _); try done.
  { destruct Hr as [Hl Hos]. split; [exact Hl|]. intros x Hxs. cbn. rewrite lookup_insert_ne by (intros ->; done). by apply Hos. }
  { cbn. rewrite lookup_insert_eq. by eexists. }
  exists r. split; [|split; [exact Hr2|] ].
  - assert (sensor_from_adc adc 16 1 3300 (t_node t) = Ok adc n1) as Eq1 by (unfold sensor_from_adc; by rewrite (proj2 (Z.eqb_neq _ _) H0)).
    unfold bind, on_node at 1. rewrite Eq1. unfold on_node. cbn [t_node]. by rewrite E2.
  - intros x Hxs. rewrite Ho. cbn. apply elem_of_app in Hxs as [Hxs|Hxs].
    + left. rewrite lookup_insert_ne by (intros ->; done). by apply Hx.
    + apply list_elem_of_singleton in Hxs as ->. right. apply lookup_insert_eq.
Qed.

Context `{GL : !GpioLaws G} (Hregs : regs_return adc_regs) (Hsend : sends_return can_send).

(** The node when the first output has its pin and the sensors are registered. *)
Definition prepared (n : nsys) (o : output) (c : list Z) (r : Sensor.sensors (S := S) (L := L) (W := W)) (w : W) : nsys :=
  mk_nsys (node_id n) (reqs n) [mk_output (o_state o) (manual_state o) (if HAVE_FAN_OUTPUT then FAN_PIN else pin o) (srcs o)]
          (node_fields NS c) (pub_idx n) (kern n) r w (ntrace n).

Lemma fan_run (t : tstate) o : outputs (t_node t) = [o] ->
  exists g, (if HAVE_FAN_OUTPUT then
          run! on_gpio (gpio_set_direction FAN_PIN GPIO_DIRECTION_OUT) in
          run! on_gpio (gpio_set FAN_PIN false) in
          let! st := on_node (can_node_set_output_pin NUM_OUTPUT 0 FAN_PIN) in ret tt
        else ret tt) t =
    Ok tt (mk_tstate (t_config t) g
      (set_outputs [mk_output (o_state o) (manual_state o) (if HAVE_FAN_OUTPUT then FAN_PIN else pin o) (srcs o)] (t_node t)) (no_node_id t)) /\
    (HAVE_FAN_OUTPUT = true -> Gpio.level g 2 7 = false /\ Z.testbit (dir_read 2 g) 7 = true).
Proof.
  intros Ho. destruct t as [cf g n w]. cbn [t_node t_config t_gpio no_node_id] in *. destruct HAVE_FAN_OUTPUT.
  2:{ exists g. split; [|done]. unfold ret. do 2 f_equal. destruct n as [a b outs d e f h i j]. cbn in Ho |- *. subst outs. unfold set_outputs. cbn. by destruct o. }
  assert (can_node_set_output_pin NUM_OUTPUT 0 FAN_PIN n = Ok STATUS_OK (set_outputs [mk_output (o_state o) (manual_state o) FAN_PIN (srcs o)] n)) as E3.
  { unfold can_node_set_output_pin. change (Z.of_nat NUM_OUTPUT <=? 0) with false. cbv iota.
    rewrite (bind_ok _ _ n o n) by (unfold get_output, deref; by rewrite Ho). unfold put_output, modify, bind. by rewrite Ho. }
  destruct (pin_fields 2 7 11) as [Hp _]; [lia|lia|by unfold in_u|]. fold FAN_PIN in Hp.
  destruct (gpio_direction_run FAN_PIN 2 7 GPIO_DIRECTION_OUT g Hp) as (g1 & E1 & _ & D1).
  destruct (gpio_set_run FAN_PIN 2 7 false g1 Hp) as (g2 & E2 & D2 & V2). exists g2. split.
  - unfold bind at 1, on_gpio at 1. cbn [t_gpio]. rewrite E1. unfold bind at 1, on_gpio at 1. cbn [t_gpio t_config t_node no_node_id]. rewrite E2.
    unfold bind, on_node. cbn [t_node t_config t_gpio no_node_id]. by rewrite E3.
  - intros _. split; [rewrite V2; done|]. rewrite D2, D1 by lia. done.
Qed.

Lemma init_run (t : tstate) st o sht2x obj adc : config_load ee sizeof_config true uninit (t_config t) = Ok tt st ->
  outputs (t_node t) = [o] -> sensor_memory (regy (t_node t)) sht2x adc -> clear_entry (t_node t) adc ->
  exists g r w, target_init sht2x obj adc t = Ok tt (mk_tstate st g (prepared (t_node t) o (config st) r w) (no_node_id t)) /\
    registered r (target_sensors sht2x adc) /\
    (forall x, x ∈ target_sensors sht2x adc -> s_ops r !! x = Some sht2x_ops \/ s_ops r !! x = Some adc_ops) /\
    (HAVE_FAN_OUTPUT = true -> Gpio.level g 2 7 = false /\ Z.testbit (dir_read 2 g) 7 = true).
Proof.
  intros Hc Ho Hm Hclear. set (t1 := mk_tstate st (t_gpio t) (set_conf (node_fields NS (config st)) (t_node t)) (no_node_id t)).
  destruct (sht2x_run t1 sht2x adc Hm) as (r1 & E1 & R1 & O1 & D1). set (t2 := mk_tstate _ _ _ _) in E1.
  destruct (fan_run t2 o Ho) as (g & E2 & G2). set (t3 := mk_tstate _ _ _ _) in E2.
  destruct (adc_create_run adc_regs obj 0 (CanNode.world (t_node t3)) Hregs) as (w & Ew).
  set (t4 := mk_tstate (t_config t3) (t_gpio t3) (set_world w (t_node t3)) (no_node_id t3)).
  destruct (adc_run t4 (if WITH_DEVICE_SHT2X then [sht2x] else []) adc R1) as (r & E3 & R3 & O3).
  { apply Hm. } { eapply l_frame_detached; [exact D1| |exact Hclear]. rewrite list_elem_of_singleton. apply not_eq_sym, Hm. }
  { destruct WITH_DEVICE_SHT2X; [|apply not_elem_of_nil]. rewrite list_elem_of_singleton. apply not_eq_sym, Hm. }
  { intros x Hx. destruct WITH_DEVICE_SHT2X; [|by apply not_elem_of_nil in Hx]. apply list_elem_of_singleton in Hx as ->. by apply O1. }
  exists g, r, w. split; [|split; [exact R3|split; [exact O3|exact G2] ] ].
  unfold target_init, bind at 1, on_config. rewrite Hc. fold t1. unfold bind at 1. rewrite E1. unfold bind at 1. rewrite E2.
  rewrite (bind_ok _ _ t3 obj t4) by (unfold on_node, on_world; by rewrite Ew). exact E3.
Qed.

(** With a wild entry the start comes to the registration of that sensor, not behind it. *)
Lemma init_wild (t : tstate) st o sht2x obj adc : config_load ee sizeof_config true uninit (t_config t) = Ok tt st ->
  outputs (t_node t) = [o] -> sensor_memory (regy (t_node t)) sht2x adc -> wild_entry (t_node t) sht2x adc ->
  target_init sht2x obj adc t = Fault WildAccess.
Proof.
  intros Hc Ho Hm Hwild. set (t1 := mk_tstate st (t_gpio t) (set_conf (node_fields NS (config st)) (t_node t)) (no_node_id t)).
  destruct (sht2x_run t1 sht2x adc Hm) as (r1 & E1 & R1 & O1 & D1). set (t2 := mk_tstate _ _ _ _) in E1.
  destruct (fan_run t2 o Ho) as (g & E2 & G2). set (t3 := mk_tstate _ _ _ _) in E2.
  destruct (adc_create_run adc_regs obj 0 (CanNode.world (t_node t3)) Hregs) as (w & Ew).
  set (t4 := mk_tstate (t_config t3) (t_gpio t3) (set_world w (t_node t3)) (no_node_id t3)).
  unfold target_init, bind at 1, on_config. rewrite Hc. fold t1. unfold bind at 1. rewrite E1. unfold bind at 1. rewrite E2.
  rewrite (bind_ok _ _ t3 obj t4) by (unfold on_node, on_world; by rewrite Ew).
  unfold bind at 1, on_node at 1, sensor_from_adc. rewrite (proj2 (Z.eqb_neq _ _) (sm_adc _ _ _ Hm)).
  unfold on_node, sensors_register, set_ops, bind, modify, deref, ret. cbn. by rewrite (Hwild _ _ D1).
Qed.

Context (cells : E -> Z -> Z) (ready : E -> Prop) (capacity : Z) (fits : Z -> Z -> Prop) `{API : !EepromApi ee cells ready capacity fits}.
Context (Hsize : (16 <= sizeof_config)%nat) (Hcapacity : Z.of_nat sizeof_config + 1 <= capacity).
Context (Hsht2x : total_ops sht2x_ops) (Hadc : total_ops adc_ops).

(** The target when the kernel [k] runs: nothing has been sent, the output is off, no
    sensor is registered; the EEPROM is not writing. *)
Record powered_on (t : tstate) (k : kernel) (node sht2x adc : Z) (o : output) : Prop := {
  po_outputs : outputs (t_node t) = [o];
  po_off : o_state o = false /\ manual_state o = false /\ length (srcs o) = NS /\ Forall (fun st => st = false) (srcs o);
  po_id : node_id (t_node t) = 0;
  po_reqs : reqs (t_node t) = 0;
  po_trace : ntrace (t_node t) = [];
  po_sensors : sensor_memory (regy (t_node t)) sht2x adc;
  po_rep : rep (kern (t_node t)) k;
  po_wf : wf_kernel k;
  po_irqs : irqs_off (kern (t_node t)) = false;
  po_sem : k_sems k !! sem = None;
  po_running : k_state k !! node = Some THREAD_STATE_RUNNING;
  po_ready : ready (Config.world (t_config t));
  po_config : length (config (t_config t)) = sizeof_config }.

(** What a node sends and asks for when it starts. *)
Definition announced (id sn : Z) : list node_event :=
  [EvSend (mk_frame (can_id_build id 0 511) CAN_FRAME_FLAG_EXT 5 (3 :: be_bytes sn ++ replicate 3 uninit));
   EvReceive (can_id_build 0 0 511) (can_id_build 0 0 0x1FF) CAN_FRAME_FLAG_EXT Discovery;
   EvReceive (can_id_build 0 0 500) (can_id_build 0 0x3FF 0x1FF) CAN_FRAME_FLAG_EXT SensorValue;
   EvReceive (can_id_build 0 id 499) (can_id_build 0 0x3FF 0x1FF) CAN_FRAME_FLAG_EXT OutputRequest].

Lemma node_init_run (n : nsys) k id : rep (kern n) k -> wf_kernel k -> irqs_off (kern n) = false -> k_sems k !! sem = None ->
  can_node_valid_id id = true ->
  exists k' w', can_node_init sem uninit can_send NUM_OUTPUT id STATUS_OK n =
      Ok STATUS_OK (mk_nsys id (reqs n) (outputs n) (conf n) (pub_idx n) k' (regy n) w' (ntrace n ++ announced id (sn (conf n)))) /\
    rep k' (spec_event k (KSemInit sem 0)) /\ wf_kernel (spec_event k (KSemInit sem 0)) /\ irqs_off k' = false.
Proof.
  intros Hr Hw Hi Hs Hid. destruct (event_refines queue_off (kern n) k (KSemInit sem 0) Hr Hw Hi) as (k' & Ek & Hk); [by split|].
  set (bytes := Z.lor (Z.shiftl 1 1) (Z.shiftl 1 0) :: be_bytes (sn (conf n))).
  destruct (Hsend (mk_frame (can_id_build id CAN_NODE_BROADCAST_ID 511) CAN_FRAME_FLAG_EXT (Z.of_nat (length bytes)) (bytes ++ replicate (8 - length bytes) uninit)) 0 (CanNode.world n)) as (st & w' & Es).
  exists k', w'. split; [|exact Hk]. unfold can_node_init. rewrite Hid. cbn [assert_]. cbn [run_event] in Ek.
  rewrite (bind_ok _ _ n tt n) by done. change (negb (STATUS_OK =? STATUS_OK)) with false. cbv iota.
  rewrite (bind_ok _ _ n tt (set_node_id id n)) by done.
  rewrite (bind_ok _ _ _ tt (set_kern k' (set_node_id id n))) by (unfold CanNode.on_kern; cbn [kern set_node_id]; by rewrite Ek).
  rewrite (bind_ok _ _ _ tt (mk_nsys id (reqs n) (outputs n) (conf n) (pub_idx n) k' (regy n) w' (ntrace n ++ take 1 (announced id (sn (conf n)))))).
  2:{ unfold can_node_send_discovery_response. set (s1 := set_kern k' (set_node_id id n)). rewrite (bind_ok _ _ s1 (conf n) s1) by done.
      fold bytes. unfold can_node_send. rewrite (bind_ok _ _ _ st (mk_nsys id (reqs n) (outputs n) (conf n) (pub_idx n) k' (regy n) w' (ntrace n ++ take 1 (announced id (sn (conf n)))))); [done|].
      rewrite (bind_ok _ _ s1 tt s1) by done. rewrite (bind_ok _ _ s1 tt s1) by done. rewrite (bind_ok _ _ s1 id s1) by done.
      unfold hand_over, bind, emit, modify, on_world. cbn [CanNode.world s1 set_kern set_node_id]. by rewrite Es. }
  transitivity (Ok STATUS_OK (mk_nsys id (reqs n) (outputs n) (conf n) (pub_idx n) k' (regy n) w'
    (foldl (fun tr e => tr ++ [e]) (ntrace n) (announced id (sn (conf n)))))); [reflexivity|].
  unfold announced. cbn [foldl]. by rewrite <-!app_assoc.
Qed.

(** The rest of the start, for the configuration in memory. *)
Lemma board_start_run (t : tstate) k node sht2x obj adc o st : powered_on t k node sht2x adc o -> clear_entry (t_node t) adc ->
  config_load ee sizeof_config true uninit (t_config t) = Ok tt st ->
  let c := config st in let id := config_node_id c in
  if can_node_valid_id id && negb (id =? 0) then
    can_init (config_speed c) = STATUS_OK ->
    exists t', (run! target_init sht2x obj adc in target_main) t = Ok Looping t' /\
      node_start queue_off sem NUM_OUTPUT NS node (t_node t') (spec_event k (KSemInit sem 0)) /\
      node_id (t_node t') = id /\ conf (t_node t') = node_fields NS c /\ ntrace (t_node t') = announced id (field c 0 4) /\
      registered (regy (t_node t')) (target_sensors sht2x adc) /\
      (HAVE_FAN_OUTPUT = true -> Gpio.level (t_gpio t') 2 7 = false /\ Z.testbit (dir_read 2 (t_gpio t')) 7 = true)
  else exists t', (run! target_init sht2x obj adc in target_main) t = Ok Returned t' /\ no_node_id t' = true /\ ntrace (t_node t') = [].
Proof.
  intros [P1 (Z1 & Z2 & Z3 & Z4) P2 P3 P4 P5 P6 P7 P8 P9 P10 P11 P12] Hclear Hld c id.
  destruct (init_run t st o sht2x obj adc Hld P1 P5 Hclear) as (g & r & w & E1 & R1 & O1 & G1). rewrite (bind_ok _ _ _ _ _ E1).
  unfold target_main. rewrite (bind_ok _ _ _ c (mk_tstate st g (prepared (t_node t) o c r w) (no_node_id t))) by done. fold id.
  destruct (can_node_valid_id id && negb (id =? 0)) eqn:Eid.
  2:{ eexists. split; [reflexivity|]. by split. }
  apply andb_prop in Eid as [Hid _]. intros Hst. rewrite Hst.
  destruct (node_init_run (prepared (t_node t) o c r w) k id P6 P7 P8 P9 Hid) as (k' & w2 & E2 & Hr & Hw & Hi).
  unfold bind, on_node. cbn [t_node]. rewrite E2. eexists. split; [reflexivity|]. cbn [t_node t_gpio].
  split; [|split; [done|split; [done|split; [cbn; by rewrite P4|by split] ] ] ].
  split; cbn [reqs outputs conf kern regy ntrace node_id prepared]; try done.
  - split; cbn [outputs conf node_id prepared]; try done.
    + by constructor.
    + constructor; [|by constructor]. cbn. by rewrite length_fmap, length_seq.
    + apply NoDup_singleton.
  - by constructor.
  - cbn [ntrace prepared]. rewrite P4. by repeat constructor.
  - exists (target_sensors sht2x adc). split; [exact R1|]. intros x Hx. destruct (O1 x Hx) as [Eo|Eo]; by eexists.
  - cbn. apply lookup_insert_eq.
Qed.

Lemma default_node_id : config_node_id (default_config sizeof_config true) = 0.
Proof.
  clear -Hsize. replace sizeof_config with (16 + (sizeof_config - 16))%nat by lia. generalize (sizeof_config - 16)%nat as m. intros m. reflexivity.
Qed.

(** C4: Settings take effect with the next start.  A configuration was saved, and the bus
    controller starts with this EEPROM, with any bytes in [config] and memory from every
    [malloc]; the EEPROM, the ADC's registers, the sensors and [can_send] return.  What happens
    depends on the list entry of the voltage sensor, which [sensor_from_adc] leaves as
    [malloc] delivered it.  If it is clear: with a node id for which [can_init] succeeds,
    the pin of the fan is an output and low, the sensors are registered, the node is
    initialised with the saved id and announces itself with the saved serial number; it
    uses the saved modes and sources, and the main thread comes to the loop of the node,
    in a state from which the node follows its sources ([node_follows]).  Without a node
    id [target_main] says so and returns, and nothing is sent; so it does when the sum
    does not fit the stored configuration.  If the entry's links lead to no entry, the
    start is a wild access, whatever was saved. *)
Theorem settings_take_effect (saved : Config.store (W := E)) (t : tstate) k node sht2x obj adc o :
  powered_on t k node sht2x adc o -> length (config saved) = sizeof_config ->
  let start := run! target_init sht2x obj adc in target_main in
  let c := config saved in let id := config_node_id c in
  let now := cells (Config.world (t_config t)) in
  exists s1, config_save ee sizeof_config saved = Ok tt s1 /\
  (clear_entry (t_node t) adc ->
   ((forall x, now x = cells (Config.world s1) x) ->
    if can_node_valid_id id && negb (id =? 0) then
      can_init (config_speed c) = STATUS_OK ->
      exists t', start t = Ok Looping t' /\
        node_start queue_off sem NUM_OUTPUT NS node (t_node t') (spec_event k (KSemInit sem 0)) /\
        node_id (t_node t') = id /\ conf (t_node t') = node_fields NS c /\ ntrace (t_node t') = announced id (field c 0 4) /\
        registered (regy (t_node t')) (target_sensors sht2x adc) /\
        (HAVE_FAN_OUTPUT = true -> Gpio.level (t_gpio t') 2 7 = false /\ Z.testbit (dir_read 2 (t_gpio t')) 7 = true)
    else exists t', start t = Ok Returned t' /\ no_node_id t' = true /\ ntrace (t_node t') = []) /\
   (now (Z.of_nat sizeof_config) <> crc8_maxim (cells_at now 0 sizeof_config) ->
    exists t', start t = Ok Returned t' /\ no_node_id t' = true /\ ntrace (t_node t') = [])) /\
  (wild_entry (t_node t) sht2x adc -> start t = Fault WildAccess).
Proof.
  intros Hp Hlen start c id now. destruct (save_run ee cells ready capacity fits sizeof_config ltac:(lia) Hcapacity saved Hlen) as (s1 & E1 & Him & _).
  destruct (config_load_run ee cells ready capacity fits sizeof_config true ltac:(lia) Hcapacity uninit (t_config t) (po_ready _ _ _ _ _ _ Hp) (po_config _ _ _ _ _ _ Hp))
    as (st & E2 & Hl). fold now in Hl. cbv zeta in Hl.
  exists s1. split; [exact E1|]. split.
  2:{ intros Hwild. unfold start, bind. by rewrite (init_wild t st o sht2x obj adc E2 (po_outputs _ _ _ _ _ _ Hp) (po_sensors _ _ _ _ _ _ Hp) Hwild). }
  intros Hclear. pose proof (board_start_run t k node sht2x obj adc o st Hp Hclear E2) as Hs. cbv zeta in Hs. split.
  - intros Hsame. assert (cells_at now 0 (Datatypes.S sizeof_config) = image (config saved)) as Hnow by (rewrite <-Him; apply cells_at_ext; intros x _; apply Hsame).
    unfold now in Hnow. rewrite (image_split cells) in Hnow. unfold image in Hnow. apply app_inj_2 in Hnow as [Ec Ex]; [|done]. injection Ex as Ex.
    fold now in Ec, Ex. rewrite Ec, Ex, Z.eqb_refl in Hl. destruct Hl as [Hc _]. rewrite Hc in Hs. exact Hs.
  - intros Hne. rewrite (proj2 (Z.eqb_neq _ _) Hne) in Hl. destruct Hl as [Hc _]. rewrite Hc, default_node_id in Hs.
    change (can_node_valid_id 0 && negb (0 =? 0)) with false in Hs. exact Hs.
Qed.
End BusController.

(** ** A start

    Node 9 at 125 kbit/s with one source; the sensors are at 500 and 600. *)

Definition bc_config : list Z :=
  [77; 0; 0; 0; 9; 0; 0; 0; 72; 232; 1; 0; 30; 0; 0; 0; 0; 0; 0; 0; 5; 0; 0; 3; 100; 0; 0; 0; 200; 0; 0; 0].
Definition bc_eeprom : eeprom device := mcp24xx64_create device_transfer 2.
Definition bc_saved : Config.store (W := device) := mk_store bc_config (mk_device (fun _ => 255) false) [].
Definition bc_stored : Config.store (W := device) := match config_save bc_eeprom 32 bc_saved with Ok _ s => s | Fault _ => bc_saved end.
Definition bc_i2c (address : Z) (cmd : list Z) (n : Z) : M unit (Z * list Z) := ret (STATUS_OK, replicate (Z.to_nat n) 0).
Definition bc_and (v : Z) : M unit unit := ret tt.
Definition bc_gdr : M unit Z := ret (2 ^ 31).
Definition bc_regs : adc_regs unit := mk_adc_regs bc_and bc_and bc_and bc_and 48000000 1.
Definition bc_kern : Sched.sys (S := DList.store) (L := list_t) :=
  match run_events 20 [KInit 100 0] ex_start with Ok _ s => s | Fault _ => ex_start end.
Definition bc_output : output := mk_output false false 0 [false].
(** With [entry] where [malloc] puts the voltage sensor. *)
Definition bc_node (entry : list_entry) : CanNode.nsys (S := DList.store) (L := list_t) (W := unit) :=
  mk_nsys 0 0 [bc_output] (mk_nconf 0 []) 0 bc_kern (mk_sensors list_init (<[600 := entry]> (fresh_store [500; 600])) ∅) tt [].
Definition bc_start (entry : list_entry) : tstate (S := DList.store) (L := list_t) (W := unit) (E := device) (G := chip) :=
  mk_tstate (mk_store (replicate 32 0) (mk_device (dcells (Config.world bc_stored)) false) []) chip0 (bc_node entry) false.
Definition bc_clear : list_entry := mk_entry 0 0.
Definition bc_wild : list_entry := mk_entry 8 12.

Lemma bc_sht2x : total_ops (Sht2x.ops bc_i2c 0).
Proof.
  split; cbn.
  - eexists. split; [reflexivity|]. intros x w. by eexists _, _.
  - intros f [= <-] x w. unfold sht2x_get_temp, sht2x_measure, bc_i2c, bind, ret. repeat case_match; by eexists _, _.
  - intros f [= <-] x w. unfold sht2x_get_humidity, sht2x_measure, bc_i2c, bind, ret. repeat case_match; by eexists _, _.
  - done.
Qed.

Lemma bc_adc : total_ops (adc_sensor_ops bc_and bc_and bc_gdr 1 (Sht2x.sensor_from_adc 16 1 3300)).
Proof.
  split; cbn; try done.
  - eexists. split; [reflexivity|]. intros x w. by eexists _, _.
  - intros f [= <-] x w. by eexists _, _.
Qed.

Lemma bc_regs_return : regs_return bc_regs.
Proof. intros v w. repeat split; by exists w. Qed.

Lemma bc_powered entry : powered_on 20 400 1 32 (fun d : device => device_busy d = O) (bc_start entry) (spec_event kernel_start (KInit 100 0)) 100 500 600 bc_output.
Proof.
  assert (ok_events 20 [KInit 100 0] ex_start kernel_start) as Hok by (apply ok_events_b_ok; vm_compute; reflexivity).
  destruct (events_refine 20 ex_start kernel_start [KInit 100 0]) as (s & Es & Hr & Hw & Hi);
    [apply (start_rep (L := list_t))|apply (start_rep (S := DList.store) (L := list_t) 20 ex_store)|done|exact Hok|].
  assert (s = bc_kern) as -> by (unfold bc_kern; unfold ex_start in *; by rewrite Es).
  split; try done.
  - by repeat constructor.
  - split; cbn.
    + split; [apply list_init_rep|by intros x ?%not_elem_of_nil].
    + split; [done|]. rewrite lookup_insert_ne by done. apply (bool_decide_unpack _). vm_compute. exact I.
    + done.
    + done.
Qed.

Lemma bc_wild_ok : wild_entry (bc_node bc_wild) 500 600.
Proof.
  intros l st Hf. assert (st !! 600 = Some bc_wild) as E1 by (rewrite (Hf 600) by set_solver; reflexivity).
  assert (st !! 12 = None) as E2 by (rewrite (Hf 12) by set_solver; vm_compute; reflexivity).
  cbn. unfold list_append, list_delete, set_next. rewrite E1. cbn. by rewrite E2.
Qed.

Definition bc_send (f : can_frame) (flags : Z) : M unit Z := ret STATUS_OK.
Lemma bc_sends : sends_return bc_send. Proof. intros f flags w. by exists STATUS_OK, w. Qed.
Definition bc_run (entry : list_entry) :=
  (run! target_init 0 1 32 true true bc_eeprom bc_i2c bc_and bc_and bc_gdr 1 bc_regs 500 550 600 in
   target_main 400 0 (fun _ => STATUS_OK) bc_send) (bc_start entry).

Lemma settings_take_effect_witness :
  (exists t', bc_run bc_clear = Ok Looping t' /\
    node_id (t_node t') = 9 /\ c_outputs (conf (t_node t')) = [mk_oconf kCanNodeOutputModeAuto [mk_src 5 0 3 100 200] ] /\
    registered (regy (t_node t')) [500; 600] /\ Gpio.level (t_gpio t') 2 7 = false) /\
  bc_run bc_wild = Fault WildAccess.
Proof.
  pose proof (mcp24xx64_api device_transfer dcells device_busy 2 device_chip) as API.
  pose proof (fun entry => settings_take_effect 20 400 0 1 32 true true bc_eeprom bc_i2c bc_and bc_and bc_gdr 1 bc_regs (fun _ => STATUS_OK) bc_send
    bc_regs_return bc_sends dcells (fun d => device_busy d = O) kCapacity fits (API := API) ltac:(lia) ltac:(unfold kCapacity; lia) bc_sht2x bc_adc
    bc_saved (bc_start entry) _ 100 500 550 600 bc_output (bc_powered entry) eq_refl) as H.
  unfold bc_run. split.
  2:{ destruct (H bc_wild) as (s1 & _ & _ & Hw). apply Hw. exact bc_wild_ok. }
  destruct (H bc_clear) as (s1 & E1 & Hc & _).
  assert (bc_stored = s1) as E2 by (unfold bc_stored; by rewrite E1). rewrite <-E2 in Hc.
  destruct Hc as [Hsame _]; [eexists; split; [vm_compute; reflexivity|by left]|]. specialize (Hsame (fun x => eq_refl)).
  destruct (Hsame eq_refl) as (t' & E3 & _ & Hid & Hcf & _ & Hr & Hg). exists t'. split; [exact E3|]. split; [exact Hid|].
  split; [rewrite Hcf; vm_compute; reflexivity|]. split; [exact Hr|]. by apply Hg.
Defined.
