(* ===== verification/Boards.v ===== *)
(** * Boards: what is left of the drivers and boards

    The temperature sensor MCP9800 ([peripheral/mcp9800.c]) on an I2C bus that is given as
    in [Eeprom], the command of the SAMD20 board ([target/samd20_xplained/test_cmd.c])
    over the pins of [Samd20] and [strcmp], and the silent serial line of the simulator
    ([platform/sim/printk.c]). *)
From S2P Require Import Prelude ListApi Fw Eeprom CString CStringSpec Samd20.

(** ** mcp9800.c *)

Definition kMCP9800Address : Z := 0x90.
Definition kMCP9800ReadConfigCMD : Z := 0x1.
Definition kMCP9800WriteConfigCMD : Z := 0x1.

(** [struct mcp9800]; [i2c] is the bus the transfers are on. *)
Record mcp9800 := mk_mcp9800 { i2c : Z; config : Z }.

(** [memory] is what [malloc_raw] returns. *)
Definition mcp9800_create (memory i2c : Z) : option mcp9800 :=
  if negb (truth memory) then None else Some (mk_mcp9800 i2c 0).

Section Mcp9800.
Context {W : Type} (i2c_dev_transfer : Z -> Z -> list Z -> Z -> M W (Z * list Z)) (uninit : Z).

(** The status and the device after the call. *)
Definition mcp9800_read_config (dev : mcp9800) : M W (Z * mcp9800) :=
  let! r := i2c_dev_transfer (i2c dev) kMCP9800Address [kMCP9800ReadConfigCMD] 1 in
  let (status, buf) := (r : Z * list Z) in
  if negb (status =? STATUS_OK) then ret (STATUS_ERR 0, dev)
  else ret (STATUS_OK, mk_mcp9800 (i2c dev) (nth 0 buf uninit)).

Definition mcp9800_write_config (dev : mcp9800) : M W Z :=
  let! r := i2c_dev_transfer (i2c dev) kMCP9800Address [kMCP9800WriteConfigCMD; config dev] 0 in
  let (status, _) := (r : Z * list Z) in
  if negb (status =? STATUS_OK) then ret (STATUS_ERR 0) else ret STATUS_OK.

(** The chip: the first byte of a transfer selects the register, a second one is stored
    in it.  Either transfer can fail. *)
Record mcp9800_chip (bus : Z) (reg : W -> Z) : Prop := {
  chip_read w : exists s bs w', i2c_dev_transfer bus kMCP9800Address [kMCP9800ReadConfigCMD] 1 w = Ok (s, bs) w' /\
    reg w' = reg w /\ (s = STATUS_OK -> bs = [reg w]);
  chip_write w c : exists s bs w', i2c_dev_transfer bus kMCP9800Address [kMCP9800WriteConfigCMD; c] 0 w = Ok (s, bs) w' /\
    (s = STATUS_OK -> reg w' = c) }.

(** A configuration that was written is what is read later, whichever structure it is
    read into; a failure is reported and leaves the structure as it was. *)
Theorem mcp9800_keeps_config dev dev' reg w : mcp9800_chip (i2c dev) reg -> i2c dev' = i2c dev ->
  exists s w1, mcp9800_write_config dev w = Ok s w1 /\ (s = STATUS_OK \/ s = STATUS_ERR 0) /\
    exists s' d w2, mcp9800_read_config dev' w1 = Ok (s', d) w2 /\ i2c d = i2c dev' /\
      (s' = STATUS_ERR 0 /\ d = dev' \/ s' = STATUS_OK /\ config d = reg w1) /\
      (s = STATUS_OK -> s' = STATUS_OK -> config d = config dev).
Proof.
  intros [Hr Hw] Ei. destruct (Hw w (config dev)) as (s & bs & w1 & E1 & H1). destruct (Hr w1) as (s' & bs' & w2 & E2 & _ & H2).
  exists (if s =? STATUS_OK then STATUS_OK else STATUS_ERR 0), w1. split; [|split].
  - unfold mcp9800_write_config. rewrite (bind_ok _ _ _ _ _ E1). by destruct (s =? STATUS_OK).
  - destruct (s =? STATUS_OK); tauto.
  - rewrite <-Ei in E2. unfold mcp9800_read_config. rewrite (bind_ok _ _ _ _ _ E2).
    destruct (Z.eqb_spec s' STATUS_OK) as [->|Hs']; cbn [negb].
    + rewrite (H2 eq_refl). do 3 eexists. split; [done|]. split; [done|]. split; [by right|].
      intros Hs _. cbn [config nth]. apply H1. destruct (Z.eqb_spec s STATUS_OK); [done|discriminate].
    + do 3 eexists. split; [done|]. split; [done|]. split; [by left|]. intros _ Hs. discriminate.
Qed.
End Mcp9800.

(** A chip on bus 7: the world is its register. *)
Definition ex_chip (bus addr : Z) (wbuf : list Z) (n : Z) : M Z (Z * list Z) := fun r =>
  if negb ((bus =? 7) && (addr =? kMCP9800Address)) then Ok (STATUS_ERR 0, []) r
  else match wbuf with [_; c] => Ok (STATUS_OK, []) c | _ => Ok (STATUS_OK, [r]) r end.

Lemma mcp9800_keeps_config_witness : mcp9800_chip ex_chip 7 id /\
  exists s w1, mcp9800_write_config ex_chip (mk_mcp9800 7 0x60) 0 = Ok s w1 /\ (s = STATUS_OK \/ s = STATUS_ERR 0) /\
    exists s' d w2, mcp9800_read_config ex_chip 0 (mk_mcp9800 7 1) w1 = Ok (s', d) w2 /\ i2c d = 7 /\
      (s' = STATUS_ERR 0 /\ d = mk_mcp9800 7 1 \/ s' = STATUS_OK /\ config d = w1) /\
      (s = STATUS_OK -> s' = STATUS_OK -> config d = 0x60).
Proof.
  assert (mcp9800_chip ex_chip 7 id) as H by (split; intros; do 3 eexists; (split; [reflexivity|]); done).
  split; [exact H|]. exact (mcp9800_keeps_config ex_chip 0 (mk_mcp9800 7 0x60) (mk_mcp9800 7 1) id 0 H eq_refl).
Defined.

(** ** The serial line of the simulator *)

Definition sim_write_op (f : Z) (buf : list Z) (nbytes : Z) : Z := 0.

(** ** The command of the SAMD20 board *)

(** [PIN(PORTA, 14)]. *)
Definition kLEDPin : Z := 14.

(** The memory of the program and the registers of the chip. *)
Record board := mk_board { memory : bytes; chip : Samd20.bus }.
Definition on_memory {A} (c : M bytes A) : M board A := fun b =>
  match c (memory b) with Ok a m => Ok a (mk_board m (chip b)) | Fault f => Fault f end.
Definition on_chip {A} (c : M Samd20.bus A) : M board A := fun b =>
  match c (chip b) with Ok a s => Ok a (mk_board (memory b) s) | Fault f => Fault f end.

(** "led", "on" and "off". *)
Definition str_led : list Z := [108; 101; 100].
Definition str_on : list Z := [111; 110].
Definition str_off : list Z := [111; 102; 102].

Section TestCmd.
(** The addresses of the literals. *)
Context (lit_led lit_on lit_off : Z).

Definition test_cmd (argc : Z) (argv : list Z) : M board Z :=
  run!
    (if argc =? 3 then
       let! a1 := deref (fun _ => argv !! 1%nat) in
       let! c := on_memory (strcmp a1 lit_led) in
       if c =? 0 then
         run! on_chip (Samd20.gpio_set_direction kLEDPin Samd20.GPIO_DIRECTION_OUT) in
         let! a2 := deref (fun _ => argv !! 2%nat) in
         let! c := on_memory (strcmp a2 lit_on) in
         if c =? 0 then on_chip (Samd20.gpio_set kLEDPin false)
         else
           let! c := on_memory (strcmp a2 lit_off) in
           if c =? 0 then on_chip (Samd20.gpio_set kLEDPin true) else ret tt
       else ret tt
     else ret tt) in
  ret 0.

(** The accesses to the pin of the LED, which lights when the pin is low. *)
Definition led_accesses (argc : Z) (arg1 arg2 : list Z) : list access :=
  if (argc =? 3) && bool_decide (arg1 = str_led) then
    Wr (PORT kGPIORegDirSet) (2 ^ 14) ::
    (if bool_decide (arg2 = str_on) then [Wr (PORT kGPIORegDataClr) (2 ^ 14)]
     else if bool_decide (arg2 = str_off) then [Wr (PORT kGPIORegDataSet) (2 ^ 14)] else [])
  else [].

Lemma run_then (c : M board unit) b b' : c b = Ok tt b' -> (run! c in ret 0) b = Ok 0 b'.
Proof. intros E. by rewrite (bind_ok _ _ _ _ _ E). Qed.

(** The command compares its arguments as whole strings: the LED is switched exactly by
    "led on" and "led off", any other argument behind "led" only makes the pin an output,
    and nothing else touches the chip. *)
Theorem test_cmd_spec m s argc p0 p1 p2 arg1 arg2 :
  cstr m lit_led str_led -> cstr m lit_on str_on -> cstr m lit_off str_off -> cstr m p1 arg1 -> cstr m p2 arg2 ->
  Z.of_nat (length arg1) < 2 ^ 32 -> Z.of_nat (length arg2) < 2 ^ 32 ->
  test_cmd argc [p0; p1; p2] (mk_board m s) =
    Ok 0 (mk_board m (Samd20.mk_bus (feed s) (accesses s ++ led_accesses argc arg1 arg2))).
Proof.
  intros Hled Hon Hoff H1 H2 L1 L2.
  assert (forall p q t u, cstr m p t -> cstr m q u -> Z.of_nat (length t) < 2 ^ 32 -> Z.of_nat (length u) < 2 ^ 32 ->
    forall s, on_memory (strcmp p q) (mk_board m s) = Ok (lex t u) (mk_board m s)) as Hcmp.
  { intros p q t u Hp Hq Lt Lu s'. unfold on_memory. cbn [memory chip]. by rewrite (strcmp_run m p q t u). }
  assert (forall t u, (lex t u =? 0) = bool_decide (t = u)) as Hlex.
  { intros t u. case_bool_decide as E; [by apply Z.eqb_eq, lex_eq|]. apply Z.eqb_neq. by rewrite lex_eq. }
  unfold test_cmd, led_accesses. destruct (argc =? 3); cbn [andb]; [|destruct s; by rewrite app_nil_r].
  apply run_then. rewrite (bind_ok _ _ _ p1 (mk_board m s)) by done.
  rewrite (bind_ok _ _ _ _ _ (Hcmp _ _ _ _ H1 Hled L1 eq_refl s)), Hlex.
  case_bool_decide; [|destruct s; by rewrite app_nil_r]. destruct s as [f l]. unfold led_accesses. cbn [feed accesses].
  set (s1 := Samd20.mk_bus f (l ++ [Wr (PORT kGPIORegDirSet) (2 ^ 14)])).
  rewrite (bind_ok _ _ _ tt (mk_board m s1)), (bind_ok _ _ _ p2 (mk_board m s1)) by done.
  rewrite (bind_ok _ _ _ _ _ (Hcmp _ _ _ _ H2 Hon L2 eq_refl s1)), Hlex.
  case_bool_decide; [cbn; unfold s1; by rewrite <-app_assoc|].
  rewrite (bind_ok _ _ _ _ _ (Hcmp _ _ _ _ H2 Hoff L2 eq_refl s1)), Hlex.
  case_bool_decide; [cbn; unfold s1; by rewrite <-app_assoc|done].
Qed.
End TestCmd.

(** "led off" in memory. *)
Definition ex_args : bytes := poke 10 (str_led ++ [0]) (poke 20 (str_on ++ [0]) (poke 30 (str_off ++ [0])
  (poke 40 [108; 101; 100; 0] (poke 50 [111; 102; 102; 0] empty)))).

Lemma test_cmd_spec_witness :
  test_cmd 10 20 30 3 [5; 40; 50] (mk_board ex_args (Samd20.mk_bus [] [])) =
    Ok 0 (mk_board ex_args (Samd20.mk_bus [] [Wr (PORT 0x08) 0x4000; Wr (PORT 0x18) 0x4000])).
Proof.
  apply (test_cmd_spec 10 20 30 ex_args (Samd20.mk_bus [] []) 3 5 40 50 str_led str_off); try (vm_compute; done).
  all: split; [by repeat constructor|by repeat split].
Defined.
